(* ===== verification/_CoqProject ===== *)
-Q . S2P
Prelude.v
CInt.v
Errno.v
LibTime.v
Timeout.v
Kernel.v
ProcQueue.v
Cred.v
Resource.v
Memory.v
Linked.v
KMem.v
KHeap.v
KMedium.v
KLarge.v
KAlloc.v
Signal.v
Wait.v
Rendez.v
KSema.v
ProcExt.v
LibStr.v
Files.v
FileDesc.v
FdTable.v
DirStream.v
Vfs.v
Path.v
Dir.v
Pipe.v
PipeFs.v
