(* ===== verification/Prelude.v ===== *)
(** * FreeMiNT kernel verification: root file

    FreeMiNT is a multitasking kernel for the Atari ST family (src/sys).  This
    development models the parts of the kernel that keep the system's own state -
    the processes, their queues, owners, signals, priorities, timeouts and open
    files, the memory regions, the message and semaphore calls, the pipes - as
    functions on explicit states, and proves what these parts promise.

    ** Conventions

    - Code that changes the state is a computation of the monad [M S A] below: a
      function from a state to a value and a new state, or to [None].  [None] is a
      kernel panic: a failed [assert], a [FATAL], or the dereference of a pointer
      that is null or dangling.  A theorem that says that a call [= Some ...] thus
      says that it cannot panic.
    - A structure is a Record, an address a [ptr] (null is [None] at [option ptr]),
      a heap a [gmap] from addresses to records.  Two fields with the same address
      are aliases, and freed memory is an address that is no longer in the map.
    - The kernel is compiled with 16-bit [int] for a 32-bit machine.  An integer is
      a [Z]; [u8], [u16], [u32], [s8], [s16], [s32] of CInt.v are written wherever
      the C program can leave the range of a type.
    - In the components above the heap, memory from [kmalloc] is an argument: what the
      allocator returned, so that the theorems cover its failure; what it returns is the
      subject of KMem.v.  A heap state there is indexed by addresses in [Z], because the
      allocator computes with them.  Calls that switch to other processes, or enter a
      driver or a file system, are operations of a class ([SleepCalls], [SignalCalls],
      [DevCalls], [DirCalls], [PipeCalls], [Vfs]); laws they must obey are a second
      class, or a premise that says what the others may do while the caller sleeps.
    - A loop over a linked list takes fuel, and the fuel is the size of the heap the
      list lives in; the lemmas show that it is enough for a list without cycles.
      Loops that wait ([check_atomicity], [write_loop], [read_loop], [wait_lock],
      [sleep_loop]) take fuel as an argument; a liveness theorem states the fuel
      that suffices.  A path search has fuel for twice the length of the path, and for
      [MAX_LINKS] nested links; its theorems say that this is enough.

    ** Files

    - Prelude.v: the monad, record updates, tactics, lists.  CInt.v: integers of
      fixed width with the tactics [wrap_id], [wrap_lia].  Errno.v: error codes.
    - LibTime.v: sys/libkern/{unixtime,unix2xbios,dostime,ms_time}.c.  The calendar
      of a Unix time is the Gregorian one; conversions round trip.
    - LibStr.v: sys/libkern: ctype, comparisons, strtonumber, atol, strtol, strtoul,
      against the value of a numeral, with overflow.
    - Timeout.v: sys/timeout.c.  The pending timeouts are a delta list; a timeout
      fires exactly when the ticks up to its time have passed; cancelling one does
      not move the others.
    - Kernel.v: the state [kst] shared by the process components (sys/mint/proc.h,
      credentials.h, signal.h), and an example state.
    - ProcQueue.v: sys/proc.c: add_q, rm_q, wake, iwake, wakeselect, the choice of
      the next process, sleep.  The doubly linked queues represent lists
      ([queues_ok]); wake is the move of the waiters to the ready list; the process
      chosen is a fair one; sleep leaves the queues well-formed.
    - Cred.v: sys/k_prot.c: user and group ids with copy on write; no call raises a
      privilege.
    - Resource.v: sys/k_resource.c: priorities of processes, groups and users.
    - Memory.v: sys/memory.c: allocation and release of regions in a map, sharing,
      shadows; the map stays a partition, what is released can be allocated again.
    - KMem.v: sys/kmemory.c: kmalloc, kfree, dmabuf_alloc over small, medium and large
      blocks.  The regions and descriptors it is given are an argument ([supply]).
      Linked.v: doubly linked lists in general.  KHeap.v: the invariant [rep] that ties
      the heads in memory to the lists of pages, free blocks and large blocks, and the
      small blocks.  KMedium.v, KLarge.v: the two other strategies.  KAlloc.v: the heap
      as a map of areas ([heap]): kmalloc adds one, kfree removes one, no two overlap.
    - Signal.v: sys/signal.c, sys/dossig.c: posting, permissions, delivery, actions
      and masks; SIGKILL and SIGSTOP cannot be masked; delivery terminates.
    - Wait.v: sys/k_exit.c: the wait calls (pwaitpid, pwait, pwait3).  A zombie child
      is reported and reaped, once; the status word gives back what was put into it.
    - Rendez.v: sys/rendez.c: Pmsg and Psemaphore, the latter as a refinement of an
      abstract lock table.
    - KSema.v: sys/k_semaphore.c: the kernel's sleeping locks as a step relation of
      all processes; mutual exclusion, and no waiter is forgotten.
    - ProcExt.v: sys/proc_help.c: the extensions that modules hang on a process:
      lookup, attach, share with a child, release.
    - Files.v: sys/filesys.c: sharing modes, permissions, record locks, names.
    - FileDesc.v: sys/k_fds.c and the descriptor calls of sys/dosfile.c: a file has
      as many links as handles.  FdTable.v: sys/proc_help.c, sys/k_fork.c: the table of
      descriptors of a child, and its end ([tables_ok]: links of the tables, of the files,
      and the chains of directories).  DirStream.v: sys/dosdir.c, sys/dosfile.c: Dreaddir,
      Drewinddir, Dclosedir, Ffdopendir, Fdirfd and Fclose, which walk these chains.
    - Vfs.v: the working directories of processes and the cookies of file systems, with an
      account of the references ([inv]); the file systems are the class [Vfs]; rules for
      total correctness ([total]).  Path.v: sys/filesys.c: relpath2cookie, path2cookie.  A
      search ends, keeps the account and agrees with the lookup of one component after the
      other; a process cannot leave the root that Dchroot gave it.  Dir.v: sys/proc_help.c,
      sys/k_fork.c, sys/dosdir.c: the directories of a child, Dsetdrv, Dsetpath, Dchroot,
      Dcreate, Ddelete.
    - Pipe.v: sys/pipefs.c: the ring buffer, pipe_read, pipe_write, pseudo terminals.
      Bytes leave a pipe in the order in which they entered, small writes are atomic,
      a write with a reader ends.
    - PipeFs.v: sys/pipefs.c: the directory, attributes, opening, closing, select and
      ioctls of fifos.  The reader and writer counts are the numbers of open files; a
      fifo lives while one keeps it; a write wakes the process that selects.

    The components interact through the states: [fstate] (files) contains [kst]
    (processes), [pst] (pipes) and [dst] (tables with directories) contain [fstate];
    [on_kernel], [on_k] and [on_f] run a computation on the part.  A pipe wakes its readers with the wake of
    ProcQueue.v, a broken pipe raises a signal of Signal.v, opening one asks
    denyshare of Files.v, and a sleeping message or a stopped process goes through
    the queues of ProcQueue.v.

    ** Theorems

    Each property is a theorem with a number (C1, C2, ...).  Where it has premises a
    lemma with the suffix _witness applies it to a concrete state.  Groups: what a
    call does on every branch (psetreuid, get_region, post_sig, pwaitpid, do_dup,
    attach_extension, strtol, psetpriority, Dclosedir); invariants of the linked structures
    (queues, regions, links of files and tables, counts of pipes, timeouts, cookies); refinement of an abstract behaviour (the
    heap, wake, Psemaphore, denyshare against the sharing table); safety under any behaviour of
    the other processes (pipes, semaphores, privileges); liveness and termination
    (writes, semaphores, signal delivery, path searches); round trips (allocation, signal actions,
    messages, times, names, fork and exit); and examples of behaviour that the code does not mean
    to have (Fforce of a handle onto itself, a fifo that is never freed, the last small block of
    the heap, a child that leaves the root of its parent, a name that is too long, two
    directories for one handle, Fdirfd without a free handle).

    ** Not modelled

    Context switches and interrupt entry are assembler; drivers, the file systems on
    disks and the network are I/O.  Fork, exec and exit (except for the descriptors, the
    directories and the extensions), terminals and the in-memory file systems are kernel
    logic that is still open; disk_changed, changedrv and kern_follow_link are operations
    of the class [Vfs].  Of the modelled files: init_proc and the debugging dumps of proc.c,
    sys_prusage and sys_psetlimit, the program loader and Srealloc in memory.c, do_open,
    Dopendir, Fsfirst, hangup_b1 and hangup_done (a hangup is started in FileDesc.v, and
    excluded by [no_hangup] in the theorems of FdTable.v), pipe_dfree and pipe_fscntl; of
    kmemory.c the store of region descriptors, kcore and the statistics and traces of the
    debug configuration. *)

From stdpp Require Export base option list gmap.
From Stdlib Require Export ZArith Lia.

#[global] Open Scope Z_scope.
#[global] Set Default Goal Selector "!".

(** ** Pointers

    An address of a kernel object.  The null pointer is [None] at type
    [option ptr]. *)
Abbreviation ptr := positive.

(** ** The kernel monad

    A computation over a state [S].  [None] is a kernel panic: a failed
    [assert], a [FATAL], or the dereference of a null or dangling pointer. *)
Definition M (S A : Type) : Type := S → option (A * S).

#[export] Instance M_ret {S} : MRet (M S) := λ A a s, Some (a, s).
#[export] Instance M_bind {S} : MBind (M S) := λ A B k c s,
  match c s with
  | Some (a, s') => k a s'
  | None => None
  end.

(** A panic. *)
Definition mpanic {S A} : M S A := λ _, None.
(** [assert (b)]. *)
Definition massert {S} (b : bool) : M S unit :=
  λ s, if b then Some (tt, s) else None.
(** Read from the state. *)
Definition mgets {S A} (f : S → A) : M S A := λ s, Some (f s, s).
(** Write the state. *)
Definition mmod {S} (f : S → S) : M S unit := λ s, Some (tt, f s).
(** Dereference: the value, or a panic. *)
Definition mderef {S A} (f : S → option A) : M S A :=
  λ s, match f s with Some a => Some (a, s) | None => None end.
(** [if (b) c;] *)
Definition mwhen {S} (b : bool) (c : M S unit) : M S unit :=
  if b then c else mret tt.

(** A computation on a component of the state. *)
Definition mlift {S T A} (get : S → T) (put : T → S → S) (c : M T A) : M S A :=
  λ s, match c (get s) with
       | Some (a, t) => Some (a, put t s)
       | None => None
       end.

(** ** Running a computation *)

Lemma bind_run {S A B} (c : M S A) (k : A → M S B) s a s' :
  c s = Some (a, s') → (c ≫= k) s = k a s'.
Proof. intros H. unfold mbind, M_bind. by rewrite H. Qed.

Lemma bind_inv {S A B} (c : M S A) (k : A → M S B) s r :
  (c ≫= k) s = Some r → ∃ a s', c s = Some (a, s') ∧ k a s' = Some r.
Proof.
  unfold mbind, M_bind. destruct (c s) as [[a s']|]; [eauto|done].
Qed.

Lemma bind_assoc {S A B C} (c : M S A) (k : A → M S B) (h : B → M S C) s :
  ((c ≫= k) ≫= h) s = (c ≫= (λ a, k a ≫= h)) s.
Proof. unfold mbind, M_bind. by destruct (c s) as [[a s']|]. Qed.

Lemma ret_run {S A} (a : A) (s : S) : (mret a : M S A) s = Some (a, s).
Proof. done. Qed.

Lemma massert_run {S} (b : bool) (s : S) :
  b = true → massert b s = Some (tt, s).
Proof. by intros ->. Qed.

Lemma mderef_run {S A} (f : S → option A) s a :
  f s = Some a → mderef f s = Some (a, s).
Proof. unfold mderef. by intros ->. Qed.

(** ** Record update

    [build_setter eta proj] is the function that replaces the field [proj] of
    a record, where [eta r] rebuilds [r] from its projections. *)
Ltac build_setter eta proj :=
  let v := fresh "v" in let r := fresh "r" in
  intros v r;
  let t := eval cbv beta delta [eta] in (eta r) in
  let t' := eval pattern (proj r) in t in
  lazymatch t' with
  | (fun x => @?b x) _ => let u := eval cbv beta in (b v) in exact u
  end.

(** ** Tactics *)

(** Case analysis on the boolean tests of the goal, keeping the facts. *)
Ltac case_bool :=
  match goal with
  | |- context [if ?b then _ else _] =>
      lazymatch type of b with
      | bool => let E := fresh "E" in destruct b eqn:E
      end
  end.

(** Turn boolean facts about [Z] into propositions. *)
Ltac bool_to_prop :=
  repeat match goal with
  | H : (_ && _)%bool = true |- _ => apply andb_prop in H; destruct H
  | H : (_ || _)%bool = false |- _ => apply orb_false_elim in H; destruct H
  | H : negb _ = true |- _ => apply negb_true_iff in H
  | H : negb _ = false |- _ => apply negb_false_iff in H
  | H : (_ =? _) = true |- _ => apply Z.eqb_eq in H
  | H : (_ =? _) = false |- _ => apply Z.eqb_neq in H
  | H : (_ <? _) = true |- _ => apply Z.ltb_lt in H
  | H : (_ <? _) = false |- _ => apply Z.ltb_ge in H
  | H : (_ <=? _) = true |- _ => apply Z.leb_le in H
  | H : (_ <=? _) = false |- _ => apply Z.leb_gt in H
  | H : (_ >? _) = _ |- _ => rewrite Z.gtb_ltb in H
  | H : (_ >=? _) = _ |- _ => rewrite Z.geb_leb in H
  | H : bool_decide _ = true |- _ => apply bool_decide_eq_true_1 in H
  | H : bool_decide _ = false |- _ => apply bool_decide_eq_false_1 in H
  end.

Lemma bool_decide_Some_Z (a b : Z) : bool_decide (Some a = Some b) = (a =? b).
Proof.
  case_bool_decide; symmetry; [apply Z.eqb_eq|apply Z.eqb_neq]; congruence.
Qed.

(** Split conjunctions and disjunctions of the context. *)
Ltac destruct_cases :=
  repeat match goal with
  | H : _ ∨ _ |- _ => destruct H
  | H : _ ∧ _ |- _ => destruct H
  end.

(** ** Finite checks

    A property of the integers of an interval, decided by evaluation. *)
Definition Zrange (a : Z) (n : nat) : list Z :=
  (fix go (a : Z) (n : nat) : list Z :=
     match n with O => [] | S n => a :: go (a + 1) n end) a n.

Lemma Zrange_elem a n x : a ≤ x < a + Z.of_nat n → x ∈ Zrange a n.
Proof.
  revert a. induction n as [|n IH]; intros a Hx; [lia|]. cbn.
  destruct (decide (x = a)) as [->|]; [left|].
  right. apply IH. lia.
Qed.

Lemma forallb_range (f : Z → bool) a n x :
  forallb f (Zrange a n) = true → a ≤ x < a + Z.of_nat n → f x = true.
Proof.
  intros Hf Hx. rewrite forallb_forall in Hf. apply Hf.
  apply list_elem_of_In. by apply Zrange_elem.
Qed.

(** ** Lists *)

Section list_lemmas.
Context {A : Type}.
Implicit Types l : list A.

(** The index of the predecessor of position [i]. *)
Definition prev_at l (i : nat) : option A :=
  match i with O => None | S j => l !! j end.

Lemma last_is_lookup l : last l = l !! Nat.pred (length l).
Proof. apply last_lookup. Qed.

Lemma head_is_lookup l : head l = l !! 0%nat.
Proof. by destruct l. Qed.

Lemma last_snoc_eq l x : last (l ++ [x]) = Some x.
Proof. apply last_snoc. Qed.

Lemma filter_all (P : A → Prop) `{∀ x, Decision (P x)} l :
  Forall P l → filter P l = l.
Proof.
  induction 1 as [|x l Hx Hl IH]; [done|].
  by rewrite filter_cons, decide_True, IH.
Qed.

Lemma filter_none (P : A → Prop) `{∀ x, Decision (P x)} l :
  Forall (λ x, ¬ P x) l → filter P l = [].
Proof.
  induction 1 as [|x l Hx Hl IH]; [done|].
  by rewrite filter_cons, decide_False, IH.
Qed.

Lemma Forall_filter (P Q : A → Prop) `{∀ x, Decision (P x)} l :
  Forall Q l → Forall Q (filter P l).
Proof.
  rewrite !Forall_forall. intros HQ x [_ Hx]%list_elem_of_filter. auto.
Qed.

Lemma list_insert_elem l i x y : y ∈ <[i := x]> l → y = x ∨ y ∈ l.
Proof.
  intros Hy. apply list_elem_of_lookup in Hy as [j Hj].
  apply list_lookup_insert_Some in Hj as [(-> & <- & _)|[_ Hj]]; [by left|right].
  by eapply list_elem_of_lookup_2.
Qed.

Lemma filter_negb_partition (f : A → bool) l :
  filter f l ++ filter (λ x, negb (f x)) l ≡ₚ l.
Proof.
  induction l as [|x l IH]; [done|].
  rewrite !filter_cons. destruct (f x) eqn:Hf; cbn.
  - rewrite decide_True by done. rewrite decide_False by naive_solver.
    cbn. by rewrite IH.
  - rewrite decide_False by naive_solver. rewrite decide_True by done.
    rewrite <- Permutation_middle. by rewrite IH.
Qed.
End list_lemmas.
