(* ===== verification/CInt.v ===== *)
(** * Machine integers of the kernel

    The kernel is compiled with [-mshort] for a 32-bit big-endian machine:
    [char] has 8 bits, [short] and [int] 16 bits, [long] and pointers 32 bits.
    An integer is a [Z]; the conversions of the C program are written out. *)

From S2P Require Import Prelude.

(** The value of [n] as an unsigned integer of 8, 16 and 32 bits. *)
Definition u8 (n : Z) : Z := n mod 256.
Definition u16 (n : Z) : Z := n mod 65536.
Definition u32 (n : Z) : Z := n mod 4294967296.
(** The value of [n] as a two's complement integer of 8, 16 and 32 bits. *)
Definition s8 (n : Z) : Z := (n + 128) mod 256 - 128.
Definition s16 (n : Z) : Z := (n + 32768) mod 65536 - 32768.
Definition s32 (n : Z) : Z := (n + 2147483648) mod 4294967296 - 2147483648.

(** The bit [1L << n] of a 32-bit mask. *)
Definition bit (n : Z) : Z := Z.shiftl 1 n.
(** [~m] on a 32-bit mask. *)
Definition not32 (m : Z) : Z := Z.lxor m 4294967295.
(** [~m] on a 16-bit mask. *)
Definition not16 (m : Z) : Z := Z.lxor m 65535.

(** Decide a statement about conversions by linear arithmetic. *)
Ltac wrap_lia :=
  unfold u8, u16, u32, s8, s16, s32 in *; Z.div_mod_to_equations; lia.

Lemma u8_id n : 0 ≤ n < 256 → u8 n = n.
Proof. wrap_lia. Qed.
Lemma u16_id n : 0 ≤ n < 65536 → u16 n = n.
Proof. wrap_lia. Qed.
Lemma u32_id n : 0 ≤ n < 4294967296 → u32 n = n.
Proof. wrap_lia. Qed.
Lemma s8_id n : -128 ≤ n < 128 → s8 n = n.
Proof. wrap_lia. Qed.
Lemma s16_id n : -32768 ≤ n < 32768 → s16 n = n.
Proof. wrap_lia. Qed.
Lemma s32_id n : -2147483648 ≤ n < 2147483648 → s32 n = n.
Proof. wrap_lia. Qed.
Lemma u8_range n : 0 ≤ u8 n < 256.
Proof. wrap_lia. Qed.
Lemma u16_range n : 0 ≤ u16 n < 65536.
Proof. wrap_lia. Qed.
Lemma u32_range n : 0 ≤ u32 n < 4294967296.
Proof. wrap_lia. Qed.
Lemma s16_range n : -32768 ≤ s16 n < 32768.
Proof. wrap_lia. Qed.
Lemma s32_range n : -2147483648 ≤ s32 n < 2147483648.
Proof. wrap_lia. Qed.
(** A conversion only sees its argument modulo the width. *)
Lemma u32_s32 n : u32 (s32 n) = u32 n.
Proof. wrap_lia. Qed.
Lemma u16_s16 n : u16 (s16 n) = u16 n.
Proof. wrap_lia. Qed.
Lemma s32_u32 n : s32 (u32 n) = s32 n.
Proof. wrap_lia. Qed.

Create Rewrite HintDb cint.
#[export] Hint Rewrite u8_id u16_id u32_id s8_id s16_id s32_id using lia : cint.

(** Remove the conversions of values that are in range. *)
Ltac wrap_id := autorewrite with cint.

(** ** Bits of masks *)

Section masks.
Implicit Types m n i j : Z.

Lemma bit_spec n i : 0 ≤ n → Z.testbit (bit n) i = (i =? n).
Proof.
  intros Hn. unfold bit. rewrite Z.shiftl_mul_pow2, Z.mul_1_l by lia.
  rewrite Z.pow2_bits_eqb by lia. apply Z.eqb_sym.
Qed.

Lemma bit_nonneg n : 0 ≤ bit n.
Proof. apply Z.shiftl_nonneg. lia. Qed.

Lemma ones_spec w i : 0 ≤ w → 0 ≤ i → Z.testbit (Z.ones w) i = (i <? w).
Proof.
  intros.
  destruct (Z.ltb_spec i w).
  - rewrite Z.ones_spec_low; [done|lia].
  - rewrite Z.ones_spec_high; [done|lia].
Qed.

Lemma not32_spec m i :
  0 ≤ i → Z.testbit (not32 m) i = xorb (Z.testbit m i) (i <? 32).
Proof.
  intros. unfold not32. change 4294967295 with (Z.ones 32).
  by rewrite Z.lxor_spec, ones_spec by lia.
Qed.

(** [m & (1L << n)] is zero exactly when the bit is clear. *)
Lemma land_bit_zero m n :
  0 ≤ n → (Z.land m (bit n) =? 0) = negb (Z.testbit m n).
Proof.
  intros Hn. apply Bool.eq_iff_eq_true.
  rewrite negb_true_iff, Z.eqb_eq. split.
  - intros H. assert (Z.testbit (Z.land m (bit n)) n = false) as Hb
      by (rewrite H; apply Z.bits_0).
    rewrite Z.land_spec, bit_spec, Z.eqb_refl, andb_true_r in Hb; done.
  - intros H. apply Z.bits_inj_0. intros i.
    rewrite Z.land_spec, bit_spec by done.
    destruct (Z.eqb_spec i n) as [->|]; [by rewrite H|].
    apply andb_false_r.
Qed.

(** [m | (1L << n)] *)
Lemma lor_bit_spec m n i :
  0 ≤ n → Z.testbit (Z.lor m (bit n)) i = Z.testbit m i || (i =? n).
Proof. intros. by rewrite Z.lor_spec, bit_spec. Qed.

(** [m & ~(1L << n)] *)
Lemma land_not32_bit_spec m n i :
  0 ≤ n < 32 → 0 ≤ i < 32 →
  Z.testbit (Z.land m (not32 (bit n))) i = Z.testbit m i && negb (i =? n).
Proof.
  intros. rewrite Z.land_spec, not32_spec, bit_spec by lia.
  replace (i <? 32) with true by lia. by destruct (Z.testbit m i), (i =? n).
Qed.
End masks.

(** The bits of a number in two parts. *)
Lemma testbit_parts w h l i :
  0 ≤ w → 0 ≤ l < 2 ^ w → 0 ≤ i →
  Z.testbit (h * 2 ^ w + l) i = if i <? w then Z.testbit l i else Z.testbit h (i - w).
Proof.
  intros Hw Hl Hi. destruct (Z.ltb_spec i w).
  - rewrite <- (Z.mod_pow2_bits_low _ w) by lia. f_equal. symmetry.
    apply (Z.mod_unique _ _ h); [lia|ring].
  - replace i with ((i - w) + w) at 1 by lia. rewrite <- Z.div_pow2_bits by lia. f_equal.
    symmetry. apply (Z.div_unique _ _ _ l); [lia|ring].
Qed.

Lemma land_parts w h l h' l' :
  0 ≤ w → 0 ≤ l < 2 ^ w → 0 ≤ l' < 2 ^ w →
  Z.land (h * 2 ^ w + l) (h' * 2 ^ w + l') = Z.land h h' * 2 ^ w + Z.land l l'.
Proof.
  intros Hw Hl Hl'. apply Z.bits_inj'. intros i Hi.
  assert (0 ≤ Z.land l l' < 2 ^ w) as Hll.
  { destruct (decide (l = 0)) as [->|]; [rewrite Z.land_0_l; lia|].
    assert (0 ≤ Z.land l l') by (apply Z.land_nonneg; lia). split; [done|].
    rewrite <- (Z.mod_small l (2 ^ w)) by lia. rewrite <- Z.land_ones by lia.
    rewrite (Z.land_comm l), <- Z.land_assoc, Z.land_comm, Z.land_ones by lia.
    apply Z.mod_pos_bound. lia. }
  rewrite Z.land_spec, !testbit_parts by lia. case_match; by rewrite Z.land_spec.
Qed.

Lemma lor_parts w h l h' l' :
  0 ≤ w → 0 ≤ l < 2 ^ w → 0 ≤ l' < 2 ^ w →
  Z.lor (h * 2 ^ w + l) (h' * 2 ^ w + l') = Z.lor h h' * 2 ^ w + Z.lor l l'.
Proof.
  intros Hw Hl Hl'. apply Z.bits_inj'. intros i Hi.
  assert (0 ≤ Z.lor l l' < 2 ^ w) as Hll.
  { split; [apply Z.lor_nonneg; lia|].
    rewrite <- (Z.mod_small l (2 ^ w)), <- (Z.mod_small l' (2 ^ w)) by lia.
    rewrite <- !Z.land_ones, <- Z.land_lor_distr_l, Z.land_ones by lia.
    apply Z.mod_pos_bound. lia. }
  rewrite Z.lor_spec, !testbit_parts by lia. case_match; by rewrite Z.lor_spec.
Qed.
