(* ===== verification/Errno.v ===== *)
(** * Error codes

    The kernel is compiled without [POSITIVE_ERROR_CODES], so that
    [__KERNEL_NEG (c)] is [-c] (sys/mint/errno.h). *)

From S2P Require Import Prelude.

Definition E_OK : Z := 0.
Definition EERROR : Z := -1.
Definition ENODEV : Z := -15.
Definition ESRCH : Z := -20.
Definition EINVAL : Z := -25.
Definition ENOSYS : Z := -32.
Definition ENOENT : Z := -33.
Definition ENOTDIR : Z := -34.
Definition EMFILE : Z := -35.
Definition EACCES : Z := -36.
Definition EBADF : Z := -37.
Definition EPERM : Z := -38.
Definition ENOMEM : Z := -39.
Definition ENXIO : Z := -46.
Definition EBADARG : Z := -64.
Definition EINTERNAL : Z := -65.
Definition ESBLOCK : Z := -67.
Definition EPIPE : Z := -81.
Definition EOVERFLOW : Z := -122.
Definition EINTR : Z := -128.
