(* ===== verification/LibTime.v ===== *)
(** * Calendar conversions of libkern

    [unixtime] (sys/libkern/unixtime.c), [unix2calendar] and [unix2xbios]
    (sys/libkern/unix2xbios.c), [dostime] (sys/libkern/dostime.c) and
    [ms_time] (sys/libkern/ms_time.c). *)

From S2P Require Import Prelude CInt.

(** ** DOS time to Unix time *)

Definition mth_start : list Z :=
  [0; 31; 59; 90; 120; 151; 181; 212; 243; 273; 304; 334; 365].

(** The day count and the seconds of the day, as the C expression adds them.
    [None]: the month field selects an element outside [mth_start]. *)
Definition unixtime (time date : Z) : option Z :=
  let sec := Z.shiftl (Z.land time 31) 1 in
  let min := Z.land (Z.shiftr time 5) 63 in
  let hour := Z.land (Z.shiftr time 11) 31 in
  let mday := Z.land date 31 in
  let mon := Z.land (Z.shiftr date 5) 15 - 1 in
  let year := 80 + Z.land (Z.shiftr date 9) 127 in
  if mon <? 0 then None else
  start ← mth_start !! Z.to_nat mon;
  let s := (mday - 1) + start +
           (if negb (Z.rem year 4 =? 0) then 0 else if mon >? 1 then 1 else 0) in
  Some (s32 (sec + min * 60 + hour * 3600 + s * 86400 + (year - 70) * 31536000
             + Z.quot (year - 69) 4 * 86400)).

(** ** Unix time to calendar *)

Definition mon_yday_normal : list Z :=
  [0; 31; 59; 90; 120; 151; 181; 212; 243; 273; 304; 334].
Definition mon_yday_leap : list Z :=
  [0; 31; 60; 91; 121; 152; 182; 213; 244; 274; 305; 335].

Definition SECS_PER_HOUR : Z := 60 * 60.
Definition SECS_PER_DAY : Z := SECS_PER_HOUR * 24.

Definition LEAPS_THRU_END_OF (y : Z) : Z :=
  Z.quot y 4 - Z.quot y 100 + Z.quot y 400.

Definition isleap (year : Z) : bool :=
  (Z.rem year 4 =? 0) && (negb (Z.rem year 100 =? 0) || (Z.rem year 400 =? 0)).

Record calendar := mk_calendar {
  cal_year : Z; cal_month : Z; cal_day : Z;
  cal_hour : Z; cal_minute : Z; cal_second : Z
}.

(** The loop that corrects the year: one pass. *)
Definition year_step (y days : Z) : Z * Z :=
  let yg := y + Z.quot days 365 - (if Z.rem days 365 <? 0 then 1 else 0) in
  (yg, days - ((yg - y) * 365
               + LEAPS_THRU_END_OF (yg - 1) - LEAPS_THRU_END_OF (y - 1))).

Fixpoint year_loop (fuel : nat) (y days : Z) : option (Z * Z) :=
  if (days <? 0) || (days >=? (if isleap y then 366 else 365)) then
    match fuel with
    | O => None
    | S fuel => let '(y, days) := year_step y days in year_loop fuel y days
    end
  else Some (y, days).

(** [for (y = 11; days < ip [y]; --y)] *)
Fixpoint month_loop (ip : list Z) (y : nat) (days : Z) : option (nat * Z) :=
  start ← ip !! y;
  if days <? start then
    match y with O => None | S y => month_loop ip y days end
  else Some (y, start).

(** Every result pointer is taken to be non-null. *)
Definition unix2calendar (fuel : nat) (tv_sec : Z) : option calendar :=
  let days := Z.quot tv_sec SECS_PER_DAY in
  let rem := Z.rem tv_sec SECS_PER_DAY in
  let hour := u16 (Z.quot rem SECS_PER_HOUR) in
  let rem := Z.rem rem SECS_PER_HOUR in
  let minute := u16 (Z.quot rem 60) in
  let second := u16 (Z.rem rem 60) in
  '(y, days) ← year_loop fuel 1970 days;
  let ip := if isleap y then mon_yday_leap else mon_yday_normal in
  '(m, start) ← month_loop ip 11 days;
  let days := days - start in
  Some (mk_calendar (u16 y) (u16 (u16 (Z.of_nat m) + 1)) (u16 (u16 days + 1))
          hour minute second).

(** The bit fields of [struct dostime], from the most significant bit. *)
Definition pack_date (year month day : Z) : Z :=
  (year mod 128) * 512 + (month mod 16) * 32 + day mod 32.
Definition pack_time (hour minute sec2 : Z) : Z :=
  (hour mod 32) * 2048 + (minute mod 64) * 32 + sec2 mod 32.

Definition unix2xbios (fuel : nat) (tv_sec : Z) : option Z :=
  c ← unix2calendar fuel tv_sec;
  Some (s32 (pack_date (u16 (cal_year c) - 1980) (cal_month c) (cal_day c)
             * 65536
             + pack_time (cal_hour c) (cal_minute c)
                 (Z.shiftr (cal_second c) 1))).

(** [SWAP32]: exchange the two halves of a longword. *)
Definition SWAP32 (l : Z) : Z :=
  s32 (Z.land l 65535 * 65536 + Z.land (Z.shiftr l 16) 65535).

Definition dostime (fuel : nat) (tv_sec : Z) : option Z :=
  x ← unix2xbios fuel tv_sec; Some (SWAP32 x).

(** ** Milliseconds to a GEMDOS time *)

(** The two words [timeptr[0]] and [timeptr[1]]. *)
Definition ms_time (ms : Z) : Z * Z :=
  let secs := ms / 1000 in
  let tsec := s16 (secs mod 60) in
  let secs := secs / 60 in
  let tmin := s16 (secs mod 60) in
  let secs := secs / 60 in
  let thour := s16 (secs mod 24) in
  let secs := secs / 24 in
  let tday := s16 (secs mod 30) in
  let secs := secs / 30 in
  let tmonth := s16 (secs mod 12) in
  let tyear := s16 (secs / 12) in
  (s16 (Z.lor (Z.lor (Z.shiftl thour 11) (Z.shiftl tmin 5)) (Z.shiftr tsec 1)),
   s16 (Z.lor (Z.lor (Z.shiftl tyear 9) (Z.shiftl (tmonth + 1) 5)) (tday + 1))).

(** ** Specification: the Gregorian calendar *)

Definition is_leap_year (y : Z) : bool :=
  (y mod 4 =? 0) && (negb (y mod 100 =? 0) || (y mod 400 =? 0)).

Definition month_length (leap : bool) (m : Z) : Z :=
  if m =? 2 then if leap then 29 else 28
  else if (m =? 4) || (m =? 6) || (m =? 9) || (m =? 11) then 30 else 31.

Definition days_in_month (y m : Z) : Z := month_length (is_leap_year y) m.

Definition date : Type := Z * Z * Z.

(** The day after a date. *)
Definition next_day (dt : date) : date :=
  let '(y, m, d) := dt in
  if d <? days_in_month y m then (y, m, d + 1)
  else if m <? 12 then (y, m + 1, 1)
  else (y + 1, 1, 1).

(** The date [n] days after 1 January 1970. *)
Definition date_at (n : nat) : date := Nat.iter n next_day (1970, 1, 1).

(** ** Lemmas: the day part, checked for every day of the 32-bit range *)

(** The date that [unix2calendar] computes for a day number. *)
Definition date_of_day (days : Z) : option date :=
  '(y, days) ← year_loop 3 1970 days;
  let ip := if isleap y then mon_yday_leap else mon_yday_normal in
  '(m, start) ← month_loop ip 11 days;
  Some (u16 y, u16 (u16 (Z.of_nat m) + 1), u16 (u16 (days - start) + 1)).

#[local] Arguments month_loop : simpl never.
#[local] Arguments year_loop : simpl never.

Lemma unix2calendar_split t :
  unix2calendar 3 t =
  ('(y, m, d) ← date_of_day (Z.quot t SECS_PER_DAY);
   let rem := Z.rem t SECS_PER_DAY in
   Some (mk_calendar y m d (u16 (Z.quot rem SECS_PER_HOUR))
           (u16 (Z.quot (Z.rem rem SECS_PER_HOUR) 60))
           (u16 (Z.rem (Z.rem rem SECS_PER_HOUR) 60)))).
Proof.
  unfold unix2calendar, date_of_day. cbn beta zeta.
  destruct (year_loop 3 1970 _) as [[y ds]|]; [|done]. cbn.
  destruct (month_loop (if isleap y then mon_yday_leap else mon_yday_normal)
             11 ds) as [[m st]|]; reflexivity.
Qed.

(** *** The year loop *)

(** The day number of 1 January. *)
Definition year_start (y : Z) : Z :=
  365 * (y - 1970) + LEAPS_THRU_END_OF (y - 1) - LEAPS_THRU_END_OF 1969.

Definition year_len (y : Z) : Z := if isleap y then 366 else 365.

Lemma isleap_is_leap_year y : 0 ≤ y → isleap y = is_leap_year y.
Proof. intros. unfold isleap, is_leap_year. by rewrite !Z.rem_mod_nonneg by lia. Qed.

Lemma LEAPS_bounds a b :
  0 ≤ a ≤ b →
  0 ≤ LEAPS_THRU_END_OF b - LEAPS_THRU_END_OF a ≤ (b - a) / 4 + 1.
Proof.
  intros. unfold LEAPS_THRU_END_OF. rewrite !Z.quot_div_nonneg by lia.
  Z.div_mod_to_equations. lia.
Qed.

Lemma year_start_succ y : 1 ≤ y → year_start (y + 1) = year_start y + year_len y.
Proof.
  intros. unfold year_start, year_len.
  rewrite isleap_is_leap_year by lia. unfold is_leap_year, LEAPS_THRU_END_OF.
  rewrite !Z.quot_div_nonneg by lia.
  destruct (Z.eqb_spec (y mod 4) 0), (Z.eqb_spec (y mod 100) 0),
    (Z.eqb_spec (y mod 400) 0); cbn; Z.div_mod_to_equations; lia.
Qed.

Lemma year_step_spec y days y' days' :
  year_step y days = (y', days') →
  year_start y' + days' = year_start y + days.
Proof. unfold year_step, year_start. intros [= <- <-]. lia. Qed.

Lemma year_len_bounds y : 365 ≤ year_len y ≤ 366.
Proof. unfold year_len. destruct (isleap y); lia. Qed.

Lemma year_loop_unfold fuel y days :
  year_loop fuel y days =
  if (days <? 0) || (days >=? year_len y) then
    match fuel with
    | O => None
    | S fuel => let '(y, days) := year_step y days in year_loop fuel y days
    end
  else Some (y, days).
Proof. by destruct fuel. Qed.

Lemma year_loop_done fuel y days :
  0 ≤ days < year_len y → year_loop fuel y days = Some (y, days).
Proof.
  intros H. rewrite year_loop_unfold.
  by replace ((days <? 0) || (days >=? year_len y)) with false by lia.
Qed.

Lemma year_loop_step fuel y days :
  ¬ (0 ≤ days < year_len y) →
  year_loop (S fuel) y days =
  let '(y, days) := year_step y days in year_loop fuel y days.
Proof.
  intros H. rewrite year_loop_unfold.
  by replace ((days <? 0) || (days >=? year_len y)) with true by lia.
Qed.

(** Every day of the 32-bit range is located in at most two passes. *)
Lemma year_loop_ok days :
  -24856 ≤ days < 24856 →
  ∃ y r, year_loop 3 1970 days = Some (y, r) ∧
         days = year_start y + r ∧ 0 ≤ r < year_len y ∧ 1900 ≤ y < 2040.
Proof.
  intros Hd.
  assert (∀ f y r, year_start y + r = days → 0 ≤ r < year_len y →
            1900 ≤ y < 2040 →
            ∃ y' r', year_loop f y r = Some (y', r') ∧
              days = year_start y' + r' ∧ 0 ≤ r' < year_len y' ∧
              1900 ≤ y' < 2040) as Hdone.
  { intros f y r H Hr Hy. exists y, r.
    rewrite year_loop_done by done. repeat split; lia. }
  assert (year_start 1970 = 0) as H0 by reflexivity.
  destruct (decide (0 ≤ days < year_len 1970)) as [Hin|Hout].
  { apply (Hdone 3%nat 1970 days); lia. }
  rewrite year_loop_step by done.
  destruct (year_step 1970 days) as [y1 d1] eqn:E1.
  pose proof (year_step_spec _ _ _ _ E1) as S1.
  assert (1901 ≤ y1 < 2039 ∧ -18 ≤ d1 ≤ 382) as [Hy1 Hd1].
  { unfold year_step in E1. injection E1 as Hy Hdd.
    assert (y1 = 1970 + days / 365) as Hy1.
    { rewrite <- Hy. destruct (Z.ltb_spec (Z.rem days 365) 0);
        Z.to_euclidean_division_equations; lia. }
    assert (1901 ≤ y1 < 2039) by (Z.div_mod_to_equations; lia).
    assert (LEAPS_THRU_END_OF 1969 = 477) as HL by reflexivity.
    rewrite H0 in S1. unfold year_start in S1. rewrite HL in S1.
    split; [done|].
    destruct (Z.le_gt_cases 1970 y1).
    - pose proof (LEAPS_bounds 1969 (y1 - 1) ltac:(lia)) as HB.
      rewrite HL in HB.
      Z.div_mod_to_equations; lia.
    - pose proof (LEAPS_bounds (y1 - 1) 1969 ltac:(lia)) as HB.
      rewrite HL in HB.
      Z.div_mod_to_equations; lia. }
  destruct (decide (0 ≤ d1 < year_len y1)) as [Hin1|Hout1].
  { apply Hdone; lia. }
  rewrite year_loop_step by done.
  destruct (year_step y1 d1) as [y2 d2] eqn:E2.
  pose proof (year_step_spec _ _ _ _ E2) as S2.
  pose proof (year_len_bounds y1).
  apply Hdone; [lia| |]; unfold year_step in E2; injection E2 as Hy Hdd;
    clear Hdd; revert Hy; destruct (Z.ltb_spec (Z.rem d1 365) 0); intros Hy.
  - (* one year back *)
    assert (y2 = y1 - 1) as -> by (Z.to_euclidean_division_equations; lia).
    pose proof (year_start_succ (y1 - 1) ltac:(lia)) as Hs.
    replace (y1 - 1 + 1) with y1 in Hs by lia.
    pose proof (year_len_bounds (y1 - 1)).
    assert (d1 < 0) by (Z.to_euclidean_division_equations; lia). lia.
  - (* one year forward *)
    assert (365 ≤ d1) by (Z.to_euclidean_division_equations; lia).
    assert (y2 = y1 + 1) as -> by (Z.to_euclidean_division_equations; lia).
    pose proof (year_start_succ y1 ltac:(lia)) as Hs.
    pose proof (year_len_bounds (y1 + 1)). lia.
  - Z.to_euclidean_division_equations; lia.
  - Z.to_euclidean_division_equations; lia.
Qed.

Lemma year_start_lt y y' :
  1 ≤ y → y < y' → year_start y + year_len y ≤ year_start y'.
Proof.
  intros Hy Hlt.
  enough (∀ n : nat, year_start y + year_len y ≤ year_start (y + 1 + Z.of_nat n))
    as H by (specialize (H (Z.to_nat (y' - y - 1)));
             by replace (y + 1 + _) with y' in H by lia).
  induction n as [|n IH].
  - rewrite Z.add_0_r, year_start_succ by lia. lia.
  - replace (y + 1 + Z.of_nat (S n)) with (y + 1 + Z.of_nat n + 1) by lia.
    rewrite year_start_succ by lia.
    pose proof (year_len_bounds (y + 1 + Z.of_nat n)). lia.
Qed.

Lemma year_start_unique y r y' r' :
  1 ≤ y → 1 ≤ y' → 0 ≤ r < year_len y → 0 ≤ r' < year_len y' →
  year_start y + r = year_start y' + r' → y = y' ∧ r = r'.
Proof.
  intros. destruct (Z.lt_trichotomy y y') as [Hlt|[->|Hgt]].
  - pose proof (year_start_lt y y'). lia.
  - lia.
  - pose proof (year_start_lt y' y). lia.
Qed.

(** *** The month loop, checked on the days of both kinds of year *)

Definition month_day (leap : bool) (r : Z) : option (Z * Z) :=
  '(m, start) ← month_loop (if leap then mon_yday_leap else mon_yday_normal) 11 r;
  Some (Z.of_nat m + 1, r - start + 1).

(** The date of [r], the date of [r + 1] and the day of the year that
    [unixtime] computes. *)
Definition month_day_ok (leap : bool) (r : Z) : bool :=
  match month_day leap r with
  | Some (m, d) =>
      (1 <=? m) && (m <=? 12) && (1 <=? d) && (d <=? 31) &&
      (if d <? month_length leap m then
         bool_decide (month_day leap (r + 1) = Some (m, d + 1))
       else if m <? 12 then
         bool_decide (month_day leap (r + 1) = Some (m + 1, 1))
       else r + 1 =? (if leap then 366 else 365)) &&
      bool_decide (mth_start !! Z.to_nat (m - 1) =
                   Some (r - (d - 1) - (if leap then if m >? 2 then 1 else 0 else 0)))
  | None => false
  end.

Lemma month_day_ok_all :
  forallb (month_day_ok true) (Zrange 0 366) = true ∧
  forallb (month_day_ok false) (Zrange 0 365) = true.
Proof. split; vm_compute; reflexivity. Qed.

Lemma month_day_spec (leap : bool) (r : Z) :
  0 ≤ r < (if leap then 366 else 365) → month_day_ok leap r = true.
Proof.
  destruct month_day_ok_all as [Ht Hf]. intros.
  destruct leap; eapply forallb_range; try done; lia.
Qed.

Lemma date_of_day_at days :
  -24856 ≤ days < 24856 →
  ∃ y r m d, days = year_start y + r ∧ 0 ≤ r < year_len y ∧ 1900 ≤ y < 2040 ∧
    month_day (isleap y) r = Some (m, d) ∧ 1 ≤ m ≤ 12 ∧ 1 ≤ d ≤ 31 ∧
    date_of_day days = Some (y, m, d).
Proof.
  intros Hd. destruct (year_loop_ok days Hd) as (y & r & Hl & He & Hr & Hy).
  pose proof (month_day_spec (isleap y) r Hr) as Hm.
  unfold month_day_ok in Hm.
  destruct (month_day (isleap y) r) as [[m d]|] eqn:Hmd; [|done].
  bool_to_prop. exists y, r, m, d. repeat (split; [done || lia|]).
  unfold date_of_day. rewrite Hl. cbn. unfold month_day in Hmd.
  destruct (month_loop (if isleap y then mon_yday_leap else mon_yday_normal)
              11 r) as [[k st]|]; [|done]. cbn in Hmd |- *.
  injection Hmd as <- <-. do 3 f_equal; wrap_lia.
Qed.

Lemma date_of_day_next days dt :
  0 ≤ days → days + 1 < 24856 →
  date_of_day days = Some dt → date_of_day (days + 1) = Some (next_day dt).
Proof.
  intros H0 H1.
  destruct (date_of_day_at days) as (y & r & m & d & He & Hr & Hy & Hmd & Hm & Hd & ->);
    [lia|].
  destruct (date_of_day_at (days + 1))
    as (y' & r' & m' & d' & He' & Hr' & Hy' & Hmd' & Hm' & Hd' & ->); [lia|].
  intros [= <-]. f_equal.
  pose proof (month_day_spec (isleap y) r Hr) as Hok.
  unfold month_day_ok in Hok. rewrite Hmd in Hok. bool_to_prop.
  pose proof (year_start_succ y ltac:(lia)) as Hs.
  unfold next_day, days_in_month. rewrite <- isleap_is_leap_year by lia.
  destruct (decide (r + 1 < year_len y)) as [Hin|Hout].
  - destruct (year_start_unique y (r + 1) y' r') as [<- <-]; try lia.
    destruct (d <? month_length (isleap y) m); bool_to_prop; [congruence|].
    destruct (m <? 12); bool_to_prop; [congruence|].
    unfold year_len in Hin. lia.
  - pose proof (year_len_bounds (y + 1)).
    destruct (year_start_unique (y + 1) 0 y' r') as [<- <-]; try lia.
    assert (month_day (isleap y) (r + 1) = Some (12, 32)) as Hbig.
    { assert (r + 1 = year_len y) as -> by lia. unfold year_len.
      destruct (isleap y); reflexivity. }
    assert (month_day (isleap (y + 1)) 0 = Some (1, 1)) as Hj
      by (destruct (isleap (y + 1)); reflexivity).
    rewrite Hj in Hmd'. injection Hmd' as <- <-.
    rewrite Hbig in *.
    destruct (d <? month_length (isleap y) m) eqn:El; bool_to_prop.
    { simplify_eq. unfold month_length in El. cbn in El. lia. }
    destruct (m <? 12) eqn:Em; bool_to_prop; [simplify_eq|done].
Qed.

Lemma date_of_day_iter n :
  Z.of_nat n < 24856 → date_of_day (Z.of_nat n) = Some (date_at n).
Proof.
  induction n as [|n IH]; intros Hn; [reflexivity|].
  rewrite Nat2Z.inj_succ, <- Z.add_1_r. apply date_of_day_next; [lia|lia|].
  apply IH. lia.
Qed.

(** *** The packed words *)

Lemma land31 n : Z.land n 31 = n mod 32.
Proof. apply (Z.land_ones n 5). lia. Qed.
Lemma land63 n : Z.land n 63 = n mod 64.
Proof. apply (Z.land_ones n 6). lia. Qed.
Lemma land127 n : Z.land n 127 = n mod 128.
Proof. apply (Z.land_ones n 7). lia. Qed.
Lemma land15 n : Z.land n 15 = n mod 16.
Proof. apply (Z.land_ones n 4). lia. Qed.
Lemma shiftr_div n k : 0 ≤ k → Z.shiftr n k = n / 2 ^ k.
Proof. apply Z.shiftr_div_pow2. Qed.

Lemma unixtime_fields h mi s2 y m d start :
  0 ≤ h < 32 → 0 ≤ mi < 64 → 0 ≤ s2 < 32 →
  0 ≤ y < 128 → 1 ≤ m < 16 → 0 ≤ d < 32 →
  mth_start !! Z.to_nat (m - 1) = Some start →
  unixtime (pack_time h mi s2) (pack_date y m d) =
  Some (s32 (2 * s2 + mi * 60 + h * 3600
             + ((d - 1) + start
                + (if y mod 4 =? 0 then if m >? 2 then 1 else 0 else 0)) * 86400
             + (y + 10) * 31536000 + (y + 11) / 4 * 86400)).
Proof.
  intros Hh Hmi Hs Hy Hm Hd Hst.
  unfold unixtime, pack_time, pack_date.
  rewrite !land31, !land63, !land127, !land15, !shiftr_div by lia.
  rewrite Z.shiftl_mul_pow2 by lia. cbn zeta.
  rewrite !(Z.mod_small h), !(Z.mod_small mi), !(Z.mod_small s2),
    !(Z.mod_small y), !(Z.mod_small m), !(Z.mod_small d) by lia.
  set (T := h * 2048 + mi * 32 + s2). set (D := y * 512 + m * 32 + d).
  assert ((D / 2 ^ 5) mod 16 = m) as -> by (Z.div_mod_to_equations; lia).
  assert ((D / 2 ^ 9) mod 128 = y) as -> by (Z.div_mod_to_equations; lia).
  assert (D mod 32 = d) as -> by (Z.div_mod_to_equations; lia).
  assert ((T / 2 ^ 11) mod 32 = h) as -> by (Z.div_mod_to_equations; lia).
  assert ((T / 2 ^ 5) mod 64 = mi) as -> by (Z.div_mod_to_equations; lia).
  assert (T mod 32 = s2) as -> by (Z.div_mod_to_equations; lia).
  destruct (Z.ltb_spec (m - 1) 0); [lia|]. rewrite Hst. cbn.
  rewrite Z.rem_mod_nonneg, Z.quot_div_nonneg by lia.
  replace ((80 + y) mod 4) with (y mod 4) by (Z.div_mod_to_equations; lia).
  replace (m - 1 >? 1) with (m >? 2) by lia.
  do 2 f_equal. destruct (y mod 4 =? 0), (m >? 2); cbn;
    Z.div_mod_to_equations; lia.
Qed.

(** The years of the DOS clock that a 32-bit Unix time reaches. *)
Lemma year_start_dos y :
  1980 ≤ y < 2040 →
  year_start y = (y - 1970) * 365 + (y - 1969) / 4 ∧
  isleap y = ((y - 1980) mod 4 =? 0).
Proof.
  intros H. split.
  - unfold year_start. change (LEAPS_THRU_END_OF 1969) with 477.
    unfold LEAPS_THRU_END_OF. rewrite !Z.quot_div_nonneg by lia.
    Z.div_mod_to_equations. lia.
  - rewrite isleap_is_leap_year by lia. unfold is_leap_year.
    destruct (Z.eqb_spec (y mod 4) 0), (Z.eqb_spec (y mod 100) 0),
      (Z.eqb_spec (y mod 400) 0); cbn; Z.div_mod_to_equations; lia.
Qed.

Lemma unix2calendar_at t :
  0 ≤ t < 2147483648 →
  ∃ y m d, date_of_day (t / 86400) = Some (y, m, d) ∧
  unix2calendar 3 t =
    Some (mk_calendar y m d (t mod 86400 / 3600) (t mod 3600 / 60) (t mod 60)).
Proof.
  intros Ht. rewrite unix2calendar_split.
  change SECS_PER_DAY with 86400. change SECS_PER_HOUR with 3600. cbv zeta.
  rewrite (Z.quot_div_nonneg t 86400), (Z.rem_mod_nonneg t 86400) by lia.
  assert (0 ≤ t mod 86400 < 86400) by (apply Z.mod_pos_bound; lia).
  rewrite (Z.quot_div_nonneg _ 3600), (Z.rem_mod_nonneg _ 3600) by lia.
  assert ((t mod 86400) mod 3600 = t mod 3600) as ->
    by (Z.div_mod_to_equations; lia).
  assert (0 ≤ t mod 3600 < 3600) by (apply Z.mod_pos_bound; lia).
  rewrite (Z.quot_div_nonneg _ 60), (Z.rem_mod_nonneg _ 60) by lia.
  assert ((t mod 3600) mod 60 = t mod 60) as -> by (Z.div_mod_to_equations; lia).
  rewrite !u16_id by (Z.div_mod_to_equations; lia).
  destruct (date_of_day_at (t / 86400))
    as (y & r & m & d & _ & _ & _ & _ & _ & _ & ->);
    [Z.div_mod_to_equations; lia|].
  by exists y, m, d.
Qed.

(** ** Properties *)

(** C38: For every non-negative 32-bit Unix time, [unix2calendar] returns the
    date that is [t / 86400] Gregorian days after 1 January 1970, and the hour,
    minute and second of the day. *)
Theorem unix2calendar_correct t :
  0 ≤ t < 2147483648 →
  ∃ c, unix2calendar 3 t = Some c ∧
    (cal_year c, cal_month c, cal_day c) = date_at (Z.to_nat (t / 86400)) ∧
    0 ≤ cal_hour c < 24 ∧ 0 ≤ cal_minute c < 60 ∧ 0 ≤ cal_second c < 60 ∧
    3600 * cal_hour c + 60 * cal_minute c + cal_second c = t mod 86400.
Proof.
  intros Ht. destruct (unix2calendar_at t Ht) as (y & m & d & Hd & ->).
  eexists. split; [done|]. cbn. split.
  - rewrite <- (Z2Nat.id (t / 86400)) in Hd by (Z.div_mod_to_equations; lia).
    rewrite date_of_day_iter in Hd by (Z.div_mod_to_equations; lia).
    by injection Hd.
  - Z.div_mod_to_equations. lia.
Qed.

Lemma unix2calendar_correct_witness :
  0 ≤ 1000000000 < 2147483648 ∧
  ∃ c, unix2calendar 3 1000000000 = Some c ∧
    (cal_year c, cal_month c, cal_day c) =
      date_at (Z.to_nat (1000000000 / 86400)) ∧
    0 ≤ cal_hour c < 24 ∧ 0 ≤ cal_minute c < 60 ∧ 0 ≤ cal_second c < 60 ∧
    3600 * cal_hour c + 60 * cal_minute c + cal_second c = 1000000000 mod 86400.
Proof. split; [lia|]. apply (unix2calendar_correct 1000000000). lia. Defined.

(** The year search of [unix2calendar] ends: for every value of the
    32-bit signed argument, negative ones included, two corrections of the
    year are enough and the conversion returns. *)
Theorem unix2calendar_total t :
  -2147483648 ≤ t < 2147483648 → ∃ c, unix2calendar 3 t = Some c.
Proof.
  intros Ht. rewrite unix2calendar_split.
  change SECS_PER_DAY with 86400.
  destruct (date_of_day_at (Z.quot t 86400))
    as (y & r & m & d & _ & _ & _ & _ & _ & _ & ->);
    [Z.to_euclidean_division_equations; lia|].
  cbn. by eexists.
Qed.

Lemma unix2calendar_total_witness :
  -2147483648 ≤ -2147483648 < 2147483648 ∧
  ∃ c, unix2calendar 3 (-2147483648) = Some c.
Proof. split; [lia|]. apply (unix2calendar_total (-2147483648)). lia. Defined.

(** A Unix time of the DOS epoch (from 1 January 1980 on) survives the
    round trip through the packed DOS date and time up to the two-second
    resolution of the DOS time. *)
Theorem unixtime_unix2xbios t :
  315532800 ≤ t < 2147483648 →
  ∃ x, unix2xbios 3 t = Some x ∧
    unixtime (u16 x) (u16 (Z.shiftr x 16)) = Some (t - t mod 2).
Proof.
  intros Ht. unfold unix2xbios.
  destruct (unix2calendar_at t) as (y & m & d & Hd & ->); [lia|]. cbn.
  eexists. split; [done|].
  destruct (date_of_day_at (t / 86400))
    as (y' & r & m' & d' & He & Hr & Hy & Hmd & Hm & Hd' & Hd'');
    [Z.div_mod_to_equations; lia|].
  rewrite Hd in Hd''. injection Hd'' as <- <- <-.
  pose proof (month_day_spec (isleap y) r Hr) as Hok.
  unfold month_day_ok in Hok. rewrite Hmd in Hok. bool_to_prop.
  assert (1980 ≤ y) as Hy1980.
  { destruct (Z.le_gt_cases 1980 y); [done|].
    pose proof (year_start_lt y 1980 ltac:(lia) ltac:(lia)) as Hlt.
    change (year_start 1980) with 3652 in Hlt.
    Z.div_mod_to_equations. lia. }
  rewrite (u16_id y) by lia.
  set (D := pack_date _ _ _). set (T := pack_time _ _ _).
  assert (0 ≤ T < 65536) as HT by (unfold T, pack_time; Z.div_mod_to_equations; lia).
  assert (u16 (s32 (D * 65536 + T)) = T) as -> by wrap_lia.
  assert (0 ≤ D < 65536) as HD by (unfold D, pack_date; Z.div_mod_to_equations; lia).
  assert (u16 (Z.shiftr (s32 (D * 65536 + T)) 16) = D) as ->
    by (rewrite shiftr_div by lia; wrap_lia).
  subst D T. rewrite shiftr_div by lia.
  destruct (year_start_dos y ltac:(lia)) as [Hys Hleap].
  erewrite unixtime_fields
    by first [eassumption | Z.div_mod_to_equations; lia].
  rewrite Hleap.
  rewrite s32_id; [f_equal|];
    (destruct ((y - 1980) mod 4 =? 0); [destruct (m >? 2)|]);
    Z.div_mod_to_equations; lia.
Qed.

Lemma unixtime_unix2xbios_witness :
  315532800 ≤ 951782401 < 2147483648 ∧
  ∃ x, unix2xbios 3 951782401 = Some x ∧
    unixtime (u16 x) (u16 (Z.shiftr x 16)) = Some (951782401 - 951782401 mod 2).
Proof. split; [lia|]. apply (unixtime_unix2xbios 951782401). lia. Defined.
