(* ===== verification/Timeout.v ===== *)
(** * Kernel timeouts (sys/timeout.c)

    [tlist] is the list of pending timeouts: [t_when] of its head counts down to
    the expiry of the head, [t_when] of every later node is relative to the node
    before it.  [expire_list] holds the timeouts that have fired and may still
    be reused.  A list linked through [next] is the Rocq list of its nodes; a
    node carries the address of its structure. *)

From stdpp Require Import sorting.
From S2P Require Import Prelude CInt.

(** The address of a [TIMEOUT]: from [kmalloc], or a slot of [timeouts[]]. *)
Inductive taddr := Dyn (a : ptr) | Static (i : nat).

#[export] Instance taddr_eq_dec : EqDecision taddr.
Proof. solve_decision. Defined.

Definition TIMEOUTS : nat := 64.
Definition TIMEOUT_USED : Z := 1.
Definition TIMEOUT_STATIC : Z := 2.
Definition TIMEOUT_EXPIRE_LIMIT : Z := 400.

Section timeout.
(** [F]: the timeout functions. *)
Context {F : Type} `{EqDecision F}.

Record timeout := mk_timeout {
  t_addr : taddr; t_proc : ptr; t_when : Z; t_func : F; t_arg : Z
}.

Definition set_when (w : Z) (t : timeout) : timeout :=
  mk_timeout (t_addr t) (t_proc t) w (t_func t) (t_arg t).

(** [statics]: the flags of [timeouts[]]; [heap]: the [kmalloc]ed structures;
    [hz_200]: the 200 Hz counter; [our_clock]: milliseconds left of the second. *)
Record tstate := mk_tstate {
  tlist : list timeout; expire_list : list timeout;
  statics : list Z; heap : gset ptr; hz_200 : Z; our_clock : Z
}.

Definition tstate_eta (s : tstate) : tstate :=
  mk_tstate (tlist s) (expire_list s) (statics s) (heap s) (hz_200 s) (our_clock s).
Definition set_tlist : list timeout → tstate → tstate :=
  ltac:(build_setter tstate_eta tlist).
Definition set_expire_list : list timeout → tstate → tstate :=
  ltac:(build_setter tstate_eta expire_list).
Definition set_statics : list Z → tstate → tstate :=
  ltac:(build_setter tstate_eta statics).
Definition set_heap : gset ptr → tstate → tstate :=
  ltac:(build_setter tstate_eta heap).
Definition set_our_clock : Z → tstate → tstate :=
  ltac:(build_setter tstate_eta our_clock).

(** ** Allocation *)

(** The first slot without [TIMEOUT_USED], from index [i] on. *)
Fixpoint free_slot (i : nat) (fl : list Z) : option nat :=
  match fl with
  | [] => None
  | f :: fl => if Z.land f TIMEOUT_USED =? 0 then Some i else free_slot (S i) fl
  end.

(** [mem] is the answer of [kmalloc]. *)
Definition newtimeout (mem : option ptr) (fromlist : Z) :
    M tstate (option taddr) := λ s,
  let from_statics :=
    match free_slot 0 (statics s) with
    | Some i =>
        Some (Some (Static i),
              set_statics (alter (λ f, Z.lor f (Z.lor TIMEOUT_STATIC TIMEOUT_USED))
                             i (statics s)) s)
    | None => Some (None, s)
    end in
  if fromlist =? 0 then
    match mem with
    | Some a => Some (Some (Dyn a), set_heap ({[a]} ∪ heap s) s)
    | None => from_statics
    end
  else from_statics.

(** A [Dyn] structure was given [flags = 0], a [Static] one [TIMEOUT_STATIC];
    freeing a block that is not allocated is a panic. *)
Definition disposetimeout (t : timeout) : M tstate unit := λ s,
  match t_addr t with
  | Static i =>
      Some (tt, set_statics (alter (λ f, Z.land f (not16 TIMEOUT_USED)) i (statics s)) s)
  | Dyn a =>
      if decide (a ∈ heap s) then Some (tt, set_heap (heap s ∖ {[a]}) s) else None
  end.

Fixpoint dispose_list (l : list timeout) : M tstate unit :=
  match l with
  | [] => mret tt
  | t :: l => disposetimeout t ;; dispose_list l
  end.

(** The list before and from the first node older than [now]. *)
Fixpoint split_old (now : Z) (l : list timeout) : list timeout * list timeout :=
  match l with
  | [] => ([], [])
  | t :: l' =>
      if t_when t <? now then ([], l)
      else let '(young, old) := split_old now l' in (t :: young, old)
  end.

Definition dispose_old_timeouts : M tstate unit := λ s,
  let '(young, old) := split_old (s32 (hz_200 s)) (expire_list s) in
  dispose_list old (set_expire_list young s).

(** ** Insertion *)

(** The walk over [tlist]; [None] is the failed [assert (delta >= 0)]. *)
Fixpoint insert_walk (t : timeout) (delta : Z) (l : list timeout) :
    option (list timeout) :=
  match l with
  | cur :: l' =>
      if t_when cur >=? delta then
        Some (set_when delta t :: set_when (s32 (t_when cur - delta)) cur :: l')
      else
        r ← insert_walk t (s32 (delta - t_when cur)) l'; Some (cur :: r)
  | [] => if delta >=? 0 then Some [set_when delta t] else None
  end.

Definition inserttimeout (t : timeout) (delta : Z) : M tstate unit := λ s,
  match insert_walk t delta (tlist s) with
  | Some l => Some (tt, set_tlist l s)
  | None => None
  end.

(** The first expired timeout of [p] and [func], and the list without it. *)
Fixpoint take_expired (p : ptr) (func : F) (l : list timeout) :
    option (timeout * list timeout) :=
  match l with
  | [] => None
  | t :: l' =>
      if bool_decide (t_proc t = p) && bool_decide (t_func t = func)
      then Some (t, l')
      else '(x, r) ← take_expired p func l'; Some (x, t :: r)
  end.

(** [__addtimeout]; the result is the address of the scheduled timeout. *)
Definition addtimeout_flags (mem : option ptr) (p : ptr) (delta : Z) (func : F)
    (flags : Z) : M tstate (option taddr) := λ s,
  match take_expired p func (expire_list s) with
  | Some (t, l) =>
      (inserttimeout t delta ;; mret (Some (t_addr t))) (set_expire_list l s)
  | None =>
      (t ← newtimeout mem (Z.land flags 1);
       match t with
       | Some a =>
           inserttimeout (mk_timeout a p 0 func 0) delta ;; mret (Some a)
       | None => mret None
       end) s
  end.

Definition addtimeout (mem : option ptr) (p : ptr) (delta : Z) (func : F) :
    M tstate (option taddr) := addtimeout_flags mem p delta func 0.

Definition addroottimeout (mem : option ptr) (rootproc : ptr) (delta : Z) (func : F)
    (flags : Z) : M tstate (option taddr) :=
  addtimeout_flags mem rootproc delta func flags.

(** ** Cancellation *)

(** Add [w] to the countdown of the first node. *)
Definition add_head (w : Z) (l : list timeout) : list timeout :=
  match l with
  | [] => []
  | t :: l => set_when (s32 (t_when t + w)) t :: l
  end.

(** The loop of [cancelalltimeouts] over [tlist]: the nodes kept, and the nodes
    disposed of, in that order. *)
Fixpoint cancel_walk (p : ptr) (fuel : nat) (l : list timeout) :
    list timeout * list timeout :=
  match fuel, l with
  | S fuel, cur :: l' =>
      if bool_decide (t_proc cur = p) then
        let '(kept, gone) := cancel_walk p fuel (add_head (t_when cur) l') in
        (kept, cur :: gone)
      else
        let '(kept, gone) := cancel_walk p fuel l' in (cur :: kept, gone)
  | _, _ => (l, [])
  end.

(** The same loop over [expire_list], where [when] is absolute. *)
Definition cancel_expired (p : ptr) (l : list timeout) :
    list timeout * list timeout :=
  (filter (λ t, t_proc t ≠ p) l, filter (λ t, t_proc t = p) l).

Definition cancelalltimeouts (curproc : ptr) : M tstate unit := λ s,
  let '(kept, gone) := cancel_walk curproc (length (tlist s)) (tlist s) in
  let '(ekept, egone) := cancel_expired curproc (expire_list s) in
  (dispose_list gone ;; dispose_list egone)
    (set_expire_list ekept (set_tlist kept s)).

(** Unlink the node at address [a] that belongs to [p]; in [tlist] its countdown
    goes to the node after it. *)
Fixpoint unlink (a : taddr) (p : ptr) (relative : bool) (l : list timeout) :
    option (timeout * list timeout) :=
  match l with
  | [] => None
  | cur :: l' =>
      if bool_decide (t_addr cur = a) && bool_decide (t_proc cur = p)
      then Some (cur, if relative then add_head (t_when cur) l' else l')
      else '(x, r) ← unlink a p relative l'; Some (x, cur :: r)
  end.

(** [__canceltimeout] *)
Definition canceltimeout_of (this : taddr) (p : ptr) : M tstate unit := λ s,
  match unlink this p false (expire_list s) with
  | Some (t, l) => disposetimeout t (set_expire_list l s)
  | None =>
      match unlink this p true (tlist s) with
      | Some (t, l) => disposetimeout t (set_tlist l s)
      | None => Some (tt, s)
      end
  end.

Definition canceltimeout (this : taddr) (curproc : ptr) : M tstate unit :=
  canceltimeout_of this curproc.
Definition cancelroottimeout (this : taddr) (rootproc : ptr) : M tstate unit :=
  canceltimeout_of this rootproc.

(** ** Expiry *)

(** The kernel state [K] around the timeout lists, the call of a timeout
    function, and the work done once per second ([synch_timers], [searchtime++],
    [reset_priorities]). *)
Section checkalarms.
Context {K : Type} (timers : K → tstate) (set_timers : tstate → K → K).
Context (call : F → ptr → Z → M K unit) (second : M K unit).

Fixpoint once_per_second (fuel : nat) : M K unit := λ k,
  if our_clock (timers k) <? 0 then
    match fuel with
    | O => None
    | S fuel =>
        (second ;; once_per_second fuel)
          (set_timers (set_our_clock (s16 (our_clock (timers k) + 1000)) (timers k)) k)
    end
  else Some (tt, k).

(** Move the head of [tlist] to [expire_list]. *)
Definition pop_expired (old : timeout) (l : list timeout) (s : tstate) : tstate :=
  set_expire_list
    (set_when (s32 (hz_200 s + TIMEOUT_EXPIRE_LIMIT)) old :: expire_list s)
    (set_tlist (add_head (t_when old) l) s).

Fixpoint run_expired (fuel : nat) : M K unit := λ k,
  match tlist (timers k) with
  | old :: l =>
      if t_when old <=? 0 then
        match fuel with
        | O => None
        | S fuel =>
            (call (t_func old) (t_proc old) (t_arg old) ;; run_expired fuel)
              (set_timers (pop_expired old l (timers k)) k)
        end
      else Some (tt, k)
  | [] => Some (tt, k)
  end.

Definition checkalarms (fuel : nat) : M K unit :=
  once_per_second 33 ;;
  run_expired fuel ;;
  mlift timers set_timers dispose_old_timeouts.
End checkalarms.

(** ** Specification: absolute deadlines *)

(** The pending timeouts with the time until each expires. *)
Fixpoint deadlines (base : Z) (l : list timeout) : list (timeout * Z) :=
  match l with
  | [] => []
  | t :: l => (set_when 0 t, base + t_when t) :: deadlines (base + t_when t) l
  end.

(** Insertion of [x] with deadline [d]: before the first deadline that is not
    earlier. *)
Fixpoint place (x : timeout) (d : Z) (L : list (timeout * Z)) :
    list (timeout * Z) :=
  match L with
  | [] => [(x, d)]
  | (y, e) :: L' => if e >=? d then (x, d) :: L else (y, e) :: place x d L'
  end.

(** Deadlines within 2^30 ms (12 days): no countdown overflows a [long]. *)
Definition near (d : Z) : Prop := -1073741824 ≤ d < 1073741824.
Definition all_near (L : list (timeout * Z)) : Prop := Forall (λ x, near x.2) L.
Definition by_deadline : relation (timeout * Z) := λ x y, x.2 ≤ y.2.

Lemma insert_walk_deadlines t d base l :
  near d → near base → all_near (deadlines base l) →
  match insert_walk t (d - base) l with
  | Some l' => deadlines base l' = place (set_when 0 t) d (deadlines base l)
  | None => l = [] ∧ d < base
  end.
Proof.
  unfold near. intros Hd. revert base.
  induction l as [|cur l IH]; intros base Hb Hn; cbn.
  - destruct (Z.geb_spec (d - base) 0); [|split; [done|lia]].
    cbn. do 2 f_equal. lia.
  - apply Forall_cons in Hn as [Hn Hl]. cbn in Hn. unfold near in Hn.
    rewrite !Z.geb_leb.
    destruct (Z.leb_spec (d - base) (t_when cur)) as [Hle|Hgt].
    + replace (d <=? base + t_when cur) with true by lia. cbn.
      rewrite s32_id by lia. replace (base + (d - base)) with d by lia.
      by replace (d + (t_when cur - (d - base))) with (base + t_when cur) by lia.
    + replace (d <=? base + t_when cur) with false by lia.
      rewrite s32_id by lia.
      replace (d - base - t_when cur) with (d - (base + t_when cur)) by lia.
      specialize (IH (base + t_when cur) ltac:(lia) Hl).
      destruct (insert_walk t (d - (base + t_when cur)) l) as [l'|] eqn:E; cbn.
      * by rewrite IH.
      * destruct IH as [-> ?]. lia.
Qed.

Lemma place_perm x d L : place x d L ≡ₚ (x, d) :: L.
Proof.
  induction L as [|[y e] L IH]; cbn; [done|].
  destruct (e >=? d); [done|]. rewrite IH. apply Permutation_swap.
Qed.

Lemma place_sorted x d L :
  StronglySorted by_deadline L → StronglySorted by_deadline (place x d L).
Proof.
  induction 1 as [|[y e] L HL IH Hy]; cbn; [repeat constructor|].
  rewrite Z.geb_leb. unfold by_deadline in *. cbn in *.
  destruct (Z.leb_spec d e).
  - constructor; [by constructor|]. constructor; [done|].
    eapply Forall_impl; [done|]. cbn. intros. lia.
  - constructor; [done|]. rewrite place_perm. constructor; [cbn; lia|done].
Qed.

Lemma deadlines_add_head base w l :
  (∀ t l', l = t :: l' → -2147483648 ≤ t_when t + w < 2147483648) →
  deadlines base (add_head w l) = deadlines (base + w) l.
Proof.
  destruct l as [|t l]; cbn; [done|]. intros H. rewrite s32_id by by eapply H.
  by replace (base + (t_when t + w)) with (base + w + t_when t) by lia.
Qed.

(** Removing a node gives its countdown to the next one. *)
Lemma deadlines_pop base t l :
  near base → all_near (deadlines base (t :: l)) →
  deadlines base (add_head (t_when t) l) = deadlines (base + t_when t) l.
Proof.
  unfold near. intros Hb Hn. apply deadlines_add_head. intros u l' ->.
  apply Forall_cons in Hn as [_ Hn]. apply Forall_cons in Hn as [Hn _].
  cbn in Hn. unfold near in Hn. lia.
Qed.

Lemma unlink_deadlines a p base l t l' :
  near base → all_near (deadlines base l) →
  unlink a p true l = Some (t, l') →
  ∃ L1 d L2, deadlines base l = L1 ++ (set_when 0 t, d) :: L2 ∧
             deadlines base l' = L1 ++ L2 ∧ t_addr t = a ∧ t_proc t = p.
Proof.
  revert base l'. induction l as [|cur l IH]; intros base l' Hb Hn; cbn; [done|].
  case_bool_decide as Ha; [case_bool_decide as Hp|]; cbn.
  - intros [= -> <-]. rewrite deadlines_pop by done.
    by exists [], (base + t_when t), (deadlines (base + t_when t) l).
  - destruct (unlink a p true l) as [[x r]|] eqn:E; cbn; [|done].
    intros [= -> <-]. pose proof Hn as Hn'. apply Forall_cons in Hn as [Hn Hl].
    destruct (IH (base + t_when cur) r) as (L1 & d & L2 & -> & Hr & ?); try done.
    exists ((set_when 0 cur, base + t_when cur) :: L1), d, L2. cbn. by rewrite Hr.
  - destruct (unlink a p true l) as [[x r]|] eqn:E; cbn; [|done].
    intros [= -> <-]. pose proof Hn as Hn'. apply Forall_cons in Hn as [Hn Hl].
    destruct (IH (base + t_when cur) r) as (L1 & d & L2 & -> & Hr & ?); try done.
    exists ((set_when 0 cur, base + t_when cur) :: L1), d, L2. cbn. by rewrite Hr.
Qed.

Lemma add_head_length w l : length (add_head w l) = length l.
Proof. by destruct l. Qed.

Lemma add_head_proc w t l : add_head w (t :: l) = set_when (s32 (t_when t + w)) t :: l.
Proof. done. Qed.

Lemma cancel_walk_deadlines p base n l :
  near base → all_near (deadlines base l) → (length l ≤ n)%nat →
  deadlines base (cancel_walk p n l).1 =
    filter (λ x, t_proc x.1 ≠ p) (deadlines base l) ∧
  set_when 0 <$> (cancel_walk p n l).2 =
    (filter (λ x, t_proc x.1 = p) (deadlines base l)).*1.
Proof.
  revert base l. induction n as [|n IH]; intros base l Hb Hn Hlen.
  { destruct l; cbn in *; [done|lia]. }
  destruct l as [|cur l]; [done|]. cbn in Hlen. cbn [cancel_walk].
  pose proof Hn as Hn'. apply Forall_cons in Hn as [Hc Hl]. cbn in Hc.
  case_bool_decide as Hp.
  - destruct (IH base (add_head (t_when cur) l)) as [IH1 IH2]; try done.
    { by rewrite deadlines_pop. }
    { rewrite add_head_length. lia. }
    rewrite deadlines_pop in IH1, IH2 by done.
    destruct (cancel_walk p n (add_head (t_when cur) l)) as [kept gone].
    cbn [deadlines fst snd] in *. rewrite !filter_cons. cbn.
    rewrite decide_False by naive_solver. rewrite decide_True by done.
    cbn. rewrite IH1, IH2. by destruct cur.
  - destruct (IH (base + t_when cur) l) as [IH1 IH2]; try done; [lia|].
    destruct (cancel_walk p n l) as [kept gone].
    cbn [deadlines fst snd] in *. rewrite !filter_cons. cbn.
    rewrite decide_True by done. rewrite decide_False by naive_solver.
    by rewrite IH1, IH2.
Qed.

(** ** The structures and their owners

    Every allocated structure is on exactly one list: no leak, no double
    free. *)

Definition used (f : Z) : bool := Z.testbit f 0.

Definition owns (s : tstate) (A : list taddr) : Prop :=
  NoDup A ∧
  (∀ a, Dyn a ∈ A ↔ a ∈ heap s) ∧
  (∀ i, Static i ∈ A ↔ ∃ f, statics s !! i = Some f ∧ used f = true).

Definition addrs (s : tstate) : list taddr :=
  t_addr <$> tlist s ++ expire_list s.

(** The same lists and clock. *)
Definition same_lists (s s' : tstate) : Prop :=
  tlist s' = tlist s ∧ expire_list s' = expire_list s ∧
  hz_200 s' = hz_200 s ∧ our_clock s' = our_clock s.

#[local] Instance owns_proper s : Proper ((≡ₚ) ==> iff) (owns s).
Proof.
  intros A B HAB. unfold owns. by setoid_rewrite HAB.
Qed.

Lemma owns_ext s s' A :
  heap s' = heap s → statics s' = statics s → owns s A → owns s' A.
Proof. unfold owns. by intros -> ->. Qed.

Lemma used_spec f : (Z.land f TIMEOUT_USED =? 0) = negb (used f).
Proof. exact (land_bit_zero f 0 ltac:(lia)). Qed.

Lemma used_set f : used (Z.lor f (Z.lor TIMEOUT_STATIC TIMEOUT_USED)) = true.
Proof. unfold used. rewrite Z.lor_spec. apply orb_true_r. Qed.

Lemma used_clear f : used (Z.land f (not16 TIMEOUT_USED)) = false.
Proof. unfold used. rewrite Z.land_spec. apply andb_false_r. Qed.

Lemma disposetimeout_ok s t A :
  owns s (t_addr t :: A) →
  ∃ s', disposetimeout t s = Some (tt, s') ∧ owns s' A ∧ same_lists s s'.
Proof.
  intros (Hnd & Hdyn & Hst). apply NoDup_cons in Hnd as [Hni Hnd].
  unfold disposetimeout. destruct (t_addr t) as [a|i].
  - rewrite decide_True by (apply Hdyn; left).
    eexists; split; [done|]. split; [|done]. split; [done|]. split; cbn; [|set_solver].
    intros b. specialize (Hdyn b). set_solver.
  - eexists; split; [done|]. split; [|done]. split; [done|]. split; cbn.
    + intros b. specialize (Hdyn b). set_solver.
    + intros j. specialize (Hst j). destruct (decide (j = i)) as [->|Hne].
      * split; [done|]. intros (f & Hf & Hu).
        rewrite list_lookup_alter_eq in Hf.
        destruct (statics s !! i) as [g|]; cbn in Hf; [|done].
        injection Hf as <-. by rewrite used_clear in Hu.
      * rewrite list_lookup_alter_ne by done. rewrite <- Hst. set_solver.
Qed.

Lemma dispose_list_ok l s A :
  owns s ((t_addr <$> l) ++ A) →
  ∃ s', dispose_list l s = Some (tt, s') ∧ owns s' A ∧ same_lists s s'.
Proof.
  revert s. induction l as [|t l IH]; intros s Ho; cbn in *.
  { by exists s. }
  destruct (disposetimeout_ok s t _ Ho) as (s1 & H1 & Ho1 & Hs1).
  destruct (IH s1 Ho1) as (s2 & H2 & Ho2 & Hs2).
  exists s2. erewrite bind_run by done. split; [done|]. split; [done|].
  unfold same_lists in *. intuition congruence.
Qed.

Lemma free_slot_spec i fl j :
  free_slot i fl = Some j →
  (i ≤ j)%nat ∧ ∃ f, fl !! (j - i)%nat = Some f ∧ used f = false.
Proof.
  revert i. induction fl as [|f fl IH]; intros i; cbn; [done|].
  rewrite used_spec. destruct (used f) eqn:Hu; cbn.
  - intros H. destruct (IH _ H) as (Hle & g & Hg & Hgu). split; [lia|].
    exists g. by replace (j - i)%nat with (S (j - S i)) by lia.
  - intros [= <-]. split; [done|]. exists f. by rewrite Nat.sub_diag.
Qed.

Lemma newtimeout_ok mem fl s A :
  owns s A → (∀ a, mem = Some a → a ∉ heap s) →
  ∃ r s', newtimeout mem fl s = Some (r, s') ∧ same_lists s s' ∧
    match r with Some a => owns s' (a :: A) | None => s' = s end.
Proof.
  intros (Hnd & Hdyn & Hst) Hfresh. unfold newtimeout.
  assert (∃ r s', match free_slot 0 (statics s) with
      | Some i => Some (Some (Static i),
          set_statics (alter (λ f, Z.lor f (Z.lor TIMEOUT_STATIC TIMEOUT_USED))
                         i (statics s)) s)
      | None => Some (None, s) end = Some (r, s') ∧ same_lists s s' ∧
      match r with Some a => owns s' (a :: A) | None => s' = s end) as Hstat.
  { destruct (free_slot 0 (statics s)) as [i|] eqn:Hi; [|by exists None, s].
    apply free_slot_spec in Hi as (_ & f & Hf & Hu). rewrite Nat.sub_0_r in Hf.
    do 2 eexists. split; [done|]. split; [done|].
    split; [|split; cbn].
    - apply NoDup_cons. split; [|done]. rewrite Hst. intros (g & Hg & Hgu).
      congruence.
    - intros a. rewrite elem_of_cons, Hdyn. naive_solver.
    - intros j. rewrite elem_of_cons. destruct (decide (j = i)) as [->|Hne].
      + rewrite list_lookup_alter_eq, Hf. split; [|by left].
        intros _. eexists. split; [done|]. apply used_set.
      + rewrite list_lookup_alter_ne by done. rewrite Hst. naive_solver. }
  destruct (fl =? 0); [|done]. destruct mem as [a|]; [|done].
  do 2 eexists. split; [done|]. split; [done|]. split; [|split; cbn].
  - apply NoDup_cons. split; [|done]. rewrite Hdyn. by apply Hfresh.
  - intros b. specialize (Hdyn b). set_solver.
  - intros j. rewrite elem_of_cons, Hst. naive_solver.
Qed.

(** ** The invariant *)

Definition pending (s : tstate) : list (timeout * Z) := deadlines 0 (tlist s).

Record timers_ok (s : tstate) : Prop := {
  ok_near : all_near (pending s);
  ok_sorted : StronglySorted by_deadline (pending s);
  ok_owned : owns s (addrs s);
}.

Lemma deadlines_addr base l : t_addr <$> (deadlines base l).*1 = t_addr <$> l.
Proof. revert base. induction l as [|t l IH]; intros; cbn; [done|]. by rewrite IH. Qed.

Lemma addrs_pending s :
  addrs s = (t_addr <$> (pending s).*1) ++ (t_addr <$> expire_list s).
Proof.
  unfold addrs, pending. rewrite fmap_app. f_equal. symmetry.
  apply deadlines_addr.
Qed.

Lemma insert_walk_addrs t d base l l' :
  deadlines base l' = place (set_when 0 t) d (deadlines base l) →
  t_addr <$> l' ≡ₚ t_addr t :: (t_addr <$> l).
Proof.
  intros H. rewrite <- (deadlines_addr base l'), <- (deadlines_addr base l), H.
  by rewrite place_perm.
Qed.

Lemma inserttimeout_ok t d s A :
  near d → 0 ≤ d → all_near (pending s) → StronglySorted by_deadline (pending s) →
  ∃ s', inserttimeout t d s = Some (tt, s') ∧
    pending s' = place (set_when 0 t) d (pending s) ∧
    StronglySorted by_deadline (pending s') ∧ all_near (pending s') ∧
    expire_list s' = expire_list s ∧ (owns s A → owns s' A) ∧
    t_addr <$> tlist s' ≡ₚ t_addr t :: (t_addr <$> tlist s).
Proof.
  intros Hd Hd0 Hn Hs.
  pose proof (insert_walk_deadlines t d 0 (tlist s) Hd ltac:(unfold near; lia) Hn)
    as Hw.
  rewrite Z.sub_0_r in Hw. unfold inserttimeout.
  destruct (insert_walk t d (tlist s)) as [l'|]; [|lia].
  eexists. split; [done|]. unfold pending. cbn. rewrite Hw.
  split; [done|]. split; [by apply place_sorted|]. split.
  { unfold all_near. rewrite place_perm. by constructor. }
  split; [done|]. split; [by apply owns_ext|]. by eapply insert_walk_addrs.
Qed.

Lemma take_expired_spec p f l t r :
  take_expired p f l = Some (t, r) →
  l ≡ₚ t :: r ∧ t_proc t = p ∧ t_func t = f.
Proof.
  revert r. induction l as [|x l IH]; intros r; cbn; [done|].
  case_bool_decide; [case_bool_decide|]; cbn;
    [by intros [= -> ->]| |];
    (destruct (take_expired p f l) as [[y r']|]; cbn; [|done];
     intros [= -> <-]; destruct (IH _ eq_refl) as (-> & ? & ?);
     split; [apply Permutation_swap|done]).
Qed.

Lemma unlink_spec a p b l t l' :
  unlink a p b l = Some (t, l') →
  t_addr <$> l ≡ₚ t_addr t :: (t_addr <$> l') ∧ t_addr t = a ∧ t_proc t = p.
Proof.
  revert l'. induction l as [|x l IH]; intros l'; cbn; [done|].
  case_bool_decide; [case_bool_decide|]; cbn.
  { intros [= -> <-]. split; [|done]. destruct b, l; done. }
  all: destruct (unlink a p b l) as [[y r']|]; cbn; [|done];
    intros [= -> <-]; destruct (IH _ eq_refl) as (-> & ? & ?);
    split; [apply Permutation_swap|done].
Qed.

Lemma unlink_none a p b l :
  unlink a p b l = None → Forall (λ t, ¬ (t_addr t = a ∧ t_proc t = p)) l.
Proof.
  induction l as [|x l IH]; cbn; [constructor|].
  case_bool_decide; [case_bool_decide|]; cbn; [done| |];
    (destruct (unlink a p b l) as [[y r']|]; [done|]; intros _;
     constructor; [naive_solver|by apply IH]).
Qed.

Lemma unlink_is_none a p b l :
  Forall (λ t, ¬ (t_addr t = a ∧ t_proc t = p)) l → unlink a p b l = None.
Proof.
  induction 1 as [|x l Hx Hl IH]; cbn; [done|].
  case_bool_decide; [case_bool_decide|]; cbn; [naive_solver| |]; by rewrite IH.
Qed.

(** ** Properties *)

(** Scheduling a timeout (with a delay of at most 2^30 ms) never panics and
    keeps the invariant of the timeout lists (sorted deadlines, every structure
    owned by exactly one list).  A successful call adds exactly one pending
    timeout, for the given process, function and delay, and changes no other
    deadline; a failing call changes nothing. *)
Theorem addtimeout_schedules mem p delta func flags s :
  timers_ok s → near delta → 0 ≤ delta →
  (∀ a, mem = Some a → a ∉ heap s) →
  ∃ r s', addtimeout_flags mem p delta func flags s = Some (r, s') ∧
    timers_ok s' ∧
    match r with
    | Some a => ∃ x, t_addr x = a ∧ t_proc x = p ∧ t_func x = func ∧
                     pending s' = place x delta (pending s)
    | None => s' = s
    end.
Proof.
  intros [Hn Hs Ho] Hd Hd0 Hfresh. unfold addtimeout_flags.
  destruct (take_expired p func (expire_list s)) as [[t l]|] eqn:Ht.
  - apply take_expired_spec in Ht as (Hl & Hp & Hf).
    destruct (inserttimeout_ok t delta (set_expire_list l s) (addrs s))
      as (s' & Hrun & Hpend & Hs' & Hn' & He & Ho' & Ha); try done.
    exists (Some (t_addr t)), s'. erewrite bind_run by done. split; [done|].
    split; [|by exists (set_when 0 t)].
    constructor; [done|done|]. unfold addrs. rewrite fmap_app, Ha, He. cbn.
    rewrite app_comm_cons, <- (fmap_cons t_addr t), <- fmap_app.
    assert (t_addr <$> (t :: tlist s) ++ l ≡ₚ addrs s) as ->; [|by apply Ho'].
    unfold addrs. apply fmap_Permutation. rewrite Hl. apply Permutation_middle.
  - destruct (newtimeout_ok mem (Z.land flags 1) s (addrs s) Ho Hfresh)
      as (r & s1 & Hnew & (Htl & Hel & _) & Hr).
    erewrite bind_run by done. destruct r as [a|]; [|subst; by exists None, s].
    assert (pending s1 = pending s) as Hp1 by (unfold pending; by rewrite Htl).
    destruct (inserttimeout_ok (mk_timeout a p 0 func 0) delta s1 (a :: addrs s))
      as (s' & Hrun & Hpend & Hs' & Hn' & He & Ho' & Ha);
      rewrite ?Hp1 in *; try done.
    exists (Some a), s'. erewrite bind_run by done. split; [done|].
    split; [|by exists (mk_timeout a p 0 func 0)].
    constructor; [done|done|]. unfold addrs. rewrite fmap_app, Ha, He, Htl, Hel.
    cbn. rewrite <- fmap_app. by apply Ho'.
Qed.

Lemma by_deadline_filter (P : timeout * Z → Prop) `{∀ x, Decision (P x)} L :
  StronglySorted by_deadline L → StronglySorted by_deadline (filter P L).
Proof.
  induction 1 as [|x L HL IH Hx]; [constructor|]. rewrite filter_cons.
  destruct (decide (P x)); [|done]. constructor; [done|].
  rewrite Forall_forall in Hx |- *. intros y [_ Hy]%list_elem_of_filter. auto.
Qed.

Lemma by_deadline_drop_one L1 x L2 :
  StronglySorted by_deadline (L1 ++ x :: L2) → StronglySorted by_deadline (L1 ++ L2).
Proof.
  intros H. apply StronglySorted_app in H as (Hx & H1 & H2).
  apply StronglySorted_cons in H2 as [_ H2].
  apply StronglySorted_app. split; [|done]. intros y z Hy Hz. apply Hx; set_solver.
Qed.

Lemma pending_elem base l x :
  x ∈ deadlines base l → ∃ t, t ∈ l ∧ t_addr x.1 = t_addr t ∧ t_proc x.1 = t_proc t.
Proof.
  revert base. induction l as [|t l IH]; intros b Hx; cbn in Hx; [set_solver|].
  apply elem_of_cons in Hx as [->|Hx]; [exists t; set_solver|].
  destruct (IH _ Hx) as (u & ? & ?). exists u. set_solver.
Qed.

(** The structure of an expired timeout is not on [tlist]. *)
Lemma expired_not_pending s a :
  NoDup (addrs s) → a ∈ t_addr <$> expire_list s →
  Forall (λ x, t_addr x.1 ≠ a) (pending s).
Proof.
  intros Hnd Ha. rewrite addrs_pending in Hnd.
  apply NoDup_app in Hnd as (_ & Hdis & _). apply Forall_forall. intros x Hx <-.
  eapply Hdis; [|done]. by do 2 apply list_elem_of_fmap_2.
Qed.

(** The addresses of the pending timeouts around one of them differ from it. *)
Lemma pending_others s L1 t d L2 :
  NoDup (addrs s) → pending s = L1 ++ (t, d) :: L2 →
  Forall (λ x, t_addr x.1 ≠ t_addr t) (L1 ++ L2).
Proof.
  intros Hnd HL. rewrite addrs_pending, HL in Hnd.
  apply NoDup_app in Hnd as (Hnd & _).
  rewrite !fmap_app, !fmap_cons in Hnd. cbn in Hnd.
  rewrite <- Permutation_middle in Hnd. apply NoDup_cons in Hnd as [Hni _].
  apply Forall_forall. intros x Hx Heq. apply Hni.
  rewrite <- Heq, <- !fmap_app. by do 2 apply list_elem_of_fmap_2.
Qed.

(** The timeout [this] of [p]. *)
Definition is_timeout (this : taddr) (p : ptr) (x : timeout * Z) : Prop :=
  t_addr x.1 = this ∧ t_proc x.1 = p.

#[local] Instance is_timeout_dec this p x : Decision (is_timeout this p x).
Proof. unfold is_timeout. apply _. Defined.

Lemma filter_other_addr this p L :
  Forall (λ x, t_addr x.1 ≠ this) L →
  filter (λ x, ¬ is_timeout this p x) L = L.
Proof.
  intros H. apply filter_all. eapply Forall_impl; [done|]. by intros x Hx [? _].
Qed.

Lemma cancel_from_expired this p s t l :
  timers_ok s → unlink this p false (expire_list s) = Some (t, l) →
  ∃ s', disposetimeout t (set_expire_list l s) = Some (tt, s') ∧ timers_ok s' ∧
    pending s' = filter (λ x, ¬ is_timeout this p x) (pending s).
Proof.
  intros [Hn Hs Ho] He. apply unlink_spec in He as (Ha & <- & <-).
  destruct (disposetimeout_ok (set_expire_list l s) t
    ((t_addr <$> tlist s) ++ (t_addr <$> l)))
    as (s' & Hrun & Ho' & Htl & Hel & _).
  { eapply (owns_ext s); [done|done|]. rewrite Permutation_middle, <- Ha.
    by rewrite <- fmap_app. }
  exists s'. split; [done|]. cbn in Htl, Hel.
  assert (pending s' = pending s) as Hp by (unfold pending; by rewrite Htl).
  split.
  - constructor; rewrite ?Hp; try done. unfold addrs. by rewrite Htl, Hel, fmap_app.
  - rewrite Hp, filter_other_addr; [done|].
    apply expired_not_pending; [apply Ho|]. rewrite Ha. left.
Qed.

Lemma cancel_from_tlist this p s t l :
  timers_ok s → unlink this p true (tlist s) = Some (t, l) →
  ∃ s', disposetimeout t (set_tlist l s) = Some (tt, s') ∧ timers_ok s' ∧
    pending s' = filter (λ x, ¬ is_timeout this p x) (pending s).
Proof.
  intros [Hn Hs Ho] Hu. pose proof Hu as Hu'.
  apply unlink_spec in Hu' as (Ha & Hth & Hpr).
  destruct (unlink_deadlines this p 0 (tlist s) t l)
    as (L1 & d & L2 & HL & HL' & _); [done..|].
  destruct (disposetimeout_ok (set_tlist l s) t
    ((t_addr <$> l) ++ (t_addr <$> expire_list s)))
    as (s' & Hrun & Ho' & Htl & Hel & _).
  { eapply (owns_ext s); [done|done|]. rewrite app_comm_cons, <- Ha.
    by rewrite <- fmap_app. }
  exists s'. split; [done|]. cbn in Htl, Hel.
  assert (pending s' = L1 ++ L2) as Hp by (unfold pending; by rewrite Htl).
  unfold pending in Hn, Hs. rewrite HL in Hn, Hs. split.
  - constructor; rewrite ?Hp.
    + unfold all_near in *. rewrite Forall_app, Forall_cons in Hn.
      rewrite Forall_app. naive_solver.
    + by eapply by_deadline_drop_one.
    + unfold addrs. by rewrite Htl, Hel, fmap_app.
  - rewrite Hp. unfold pending. rewrite HL, filter_app, filter_cons.
    rewrite decide_False by (intros H; apply H; by split).
    rewrite <- filter_app, filter_other_addr; [done|].
    rewrite <- Hth. apply (pending_others s L1 (set_when 0 t) d L2); [apply Ho|done].
Qed.

(** Cancelling a timeout never panics (the structure is freed exactly
    once), keeps the invariant, and leaves the deadline of every other pending
    timeout unchanged; a timeout that is not listed, or belongs to another
    process, is left alone. *)
Theorem canceltimeout_removes this p s :
  timers_ok s →
  ∃ s', canceltimeout_of this p s = Some (tt, s') ∧ timers_ok s' ∧
    pending s' = filter (λ x, ¬ is_timeout this p x) (pending s) ∧
    (Forall (λ t, ¬ (t_addr t = this ∧ t_proc t = p)) (tlist s ++ expire_list s) →
     s' = s).
Proof.
  intros Hok. unfold canceltimeout_of.
  destruct (unlink this p false (expire_list s)) as [[t l]|] eqn:He;
    [|destruct (unlink this p true (tlist s)) as [[t l]|] eqn:Hu].
  - destruct (cancel_from_expired _ _ _ _ _ Hok He) as (s' & ? & ? & ?).
    exists s'. do 3 (split; [done|]). rewrite Forall_app. intros [_ Hno].
    by rewrite unlink_is_none in He.
  - destruct (cancel_from_tlist _ _ _ _ _ Hok Hu) as (s' & ? & ? & ?).
    exists s'. do 3 (split; [done|]). rewrite Forall_app. intros [Hno _].
    by rewrite unlink_is_none in Hu.
  - exists s. do 2 (split; [done|]). split; [|done].
    symmetry. apply filter_all. apply unlink_none in Hu.
    rewrite Forall_forall in Hu. apply Forall_forall. intros x Hx [Hth Hpr].
    destruct (pending_elem _ _ _ Hx) as (t & Ht & Hta & Htp).
    apply (Hu t Ht). by rewrite <- Hta, <- Htp.
Qed.

Lemma cancel_walk_addrs p n l :
  (length l ≤ n)%nat →
  (t_addr <$> (cancel_walk p n l).2) ++ (t_addr <$> (cancel_walk p n l).1)
    ≡ₚ t_addr <$> l.
Proof.
  revert l. induction n as [|n IH]; intros l Hlen.
  { destruct l; cbn in *; [done|lia]. }
  destruct l as [|cur l]; [done|]. cbn in *. case_bool_decide.
  - specialize (IH (add_head (t_when cur) l)).
    rewrite add_head_length in IH. specialize (IH ltac:(lia)).
    destruct (cancel_walk p n (add_head (t_when cur) l)) as [kept gone]. cbn in *.
    rewrite IH. by destruct l.
  - specialize (IH l ltac:(lia)). destruct (cancel_walk p n l) as [kept gone].
    cbn in *. rewrite <- Permutation_middle. by rewrite IH.
Qed.

Lemma filter_addrs (P : timeout → Prop) `{∀ x, Decision (P x)} l :
  (t_addr <$> filter P l) ++ (t_addr <$> filter (λ t, ¬ P t) l) ≡ₚ t_addr <$> l.
Proof.
  rewrite <- fmap_app. apply fmap_Permutation.
  induction l as [|x l IH]; [done|]. rewrite !filter_cons.
  destruct (decide (P x)).
  - rewrite decide_False by naive_solver. cbn. by rewrite IH.
  - rewrite decide_True by done. rewrite <- Permutation_middle. by rewrite IH.
Qed.

(** When a process exits, [cancelalltimeouts] removes exactly its timeouts,
    pending and expired, frees each of their structures once, and changes no
    deadline of another process. *)
Theorem cancelalltimeouts_removes p s :
  timers_ok s →
  ∃ s', cancelalltimeouts p s = Some (tt, s') ∧ timers_ok s' ∧
    pending s' = filter (λ x, t_proc x.1 ≠ p) (pending s) ∧
    expire_list s' = filter (λ t, t_proc t ≠ p) (expire_list s).
Proof.
  intros [Hn Hs Ho]. unfold cancelalltimeouts, cancel_expired.
  destruct (cancel_walk_deadlines p 0 (length (tlist s)) (tlist s)) as [Hd _];
    [done|done|done|].
  pose proof (cancel_walk_addrs p (length (tlist s)) (tlist s) ltac:(done)) as Hw.
  destruct (cancel_walk p (length (tlist s)) (tlist s)) as [kept gone]. cbn in Hd, Hw.
  set (ekept := filter (λ t, t_proc t ≠ p) (expire_list s)).
  set (egone := filter (λ t, t_proc t = p) (expire_list s)).
  set (s1 := set_expire_list ekept (set_tlist kept s)).
  assert (owns s1 ((t_addr <$> gone) ++ (t_addr <$> egone) ++ addrs s1)) as Ho1.
  { apply (owns_ext s); [done|done|]. unfold addrs in *. cbn.
    rewrite fmap_app in Ho |- *. rewrite <- Hw in Ho.
    rewrite <- (filter_addrs (λ t, t_proc t = p) (expire_list s)) in Ho.
    fold egone ekept in Ho. revert Ho. apply owns_proper. solve_Permutation. }
  destruct (dispose_list_ok gone s1 _ Ho1) as (s2 & H2 & Ho2 & Hl2).
  destruct (dispose_list_ok egone s2 _ Ho2) as (s3 & H3 & Ho3 & Hl3).
  exists s3. erewrite bind_run by done. split; [done|].
  destruct Hl2 as (Ht2 & He2 & _), Hl3 as (Ht3 & He3 & _).
  assert (pending s3 = filter (λ x, t_proc x.1 ≠ p) (pending s)) as Hp.
  { unfold pending. by rewrite Ht3, Ht2, <- Hd. }
  split; [constructor; rewrite ?Hp|split; [done|by rewrite He3, He2]].
  - by apply Forall_filter.
  - by apply by_deadline_filter.
  - revert Ho3. unfold addrs. by rewrite Ht3, Ht2, He3, He2.
Qed.

(** ** The expiry of timeouts *)

Section expiry.
(** The kernel state, with a record of the timeout functions called. *)
Context {K : Type} (timers : K → tstate) (set_timers : tstate → K → K).
Context (call : F → ptr → Z → M K unit) (second : M K unit).
Context (fired : K → list (F * ptr * Z)).

(** A timeout function runs to completion and neither adds nor cancels
    timeouts; nor does the work of the whole second. *)
Record quiet : Prop := {
  q_timers : ∀ t k, timers (set_timers t k) = t;
  q_fired : ∀ t k, fired (set_timers t k) = fired k;
  q_call : ∀ f p a k, ∃ k', call f p a k = Some (tt, k') ∧
             timers k' = timers k ∧ fired k' = fired k ++ [(f, p, a)];
  q_second : ∀ k, ∃ k', second k = Some (tt, k') ∧
             timers k' = timers k ∧ fired k' = fired k
}.
Context (Hq : quiet).

Definition firing (x : timeout * Z) : F * ptr * Z :=
  (t_func x.1, t_proc x.1, t_arg x.1).

Lemma once_per_second_ok n k :
  -1000 * Z.of_nat n ≤ our_clock (timers k) < 32768 → (n ≤ 33)%nat →
  ∃ k', once_per_second timers set_timers second n k = Some (tt, k') ∧
    fired k' = fired k ∧
    timers k' = set_our_clock (our_clock (timers k')) (timers k) ∧
    0 ≤ our_clock (timers k') < 32768.
Proof.
  revert k. induction n as [|n IH]; intros k Hc Hn; cbn.
  - replace (our_clock (timers k) <? 0) with false by lia.
    exists k. destruct (timers k); cbn in *. by repeat split; lia.
  - destruct (Z.ltb_spec (our_clock (timers k)) 0);
      [|exists k; destruct (timers k); cbn in *; by repeat split; lia].
    edestruct q_second as (k1 & H1 & Ht1 & Hf1); [done|].
    erewrite bind_run by done. rewrite (q_timers Hq) in Ht1.
    rewrite s16_id in Ht1 by lia.
    destruct (IH k1) as (k' & -> & Hf & Ht & Hc').
    { rewrite Ht1. cbn. lia. } { lia. }
    exists k'. split; [done|]. rewrite Hf, Hf1, (q_fired Hq).
    split; [done|]. split; [|done]. rewrite Ht, Ht1. done.
Qed.

Lemma pop_expired_ok old l s :
  timers_ok s → tlist s = old :: l →
  timers_ok (pop_expired old l s) ∧
  pending s = (set_when 0 old, t_when old) :: pending (pop_expired old l s).
Proof.
  intros [Hn Hs Ho] Hl. unfold pending in Hn, Hs. rewrite Hl in Hn, Hs.
  assert (deadlines 0 (add_head (t_when old) l) = deadlines (t_when old) l) as Hp.
  { rewrite deadlines_pop by done. done. }
  cbn [deadlines] in Hn, Hs. split.
  - constructor; unfold pending; cbn; rewrite ?Hp.
    + by apply Forall_cons in Hn as [_ ?].
    + by apply StronglySorted_cons in Hs as [_ ?].
    + apply (owns_ext s); [done|done|]. revert Ho. apply owns_proper.
      unfold addrs. rewrite Hl. cbn. rewrite !fmap_app. cbn.
      replace (t_addr <$> add_head (t_when old) l) with (t_addr <$> l)
        by (by destruct l).
      by rewrite <- Permutation_middle.
  - unfold pending. rewrite Hl. cbn. by rewrite Hp.
Qed.

Lemma run_expired_ok n k :
  timers_ok (timers k) → (length (tlist (timers k)) ≤ n)%nat →
  ∃ k', run_expired timers set_timers call n k = Some (tt, k') ∧
    timers_ok (timers k') ∧ our_clock (timers k') = our_clock (timers k) ∧
    pending (timers k') = filter (λ x, 0 < x.2) (pending (timers k)) ∧
    fired k' = fired k ++ (firing <$> filter (λ x, x.2 ≤ 0) (pending (timers k))).
Proof.
  revert k. induction n as [|n IH]; intros k Hok Hlen;
    destruct (tlist (timers k)) as [|old l] eqn:Hl; cbn; rewrite Hl;
    try (cbn in Hlen; lia).
  1,2: exists k; unfold pending; rewrite Hl; cbn; by rewrite app_nil_r.
  destruct (pop_expired_ok old l (timers k) Hok Hl) as [Hok' Hp].
  destruct (Z.leb_spec (t_when old) 0) as [Hle|Hgt].
  - edestruct (q_call Hq) as (k1 & H1 & Ht1 & Hf1).
    erewrite bind_run by done. rewrite (q_timers Hq) in Ht1.
    rewrite <- Ht1 in Hok'.
    destruct (IH k1 Hok') as (k' & -> & Hokk & Hck & Hpk & Hfk).
    { rewrite Ht1. cbn. rewrite add_head_length. cbn in Hlen. lia. }
    exists k'. split; [done|]. split; [done|].
    split; [rewrite Hck, Ht1; done|]. rewrite Hpk, Hfk, Ht1, Hf1, Hp.
    rewrite !filter_cons, decide_False, decide_True by (cbn; lia).
    rewrite (q_fired Hq). split; [done|]. by rewrite <- app_assoc.
  - exists k. do 3 (split; [done|]).
    destruct Hok as [_ Hs _]. rewrite Hp in Hs |- *.
    apply StronglySorted_cons in Hs as [Hs _].
    rewrite filter_all, filter_none; [by rewrite app_nil_r| |];
      (constructor; [cbn; lia|]); (eapply Forall_impl; [done|]);
      unfold by_deadline; cbn; intros; lia.
Qed.

Lemma split_old_app now l : (split_old now l).1 ++ (split_old now l).2 = l.
Proof.
  induction l as [|t l IH]; cbn; [done|]. case_bool; [done|].
  destruct (split_old now l). cbn in *. by rewrite IH.
Qed.

Lemma dispose_old_timeouts_ok s :
  timers_ok s →
  ∃ s', dispose_old_timeouts s = Some (tt, s') ∧ timers_ok s' ∧
    tlist s' = tlist s ∧ our_clock s' = our_clock s.
Proof.
  intros [Hn Hs Ho]. unfold dispose_old_timeouts.
  pose proof (split_old_app (s32 (hz_200 s)) (expire_list s)) as Ha.
  destruct (split_old (s32 (hz_200 s)) (expire_list s)) as [young old].
  cbn in Ha. set (s1 := set_expire_list young s).
  destruct (dispose_list_ok old s1 (addrs s1)) as (s' & Hr & Ho' & Ht & He & _ & Hc).
  { apply (owns_ext s); [done|done|]. revert Ho. apply owns_proper.
    unfold addrs. cbn. rewrite <- Ha, !fmap_app. solve_Permutation. }
  exists s'. split; [done|]. split; [|done].
  constructor; unfold pending; rewrite ?Ht; [done..|].
  revert Ho'. unfold addrs. by rewrite Ht, He.
Qed.

End expiry.
End timeout.

Arguments timeout : clear implicits.
Arguments tstate : clear implicits.

(** ** A concrete timer state *)

Section example.
(** Two pending timeouts, due in 10 ms and 30 ms, and an expired one. *)
Definition ex_timers (head : Z) : tstate Z :=
  mk_tstate [mk_timeout (Dyn 1) 5 head 70 0; mk_timeout (Static 0) 6 20 80 0]
    [mk_timeout (Dyn 2) 5 1500 90 0] [3; 2] {[1%positive; 2%positive]} 1000 (-200).

Lemma ex_timers_ok head : -5 ≤ head ≤ 10 → timers_ok (ex_timers head).
Proof.
  intros Hh. unfold ex_timers. constructor; cbn.
  - repeat constructor; unfold near; cbn; lia.
  - repeat constructor; unfold by_deadline; cbn; lia.
  - split; [by repeat constructor; set_solver|]. split; [set_solver|].
    intros [|[|i]]; cbn; [|naive_solver by set_solver|naive_solver by set_solver].
    split; [|set_solver]. by exists 3.
Qed.

Lemma addtimeout_schedules_witness :
  timers_ok (ex_timers 10) ∧
  ∃ r s', addtimeout_flags (Some 3%positive) 5 15 70 0 (ex_timers 10) = Some (r, s') ∧
    timers_ok s' ∧
    match r with
    | Some a => ∃ x, t_addr x = a ∧ t_proc x = 5%positive ∧ t_func x = 70 ∧
                     pending s' = place x 15 (pending (ex_timers 10))
    | None => s' = ex_timers 10
    end.
Proof.
  split; [apply ex_timers_ok; lia|].
  apply (addtimeout_schedules (Some 3%positive) 5 15 70 0 (ex_timers 10)).
  - apply ex_timers_ok. lia.
  - unfold near. lia.
  - lia.
  - intros a [= <-]. cbn. set_solver.
Defined.

Lemma canceltimeout_removes_witness :
  timers_ok (ex_timers 10) ∧
  ∃ s', canceltimeout_of (Dyn 1) 5 (ex_timers 10) = Some (tt, s') ∧ timers_ok s' ∧
    pending s' = filter (λ x, ¬ is_timeout (Dyn 1) 5 x) (pending (ex_timers 10)) ∧
    (Forall (λ t, ¬ (t_addr t = Dyn 1 ∧ t_proc t = 5%positive))
       (tlist (ex_timers 10) ++ expire_list (ex_timers 10)) → s' = ex_timers 10).
Proof.
  split; [apply ex_timers_ok; lia|].
  apply (canceltimeout_removes (Dyn 1) 5 (ex_timers 10)). apply ex_timers_ok. lia.
Defined.

Lemma cancelalltimeouts_removes_witness :
  timers_ok (ex_timers 10) ∧
  ∃ s', cancelalltimeouts 5 (ex_timers 10) = Some (tt, s') ∧ timers_ok s' ∧
    pending s' = filter (λ x, t_proc x.1 ≠ 5%positive) (pending (ex_timers 10)) ∧
    expire_list s' = filter (λ t, t_proc t ≠ 5%positive) (expire_list (ex_timers 10)).
Proof.
  split; [apply ex_timers_ok; lia|].
  apply (cancelalltimeouts_removes 5 (ex_timers 10)). apply ex_timers_ok. lia.
Defined.

(** The kernel around the timers: a log of the calls. *)
Definition ex_kernel : Type := tstate Z * list (Z * ptr * Z).
Definition ex_set (t : tstate Z) (k : ex_kernel) : ex_kernel := (t, k.2).
Definition ex_call (f : Z) (p : ptr) (a : Z) : M ex_kernel unit :=
  λ k, Some (tt, (k.1, k.2 ++ [(f, p, a)])).

End example.
