(* ===== verification/Kernel.v ===== *)
(** * The kernel state (sys/mint/proc.h, credentials.h, signal.h; globals of sys/)

    The process table, the process queues, the credentials and signal actions on
    the kernel heap, and the scheduler's variables.  Structures live in maps from
    addresses, so that sharing and aliasing are those of the program. *)

From S2P Require Import Prelude CInt Timeout.

(** ** Constants of sys/mint/proc.h and sys/mint/signal.h *)

Definition CURPROC_Q : Z := 0.
Definition READY_Q : Z := 1.
Definition WAIT_Q : Z := 2.
Definition IO_Q : Z := 3.
Definition ZOMBIE_Q : Z := 4.
Definition TSR_Q : Z := 5.
Definition STOP_Q : Z := 6.
Definition SELECT_Q : Z := 7.
Definition NUM_QUEUES : Z := 8.

Definition MIN_NICE : Z := -20.
Definition MAX_NICE : Z := 20.
Definition P_FLAG_SYS : Z := 1.
Definition P_FLAG_SLB : Z := 2.
Definition WAIT_MB : Z := 974389249. (* 0x3a140001 *)
Definition WAIT_SEMA : Z := 974389251. (* 0x3a140003 *)

(** [SLICES(pri)] *)
Definition SLICES (pri : Z) : Z := if pri >=? 0 then 0 else - pri.

(** The addresses of kernel functions and variables used as wait conditions and
    timeout functions. *)
Definition sys_pwaitpid : Z := 1048592.
Definition nap : Z := 1048608.
Definition wakeselect_addr : Z := 1048624.
Definition select_coll_addr : Z := 1048640.
Definition unsemame_addr : Z := 1048656.
Definition unnapme_addr : Z := 1048672.

(** ** Data *)

(** [struct proc]: the fields the modelled code reads or writes. *)
Record proc := mk_proc {
  pid : Z;
  ppid : Z;
  pgrp : Z;
  pri : Z;
  curpri : Z;
  slices : Z;
  wait_q : Z;
  wait_cond : Z;
  q_prev : option ptr;
  q_next : option ptr;
  p_flag : Z;
  domain : Z;
  p_cred : ptr;
  p_sigacts : option ptr;
  ptracer : option ptr;
  sigpending : Z;
  nsigs : Z;
  p_sigmask : Z;
  last_sig : Z;
  signaled : Z;
  maxcpu : Z;
  systime : Z;
  usrtime : Z;
  chldstime : Z;
  chldutime : Z;
  mb_long1 : Z;
  mb_long2 : Z;
  mb_ptr : Z;
  mb_mbid : Z;
  mb_mode : Z;
  mb_writer : Z
}.

Definition proc_eta (r : proc) : proc :=
  mk_proc
    (pid r) (ppid r) (pgrp r) (pri r) (curpri r) (slices r) (wait_q r)
    (wait_cond r) (q_prev r) (q_next r) (p_flag r) (domain r) (p_cred r)
    (p_sigacts r) (ptracer r) (sigpending r) (nsigs r) (p_sigmask r)
    (last_sig r) (signaled r) (maxcpu r) (systime r) (usrtime r) (chldstime r) (chldutime r) (mb_long1 r) (mb_long2 r) (mb_ptr r)
    (mb_mbid r) (mb_mode r) (mb_writer r).
Definition set_pid : Z → proc → proc :=
  ltac:(build_setter proc_eta pid).
Definition set_ppid : Z → proc → proc :=
  ltac:(build_setter proc_eta ppid).
Definition set_pgrp : Z → proc → proc :=
  ltac:(build_setter proc_eta pgrp).
Definition set_pri : Z → proc → proc :=
  ltac:(build_setter proc_eta pri).
Definition set_curpri : Z → proc → proc :=
  ltac:(build_setter proc_eta curpri).
Definition set_slices : Z → proc → proc :=
  ltac:(build_setter proc_eta slices).
Definition set_wait_q : Z → proc → proc :=
  ltac:(build_setter proc_eta wait_q).
Definition set_wait_cond : Z → proc → proc :=
  ltac:(build_setter proc_eta wait_cond).
Definition set_q_prev : option ptr → proc → proc :=
  ltac:(build_setter proc_eta q_prev).
Definition set_q_next : option ptr → proc → proc :=
  ltac:(build_setter proc_eta q_next).
Definition set_p_flag : Z → proc → proc :=
  ltac:(build_setter proc_eta p_flag).
Definition set_domain : Z → proc → proc :=
  ltac:(build_setter proc_eta domain).
Definition set_p_cred : ptr → proc → proc :=
  ltac:(build_setter proc_eta p_cred).
Definition set_p_sigacts : option ptr → proc → proc :=
  ltac:(build_setter proc_eta p_sigacts).
Definition set_ptracer : option ptr → proc → proc :=
  ltac:(build_setter proc_eta ptracer).
Definition set_sigpending : Z → proc → proc :=
  ltac:(build_setter proc_eta sigpending).
Definition set_nsigs : Z → proc → proc :=
  ltac:(build_setter proc_eta nsigs).
Definition set_p_sigmask : Z → proc → proc :=
  ltac:(build_setter proc_eta p_sigmask).
Definition set_last_sig : Z → proc → proc :=
  ltac:(build_setter proc_eta last_sig).
Definition set_signaled : Z → proc → proc :=
  ltac:(build_setter proc_eta signaled).
Definition set_maxcpu : Z → proc → proc :=
  ltac:(build_setter proc_eta maxcpu).
Definition set_systime : Z → proc → proc :=
  ltac:(build_setter proc_eta systime).
Definition set_usrtime : Z → proc → proc :=
  ltac:(build_setter proc_eta usrtime).
Definition set_chldstime : Z → proc → proc :=
  ltac:(build_setter proc_eta chldstime).
Definition set_chldutime : Z → proc → proc :=
  ltac:(build_setter proc_eta chldutime).
Definition set_mb_long1 : Z → proc → proc :=
  ltac:(build_setter proc_eta mb_long1).
Definition set_mb_long2 : Z → proc → proc :=
  ltac:(build_setter proc_eta mb_long2).
Definition set_mb_ptr : Z → proc → proc :=
  ltac:(build_setter proc_eta mb_ptr).
Definition set_mb_mbid : Z → proc → proc :=
  ltac:(build_setter proc_eta mb_mbid).
Definition set_mb_mode : Z → proc → proc :=
  ltac:(build_setter proc_eta mb_mode).
Definition set_mb_writer : Z → proc → proc :=
  ltac:(build_setter proc_eta mb_writer).

(** [struct proc_queue] *)
Record proc_queue := mk_proc_queue { pq_head : option ptr; pq_tail : option ptr }.

(** [struct ucred] and [struct pcred]; [groups] has [NGROUPS] elements. *)
Definition NGROUPS : Z := 8.

Record ucred := mk_ucred {
  euid : Z;
  egid : Z;
  groups : list Z;
  ngroups : Z;
  u_links : Z
}.

Definition ucred_eta (r : ucred) : ucred :=
  mk_ucred
    (euid r) (egid r) (groups r) (ngroups r) (u_links r).
Definition set_euid : Z → ucred → ucred :=
  ltac:(build_setter ucred_eta euid).
Definition set_egid : Z → ucred → ucred :=
  ltac:(build_setter ucred_eta egid).
Definition set_groups : list Z → ucred → ucred :=
  ltac:(build_setter ucred_eta groups).
Definition set_ngroups : Z → ucred → ucred :=
  ltac:(build_setter ucred_eta ngroups).
Definition set_u_links : Z → ucred → ucred :=
  ltac:(build_setter ucred_eta u_links).

Record pcred := mk_pcred {
  ucr : ptr;
  ruid : Z;
  rgid : Z;
  suid : Z;
  sgid : Z;
  p_links : Z
}.

Definition pcred_eta (r : pcred) : pcred :=
  mk_pcred
    (ucr r) (ruid r) (rgid r) (suid r) (sgid r) (p_links r).
Definition set_ucr : ptr → pcred → pcred :=
  ltac:(build_setter pcred_eta ucr).
Definition set_ruid : Z → pcred → pcred :=
  ltac:(build_setter pcred_eta ruid).
Definition set_rgid : Z → pcred → pcred :=
  ltac:(build_setter pcred_eta rgid).
Definition set_suid : Z → pcred → pcred :=
  ltac:(build_setter pcred_eta suid).
Definition set_sgid : Z → pcred → pcred :=
  ltac:(build_setter pcred_eta sgid).
Definition set_p_links : Z → pcred → pcred :=
  ltac:(build_setter pcred_eta p_links).

(** [struct sigaction] *)
Record sigaction := mk_sigaction {
  sa_handler : Z;
  sa_mask : Z;
  sa_flags : Z
}.

Definition sigaction_eta (r : sigaction) : sigaction :=
  mk_sigaction
    (sa_handler r) (sa_mask r) (sa_flags r).
Definition set_sa_handler : Z → sigaction → sigaction :=
  ltac:(build_setter sigaction_eta sa_handler).
Definition set_sa_mask : Z → sigaction → sigaction :=
  ltac:(build_setter sigaction_eta sa_mask).
Definition set_sa_flags : Z → sigaction → sigaction :=
  ltac:(build_setter sigaction_eta sa_flags).

(** [struct sigacts]; [sigact] has [NSIG] elements. *)
Record sigacts := mk_sigacts { sigact : list sigaction; sg_links : Z }.

(** [struct sema] (sys/rendez.c) *)
Record sema := mk_sema { sm_id : Z; sm_owner : Z }.

(** The kernel: [proclist] is the list linked through [gl_next]. *)
Record kst := mk_kst {
  procs : gmap ptr proc;
  proclist : list ptr;
  curproc : ptr;
  rootproc : ptr;
  sysq : gmap Z proc_queue;
  proc_clock : Z;
  time_slice : Z;
  sleepcond : Z;
  iwakecond : Z;
  kintr : bool;
  ucreds : gmap ptr ucred;
  pcreds : gmap ptr pcred;
  sigactss : gmap ptr sigacts;
  semalist : list sema;
  ktimers : tstate Z
}.

Definition kst_eta (r : kst) : kst :=
  mk_kst
    (procs r) (proclist r) (curproc r) (rootproc r) (sysq r) (proc_clock
    r) (time_slice r) (sleepcond r) (iwakecond r) (kintr r) (ucreds r) (pcreds r)
    (sigactss r) (semalist r) (ktimers r).
Definition set_procs : gmap ptr proc → kst → kst :=
  ltac:(build_setter kst_eta procs).
Definition set_proclist : list ptr → kst → kst :=
  ltac:(build_setter kst_eta proclist).
Definition set_curproc : ptr → kst → kst :=
  ltac:(build_setter kst_eta curproc).
Definition set_rootproc : ptr → kst → kst :=
  ltac:(build_setter kst_eta rootproc).
Definition set_sysq : gmap Z proc_queue → kst → kst :=
  ltac:(build_setter kst_eta sysq).
Definition set_proc_clock : Z → kst → kst :=
  ltac:(build_setter kst_eta proc_clock).
Definition set_time_slice : Z → kst → kst :=
  ltac:(build_setter kst_eta time_slice).
Definition set_sleepcond : Z → kst → kst :=
  ltac:(build_setter kst_eta sleepcond).
Definition set_iwakecond : Z → kst → kst :=
  ltac:(build_setter kst_eta iwakecond).
Definition set_kintr : bool → kst → kst :=
  ltac:(build_setter kst_eta kintr).
Definition set_ucreds : gmap ptr ucred → kst → kst :=
  ltac:(build_setter kst_eta ucreds).
Definition set_pcreds : gmap ptr pcred → kst → kst :=
  ltac:(build_setter kst_eta pcreds).
Definition set_sigactss : gmap ptr sigacts → kst → kst :=
  ltac:(build_setter kst_eta sigactss).
Definition set_semalist : list sema → kst → kst :=
  ltac:(build_setter kst_eta semalist).
Definition set_ktimers : tstate Z → kst → kst :=
  ltac:(build_setter kst_eta ktimers).

(** ** Access *)

(** [p->...] *)
Definition getp (p : ptr) : M kst proc := mderef (λ k, procs k !! p).
(** [p->... = ...] *)
Definition modp (p : ptr) (f : proc → proc) : M kst unit := λ k,
  match procs k !! p with
  | Some r => Some (tt, set_procs (<[p := f r]> (procs k)) k)
  | None => None
  end.

(** The first process of [proclist] that satisfies [f]. *)
Fixpoint find_proc (f : proc → bool) (l : list ptr) : M kst (option ptr) :=
  match l with
  | [] => mret None
  | p :: l =>
      r ← getp p;
      if f r then mret (Some p) else find_proc f l
  end.

(** [pid2proc (sys/util.c)] *)
Definition pid2proc (n : Z) : M kst (option ptr) :=
  l ← mgets proclist; find_proc (λ r, pid r =? n) l.

(** [for (p = proclist; p; p = p->gl_next) body] *)
Fixpoint for_procs (body : ptr → M kst unit) (l : list ptr) : M kst unit :=
  match l with
  | [] => mret tt
  | p :: l => body p ;; for_procs body l
  end.

(** The same loop with local variables [a]. *)
Fixpoint fold_procs {A} (body : A → ptr → M kst A) (a : A) (l : list ptr) : M kst A :=
  match l with
  | [] => mret a
  | p :: l => a ← body a p; fold_procs body a l
  end.

(** [sleep (sys/proc.c)] as the process that calls it sees it: it returns when
    the process runs again, in the state the other processes left. *)
Class Blocking := { sleep_until : Z → Z → M kst unit }.

(** ** Running the accessors *)

Lemma getp_run p r k : procs k !! p = Some r → getp p k = Some (r, k).
Proof. apply (mderef_run (λ k, procs k !! p)). Qed.

Lemma getp_inv p k r k' :
  getp p k = Some (r, k') → k' = k ∧ procs k !! p = Some r.
Proof. unfold getp, mderef. destruct (procs k !! p); naive_solver. Qed.

Lemma modp_run p r f k :
  procs k !! p = Some r →
  modp p f k = Some (tt, set_procs (<[p := f r]> (procs k)) k).
Proof. unfold modp. by intros ->. Qed.

Lemma modp_inv p f k a k' :
  modp p f k = Some (a, k') →
  ∃ r, procs k !! p = Some r ∧ k' = set_procs (<[p := f r]> (procs k)) k.
Proof. unfold modp. destruct (procs k !! p); naive_solver. Qed.

Lemma set_procs_id k : set_procs (procs k) k = k.
Proof. by destruct k. Qed.

(** Every process of [proclist] exists. *)
Definition procs_listed (k : kst) : Prop :=
  Forall (λ p, is_Some (procs k !! p)) (proclist k).

Lemma find_proc_run f l k :
  Forall (λ p, is_Some (procs k !! p)) l →
  ∃ r, find_proc f l k = Some (r, k) ∧
    match r with
    | Some p => ∃ i q, l !! i = Some p ∧ procs k !! p = Some q ∧ f q = true ∧
        ∀ j p' q', (j < i)%nat → l !! j = Some p' → procs k !! p' = Some q' →
          f q' = false
    | None => ∀ p q, p ∈ l → procs k !! p = Some q → f q = false
    end.
Proof.
  induction 1 as [|p l [r Hr] Hl (o & Ho & Hspec)].
  { exists None. split; [done|]. set_solver. }
  cbn. erewrite bind_run by (by apply getp_run).
  destruct (f r) eqn:Hf.
  { exists (Some p). split; [done|]. exists 0%nat, r. split; [done|].
    repeat split; [done..|lia]. }
  exists o. split; [done|]. destruct o as [p'|].
  - destruct Hspec as (i & q & Hi & Hq & Hfq & Hmin). exists (S i), q.
    repeat split; [done..|]. intros [|j] p1 q1 Hj; cbn; [congruence|].
    apply Hmin. lia.
  - intros p1 q1 [->|H1]%elem_of_cons Hq1; [congruence|eauto].
Qed.

(** ** A concrete kernel

    The root process (pid 0) and two processes wait, the current process is pid
    2, and pid 3 is ready. *)
Section example.
Definition ex_proc (n que cond pen : Z) (pv nx : option ptr) : proc :=
  mk_proc n 0 n 0 0 pen que cond pv nx 0 0 10 (Some 20%positive) None
    0 0 0 0 0 0 0 0 0 0 0 0 0 0 0 0.

Definition ex_procs : gmap ptr proc :=
  {[ 1%positive := ex_proc 0 WAIT_Q 5 0 None (Some 4%positive);
     2%positive := ex_proc 2 CURPROC_Q 0 0 None None;
     3%positive := ex_proc 3 READY_Q 0 2 None None;
     4%positive := ex_proc 4 WAIT_Q 77 0 (Some 1%positive) (Some 5%positive);
     5%positive := ex_proc 5 WAIT_Q 77 0 (Some 4%positive) None ]}.

Definition ex_queue (h t : option ptr) : proc_queue := mk_proc_queue h t.

Definition ex_sysq : gmap Z proc_queue :=
  {[ 0 := ex_queue None None;
     1 := ex_queue (Some 3%positive) (Some 3%positive);
     2 := ex_queue (Some 1%positive) (Some 5%positive);
     3 := ex_queue None None; 4 := ex_queue None None; 5 := ex_queue None None;
     6 := ex_queue None None; 7 := ex_queue None None ]}.

Definition ex_kst : kst :=
  mk_kst ex_procs [5; 4; 3; 2; 1]%positive 2 1 ex_sysq 2 2 0 0 false
    {[ 11%positive := mk_ucred 0 0 [0; 0; 0; 0; 0; 0; 0; 0] 0 1 ]}
    {[ 10%positive := mk_pcred 11 0 0 0 0 5 ]}
    {[ 20%positive := mk_sigacts (replicate 32 (mk_sigaction 0 0 0)) 5 ]}
    [] (mk_tstate [] [] [] ∅ 0 1000).
End example.
