(* ===== verification/ProcQueue.v ===== *)
(** * Process queues and the scheduler (sys/proc.c)

    The queues are doubly linked through [q_prev] and [q_next] of the process
    structures.  The operations are modelled on the pointers; the theorems relate
    them to queues that are lists of processes, first in first out. *)

From stdpp Require Import functions.
From S2P Require Import Prelude CInt Kernel.

(** ** Queue operations *)

Definition getq (que : Z) : M kst proc_queue := mderef (λ k, sysq k !! que).
(** [sysq[que].head = ...] and [sysq[que].tail = ...] *)
Definition set_head (que : Z) (h : option ptr) : M kst unit :=
  q ← getq que;
  mmod (λ k, set_sysq (<[que := mk_proc_queue h (pq_tail q)]> (sysq k)) k).
Definition set_tail (que : Z) (t : option ptr) : M kst unit :=
  q ← getq que;
  mmod (λ k, set_sysq (<[que := mk_proc_queue (pq_head q) t]> (sysq k)) k).

(** The reward of a process that waits. *)
Definition reward (r : proc) : proc :=
  set_slices (SLICES (pri r)) (set_curpri (pri r) r).

Definition add_q (que : Z) (p : ptr) : M kst unit :=
  r ← getp p;
  massert (wait_q r =? CURPROC_Q) ;;
  massert (bool_decide (q_next r = None)) ;;
  q ← getq que;
  match pq_tail q with
  | Some t => modp p (set_q_prev (Some t)) ;; modp t (set_q_next (Some p))
  | None => modp p (set_q_prev None) ;; set_head que (Some p)
  end ;;
  set_tail que (Some p) ;;
  modp p (set_wait_q que) ;;
  r ← getp p;
  mwhen (negb (que =? READY_Q) && (slices r >=? 0)) (modp p reward).

Definition rm_q (que : Z) (p : ptr) : M kst unit :=
  r ← getp p;
  massert (wait_q r =? que) ;;
  match q_prev r with
  | Some a => modp a (set_q_next (q_next r))
  | None => set_head que (q_next r)
  end ;;
  match q_next r with
  | Some b => modp b (set_q_prev (q_prev r))
  | None =>
      set_tail que (q_prev r) ;;
      match q_prev r with
      | Some a => modp a (set_q_next None)
      | None => mret tt
      end
  end ;;
  modp p (set_wait_q CURPROC_Q) ;;
  modp p (set_q_next None) ;;
  modp p (set_q_prev None).

Definition run_next (p : ptr) (n : Z) : M kst unit :=
  modp p (set_slices (s16 (- n))) ;;
  modp p (set_curpri MAX_NICE) ;;
  modp p (set_wait_q READY_Q) ;;
  q ← getq READY_Q;
  modp p (set_q_next (pq_head q)) ;;
  set_head READY_Q (Some p) ;;
  match pq_head q with
  | None => set_tail READY_Q (Some p)
  | Some h => modp h (set_q_prev (Some p))
  end ;;
  modp p (set_q_prev None).

(** ** Priorities *)

Definition reset_priority (p : ptr) : M kst unit :=
  r ← getp p; mwhen (slices r >=? 0) (modp p reward).

Definition reset_priorities : M kst unit :=
  l ← mgets proclist; for_procs reset_priority l.

Definition fresh_slices (n : Z) : M kst unit :=
  reset_priorities ;;
  c ← mgets curproc;
  modp c (set_slices 0) ;;
  modp c (set_curpri (MAX_NICE + 1)) ;;
  mmod (λ k, set_proc_clock (u16 (time_slice k + n)) k).

Definition remaining_proc_time : M kst Z := mgets (λ k, proc_clock k * 20).

(** ** Waking *)

(** The loop over the queue [que]; [fuel] bounds the number of processes
    visited. *)
Fixpoint do_wake_loop (fuel : nat) (que cond : Z) (p : option ptr) : M kst unit :=
  match p, fuel with
  | None, _ => mret tt
  | Some _, O => mpanic
  | Some q, S fuel =>
      r ← getp q;
      if negb (wait_q r =? que) then
        h ← getq que; do_wake_loop fuel que cond (pq_head h)
      else
        mwhen (wait_cond r =? cond) (rm_q que q ;; add_q READY_Q q) ;;
        do_wake_loop fuel que cond (q_next r)
  end.

(** At most every process is on the queue. *)
Definition do_wake (que cond : Z) : M kst unit :=
  n ← mgets (λ k, size (procs k));
  h ← getq que;
  do_wake_loop n que cond (pq_head h).

Definition wake (que cond : Z) : M kst unit :=
  if que =? READY_Q then mret tt
  else
    mmod (λ k, if sleepcond k =? cond then set_sleepcond 0 k else k) ;;
    do_wake que cond.

Definition iwake (que cond n : Z) : M kst unit :=
  if n >=? 0 then
    k ← mgets id;
    if iwakecond k =? cond then mret tt
    else
      r ← getp (curproc k);
      mwhen ((pid r =? n) && (wait_q r =? CURPROC_Q)) (mmod (set_iwakecond cond)) ;;
      do_wake que cond
  else do_wake que cond.

Definition wakeselect (p : ptr) : M kst unit :=
  r ← getp p;
  mwhen ((wait_cond r =? wakeselect_addr) || (wait_cond r =? select_coll_addr))
    (modp p (set_wait_cond 0)) ;;
  mwhen (wait_q r =? SELECT_Q) (rm_q SELECT_Q p ;; add_q READY_Q p).

(** ** The choice of the next process *)

(** One walk over the ready queue: every process with a penalty has it
    decremented, up to the first process without one. *)
Fixpoint scan_ready (fuel : nat) (p : option ptr) : M kst (option ptr) :=
  match p, fuel with
  | None, _ => mret None
  | Some _, O => mpanic
  | Some q, S fuel =>
      r ← getp q;
      if slices r >? 0 then
        modp q (set_slices (slices r - 1)) ;; scan_ready fuel (q_next r)
      else mret (Some q)
  end.

(** [rounds] bounds the number of walks. *)
Fixpoint pick_next (rounds : nat) : M kst ptr :=
  match rounds with
  | O => mpanic
  | S rounds =>
      n ← mgets (λ k, size (procs k));
      h ← getq READY_Q;
      p ← scan_ready n (pq_head h);
      match p with
      | Some p => mret p
      | None => pick_next rounds
      end
  end.

(** ** [sleep] *)

(** What [sleep] calls in the rest of the kernel.  [int_level_low] is the test
    [(sr & 0x700) < 0x500]; [stack_low] is the stack check of [do_wakeup_things]. *)
Class SleepCalls := {
  int_level_low : bool;
  stack_low : ptr → bool;
  checkbttys : M kst unit;
  checkkeys : M kst unit;
  checkrandom : M kst unit;
  checkalarms : M kst unit;
  check_sigs : M kst unit;
  handle_sigbus : M kst unit;
  raise_sigxcpu : M kst unit;
  checkprocwakeup : ptr → M kst unit;
}.

Section sleep.
Context `{SleepCalls}.

Definition do_wakeup_things (newslice : bool) (cond : Z) : M kst unit :=
  p ← mgets curproc;
  mwhen int_level_low (
    r ← getp p;
    mwhen (negb (pid r =? 0) && stack_low p) handle_sigbus ;;
    r ← getp p;
    mwhen (negb (maxcpu r =? 0) && (maxcpu r <=? u32 (systime r + usrtime r)))
      raise_sigxcpu ;;
    checkalarms ;;
    r ← getp p;
    mwhen (negb (sigpending r =? 0) && negb (cond =? sys_pwaitpid)) check_sigs ;;
    checkprocwakeup p) ;;
  mwhen newslice (
    r ← getp p;
    k ← mgets id;
    (if slices r >=? 0 then mmod (set_proc_clock (u16 (time_slice k)))
     else mmod (set_proc_clock (u16 (time_slice k - slices r))) ;;
          modp p (set_curpri (pri r))) ;;
    r ← getp p;
    modp p (set_slices (SLICES (curpri r)))).

(** The outcome of [sleep]: the process goes on, with [newslice], or the next
    process is switched to. *)
Inductive slept := Awake (newslice : bool) | Switch (p : ptr).

(** The checks before going to sleep. *)
Definition sleep_checks (que : Z) : M kst unit :=
  mwhen int_level_low (
    checkbttys ;;
    i ← mgets kintr;
    mwhen i (checkkeys ;; mmod (set_kintr false)) ;;
    checkrandom ;;
    c ← mgets curproc;
    r ← getp c;
    mwhen (negb (Z.land (sigpending r) (not32 (p_sigmask r)) =? 0) &&
           negb (pid r =? 0) && negb (que =? ZOMBIE_Q) && negb (que =? TSR_Q))
      (check_sigs ;; mmod (set_sleepcond 0))).

(** [Some newslice] when [sleep] is about to wake up again right away, and the
    queue to sleep on otherwise. *)
Definition wakes_at_once (que_flags cond : Z) (k : kst) (r : proc)
    (ready : bool) : bool * bool :=
  let woken :=
    negb (sleepcond k =? cond) || ((iwakecond k =? cond) && negb (cond =? 0)) ||
    (negb (Z.land que_flags 256 =? 0) && negb (wait_cond r =? cond)) in
  let que := Z.land que_flags 255 in
  if (que =? READY_Q) && negb ready then (true, true)
  else if woken then
    if negb ready then (true, true)
    else (negb (proc_clock k =? 0), false)
  else (false, true).

(** Nobody is ready: wake the napping processes, or run the root process. *)
Definition ensure_ready : M kst unit :=
  q ← getq READY_Q;
  mwhen (bool_decide (pq_head q = None)) (
    wake SELECT_Q nap ;;
    q ← getq READY_Q;
    mwhen (bool_decide (pq_head q = None)) (
      p ← mgets rootproc;
      r ← getp p;
      rm_q (wait_q r) p ;; add_q READY_Q p)).

(** The end of [sleep]: from the queue to the next process. *)
Definition switch_away (rounds : nat) (que : Z) (c : ptr) : M kst (slept * bool) :=
  add_q que c ;;
  ensure_ready ;;
  p ← pick_next rounds;
  rm_q READY_Q p ;;
  mmod (λ k, set_proc_clock (u16 (time_slice k)) (set_curproc p k)) ;;
  mret (Switch p, false).

(** The outcome is [Awake] when the process went on at once, with the result of
    [sleep] after [do_wakeup_things]; or [Switch p] with [p] running. *)
Definition sleep (rounds : nat) (que_flags cond : Z) : M kst (slept * bool) :=
  let que := Z.land que_flags 255 in
  c ← mgets curproc;
  r0 ← getp c;
  mmod (set_sleepcond cond) ;;
  sleep_checks que ;;
  k ← mgets id;
  r ← getp c;
  q ← getq READY_Q;
  let '(now, newslice) :=
    wakes_at_once que_flags cond k r (bool_decide (pq_head q ≠ None)) in
  if now then
    mmod (set_iwakecond 0) ;;
    do_wakeup_things newslice cond ;;
    r1 ← getp c;
    mret (Awake newslice, negb (nsigs r0 =? nsigs r1))
  else
    mmod (set_iwakecond 0) ;;
    mwhen newslice (modp c (set_wait_cond cond)) ;;
    switch_away rounds (if newslice then que else READY_Q) c.

(** [preempt]; [bconbsiz] tells whether [bflush] has output to write. *)
Definition preempt (rounds : nat) (bconbsiz : bool) (bflush : M kst unit) :
    M kst (slept * bool) :=
  c ← mgets curproc;
  r ← getp c;
  massert (Z.land (p_flag r) P_FLAG_SYS =? 0) ;;
  (if bconbsiz then bflush
   else mwhen (curpri r >=? MIN_NICE) (modp c (set_curpri (curpri r - 1)))) ;;
  r ← getp c;
  sleep rounds READY_Q (wait_cond r).
End sleep.

(** ** Queues as lists *)

(** The first element of [l ++ nx] and the last of [pv ++ l]. *)
Definition first_of (l : list ptr) (nx : option ptr) : option ptr :=
  match l with [] => nx | q :: _ => Some q end.
Definition last_of (pv : option ptr) (l : list ptr) : option ptr :=
  match last l with Some q => Some q | None => pv end.

(** The segment [l] of the queue [que], linked between [pv] and [nx]. *)
Fixpoint dll (ps : gmap ptr proc) (que : Z) (pv : option ptr) (l : list ptr)
    (nx : option ptr) : Prop :=
  match l with
  | [] => True
  | p :: l' =>
      (∃ r, ps !! p = Some r ∧ wait_q r = que ∧ q_prev r = pv ∧
            q_next r = first_of l' nx) ∧
      dll ps que (Some p) l' nx
  end.

Lemma first_of_app l1 l2 nx :
  first_of (l1 ++ l2) nx = first_of l1 (first_of l2 nx).
Proof. by destruct l1. Qed.

Lemma last_of_app pv l1 l2 : last_of pv (l1 ++ l2) = last_of (last_of pv l1) l2.
Proof.
  unfold last_of. rewrite last_app. by destruct (last l2).
Qed.

Lemma last_of_cons pv p l : last_of pv (p :: l) = last_of (Some p) l.
Proof. exact (last_of_app pv [p] l). Qed.

Lemma last_of_snoc pv l p : last_of pv (l ++ [p]) = Some p.
Proof. unfold last_of. by rewrite last_snoc. Qed.

Lemma dll_app ps que pv l1 l2 nx :
  dll ps que pv (l1 ++ l2) nx ↔
  dll ps que pv l1 (first_of l2 nx) ∧ dll ps que (last_of pv l1) l2 nx.
Proof.
  revert pv. induction l1 as [|p l1 IH]; intros pv; cbn; [naive_solver|].
  rewrite IH, first_of_app, last_of_cons. naive_solver.
Qed.

Lemma dll_frame ps que pv l nx p r :
  p ∉ l → dll ps que pv l nx → dll (<[p := r]> ps) que pv l nx.
Proof.
  revert pv. induction l as [|q l IH]; intros pv Hp; cbn; [done|].
  apply not_elem_of_cons in Hp as [Hne Hp].
  intros [(r' & Hr & ?) Hl]. split; [|by apply IH].
  exists r'. by rewrite lookup_insert_ne.
Qed.

Lemma dll_elem ps que pv l nx p :
  dll ps que pv l nx → p ∈ l → ∃ r, ps !! p = Some r ∧ wait_q r = que.
Proof.
  revert pv. induction l as [|q l IH]; intros pv; cbn; [set_solver|].
  intros [(r & Hr & Hw & _) Hl] [->|Hp]%elem_of_cons; eauto.
Qed.

(** The links of a process in the middle of a segment. *)
Lemma dll_mid ps que pv l1 p l2 nx :
  dll ps que pv (l1 ++ p :: l2) nx →
  ∃ r, ps !! p = Some r ∧ wait_q r = que ∧ q_prev r = last_of pv l1 ∧
       q_next r = first_of l2 nx.
Proof. rewrite dll_app. cbn. naive_solver. Qed.

(** Two maps of processes with the same queue links. *)
Definition same_links (ps ps' : gmap ptr proc) (p : ptr) : Prop :=
  match ps !! p, ps' !! p with
  | Some r, Some r' =>
      wait_q r' = wait_q r ∧ q_prev r' = q_prev r ∧ q_next r' = q_next r
  | None, None => True
  | _, _ => False
  end.

Lemma dll_same ps ps' que pv l nx :
  (∀ p, p ∈ l → same_links ps ps' p) → dll ps que pv l nx → dll ps' que pv l nx.
Proof.
  revert pv. induction l as [|q l IH]; intros pv Hs; cbn; [done|].
  intros [(r & Hr & Hw & Hp & Hn) Hl]. split.
  - specialize (Hs q ltac:(left)). unfold same_links in Hs. rewrite Hr in Hs.
    destruct (ps' !! q) as [r'|]; [|done]. exists r'. naive_solver congruence.
  - apply IH; [|done]. set_solver.
Qed.

(** Relinking the last and the first process of a segment. *)
Lemma dll_relink_last ps que pv l t nx nx' r :
  NoDup (l ++ [t]) → ps !! t = Some r →
  dll ps que pv (l ++ [t]) nx →
  dll (<[t := set_q_next nx' r]> ps) que pv (l ++ [t]) nx'.
Proof.
  intros Hnd Hr. rewrite !dll_app. cbn. intros [Hl [(r' & Hr' & Hw & Hp & Hn) _]].
  apply NoDup_app in Hnd as (Hnd & Hdis & _).
  split.
  - apply dll_frame; [|done]. intros Ht. apply (Hdis t Ht). left.
  - split; [|done]. eexists. rewrite lookup_insert_eq. split; [done|]. cbn.
    naive_solver congruence.
Qed.

Lemma dll_relink_first ps que pv pv' h l nx r :
  NoDup (h :: l) → ps !! h = Some r →
  dll ps que pv (h :: l) nx →
  dll (<[h := set_q_prev pv' r]> ps) que pv' (h :: l) nx.
Proof.
  intros Hnd Hr. cbn. intros [(r' & Hr' & Hw & Hp & Hn) Hl].
  apply NoDup_cons in Hnd as [Hni _]. split.
  - eexists. rewrite lookup_insert_eq. split; [done|]. cbn. naive_solver congruence.
  - by apply dll_frame.
Qed.

(** ** The invariant of the queues *)

(** The queue [que] is the list [l]. *)
Definition queue_rep (ps : gmap ptr proc) (sq : gmap Z proc_queue) (que : Z)
    (l : list ptr) : Prop :=
  sq !! que = Some (mk_proc_queue (first_of l None) (last_of None l)) ∧
  dll ps que None l None ∧ NoDup l.

(** The queues are the lists [Q]; a process that is on no queue has no links,
    and every other process is on the queue it names. *)
Record queues_ok (k : kst) (Q : Z → list ptr) : Prop := {
  qok_rep : ∀ que, 0 ≤ que < NUM_QUEUES → queue_rep (procs k) (sysq k) que (Q que);
  qok_cur : Q CURPROC_Q = [];
  qok_free : ∀ p r, procs k !! p = Some r → wait_q r = CURPROC_Q →
    q_next r = None ∧ q_prev r = None;
  qok_all : ∀ p r, procs k !! p = Some r → wait_q r ≠ CURPROC_Q →
    0 < wait_q r < NUM_QUEUES ∧ p ∈ Q (wait_q r);
}.

(** A process without its queue links, and the process table without them. *)
Definition core (r : proc) : proc :=
  set_q_prev None (set_q_next None (set_wait_q CURPROC_Q r)).
Definition cores (k : kst) : gmap ptr proc := core <$> procs k.

(** The kernel state outside the processes and queues. *)
Definition rest (k : kst) : kst := set_procs ∅ (set_sysq ∅ k).

Lemma queue_elem k Q que p :
  queues_ok k Q → 0 ≤ que < NUM_QUEUES → p ∈ Q que →
  ∃ r, procs k !! p = Some r ∧ wait_q r = que.
Proof.
  intros Hok Hq Hp. destruct (qok_rep k Q Hok que Hq) as (_ & Hd & _).
  by eapply dll_elem.
Qed.

Lemma queue_elem_iff k Q que p r :
  queues_ok k Q → 0 < que < NUM_QUEUES → procs k !! p = Some r →
  p ∈ Q que ↔ wait_q r = que.
Proof.
  unfold CURPROC_Q. intros Hok Hq Hr. split.
  - intros Hp. destruct (queue_elem k Q que p Hok ltac:(lia) Hp) as (r' & ? & ?).
    congruence.
  - intros <-. apply (qok_all k Q Hok p r Hr). unfold CURPROC_Q. lia.
Qed.

(** Changes outside the links of the processes and the queues keep the
    invariant. *)
Lemma queues_ok_same k k' Q :
  queues_ok k Q → sysq k' = sysq k → (∀ p, same_links (procs k) (procs k') p) →
  queues_ok k' Q.
Proof.
  intros [Hrep Hcur Hfree Hall] Hs Hl.
  assert (∀ p r', procs k' !! p = Some r' → ∃ r, procs k !! p = Some r ∧
    wait_q r' = wait_q r ∧ q_prev r' = q_prev r ∧ q_next r' = q_next r) as Hback.
  { intros p r' Hr'. specialize (Hl p). unfold same_links in Hl.
    rewrite Hr' in Hl. destruct (procs k !! p); [eauto|done]. }
  constructor; [|done| |].
  - intros que Hq. destruct (Hrep que Hq) as (Hsq & Hd & Hnd).
    split; [by rewrite Hs|]. split; [|done]. eapply dll_same; [|done]. auto.
  - intros p r' Hr' Hw. destruct (Hback p r' Hr') as (r & Hr & Hw' & Hp & Hn).
    rewrite Hp, Hn. eapply Hfree; [done|congruence].
  - intros p r' Hr' Hw. destruct (Hback p r' Hr') as (r & Hr & Hw' & Hp & Hn).
    rewrite Hw' in *. eauto.
Qed.

(** A change of one process that is not a change of its links. *)
Lemma queues_ok_modp k Q p r f :
  queues_ok k Q → procs k !! p = Some r →
  wait_q (f r) = wait_q r → q_prev (f r) = q_prev r → q_next (f r) = q_next r →
  queues_ok (set_procs (<[p := f r]> (procs k)) k) Q.
Proof.
  intros Hok Hr Hw Hp Hn. apply (queues_ok_same k); [done|done|].
  intros q. unfold same_links. cbn. destruct (decide (q = p)) as [->|Hne].
  - by rewrite lookup_insert_eq, Hr.
  - rewrite lookup_insert_ne by done. by destruct (procs k !! q).
Qed.

(** The invariant after queue [que] became [l], with the links of the processes
    of the other queues unchanged. *)
Lemma queues_ok_update k k' Q que l :
  queues_ok k Q → 0 < que < NUM_QUEUES →
  queue_rep (procs k') (sysq k') que l →
  (∀ que', que' ≠ que → sysq k' !! que' = sysq k !! que') →
  (∀ que' p, que' ≠ que → 0 ≤ que' < NUM_QUEUES → p ∈ Q que' →
     same_links (procs k) (procs k') p) →
  (∀ p r, procs k' !! p = Some r →
     (wait_q r = CURPROC_Q ∧ q_next r = None ∧ q_prev r = None) ∨
     (wait_q r = que ∧ p ∈ l) ∨
     (∃ que', que' ≠ que ∧ 0 < que' < NUM_QUEUES ∧ wait_q r = que' ∧ p ∈ Q que')) →
  queues_ok k' (<[que := l]> Q).
Proof.
  intros [Hrep Hcur Hfree Hall] Hq Hnew Hs Hl Hp. unfold CURPROC_Q in *.
  constructor; unfold CURPROC_Q.
  - intros que' Hq'. destruct (decide (que' = que)) as [->|Hne].
    { by rewrite fn_lookup_insert. }
    rewrite fn_lookup_insert_ne by done.
    destruct (Hrep que' Hq') as (Hsq & Hd & Hnd).
    split; [by rewrite Hs|]. split; [|done].
    eapply dll_same; [|done]. intros p Hin. by eapply (Hl que').
  - rewrite fn_lookup_insert_ne by lia. done.
  - intros p r Hr Hw. destruct (Hp p r Hr) as [(_ & ? & ?)|[(? & _)|(? & ? & ? & ? & _)]];
      [done|lia|lia].
  - intros p r Hr Hw. destruct (Hp p r Hr) as [(? & _)|[(-> & ?)|(? & ? & ? & -> & ?)]].
    + done.
    + by rewrite fn_lookup_insert.
    + by rewrite fn_lookup_insert_ne.
Qed.

(** ** The operations on the lists *)

Lemma getq_run que q k : sysq k !! que = Some q → getq que k = Some (q, k).
Proof. apply (mderef_run (λ k, sysq k !! que)). Qed.

Lemma set_head_run que h q k :
  sysq k !! que = Some q →
  set_head que h k =
    Some (tt, set_sysq (<[que := mk_proc_queue h (pq_tail q)]> (sysq k)) k).
Proof. intros Hq. unfold set_head. by rewrite (bind_run _ _ _ _ _ (getq_run _ _ _ Hq)). Qed.

Lemma set_tail_run que t q k :
  sysq k !! que = Some q →
  set_tail que t k =
    Some (tt, set_sysq (<[que := mk_proc_queue (pq_head q) t]> (sysq k)) k).
Proof. intros Hq. unfold set_tail. by rewrite (bind_run _ _ _ _ _ (getq_run _ _ _ Hq)). Qed.

(** Look a process or a queue up in an updated state. *)
Ltac find := cbn; repeat first
  [ rewrite lookup_insert_eq; [] | rewrite lookup_insert_ne by congruence ];
  (eassumption || reflexivity).

(** The condition of an [assert], from the facts about the process. *)
Ltac assert_true := cbn; first
  [ done | apply Z.eqb_eq; congruence | apply bool_decide_eq_true_2; congruence ].

(** Run one step of a computation on a known state. *)
Ltac mstep := lazymatch goal with
  | |- (((_ ≫= _) ≫= _) _) = _ => rewrite bind_assoc; mstep
  | |- ((getp _ ≫= _) _) = _ => erewrite bind_run by (apply getp_run; find)
  | |- ((modp _ _ ≫= _) _) = _ => erewrite bind_run by (apply modp_run; find)
  | |- ((getq _ ≫= _) _) = _ => erewrite bind_run by (apply getq_run; find)
  | |- ((set_head _ _ ≫= _) _) = _ => erewrite bind_run by (apply set_head_run; find)
  | |- ((set_tail _ _ ≫= _) _) = _ => erewrite bind_run by (apply set_tail_run; find)
  | |- ((massert _ ≫= _) _) = _ => erewrite bind_run by (apply massert_run; assert_true)
  | |- ((mret _ ≫= _) _) = _ => erewrite bind_run by (apply ret_run)
  | |- ((mmod _ ≫= _) _) = _ => erewrite bind_run by reflexivity
  | |- ((mgets _ ≫= _) _) = _ => erewrite bind_run by reflexivity
  | |- (modp _ _ _) = _ => apply modp_run; find
  end.

(** The condition of [add_q] for the reward. *)
Definition rewarded (que : Z) (r : proc) : proc :=
  if negb (que =? READY_Q) && (slices r >=? 0) then reward r else r.

(** The state after [add_q]: the process is linked behind [t]. *)
Definition linked (que : Z) (r : proc) (t : option ptr) : proc :=
  rewarded que (set_wait_q que (set_q_prev t r)).

Lemma rewarded_links que r :
  wait_q (rewarded que r) = wait_q r ∧ q_prev (rewarded que r) = q_prev r ∧
  q_next (rewarded que r) = q_next r.
Proof. unfold rewarded. by case_bool. Qed.

Lemma core_linked que r t : core (linked que r t) = core (rewarded que r).
Proof. unfold linked, rewarded. cbn. by case_bool. Qed.

Lemma core_rewarded que r :
  core (rewarded que r) = rewarded que (core r).
Proof. unfold rewarded. cbn. by case_bool. Qed.

(** Decide an equation between updates of a map pointwise. *)
Ltac map_ext := apply map_eq; intros ?x;
  repeat match goal with
  | |- context [<[?p := _]> _ !! ?x] =>
      destruct (decide (x = p)) as [->|];
      [rewrite ?lookup_insert_eq|rewrite ?(lookup_insert_ne _ p x) by congruence]
  end; try done.

Lemma kst_eq k k' :
  procs k = procs k' → sysq k = sysq k' → rest k = rest k' → k = k'.
Proof.
  destruct k, k'. unfold rest. cbn. intros -> -> [= -> -> -> -> -> -> -> -> -> -> -> -> ->].
  done.
Qed.

(** Decide an equation between final states. *)
Ltac state_eq :=
  refine (f_equal (λ k, Some (tt, k)) (kst_eq _ _ _ _ _));
  [cbn; map_ext | cbn; map_ext | reflexivity].

Lemma add_q_run_empty k que p r q :
  procs k !! p = Some r → wait_q r = CURPROC_Q → q_next r = None →
  sysq k !! que = Some q → pq_tail q = None →
  add_q que p k =
    Some (tt, set_procs (<[p := linked que r None]> (procs k))
      (set_sysq (<[que := mk_proc_queue (Some p) (Some p)]> (sysq k)) k)).
Proof.
  intros Hr Hw Hn Hq Ht. unfold add_q. do 4 mstep.
  rewrite Ht. repeat mstep. unfold mwhen, linked, rewarded. cbn.
  case_bool; [erewrite modp_run by find|rewrite ret_run]; state_eq.
Qed.

Lemma add_q_run_snoc k que p r q t rt :
  procs k !! p = Some r → wait_q r = CURPROC_Q → q_next r = None →
  sysq k !! que = Some q → pq_tail q = Some t → procs k !! t = Some rt → t ≠ p →
  add_q que p k =
    Some (tt, set_procs (<[p := linked que r (Some t)]>
                           (<[t := set_q_next (Some p) rt]> (procs k)))
      (set_sysq (<[que := mk_proc_queue (pq_head q) (Some p)]> (sysq k)) k)).
Proof.
  intros Hr Hw Hn Hq Ht Hrt Hne. unfold add_q. do 4 mstep.
  rewrite Ht. repeat mstep. unfold mwhen, linked, rewarded. cbn.
  case_bool; [erewrite modp_run by find|rewrite ret_run]; state_eq.
Qed.

(** The links of the processes outside an update. *)
Lemma same_links_insert ps p q r :
  p ≠ q → same_links ps (<[q := r]> ps) p.
Proof.
  intros. unfold same_links. rewrite lookup_insert_ne by done.
  by destruct (ps !! p).
Qed.

Lemma same_links_eq ps ps' p : ps' !! p = ps !! p → same_links ps ps' p.
Proof. unfold same_links. intros ->. by destruct (ps !! p). Qed.

Lemma core_q_next n r : core (set_q_next n r) = core r.
Proof. done. Qed.
Lemma core_q_prev n r : core (set_q_prev n r) = core r.
Proof. done. Qed.
Lemma core_wait_q n r : core (set_wait_q n r) = core r.
Proof. done. Qed.

Lemma linked_links que r t :
  wait_q (linked que r t) = que ∧ q_prev (linked que r t) = t ∧
  q_next (linked que r t) = q_next r.
Proof.
  unfold linked. destruct (rewarded_links que (set_wait_q que (set_q_prev t r)))
    as (-> & -> & ->). done.
Qed.

(** Every process of an intact queue is on it or elsewhere. *)
Lemma queue_cases k Q p r que :
  queues_ok k Q → procs k !! p = Some r →
  (wait_q r = CURPROC_Q ∧ q_next r = None ∧ q_prev r = None) ∨
  (wait_q r = que ∧ p ∈ Q que) ∨
  (∃ que', que' ≠ que ∧ 0 < que' < NUM_QUEUES ∧ wait_q r = que' ∧ p ∈ Q que').
Proof.
  intros [Hrep Hcur Hfree Hall] Hr. destruct (decide (wait_q r = CURPROC_Q)) as [|Hne].
  { left. eauto. }
  right. destruct (Hall p r Hr Hne) as [Hb Hin].
  destruct (decide (wait_q r = que)) as [<-|]; [by left|right]. by exists (wait_q r).
Qed.

Lemma queue_rep_snoc ps sq que l t p r rt :
  queue_rep ps sq que (l ++ [t]) → p ∉ l ++ [t] → ps !! t = Some rt →
  q_next r = None →
  queue_rep (<[p := linked que r (Some t)]> (<[t := set_q_next (Some p) rt]> ps))
    (<[que := mk_proc_queue (first_of (l ++ [t]) None) (Some p)]> sq)
    que ((l ++ [t]) ++ [p]).
Proof.
  intros (Hsq & Hd & Hnd) Hp Hrt Hn.
  destruct (linked_links que r (Some t)) as (HLw & HLp & HLn).
  split; [|split].
  - rewrite lookup_insert_eq, last_of_snoc. by destruct l.
  - rewrite dll_app. split.
    + apply dll_frame; [done|]. by eapply dll_relink_last.
    + cbn. split; [|done]. eexists. rewrite lookup_insert_eq. split; [done|].
      rewrite HLw, HLp, HLn, last_of_snoc. done.
  - apply NoDup_app. split; [done|]. split; [set_solver|apply NoDup_singleton].
Qed.

Lemma queue_rep_single ps sq que p r :
  q_next r = None →
  queue_rep (<[p := linked que r None]> ps)
    (<[que := mk_proc_queue (Some p) (Some p)]> sq) que [p].
Proof.
  intros Hn. destruct (linked_links que r None) as (HLw & HLp & HLn).
  split; [by rewrite lookup_insert_eq|]. split; [|apply NoDup_singleton].
  cbn. split; [|done]. eexists. rewrite lookup_insert_eq. split; [done|].
  rewrite HLw, HLp, HLn. done.
Qed.

(** A table where only the links of queue [que] changed, and [p]. *)
Definition only_queue (ps ps' : gmap ptr proc) (l : list ptr) (p : ptr) : Prop :=
  ∀ q, q ≠ p → (q ∉ l ∧ ps' !! q = ps !! q) ∨
    (q ∈ l ∧ ∃ r r', ps !! q = Some r ∧ ps' !! q = Some r' ∧ wait_q r' = wait_q r).

Lemma queues_ok_relink k ps sq Q que l l' p r' :
  queues_ok k Q → 0 < que < NUM_QUEUES →
  queue_rep ps sq que l' →
  (∀ que', que' ≠ que → sq !! que' = sysq k !! que') →
  Q que ⊆ l → only_queue (procs k) ps l p →
  (∀ q, q ∈ l → q ≠ p → q ∈ Q que ∧ q ∈ l') →
  (∀ que', que' ≠ que → 0 ≤ que' < NUM_QUEUES → p ∉ Q que') →
  ps !! p = Some r' →
  (wait_q r' = CURPROC_Q ∧ q_next r' = None ∧ q_prev r' = None) ∨
  (wait_q r' = que ∧ p ∈ l') →
  queues_ok (set_procs ps (set_sysq sq k)) (<[que := l']> Q).
Proof.
  intros Hok Hq Hrep Hsq Hl Hps Hmem Hp Hr' Hw'. unfold CURPROC_Q in *.
  apply (queues_ok_update k); try done.
  - intros que' q Hne Hb Hin. cbn.
    assert (q ≠ p) as Hqp by (intros ->; by eapply Hp).
    destruct (Hps q Hqp) as [[_ Heq]|[Hql _]].
    + by apply same_links_eq.
    + destruct (Hmem q Hql Hqp) as [Hqq _].
      destruct (queue_elem k Q que q Hok ltac:(lia) Hqq) as (r1 & ? & ?).
      destruct (queue_elem k Q que' q Hok Hb Hin) as (r2 & ? & ?). congruence.
  - cbn. intros q r Hr. destruct (decide (q = p)) as [->|Hqp].
    { rewrite Hr' in Hr. injection Hr as <-. destruct Hw'; eauto. }
    destruct (Hps q Hqp) as [[Hni Heq]|(Hql & r0 & r1 & Hr0 & Hr1 & Hw)].
    + rewrite Heq in Hr.
      destruct (queue_cases k Q q r que Hok Hr) as [?|[[_ Hin]|?]]; [eauto| |eauto].
      destruct Hni. by apply Hl.
    + assert (r = r1) as -> by congruence. destruct (Hmem q Hql Hqp) as [Hqq Hql'].
      apply (queue_elem_iff k Q que q r0 Hok Hq Hr0) in Hqq.
      right; left. split; [congruence|done].
Qed.

(** [add_q] appends the process to the queue, and rewards it. *)
Lemma add_q_ok k Q que p r :
  queues_ok k Q → 0 < que < NUM_QUEUES →
  procs k !! p = Some r → wait_q r = CURPROC_Q →
  ∃ k', add_q que p k = Some (tt, k') ∧
    queues_ok k' (<[que := Q que ++ [p]]> Q) ∧
    cores k' = <[p := core (rewarded que r)]> (cores k) ∧ rest k' = rest k.
Proof.
  intros Hok Hq Hr Hw. destruct (qok_free k Q Hok p r Hr Hw) as [Hn Hp].
  pose proof (qok_rep k Q Hok que ltac:(lia)) as Hrep.
  assert (∀ que', 0 ≤ que' < NUM_QUEUES → p ∉ Q que') as Hout.
  { intros que' Hb. destruct (decide (que' = CURPROC_Q)) as [->|Hne].
    - rewrite (qok_cur k Q Hok). set_solver.
    - unfold CURPROC_Q in *. rewrite (queue_elem_iff k Q que' p r); [|done|lia|done].
      lia. }
  destruct (last (Q que)) as [t|] eqn:Hlast.
  - apply last_Some in Hlast as [l Hl]. rewrite Hl in Hrep.
    pose proof Hrep as (Hsq & Hd & Hnd). rewrite last_of_snoc in Hsq.
    destruct (dll_mid (procs k) que None l t [] None Hd) as (rt & Hrt & Hwt & Hpt & Hnt).
    assert (t ≠ p) as Hne by (intros ->; apply (Hout que); [lia|rewrite Hl; set_solver]).
    assert (p ∉ l ++ [t]) as Hpl by (rewrite <- Hl; apply Hout; lia).
    eexists. split; [by eapply add_q_run_snoc|]. split; [|split; [|done]].
    + rewrite Hl. eapply queues_ok_relink with (l := Q que); try done.
      * by apply queue_rep_snoc.
      * intros que' ?. by rewrite lookup_insert_ne.
      * intros q Hqp. rewrite lookup_insert_ne by done.
        destruct (decide (q = t)) as [->|Hqt].
        -- right. split; [rewrite Hl; set_solver|]. exists rt. eexists.
           rewrite lookup_insert_eq. done.
        -- rewrite lookup_insert_ne by done. destruct (decide (q ∈ Q que)) as [Hin|];
             [right|by left]. split; [done|].
           destruct (queue_elem k Q que q Hok ltac:(lia) Hin) as (r1 & ? & ?). eauto.
      * intros q Hin _. split; [done|]. rewrite <- Hl. set_solver.
      * intros. by apply Hout.
      * apply lookup_insert_eq.
      * right. split; [apply linked_links|set_solver].
    + unfold cores. cbn. rewrite !fmap_insert, core_linked, core_q_next.
      f_equal. apply insert_id. by rewrite lookup_fmap, Hrt.
  - apply last_None in Hlast as Hl. rewrite Hl in Hrep. pose proof Hrep as (Hsq & _ & _).
    eexists. split; [by eapply add_q_run_empty|]. split; [|split; [|done]].
    + rewrite Hl. cbn. eapply queues_ok_relink with (l := Q que); try done.
      * by apply queue_rep_single.
      * intros que' ?. by rewrite lookup_insert_ne.
      * intros q Hqp. rewrite lookup_insert_ne by done. left. rewrite Hl. set_solver.
      * intros q Hin. rewrite Hl in Hin. set_solver.
      * intros. by apply Hout.
      * apply lookup_insert_eq.
      * right. split; [apply linked_links|set_solver].
    + unfold cores. cbn. by rewrite fmap_insert, core_linked.
Qed.

(** ** Removal *)

(** Change the process [o], if there is one. *)
Definition relink (o : option ptr) (f : proc → proc) (ps : gmap ptr proc) :
    gmap ptr proc :=
  match o with
  | Some a => alter f a ps
  | None => ps
  end.

Definition removed (p : ptr) (r : proc) (ps : gmap ptr proc) : gmap ptr proc :=
  <[p := core r]>
    (relink (q_next r) (set_q_prev (q_prev r))
      (relink (q_prev r) (set_q_next (q_next r)) ps)).

Definition removed_queue (r : proc) (q : proc_queue) : proc_queue :=
  mk_proc_queue (if q_prev r then pq_head q else q_next r)
    (if q_next r then pq_tail q else q_prev r).

Lemma alter_insert (ps : gmap ptr proc) a r f :
  ps !! a = Some r → alter f a ps = <[a := f r]> ps.
Proof.
  intros Hr. apply map_eq. intros i. destruct (decide (i = a)) as [->|].
  - by rewrite lookup_alter_eq, lookup_insert_eq, Hr.
  - by rewrite lookup_alter_ne, lookup_insert_ne.
Qed.

Lemma rm_q_run k que p r q :
  procs k !! p = Some r → wait_q r = que → sysq k !! que = Some q →
  (∀ a, q_prev r = Some a → a ≠ p ∧ is_Some (procs k !! a)) →
  (∀ b, q_next r = Some b → b ≠ p ∧ is_Some (procs k !! b) ∧ q_prev r ≠ Some b) →
  rm_q que p k =
    Some (tt, set_procs (removed p r (procs k))
      (set_sysq (<[que := removed_queue r q]> (sysq k)) k)).
Proof.
  intros Hr Hw Hq Ha Hb. unfold rm_q, removed, removed_queue. destruct q as [h t].
  do 2 mstep.
  destruct (q_prev r) as [a|]; [destruct (Ha a eq_refl) as [Hap [ra Hra]]|];
    (destruct (q_next r) as [b|]; [destruct (Hb b eq_refl) as (Hbp & [rb Hrb] & Hab)|]);
    cbn; rewrite ?(alter_insert (procs k) a ra) by done; repeat mstep.
  all: rewrite ?(alter_insert _ b rb) by find; erewrite modp_run by find; state_eq.
Qed.

Lemma relink_lookup_ne o f ps q :
  o ≠ Some q → relink o f ps !! q = ps !! q.
Proof. destruct o as [a|]; cbn; [|done]. intros. apply lookup_alter_ne. congruence. Qed.

Lemma relink_cores o f ps :
  (∀ r, core (f r) = core r) → core <$> relink o f ps = core <$> ps.
Proof.
  intros Hf. destruct o as [a|]; cbn; [|done]. apply map_eq. intros i.
  rewrite !lookup_fmap. destruct (decide (i = a)) as [->|].
  - rewrite lookup_alter_eq. destruct (ps !! a); cbn; [by rewrite Hf|done].
  - by rewrite lookup_alter_ne.
Qed.

Lemma relink_wait_q o f ps q r :
  (∀ r, wait_q (f r) = wait_q r) → ps !! q = Some r →
  ∃ r', relink o f ps !! q = Some r' ∧ wait_q r' = wait_q r.
Proof.
  intros Hf Hr. destruct o as [a|]; cbn; [|by exists r].
  destruct (decide (q = a)) as [->|].
  - exists (f r). by rewrite lookup_alter_eq, Hr.
  - exists r. by rewrite lookup_alter_ne.
Qed.

Lemma dll_relink_last_of ps que pv l nx nx' :
  NoDup l → dll ps que pv l nx →
  dll (relink (last l) (set_q_next nx') ps) que pv l nx'.
Proof.
  destruct l as [|t l _] using rev_ind; [done|]. rewrite last_snoc. intros Hnd Hd.
  destruct (dll_mid ps que pv l t [] nx Hd) as (r & Hr & _). cbn.
  rewrite (alter_insert ps t r) by done. by eapply dll_relink_last.
Qed.

Lemma dll_relink_first_of ps que pv pv' l nx :
  NoDup l → dll ps que pv l nx →
  dll (relink (first_of l None) (set_q_prev pv') ps) que pv' l nx.
Proof.
  destruct l as [|h l]; [done|]. intros Hnd Hd.
  destruct (dll_mid ps que pv [] h l nx Hd) as (r & Hr & _). cbn [relink first_of].
  rewrite (alter_insert ps h r) by done. by eapply dll_relink_first.
Qed.

Lemma dll_relink_frame ps que pv l nx o f :
  (∀ a, o = Some a → a ∉ l) → dll ps que pv l nx → dll (relink o f ps) que pv l nx.
Proof.
  intros Ho. apply dll_same. intros q Hq. apply same_links_eq.
  apply relink_lookup_ne. intros ->. by eapply Ho.
Qed.

Lemma first_of_elem l a : first_of l None = Some a → a ∈ l.
Proof. destruct l; cbn; [done|]. intros [= ->]. left. Qed.

Lemma last_of_None l : last_of None l = last l.
Proof. unfold last_of. by destruct (last l). Qed.

Lemma last_elem l (a : ptr) : last l = Some a → a ∈ l.
Proof. intros [l' ->]%last_Some. set_solver. Qed.

Lemma queue_rep_remove ps sq que l1 p l2 r q :
  queue_rep ps sq que (l1 ++ p :: l2) → sq !! que = Some q →
  ps !! p = Some r →
  queue_rep (removed p r ps) (<[que := removed_queue r q]> sq) que (l1 ++ l2).
Proof.
  intros (Hsq & Hd & Hnd) Hq Hr.
  destruct (dll_mid ps que None l1 p l2 None Hd) as (r' & Hr' & Hw & Hp & Hn).
  assert (r' = r) as -> by congruence.
  rewrite Hq in Hsq. injection Hsq as ->.
  pose proof Hnd as (Hn1 & Hdis & Hn2)%NoDup_app.
  apply NoDup_cons in Hn2 as [Hp2 Hn2].
  apply dll_app in Hd as [Hd1 [_ Hd2]].
  split; [|split].
  - rewrite lookup_insert_eq. unfold removed_queue.
    rewrite Hp, Hn, !last_of_None, !last_app. cbn [pq_head pq_tail]. repeat f_equal.
    + destruct l1 as [|h l1]; [done|]. rewrite last_cons. by destruct (last l1).
    + destruct l2 as [|b l2]; [done|]. rewrite !last_cons. by destruct (last l2).
  - unfold removed. rewrite Hp, Hn, last_of_None. apply dll_frame; [set_solver|].
    apply dll_app. split.
    + apply dll_relink_frame.
      { intros a Ha%first_of_elem Ha1. eapply Hdis; [done|]. set_solver. }
      by eapply dll_relink_last_of.
    + rewrite last_of_None. apply (dll_relink_first_of _ _ (Some p)); [done|].
      apply dll_relink_frame; [|done].
      intros a Ha%last_elem Ha2. eapply Hdis; [done|]. set_solver.
  - apply NoDup_app. split; [done|]. split; [set_solver|done].
Qed.

(** A queue without the process [p]. *)
Definition without (p : ptr) (l : list ptr) : list ptr := filter (λ q, q ≠ p) l.

Lemma without_mid l1 p l2 :
  NoDup (l1 ++ p :: l2) → without p (l1 ++ p :: l2) = l1 ++ l2.
Proof.
  intros (Hn1 & Hdis & Hn2)%NoDup_app. apply NoDup_cons in Hn2 as [Hp2 Hn2].
  unfold without. rewrite filter_app, filter_cons, decide_False by naive_solver.
  rewrite !filter_all; [done| |]; apply Forall_forall; intros q Hq ->; [done|].
  eapply Hdis; [done|]. left.
Qed.

Lemma queue_split k Q que p :
  queues_ok k Q → 0 ≤ que < NUM_QUEUES → p ∈ Q que →
  ∃ l1 l2 r, Q que = l1 ++ p :: l2 ∧ NoDup (l1 ++ p :: l2) ∧
    procs k !! p = Some r ∧ wait_q r = que ∧
    q_prev r = last l1 ∧ q_next r = first_of l2 None.
Proof.
  intros Hok Hq Hin. destruct (qok_rep k Q Hok que Hq) as (_ & Hd & Hnd).
  apply list_elem_of_split in Hin as (l1 & l2 & Hl). rewrite Hl in *.
  destruct (dll_mid _ _ _ _ _ _ _ Hd) as (r & Hr & Hw & Hp & Hn).
  rewrite last_of_None in Hp. by exists l1, l2, r.
Qed.

Lemma rm_q_neighbours k Q que p r l1 l2 :
  queues_ok k Q → 0 ≤ que < NUM_QUEUES → Q que = l1 ++ p :: l2 →
  NoDup (l1 ++ p :: l2) → q_prev r = last l1 → q_next r = first_of l2 None →
  (∀ a, q_prev r = Some a → a ≠ p ∧ is_Some (procs k !! a)) ∧
  (∀ b, q_next r = Some b → b ≠ p ∧ is_Some (procs k !! b) ∧ q_prev r ≠ Some b).
Proof.
  intros Hok Hq HQ (Hn1 & Hdis & Hn2)%NoDup_app -> ->.
  apply NoDup_cons in Hn2 as [Hp2 Hn2].
  assert (∀ a, a ∈ Q que → is_Some (procs k !! a)) as Hex.
  { intros a Ha. destruct (queue_elem k Q que a Hok Hq Ha) as (? & ? & _). eauto. }
  split.
  - intros a Ha%last_elem. split; [|apply Hex; rewrite HQ; set_solver].
    intros ->. eapply Hdis; [done|]. left.
  - intros b Hb%first_of_elem. split; [congruence|].
    split; [apply Hex; rewrite HQ; set_solver|]. intros Ha%last_elem.
    eapply Hdis; [done|]. set_solver.
Qed.

(** [rm_q] removes the process from its queue. *)
Lemma rm_q_ok k Q que p :
  queues_ok k Q → 0 < que < NUM_QUEUES → p ∈ Q que →
  ∃ r k', procs k !! p = Some r ∧ rm_q que p k = Some (tt, k') ∧
    queues_ok k' (<[que := without p (Q que)]> Q) ∧
    procs k' !! p = Some (core r) ∧
    cores k' = cores k ∧ rest k' = rest k.
Proof.
  intros Hok Hq Hin. assert (0 ≤ que < NUM_QUEUES) as Hq' by lia.
  destruct (queue_split k Q que p Hok Hq' Hin)
    as (l1 & l2 & r & HQ & Hnd & Hr & Hw & Hp & Hn).
  pose proof (qok_rep k Q Hok que Hq') as Hrep. rewrite HQ in Hrep.
  pose proof Hrep as (Hsq & _ & _).
  destruct (rm_q_neighbours k Q que p r l1 l2 Hok Hq' HQ Hnd Hp Hn) as [Ha Hb].
  eexists r, _. split; [done|]. split; [by eapply rm_q_run|].
  rewrite HQ, without_mid by done. split; [|split; [|split; [|done]]].
  - eapply (queues_ok_relink k _ _ Q que (l1 ++ p :: l2) _ p (core r)); try done.
    + by eapply queue_rep_remove.
    + intros que' ?. by rewrite lookup_insert_ne.
    + by rewrite HQ.
    + intros q Hqp. unfold removed. rewrite lookup_insert_ne by done.
      destruct (decide (q ∈ l1 ++ p :: l2)) as [Hql|Hql]; [right|left]; (split; [done|]).
      * rewrite <- HQ in Hql.
        destruct (queue_elem k Q que q Hok Hq' Hql) as (r1 & Hr1 & _).
        destruct (relink_wait_q (q_prev r) (set_q_next (q_next r)) (procs k) q r1)
          as (r2 & Hr2 & Hw2); [done|done|].
        destruct (relink_wait_q (q_next r) (set_q_prev (q_prev r)) _ q r2 ltac:(done) Hr2)
          as (r3 & Hr3 & Hw3).
        exists r1, r3. split; [done|]. split; [done|congruence].
      * rewrite !relink_lookup_ne; [done| |]; rewrite ?Hp, ?Hn; intros ?;
          [pose proof (last_elem _ _ ltac:(eassumption))|
           pose proof (first_of_elem _ _ ltac:(eassumption))]; set_solver.
    + intros q Hql Hqp. rewrite HQ. set_solver.
    + intros que' Hne Hb' Hin'.
      destruct (queue_elem k Q que' p Hok Hb' Hin') as (r2 & ? & ?). congruence.
    + unfold removed. apply lookup_insert_eq.
    + left. done.
  - unfold removed. cbn. apply lookup_insert_eq.
  - unfold cores, removed. cbn. rewrite fmap_insert, !relink_cores by done.
    apply insert_id. by rewrite lookup_fmap, Hr.
Qed.

(** ** Waking, on the lists *)

Lemma queues_ok_ext k Q Q' :
  queues_ok k Q → (∀ que, Q que = Q' que) → queues_ok k Q'.
Proof.
  intros [Hrep Hcur Hfree Hall] HQ. constructor.
  - intros que. rewrite <- HQ. auto.
  - by rewrite <- HQ.
  - done.
  - intros p r. rewrite <- HQ. auto.
Qed.

#[export] Instance queues_ok_proper k :
  Proper (pointwise_relation Z eq ==> iff) (queues_ok k).
Proof.
  intros Q Q' HQ. split; intros Hok; eapply queues_ok_ext; try done.
Qed.

(** The queues after the processes [l] of [que] moved to the ready queue. *)
Definition moved (que : Z) (stay go : list ptr) (Q : Z → list ptr) : Z → list ptr :=
  <[READY_Q := Q READY_Q ++ go]> (<[que := stay]> Q).

Lemma core_field {A} (f : proc → A) k k' p r :
  (∀ r, f (core r) = f r) → cores k' = cores k → procs k !! p = Some r →
  ∃ r', procs k' !! p = Some r' ∧ f r' = f r ∧ core r' = core r.
Proof.
  intros Hf Hc Hr. assert (cores k' !! p = Some (core r)) as Hl.
  { unfold cores in *. by rewrite Hc, lookup_fmap, Hr. }
  unfold cores in Hl. rewrite lookup_fmap in Hl.
  destruct (procs k' !! p) as [r'|]; [|done].
  change (Some (core r') = Some (core r)) in Hl. apply (inj Some) in Hl as Hcr.
  exists r'. split; [done|].
  split; [|done]. by rewrite <- (Hf r'), Hcr, Hf.
Qed.

Lemma rewarded_ready r : rewarded READY_Q r = r.
Proof. done. Qed.

Lemma move_ready_ok k Q que p :
  queues_ok k Q → READY_Q < que < NUM_QUEUES → p ∈ Q que →
  ∃ k', (rm_q que p ;; add_q READY_Q p) k = Some (tt, k') ∧
    queues_ok k' (moved que (without p (Q que)) [p] Q) ∧
    cores k' = cores k ∧ rest k' = rest k.
Proof.
  unfold READY_Q, NUM_QUEUES. intros Hok Hq Hin.
  destruct (rm_q_ok k Q que p Hok ltac:(unfold NUM_QUEUES; lia) Hin)
    as (r & k1 & Hr & Hrm & Hok1 & Hr1 & Hc1 & Hrest1).
  destruct (add_q_ok k1 _ READY_Q p (core r) Hok1 ltac:(done) Hr1 ltac:(done))
    as (k2 & Hadd & Hok2 & Hc2 & Hrest2).
  exists k2. erewrite bind_run by done. split; [done|]. split.
  { unfold moved, READY_Q in *. by rewrite (fn_lookup_insert_ne _ que 1) in Hok2 by lia. }
  rewrite rewarded_ready in Hc2. split; [|congruence].
  rewrite Hc2, Hc1. apply insert_id. unfold cores. by rewrite lookup_fmap, Hr.
Qed.

(** [p] waits for [cond]. *)
Definition waits_for (k : kst) (cond : Z) (p : ptr) : bool :=
  match cores k !! p with
  | Some r => wait_cond r =? cond
  | None => false
  end.

Lemma waits_for_proc k cond p r :
  procs k !! p = Some r → waits_for k cond p = (wait_cond r =? cond).
Proof. intros Hr. unfold waits_for, cores. by rewrite lookup_fmap, Hr. Qed.

Definition wakers (k : kst) (cond : Z) (l : list ptr) : list ptr :=
  filter (λ p, waits_for k cond p) l.
Definition sleepers (k : kst) (cond : Z) (l : list ptr) : list ptr :=
  filter (λ p, negb (waits_for k cond p)) l.

Lemma wakers_same k k' cond l : cores k' = cores k → wakers k' cond l = wakers k cond l.
Proof. intros Hc. unfold wakers, waits_for. by rewrite Hc. Qed.
Lemma sleepers_same k k' cond l :
  cores k' = cores k → sleepers k' cond l = sleepers k cond l.
Proof. intros Hc. unfold sleepers, waits_for. by rewrite Hc. Qed.

Lemma do_wake_loop_ok que cond l :
  ∀ fuel k Q kept,
  queues_ok k Q → READY_Q < que < NUM_QUEUES → Q que = kept ++ l →
  (length l ≤ fuel)%nat →
  ∃ k', do_wake_loop fuel que cond (first_of l None) k = Some (tt, k') ∧
    queues_ok k' (moved que (kept ++ sleepers k cond l) (wakers k cond l) Q) ∧
    cores k' = cores k ∧ rest k' = rest k.
Proof.
  induction l as [|p l IH]; intros fuel k Q kept Hok Hq HQ Hlen.
  { exists k. destruct fuel; (split; [done|]); (split; [|done]);
      (eapply queues_ok_ext; [exact Hok|]); intros x; unfold moved; cbn;
      rewrite !app_nil_r in *; unfold READY_Q in *;
      (destruct (decide (x = 1)) as [->|]; [by rewrite fn_lookup_insert|]);
      (destruct (decide (x = que)) as [->|];
       [by rewrite fn_lookup_insert_ne, fn_lookup_insert, HQ by lia|]);
      by rewrite !fn_lookup_insert_ne by lia. }
  destruct fuel as [|fuel]; [cbn in Hlen; lia|]. cbn [first_of do_wake_loop].
  assert (p ∈ Q que) as Hin by (rewrite HQ; set_solver).
  pose proof (qok_rep k Q Hok que ltac:(unfold READY_Q in *; lia)) as (_ & Hd & Hnd).
  rewrite HQ in Hd, Hnd.
  destruct (dll_mid _ _ _ _ _ _ _ Hd) as (r & Hr & Hw & Hp & Hn).
  erewrite bind_run by by apply getp_run.
  rewrite Hw, Z.eqb_refl. cbn [negb]. rewrite Hn. unfold sleepers, wakers.
  rewrite !filter_cons, !(waits_for_proc k cond p r) by done.
  destruct (Z.eqb_spec (wait_cond r) cond) as [Heq|Hne]; cbn [mwhen negb].
  - destruct (move_ready_ok k Q que p Hok Hq Hin) as (k1 & H1 & Hok1 & Hc1 & Hr1).
    erewrite bind_run by exact H1.
    rewrite HQ, without_mid in Hok1 by done.
    destruct (IH fuel k1 _ kept Hok1 Hq) as (k2 & H2 & Hok2 & Hc2 & Hr2).
    { unfold moved, READY_Q in *.
      by rewrite fn_lookup_insert_ne, fn_lookup_insert by lia. }
    { cbn in Hlen. lia. }
    exists k2. split; [done|]. split; [|split; congruence].
    rewrite decide_False, decide_True by naive_solver.
    rewrite (sleepers_same k k1), (wakers_same k k1) in Hok2 by done.
    eapply queues_ok_ext; [exact Hok2|]. intros x. unfold moved, READY_Q in *.
    destruct (decide (x = 1)) as [->|].
    { rewrite !fn_lookup_insert. by rewrite <- app_assoc. }
    rewrite !(fn_lookup_insert_ne _ 1 x) by lia.
    destruct (decide (x = que)) as [->|]; [by rewrite !fn_lookup_insert|].
    by rewrite !fn_lookup_insert_ne by lia.
  - erewrite bind_run by apply ret_run.
    destruct (IH fuel k Q (kept ++ [p]) Hok Hq) as (k2 & H2 & Hok2 & Hc2 & Hr2).
    { by rewrite <- app_assoc. }
    { cbn in Hlen. lia. }
    exists k2. split; [done|]. split; [|done].
    rewrite decide_True, decide_False by naive_solver.
    by rewrite <- app_assoc in Hok2.
Qed.

Lemma queue_length k Q que :
  queues_ok k Q → 0 ≤ que < NUM_QUEUES → (length (Q que) ≤ size (procs k))%nat.
Proof.
  intros Hok Hq. destruct (qok_rep k Q Hok que Hq) as (_ & _ & Hnd).
  rewrite <- (size_list_to_set (C := gset ptr)), <- (size_dom (D := gset ptr)) by done.
  apply subseteq_size. intros p Hp%elem_of_list_to_set.
  destruct (queue_elem k Q que p Hok Hq Hp) as (r & Hr & _).
  by apply elem_of_dom_2 in Hr.
Qed.

Lemma do_wake_ok k Q que cond :
  queues_ok k Q → READY_Q < que < NUM_QUEUES →
  ∃ k', do_wake que cond k = Some (tt, k') ∧
    queues_ok k' (moved que (sleepers k cond (Q que)) (wakers k cond (Q que)) Q) ∧
    cores k' = cores k ∧ rest k' = rest k.
Proof.
  intros Hok Hq. pose proof Hq as Hq'. unfold READY_Q in Hq'.
  unfold do_wake. erewrite (bind_run (mgets _)) by reflexivity.
  destruct (qok_rep k Q Hok que ltac:(lia)) as (Hsq & _ & _).
  erewrite bind_run by (by apply getq_run). cbn [pq_head].
  apply (do_wake_loop_ok que cond (Q que) _ k Q []); [done|done|done|].
  apply queue_length; [done|lia].
Qed.

(** ** The scheduler, on the lists *)

(** The penalty of a process. *)
Definition sl (k : kst) (p : ptr) : Z :=
  match procs k !! p with Some r => slices r | None => 0 end.

(** States that differ only in the penalties. *)
Definition same_but_slices (k k' : kst) : Prop :=
  set_slices 0 <$> procs k' = set_slices 0 <$> procs k ∧
  sysq k' = sysq k ∧ rest k' = rest k.

Lemma same_but_slices_refl k : same_but_slices k k.
Proof. done. Qed.

Lemma same_but_slices_trans k1 k2 k3 :
  same_but_slices k1 k2 → same_but_slices k2 k3 → same_but_slices k1 k3.
Proof. unfold same_but_slices. intuition congruence. Qed.

Lemma same_but_slices_proc k k' p r :
  same_but_slices k k' → procs k !! p = Some r →
  ∃ n, procs k' !! p = Some (set_slices n r).
Proof.
  intros [Hps _] Hr.
  assert ((set_slices 0 <$> procs k') !! p = Some (set_slices 0 r)) as Hl
    by (by rewrite Hps, lookup_fmap, Hr).
  rewrite lookup_fmap in Hl. destruct (procs k' !! p) as [r'|]; [|done].
  change (Some (set_slices 0 r') = Some (set_slices 0 r)) in Hl.
  apply (inj Some) in Hl. exists (slices r'). f_equal.
  assert (set_slices (slices r') (set_slices 0 r') = r') as <- by (by destruct r').
  by rewrite Hl.
Qed.

Lemma same_but_slices_sym k k' : same_but_slices k k' → same_but_slices k' k.
Proof. unfold same_but_slices. intuition congruence. Qed.

Lemma same_but_slices_links k k' p :
  same_but_slices k k' → same_links (procs k) (procs k') p.
Proof.
  intros Hs. unfold same_links. destruct (procs k !! p) as [r|] eqn:Hr.
  - destruct (same_but_slices_proc k k' p r Hs Hr) as [n ->]. done.
  - destruct (procs k' !! p) as [r'|] eqn:Hr'; [|done].
    destruct (same_but_slices_proc k' k p r') as [n Hn]; [|done|congruence].
    by apply same_but_slices_sym.
Qed.

Lemma same_but_slices_queues k k' Q :
  same_but_slices k k' → queues_ok k Q → queues_ok k' Q.
Proof.
  intros Hs Hok. apply (queues_ok_same k); [done|apply Hs|].
  intros p. by apply same_but_slices_links.
Qed.

Lemma set_slices_step k p r n :
  procs k !! p = Some r →
  same_but_slices k (set_procs (<[p := set_slices n r]> (procs k)) k) ∧
  ∀ q, sl (set_procs (<[p := set_slices n r]> (procs k)) k) q =
       if decide (q = p) then n else sl k q.
Proof.
  intros Hr. split.
  - split; [|done]. cbn. rewrite fmap_insert. apply insert_id.
    by rewrite lookup_fmap, Hr.
  - intros q. unfold sl. cbn. destruct (decide (q = p)) as [->|].
    + by rewrite lookup_insert_eq.
    + by rewrite lookup_insert_ne.
Qed.

(** One walk over the ready queue. *)
Lemma scan_ready_ok l : ∀ fuel k pv,
  dll (procs k) READY_Q pv l None → NoDup l → (length l ≤ fuel)%nat →
  ∃ o k', scan_ready fuel (first_of l None) k = Some (o, k') ∧
    same_but_slices k k' ∧
    match o with
    | None => (∀ q, q ∈ l → 0 < sl k q) ∧
        ∀ q, sl k' q = if decide (q ∈ l) then sl k q - 1 else sl k q
    | Some p => ∃ l1 l2, l = l1 ++ p :: l2 ∧ sl k p ≤ 0 ∧
        (∀ q, q ∈ l1 → 0 < sl k q) ∧
        ∀ q, sl k' q = if decide (q ∈ l1) then sl k q - 1 else sl k q
    end.
Proof.
  induction l as [|p l IH]; intros fuel k pv Hd Hnd Hlen.
  { exists None, k. split; [by destruct fuel|]. split; [done|]. set_solver. }
  destruct fuel as [|fuel]; [cbn in Hlen; lia|].
  destruct Hd as [(r & Hr & Hw & Hp & Hn) Hd]. apply NoDup_cons in Hnd as [Hpl Hnd].
  assert (sl k p = slices r) as Hslp by (unfold sl; by rewrite Hr).
  cbn [first_of scan_ready]. erewrite bind_run by by apply getp_run.
  destruct (Z.gtb_spec (slices r) 0) as [Hgt|Hle].
  - erewrite bind_run by by apply modp_run. rewrite Hn.
    destruct (set_slices_step k p r (slices r - 1) Hr) as [Hs1 Hsl1].
    set (k1 := set_procs _ k) in *.
    destruct (IH fuel k1 (Some p)) as (o & k' & Hrun & Hs2 & Ho).
    { eapply dll_same; [|done]. intros q _. by apply same_but_slices_links. }
    { done. } { cbn in Hlen. lia. }
    exists o, k'. split; [done|]. split; [by eapply same_but_slices_trans|].
    assert (∀ q, q ∈ l → sl k1 q = sl k q) as Hl1.
    { intros q Hq. rewrite Hsl1. rewrite decide_False by (by intros ->). done. }
    destruct o as [p'|].
    + destruct Ho as (l1 & l2 & -> & Hsl & Hpos & Hq). exists (p :: l1), l2.
      split; [done|]. split; [rewrite <- Hl1; [done|set_solver]|]. split.
      * intros q [->|Hq1]%elem_of_cons; [lia|]. rewrite <- Hl1; [auto|set_solver].
      * intros q. rewrite Hq, Hsl1. repeat case_decide; set_solver by lia.
    + destruct Ho as [Hpos Hq]. split.
      * intros q [->|Hq1]%elem_of_cons; [lia|]. rewrite <- Hl1; auto.
      * intros q. rewrite Hq, Hsl1. repeat case_decide; set_solver by lia.
  - exists (Some p), k. split; [done|]. split; [done|]. exists [], l.
    split; [done|]. split; [lia|]. set_solver.
Qed.

(** The choice of the scheduler: the first process of [l] with the least
    penalty [m]; the processes before it pay one more. *)
Definition chosen (k k' : kst) (l : list ptr) (p : ptr) : Prop :=
  ∃ l1 l2 m, l = l1 ++ p :: l2 ∧ m = Z.max 0 (sl k p) ∧
    (∀ q, q ∈ l1 → m < sl k q) ∧ (∀ q, q ∈ l2 → m ≤ Z.max 0 (sl k q)) ∧
    (∀ q, q ∈ l1 → sl k' q = sl k q - (m + 1)) ∧
    (∀ q, q ∈ p :: l2 → sl k' q = sl k q - m) ∧
    (∀ q, q ∉ l → sl k' q = sl k q).

Lemma chosen_first k k' l1 p l2 :
  NoDup (l1 ++ p :: l2) → sl k p ≤ 0 → (∀ q, q ∈ l1 → 0 < sl k q) →
  (∀ q, sl k' q = if decide (q ∈ l1) then sl k q - 1 else sl k q) →
  chosen k k' (l1 ++ p :: l2) p.
Proof.
  intros (_ & Hdis & _)%NoDup_app Hp Hpos Hsl. exists l1, l2, 0.
  split; [done|]. split; [lia|]. split; [done|]. split; [lia|].
  split; [|split]; intros q Hq; rewrite Hsl; case_decide; try lia; set_solver.
Qed.

Lemma chosen_later k k1 k' l p :
  (∀ q, q ∈ l → 0 < sl k q) →
  (∀ q, sl k1 q = if decide (q ∈ l) then sl k q - 1 else sl k q) →
  chosen k1 k' l p → chosen k k' l p.
Proof.
  intros Hpos Hsl (l1 & l2 & m & -> & Hm & H1 & H2 & H3 & H4 & H5).
  assert (∀ q, q ∈ l1 ++ p :: l2 → sl k1 q = sl k q - 1) as Hin.
  { intros q Hq. by rewrite Hsl, decide_True. }
  exists l1, l2, (m + 1). split; [done|].
  split. { specialize (Hpos p ltac:(set_solver)). specialize (Hin p ltac:(set_solver)). lia. }
  split; [|split; [|split; [|split]]]; intros q Hq.
  - specialize (H1 q Hq). rewrite Hin in H1 by set_solver. lia.
  - specialize (H2 q Hq). rewrite Hin in H2 by set_solver.
    specialize (Hpos q ltac:(set_solver)). lia.
  - rewrite H3, Hin by set_solver. lia.
  - rewrite H4, Hin by set_solver. lia.
  - rewrite H5 by done. by rewrite Hsl, decide_False.
Qed.

Lemma pick_next_ok rounds : ∀ k Q,
  queues_ok k Q → (∃ p, p ∈ Q READY_Q ∧ Z.max 0 (sl k p) < Z.of_nat rounds) →
  ∃ p k', pick_next rounds k = Some (p, k') ∧ same_but_slices k k' ∧
    chosen k k' (Q READY_Q) p.
Proof.
  induction rounds as [|rounds IH]; intros k Q Hok (p0 & Hp0 & Hsl0); [lia|].
  assert (0 ≤ READY_Q < NUM_QUEUES) as Hb by done.
  pose proof (qok_rep k Q Hok READY_Q Hb) as (Hsq & Hd & Hnd).
  pose proof (queue_length k Q READY_Q Hok Hb) as Hlen.
  destruct (scan_ready_ok _ _ k None Hd Hnd Hlen) as (o & k1 & Hrun & Hs & Ho).
  cbn [pick_next]. erewrite (bind_run (mgets _)) by reflexivity.
  erewrite bind_run by (by apply getq_run). erewrite bind_run by exact Hrun.
  destruct o as [p|].
  - destruct Ho as (l1 & l2 & HQ & Hp & Hpos & Hsl). exists p, k1.
    split; [done|]. split; [done|]. rewrite HQ in *. by apply chosen_first.
  - destruct Ho as [Hpos Hsl].
    destruct (IH k1 Q) as (p & k' & Hrun' & Hs' & Hch).
    { by eapply same_but_slices_queues. }
    { exists p0. split; [done|]. rewrite Hsl, decide_True by done.
      specialize (Hpos p0 Hp0). lia. }
    exists p, k'. split; [done|]. split; [by eapply same_but_slices_trans|].
    by eapply chosen_later.
Qed.

(** ** The running process *)

(** The priorities stay in their range, and a penalty is at most 21 rounds. *)
Definition sched_ok (r : proc) : Prop :=
  MIN_NICE ≤ pri r ≤ MAX_NICE ∧ MIN_NICE - 1 ≤ curpri r ≤ MAX_NICE + 1 ∧
  slices r ≤ 21.

(** Every process but those of [out] is on a queue. *)
Definition queued (k : kst) (Q : Z → list ptr) (out : list ptr) : Prop :=
  ∀ p, is_Some (procs k !! p) → p ∈ out ∨ ∃ que, 0 < que < NUM_QUEUES ∧ p ∈ Q que.

(** Exactly one process runs: the current one. *)
Record running (k : kst) (Q : Z → list ptr) : Prop := {
  run_queues : queues_ok k Q;
  run_cur : ∃ r, procs k !! curproc k = Some r ∧ wait_q r = CURPROC_Q;
  run_only : queued k Q [curproc k];
  run_root : is_Some (procs k !! rootproc k);
  run_sched : ∀ p r, procs k !! p = Some r → sched_ok r;
}.

Lemma running_unique k Q p r :
  running k Q → procs k !! p = Some r → wait_q r = CURPROC_Q ↔ p = curproc k.
Proof.
  intros [Hok (rc & Hrc & Hwc) Honly Hroot Hsched] Hr. split.
  - intros Hw. destruct (Honly p ltac:(eauto)) as [Hp|(que & Hq & Hin)]; [set_solver|].
    destruct (queue_elem k Q que p Hok ltac:(lia) Hin) as (r' & ? & ?).
    unfold CURPROC_Q in *. assert (r' = r) as -> by congruence. lia.
  - intros ->. congruence.
Qed.

Lemma sched_ok_core r : sched_ok (core r) ↔ sched_ok r.
Proof. done. Qed.

Lemma cores_lookup k k' p r' :
  cores k' = cores k → procs k' !! p = Some r' →
  ∃ r, procs k !! p = Some r ∧ core r' = core r.
Proof.
  intros Hc Hr. destruct (core_field (λ _, tt) k' k p r') as (r & ? & _ & ?); try done.
  by exists r.
Qed.

Lemma cores_dom k k' : cores k' = cores k → dom (procs k') = dom (procs k).
Proof.
  intros Hc. rewrite <- (dom_fmap_L core (procs k')), <- (dom_fmap_L core (procs k)).
  by fold (cores k') (cores k); rewrite Hc.
Qed.

Lemma cores_some k k' p :
  cores k' = cores k → is_Some (procs k' !! p) ↔ is_Some (procs k !! p).
Proof. intros Hc. rewrite <- !elem_of_dom. by rewrite (cores_dom k k' Hc). Qed.

Lemma cores_sched k k' :
  cores k' = cores k → (∀ p r, procs k !! p = Some r → sched_ok r) →
  ∀ p r, procs k' !! p = Some r → sched_ok r.
Proof.
  intros Hc Hs p r' Hr'. destruct (cores_lookup k k' p r' Hc Hr') as (r & Hr & Hcr).
  rewrite <- sched_ok_core, Hcr, sched_ok_core. eauto.
Qed.

Lemma moved_ready que stay go Q : moved que stay go Q READY_Q = Q READY_Q ++ go.
Proof. apply fn_lookup_insert. Qed.
Lemma moved_que que stay go Q : que ≠ READY_Q → moved que stay go Q que = stay.
Proof. intros. unfold moved. by rewrite fn_lookup_insert_ne, fn_lookup_insert. Qed.
Lemma moved_other que stay go Q que' :
  que' ≠ READY_Q → que' ≠ que → moved que stay go Q que' = Q que'.
Proof. intros. unfold moved. by rewrite !fn_lookup_insert_ne. Qed.

Lemma queued_moved k k' Q que stay go out :
  cores k' = cores k → que ≠ READY_Q →
  (∀ p, p ∈ Q que → p ∈ stay ∨ p ∈ go) →
  queued k Q out → queued k' (moved que stay go Q) out.
Proof.
  intros Hc Hne Hsg Hq p Hp. rewrite (cores_some k k' p Hc) in Hp.
  destruct (Hq p Hp) as [?|(que' & Hb & Hin)]; [by left|right].
  destruct (decide (que' = READY_Q)) as [->|Hr].
  { exists READY_Q. split; [done|]. rewrite moved_ready. set_solver. }
  destruct (decide (que' = que)) as [->|].
  - destruct (Hsg p Hin) as [Hs|Hg].
    + exists que. split; [done|]. by rewrite moved_que.
    + exists READY_Q. split; [done|]. rewrite moved_ready. set_solver.
  - exists que'. split; [done|]. by rewrite moved_other.
Qed.

Lemma sleepers_wakers k cond l p : p ∈ l → p ∈ sleepers k cond l ∨ p ∈ wakers k cond l.
Proof.
  intros Hp. unfold sleepers, wakers. rewrite !list_elem_of_filter.
  destruct (waits_for k cond p); naive_solver.
Qed.

Lemma without_elem p l q : q ∈ l → q ∈ without p l ∨ q ∈ [p].
Proof.
  intros Hq. unfold without. rewrite list_elem_of_filter.
  destruct (decide (q = p)) as [->|]; [right; left|by left].
Qed.

(** The rest of the kernel state but the scheduler's wait conditions. *)
Definition rest_nosleep (k : kst) : kst := set_sleepcond 0 (set_iwakecond 0 (rest k)).

(** Changes of variables keep the queues. *)
Lemma queues_ok_vars k k' Q :
  procs k' = procs k → sysq k' = sysq k → queues_ok k Q → queues_ok k' Q.
Proof.
  intros Hp Hs Hok. apply (queues_ok_same k); [done|done|].
  intros p. apply same_links_eq. by rewrite Hp.
Qed.

Lemma wake_ok k Q que cond :
  queues_ok k Q → READY_Q < que < NUM_QUEUES →
  ∃ k', wake que cond k = Some (tt, k') ∧
    queues_ok k' (moved que (sleepers k cond (Q que)) (wakers k cond (Q que)) Q) ∧
    cores k' = cores k ∧ rest_nosleep k' = rest_nosleep k ∧
    sleepcond k' = (if sleepcond k =? cond then 0 else sleepcond k).
Proof.
  intros Hok Hq. unfold wake.
  replace (que =? READY_Q) with false by (unfold READY_Q in *; lia).
  erewrite (bind_run (mmod _)) by reflexivity.
  set (k1 := if sleepcond k =? cond then set_sleepcond 0 k else k).
  assert (procs k1 = procs k ∧ sysq k1 = sysq k ∧ rest_nosleep k1 = rest_nosleep k ∧
    sleepcond k1 = if sleepcond k =? cond then 0 else sleepcond k)
    as (Hp1 & Hs1 & Hr1 & Hc1) by (unfold k1; by case_bool).
  assert (cores k1 = cores k) as Hco by (unfold cores; by rewrite Hp1).
  destruct (do_wake_ok k1 Q que cond) as (k' & Hrun & Hok' & Hc' & Hr');
    [by eapply queues_ok_vars|done|].
  exists k'. split; [done|]. rewrite (sleepers_same k k1), (wakers_same k k1) in Hok' by done.
  split; [done|]. split; [congruence|]. split.
  - unfold rest_nosleep in *. by rewrite Hr'.
  - rewrite <- Hc1. change (sleepcond (rest k') = sleepcond (rest k1)). by rewrite Hr'.
Qed.

(** C2: [wake] moves exactly the processes of the queue that wait for the
    condition to the end of the ready queue, in their order, and leaves the
    others on the queue in theirs; no other queue and no priority changes, and
    the links stay well formed. *)
Theorem wake_moves k Q que cond :
  queues_ok k Q → WAIT_Q ≤ que < NUM_QUEUES →
  ∃ k' Q', wake que cond k = Some (tt, k') ∧ queues_ok k' Q' ∧
    Q' que = filter (λ p, negb (waits_for k cond p)) (Q que) ∧
    Q' READY_Q = Q READY_Q ++ filter (λ p, waits_for k cond p) (Q que) ∧
    (∀ que', que' ≠ que → que' ≠ READY_Q → Q' que' = Q que') ∧
    cores k' = cores k.
Proof.
  unfold WAIT_Q. intros Hok Hq.
  destruct (wake_ok k Q que cond Hok) as (k' & Hrun & Hok' & Hc & _);
    [unfold READY_Q; lia|].
  eexists k', _. split; [done|]. split; [done|].
  split; [apply moved_que; unfold READY_Q; lia|]. split; [apply moved_ready|].
  split; [|done]. intros. by apply moved_other.
Qed.

(** [wakeselect] makes a process in [select] ready, and only it. *)
Lemma wakeselect_ready k Q p r :
  queues_ok k Q → procs k !! p = Some r →
  ∃ k' Q' r', wakeselect p k = Some (tt, k') ∧ queues_ok k' Q' ∧
    procs k' !! p = Some r' ∧
    wait_cond r' = (if (wait_cond r =? wakeselect_addr) || (wait_cond r =? select_coll_addr)
                    then 0 else wait_cond r) ∧
    Q' SELECT_Q = without p (Q SELECT_Q) ∧
    Q' READY_Q = Q READY_Q ++ (if wait_q r =? SELECT_Q then [p] else []) ∧
    ∀ q, is_Some (procs k' !! q) ↔ is_Some (procs k !! q).
Proof.
  intros Hok Hr. unfold wakeselect. erewrite bind_run by by apply getp_run.
  set (b := _ || _). set (f := λ r, if b then set_wait_cond 0 r else r).
  assert (mwhen b (modp p (set_wait_cond 0)) k =
    Some (tt, set_procs (<[p := f r]> (procs k)) k)) as Hrun.
  { unfold f, mwhen. destruct b; [by apply modp_run|].
    rewrite insert_id by done. by rewrite set_procs_id. }
  erewrite bind_run by exact Hrun. set (k1 := set_procs _ k).
  assert (queues_ok k1 Q) as Hok1
    by (apply queues_ok_modp; [done|done|unfold f; by destruct b..]).
  assert (procs k1 !! p = Some (f r)) as Hr1 by apply lookup_insert_eq.
  assert (wait_cond (f r) = if b then 0 else wait_cond r) as Hf by (unfold f; by destruct b).
  assert (∀ q, is_Some (procs k1 !! q) ↔ is_Some (procs k !! q)) as Hdom.
  { intros q. unfold k1. cbn. rewrite lookup_insert_is_Some'.
    split; [intros [<- |]; eauto|auto]. }
  destruct (Z.eqb_spec (wait_q r) SELECT_Q) as [Hw|Hw]; cbn [mwhen].
  - assert (p ∈ Q SELECT_Q) as Hin
      by (by rewrite (queue_elem_iff k Q SELECT_Q p r)).
    destruct (move_ready_ok k1 Q SELECT_Q p Hok1) as (k' & Hrun' & Hok' & Hc & _);
      [done|done|].
    destruct (core_field wait_cond k1 k' p (f r)) as (r' & Hr' & Hwc & _); try done.
    eexists k', _, r'. split; [done|]. split; [done|]. split; [done|].
    split; [congruence|]. split; [by apply moved_que|]. split; [apply moved_ready|].
    intros q. rewrite <- Hdom. by apply cores_some.
  - exists k1, Q, (f r). split; [done|]. do 3 (split; [done|]).
    split; [|split; [by rewrite app_nil_r|done]].
    symmetry. apply filter_all, Forall_forall. intros q Hq ->. apply Hw.
    by rewrite (queue_elem_iff k Q SELECT_Q p r) in Hq.
Qed.

Lemma ensure_ready_ok k Q :
  queues_ok k Q → queued k Q [] → is_Some (procs k !! rootproc k) →
  ∃ k' Q', ensure_ready k = Some (tt, k') ∧ queues_ok k' Q' ∧ queued k' Q' [] ∧
    Q' READY_Q ≠ [] ∧ cores k' = cores k ∧ rest_nosleep k' = rest_nosleep k.
Proof.
  intros Hok Hqd Hroot. unfold ensure_ready.
  destruct (qok_rep k Q Hok READY_Q ltac:(done)) as (Hsq & _ & _).
  erewrite bind_run by (by apply getq_run). cbn [pq_head].
  case_bool_decide as Hempty; cbn [mwhen];
    [|exists k, Q; repeat (split; [done|]); split; [by destruct (Q READY_Q)|done]].
  destruct (Q READY_Q) eqn:HR; [|done].
  destruct (wake_ok k Q SELECT_Q nap Hok ltac:(done)) as (k1 & H1 & Hok1 & Hc1 & Hn1 & _).
  assert (queued k1 (moved SELECT_Q (sleepers k nap (Q SELECT_Q))
    (wakers k nap (Q SELECT_Q)) Q) []) as Hqd1.
  { eapply queued_moved; [done|done| |done]. intros. by apply sleepers_wakers. }
  set (Q1 := moved _ _ _ _) in *.
  erewrite bind_run by exact H1.
  destruct (qok_rep k1 Q1 Hok1 READY_Q ltac:(done)) as (Hsq1 & _ & _).
  erewrite bind_run by (by apply getq_run). cbn [pq_head].
  case_bool_decide as Hempty1; cbn [mwhen];
    [|exists k1, Q1; repeat (split; [done|]); split; [by destruct (Q1 READY_Q)|done]].
  assert (rootproc k1 = rootproc k) as Hrt
    by (change (rootproc (rest_nosleep k1) = rootproc (rest_nosleep k)); by rewrite Hn1).
  erewrite (bind_run (mgets _)) by reflexivity. rewrite Hrt.
  rewrite <- (cores_some k k1 _ Hc1) in Hroot. destruct Hroot as [r Hr].
  erewrite bind_run by by apply getp_run.
  destruct (Hqd1 (rootproc k) ltac:(eauto)) as [?|(que & Hb & Hin)]; [set_solver|].
  destruct (queue_elem k1 Q1 que _ Hok1 ltac:(lia) Hin) as (r' & Hr' & Hw).
  assert (r' = r) as -> by congruence. rewrite Hw.
  assert (que ≠ READY_Q) as Hne.
  { intros ->. destruct (Q1 READY_Q); [set_solver|done]. }
  destruct (move_ready_ok k1 Q1 que (rootproc k) Hok1) as (k2 & H2 & Hok2 & Hc2 & Hn2);
    [unfold READY_Q in *; lia|done|].
  eexists k2, _. split; [done|]. split; [done|]. split; [|split; [|split]].
  - eapply queued_moved; [done|done| |done]. intros. by apply without_elem.
  - rewrite moved_ready. by destruct (Q1 READY_Q).
  - congruence.
  - rewrite <- Hn1. unfold rest_nosleep. by rewrite Hn2.
Qed.

(** ** Computations of the running process *)

(** [c] returns to the process [p] that runs it, with the queues well formed. *)
Definition keeps {A} (p : ptr) (c : M kst A) : Prop :=
  ∀ k Q, running k Q → curproc k = p →
  ∃ a k' Q', c k = Some (a, k') ∧ running k' Q' ∧ curproc k' = p.

Lemma keeps_ret {A} p (a : A) : keeps p (mret a).
Proof. intros k Q Hr Hp. by exists a, k, Q. Qed.

Lemma keeps_bind {A B} p (c : M kst A) (f : A → M kst B) :
  keeps p c → (∀ a, keeps p (f a)) → keeps p (c ≫= f).
Proof.
  intros Hc Hf k Q Hr Hp. destruct (Hc k Q Hr Hp) as (a & k1 & Q1 & Hrun & Hr1 & Hp1).
  erewrite bind_run by exact Hrun. by apply (Hf a k1 Q1).
Qed.

Lemma keeps_mwhen p b c : keeps p c → keeps p (mwhen b c).
Proof. intros. destruct b; [done|apply keeps_ret]. Qed.

Lemma keeps_mgets {A B} p (g : kst → A) (f : A → M kst B) :
  (∀ a, keeps p (f a)) → keeps p (mgets g ≫= f).
Proof. intros Hf k Q Hr Hp. erewrite bind_run by reflexivity. by apply (Hf _ k Q). Qed.

Lemma keeps_curproc {B} p (f : ptr → M kst B) :
  keeps p (f p) → keeps p (mgets curproc ≫= f).
Proof.
  intros Hf k Q Hr Hp. erewrite bind_run by reflexivity. rewrite Hp. by apply (Hf k Q).
Qed.

Lemma keeps_getp {B} p (f : proc → M kst B) :
  (∀ r, sched_ok r → keeps p (f r)) → keeps p (getp p ≫= f).
Proof.
  intros Hf k Q Hr Hp. destruct (run_cur k Q Hr) as (r & Hrp & _). rewrite Hp in Hrp.
  erewrite bind_run by by apply getp_run. apply (Hf r) with Q; [|done|done].
  by eapply run_sched.
Qed.

(** Only variables change. *)
Definition only_vars (f : kst → kst) : Prop :=
  ∀ k, procs (f k) = procs k ∧ sysq (f k) = sysq k ∧ curproc (f k) = curproc k ∧
       rootproc (f k) = rootproc k.

Lemma running_vars k k' Q :
  procs k' = procs k → sysq k' = sysq k → curproc k' = curproc k →
  rootproc k' = rootproc k → running k Q → running k' Q.
Proof.
  intros Hp Hs Hc Hr [Hq Hcur Honly Hroot Hsched].
  constructor; unfold queued; rewrite ?Hp, ?Hc, ?Hr; try done.
  by eapply queues_ok_vars.
Qed.

Lemma keeps_mmod p f : only_vars f → keeps p (mmod f).
Proof.
  intros Hf k Q Hr Hp. destruct (Hf k) as (H1 & H2 & H3 & H4).
  exists tt, (f k), Q. split; [done|]. split; [|congruence]. by eapply running_vars.
Qed.

Lemma running_modp k Q p r f :
  running k Q → procs k !! p = Some r →
  wait_q (f r) = wait_q r → q_prev (f r) = q_prev r → q_next (f r) = q_next r →
  (sched_ok r → sched_ok (f r)) →
  running (set_procs (<[p := f r]> (procs k)) k) Q.
Proof.
  intros Hrun Hr Hw Hpv Hn Hs. pose proof Hrun as [Hq (rc & Hrc & Hwc) Honly Hroot Hsched].
  assert (∀ q, is_Some (<[p := f r]> (procs k) !! q) ↔ is_Some (procs k !! q)) as Hdom.
  { intros q. rewrite <- !elem_of_dom, dom_insert_L. apply elem_of_dom_2 in Hr. set_solver. }
  constructor; cbn.
  - by apply queues_ok_modp.
  - destruct (decide (curproc k = p)) as [Heq|].
    + rewrite Heq in *. exists (f r). rewrite lookup_insert_eq. split; [done|]. congruence.
    + exists rc. by rewrite lookup_insert_ne.
  - intros q. cbn. rewrite Hdom. apply Honly.
  - by apply Hdom.
  - intros q r'. destruct (decide (q = p)) as [->|].
    + rewrite lookup_insert_eq. intros [= <-]. eauto.
    + rewrite lookup_insert_ne by done. apply Hsched.
Qed.

Lemma keeps_modp p f :
  (∀ r, wait_q (f r) = wait_q r ∧ q_prev (f r) = q_prev r ∧ q_next (f r) = q_next r) →
  (∀ r, sched_ok r → sched_ok (f r)) → keeps p (modp p f).
Proof.
  intros Hl Hs k Q Hr Hp. destruct (run_cur k Q Hr) as (r & Hrp & _). rewrite Hp in Hrp.
  exists tt, (set_procs (<[p := f r]> (procs k)) k), Q.
  split; [by apply modp_run|]. split; [|done].
  apply running_modp; [done|done|apply Hl..|auto].
Qed.

(** What [sleep] relies on: the functions it calls return to the process. *)
Class SleepCallsOk `{SleepCalls} : Prop := {
  checkbttys_keeps p : keeps p checkbttys;
  checkkeys_keeps p : keeps p checkkeys;
  checkrandom_keeps p : keeps p checkrandom;
  checkalarms_keeps p : keeps p checkalarms;
  check_sigs_keeps p : keeps p check_sigs;
  handle_sigbus_keeps p : keeps p handle_sigbus;
  raise_sigxcpu_keeps p : keeps p raise_sigxcpu;
  checkprocwakeup_keeps p : keeps p (checkprocwakeup p);
}.

Create HintDb keeps.
#[export] Hint Resolve checkbttys_keeps checkkeys_keeps checkrandom_keeps
  checkalarms_keeps check_sigs_keeps handle_sigbus_keeps raise_sigxcpu_keeps
  checkprocwakeup_keeps : keeps.

Lemma slices_bounds n : MIN_NICE - 1 ≤ n → SLICES n ≤ 21.
Proof. unfold SLICES, MIN_NICE. case_bool; bool_to_prop; lia. Qed.

(** Prove [keeps] by the structure of the computation. *)
Ltac keeps_step := first
  [ solve [eauto with keeps]
  | apply keeps_ret
  | apply keeps_mwhen
  | apply keeps_curproc
  | apply keeps_mgets; intros ?
  | apply keeps_getp; intros ? ?
  | apply keeps_bind; [|intros ?]
  | apply keeps_mmod; intros ?; done
  | apply keeps_modp; [done|] ].

Section sleep_ok.
Context `{SleepCallsOk}.

Lemma do_wakeup_things_keeps p newslice cond :
  keeps p (do_wakeup_things newslice cond).
Proof.
  unfold do_wakeup_things. repeat keeps_step.
  - case_bool; repeat keeps_step. intros ?.
    unfold sched_ok, MIN_NICE, MAX_NICE in *. cbn. lia.
  - unfold sched_ok in *. cbn. intros r1 (? & ? & ?). repeat split; try lia.
    apply slices_bounds. lia.
Qed.

Lemma sleep_checks_keeps p que : keeps p (sleep_checks que).
Proof. unfold sleep_checks. repeat keeps_step. Qed.

(** The current process left the processor: every process is queued. *)
Lemma add_current_ok k Q que :
  running k Q → 0 < que < NUM_QUEUES →
  ∃ k' Q', add_q que (curproc k) k = Some (tt, k') ∧ queues_ok k' Q' ∧
    queued k' Q' [] ∧ is_Some (procs k' !! rootproc k) ∧ rest k' = rest k ∧
    ∀ p r, procs k' !! p = Some r → sched_ok r.
Proof.
  intros [Hok (r & Hr & Hw) Honly Hroot Hsched] Hq.
  destruct (add_q_ok k Q que _ r Hok Hq Hr Hw) as (k' & Hrun & Hok' & Hc & Hrest).
  eexists k', _. split; [done|]. split; [done|].
  assert (∀ p, is_Some (procs k' !! p) ↔ is_Some (procs k !! p)) as Hdom.
  { intros p. assert (is_Some (cores k' !! p) ↔ is_Some (cores k !! p)) as Hd.
    { rewrite Hc. destruct (decide (p = curproc k)) as [->|].
      - rewrite lookup_insert_eq. unfold cores. by rewrite lookup_fmap, Hr.
      - by rewrite lookup_insert_ne. }
    unfold cores in Hd. rewrite !lookup_fmap, !fmap_is_Some in Hd. done. }
  split; [|split; [by apply Hdom|split; [done|]]].
  - intros p Hp%Hdom. right. destruct (Honly p Hp) as [->%list_elem_of_singleton|(q & Hb & Hin)].
    + exists que. split; [done|]. rewrite fn_lookup_insert. set_solver.
    + exists q. split; [done|]. destruct (decide (q = que)) as [->|].
      * rewrite fn_lookup_insert. set_solver.
      * by rewrite fn_lookup_insert_ne.
  - intros p r' Hr'. assert (cores k' !! p = Some (core r')) as Hl
      by (unfold cores; by rewrite lookup_fmap, Hr').
    rewrite Hc in Hl. rewrite <- sched_ok_core.
    destruct (decide (p = curproc k)) as [->|Hne].
    + rewrite lookup_insert_eq in Hl. apply (inj Some) in Hl as <-.
      rewrite sched_ok_core. specialize (Hsched _ _ Hr). unfold rewarded.
      case_bool; [|done]. unfold sched_ok, reward, MIN_NICE, MAX_NICE in *. cbn.
      pose proof (slices_bounds (pri r)). unfold MIN_NICE in *. lia.
    + rewrite lookup_insert_ne in Hl by done. unfold cores in Hl.
      rewrite lookup_fmap in Hl. destruct (procs k !! p) as [r0|] eqn:Hr0; [|done].
      change (Some (core r0) = Some (core r')) in Hl.
      apply (inj Some) in Hl as <-. rewrite sched_ok_core. eauto.
Qed.

(** Dispatch the chosen process. *)
Lemma dispatch_ok k Q p :
  queues_ok k Q → queued k Q [] → is_Some (procs k !! rootproc k) →
  (∀ p r, procs k !! p = Some r → sched_ok r) → p ∈ Q READY_Q →
  ∃ k' Q', rm_q READY_Q p k = Some (tt, k') ∧ rest k' = rest k ∧
    running (set_proc_clock (u16 (time_slice k')) (set_curproc p k')) Q'.
Proof.
  intros Hok Hqd Hroot Hsched Hin.
  destruct (rm_q_ok k Q READY_Q p Hok ltac:(done) Hin)
    as (r & k' & Hr & Hrun & Hok' & Hr' & Hc & Hrest).
  eexists k', _. split; [done|]. split; [done|].
  assert (rootproc k' = rootproc k) as Hrt
    by (change (rootproc (rest k') = rootproc (rest k)); by rewrite Hrest).
  constructor.
  - apply (queues_ok_vars k'); [done|done|exact Hok'].
  - by exists (core r).
  - cbn. intros q Hq. rewrite (cores_some k k' q Hc) in Hq.
    destruct (Hqd q Hq) as [?|(que & Hb & Hq')]; [set_solver|].
    destruct (decide (q = p)) as [->|]; [left; set_solver|right].
    exists que. split; [done|]. destruct (decide (que = READY_Q)) as [->|].
    + rewrite fn_lookup_insert. unfold without. by apply list_elem_of_filter.
    + by rewrite fn_lookup_insert_ne.
  - cbn. rewrite Hrt. by apply (cores_some k k' _ Hc).
  - cbn. by eapply cores_sched.
Qed.

Lemma same_but_slices_sched k k' l p :
  same_but_slices k k' → chosen k k' l p →
  (∀ p r, procs k !! p = Some r → sched_ok r) →
  ∀ p r, procs k' !! p = Some r → sched_ok r.
Proof.
  intros Hs (l1 & l2 & m & -> & Hm & H1 & H2 & H3 & H4 & H5) Hok q r' Hr'.
  destruct (same_but_slices_proc k' k q r' (same_but_slices_sym _ _ Hs) Hr') as [n Hr].
  pose proof (Hok q _ Hr) as (Hp & Hc & Hn). cbn in Hp, Hc, Hn.
  split; [done|]. split; [done|].
  assert (sl k' q = slices r') as <- by (unfold sl; by rewrite Hr').
  assert (sl k q = n) as Hsl by (unfold sl; by rewrite Hr).
  assert (sl k' q ≤ sl k q); [|lia].
  destruct (decide (q ∈ l1)) as [Hq1|Hq1]; [rewrite H3 by done; lia|].
  destruct (decide (q ∈ p :: l2)) as [Hq2|Hq2]; [rewrite H4 by done; lia|].
  rewrite H5 by set_solver. done.
Qed.

Lemma rest_nosleep_eq {A} (f : kst → A) k k' :
  (∀ k, f (rest_nosleep k) = f k) → rest_nosleep k' = rest_nosleep k → f k' = f k.
Proof. intros Hf Hr. by rewrite <- (Hf k'), Hr. Qed.

Lemma switch_away_ok rounds que k Q :
  running k Q → 0 < que < NUM_QUEUES → 22 ≤ Z.of_nat rounds →
  ∃ p k' Q', switch_away rounds que (curproc k) k = Some ((Switch p, false), k') ∧
    running k' Q' ∧ curproc k' = p ∧ proc_clock k' = u16 (time_slice k').
Proof.
  intros Hrun Hq Hrounds. unfold switch_away.
  destruct (add_current_ok k Q que Hrun Hq)
    as (k1 & Q1 & H1 & Hok1 & Hqd1 & Hroot1 & Hrest1 & Hs1).
  erewrite bind_run by exact H1.
  assert (rootproc k1 = rootproc k) as Hrt1
    by (change (rootproc (rest k1) = rootproc (rest k)); by rewrite Hrest1).
  rewrite <- Hrt1 in Hroot1.
  destruct (ensure_ready_ok k1 Q1 Hok1 Hqd1 Hroot1)
    as (k2 & Q2 & H2 & Hok2 & Hqd2 & Hne2 & Hc2 & Hn2).
  erewrite bind_run by exact H2.
  pose proof (cores_sched k1 k2 Hc2 Hs1) as Hs2.
  assert (is_Some (procs k2 !! rootproc k2)) as Hroot2.
  { rewrite (rest_nosleep_eq rootproc k1 k2) by done. by apply (cores_some k1 k2 _ Hc2). }
  destruct (Q2 READY_Q) as [|p0 l] eqn:HR; [done|].
  destruct (pick_next_ok rounds k2 Q2 Hok2) as (p & k3 & H3 & Hsb & Hch).
  { exists p0. rewrite HR. split; [left|].
    destruct (queue_elem k2 Q2 READY_Q p0 Hok2 ltac:(done)) as (r & Hr & _);
      [rewrite HR; left|].
    unfold sl. rewrite Hr. destruct (Hs2 _ _ Hr) as (_ & _ & ?). lia. }
  erewrite bind_run by exact H3.
  assert (p ∈ Q2 READY_Q) as Hin
    by (destruct Hch as (l1 & l2 & m & -> & _); set_solver).
  destruct (dispatch_ok k3 Q2 p) as (k4 & Q4 & H4 & Hrest4 & Hrun4).
  { by eapply same_but_slices_queues. }
  { intros q [r Hr]. destruct (same_but_slices_proc k3 k2 q r) as [n ?];
      [by apply same_but_slices_sym|done|]. apply Hqd2. eauto. }
  { pose proof Hsb as (_ & _ & Hr3). destruct Hroot2 as [r Hr].
    replace (rootproc k3) with (rootproc k2)
      by (change (rootproc (rest k2) = rootproc (rest k3)); by rewrite Hr3).
    destruct (same_but_slices_proc k2 k3 _ r Hsb Hr) as [n ->]. done. }
  { by eapply same_but_slices_sched. }
  { done. }
  erewrite bind_run by exact H4.
  by exists p, (set_proc_clock (u16 (time_slice k4)) (set_curproc p k4)), Q4.
Qed.

(** C1: [sleep] always finds a process to run: with every penalty at most 21, 22
    walks over the ready queue are enough.  It never fails an assertion, and
    afterwards exactly one process runs - the sleeper itself, or the process
    that was switched to, with a fresh time slice - while every other process is
    on exactly one well-formed queue. *)
Theorem sleep_schedules rounds que_flags cond k Q :
  running k Q → 0 < Z.land que_flags 255 < NUM_QUEUES → 22 ≤ Z.of_nat rounds →
  ∃ o b k' Q', sleep rounds que_flags cond k = Some ((o, b), k') ∧ running k' Q' ∧
    match o with
    | Awake _ => curproc k' = curproc k
    | Switch p => curproc k' = p ∧ proc_clock k' = u16 (time_slice k')
    end.
Proof.
  intros Hrun Hq Hrounds. unfold sleep.
  erewrite (bind_run (mgets curproc)) by reflexivity.
  destruct (run_cur k Q Hrun) as (r0 & Hr0 & _).
  erewrite bind_run by by apply getp_run. erewrite (bind_run (mmod _)) by reflexivity.
  destruct (sleep_checks_keeps (curproc k) (Z.land que_flags 255)
    (set_sleepcond cond k) Q) as ([] & k2 & Q2 & H2 & Hrun2 & Hc2);
    [by apply (running_vars k)|done|].
  erewrite bind_run by exact H2. erewrite (bind_run (mgets id)) by reflexivity.
  destruct (run_cur k2 Q2 Hrun2) as (r & Hr & _). rewrite Hc2 in Hr.
  erewrite bind_run by by apply getp_run.
  destruct (qok_rep k2 Q2 (run_queues _ _ Hrun2) READY_Q ltac:(done)) as (Hsq & _ & _).
  erewrite bind_run by (by apply getq_run).
  destruct (wakes_at_once _ _ _ _ _) as [now newslice]. destruct now.
  - erewrite (bind_run (mmod _)) by reflexivity.
    destruct (do_wakeup_things_keeps (curproc k) newslice cond (set_iwakecond 0 k2) Q2)
      as ([] & k3 & Q3 & H3 & Hrun3 & Hc3); [by apply (running_vars k2)|done|].
    erewrite bind_run by exact H3.
    destruct (run_cur k3 Q3 Hrun3) as (r1 & Hr1 & _). rewrite Hc3 in Hr1.
    erewrite bind_run by by apply getp_run.
    eexists (Awake newslice), _, k3, Q3. done.
  - erewrite (bind_run (mmod _)) by reflexivity.
    assert (keeps (curproc k) (mwhen newslice (modp (curproc k) (set_wait_cond cond))))
      as Hk by repeat keeps_step.
    destruct (Hk (set_iwakecond 0 k2) Q2) as ([] & k3 & Q3 & H3 & Hrun3 & Hc3);
      [by apply (running_vars k2)|done|].
    erewrite bind_run by exact H3. rewrite <- Hc3.
    destruct (switch_away_ok rounds (if newslice then Z.land que_flags 255 else READY_Q)
      k3 Q3 Hrun3) as (p & k4 & Q4 & H4 & Hrun4 & Hp & Hclk);
      [destruct newslice; done|done|].
    by exists (Switch p), false, k4, Q4.
Qed.
End sleep_ok.

(** C3: The scheduler's walk over the ready queue is fair: it picks the first
    process with the least penalty; every process that was passed over had a
    larger penalty, which shrinks by at least one, and no penalty grows. *)
Theorem pick_next_fair rounds k Q :
  queues_ok k Q → (∃ p, p ∈ Q READY_Q ∧ Z.max 0 (sl k p) < Z.of_nat rounds) →
  ∃ p l1 l2 m k', pick_next rounds k = Some (p, k') ∧ queues_ok k' Q ∧
    Q READY_Q = l1 ++ p :: l2 ∧ m = Z.max 0 (sl k p) ∧
    (∀ q, q ∈ l1 → m < sl k q ∧ sl k' q = sl k q - (m + 1)) ∧
    (∀ q, q ∈ l2 → m ≤ Z.max 0 (sl k q) ∧ sl k' q = sl k q - m) ∧
    (∀ q, q ∉ Q READY_Q → sl k' q = sl k q).
Proof.
  intros Hok Hr. destruct (pick_next_ok rounds k Q Hok Hr) as (p & k' & Hrun & Hs & Hch).
  destruct Hch as (l1 & l2 & m & HQ & Hm & H1 & H2 & H3 & H4 & H5).
  exists p, l1, l2, m, k'. split; [done|].
  split; [by eapply same_but_slices_queues|].
  repeat (split; [done|]). split; [auto|]. split; [|done].
  intros q Hq. split; [auto|]. apply H4. by right.
Qed.

(** ** Deciding the invariant

    For concrete kernels: the invariant of the queues as a boolean function. *)

#[export] Instance proc_queue_eq_dec : EqDecision proc_queue.
Proof. solve_decision. Defined.

Fixpoint dllb (ps : gmap ptr proc) (que : Z) (pv : option ptr) (l : list ptr)
    (nx : option ptr) : bool :=
  match l with
  | [] => true
  | p :: l' =>
      match ps !! p with
      | Some r => (wait_q r =? que) && bool_decide (q_prev r = pv)
                  && bool_decide (q_next r = first_of l' nx)
      | None => false
      end && dllb ps que (Some p) l' nx
  end.

Definition queues_okb (k : kst) (Q : Z → list ptr) : bool :=
  forallb (λ que, bool_decide (sysq k !! que =
      Some (mk_proc_queue (first_of (Q que) None) (last_of None (Q que))))
    && dllb (procs k) que None (Q que) None && bool_decide (NoDup (Q que))) (Zrange 0 8)
  && bool_decide (Q CURPROC_Q = [])
  && forallb (λ pr, if wait_q pr.2 =? CURPROC_Q
       then bool_decide (q_next pr.2 = None) && bool_decide (q_prev pr.2 = None)
       else (0 <? wait_q pr.2) && (wait_q pr.2 <? NUM_QUEUES)
            && bool_decide (pr.1 ∈ Q (wait_q pr.2))) (map_to_list (procs k)).

Lemma dllb_sound ps que pv l nx : dllb ps que pv l nx = true → dll ps que pv l nx.
Proof.
  revert pv. induction l as [|p l IH]; intros pv; cbn; [done|].
  destruct (ps !! p) as [r|]; [|done]. intros Hb. bool_to_prop. destruct_cases.
  split; [exists r; auto|auto].
Qed.

Lemma queues_okb_sound k Q : queues_okb k Q = true → queues_ok k Q.
Proof.
  unfold queues_okb. intros [[Hr Hc]%andb_prop Hp]%andb_prop.
  rewrite forallb_forall in Hp.
  assert (∀ p r, procs k !! p = Some r → _) as Hpr
    by (intros p r Hl; exact (Hp (p, r) (proj1 (list_elem_of_In _ _)
          (proj2 (elem_of_map_to_list _ _ _) Hl)))).
  cbn [fst snd] in Hpr. constructor.
  - intros que Hq. pose proof (forallb_range _ 0 8 que Hr ltac:(unfold NUM_QUEUES in Hq; lia)) as E.
    cbn beta in E. apply andb_prop in E as [[E1 E2]%andb_prop E3].
    split; [by apply bool_decide_eq_true in E1|]. split; [by apply dllb_sound|].
    by apply bool_decide_eq_true in E3.
  - by apply bool_decide_eq_true in Hc.
  - intros p r Hl Hw. specialize (Hpr p r Hl). rewrite Hw, Z.eqb_refl in Hpr.
    by apply andb_prop in Hpr as [E1%bool_decide_eq_true E2%bool_decide_eq_true].
  - intros p r Hl Hw. specialize (Hpr p r Hl). apply Z.eqb_neq in Hw. rewrite Hw in Hpr.
    apply andb_prop in Hpr as [[E1 E2]%andb_prop E3%bool_decide_eq_true].
    bool_to_prop. split; [lia|done].
Qed.

(** ** A concrete scheduler state *)

Section example.
Definition ex_queues (que : Z) : list ptr :=
  if que =? READY_Q then [3%positive]
  else if que =? WAIT_Q then [1; 4; 5]%positive else [].

(** The processes of the example, one by one. *)
Lemma ex_procs_inv p r :
  procs ex_kst !! p = Some r →
  (p, r) ∈ [(1%positive, ex_proc 0 WAIT_Q 5 0 None (Some 4%positive));
            (2%positive, ex_proc 2 CURPROC_Q 0 0 None None);
            (3%positive, ex_proc 3 READY_Q 0 2 None None);
            (4%positive, ex_proc 4 WAIT_Q 77 0 (Some 1%positive) (Some 5%positive));
            (5%positive, ex_proc 5 WAIT_Q 77 0 (Some 4%positive) None)].
Proof.
  cbn. unfold ex_procs. rewrite !lookup_insert_Some, lookup_singleton_Some.
  naive_solver set_solver.
Qed.

Ltac ex_cases H :=
  apply ex_procs_inv in H;
  repeat (apply elem_of_cons in H as [[= -> ->]|H]);
  [..|by apply not_elem_of_nil in H].

Lemma ex_queues_ok : queues_ok ex_kst ex_queues.
Proof. apply queues_okb_sound. vm_compute. reflexivity. Qed.

Lemma ex_running : running ex_kst ex_queues.
Proof.
  constructor.
  - apply ex_queues_ok.
  - eexists. split; [vm_compute; reflexivity|done].
  - intros p [r Hr]. ex_cases Hr; cbn; try (left; set_solver); right; [exists WAIT_Q|exists READY_Q|exists WAIT_Q|exists WAIT_Q];
      (split; [done|]); cbn; set_solver.
  - eexists. vm_compute. reflexivity.
  - intros p r Hr. ex_cases Hr; unfold sched_ok, MIN_NICE, MAX_NICE; cbn; lia.
Qed.

Lemma wake_moves_witness :
  queues_ok ex_kst ex_queues ∧
  ∃ k' Q', wake WAIT_Q 77 ex_kst = Some (tt, k') ∧ queues_ok k' Q' ∧
    Q' WAIT_Q = filter (λ p, negb (waits_for ex_kst 77 p)) (ex_queues WAIT_Q) ∧
    Q' READY_Q = ex_queues READY_Q ++
      filter (λ p, waits_for ex_kst 77 p) (ex_queues WAIT_Q) ∧
    (∀ que', que' ≠ WAIT_Q → que' ≠ READY_Q → Q' que' = ex_queues que') ∧
    cores k' = cores ex_kst.
Proof.
  split; [exact ex_queues_ok|].
  apply (wake_moves ex_kst ex_queues WAIT_Q 77); [exact ex_queues_ok|].
  unfold WAIT_Q, NUM_QUEUES. lia.
Defined.

Lemma pick_next_fair_witness :
  queues_ok ex_kst ex_queues ∧
  ∃ p l1 l2 m k', pick_next 22 ex_kst = Some (p, k') ∧ queues_ok k' ex_queues ∧
    ex_queues READY_Q = l1 ++ p :: l2 ∧ m = Z.max 0 (sl ex_kst p) ∧
    (∀ q, q ∈ l1 → m < sl ex_kst q ∧ sl k' q = sl ex_kst q - (m + 1)) ∧
    (∀ q, q ∈ l2 → m ≤ Z.max 0 (sl ex_kst q) ∧ sl k' q = sl ex_kst q - m) ∧
    (∀ q, q ∉ ex_queues READY_Q → sl k' q = sl ex_kst q).
Proof.
  split; [exact ex_queues_ok|].
  apply (pick_next_fair 22 ex_kst ex_queues); [exact ex_queues_ok|].
  exists 3%positive. split; [cbn; set_solver|]. vm_compute. reflexivity.
Defined.

(** The rest of the kernel does nothing. *)
#[local] Instance ex_calls : SleepCalls := {|
  int_level_low := true; stack_low := λ _, false;
  checkbttys := mret tt; checkkeys := mret tt; checkrandom := mret tt;
  checkalarms := mret tt; check_sigs := mret tt; handle_sigbus := mret tt;
  raise_sigxcpu := mret tt; checkprocwakeup := λ _, mret tt
|}.

#[local] Instance ex_calls_ok : SleepCallsOk.
Proof. constructor; intros; apply keeps_ret. Qed.

Lemma sleep_schedules_witness :
  running ex_kst ex_queues ∧
  ∃ o b k' Q', sleep 22 IO_Q 99 ex_kst = Some ((o, b), k') ∧ running k' Q' ∧
    match o with
    | Awake _ => curproc k' = curproc ex_kst
    | Switch p => curproc k' = p ∧ proc_clock k' = u16 (time_slice k')
    end.
Proof.
  split; [exact ex_running|].
  apply (sleep_schedules 22 IO_Q 99 ex_kst ex_queues);
    [exact ex_running|vm_compute; done|lia].
Defined.

(** The process switched to is pid 3, after two walks for its penalty. *)
Example ex_sleep :
  (fst <$> sleep 22 IO_Q 99 ex_kst) = Some (Switch 3, false).
Proof. vm_compute. reflexivity. Qed.
End example.
