(* ===== verification/Cred.v ===== *)
(** * Credentials (sys/k_prot.c)

    The owner of a process is a [pcred] that points to a [ucred], which may be
    shared between processes; it is copied before it is written ([copy_cred]).
    The kernel is compiled with 16-bit [int], so that [ruid != -1] for an
    [unsigned short] compares with 65535. *)

From S2P Require Import Prelude CInt Errno Timeout Kernel.

(** ** Access *)

Definition getpc (a : ptr) : M kst pcred := mderef (λ k, pcreds k !! a).
Definition getuc (u : ptr) : M kst ucred := mderef (λ k, ucreds k !! u).
Definition modpc (a : ptr) (f : pcred → pcred) : M kst unit := λ k,
  match pcreds k !! a with
  | Some c => Some (tt, set_pcreds (<[a := f c]> (pcreds k)) k)
  | None => None
  end.
Definition moduc (u : ptr) (f : ucred → ucred) : M kst unit := λ k,
  match ucreds k !! u with
  | Some c => Some (tt, set_ucreds (<[u := f c]> (ucreds k)) k)
  | None => None
  end.

(** [suser]: a super user has effective user id 0. *)
Definition suser (c : ucred) : bool := euid c =? 0.

(** [p->p_cred] *)
Definition cred_of (p : ptr) : M kst ptr := r ← getp p; mret (p_cred r).
Definition current_cred : M kst ptr := c ← mgets curproc; cred_of c.

(** ** Copy on write *)

(** [mem] is the answer of [kmalloc]. *)
Definition copy_cred (mem : option ptr) (u : ptr) : M kst (option ptr) :=
  c ← getuc u;
  massert (u_links c >? 0) ;;
  if u_links c =? 1 then mret (Some u)
  else
    match mem with
    | Some n =>
        mmod (λ k, set_ucreds (<[n := c]> (ucreds k)) k) ;;
        moduc u (λ c, set_u_links (s16 (u_links c - 1)) c) ;;
        moduc n (set_u_links 1) ;;
        mret (Some n)
    | None => mret None
    end.

(** [cred->ucr = copy_cred (cred->ucr)]; every caller writes through the new
    pointer next, which is a panic when it is null. *)
Definition unshare (mem : option ptr) (a : ptr) : M kst ptr :=
  cred ← getpc a;
  n ← copy_cred mem (ucr cred);
  match n with
  | Some n => modpc a (set_ucr n) ;; mret n
  | None => mpanic
  end.

Definition free_cred (u : ptr) : M kst unit :=
  c ← getuc u;
  massert (u_links c >? 0) ;;
  moduc u (λ c, set_u_links (s16 (u_links c - 1)) c) ;;
  c ← getuc u;
  mwhen (u_links c =? 0) (mmod (λ k, set_ucreds (delete u (ucreds k)) k)).

(** ** Queries *)

Definition sys_pgetuid : M kst Z := a ← current_cred; c ← getpc a; mret (ruid c).
Definition sys_pgetgid : M kst Z := a ← current_cred; c ← getpc a; mret (rgid c).
Definition sys_pgeteuid : M kst Z :=
  a ← current_cred; c ← getpc a; u ← getuc (ucr c); mret (euid u).
Definition sys_pgetegid : M kst Z :=
  a ← current_cred; c ← getpc a; u ← getuc (ucr c); mret (egid u).

(** ** Changing the ids *)

Definition proc_setuid (mem : option ptr) (p : ptr) (uid : Z) : M kst Z :=
  a ← cred_of p;
  cred ← getpc a;
  u ← getuc (ucr cred);
  if negb (ruid cred =? uid) && negb (suser u) then mret EACCES
  else if (ruid cred =? uid) && (suid cred =? uid) && (euid u =? uid) then mret uid
  else
    n ← unshare mem a;
    moduc n (set_euid uid) ;;
    modpc a (set_ruid uid) ;;
    modpc a (set_suid uid) ;;
    mret uid.

Definition sys_psetuid (mem : option ptr) (uid : Z) : M kst Z :=
  c ← mgets curproc; proc_setuid mem c uid.

Definition proc_setgid (mem : option ptr) (p : ptr) (gid : Z) : M kst Z :=
  a ← cred_of p;
  cred ← getpc a;
  u ← getuc (ucr cred);
  if negb (rgid cred =? gid) && negb (suser u) then mret EACCES
  else if (rgid cred =? gid) && (egid u =? gid) && (sgid cred =? gid) then mret gid
  else
    n ← unshare mem a;
    moduc n (set_egid gid) ;;
    modpc a (set_rgid gid) ;;
    modpc a (set_sgid gid) ;;
    mret gid.

Definition sys_psetgid (mem : option ptr) (gid : Z) : M kst Z :=
  c ← mgets curproc; proc_setgid mem c gid.

(** [-1] as an [unsigned short]. *)
Definition unchanged : Z := 65535.

Definition sys_psetreuid (mem : option ptr) (new_ruid new_euid : Z) : M kst Z :=
  a ← current_cred;
  cred ← getpc a;
  u ← getuc (ucr cred);
  if negb (new_ruid =? unchanged) && negb (new_ruid =? ruid cred) &&
     negb (new_ruid =? euid u) && negb (suser u)
  then mret EACCES
  else if negb (new_euid =? unchanged) && negb (new_euid =? ruid cred) &&
     negb (new_euid =? euid u) && negb (new_euid =? suid cred) && negb (suser u)
  then mret EACCES
  else
    mwhen (negb (new_euid =? unchanged) && negb (new_euid =? euid u))
      (n ← unshare mem a; moduc n (set_euid new_euid)) ;;
    cred ← getpc a;
    u ← getuc (ucr cred);
    mwhen (negb (new_ruid =? unchanged) &&
           (negb (ruid cred =? new_ruid) || negb (suid cred =? euid u)))
      (modpc a (set_ruid new_ruid) ;; modpc a (set_suid (euid u))) ;;
    mret E_OK.

Definition sys_psetregid (mem : option ptr) (new_rgid new_egid : Z) : M kst Z :=
  a ← current_cred;
  cred ← getpc a;
  u ← getuc (ucr cred);
  if negb (new_rgid =? unchanged) && negb (new_rgid =? rgid cred) &&
     negb (new_rgid =? egid u) && negb (suser u)
  then mret EACCES
  else if negb (new_egid =? unchanged) && negb (new_egid =? rgid cred) &&
     negb (new_egid =? egid u) && negb (new_egid =? sgid cred) && negb (suser u)
  then mret EACCES
  else
    mwhen (negb (new_egid =? unchanged) && negb (egid u =? new_egid))
      (n ← unshare mem a; moduc n (set_egid new_egid)) ;;
    cred ← getpc a;
    u ← getuc (ucr cred);
    mwhen (negb (new_rgid =? unchanged) &&
           (negb (rgid cred =? new_rgid) || negb (sgid cred =? egid u)))
      (modpc a (set_rgid new_rgid) ;; modpc a (set_sgid (egid u))) ;;
    mret E_OK.

Definition sys_pseteuid (mem : option ptr) (new_euid : Z) : M kst Z :=
  r ← sys_psetreuid mem unchanged new_euid;
  mret (if r =? 0 then new_euid else EACCES).

Definition sys_psetegid (mem : option ptr) (new_egid : Z) : M kst Z :=
  r ← sys_psetregid mem unchanged new_egid;
  mret (if r =? 0 then new_egid else EACCES).

(** ** Groups *)

(** The result, and the groups written to [gidset]. *)
Definition sys_pgetgroups (gidsetlen : Z) : M kst (Z * list Z) :=
  a ← current_cred;
  cred ← getpc a;
  u ← getuc (ucr cred);
  mret (if gidsetlen =? 0 then (ngroups u, [])
        else if gidsetlen <? ngroups u then (EBADARG, [])
        else (ngroups u, take (Z.to_nat (ngroups u)) (groups u))).

Definition sys_psetgroups (mem : option ptr) (n : Z) (gidset : list Z) : M kst Z :=
  a ← current_cred;
  cred ← getpc a;
  u ← getuc (ucr cred);
  if negb (suser u) then mret EACCES
  else if (n <? 0) || (n >? NGROUPS) then mret EBADARG
  else
    let new := take (Z.to_nat n) gidset in
    if (ngroups u =? n) && bool_decide (new = take (Z.to_nat n) (groups u))
    then mret n
    else
      v ← unshare mem a;
      moduc v (set_ngroups n) ;;
      moduc v (λ c, set_groups (new ++ drop (Z.to_nat n) (groups c)) c) ;;
      mret n.

Definition groupmember (c : ucred) (group : Z) : bool :=
  existsb (Z.eqb group) (take (Z.to_nat (ngroups c)) (groups c)).

(** ** Specification: the identity of a process *)

Record ids := mk_ids {
  i_ruid : Z;
  i_euid : Z;
  i_suid : Z;
  i_rgid : Z;
  i_egid : Z;
  i_sgid : Z;
  i_groups : list Z;
  i_ngroups : Z
}.

Definition ids_eta (r : ids) : ids :=
  mk_ids
    (i_ruid r) (i_euid r) (i_suid r) (i_rgid r) (i_egid r) (i_sgid r)
    (i_groups r) (i_ngroups r).
Definition set_i_ruid : Z → ids → ids :=
  ltac:(build_setter ids_eta i_ruid).
Definition set_i_euid : Z → ids → ids :=
  ltac:(build_setter ids_eta i_euid).
Definition set_i_suid : Z → ids → ids :=
  ltac:(build_setter ids_eta i_suid).
Definition set_i_rgid : Z → ids → ids :=
  ltac:(build_setter ids_eta i_rgid).
Definition set_i_egid : Z → ids → ids :=
  ltac:(build_setter ids_eta i_egid).
Definition set_i_sgid : Z → ids → ids :=
  ltac:(build_setter ids_eta i_sgid).
Definition set_i_groups : list Z → ids → ids :=
  ltac:(build_setter ids_eta i_groups).
Definition set_i_ngroups : Z → ids → ids :=
  ltac:(build_setter ids_eta i_ngroups).

Definition ids_of (c : pcred) (u : ucred) : ids :=
  mk_ids (ruid c) (euid u) (suid c) (rgid c) (egid u) (sgid c) (groups u) (ngroups u).

(** The identity behind the [pcred] at [a]. *)
Definition view (k : kst) (a : ptr) : option ids :=
  match pcreds k !! a with
  | Some c => match ucreds k !! ucr c with
              | Some u => Some (ids_of c u)
              | None => None
              end
  | None => None
  end.

(** The [pcred]s that share the [ucred] at [u]. *)
Definition refs (k : kst) (u : ptr) : gset ptr :=
  dom (filter (λ x, ucr x.2 = u) (pcreds k)).

Lemma elem_of_refs k u a :
  a ∈ refs k u ↔ ∃ c, pcreds k !! a = Some c ∧ ucr c = u.
Proof.
  unfold refs. rewrite elem_of_dom. split.
  - intros [c Hc%map_lookup_filter_Some]. eauto.
  - intros (c & Hc & Hu). exists c. by apply map_lookup_filter_Some.
Qed.

(** The link count of a [ucred] is the number of its sharers. *)
Record creds_ok (k : kst) : Prop := {
  co_ucr : ∀ a c, pcreds k !! a = Some c → is_Some (ucreds k !! ucr c);
  co_links : ∀ u c, ucreds k !! u = Some c →
    u_links c = Z.of_nat (size (refs k u)) ∧ 0 < u_links c < 32768;
}.

Lemma view_some k a c u :
  pcreds k !! a = Some c → ucreds k !! ucr c = Some u → view k a = Some (ids_of c u).
Proof. unfold view. by intros -> ->. Qed.

Lemma view_inv k a i :
  view k a = Some i →
  ∃ c u, pcreds k !! a = Some c ∧ ucreds k !! ucr c = Some u ∧ i = ids_of c u.
Proof.
  unfold view. destruct (pcreds k !! a) as [c|]; [|done].
  destruct (ucreds k !! ucr c) as [u|] eqn:Hu; [|done]. intros [= <-]. eauto.
Qed.

Lemma view_is_some k a : creds_ok k → is_Some (pcreds k !! a) → is_Some (view k a).
Proof.
  intros Hok [c Hc]. destruct (co_ucr k Hok a c Hc) as [u Hu].
  rewrite (view_some k a c u); eauto.
Qed.

(** The kernel state outside the credentials. *)
Definition rest_cred (k : kst) : kst := set_ucreds ∅ (set_pcreds ∅ k).

(** *** Writing through an unshared pointer *)

(** Only the [pcred] at [a] refers to the [ucred] at [n]. *)
Definition owns_ucred (k : kst) (a n : ptr) : Prop :=
  ∃ c u, pcreds k !! a = Some c ∧ ucr c = n ∧ ucreds k !! n = Some u ∧
    ∀ b d, pcreds k !! b = Some d → ucr d = n → b = a.

Lemma sole_ref k a c u :
  creds_ok k → pcreds k !! a = Some c → ucreds k !! ucr c = Some u →
  u_links u = 1 → owns_ucred k a (ucr c).
Proof.
  intros Hok Hc Hu H1. exists c, u. do 3 (split; [done|]). intros b d Hd Hdu.
  destruct (co_links k Hok _ _ Hu) as [Hl _]. rewrite H1 in Hl.
  assert (size (refs k (ucr c)) = 1%nat) as Hs by lia.
  apply size_1_elem_of in Hs as [x Hx].
  assert (a ∈ refs k (ucr c)) as Ha by (apply elem_of_refs; eauto).
  assert (b ∈ refs k (ucr c)) as Hb by (apply elem_of_refs; eauto).
  rewrite Hx in Ha, Hb. set_solver.
Qed.

(** A change of the identity fields of an owned [ucred]. *)
Lemma moduc_owned k a n f :
  creds_ok k → owns_ucred k a n → (∀ u, u_links (f u) = u_links u) →
  ∃ k' c u, moduc n f k = Some (tt, k') ∧ creds_ok k' ∧ owns_ucred k' a n ∧
    pcreds k !! a = Some c ∧ ucreds k !! n = Some u ∧
    pcreds k' = pcreds k ∧ ucreds k' = <[n := f u]> (ucreds k) ∧
    (∀ b, b ≠ a → view k' b = view k b) ∧ view k' a = Some (ids_of c (f u)) ∧
    rest_cred k' = rest_cred k.
Proof.
  intros Hok (c & u & Hc & Hcn & Hu & Hsole) Hf. subst n.
  unfold moduc. rewrite Hu. eexists _, c, u. split; [done|].
  split; [|split; [|do 4 (split; [done|])]].
  - constructor; cbn.
    + intros b d Hd. destruct (decide (ucr d = ucr c)) as [->|].
      * by rewrite lookup_insert_eq.
      * rewrite lookup_insert_ne by done. by eapply co_ucr.
    + intros v w Hv. destruct (decide (v = ucr c)) as [->|].
      * rewrite lookup_insert_eq in Hv. injection Hv as <-. rewrite Hf.
        by apply (co_links k Hok).
      * rewrite lookup_insert_ne in Hv by done. by apply (co_links k Hok).
  - exists c, (f u). cbn. rewrite lookup_insert_eq. done.
  - split; [|split; [|done]].
    + intros b Hb. unfold view. cbn. destruct (pcreds k !! b) as [d|] eqn:Hd; [|done].
      rewrite lookup_insert_ne; [done|]. intros Heq. apply Hb. by eapply Hsole.
    + unfold view. cbn. by rewrite Hc, lookup_insert_eq.
Qed.

(** A change of the identity fields of a [pcred]. *)
Lemma modpc_ok k a c u f :
  creds_ok k → pcreds k !! a = Some c → ucreds k !! ucr c = Some u →
  (∀ c, ucr (f c) = ucr c) →
  ∃ k', modpc a f k = Some (tt, k') ∧ creds_ok k' ∧
    (∀ b, b ≠ a → view k' b = view k b) ∧ view k' a = Some (ids_of (f c) u) ∧
    rest_cred k' = rest_cred k.
Proof.
  intros Hok Hc Hu Hf. unfold modpc. rewrite Hc. eexists. split; [done|].
  assert (∀ v, refs (set_pcreds (<[a := f c]> (pcreds k)) k) v = refs k v) as Hrefs.
  { intros v. apply set_eq. intros b. rewrite !elem_of_refs. cbn.
    destruct (decide (b = a)) as [->|].
    - rewrite lookup_insert_eq. naive_solver congruence.
    - by rewrite lookup_insert_ne. }
  split; [constructor|].
  - cbn. intros b d. destruct (decide (b = a)) as [->|].
    + rewrite lookup_insert_eq. intros [= <-]. rewrite Hf. eauto.
    + rewrite lookup_insert_ne by done. by apply co_ucr.
  - intros v w. rewrite Hrefs. by apply (co_links k Hok).
  - split; [|split; [|done]].
    + intros b Hb. unfold view. cbn. by rewrite lookup_insert_ne.
    + unfold view. cbn. by rewrite lookup_insert_eq, Hf, Hu.
Qed.

(** *** [copy_cred] *)

(** [kmalloc] succeeds with a fresh block. *)
Definition alloc_ok (mem : option ptr) (k : kst) : Prop :=
  ∃ n, mem = Some n ∧ ucreds k !! n = None.

(** The state after a shared [ucred] was copied. *)
Definition copied (a u n : ptr) (cred : pcred) (c : ucred) (k : kst) : kst :=
  set_pcreds (<[a := set_ucr n cred]> (pcreds k))
    (set_ucreds (<[n := set_u_links 1 c]>
                   (<[u := set_u_links (u_links c - 1) c]> (ucreds k))) k).

Lemma copied_refs a u n cred c k v :
  pcreds k !! a = Some cred → ucr cred = u → u ≠ n →
  (∀ b d, pcreds k !! b = Some d → ucr d ≠ n) →
  refs (copied a u n cred c k) v =
    if decide (v = n) then {[a]} else if decide (v = u) then refs k u ∖ {[a]}
    else refs k v.
Proof.
  intros Hc Hu Hne Hn. apply set_eq. intros b. rewrite elem_of_refs. unfold copied.
  cbn. destruct (decide (b = a)) as [->|Hb].
  - rewrite lookup_insert_eq. repeat case_decide; subst; set_unfold;
      rewrite ?elem_of_refs; naive_solver.
  - rewrite lookup_insert_ne by done.
    repeat case_decide; subst; set_unfold; rewrite ?elem_of_refs; naive_solver.
Qed.

Lemma copied_ok a u n cred c k :
  creds_ok k → pcreds k !! a = Some cred → ucr cred = u → ucreds k !! u = Some c →
  1 < u_links c → ucreds k !! n = None →
  creds_ok (copied a u n cred c k) ∧ owns_ucred (copied a u n cred c k) a n ∧
  (∀ b, view (copied a u n cred c k) b = view k b).
Proof.
  intros Hok Hc Hu Hcu Hl Hn.
  assert (u ≠ n) as Hne by congruence.
  assert (∀ b d, pcreds k !! b = Some d → ucr d ≠ n) as Hnone.
  { intros b d Hd Heq. destruct (co_ucr k Hok b d Hd). congruence. }
  split; [constructor|split].
  - unfold copied. cbn. intros b d. destruct (decide (b = a)) as [->|].
    + rewrite lookup_insert_eq. intros [= <-]. cbn. by rewrite lookup_insert_eq.
    + rewrite lookup_insert_ne by done. intros Hd.
      rewrite lookup_insert_ne by (intros Heq; by eapply Hnone).
      destruct (decide (ucr d = u)) as [->|]; [by rewrite lookup_insert_eq|].
      rewrite lookup_insert_ne by done. by eapply co_ucr.
  - intros v w Hv. rewrite copied_refs by done. unfold copied in Hv. cbn in Hv.
    destruct (decide (v = n)) as [->|].
    { rewrite lookup_insert_eq in Hv. injection Hv as <-. cbn.
      rewrite size_singleton. lia. }
    rewrite lookup_insert_ne in Hv by done. destruct (decide (v = u)) as [->|].
    + rewrite lookup_insert_eq in Hv. injection Hv as <-. cbn.
      destruct (co_links k Hok u c Hcu) as [Hsz Hb].
      assert (a ∈ refs k u) as Ha by (apply elem_of_refs; eauto).
      rewrite size_difference by set_solver. rewrite size_singleton. lia.
    + rewrite lookup_insert_ne in Hv by done. by apply (co_links k Hok).
  - exists (set_ucr n cred), (set_u_links 1 c). unfold copied. cbn.
    rewrite !lookup_insert_eq. do 3 (split; [done|]). intros b d.
    destruct (decide (b = a)) as [->|]; [done|]. rewrite lookup_insert_ne by done.
    intros Hd Hdn. by destruct (Hnone b d Hd).
  - intros b. unfold view, copied. cbn. destruct (decide (b = a)) as [->|].
    + rewrite lookup_insert_eq, Hc. cbn. by rewrite lookup_insert_eq, Hu, Hcu.
    + rewrite lookup_insert_ne by done. destruct (pcreds k !! b) as [d|] eqn:Hd; [|done].
      rewrite lookup_insert_ne by (intros Heq; by eapply Hnone).
      destruct (decide (ucr d = u)) as [->|]; [by rewrite lookup_insert_eq, Hcu|].
      by rewrite lookup_insert_ne.
Qed.

Lemma unshare_ok mem k a :
  creds_ok k → is_Some (pcreds k !! a) → alloc_ok mem k →
  ∃ n k', unshare mem a k = Some (n, k') ∧ creds_ok k' ∧ owns_ucred k' a n ∧
    (∀ b, view k' b = view k b) ∧ rest_cred k' = rest_cred k.
Proof.
  intros Hok [cred Hc] (n & -> & Hn). destruct (co_ucr k Hok a cred Hc) as [u Hu].
  destruct (co_links k Hok _ _ Hu) as [Hsz Hl].
  unfold unshare, copy_cred, getpc, getuc.
  erewrite bind_run by by apply mderef_run. rewrite bind_assoc.
  erewrite bind_run by by apply mderef_run. rewrite bind_assoc.
  rewrite (bind_run _ _ _ _ _ (massert_run (u_links u >? 0) k ltac:(lia))).
  destruct (Z.eqb_spec (u_links u) 1) as [H1|H1].
  - erewrite bind_run by apply ret_run. unfold modpc.
    exists (ucr cred), k. unfold mbind, M_bind. rewrite Hc. split.
    { do 3 f_equal. rewrite insert_id; [by destruct k|]. rewrite Hc. by destruct cred. }
    split; [done|]. split; [by eapply sole_ref|done].
  - destruct (copied_ok a (ucr cred) n cred u k) as (Hok' & Hown & Hview);
      [done..|lia|done|].
    exists n, (copied a (ucr cred) n cred u k). split; [|done].
    rewrite bind_assoc. erewrite (bind_run (mmod _)) by reflexivity.
    assert (ucr cred ≠ n) as Hne by congruence.
    rewrite bind_assoc. erewrite bind_run by (unfold moduc; cbn;
      rewrite lookup_insert_ne, Hu by done; reflexivity).
    rewrite bind_assoc. erewrite bind_run by (unfold moduc; cbn;
      rewrite lookup_insert_ne, lookup_insert_eq by done; reflexivity).
    erewrite bind_run by apply ret_run. cbv beta iota.
    erewrite bind_run by (unfold modpc; cbn; rewrite Hc; reflexivity).
    rewrite ret_run. rewrite s16_id by lia. unfold copied. do 2 f_equal. destruct k. cbn.
    unfold set_pcreds, set_ucreds. cbn. f_equal.
    rewrite (insert_insert_ne _ n (ucr cred)) by done.
    by rewrite insert_insert_eq, (insert_insert_ne _ (ucr cred) n) by done.
Qed.

(** *** Steps of a change of identity *)

(** From [k] to [k'] only the identity behind [a] changed, to [i]. *)
Record updated (k k' : kst) (a : ptr) (i : ids) : Prop := {
  up_ok : creds_ok k';
  up_others : ∀ b, b ≠ a → view k' b = view k b;
  up_view : view k' a = Some i;
  up_rest : rest_cred k' = rest_cred k;
}.

Lemma updated_refl k a i : creds_ok k → view k a = Some i → updated k k a i.
Proof. by constructor. Qed.

Lemma updated_trans k1 k2 k3 a i j :
  updated k1 k2 a i → updated k2 k3 a j → updated k1 k3 a j.
Proof.
  intros [? H2 ? ?] [? H4 ? ?]. constructor; [done| |done|congruence].
  intros b Hb. by rewrite H4, H2.
Qed.

Lemma unshare_step mem k a i :
  creds_ok k → view k a = Some i → alloc_ok mem k →
  ∃ n k', unshare mem a k = Some (n, k') ∧ updated k k' a i ∧ owns_ucred k' a n.
Proof.
  intros Hok Hi Hm. destruct (view_inv k a i Hi) as (c & u & Hc & _).
  destruct (unshare_ok mem k a Hok ltac:(eauto) Hm) as (n & k' & Hr & Hok' & Ho & Hv & ?).
  exists n, k'. split; [done|]. split; [|done]. constructor; [done| |by rewrite Hv|done].
  intros b _. apply Hv.
Qed.

Lemma moduc_step k a n f g i :
  creds_ok k → owns_ucred k a n → view k a = Some i →
  (∀ u, u_links (f u) = u_links u) → (∀ c u, ids_of c (f u) = g (ids_of c u)) →
  ∃ k', moduc n f k = Some (tt, k') ∧ updated k k' a (g i) ∧ owns_ucred k' a n.
Proof.
  intros Hok Ho Hi Hl Hg. destruct (moduc_owned k a n f Hok Ho Hl)
    as (k' & c & u & Hr & Hok' & Ho' & Hc & Hu & _ & _ & Hoth & Hv & Hrest).
  exists k'. split; [done|]. split; [|done]. constructor; try done.
  destruct Ho as (c' & u' & Hc' & Hn & Hu' & _).
  rewrite (view_some k a c u) in Hi by congruence. injection Hi as <-. by rewrite Hv, Hg.
Qed.

Lemma modpc_step k a f g i :
  creds_ok k → view k a = Some i →
  (∀ c, ucr (f c) = ucr c) → (∀ c u, ids_of (f c) u = g (ids_of c u)) →
  ∃ k', modpc a f k = Some (tt, k') ∧ updated k k' a (g i).
Proof.
  intros Hok Hi Hl Hg. destruct (view_inv k a i Hi) as (c & u & Hc & Hu & ->).
  destruct (modpc_ok k a c u f Hok Hc Hu Hl) as (k' & Hr & Hok' & Hoth & Hv & Hrest).
  exists k'. split; [done|]. constructor; try done. by rewrite Hv, Hg.
Qed.

(** Write one field of the unshared [ucred]. *)
Lemma change_ucred mem k a i f g :
  creds_ok k → view k a = Some i → alloc_ok mem k →
  (∀ u, u_links (f u) = u_links u) → (∀ c u, ids_of c (f u) = g (ids_of c u)) →
  ∃ k', (n ← unshare mem a; moduc n f) k = Some (tt, k') ∧ updated k k' a (g i).
Proof.
  intros Hok Hi Hm Hl Hg.
  destruct (unshare_step mem k a i Hok Hi Hm) as (n & k1 & H1 & U1 & O1).
  erewrite bind_run by exact H1.
  destruct (moduc_step k1 a n f g i) as (k2 & H2 & U2 & _); try done; [apply U1..|].
  exists k2. split; [done|]. by eapply updated_trans.
Qed.

(** Two writes to the [pcred]. *)
Lemma change_pcred k a i f1 f2 g1 g2 :
  creds_ok k → view k a = Some i →
  (∀ c, ucr (f1 c) = ucr c) → (∀ c u, ids_of (f1 c) u = g1 (ids_of c u)) →
  (∀ c, ucr (f2 c) = ucr c) → (∀ c u, ids_of (f2 c) u = g2 (ids_of c u)) →
  ∃ k', (modpc a f1 ;; modpc a f2) k = Some (tt, k') ∧ updated k k' a (g2 (g1 i)).
Proof.
  intros Hok Hi Hl1 Hg1 Hl2 Hg2.
  destruct (modpc_step k a f1 g1 i) as (k1 & H1 & U1); try done.
  erewrite bind_run by exact H1.
  destruct (modpc_step k1 a f2 g2 (g1 i)) as (k2 & H2 & U2); try done; [apply U1..|].
  exists k2. split; [done|]. by eapply updated_trans.
Qed.

(** The loads at the head of every call. *)
Lemma load_ids k a i :
  view k a = Some i →
  ∃ c u, ids_of c u = i ∧ getpc a k = Some (c, k) ∧ getuc (ucr c) k = Some (u, k).
Proof.
  intros Hi. destruct (view_inv k a i Hi) as (c & u & Hc & Hu & ->).
  exists c, u. split; [done|].
  split; [by apply (mderef_run (λ k, pcreds k !! a))|by apply (mderef_run (λ k, ucreds k !! ucr c))].
Qed.

Lemma cred_of_run k p r : procs k !! p = Some r → cred_of p k = Some (p_cred r, k).
Proof. intros Hr. unfold cred_of. by erewrite bind_run by by apply getp_run. Qed.

Lemma current_cred_run k r :
  procs k !! curproc k = Some r → current_cred k = Some (p_cred r, k).
Proof.
  intros Hr. unfold current_cred. erewrite (bind_run (mgets curproc)) by reflexivity.
  by apply cred_of_run.
Qed.

(** Run the loads of the call of the goal; [c] and [u] are the structures. *)
Ltac load Hi c u Hcu :=
  let H1 := fresh in let H2 := fresh in
  destruct (load_ids _ _ _ Hi) as (c & u & Hcu & H1 & H2);
  first [ erewrite (bind_run (cred_of _)) by (apply cred_of_run; eassumption)
        | erewrite (bind_run current_cred) by (apply current_cred_run; eassumption)
        | idtac ];
  erewrite bind_run by exact H1; erewrite bind_run by exact H2; clear H1 H2.

(** ** Properties *)

(** The identity after [setuid] and [setreuid]. *)
Definition become_uid (uid : Z) (i : ids) : ids :=
  set_i_suid uid (set_i_ruid uid (set_i_euid uid i)).

Definition setuid_allowed (i : ids) (uid : Z) : bool :=
  (i_ruid i =? uid) || (i_euid i =? 0).

(** [Psetuid] succeeds exactly for the real user id or a super user, then
    makes the real, effective and saved user id of the process the new one, and
    changes no other id; although [ucred]s are shared, no other process's
    identity changes (copy on write) and the reference counts stay exact.
    Otherwise the call fails with [EACCES] and changes nothing. *)
Lemma proc_setuid_spec mem p uid k r i :
  creds_ok k → procs k !! p = Some r → view k (p_cred r) = Some i → alloc_ok mem k →
  ∃ z k', proc_setuid mem p uid k = Some (z, k') ∧
    if setuid_allowed i uid
    then z = uid ∧ updated k k' (p_cred r) (become_uid uid i)
    else z = EACCES ∧ k' = k.
Proof.
  intros Hok Hr Hi Hm. unfold proc_setuid.
  load Hi c u Hcu.
  unfold setuid_allowed, suser. rewrite <- Hcu. cbn [ids_of i_ruid i_euid].
  replace (negb (ruid c =? uid) && negb (euid u =? 0))
    with (negb ((ruid c =? uid) || (euid u =? 0))) by apply negb_orb.
  destruct ((ruid c =? uid) || (euid u =? 0)); cbn [negb]; [|by exists EACCES, k].
  rewrite Hcu. case_bool.
  { exists uid, k. split; [done|]. split; [done|]. bool_to_prop.
    replace (become_uid uid i) with i; [by apply updated_refl|].
    rewrite <- Hcu. unfold become_uid, ids_of, set_i_suid, set_i_ruid, set_i_euid.
    cbn. congruence. }
  destruct (change_ucred mem k (p_cred r) i (set_euid uid) (set_i_euid uid))
    as (k1 & H1 & U1); [done..|].
  destruct (change_pcred k1 (p_cred r) (set_i_euid uid i) (set_ruid uid)
    (set_suid uid) (set_i_ruid uid) (set_i_suid uid)) as (k2 & H2 & U2);
    [apply U1|apply U1|done..|].
  exists uid, k2. rewrite <- bind_assoc. erewrite bind_run by exact H1.
  rewrite <- bind_assoc. erewrite bind_run by exact H2.
  split; [done|]. split; [done|]. by eapply updated_trans.
Qed.

Lemma proc_setgid_spec mem p gid k r i :
  creds_ok k → procs k !! p = Some r → view k (p_cred r) = Some i → alloc_ok mem k →
  ∃ z k', proc_setgid mem p gid k = Some (z, k') ∧
    if (i_rgid i =? gid) || (i_euid i =? 0)
    then z = gid ∧ updated k k' (p_cred r)
           (set_i_sgid gid (set_i_rgid gid (set_i_egid gid i)))
    else z = EACCES ∧ k' = k.
Proof.
  intros Hok Hr Hi Hm. unfold proc_setgid. load Hi c u Hcu.
  unfold suser. rewrite <- Hcu. cbn [ids_of i_rgid i_euid].
  replace (negb (rgid c =? gid) && negb (euid u =? 0))
    with (negb ((rgid c =? gid) || (euid u =? 0))) by apply negb_orb.
  destruct ((rgid c =? gid) || (euid u =? 0)); cbn [negb]; [|by exists EACCES, k].
  rewrite Hcu. case_bool.
  { exists gid, k. split; [done|]. split; [done|]. bool_to_prop.
    replace (set_i_sgid _ _) with i; [by apply updated_refl|].
    rewrite <- Hcu. unfold ids_of, set_i_sgid, set_i_rgid, set_i_egid. cbn. congruence. }
  destruct (change_ucred mem k (p_cred r) i (set_egid gid) (set_i_egid gid))
    as (k1 & H1 & U1); [done..|].
  destruct (change_pcred k1 (p_cred r) (set_i_egid gid i) (set_rgid gid)
    (set_sgid gid) (set_i_rgid gid) (set_i_sgid gid)) as (k2 & H2 & U2);
    [apply U1|apply U1|done..|].
  exists gid, k2. rewrite <- bind_assoc. erewrite bind_run by exact H1.
  rewrite <- bind_assoc. erewrite bind_run by exact H2.
  split; [done|]. split; [done|]. by eapply updated_trans.
Qed.

(** When [setreuid] is allowed, and the identity it gives; 65535 leaves an id
    unchanged. *)
Definition setreuid_allowed (i : ids) (r e : Z) : bool :=
  (i_euid i =? 0) ||
  (((r =? unchanged) || (r =? i_ruid i) || (r =? i_euid i)) &&
   ((e =? unchanged) || (e =? i_ruid i) || (e =? i_euid i) || (e =? i_suid i))).

Definition reuid (r e : Z) (i : ids) : ids :=
  let e' := if e =? unchanged then i_euid i else e in
  if r =? unchanged then set_i_euid e' i
  else set_i_ruid r (set_i_suid e' (set_i_euid e' i)).

(** The two tests at the head of [setreuid] and [setregid]. *)
Lemma setre_test {A} (a1 a2 a3 b1 b2 b3 b4 su : bool) (X Y : A) :
  (if negb a1 && negb a2 && negb a3 && negb su then X
   else if negb b1 && negb b2 && negb b3 && negb b4 && negb su then X else Y) =
  if su || ((a1 || a2 || a3) && (b1 || b2 || b3 || b4)) then Y else X.
Proof. by destruct su, a1, a2, a3, b1, b2, b3, b4. Qed.

Lemma maybe_change_ucred (b : bool) mem k a i f g :
  creds_ok k → view k a = Some i → alloc_ok mem k →
  (∀ u, u_links (f u) = u_links u) → (∀ c u, ids_of c (f u) = g (ids_of c u)) →
  ∃ k', mwhen b (n ← unshare mem a; moduc n f) k = Some (tt, k') ∧
    updated k k' a (if b then g i else i).
Proof.
  intros. destruct b; [by apply change_ucred|]. exists k. split; [done|].
  by apply updated_refl.
Qed.

Lemma maybe_change_pcred (b : bool) k a i f1 f2 g1 g2 :
  creds_ok k → view k a = Some i →
  (∀ c, ucr (f1 c) = ucr c) → (∀ c u, ids_of (f1 c) u = g1 (ids_of c u)) →
  (∀ c, ucr (f2 c) = ucr c) → (∀ c u, ids_of (f2 c) u = g2 (ids_of c u)) →
  ∃ k', mwhen b (modpc a f1 ;; modpc a f2) k = Some (tt, k') ∧
    updated k k' a (if b then g2 (g1 i) else i).
Proof.
  intros. destruct b; [by apply change_pcred|]. exists k. split; [done|].
  by apply updated_refl.
Qed.

(** [Psetreuid] (and [Pseteuid]) follows the rules of set-user-id programs:
    an unprivileged process may set its real id to its real or effective id, and
    its effective id to its real, effective or saved id; the saved id becomes
    the new effective id exactly when the real id is given.  No other process's
    identity changes, and a refused call changes nothing. *)
Lemma sys_psetreuid_spec mem ru eu k r i :
  creds_ok k → procs k !! curproc k = Some r → view k (p_cred r) = Some i →
  alloc_ok mem k →
  ∃ z k', sys_psetreuid mem ru eu k = Some (z, k') ∧
    if setreuid_allowed i ru eu
    then z = E_OK ∧ updated k k' (p_cred r) (reuid ru eu i)
    else z = EACCES ∧ k' = k.
Proof.
  intros Hok Hr Hi Hm. unfold sys_psetreuid. load Hi c u Hcu.
  rewrite setre_test. unfold setreuid_allowed, suser.
  rewrite <- Hcu. cbn [ids_of i_ruid i_euid i_suid]. rewrite Hcu.
  destruct (_ || _); [|by exists EACCES, k].
  destruct (maybe_change_ucred (negb (eu =? unchanged) && negb (eu =? euid u)) mem k
    (p_cred r) i (set_euid eu) (set_i_euid eu)) as (k1 & H1 & U1); [done..|].
  erewrite bind_run by exact H1.
  pose proof (up_view _ _ _ _ U1) as Hv1.
  load Hv1 c1 u1 Hcu1.
  destruct (maybe_change_pcred (negb (ru =? unchanged) &&
    (negb (ruid c1 =? ru) || negb (suid c1 =? euid u1))) k1 (p_cred r) _
    (set_ruid ru) (set_suid (euid u1)) (set_i_ruid ru) (set_i_suid (euid u1))
    (up_ok _ _ _ _ U1) (up_view _ _ _ _ U1)) as (k2 & H2 & U2); [done..|].
  erewrite bind_run by exact H2. exists E_OK, k2. split; [done|]. split; [done|].
  replace (reuid ru eu i) with
    (if negb (ru =? unchanged) && (negb (ruid c1 =? ru) || negb (suid c1 =? euid u1))
     then set_i_suid (euid u1) (set_i_ruid ru (ids_of c1 u1)) else ids_of c1 u1);
    [rewrite Hcu1; by eapply updated_trans|].
  assert (euid u1 = i_euid (ids_of c1 u1)) as -> by done.
  assert (ruid c1 = i_ruid (ids_of c1 u1)) as -> by done.
  assert (suid c1 = i_suid (ids_of c1 u1)) as -> by done.
  assert (euid u = i_euid i) as Heu by by rewrite <- Hcu.
  rewrite Heu in Hcu1.
  unfold reuid. set (e' := if eu =? unchanged then i_euid i else eu).
  assert (ids_of c1 u1 = set_i_euid e' i) as ->.
  { rewrite Hcu1. unfold e', set_i_euid. destruct i. cbn.
    destruct (Z.eqb_spec eu unchanged); cbn; [done|]. case_bool; bool_to_prop; congruence. }
  unfold set_i_euid, set_i_ruid, set_i_suid. destruct i. cbn.
  destruct (ru =? unchanged); cbn; [done|]. case_bool; bool_to_prop; congruence.
Qed.

Definition setregid_allowed (i : ids) (r e : Z) : bool :=
  (i_euid i =? 0) ||
  (((r =? unchanged) || (r =? i_rgid i) || (r =? i_egid i)) &&
   ((e =? unchanged) || (e =? i_rgid i) || (e =? i_egid i) || (e =? i_sgid i))).

Definition regid (r e : Z) (i : ids) : ids :=
  let e' := if e =? unchanged then i_egid i else e in
  if r =? unchanged then set_i_egid e' i
  else set_i_rgid r (set_i_sgid e' (set_i_egid e' i)).

Lemma sys_psetregid_spec mem rg eg k r i :
  creds_ok k → procs k !! curproc k = Some r → view k (p_cred r) = Some i →
  alloc_ok mem k →
  ∃ z k', sys_psetregid mem rg eg k = Some (z, k') ∧
    if setregid_allowed i rg eg
    then z = E_OK ∧ updated k k' (p_cred r) (regid rg eg i)
    else z = EACCES ∧ k' = k.
Proof.
  intros Hok Hr Hi Hm. unfold sys_psetregid. load Hi c u Hcu.
  rewrite setre_test. unfold setregid_allowed, suser.
  rewrite <- Hcu. cbn [ids_of i_rgid i_egid i_euid i_sgid]. rewrite Hcu.
  destruct (_ || _); [|by exists EACCES, k].
  destruct (maybe_change_ucred (negb (eg =? unchanged) && negb (egid u =? eg)) mem k
    (p_cred r) i (set_egid eg) (set_i_egid eg)) as (k1 & H1 & U1); [done..|].
  erewrite bind_run by exact H1.
  pose proof (up_view _ _ _ _ U1) as Hv1.
  load Hv1 c1 u1 Hcu1.
  destruct (maybe_change_pcred (negb (rg =? unchanged) &&
    (negb (rgid c1 =? rg) || negb (sgid c1 =? egid u1))) k1 (p_cred r) _
    (set_rgid rg) (set_sgid (egid u1)) (set_i_rgid rg) (set_i_sgid (egid u1))
    (up_ok _ _ _ _ U1) (up_view _ _ _ _ U1)) as (k2 & H2 & U2); [done..|].
  erewrite bind_run by exact H2. exists E_OK, k2. split; [done|]. split; [done|].
  replace (regid rg eg i) with
    (if negb (rg =? unchanged) && (negb (rgid c1 =? rg) || negb (sgid c1 =? egid u1))
     then set_i_sgid (egid u1) (set_i_rgid rg (ids_of c1 u1)) else ids_of c1 u1);
    [rewrite Hcu1; by eapply updated_trans|].
  assert (egid u1 = i_egid (ids_of c1 u1)) as -> by done.
  assert (rgid c1 = i_rgid (ids_of c1 u1)) as -> by done.
  assert (sgid c1 = i_sgid (ids_of c1 u1)) as -> by done.
  assert (egid u = i_egid i) as Heg by by rewrite <- Hcu.
  rewrite Heg in Hcu1.
  unfold regid. set (e' := if eg =? unchanged then i_egid i else eg).
  assert (ids_of c1 u1 = set_i_egid e' i) as ->.
  { rewrite Hcu1. unfold e', set_i_egid. destruct i. cbn.
    destruct (Z.eqb_spec eg unchanged); cbn; [done|]. case_bool; bool_to_prop; congruence. }
  unfold set_i_egid, set_i_rgid, set_i_sgid. destruct i. cbn.
  destruct (rg =? unchanged); cbn; [done|]. case_bool; bool_to_prop; congruence.
Qed.

(** [Psetgroups] is reserved to the super user and to at most [NGROUPS]
    groups; it then installs exactly the given groups ([Pgetgroups] and
    [groupmember] see them), for this process alone. *)
Theorem sys_psetgroups_spec mem n gidset k r i :
  creds_ok k → procs k !! curproc k = Some r → view k (p_cred r) = Some i →
  alloc_ok mem k → length (i_groups i) = 8%nat → n ≤ Z.of_nat (length gidset) →
  ∃ z k', sys_psetgroups mem n gidset k = Some (z, k') ∧
    if i_euid i =? 0 then
      if (0 <=? n) && (n <=? NGROUPS) then
        z = n ∧ creds_ok k' ∧ (∀ b, b ≠ p_cred r → view k' b = view k b) ∧
        ∃ i', view k' (p_cred r) = Some i' ∧ i_ngroups i' = n ∧
          length (i_groups i') = 8%nat ∧
          take (Z.to_nat n) (i_groups i') = take (Z.to_nat n) gidset ∧
          set_i_groups [] (set_i_ngroups 0 i') = set_i_groups [] (set_i_ngroups 0 i)
      else z = EBADARG ∧ k' = k
    else z = EACCES ∧ k' = k.
Proof.
  intros Hok Hr Hi Hm Hlen Hn. unfold sys_psetgroups. load Hi c u Hcu.
  unfold suser. assert (euid u = i_euid i) as -> by by rewrite <- Hcu.
  destruct (i_euid i =? 0); cbn [negb]; [|by exists EACCES, k].
  rewrite Z.gtb_ltb. unfold NGROUPS.
  destruct (Z.ltb_spec n 0); cbn [orb].
  { exists EBADARG, k. by replace (0 <=? n) with false by lia. }
  destruct (Z.ltb_spec 8 n).
  { exists EBADARG, k. replace (n <=? 8) with false by lia. by rewrite andb_false_r. }
  replace ((0 <=? n) && (n <=? 8)) with true by lia.
  assert (i_groups i = groups u ∧ i_ngroups i = ngroups u) as [Hg Hng] by by rewrite <- Hcu.
  case_bool.
  { exists n, k. bool_to_prop. split; [done|]. split; [done|]. split; [done|].
    split; [done|]. exists i. rewrite Hg, Hng in *. done. }
  destruct (unshare_step mem k (p_cred r) i Hok Hi Hm) as (v & k1 & H1 & U1 & O1).
  erewrite bind_run by exact H1.
  destruct (moduc_step k1 (p_cred r) v (set_ngroups n) (set_i_ngroups n) i)
    as (k2 & H2 & U2 & O2); try done; [apply U1..|].
  erewrite bind_run by exact H2.
  set (new := take (Z.to_nat n) gidset).
  destruct (moduc_step k2 (p_cred r) v
    (λ c, set_groups (new ++ drop (Z.to_nat n) (groups c)) c)
    (λ i, set_i_groups (new ++ drop (Z.to_nat n) (i_groups i)) i)
    (set_i_ngroups n i)) as (k3 & H3 & U3 & O3); try done; [apply U2..|].
  erewrite bind_run by exact H3. exists n, k3. split; [done|]. split; [done|].
  pose proof (updated_trans _ _ _ _ _ _ U1 (updated_trans _ _ _ _ _ _ U2 U3)) as U.
  split; [apply U|]. split; [apply U|]. eexists. split; [apply U|].
  cbn. split; [done|].
  assert (length new = Z.to_nat n) as Hnew by (unfold new; rewrite length_take; lia).
  split; [rewrite length_app, length_drop, Hlen; lia|]. split; [|done].
  rewrite take_app_length' by done. done.
Qed.

(** ** No process gains an identity *)

(** A process switch, or a call that changes credentials. *)
Inductive cred_step : relation kst :=
  | step_setuid mem uid k k' z :
      alloc_ok mem k → sys_psetuid mem uid k = Some (z, k') → cred_step k k'
  | step_setgid mem gid k k' z :
      alloc_ok mem k → sys_psetgid mem gid k = Some (z, k') → cred_step k k'
  | step_setreuid mem ru eu k k' z :
      alloc_ok mem k → sys_psetreuid mem ru eu k = Some (z, k') → cred_step k k'
  | step_setregid mem rg eg k k' z :
      alloc_ok mem k → sys_psetregid mem rg eg k = Some (z, k') → cred_step k k'
  | step_seteuid mem eu k k' z :
      alloc_ok mem k → sys_pseteuid mem eu k = Some (z, k') → cred_step k k'
  | step_switch p k :
      is_Some (procs k !! p) → cred_step k (set_curproc p k).

(** The user ids of an identity. *)
Definition uids (i : ids) : gset Z := {[ i_ruid i; i_euid i; i_suid i ]}.

(** Every process has credentials of its own. *)
Record procs_creds (k : kst) : Prop := {
  pc_ok : creds_ok k;
  pc_cur : is_Some (procs k !! curproc k);
  pc_view : ∀ p r, procs k !! p = Some r → is_Some (view k (p_cred r));
}.

Lemma rest_cred_procs k k' :
  rest_cred k' = rest_cred k → procs k' = procs k ∧ curproc k' = curproc k.
Proof.
  intros H. change (procs (rest_cred k') = procs (rest_cred k) ∧
    curproc (rest_cred k') = curproc (rest_cred k)). by rewrite H.
Qed.

Lemma updated_procs_creds k k' a i :
  procs_creds k → updated k k' a i → procs_creds k'.
Proof.
  intros [Hok Hcur Hv] [Hok' Hoth Ha Hrest].
  destruct (rest_cred_procs k k' Hrest) as [Hp Hc].
  constructor; rewrite ?Hp, ?Hc; [done|done|]. intros p r Hr.
  destruct (decide (p_cred r = a)) as [->|]; [by rewrite Ha|]. rewrite Hoth; eauto.
Qed.

(** What a step does to the identities: nothing, or a change of the current
    process's identity whose user ids were among its own, unless it is the
    super user. *)
Definition ids_effect (k k' : kst) : Prop :=
  procs_creds k' ∧ procs k' = procs k ∧
  ((∀ a, view k' a = view k a) ∨
   ∃ r i i', procs k !! curproc k = Some r ∧ view k (p_cred r) = Some i ∧
     updated k k' (p_cred r) i' ∧ (i_euid i = 0 ∨ uids i' ⊆ uids i)).

Lemma spec_effect k k' r i (b : bool) (z0 z1 : Z) i' :
  procs_creds k → procs k !! curproc k = Some r → view k (p_cred r) = Some i →
  (if b then z0 = z1 ∧ updated k k' (p_cred r) i' else z0 = EACCES ∧ k' = k) →
  (b = true → i_euid i = 0 ∨ uids i' ⊆ uids i) →
  ids_effect k k'.
Proof.
  intros Hpc Hr Hi Hif Hu. destruct b; destruct Hif as [_ Hk].
  - split; [by eapply updated_procs_creds|].
    split; [by apply (rest_cred_procs k k'), Hk|]. right. exists r, i, i'. auto.
  - subst k'. split; [done|]. auto.
Qed.

Lemma reuid_uids i ru eu :
  setreuid_allowed i ru eu = true → i_euid i = 0 ∨ uids (reuid ru eu i) ⊆ uids i.
Proof.
  unfold setreuid_allowed, reuid, uids. destruct i as [a b c d e f g h].
  cbn. destruct (Z.eqb_spec b 0); cbn; [by left|]. intros Ha. right.
  destruct (Z.eqb_spec ru unchanged), (Z.eqb_spec eu unchanged);
    cbn in *; bool_to_prop; rewrite ?orb_true_iff in *; bool_to_prop;
    rewrite ?orb_true_iff, ?Z.eqb_eq in *; set_solver.
Qed.

Lemma setuid_uids i uid :
  setuid_allowed i uid = true → i_euid i = 0 ∨ uids (become_uid uid i) ⊆ uids i.
Proof.
  unfold setuid_allowed, become_uid, uids. destruct i. cbn.
  rewrite orb_true_iff, !Z.eqb_eq. set_solver.
Qed.

Lemma psetreuid_effect mem ru eu k k' z :
  procs_creds k → alloc_ok mem k → sys_psetreuid mem ru eu k = Some (z, k') →
  ids_effect k k'.
Proof.
  intros Hpc Hm Hrun. pose proof Hpc as [Hok [r Hr] Hv].
  pose proof (Hv _ _ Hr) as [i Hi].
  destruct (sys_psetreuid_spec mem ru eu k r i) as (z' & k1 & H1 & Hs); try done.
  rewrite H1 in Hrun. injection Hrun as <- <-.
  eapply spec_effect; [done|done|done|exact Hs|]. apply reuid_uids.
Qed.

Lemma cred_step_effect k k' : procs_creds k → cred_step k k' → ids_effect k k'.
Proof.
  intros Hpc Hstep. pose proof Hpc as [Hok [r Hr] Hv].
  pose proof (Hv _ _ Hr) as [i Hi].
  destruct Hstep as [mem uid k k' z Hm Hrun|mem gid k k' z Hm Hrun|mem ru eu k k' z Hm Hrun
    |mem rg eg k k' z Hm Hrun|mem eu k k' z Hm Hrun|p k Hp].
  - destruct (proc_setuid_spec mem (curproc k) uid k r i) as (z' & k1 & H1 & Hs); try done.
    change (proc_setuid mem (curproc k) uid k = Some (z, k')) in Hrun.
    rewrite H1 in Hrun. injection Hrun as <- <-.
    eapply spec_effect; [done|done|done|exact Hs|]. apply setuid_uids.
  - destruct (proc_setgid_spec mem (curproc k) gid k r i) as (z' & k1 & H1 & Hs); try done.
    change (proc_setgid mem (curproc k) gid k = Some (z, k')) in Hrun.
    rewrite H1 in Hrun. injection Hrun as <- <-.
    eapply spec_effect; [done|done|done|exact Hs|]. intros _. right. by destruct i.
  - by eapply psetreuid_effect.
  - destruct (sys_psetregid_spec mem rg eg k r i) as (z' & k1 & H1 & Hs); try done.
    rewrite H1 in Hrun. injection Hrun as <- <-.
    eapply spec_effect; [done|done|done|exact Hs|]. intros _. right.
    unfold regid, uids. destruct i. cbn. by case_bool.
  - unfold sys_pseteuid in Hrun. apply bind_inv in Hrun as (z1 & k1 & H1 & Hret).
    injection Hret as <- <-. by eapply psetreuid_effect.
  - split; [|split; [done|by left]]. constructor; [|done|done].
    destruct Hok. by constructor.
Qed.

(** ** Properties *)

(** [Psetuid] succeeds exactly for the real user id or a super user, then
    makes the real, effective and saved user id of the process the new one and
    changes no other id; although [ucred]s are shared between processes, no other
    process's identity changes (copy on write), and the reference counts stay
    exact.  Otherwise the call fails with [EACCES] and changes nothing. *)
Theorem psetuid_spec mem uid k r i :
  creds_ok k → procs k !! curproc k = Some r → view k (p_cred r) = Some i →
  alloc_ok mem k →
  ∃ z k', sys_psetuid mem uid k = Some (z, k') ∧
    if (i_ruid i =? uid) || (i_euid i =? 0)
    then z = uid ∧ creds_ok k' ∧ view k' (p_cred r) = Some (become_uid uid i) ∧
         ∀ b, b ≠ p_cred r → view k' b = view k b
    else z = EACCES ∧ k' = k.
Proof.
  intros Hok Hr Hi Hm.
  destruct (proc_setuid_spec mem (curproc k) uid k r i) as (z & k' & H1 & Hs); try done.
  exists z, k'. split; [exact H1|]. unfold setuid_allowed in Hs.
  destruct (_ || _); [|done]. destruct Hs as [-> [? ? ? ?]]. done.
Qed.

(** C21: [Psetreuid] follows the rules of set-user-id programs: an unprivileged
    process may set its real id to its real or effective id, and its effective
    id to its real, effective or saved id (65535 leaves an id unchanged); the
    saved id becomes the new effective id exactly when the real id is given.
    The other processes are not affected, and a refused call changes nothing. *)
Theorem psetreuid_spec mem ru eu k r i :
  creds_ok k → procs k !! curproc k = Some r → view k (p_cred r) = Some i →
  alloc_ok mem k →
  ∃ z k', sys_psetreuid mem ru eu k = Some (z, k') ∧
    if setreuid_allowed i ru eu
    then z = E_OK ∧ creds_ok k' ∧ view k' (p_cred r) = Some (reuid ru eu i) ∧
         ∀ b, b ≠ p_cred r → view k' b = view k b
    else z = EACCES ∧ k' = k.
Proof.
  intros Hok Hr Hi Hm.
  destruct (sys_psetreuid_spec mem ru eu k r i) as (z & k' & H1 & Hs); try done.
  exists z, k'. split; [exact H1|]. destruct (setreuid_allowed i ru eu); [|done].
  destruct Hs as [-> [? ? ? ?]]. done.
Qed.

(** C20: No sequence of credential calls by any processes gives a process a user
    id that was not among its real, effective and saved ids, as long as none of
    them was the super user's 0: privilege, once dropped, is never regained. *)
Theorem no_privilege_gained k k' p r i S :
  procs_creds k → rtc cred_step k k' →
  (∀ q r', procs k !! q = Some r' → p_cred r' = p_cred r → q = p) →
  procs k !! p = Some r → view k (p_cred r) = Some i →
  uids i ⊆ S → 0 ∉ S →
  procs_creds k' ∧ ∃ i', view k' (p_cred r) = Some i' ∧ uids i' ⊆ S.
Proof.
  intros Hpc Hrtc Hown Hr Hi HS H0. revert i Hi HS Hpc Hown Hr.
  induction Hrtc as [k|k1 k2 k3 Hstep Hrtc IH]; intros i Hi HS Hpc Hown Hr; [eauto|].
  destruct (cred_step_effect k1 k2 Hpc Hstep) as (Hpc2 & Hp2 & Heff).
  rewrite <- Hp2 in Hown, Hr. destruct Heff as [Hv|(rc & ic & i' & Hrc & Hic & U & Hu)].
  - apply (IH i); try done. by rewrite Hv.
  - destruct (decide (p_cred r = p_cred rc)) as [Heq|Hne].
    + assert (ic = i) as -> by congruence.
      apply (IH i'); try done; [rewrite Heq; apply U|].
      destruct Hu as [Hz|Hsub]; [|set_solver].
      destruct H0. apply HS. unfold uids. rewrite Hz. set_solver.
    + apply (IH i); try done. rewrite (up_others _ _ _ _ U); done.
Qed.

(** ** Concrete credentials

    Process 2 runs a set-user-id program (real id 100, effective and saved 200)
    and process 3 belongs to the super user; their [ucred]s are shared with a
    third [pcred] each. *)
Section example.
Definition ex_creds (cur : ptr) : kst :=
  mk_kst {[ 2%positive := set_p_cred 10 (ex_proc 2 CURPROC_Q 0 0 None None);
            3%positive := set_p_cred 12 (ex_proc 3 CURPROC_Q 0 0 None None) ]}
    [3; 2]%positive cur 2 ∅ 2 2 0 0 false
    {[ 11%positive := mk_ucred 200 5 (replicate 8 0) 0 2;
       13%positive := mk_ucred 0 0 (replicate 8 0) 0 2 ]}
    {[ 10%positive := mk_pcred 11 100 5 200 5 1;
       14%positive := mk_pcred 11 101 5 200 5 1;
       12%positive := mk_pcred 13 0 0 0 0 1;
       15%positive := mk_pcred 13 0 0 0 0 1 ]} ∅ []
    (mk_tstate [] [] [] ∅ 0 1000).

Lemma ex_creds_ok cur : creds_ok (ex_creds cur).
Proof.
  constructor.
  - intros a c. cbn. rewrite !lookup_insert_Some, lookup_singleton_Some.
    intros H. destruct_cases; subst; cbn; eexists; reflexivity.
  - intros u c. cbn. rewrite lookup_insert_Some, lookup_singleton_Some.
    intros H. destruct_cases; subst; vm_compute; done.
Qed.

Definition ex_ids : ids := mk_ids 100 200 200 5 5 5 (replicate 8 0) 0.

Lemma ex_alloc cur : alloc_ok (Some 20%positive) (ex_creds cur).
Proof. by exists 20%positive. Qed.

Lemma psetuid_spec_witness :
  creds_ok (ex_creds 2) ∧
  ∃ z k', sys_psetuid (Some 20%positive) 100 (ex_creds 2) = Some (z, k') ∧
    z = 100 ∧ creds_ok k' ∧ view k' 10 = Some (become_uid 100 ex_ids) ∧
    ∀ b, b ≠ 10%positive → view k' b = view (ex_creds 2) b.
Proof.
  split; [apply ex_creds_ok|].
  apply (psetuid_spec (Some 20%positive) 100 (ex_creds 2)
    (set_p_cred 10 (ex_proc 2 CURPROC_Q 0 0 None None)) ex_ids);
    [apply ex_creds_ok|reflexivity|reflexivity|apply ex_alloc].
Defined.

Lemma psetreuid_spec_witness :
  creds_ok (ex_creds 2) ∧
  ∃ z k', sys_psetreuid (Some 20%positive) 65535 100 (ex_creds 2) = Some (z, k') ∧
    z = E_OK ∧ creds_ok k' ∧ view k' 10 = Some (reuid 65535 100 ex_ids) ∧
    ∀ b, b ≠ 10%positive → view k' b = view (ex_creds 2) b.
Proof.
  split; [apply ex_creds_ok|].
  apply (psetreuid_spec (Some 20%positive) 65535 100 (ex_creds 2)
    (set_p_cred 10 (ex_proc 2 CURPROC_Q 0 0 None None)) ex_ids);
    [apply ex_creds_ok|reflexivity|reflexivity|apply ex_alloc].
Defined.

Lemma sys_psetgroups_spec_witness :
  creds_ok (ex_creds 3) ∧
  ∃ z k', sys_psetgroups (Some 20%positive) 2 [7; 9] (ex_creds 3) = Some (z, k') ∧
    z = 2 ∧ creds_ok k' ∧
    (∀ b, b ≠ 12%positive → view k' b = view (ex_creds 3) b) ∧
    ∃ i', view k' 12 = Some i' ∧ i_ngroups i' = 2 ∧
      length (i_groups i') = 8%nat ∧ take 2 (i_groups i') = [7; 9] ∧
      set_i_groups [] (set_i_ngroups 0 i') = mk_ids 0 0 0 0 0 0 [] 0.
Proof.
  split; [apply ex_creds_ok|].
  apply (sys_psetgroups_spec (Some 20%positive) 2 [7; 9] (ex_creds 3)
    (set_p_cred 12 (ex_proc 3 CURPROC_Q 0 0 None None))
    (mk_ids 0 0 0 0 0 0 (replicate 8 0) 0));
    [apply ex_creds_ok|reflexivity|reflexivity|apply ex_alloc|reflexivity|cbn; lia].
Defined.

(** Process 2 becomes 100, then tries to become 0. *)
Lemma ex_cred_steps :
  ∃ k', rtc cred_step (ex_creds 2) k' ∧
    view k' 10 = Some (mk_ids 100 100 100 5 5 5 (replicate 8 0) 0).
Proof.
  eexists. split.
  - eapply rtc_l.
    { eapply (step_setuid (Some 20%positive) 100); [apply ex_alloc|].
      vm_compute. reflexivity. }
    eapply rtc_l; [|apply rtc_refl].
    eapply (step_setuid (Some 21%positive) 0); [by exists 21%positive|].
    vm_compute. reflexivity.
  - reflexivity.
Qed.

Lemma no_privilege_gained_witness :
  procs_creds (ex_creds 2) ∧
  ∃ k', rtc cred_step (ex_creds 2) k' ∧
    procs_creds k' ∧ ∃ i', view k' 10 = Some i' ∧ uids i' ⊆ {[100; 200]}.
Proof.
  assert (procs_creds (ex_creds 2)) as Hpc.
  { constructor; [apply ex_creds_ok|by eexists|].
    intros p r. cbn. rewrite lookup_insert_Some, lookup_singleton_Some.
    intros H. destruct_cases; subst; eexists; reflexivity. }
  split; [exact Hpc|]. destruct ex_cred_steps as (k' & Hsteps & _).
  exists k'. split; [exact Hsteps|].
  apply (no_privilege_gained (ex_creds 2) k' 2
    (set_p_cred 10 (ex_proc 2 CURPROC_Q 0 0 None None)) ex_ids {[100; 200]}).
  - exact Hpc.
  - exact Hsteps.
  - intros q r'. cbn. rewrite lookup_insert_Some, lookup_singleton_Some.
    intros H. destruct_cases; subst; done.
  - reflexivity.
  - reflexivity.
  - unfold uids, ex_ids. cbn. set_solver.
  - set_solver.
Defined.
End example.
