(* ===== verification/Resource.v ===== *)
(** * Priorities (sys/k_resource.c)

    [Pgetpriority], [Psetpriority] and the older [Prenice] and [Pnice].  The
    kernel's priorities grow with the share of the processor; the interface uses
    the opposite sign. *)

From S2P Require Import Prelude CInt Errno Timeout Kernel Cred.

Definition PRIO_MIN : Z := -20.
Definition PRIO_MAX : Z := 20.
Definition PRIO_PROCESS : Z := 0.
Definition PRIO_PGRP : Z := 1.
Definition PRIO_USER : Z := 2.

(** [p->p_cred->ucr->euid] *)
Definition euid_of (p : ptr) : M kst Z :=
  a ← cred_of p; c ← getpc a; u ← getuc (ucr c); mret (euid u).
Definition current_euid : M kst Z := c ← mgets curproc; euid_of c.

(** ** [Pgetpriority] *)

(** The loop over the processes: the number of hits and the maximum. *)
Definition max_pri (sel : ptr → proc → M kst bool) : M kst (Z * Z) :=
  l ← mgets proclist;
  fold_procs (λ '(hits, m) p,
    r ← getp p;
    b ← sel p r;
    mret (if b : bool then (hits + 1, if pri r >? m then pri r else m)
          else (hits, m))) (0, PRIO_MIN) l.

Definition in_group (who : Z) (_ : ptr) (r : proc) : M kst bool :=
  mret (pgrp r =? who).
(** An [unsigned short] against a [short]. *)
Definition of_user (who : Z) (p : ptr) (_ : proc) : M kst bool :=
  e ← euid_of p; mret (e =? u16 who).

Definition best_priority (sel : ptr → proc → M kst bool) : M kst Z :=
  '(hits, m) ← max_pri sel;
  mret (if hits >? 0 then - m + PRIO_MAX else ESRCH).

Definition sys_pgetpriority (which who : Z) : M kst Z :=
  if which =? PRIO_PROCESS then
    if who <? 0 then mret EINVAL
    else
      c ← mgets curproc;
      r ← getp c;
      p ← pid2proc (if who =? 0 then pid r else who);
      match p with
      | None => mret ESRCH
      | Some p => r ← getp p; mret (- pri r + PRIO_MAX)
      end
  else if which =? PRIO_PGRP then
    if who <? 0 then mret EINVAL
    else
      c ← mgets curproc;
      r ← getp c;
      best_priority (in_group (if who =? 0 then pgrp r else who))
  else if which =? PRIO_USER then
    if who <? 0 then mret EINVAL
    else
      e ← current_euid;
      best_priority (of_user (if who =? 0 then s16 e else who))
  else mret EINVAL.

(** ** [Psetpriority] *)

(** [p->pri = p->curpri = -pri] *)
Definition set_prio (n : Z) (r : proc) : proc := set_pri (- n) (set_curpri (- n) r).

Definition clamp_prio (n : Z) : Z :=
  if n <? PRIO_MIN then PRIO_MIN else if n >? PRIO_MAX then PRIO_MAX else n.

(** [e && e != p->p_cred->ucr->euid]: the caller does not own the process. *)
Definition not_owner (e e' : Z) : bool := negb (e =? 0) && negb (e =? e').

Definition set_group_step (n who : Z) (v : Z * Z) (p : ptr) : M kst (Z * Z) :=
  let '(hits, ret) := v in
  r ← getp p;
  e ← current_euid;
  e' ← euid_of p;
  let hits := if pgrp r =? who then hits + 1 else hits in
  if not_owner e e' then mret (hits, EACCES)
  else modp p (set_prio n) ;; mret (hits, ret).

Definition set_group (n who : Z) : M kst (Z * Z) :=
  l ← mgets proclist; fold_procs (set_group_step n who) (0, 0) l.

Definition set_user_step (n who hits : Z) (p : ptr) : M kst Z :=
  e ← euid_of p;
  if e =? u16 who then modp p (set_prio n) ;; mret (hits + 1) else mret hits.

Definition set_user (n who : Z) : M kst Z :=
  l ← mgets proclist; fold_procs (set_user_step n who) 0 l.

Definition sys_psetpriority (which who n : Z) : M kst Z :=
  let n := clamp_prio n in
  e ← current_euid;
  if (n <? 0) && negb (e =? 0) then mret EPERM
  else if which =? PRIO_PROCESS then
    if who <? 0 then mret EINVAL
    else
      c ← mgets curproc;
      r ← getp c;
      p ← pid2proc (if who =? 0 then pid r else who);
      match p with
      | None => mret ESRCH
      | Some p =>
          e' ← euid_of p;
          if not_owner e e' then mret EACCES
          else modp p (set_prio n) ;; mret E_OK
      end
  else if which =? PRIO_PGRP then
    if who <? 0 then mret EINVAL
    else
      c ← mgets curproc;
      r ← getp c;
      '(hits, ret) ← set_group n (if who =? 0 then pgrp r else who);
      mret (if hits =? 0 then ESRCH else ret)
  else if which =? PRIO_USER then
    if who <? 0 then mret EINVAL
    else
      let who := if who =? 0 then s16 e else who in
      let ret := if negb (u16 who =? e) then EACCES else 0 in
      hits ← set_user n who;
      mret (if hits =? 0 then ESRCH else ret)
  else mret EINVAL.

(** ** [Prenice] *)

Definition sys_prenice (n delta : Z) : M kst Z :=
  if n <? 0 then mret ESRCH
  else
    q ← sys_pgetpriority PRIO_PROCESS n;
    if q <? 0 then mret q
    else
      let q := q - PRIO_MAX in
      if delta =? 0 then mret (Z.land (- q) 65535)
      else
        let q := q + delta in
        r ← sys_psetpriority PRIO_PROCESS n (s16 q);
        mret (if r <? E_OK then r else Z.land (- q) 65535).

Definition sys_pnice (delta : Z) : M kst Z :=
  c ← mgets curproc; r ← getp c; sys_prenice (pid r) delta.

(** ** Specification *)

(** The effective user id of a process. *)
Definition owner (k : kst) (p : ptr) : option Z :=
  r ← procs k !! p; c ← pcreds k !! p_cred r; u ← ucreds k !! ucr c; Some (euid u).

(** The current process and the listed ones exist, with their credentials. *)
Record owned (k : kst) (e : Z) : Prop := {
  ow_cur : owner k (curproc k) = Some e;
  ow_list : ∀ p, p ∈ proclist k → is_Some (owner k p);
}.

(** The state where the processes of [S] have the priority [- n]. *)
Definition with_prio (n : Z) (S : gset ptr) (k : kst) : kst :=
  set_procs (map_imap (λ p r, Some (if decide (p ∈ S) then set_prio n r else r))
               (procs k)) k.

Lemma owner_inv k p e :
  owner k p = Some e →
  ∃ r c u, procs k !! p = Some r ∧ pcreds k !! p_cred r = Some c ∧
    ucreds k !! ucr c = Some u ∧ e = euid u.
Proof.
  unfold owner. intros (r & Hr & (c & Hc & (u & Hu & [= <-])%bind_Some)%bind_Some)%bind_Some.
  by exists r, c, u.
Qed.

Lemma owner_proc k p e : owner k p = Some e → ∃ r, procs k !! p = Some r.
Proof. intros (r & c & u & Hr & _)%owner_inv. eauto. Qed.

Lemma euid_of_run k p e : owner k p = Some e → euid_of p k = Some (e, k).
Proof.
  intros (r & c & u & Hr & Hc & Hu & ->)%owner_inv. unfold euid_of.
  erewrite bind_run by by apply cred_of_run.
  erewrite bind_run by (by apply (mderef_run (λ k, pcreds k !! p_cred r))).
  by erewrite bind_run by (by apply (mderef_run (λ k, ucreds k !! ucr c))).
Qed.

Lemma current_euid_run k e : owner k (curproc k) = Some e → current_euid k = Some (e, k).
Proof.
  intros He. unfold current_euid. erewrite (bind_run (mgets curproc)) by reflexivity.
  by apply euid_of_run.
Qed.

Lemma with_prio_lookup n S k p :
  procs (with_prio n S k) !! p =
    (λ r, if decide (p ∈ S) then set_prio n r else r) <$> procs k !! p.
Proof. cbn. rewrite map_lookup_imap. by destruct (procs k !! p). Qed.

Lemma with_prio_empty n k : with_prio n ∅ k = k.
Proof.
  transitivity (set_procs (procs k) k); [|by destruct k]. unfold with_prio. f_equal.
  apply map_eq. intros p. rewrite map_lookup_imap.
  destruct (procs k !! p); cbn; [by rewrite decide_False by set_solver|done].
Qed.

Lemma with_prio_step n S k p :
  is_Some (procs k !! p) →
  modp p (set_prio n) (with_prio n S k) = Some (tt, with_prio n ({[p]} ∪ S) k).
Proof.
  intros [r Hr]. unfold modp. rewrite with_prio_lookup, Hr.
  cbn [fmap option_fmap option_map]. do 2 f_equal.
  unfold with_prio.
  refine (f_equal (λ m, set_procs m k) _ : set_procs _ k = set_procs _ k).
  apply map_eq. intros q. cbn.
  rewrite map_lookup_imap. destruct (decide (q = p)) as [->|Hne].
  - rewrite lookup_insert_eq, Hr. cbn. rewrite (decide_True (P := p ∈ {[p]} ∪ S)) by set_solver.
    by case_decide.
  - rewrite lookup_insert_ne, map_lookup_imap by done.
    destruct (procs k !! q); cbn; [|done]. do 2 case_decide; set_solver.
Qed.

Lemma with_prio_owner n S k p : owner (with_prio n S k) p = owner k p.
Proof.
  unfold owner. rewrite with_prio_lookup. cbn. destruct (procs k !! p) as [r|]; [|done].
  cbn. by case_decide.
Qed.

Lemma with_prio_owned n S k e : owned k e → owned (with_prio n S k) e.
Proof.
  intros [Hc Hl]. constructor; cbn; [by rewrite with_prio_owner|].
  intros p Hp. rewrite with_prio_owner. auto.
Qed.

Lemma getp_with_prio n S k p r :
  procs k !! p = Some r →
  getp p (with_prio n S k) =
    Some (if decide (p ∈ S) then set_prio n r else r, with_prio n S k).
Proof. intros Hr. apply getp_run. by rewrite with_prio_lookup, Hr. Qed.

Lemma pgrp_with_prio (P : Prop) (b : {P} + {¬ P}) n r :
  pgrp (if b then set_prio n r else r) = pgrp r.
Proof. by destruct b. Qed.

(** The processes of [l] the caller with effective id [e] owns. *)
Definition owns_proc (k : kst) (e : Z) (p : ptr) : bool :=
  match owner k p with Some e' => negb (not_owner e e') | None => false end.
Definition group_of (k : kst) (p : ptr) : option Z := pgrp <$> procs k !! p.
Definition in_pgrp (k : kst) (who : Z) (p : ptr) : bool :=
  bool_decide (group_of k p = Some who).
Definition user_is (k : kst) (who : Z) (p : ptr) : bool :=
  bool_decide (owner k p = Some who).

Lemma set_group_step_ok k e n who p S hits ret :
  owned k e → p ∈ proclist k →
  set_group_step n who (hits, ret) p (with_prio n S k) =
    Some ((hits + (if in_pgrp k who p then 1 else 0),
           if owns_proc k e p then ret else EACCES),
          with_prio n (if owns_proc k e p then {[p]} ∪ S else S) k).
Proof.
  intros Hown Hp. destruct (ow_list k e Hown p Hp) as [e' He'].
  destruct (owner_proc k p e' He') as [r Hr]. unfold set_group_step.
  erewrite bind_run by by apply getp_with_prio.
  erewrite bind_run
    by (apply current_euid_run; cbn; rewrite with_prio_owner; apply (ow_cur k e Hown)).
  erewrite bind_run by (apply euid_of_run; rewrite with_prio_owner; exact He').
  assert (in_pgrp k who p = (pgrp r =? who)) as ->
    by (unfold in_pgrp, group_of; rewrite Hr; apply bool_decide_Some_Z).
  unfold owns_proc. rewrite pgrp_with_prio, He'.
  assert ((if pgrp r =? who then hits + 1 else hits) =
    hits + (if pgrp r =? who then 1 else 0)) as -> by (case_bool; lia).
  destruct (not_owner e e'); [done|].
  erewrite bind_run by (apply with_prio_step; eauto). done.
Qed.

Lemma filter_length_cons (f : ptr → bool) p l :
  Z.of_nat (length (filter (λ p, f p) (p :: l))) =
    (if f p then 1 else 0) + Z.of_nat (length (filter (λ p, f p) l)).
Proof.
  rewrite filter_cons. destruct (f p);
    [rewrite decide_True by done|rewrite decide_False by naive_solver]; cbn; lia.
Qed.

Lemma count_zero (f : ptr → bool) l :
  (0 + Z.of_nat (length (filter (λ p, f p) l)) =? 0) = negb (bool_decide (Exists f l)).
Proof.
  case_bool_decide as He; cbn [negb].
  - apply Z.eqb_neq. apply Exists_exists in He as (p & Hp & Hf).
    assert (p ∈ filter (λ p, f p) l) as Hin by (by apply list_elem_of_filter).
    apply list_elem_of_split in Hin as (l1 & l2 & ->). rewrite length_app. cbn. lia.
  - apply Z.eqb_eq. rewrite filter_none; [done|]. by apply Forall_Exists_neg.
Qed.

Lemma filter_set_cons (f : ptr → bool) p l (S : gset ptr) :
  list_to_set (filter (λ p, f p) l) ∪ (if f p then {[p]} ∪ S else S) =
  list_to_set (filter (λ p, f p) (p :: l)) ∪ S.
Proof.
  rewrite filter_cons. destruct (f p);
    [rewrite decide_True by done|rewrite decide_False by naive_solver]; set_solver.
Qed.

Lemma set_group_loop k e n who l : ∀ S hits ret,
  owned k e → l ⊆ proclist k →
  fold_procs (set_group_step n who) (hits, ret) l (with_prio n S k) =
    Some ((hits + Z.of_nat (length (filter (λ p, in_pgrp k who p) l)),
           if forallb (owns_proc k e) l then ret else EACCES),
          with_prio n (list_to_set (filter (λ p, owns_proc k e p) l) ∪ S) k).
Proof.
  induction l as [|p l IH]; intros S hits ret Hown Hl.
  { cbn. rewrite union_empty_l_L, Z.add_0_r. done. }
  change (fold_procs (set_group_step n who) (hits, ret) (p :: l)) with
    (set_group_step n who (hits, ret) p ≫= λ a, fold_procs (set_group_step n who) a l).
  erewrite bind_run by (apply set_group_step_ok; [done|set_solver]).
  rewrite IH by (done || set_solver).
  rewrite filter_length_cons, filter_set_cons, Z.add_assoc. cbn [forallb].
  by destruct (owns_proc k e p), (forallb (owns_proc k e) l).
Qed.

(** What [Psetpriority (PRIO_PGRP, ...)] does: every process that the caller
    owns gets the priority, whatever its process group; the group only decides
    between [ESRCH] and the other results.  (The interface promises to change
    the processes of the group.) *)
Theorem psetpriority_group k e who n :
  owned k e → 0 < who → PRIO_MIN ≤ n ≤ PRIO_MAX → (0 ≤ n ∨ e = 0) →
  is_Some (procs k !! curproc k) →
  sys_psetpriority PRIO_PGRP who n k =
    Some (if bool_decide (Exists (in_pgrp k who) (proclist k))
          then if forallb (owns_proc k e) (proclist k) then 0 else EACCES
          else ESRCH,
          with_prio n (list_to_set (filter (owns_proc k e) (proclist k))) k).
Proof.
  intros Hown Hwho Hn Hpriv [rc Hrc]. unfold sys_psetpriority.
  assert (clamp_prio n = n) as ->.
  { unfold clamp_prio. rewrite Z.gtb_ltb. repeat case_bool; bool_to_prop; lia. }
  erewrite bind_run by (apply current_euid_run, Hown).
  replace ((n <? 0) && negb (e =? 0)) with false
    by (symmetry; apply andb_false_iff; rewrite negb_false_iff; lia).
  change (PRIO_PGRP =? PRIO_PROCESS) with false.
  change (PRIO_PGRP =? PRIO_PGRP) with true.
  replace (who <? 0) with false by lia. replace (who =? 0) with false by lia.
  cbv beta iota.
  erewrite (bind_run (mgets curproc)) by reflexivity.
  erewrite bind_run by by apply getp_run.
  unfold set_group. rewrite bind_assoc.
  erewrite (bind_run (mgets proclist)) by reflexivity.
  pose proof (set_group_loop k e n who (proclist k) ∅ 0 0 Hown ltac:(done)) as Hrun.
  rewrite with_prio_empty in Hrun. erewrite bind_run by exact Hrun.
  cbv beta iota. rewrite ret_run, union_empty_r_L. do 3 f_equal.
  rewrite count_zero. by case_bool_decide.
Qed.

Lemma set_user_step_ok k e n who p S hits :
  owned k e → p ∈ proclist k →
  set_user_step n who hits p (with_prio n S k) =
    Some (hits + (if user_is k (u16 who) p then 1 else 0),
          with_prio n (if user_is k (u16 who) p then {[p]} ∪ S else S) k).
Proof.
  intros Hown Hp. destruct (ow_list k e Hown p Hp) as [e' He'].
  destruct (owner_proc k p e' He') as [r Hr]. unfold set_user_step.
  erewrite bind_run by (apply euid_of_run; rewrite with_prio_owner; exact He').
  assert (user_is k (u16 who) p = (e' =? u16 who)) as ->
    by (unfold user_is; rewrite He'; apply bool_decide_Some_Z).
  destruct (e' =? u16 who); [|by rewrite Z.add_0_r].
  erewrite bind_run by (apply with_prio_step; eauto). done.
Qed.

Lemma set_user_loop k e n who l : ∀ S hits,
  owned k e → l ⊆ proclist k →
  fold_procs (set_user_step n who) hits l (with_prio n S k) =
    Some (hits + Z.of_nat (length (filter (λ p, user_is k (u16 who) p) l)),
          with_prio n (list_to_set (filter (λ p, user_is k (u16 who) p) l) ∪ S) k).
Proof.
  induction l as [|p l IH]; intros S hits Hown Hl.
  { cbn. rewrite union_empty_l_L, Z.add_0_r. done. }
  change (fold_procs (set_user_step n who) hits (p :: l)) with
    (set_user_step n who hits p ≫= λ a, fold_procs (set_user_step n who) a l).
  erewrite bind_run by (eapply set_user_step_ok; [done|set_solver]).
  rewrite IH by (done || set_solver).
  by rewrite filter_length_cons, filter_set_cons, Z.add_assoc.
Qed.

Lemma clamp_prio_id n : PRIO_MIN ≤ n ≤ PRIO_MAX → clamp_prio n = n.
Proof. unfold clamp_prio. intros. rewrite Z.gtb_ltb. repeat case_bool; bool_to_prop; lia. Qed.

Lemma priv_test n e : 0 ≤ n ∨ e = 0 → (n <? 0) && negb (e =? 0) = false.
Proof. intros. apply andb_false_iff. rewrite negb_false_iff. lia. Qed.

(** What [Psetpriority (PRIO_USER, ...)] does: every process of the given
    user gets the priority, whoever the caller is; a caller who is not that user
    (the super user included) is told [EACCES] although the priorities did
    change. *)
Theorem psetpriority_user k e who n :
  owned k e → 0 < who < 32768 → PRIO_MIN ≤ n ≤ PRIO_MAX → (0 ≤ n ∨ e = 0) →
  sys_psetpriority PRIO_USER who n k =
    Some (if bool_decide (Exists (user_is k who) (proclist k))
          then if who =? e then 0 else EACCES
          else ESRCH,
          with_prio n (list_to_set (filter (user_is k who) (proclist k))) k).
Proof.
  intros Hown Hwho Hn Hpriv. unfold sys_psetpriority. rewrite clamp_prio_id by done.
  erewrite bind_run by (apply current_euid_run, Hown). rewrite priv_test by done.
  change (PRIO_USER =? PRIO_PROCESS) with false.
  change (PRIO_USER =? PRIO_PGRP) with false.
  change (PRIO_USER =? PRIO_USER) with true.
  replace (who <? 0) with false by lia. replace (who =? 0) with false by lia.
  cbv beta iota. rewrite u16_id by lia.
  unfold set_user. rewrite bind_assoc.
  erewrite (bind_run (mgets proclist)) by reflexivity.
  pose proof (set_user_loop k e n who (proclist k) ∅ 0 Hown ltac:(done)) as Hrun.
  rewrite with_prio_empty in Hrun. erewrite bind_run by exact Hrun.
  rewrite u16_id, ret_run, union_empty_r_L by lia. do 3 f_equal.
  rewrite count_zero. by case_bool_decide; destruct (who =? e).
Qed.

(** [p] is the process [pid2proc] finds for [n]. *)
Definition finds (k : kst) (n : Z) (p : ptr) : Prop :=
  pid2proc n k = Some (Some p, k).

Lemma clamp_prio_range n : PRIO_MIN ≤ clamp_prio n ≤ PRIO_MAX.
Proof.
  unfold clamp_prio, PRIO_MIN, PRIO_MAX. rewrite Z.gtb_ltb.
  repeat case_bool; bool_to_prop; lia.
Qed.

Lemma getpriority_process k n p rc r :
  procs k !! curproc k = Some rc → 0 < n → finds k n p → procs k !! p = Some r →
  sys_pgetpriority PRIO_PROCESS n k = Some (- pri r + PRIO_MAX, k).
Proof.
  intros Hrc Hn Hf Hr. unfold sys_pgetpriority.
  change (PRIO_PROCESS =? PRIO_PROCESS) with true.
  replace (n <? 0) with false by lia. replace (n =? 0) with false by lia.
  cbv beta iota. erewrite (bind_run (mgets curproc)) by reflexivity.
  erewrite bind_run by by apply getp_run. erewrite bind_run by exact Hf.
  cbv beta iota. by erewrite bind_run by by apply getp_run.
Qed.

Lemma setpriority_process k e n p q :
  owned k e → 0 < n → finds k n p → p ∈ proclist k →
  is_Some (procs k !! curproc k) →
  sys_psetpriority PRIO_PROCESS n q k =
    if (clamp_prio q <? 0) && negb (e =? 0) then Some (EPERM, k)
    else if owns_proc k e p then Some (E_OK, with_prio (clamp_prio q) {[p]} k)
    else Some (EACCES, k).
Proof.
  intros Hown Hn Hf Hp [rc Hrc]. unfold sys_psetpriority.
  erewrite bind_run by (apply current_euid_run, Hown).
  destruct (_ && _); [done|]. change (PRIO_PROCESS =? PRIO_PROCESS) with true.
  replace (n <? 0) with false by lia. replace (n =? 0) with false by lia.
  cbv beta iota. erewrite (bind_run (mgets curproc)) by reflexivity.
  erewrite bind_run by by apply getp_run. erewrite bind_run by exact Hf. cbv beta iota.
  destruct (ow_list k e Hown p Hp) as [e' He'].
  erewrite bind_run by by apply euid_of_run. unfold owns_proc. rewrite He'.
  destruct (not_owner e e'); [done|]. cbn [negb].
  destruct (owner_proc k p e' He') as [r Hr].
  pose proof (with_prio_step (clamp_prio q) ∅ k p ltac:(eauto)) as Hrun.
  rewrite with_prio_empty, union_empty_r_L in Hrun. by erewrite bind_run by exact Hrun.
Qed.

(** [Prenice] changes the priority of the process by [- delta], kept in the
    range of priorities - but it returns the priority that was asked for, not
    the one that was set - and reports the errors of [Psetpriority] unchanged. *)
Theorem prenice_spec k e n p rc r delta :
  owned k e → procs k !! curproc k = Some rc → 0 < n → finds k n p →
  p ∈ proclist k → procs k !! p = Some r →
  MIN_NICE ≤ pri r ≤ MAX_NICE → -32000 ≤ delta ≤ 32000 → delta ≠ 0 →
  let q := delta - pri r in
  sys_prenice n delta k =
    if (clamp_prio q <? 0) && negb (e =? 0) then Some (EPERM, k)
    else if owns_proc k e p
    then Some (u16 (pri r - delta), with_prio (clamp_prio q) {[p]} k)
    else Some (EACCES, k).
Proof.
  intros Hown Hrc Hn Hf Hp Hr Hpri Hd Hd0 q. unfold MIN_NICE, MAX_NICE in Hpri.
  unfold sys_prenice. replace (n <? 0) with false by lia.
  erewrite bind_run by by eapply getpriority_process.
  replace (- pri r + PRIO_MAX <? 0) with false by (unfold PRIO_MAX; lia).
  replace (delta =? 0) with false by lia. cbv beta iota zeta.
  replace (- pri r + PRIO_MAX - PRIO_MAX + delta) with q by (unfold q, PRIO_MAX; lia).
  rewrite s16_id by lia.
  pose proof (setpriority_process k e n p q Hown Hn Hf Hp ltac:(eauto)) as Hset.
  assert (∀ z, Z.land z 65535 = u16 z) as Hland
    by (intros; change 65535 with (Z.ones 16); rewrite Z.land_ones by lia; done).
  destruct (_ && _); [by erewrite bind_run by exact Hset|].
  destruct (owns_proc k e p); erewrite bind_run by exact Hset; [|done].
  rewrite ret_run, Hland. cbn. do 3 f_equal. unfold q. lia.
Qed.

(** ** A concrete process table

    The processes of [ex_creds]: pid 2 belongs to user 200 and pid 3 to the super
    user; pid 2 is the current process. *)
Section example.
Lemma ex_owned : owned (ex_creds 2) 200.
Proof.
  constructor; [reflexivity|]. cbn. intros p [->|[->|[]%elem_of_nil]%elem_of_cons]%elem_of_cons;
    eexists; reflexivity.
Qed.

(** Pid 2 asks for group 3, which it does not own: its own priority, in group 2,
    changes. *)
Lemma psetpriority_group_witness :
  owned (ex_creds 2) 200 ∧
  sys_psetpriority PRIO_PGRP 3 5 (ex_creds 2) =
    Some (EACCES, with_prio 5 {[2%positive]} (ex_creds 2)).
Proof.
  split; [exact ex_owned|].
  apply (psetpriority_group (ex_creds 2) 200 3 5 ex_owned); [lia|unfold PRIO_MIN, PRIO_MAX; lia|lia|].
  by eexists.
Defined.

Lemma psetpriority_user_witness :
  owned (ex_creds 3) 0 ∧
  sys_psetpriority PRIO_USER 200 5 (ex_creds 3) =
    Some (EACCES, with_prio 5 {[2%positive]} (ex_creds 3)).
Proof.
  assert (owned (ex_creds 3) 0) as Hown.
  { constructor; [reflexivity|]. apply ex_owned. }
  split; [exact Hown|].
  apply (psetpriority_user (ex_creds 3) 0 200 5 Hown);
    [lia|unfold PRIO_MIN, PRIO_MAX; lia|lia].
Defined.

Lemma prenice_spec_witness :
  owned (ex_creds 2) 200 ∧
  sys_prenice 2 30 (ex_creds 2) = Some (65506, with_prio 20 {[2%positive]} (ex_creds 2)).
Proof.
  split; [exact ex_owned|].
  apply (prenice_spec (ex_creds 2) 200 2 2
    (set_p_cred 10 (ex_proc 2 CURPROC_Q 0 0 None None))
    (set_p_cred 10 (ex_proc 2 CURPROC_Q 0 0 None None)) 30 ex_owned);
    [reflexivity|lia|reflexivity|cbn; set_solver|reflexivity|
     unfold MIN_NICE, MAX_NICE; cbn; lia|lia|lia].
Defined.
End example.
