(* ===== verification/Memory.v ===== *)
(** * Memory regions (sys/memory.c)

    A memory map ([core], [alt]) is a list of region descriptors in the order of
    their addresses.  A region is free when no link refers to it.  Descriptors
    come from [kmr_get]; [kmr] is the set of those in use.  The effects outside
    the maps - page protections and the copies of memory contents - are recorded
    in [effects]. *)

From stdpp Require Import sorting.
From S2P Require Import Prelude CInt Errno.

Definition QUANTUM : Z := 8192.
Definition MASKBITS : Z := QUANTUM - 1.
(** [ROUND(size)] on an [unsigned long]. *)
Definition ROUND (size : Z) : Z := Z.land (u32 (size + MASKBITS)) (not32 MASKBITS).

Definition M_CORE : Z := 1.
Definition M_ALT : Z := 2.
Definition M_KER : Z := 8.
Definition M_MAP : Z := 15.
Definition M_FSAVED : Z := 64.
Definition M_KEEP : Z := 256.
Definition M_SEEN : Z := 32768.
Definition PROT_P : Z := 0.
Definition PROT_G : Z := 1.
Definition PROT_S : Z := 2.
Definition PROT_I : Z := 4.
Definition PROT_PROTMODE : Z := 15.
Definition NUM_REGIONS : nat := 64.

(** [MEMREGION]; [r_save] is an address, or the text size in the region that
    holds saved contents. *)
Record region := mk_region {
  r_addr : ptr;
  r_loc : Z;
  r_len : Z;
  r_links : Z;
  r_flags : Z;
  r_save : Z;
  r_shadow : option ptr
}.

Definition region_eta (r : region) : region :=
  mk_region
    (r_addr r) (r_loc r) (r_len r) (r_links r) (r_flags r) (r_save r)
    (r_shadow r).
Definition set_r_addr : ptr → region → region :=
  ltac:(build_setter region_eta r_addr).
Definition set_r_loc : Z → region → region :=
  ltac:(build_setter region_eta r_loc).
Definition set_r_len : Z → region → region :=
  ltac:(build_setter region_eta r_len).
Definition set_r_links : Z → region → region :=
  ltac:(build_setter region_eta r_links).
Definition set_r_flags : Z → region → region :=
  ltac:(build_setter region_eta r_flags).
Definition set_r_save : Z → region → region :=
  ltac:(build_setter region_eta r_save).
Definition set_r_shadow : option ptr → region → region :=
  ltac:(build_setter region_eta r_shadow).

(** [ISFREE(m)] *)
Definition ISFREE (m : region) : bool := r_links m =? 0.
(** [m->loc + m->len] *)
Definition r_end (m : region) : Z := u32 (r_loc m + r_len m).

(** Effects on page protections and memory contents. *)
Inductive effect :=
  | Mark (loc len mode cmode : Z)
  | MarkProc (p : ptr) (loc len mode : Z)
  | ProtTemp (loc len mode : Z)
  | Move (dst src len : Z).

(** [struct memspace]: the regions attached to a process and their addresses. *)
Record memspace := mk_memspace { ms_mem : list (option ptr); ms_addr : list Z }.

Record mstate := mk_mstate {
  core : list region;
  alt : list region;
  kmr : gset ptr;
  spaces : gmap ptr memspace;
  effects : list effect
}.

Definition mstate_eta (r : mstate) : mstate :=
  mk_mstate
    (core r) (alt r) (kmr r) (spaces r) (effects r).
Definition set_core : list region → mstate → mstate :=
  ltac:(build_setter mstate_eta core).
Definition set_alt : list region → mstate → mstate :=
  ltac:(build_setter mstate_eta alt).
Definition set_kmr : gset ptr → mstate → mstate :=
  ltac:(build_setter mstate_eta kmr).
Definition set_spaces : gmap ptr memspace → mstate → mstate :=
  ltac:(build_setter mstate_eta spaces).
Definition set_effects : list effect → mstate → mstate :=
  ltac:(build_setter mstate_eta effects).

(** [MMAP] *)
Inductive mmap := Core | Alt.
#[export] Instance mmap_eq_dec : EqDecision mmap.
Proof. solve_decision. Defined.

Definition getmap (w : mmap) (s : mstate) : list region :=
  match w with Core => core s | Alt => alt s end.
Definition putmap (w : mmap) (l : list region) (s : mstate) : mstate :=
  match w with Core => set_core l s | Alt => set_alt l s end.

Definition emit (e : effect) : M mstate unit :=
  mmod (λ s, set_effects (effects s ++ [e]) s).
Definition mark_region (r : region) (mode cmode : Z) : M mstate unit :=
  emit (Mark (r_loc r) (r_len r) mode cmode).

(** The region at [a], and an update of it. *)
Definition find_region (a : ptr) (s : mstate) : option region :=
  list_find (λ r, r_addr r = a) (core s ++ alt s) ≫= λ x, Some x.2.
Definition upd (a : ptr) (f : region → region) (l : list region) : list region :=
  (λ r, if decide (r_addr r = a) then f r else r) <$> l.
Definition getr (a : ptr) : M mstate region := mderef (find_region a).
Definition modr (a : ptr) (f : region → region) : M mstate unit :=
  getr a ;; mmod (λ s, set_core (upd a f (core s)) (set_alt (upd a f (alt s)) s)).

(** ** Descriptors *)

(** [mem] is the answer of [kmr_get]: a new descriptor, all zero. *)
Definition kmr_get (mem : option ptr) : M mstate (option ptr) :=
  match mem with
  | Some a => mmod (λ s, set_kmr ({[a]} ∪ kmr s) s) ;; mret (Some a)
  | None => mret None
  end.
(** Freeing a descriptor that is not in use is a panic. *)
Definition kmr_free (a : ptr) : M mstate unit := λ s,
  if decide (a ∈ kmr s) then Some (tt, set_kmr (kmr s ∖ {[a]}) s) else None.
Definition kmr_free_opt (m : option ptr) : M mstate unit :=
  match m with Some a => kmr_free a | None => mret tt end.

(** ** Allocation *)

(** The first (the last) region of [l] that satisfies [f], and its surroundings. *)
Fixpoint find_first (f : region → bool) (l : list region) :
    option (list region * region * list region) :=
  match l with
  | [] => None
  | n :: l =>
      if f n then Some ([], n, l)
      else '(b, x, e) ← find_first f l; Some (n :: b, x, e)
  end.
Fixpoint find_last (f : region → bool) (l : list region) :
    option (list region * region * list region) :=
  match l with
  | [] => None
  | n :: l =>
      match find_last f l with
      | Some (b, x, e) => Some (n :: b, x, e)
      | None => if f n then Some ([], n, l) else None
      end
  end.

(** The label [win]. *)
Definition win (w : mmap) (b : list region) (n : region) (e : list region)
    (mode cmode : Z) : M mstate (option ptr) :=
  let n := set_r_links (r_links n + 1) n in
  mark_region n (Z.land mode PROT_PROTMODE) cmode ;;
  let n := if negb (Z.land mode M_KEEP =? 0)
           then set_r_flags (Z.lor (r_flags n) M_KEEP) n else n in
  mmod (putmap w (b ++ n :: e)) ;;
  mret (Some (r_addr n)).

Definition fits (size : Z) (n : region) : bool := ISFREE n && (r_len n >=? size).

(** The size that is allocated for a request. *)
Definition region_size (s : Z) : Z := if ROUND s =? 0 then ROUND 1 else ROUND s.

(** [_get_region] *)
Definition get_region_with (w : mmap) (s mode cmode : Z) (m : option ptr)
    (kernel_flag : bool) : M mstate (option ptr) :=
  let size := region_size s in
  massert (negb kernel_flag || bool_decide (m ≠ None)) ;;
  l ← mgets (getmap w);
  if kernel_flag && bool_decide (w ≠ Core) then
    match find_last (fits size) l with
    | None => mret None
    | Some (b, k, e) =>
        if r_len k =? size then kmr_free_opt m ;; win w b k e mode cmode
        else
          match m with
          | None => mpanic
          | Some a =>
              let k' := set_r_len (r_len k - size) k in
              let n := mk_region a (u32 (r_loc k + r_len k')) size 0
                         (Z.land (r_flags k) M_MAP) 0 None in
              win w (b ++ [k']) n e mode cmode
          end
    end
  else
    match find_first (fits size) l with
    | None => mret None
    | Some (b, n, e) =>
        if r_len n =? size then kmr_free_opt m ;; win w b n e mode cmode
        else
          match m with
          | None => mret None
          | Some a =>
              let m := mk_region a (u32 (r_loc n + size)) (r_len n - size) 0
                         (Z.land (r_flags n) M_MAP) 0 None in
              let n := set_r_len size n in
              massert (r_end n =? r_loc m) ;;
              win w b n (m :: e) mode cmode
          end
    end.

Definition get_region (mem : option ptr) (w : mmap) (size mode : Z) :
    M mstate (option ptr) :=
  m ← kmr_get mem;
  match m with
  | None => mret None
  | Some a =>
      n ← get_region_with w size mode 0 (Some a) false;
      match n with
      | None => kmr_free a ;; mret None
      | Some n => mret (Some n)
      end
  end.

(** ** Release *)

(** The label [merge_after], for the region [reg] before [e]; the second
    component is the descriptors to free. *)
Definition merge_after (reg : region) (e : list region) : list region * list ptr :=
  match e with
  | m :: e' =>
      if ISFREE m && (r_end reg =? r_loc m)
      then (set_r_len (u32 (r_len reg + r_len m)) reg :: e', [r_addr m])
      else (reg :: e, [])
  | [] => ([reg], [])
  end.

(** The map [b ++ reg :: e] after [reg] was freed. *)
Definition release (b : list region) (reg : region) (e : list region) :
    list region * list ptr :=
  match last b with
  | None =>
      if r_len reg =? 0 then (e, [r_addr reg]) else merge_after reg e
  | Some m =>
      let b' := removelast b in
      if r_len reg =? 0 then
        if ISFREE m then
          let '(l, d) := merge_after m e in (b' ++ l, r_addr reg :: d)
        else (b ++ e, [r_addr reg])
      else if ISFREE m && (r_end m =? r_loc reg) then
        let '(l, d) := merge_after (set_r_len (u32 (r_len m + r_len reg)) m) e in
        (b' ++ l, r_addr reg :: d)
      else
        let '(l, d) := merge_after reg e in (b ++ l, d)
  end.

Fixpoint kmr_free_all (l : list ptr) : M mstate unit :=
  match l with [] => mret tt | a :: l => kmr_free a ;; kmr_free_all l end.

(** The map of a region, by its flags. *)
Definition map_of (flags : Z) : option mmap :=
  if negb (Z.land flags M_CORE =? 0) then Some Core
  else if negb (Z.land flags M_ALT =? 0) then Some Alt else None.

(** [free_region] from the choice of the map on. *)
Definition free_to_map (a : ptr) : M mstate unit :=
  reg ← getr a;
  match map_of (r_flags reg) with
  | None => mpanic
  | Some w =>
      modr a (λ r, set_r_flags (Z.land (r_flags r) M_MAP) r) ;;
      reg ← getr a;
      mark_region reg PROT_I 0 ;;
      l ← mgets (getmap w);
      match find_first (λ r, bool_decide (r_addr r = a)) l with
      | None => mpanic
      | Some (b, reg, e) =>
          let '(l, d) := release b reg e in
          mmod (putmap w l) ;; kmr_free_all d
      end
  end.

(** ** Shadow regions of forked processes *)

Definition to_ptr (z : Z) : option ptr :=
  match z with Zpos a => Some a | _ => None end.
Definition deref (z : Z) : M mstate ptr :=
  match to_ptr z with Some a => mret a | None => mpanic end.

(** The region after [a] in its map. *)
Definition next_of (a : ptr) (s : mstate) : option ptr :=
  let succ l := match find_first (λ r, bool_decide (r_addr r = a)) l with
                | Some (_, _, m :: _) => Some (r_addr m)
                | _ => None
                end in
  match succ (core s) with Some m => Some m | None => succ (alt s) end.
(** Remove the descriptor [a] from its map. *)
Definition drop_region (a : ptr) : M mstate unit :=
  mmod (λ s, set_core (filter (λ r, r_addr r ≠ a) (core s))
               (set_alt (filter (λ r, r_addr r ≠ a) (alt s)) s)).

(** The member of the ring whose [shadow] is [reg]. *)
Fixpoint ring_before (fuel : nat) (reg x : ptr) : M mstate ptr :=
  match fuel with
  | O => mpanic
  | S fuel =>
      r ← getr x;
      if decide (r_shadow r = Some reg) then mret x
      else match r_shadow r with
           | Some y => ring_before fuel reg y
           | None => mpanic
           end
  end.

(** Copy the contents of [save] back to [reg], but for a shared text. *)
Definition restore_contents (reg save : region) : M mstate unit :=
  let txtsize := r_save save in
  if txtsize =? 0 then emit (Move (r_loc reg) (r_loc save) (r_len reg))
  else
    emit (Move (r_loc reg) (r_loc save) 256) ;;
    emit (Move (r_loc reg + (txtsize + 256)) (r_loc save + 256)
            (r_len reg - (txtsize + 256))).

(** The save region to free for [reg], whose shadow is [sh]; [prot_hold] is the
    answer of [prot_temp]. *)
Definition active_save (prot_hold : Z) (reg : region) (sh : ptr) : M mstate ptr :=
  if r_save reg =? 0 then
    shdw ← getr sh;
    massert (negb (r_save shdw =? 0)) ;;
    sv ← deref (r_save shdw);
    save ← getr sv;
    emit (ProtTemp (r_loc reg) (r_len reg) (-1)) ;;
    massert (prot_hold <? 0) ;;
    restore_contents reg save ;;
    modr sh (set_r_save 0) ;;
    mwhen (negb (prot_hold =? -1)) (emit (ProtTemp (r_loc reg) (r_len reg) prot_hold)) ;;
    mret sv
  else deref (r_save reg).

Definition not_saved (r : region) : bool := Z.land (r_flags r) M_FSAVED =? 0.

Definition free_region (prot_hold : Z) (a : ptr) : M mstate unit :=
  reg ← getr a;
  massert (ISFREE reg) ;;
  massert (not_saved reg) ;;
  match r_shadow reg with
  | None => free_to_map a
  | Some sh =>
      save ← active_save prot_hold reg sh;
      modr a (set_r_save 0) ;;
      n ← mgets (λ s, length (core s ++ alt s));
      x ← ring_before n a sh;
      reg ← getr a;
      modr x (set_r_shadow (if decide (r_shadow reg = Some x) then None
                            else r_shadow reg)) ;;
      modr a (set_r_shadow None) ;;
      nx ← mgets (next_of x);
      (if decide (nx = Some a) then drop_region a ;; kmr_free a
       else modr a (set_r_len 0) ;; free_to_map a) ;;
      modr save (λ r, set_r_flags (Z.land (r_flags r) (not16 M_FSAVED)) r) ;;
      modr save (set_r_save 0) ;;
      modr save (λ r, set_r_links (r_links r - 1) r) ;;
      sv ← getr save;
      massert (ISFREE sv) ;;
      free_to_map save
  end.

(** ** The regions of a process *)

Definition mark_proc_region (p : ptr) (r : region) (mode : Z) : M mstate unit :=
  emit (MarkProc p (r_loc r) (r_len r) mode).

Definition get_space (p : ptr) : M mstate (option memspace) := mgets (λ s, spaces s !! p).
Definition put_space (p : ptr) (ms : memspace) : M mstate unit :=
  mmod (λ s, set_spaces (<[p := ms]> (spaces s)) s).

(** [increase_mem]; [mem] tells whether [kmalloc] succeeds. *)
Definition increase_mem (mem : bool) (ms : memspace) : option memspace :=
  if mem then Some (mk_memspace (ms_mem ms ++ replicate NUM_REGIONS None)
                      (ms_addr ms ++ replicate NUM_REGIONS 0))
  else None.

(** The first free slot. *)
Definition free_index (ms : memspace) : option nat :=
  fst <$> list_find (λ x : option ptr, x = None) (ms_mem ms).

Definition attach_at (p a : ptr) (ms : memspace) (i : nat) : M mstate Z :=
  massert (bool_decide (ms_addr ms !! i = Some 0)) ;;
  reg ← getr a;
  put_space p (mk_memspace (<[i := Some a]> (ms_mem ms))
                 (<[i := r_loc reg]> (ms_addr ms))) ;;
  modr a (λ r, set_r_links (r_links r + 1) r) ;;
  reg ← getr a;
  mark_proc_region p reg PROT_P ;;
  mret (r_loc reg).

Definition attach_region (mem : bool) (p a : ptr) : M mstate Z :=
  reg ← getr a;
  if r_loc reg =? 0 then mret 0
  else
    ms ← get_space p;
    match ms with
    | None => mret 0
    | Some ms =>
        match free_index ms with
        | Some i => attach_at p a ms i
        | None =>
            match increase_mem mem ms with
            | None => mret 0
            | Some ms' =>
                put_space p ms' ;;
                match free_index ms' with
                | Some i => attach_at p a ms' i
                | None => mpanic
                end
            end
        end
    end.

Definition unref_memreg (prot_hold : Z) (p a : ptr) : M mstate unit :=
  modr a (λ r, set_r_links (r_links r - 1) r) ;;
  reg ← getr a;
  if r_links reg =? 0 then free_region prot_hold a
  else mark_proc_region p reg PROT_I.

(** The last index that satisfies [f]. *)
Definition last_index {A} (f : A → Prop) `{∀ x, Decision (f x)} (l : list A) : option nat :=
  (λ x, (length l - S x.1)%nat) <$> list_find f (reverse l).

Definition detach_slot (prot_hold : Z) (p : ptr) (ms : memspace) (i : nat) (a : ptr) :
    M mstate unit :=
  put_space p (mk_memspace (<[i := None]> (ms_mem ms)) (<[i := 0]> (ms_addr ms))) ;;
  unref_memreg prot_hold p a.

Definition detach_region (prot_hold : Z) (p a : ptr) : M mstate unit :=
  reg ← getr a;
  ms ← get_space p;
  if r_loc reg =? 0 then mret tt
  else
    match ms with
    | None => mret tt
    | Some ms =>
        match last_index (λ x, x = Some a) (ms_mem ms) with
        | Some i => detach_slot prot_hold p ms i a
        | None => mret tt
        end
    end.

Definition detach_region_by_addr (prot_hold : Z) (p : ptr) (block : Z) : M mstate Z :=
  ms ← get_space p;
  match ms with
  | None => mret EBADARG
  | Some ms =>
      match last_index (λ x, x = block) (ms_addr ms) with
      | Some i =>
          match ms_mem ms !! i with
          | Some (Some m) =>
              r ← getr m;
              massert (r_loc r =? block) ;;
              detach_slot prot_hold p ms i m ;;
              mret 0
          | _ => mpanic
          end
      | None => mret EBADARG
      end
  end.

Definition alloc_region (mem : option ptr) (grow : bool) (prot_hold : Z) (p : ptr)
    (w : mmap) (size mode : Z) : M mstate Z :=
  if size =? 0 then mret 0
  else
    m ← get_region mem w size mode;
    match m with
    | None => mret 0
    | Some m =>
        r ← getr m;
        massert (Z.land (r_loc r) MASKBITS =? 0) ;;
        v ← attach_region grow p m;
        modr m (λ r, set_r_links (r_links r - 1) r) ;;
        if v =? 0 then
          modr m (λ r, set_r_links (r_links r - 1) r) ;;
          free_region prot_hold m ;;
          mret 0
        else mret v
    end.

(** ** Shrinking *)

Definition shrink_region (mem : option ptr) (prot_hold : Z) (curproc a : ptr)
    (nsize : Z) : M mstate Z :=
  let newsize := ROUND nsize in
  reg ← getr a;
  massert (r_links reg >? 0) ;;
  massert (negb (Z.land (r_flags reg) (Z.lor M_CORE (Z.lor M_ALT M_KER)) =? 0)) ;;
  if newsize =? 0 then detach_region prot_hold curproc a ;; mret 0
  else if newsize =? r_len reg then mret 0
  else if newsize >? r_len reg then mret ESBLOCK
  else if decide (r_shadow reg ≠ None) then mret EACCES
  else
    match map_of (r_flags reg) with
    | None => mpanic
    | Some w =>
        l ← mgets (getmap w);
        match find_first (λ r, bool_decide (r_addr r = a)) l with
        | None => mpanic
        | Some (b, reg, e) =>
            let diff := r_len reg - newsize in
            let reg' := set_r_len newsize reg in
            let new (m : option ptr) :=
              match m with
              | None => mret EINTERNAL
              | Some m =>
                  let n := mk_region m (u32 (r_loc reg + newsize)) diff 0
                             (Z.land (r_flags reg) M_MAP) 0 None in
                  mmod (putmap w (b ++ reg' :: n :: e)) ;;
                  mark_region n PROT_I 0 ;;
                  mret 0
              end in
            match e with
            | n :: e' =>
                if ISFREE n && (r_end reg =? r_loc n) then
                  let n := set_r_loc (r_loc n - diff) (set_r_len (r_len n + diff) n) in
                  mmod (putmap w (b ++ reg' :: n :: e')) ;;
                  mark_region n PROT_I 0 ;;
                  mret 0
                else m ← kmr_get mem; new m
            | [] => m ← kmr_get mem; new m
            end
        end
    end.

(** ** Sizes *)

(** [-2]: an unattached shared text, [-1]: one that can be given up. *)
Definition reclaimable1 (m : region) : bool :=
  ISFREE m || ((r_links m =? -2) && bool_decide (r_shadow m = None)).
Definition reclaimable2 (m : region) : bool := reclaimable1 m || (r_links m =? -1).

(** The length of the run of regions that [m] ends. *)
Definition run_len (m : region) (lastsize last_end : Z) : Z :=
  if last_end =? r_loc m then s32 (lastsize + r_len m) else s32 (r_len m).

Fixpoint scan_runs (l : list region) (size lastsize last_end : Z) : Z :=
  match l with
  | [] => size
  | m :: l =>
      if reclaimable1 m then
        let lastsize := run_len m lastsize last_end in
        scan_runs l (if lastsize >? size then lastsize else size) lastsize (r_end m)
      else scan_runs l size lastsize last_end
  end.

Fixpoint scan_all (needed : Z) (l : list region) (size lastsize last_end : Z) : Z :=
  match l with
  | [] => size
  | m :: l =>
      if reclaimable2 m then
        let lastsize := run_len m lastsize last_end in
        if lastsize >? size then
          if negb (needed =? 0) && (lastsize >=? needed) then lastsize
          else scan_all needed l lastsize lastsize (r_end m)
        else scan_all needed l size lastsize (r_end m)
      else scan_all needed l size lastsize last_end
  end.

Definition max_rsize (l : list region) (needed : Z) : Z :=
  let size := if needed =? 0 then 0 else scan_runs l 0 0 0 in
  if negb (needed =? 0) && (size >=? needed) then size
  else scan_all needed l size 0 0.

(** The shadow of [m] comes before [m] in the map. *)
Definition already_counted (before : list region) (m : region) : bool :=
  match r_shadow m with
  | Some sh => bool_decide (sh ∈ r_addr <$> before)
  | None => false
  end.

Fixpoint tot_rsize_from (before l : list region) (flag : bool) (size : Z) : Z :=
  match l with
  | [] => size
  | m :: l =>
      tot_rsize_from (before ++ [m]) l flag
        (if (flag || ISFREE m || (r_links m =? -1)) && negb (already_counted before m)
         then s32 (size + r_len m) else size)
  end.
Definition tot_rsize (l : list region) (flag : bool) : Z := tot_rsize_from [] l flag 0.

Definition totalphysmem (s : mstate) : Z :=
  s32 (tot_rsize (core s) true + tot_rsize (alt s) true).
Definition freephysmem (s : mstate) : Z :=
  s32 (tot_rsize (core s) false + tot_rsize (alt s) false).

(** [recalc_maxmem]: the new [maxmem]. *)
Definition recalc_maxmem (maxdata maxcore size : Z) : Z :=
  let maxmem := if negb (maxdata =? 0) then u32 (maxdata + size) else 0 in
  let maxmem := if negb (maxcore =? 0) then
                  if (maxmem =? 0) || (maxmem >? maxcore) then maxcore else maxmem
                else maxmem in
  if negb (maxmem =? 0) && (maxmem <? u32 size) then u32 size else maxmem.

(** [memused]: the first loop sets [M_SEEN], the second clears it. *)
Fixpoint count_used (l : list (option ptr)) (size : Z) : M mstate Z :=
  match l with
  | [] => mret size
  | None :: l => count_used l size
  | Some a :: l =>
      r ← getr a;
      if negb (Z.land (r_flags r) M_SEEN =? 0) then count_used l size
      else
        modr a (λ r, set_r_flags (Z.lor (r_flags r) M_SEEN) r) ;;
        count_used l (s32 (size + r_len r))
  end.
Fixpoint clear_seen (l : list (option ptr)) : M mstate unit :=
  match l with
  | [] => mret tt
  | None :: l => clear_seen l
  | Some a :: l =>
      modr a (λ r, set_r_flags (Z.land (r_flags r) (not16 M_SEEN)) r) ;; clear_seen l
  end.
Definition memused (p : ptr) : M mstate Z :=
  ms ← get_space p;
  match ms with
  | None => mret 0
  | Some ms => size ← count_used (ms_mem ms) 0; clear_seen (ms_mem ms) ;; mret size
  end.

(** ** Looking up addresses *)

(** The first region attached to the process that satisfies [f]. *)
Fixpoint attached_first (f : region → bool) (l : list (option ptr)) (s : mstate) :
    option region :=
  match l with
  | [] => None
  | None :: l => attached_first f l s
  | Some a :: l =>
      match find_region a s with
      | Some r => if f r then Some r else attached_first f l s
      | None => None
      end
  end.

Definition valid_address (p : ptr) (addr : Z) (s : mstate) : bool :=
  match spaces s !! p with
  | None => false
  | Some ms =>
      match attached_first (λ m, (u32 addr >=? r_loc m) && (u32 addr <=? r_end m))
              (ms_mem ms) s with
      | Some _ => true
      | None => false
      end
  end.

Definition addr2mem (p : ptr) (addr : Z) (s : mstate) : option ptr :=
  match spaces s !! p with
  | None => None
  | Some ms =>
      match list_find (λ x, x = u32 addr) (ms_addr ms) with
      | Some (i, _) => mjoin (ms_mem ms !! i)
      | None => None
      end
  end.

Definition proc_addr2region (p : ptr) (addr : Z) (s : mstate) : option ptr :=
  match spaces s !! p with
  | None => None
  | Some ms =>
      r_addr <$>
        attached_first (λ m, (r_loc m <=? addr) && (addr <? r_end m)) (ms_mem ms) s
  end.

Fixpoint addr2region1 (l : list region) (addr : Z) : option region :=
  match l with
  | [] => None
  | r :: l =>
      if (addr >=? r_loc r) && (addr <? r_end r) && (r_save r =? 0) then
        if negb (Z.land (r_flags r) M_FSAVED =? 0) then None else Some r
      else addr2region1 l addr
  end.

Definition addr2region (addr : Z) (s : mstate) : option region :=
  match addr2region1 (core s) addr with
  | Some r => Some r
  | None => addr2region1 (alt s) addr
  end.

(** ** [fork_region] *)

Definition insert_after (a : ptr) (n : region) (l : list region) : list region :=
  match find_first (λ r, bool_decide (r_addr r = a)) l with
  | Some (b, r, e) => b ++ r :: n :: e
  | None => l
  end.

(** [mem1] is the descriptor of the shadow; [mem2] and [mem3] those of the save
    region, in [alt] and in [core]. *)
Definition fork_region (mem1 mem2 mem3 : option ptr) (a : ptr) (txtsize : Z) :
    M mstate (option ptr) :=
  reg ← getr a;
  let len := if txtsize =? 0 then r_len reg else r_len reg - txtsize in
  massert ((txtsize =? 0) || (len >=? 256)) ;;
  m ← kmr_get mem1;
  match m with
  | None => mret None
  | Some shdw =>
      save ← get_region mem2 Alt len PROT_S;
      save ← (match save with
              | Some sv => mret (Some sv)
              | None => get_region mem3 Core len PROT_S
              end);
      match save with
      | None => kmr_free shdw ;; mret None
      | Some sv =>
          reg ← getr a;
          let n := mk_region shdw (r_loc reg) (r_len reg) 1 (r_flags reg) (r_save reg)
                     (match r_shadow reg with Some x => Some x | None => Some a end) in
          modr a (λ r, set_r_links (r_links r - 1) r) ;;
          mmod (λ s, set_core (insert_after a n (core s))
                       (set_alt (insert_after a n (alt s)) s)) ;;
          modr a (set_r_shadow (Some shdw)) ;;
          save ← getr sv;
          (if txtsize =? 0 then emit (Move (r_loc save) (r_loc reg) len)
           else
             modr sv (set_r_save txtsize) ;;
             emit (Move (r_loc save) (r_loc reg) 256) ;;
             emit (Move (r_loc save + 256) (r_loc reg + (txtsize + 256)) (len - 256))) ;;
          modr sv (λ r, set_r_flags (Z.lor (r_flags r) M_FSAVED) r) ;;
          modr shdw (set_r_save (Zpos sv)) ;;
          mret (Some shdw)
      end
  end.

(** ** [realloc_region] *)

(** [ROUND] on a [long]. *)
Definition round_long (n : Z) : Z := Z.land (s32 (n + MASKBITS)) (Z.lnot MASKBITS).

(** The loop of the last-fit allocation. *)
Fixpoint last_fit (newsize : Z) (lastfit : option region) (l : list region) :
    option region :=
  match l with
  | [] => lastfit
  | m :: l =>
      let lastfit' :=
        if ISFREE m then
          match lastfit with
          | Some x =>
              if (newsize =? -1) && (r_len m >=? r_len x) then Some m
              else if r_len m >=? u32 newsize then Some m else lastfit
          | None => if r_len m >=? u32 newsize then Some m else lastfit
          end
        else lastfit in
      last_fit newsize lastfit' l
  end.

(** [reg == NULL]: cut [newsize] bytes off the last region that fits. *)
Definition realloc_new (mem : option ptr) (newsize : Z) : M mstate Z :=
  newm ← kmr_get mem;
  l ← mgets core;
  match last_fit newsize None l with
  | None => mret 0
  | Some x =>
      if newsize =? -1 then mret (s32 (r_len x))
      else if r_len x =? u32 newsize then
        kmr_free_opt newm ;;
        modr (r_addr x) (λ r, set_r_links (r_links r + 1) r) ;;
        mark_region x PROT_G 0 ;;
        mret (Zpos (r_addr x))
      else
        match newm with
        | None => mret 0
        | Some n =>
            let x' := set_r_len (r_len x - u32 newsize) x in
            let m := mk_region n (u32 (r_loc x' + r_len x')) (u32 newsize) 1
                       (Z.land (r_flags x) M_MAP) 0 None in
            mmod (λ s, set_core (insert_after (r_addr x) m (upd (r_addr x) (λ _, x') (core s))) s) ;;
            mark_region m PROT_G 0 ;;
            mret (Zpos n)
        end
  end.

(** Whether [m] is free and adjoins [reg], before it or after it. *)
Definition joins_before (m : option region) (reg : region) : option region :=
  match m with
  | Some m => if ISFREE m && (r_end m =? r_loc reg) then Some m else None
  | None => None
  end.
Definition joins_after (reg : region) (e : list region) : option region :=
  match e with
  | m :: _ => if ISFREE m && (r_end reg =? r_loc m) then Some m else None
  | [] => None
  end.
Definition opt_len (m : option region) : Z :=
  match m with Some m => r_len m | None => 0 end.

(** Shrink [reg] from below: the free memory goes before it. *)
Definition realloc_shrink (mem : option ptr) (b : list region) (reg : region)
    (e : list region) (newsize : Z) : M mstate Z :=
  let d := r_len reg - newsize in
  let reg' := set_r_loc (r_loc reg + d) (set_r_len (r_len reg - d) reg) in
  let fresh :=
    m ← kmr_get mem;
    match m with
    | None => mret (r_loc reg)
    | Some a =>
        let m := mk_region a (r_loc reg) d 0 (Z.land (r_flags reg) M_MAP) 0 None in
        mmod (set_core (b ++ m :: reg' :: e)) ;;
        mark_region m PROT_I 0 ;;
        mark_region reg' PROT_G 0 ;;
        mret (r_loc reg')
    end in
  match last b with
  | Some p =>
      if ISFREE p then
        let p' := set_r_len (r_len p + d) p in
        mmod (set_core (removelast b ++ p' :: reg' :: e)) ;;
        mark_region p' PROT_I 0 ;;
        mark_region reg' PROT_G 0 ;;
        mret (r_loc reg')
      else fresh
  | None => fresh
  end.

(** Grow [reg] downwards into the free region before it. *)
Definition grow_down (b : list region) (reg : region) (e : list region)
    (newsize : Z) : M mstate Z :=
  match joins_before (last b) reg with
  | None => mpanic
  | Some p =>
      if newsize >? r_len reg then
        let d := newsize - r_len reg in
        let reg' := set_r_loc (r_loc reg - d) (set_r_len (r_len reg + d) reg) in
        let p' := set_r_len (r_len p - d) p in
        (if r_len p' =? 0 then
           mmod (set_core (removelast b ++ reg' :: e)) ;; kmr_free (r_addr p)
         else mmod (set_core (removelast b ++ p' :: reg' :: e))) ;;
        mark_region reg' PROT_G 0 ;;
        mret (r_loc reg')
      else mret (r_loc reg)
  end.

Definition realloc_region (mem : option ptr) (reg : option ptr) (newsize : Z) :
    M mstate Z :=
  let newsize := if newsize =? -1 then -1 else round_long newsize in
  match reg with
  | None => realloc_new mem newsize
  | Some a =>
      reg ← getr a;
      if Z.land (r_flags reg) M_CORE =? 0 then mret 0
      else if newsize =? s32 (r_len reg) then mret (r_loc reg)
      else
        l ← mgets core;
        match find_first (λ r, bool_decide (r_addr r = a)) l with
        | None => mpanic
        | Some (b, reg, e) =>
            if (newsize <? s32 (r_len reg)) && negb (newsize =? -1) then
              realloc_shrink mem b reg e newsize
            else
              let trysize := s32 (r_len reg + opt_len (joins_after reg e) +
                                  opt_len (joins_before (last b) reg)) in
              if trysize <? newsize then mret 0
              else if newsize =? -1 then mret trysize
              else
                match joins_after reg e with
                | Some foo =>
                    let reg := set_r_len (r_len reg + r_len foo) reg in
                    let e := tail e in
                    mmod (set_core (b ++ reg :: e)) ;;
                    kmr_free (r_addr foo) ;;
                    mark_region reg PROT_G 0 ;;
                    if r_len reg >=? newsize then mret (r_loc reg)
                    else grow_down b reg e newsize
                | None => grow_down b reg e newsize
                end
        end
  end.

(** ** Lists of regions *)

(** A relation between neighbours. *)
Section chain.
Context {A : Type} (R : A → A → Prop).

Definition link (x y : option A) : Prop :=
  match x, y with Some x, Some y => R x y | _, _ => True end.

Fixpoint chain (l : list A) : Prop :=
  match l with
  | [] => True
  | x :: l => link (Some x) (head l) ∧ chain l
  end.

Lemma chain_app l1 l2 :
  chain (l1 ++ l2) ↔ chain l1 ∧ link (last l1) (head l2) ∧ chain l2.
Proof.
  induction l1 as [|x l1 IH]; [cbn; tauto|].
  change (chain ((x :: l1) ++ l2)) with (link (Some x) (head (l1 ++ l2)) ∧ chain (l1 ++ l2)).
  change (chain (x :: l1)) with (link (Some x) (head l1) ∧ chain l1).
  rewrite IH, last_cons. destruct l1 as [|y l1]; [cbn; tauto|].
  assert (is_Some (last (y :: l1))) as [z ->] by (by apply last_is_Some).
  cbn. tauto.
Qed.

Lemma chain_mid l1 x l2 :
  chain (l1 ++ x :: l2) ↔
  chain l1 ∧ link (last l1) (Some x) ∧ link (Some x) (head l2) ∧ chain l2.
Proof. rewrite chain_app. cbn. tauto. Qed.
End chain.

Lemma find_first_spec f l b x e :
  find_first f l = Some (b, x, e) →
  l = b ++ x :: e ∧ f x = true ∧ Forall (λ y, f y = false) b.
Proof.
  revert b x e. induction l as [|n l IH]; intros b x e; cbn; [done|].
  destruct (f n) eqn:Hn; [intros [= <- <- <-]; done|].
  destruct (find_first f l) as [[[b' x'] e']|]; cbn; [|done].
  intros [= <- <- <-]. destruct (IH _ _ _ eq_refl) as (-> & ? & ?). auto.
Qed.

Lemma find_first_none f l : find_first f l = None → Forall (λ y, f y = false) l.
Proof.
  induction l as [|n l IH]; cbn; [constructor|].
  destruct (f n) eqn:Hn; [done|].
  destruct (find_first f l) as [[[b' x'] e']|]; cbn; [done|]. auto.
Qed.

Lemma find_first_addr l b x e :
  NoDup (r_addr <$> l) → l = b ++ x :: e →
  find_first (λ r, bool_decide (r_addr r = r_addr x)) l = Some (b, x, e).
Proof.
  intros Hnd ->. induction b as [|y b IH]; cbn.
  { by rewrite bool_decide_eq_true_2. }
  cbn in Hnd. apply NoDup_cons in Hnd as [Hy Hnd].
  rewrite bool_decide_eq_false_2; [by rewrite IH|].
  intros Heq. apply Hy. rewrite Heq. apply list_elem_of_fmap_2. set_solver.
Qed.

Lemma upd_notin a f l : a ∉ r_addr <$> l → upd a f l = l.
Proof.
  induction l as [|y l IH]; cbn; [done|]. intros Hl.
  rewrite decide_False by set_solver. f_equal. apply IH. set_solver.
Qed.

Lemma upd_mid b x e f :
  NoDup (r_addr <$> b ++ x :: e) → upd (r_addr x) f (b ++ x :: e) = b ++ f x :: e.
Proof.
  intros Hnd. rewrite fmap_app in Hnd. cbn in Hnd.
  apply NoDup_app in Hnd as (_ & Hdis & Hnd). apply NoDup_cons in Hnd as [Hx _].
  unfold upd. rewrite fmap_app, fmap_cons, decide_True by done.
  fold (upd (r_addr x) f b) (upd (r_addr x) f e).
  rewrite !upd_notin; [done|done|]. intros Hin. eapply Hdis; [done|]. left.
Qed.

(** ** The invariant of the maps *)

(** Neighbours are disjoint and in order, and two free neighbours do not touch. *)
Definition apart (m n : region) : Prop :=
  r_loc m + r_len m ≤ r_loc n ∧
  (ISFREE m = true → ISFREE n = true → r_loc m + r_len m ≠ r_loc n).

(** A region of the map [w] that is not shadowed. *)
Record region_ok (w : mmap) (r : region) : Prop := {
  ro_loc : 0 ≤ r_loc r;
  ro_len : 0 < r_len r;
  ro_end : r_loc r + r_len r < 4294967296;
  ro_align : (QUANTUM | r_loc r) ∧ (QUANTUM | r_len r);
  ro_links : 0 ≤ r_links r;
  ro_map : map_of (r_flags r) = Some w;
  ro_plain : not_saved r = true ∧ r_save r = 0 ∧ r_shadow r = None;
  ro_free : ISFREE r = true → Z.land (r_flags r) M_MAP = r_flags r;
}.

Definition map_ok (w : mmap) (l : list region) : Prop :=
  Forall (region_ok w) l ∧ chain apart l.

(** The maps, and the descriptors in use: exactly those of the maps. *)
Record mem_ok (s : mstate) : Prop := {
  mo_core : map_ok Core (core s);
  mo_alt : map_ok Alt (alt s);
  mo_nodup : NoDup (r_addr <$> core s ++ alt s);
  mo_kmr : ∀ a, a ∈ kmr s ↔ a ∈ r_addr <$> core s ++ alt s;
}.

(** The allocated regions, and the sizes. *)
Definition used (l : list region) : list region := filter (λ r, ISFREE r = false) l.
Definition total (l : list region) : Z := foldr (λ r n, r_len r + n) 0 l.

Lemma total_app l1 l2 : total (l1 ++ l2) = total l1 + total l2.
Proof. induction l1 as [|r l1 IH]; cbn; [done|]. unfold total in *. lia. Qed.

Lemma used_app l1 l2 : used (l1 ++ l2) = used l1 ++ used l2.
Proof. apply filter_app. Qed.

Lemma used_cons r l : used (r :: l) = if ISFREE r then used l else r :: used l.
Proof.
  unfold used. rewrite filter_cons. destruct (ISFREE r);
    [by rewrite decide_False|by rewrite decide_True].
Qed.

Lemma r_end_ok w r : region_ok w r → r_end r = r_loc r + r_len r.
Proof. intros [? ? ? _ _ _ _ _]. unfold r_end. apply u32_id. lia. Qed.

(** ** Rounding *)

(** Bits above the width of a value. *)
Lemma testbit_high m w i : 0 ≤ m < 2 ^ w → 0 ≤ w → w ≤ i → Z.testbit m i = false.
Proof.
  intros Hm Hw Hi. destruct (decide (m = 0)) as [->|]; [apply Z.bits_0|].
  apply Z.bits_above_log2; [lia|].
  assert (Z.log2 m < w); [apply Z.log2_lt_pow2; lia|lia].
Qed.

Lemma round_spec n : ROUND n = QUANTUM * (u32 (n + MASKBITS) / QUANTUM).
Proof.
  unfold ROUND. set (m := u32 (n + MASKBITS)).
  assert (0 ≤ m < 2 ^ 32) as Hm by apply u32_range.
  transitivity (Z.ldiff m (Z.ones 13)).
  - apply Z.bits_inj'. intros i Hi. rewrite Z.land_spec, Z.ldiff_spec, not32_spec by done.
    change MASKBITS with (Z.ones 13). rewrite !ones_spec by lia.
    destruct (Z.ltb_spec i 32) as [|Hhi]; [by destruct (i <? 13)|].
    by rewrite (testbit_high m 32 i) by lia.
  - rewrite Z.ldiff_ones_r by lia.
    rewrite Z.shiftl_mul_pow2, Z.shiftr_div_pow2 by lia. apply Z.mul_comm.
Qed.

Lemma region_size_spec n :
  0 ≤ n < 4294967296 →
  0 < region_size n < 4294967296 ∧ (QUANTUM | region_size n) ∧
  (n ≤ 4294959104 → n ≤ region_size n < n + QUANTUM ∨ (n = 0 ∧ region_size n = QUANTUM)).
Proof.
  intros Hn. unfold region_size. rewrite !round_spec.
  assert (0 ≤ u32 (n + MASKBITS) < 4294967296) as Hu by apply u32_range.
  change (QUANTUM * (u32 (1 + MASKBITS) / QUANTUM)) with QUANTUM.
  split; [|split].
  - unfold QUANTUM. case_bool; bool_to_prop; [lia|]. Z.div_mod_to_equations. lia.
  - case_bool; [apply Z.divide_refl|apply Z.divide_factor_l].
  - intros Hle. unfold MASKBITS, QUANTUM in *. rewrite u32_id by lia.
    case_bool; bool_to_prop; Z.div_mod_to_equations; lia.
Qed.

(** ** Merging free regions *)

Definition before (m n : region) : Prop := r_loc m + r_len m ≤ r_loc n.

(** A free region of [w] that is about to be linked in between [b] and [e]. *)
Record gap (w : mmap) (b : list region) (reg : region) (e : list region) : Prop := {
  gap_left : Forall (region_ok w) b ∧ chain apart b;
  gap_reg : region_ok w reg;
  gap_free : ISFREE reg = true;
  gap_right : Forall (region_ok w) e ∧ chain apart e;
  gap_before : link before (last b) (Some reg);
  gap_after : link before (Some reg) (head e);
}.

(** [reg] extended by the free region behind it. *)
Lemma extend_ok w reg m :
  region_ok w reg → region_ok w m → r_loc reg + r_len reg = r_loc m →
  region_ok w (set_r_len (u32 (r_len reg + r_len m)) reg) ∧
  u32 (r_len reg + r_len m) = r_len reg + r_len m.
Proof.
  intros [Hl1 Hn1 He1 [Ha1 Ha2] Hk1 Hm1 Hp1 Hf1] [Hl2 Hn2 He2 [Ha3 Ha4] Hk2 Hm2 Hp2 Hf2] Heq.
  rewrite u32_id by lia. split; [|done]. constructor; cbn; try done; try lia.
  split; [done|]. by apply Z.divide_add_r.
Qed.

Lemma merge_after_ok w reg e l d :
  region_ok w reg → ISFREE reg = true → Forall (region_ok w) e → chain apart e →
  link before (Some reg) (head e) → merge_after reg e = (l, d) →
  (∃ n t, l = set_r_len n reg :: t) ∧ Forall (region_ok w) l ∧ chain apart l ∧
  used l = used e ∧ total l = r_len reg + total e ∧
  r_addr reg :: (r_addr <$> e) ≡ₚ d ++ (r_addr <$> l).
Proof.
  intros Hreg Hfree He Hc Hb. unfold merge_after. destruct e as [|m e].
  { intros [= <- <-]. split; [exists (r_len reg), []; by destruct reg|].
    rewrite used_cons, Hfree. split; [by constructor|]. done. }
  apply Forall_cons in He as [Hm He]. cbn in Hb. unfold before in Hb.
  rewrite (r_end_ok w reg) by done.
  destruct (ISFREE m && (r_loc reg + r_len reg =? r_loc m)) eqn:E; intros [= <- <-].
  - bool_to_prop. destruct (extend_ok w reg m) as [Hok Hlen]; try done.
    split; [by eexists _, _|]. destruct Hc as [Hlink Hc].
    split; [by constructor|]. split; [|split; [|split]].
    + cbn. split; [|done]. destruct (head e) as [h|]; [|done]. cbn in *.
      unfold apart in *. cbn in *. rewrite Hlen. unfold ISFREE in *. cbn.
      split; [lia|]. intros. destruct Hlink as [_ Hne].
      specialize (Hne ltac:(done) ltac:(done)). lia.
    + rewrite !used_cons. unfold ISFREE in *. cbn. by rewrite Hfree, H.
    + cbn. rewrite Hlen. unfold total. lia.
    + cbn. apply Permutation_swap.
  - split; [exists (r_len reg), (m :: e); by destruct reg|].
    split; [by rewrite !Forall_cons|]. split; [|by rewrite used_cons, Hfree].
    split; [|done]. cbn. split; [done|]. intros _ Hmf Heq.
    rewrite Hmf in E. cbn in E. lia.
Qed.

Lemma link_apart_left o x x' :
  link before o (Some x) → r_loc x' = r_loc x →
  (∀ m, o = Some m → ISFREE m = true → ISFREE x' = true →
        r_loc m + r_len m ≠ r_loc x) →
  link apart o (Some x').
Proof.
  destruct o as [m|]; [|done]. cbn. unfold before, apart. intros H -> Hne.
  split; [lia|]. auto.
Qed.

Lemma chain_apart_before o x : link apart o x → link before o x.
Proof. destruct o, x; cbn; [|done..]. by intros [? _]. Qed.

Lemma release_ok w b reg e l d :
  gap w b reg e → release b reg e = (l, d) →
  map_ok w l ∧ used l = used (b ++ e) ∧ total l = total (b ++ reg :: e) ∧
  r_addr <$> (b ++ reg :: e) ≡ₚ d ++ (r_addr <$> l).
Proof.
  intros [[Hb Hcb] Hreg Hfree [He Hce] Hbef Haft]. unfold release.
  destruct (last b) as [m|] eqn:Hlast.
  2: { apply last_None in Hlast as ->.
    replace (r_len reg =? 0) with false by (destruct Hreg; lia). intros Hma.
    destruct (merge_after_ok w reg e l d) as (_ & Hl & Hc & Hu & Ht & Ha); try done.
  }
  apply last_Some in Hlast as [b' ->].
  replace (r_len reg =? 0) with false by (destruct Hreg; lia).
  rewrite removelast_last.
  apply Forall_app in Hb as [Hb' [Hm _]%Forall_cons].
  apply chain_app in Hcb as (Hcb & Hlm & _).
  cbn in Hbef. unfold before in Hbef. rewrite (r_end_ok w m) by done.
  destruct (ISFREE m && (r_loc m + r_len m =? r_loc reg)) eqn:E.
  - bool_to_prop. destruct (extend_ok w m reg) as [Hok Hlen]; try done.
    set (m' := set_r_len (u32 (r_len m + r_len reg)) m) in *.
    destruct (merge_after m' e) as [l0 d0] eqn:Hma. intros [= <- <-].
    destruct (merge_after_ok w m' e l0 d0) as ((n & t & Hl0) & Hl & Hc & Hu & Ht & Ha);
      try done.
    { destruct (head e); [|done]. cbn in *. unfold before in *. cbn. rewrite Hlen. lia. }
    split; [|split; [|split]].
    + split; [by apply Forall_app|]. apply chain_app. split; [done|]. split; [|done].
      subst l0. eapply (link_apart_left _ m); [by apply chain_apart_before|done|].
      intros x Hx Hxf Hmf. rewrite Hx in Hlm. destruct Hlm as [_ Hne]. auto.
    + rewrite !used_app, used_cons, H, Hu. cbn. by rewrite app_nil_r.
    + rewrite !total_app, Ht. unfold m', total. cbn. rewrite Hlen. lia.
    + rewrite !fmap_app. cbn. change (r_addr m') with (r_addr m) in Ha.
      trans (r_addr reg :: (r_addr <$> b') ++ (r_addr m :: (r_addr <$> e)));
        [solve_Permutation|].
      rewrite Ha. solve_Permutation.
  - destruct (merge_after reg e) as [l0 d0] eqn:Hma. intros [= <- <-].
    destruct (merge_after_ok w reg e l0 d0) as ((n & t & Hl0) & Hl & Hc & Hu & Ht & Ha);
      try done.
    split; [|split; [|split]].
    + split; [by rewrite !Forall_app, Forall_cons|].
      apply chain_app. split; [apply chain_app; cbn; auto|]. split; [|done].
      rewrite last_snoc. subst l0.
      eapply link_apart_left; [done|done|]. intros x [= <-] Hx Hfr Heq.
      rewrite Hx in E. cbn in E. lia.
    + by rewrite !used_app, Hu.
    + rewrite !total_app, Ht. unfold total. cbn. lia.
    + rewrite !fmap_app. cbn. rewrite Ha. solve_Permutation.
Qed.

(** ** One region of a state *)

Definition other (w : mmap) : mmap := match w with Core => Alt | Alt => Core end.

Definition addrs (s : mstate) : list ptr := r_addr <$> core s ++ alt s.

Lemma addrs_map w s :
  addrs s ≡ₚ (r_addr <$> getmap w s) ++ (r_addr <$> getmap (other w) s).
Proof.
  unfold addrs. rewrite fmap_app. destruct w; cbn; [done|apply Permutation_app_comm].
Qed.

Lemma getmap_putmap w l s : getmap w (putmap w l s) = l.
Proof. by destruct w. Qed.
Lemma getmap_other w l s : getmap (other w) (putmap w l s) = getmap (other w) s.
Proof. by destruct w. Qed.
Lemma putmap_get w s : putmap w (getmap w s) s = s.
Proof. by destruct w, s. Qed.
Lemma putmap_put w l l' s : putmap w l (putmap w l' s) = putmap w l s.
Proof. by destruct w, s. Qed.
Lemma kmr_putmap w l s : kmr (putmap w l s) = kmr s.
Proof. by destruct w. Qed.

Lemma mem_ok_map w s : mem_ok s → map_ok w (getmap w s).
Proof. intros []. by destruct w. Qed.

(** The maps after [l] replaced a map: [c] are new descriptors, [d] freed ones. *)
Lemma mem_ok_put w l s s' c d :
  mem_ok s → map_ok w l →
  getmap w s' = l → getmap (other w) s' = getmap (other w) s →
  kmr s' = (list_to_set c ∪ kmr s) ∖ list_to_set d →
  NoDup c → (∀ a, a ∈ c → a ∉ kmr s) →
  c ++ (r_addr <$> getmap w s) ≡ₚ d ++ (r_addr <$> l) → mem_ok s'.
Proof.
  intros Hok Hl Hw Ho Hk Hc Hfresh Hp. pose proof (mem_ok_map (other w) s Hok) as Hm.
  assert (NoDup (d ++ addrs s') ∧ c ++ addrs s ≡ₚ d ++ addrs s') as [Hnd Hall].
  { assert (c ++ addrs s ≡ₚ d ++ addrs s') as Hperm.
    { rewrite !(addrs_map w), Ho, Hw, !app_assoc. by f_equiv. }
    split; [|done]. rewrite <- Hperm. apply NoDup_app. split; [done|].
    destruct Hok as [_ _ Hnd Hin]. split; [|done]. intros a Ha Hin'.
    apply (Hfresh a Ha). by apply Hin. }
  apply NoDup_app in Hnd as (_ & Hdis & Hnd).
  assert (∀ a, a ∈ kmr s' ↔ a ∈ addrs s') as Hin.
  { intros a. destruct Hok as [_ _ _ Hin]. rewrite Hk.
    rewrite elem_of_difference, elem_of_union, !elem_of_list_to_set, Hin.
    fold (addrs s). rewrite <- elem_of_app, Hall, elem_of_app.
    specialize (Hdis a). tauto. }
  destruct w; cbn in *; constructor; try done; by rewrite ?Hw, ?Ho.
Qed.

Lemma NoDup_addrs w s :
  mem_ok s → NoDup ((r_addr <$> getmap w s) ++ (r_addr <$> getmap (other w) s)).
Proof. intros [_ _ H _]. fold (addrs s) in H. by rewrite addrs_map in H. Qed.

Lemma list_find_mid (b : list region) (x : region) (e : list region) :
  NoDup (r_addr <$> b ++ x :: e) →
  list_find (λ r, r_addr r = r_addr x) (b ++ x :: e) = Some (length b, x).
Proof.
  intros Hnd. apply list_find_Some. split; [by rewrite list_lookup_middle|].
  split; [done|]. intros j y Hy Hj Heq.
  rewrite lookup_app_l in Hy by done.
  rewrite fmap_app, fmap_cons in Hnd. apply NoDup_app in Hnd as (_ & Hdis & _).
  apply (Hdis (r_addr y)); [by eapply list_elem_of_fmap_2, list_elem_of_lookup_2|].
  rewrite Heq. left.
Qed.

(** The maps contain the region [x] at a place of [w]. *)
Record at_place (w : mmap) (s : mstate) (b : list region) (x : region)
    (e : list region) : Prop := {
  ap_map : getmap w s = b ++ x :: e;
  ap_nodup : NoDup ((r_addr <$> getmap w s) ++ (r_addr <$> getmap (other w) s));
}.

Lemma at_place_nodup w s b x e :
  at_place w s b x e → NoDup (r_addr <$> b ++ x :: e) ∧
  r_addr x ∉ r_addr <$> getmap (other w) s.
Proof.
  intros [Hm Hnd]. apply NoDup_app in Hnd as (Hnd & Hdis & _). rewrite Hm in *.
  split; [done|]. apply Hdis. rewrite fmap_app, fmap_cons. set_solver.
Qed.

Lemma getr_at w s b x e :
  at_place w s b x e → getr (r_addr x) s = Some (x, s).
Proof.
  intros Hat. destruct (at_place_nodup w s b x e Hat) as [Hnd Hno].
  destruct Hat as [Hm _]. apply mderef_run. unfold find_region.
  destruct w; cbn in *; rewrite Hm.
  - rewrite list_find_app_l with (i := length b) (x := x); [done|].
    by apply list_find_mid.
  - rewrite list_find_app_r.
    + by rewrite list_find_mid.
    + apply list_find_None, Forall_forall. intros y Hy Heq. apply Hno.
      rewrite <- Heq. by apply list_elem_of_fmap_2.
Qed.

Lemma modr_at w s b x e f :
  at_place w s b x e →
  modr (r_addr x) f s = Some (tt, putmap w (b ++ f x :: e) s).
Proof.
  intros Hat. unfold modr. rewrite (bind_run _ _ _ _ _ (getr_at w s b x e Hat)).
  destruct (at_place_nodup w s b x e Hat) as [Hnd Hno]. destruct Hat as [Hm _].
  unfold mmod. f_equal. f_equal.
  destruct w; cbn in *; rewrite Hm, upd_mid, upd_notin by done; by destruct s.
Qed.

Lemma at_place_put w s b x e y :
  at_place w s b x e → r_addr y = r_addr x →
  at_place w (putmap w (b ++ y :: e) s) b y e.
Proof.
  intros [Hm Hnd] Hy. constructor; rewrite getmap_putmap; [done|].
  rewrite getmap_other. rewrite Hm in Hnd.
  by rewrite fmap_app, fmap_cons, Hy in *.
Qed.

Lemma mem_ok_at w s b x e :
  mem_ok s → getmap w s = b ++ x :: e → at_place w s b x e.
Proof. intros Hok Hm. constructor; [done|]. by apply NoDup_addrs. Qed.

(** ** Allocation *)

(** The flags of a region that is given out with [mode]. *)
Definition granted_flags (mode f : Z) : Z :=
  if negb (Z.land mode M_KEEP =? 0) then Z.lor f M_KEEP else f.

(** The region [n] cut down to [size] and given out, and the rest of it. *)
Definition granted (size mode : Z) (n : region) : region :=
  set_r_flags (granted_flags mode (r_flags n)) (set_r_links 1 (set_r_len size n)).
Definition remainder (a : ptr) (size : Z) (n : region) : region :=
  mk_region a (u32 (r_loc n + size)) (r_len n - size) 0
    (Z.land (r_flags n) M_MAP) 0 None.
Definition leftover (a : ptr) (size : Z) (n : region) : list region :=
  if r_len n =? size then [] else [remainder a size n].

Lemma ISFREE_granted size mode n : ISFREE (granted size mode n) = false.
Proof. done. Qed.

Lemma land_lor_0 f k m : Z.land k m = 0 → Z.land (Z.lor f k) m = Z.land f m.
Proof. intros H. by rewrite Z.land_lor_distr_l, H, Z.lor_0_r. Qed.

Lemma map_of_granted mode f : map_of (granted_flags mode f) = map_of f.
Proof.
  unfold granted_flags, map_of. destruct (negb (Z.land mode M_KEEP =? 0)); [|done].
  by rewrite !land_lor_0.
Qed.

Lemma map_of_masked f : map_of (Z.land f M_MAP) = map_of f.
Proof. unfold map_of. by rewrite <- !Z.land_assoc. Qed.

Lemma not_saved_granted mode f :
  Z.land f M_FSAVED = 0 → Z.land (granted_flags mode f) M_FSAVED = 0.
Proof.
  unfold granted_flags. destruct (negb (Z.land mode M_KEEP =? 0)); [|done].
  by rewrite land_lor_0.
Qed.

(** A region from [fits]: what is cut off at [size]. *)
Record cut_ok (w : mmap) (size : Z) (n : region) : Prop := {
  cut_reg : region_ok w n;
  cut_free : ISFREE n = true;
  cut_pos : 0 < size ≤ r_len n;
  cut_align : (QUANTUM | size);
}.

Lemma granted_ok w size mode n : cut_ok w size n → region_ok w (granted size mode n).
Proof.
  intros [[Hl Hn He [Ha1 Ha2] Hk Hm [Hp1 [Hp2 Hp3]] Hf] Hfr Hs Hal].
  constructor; cbn; try done; try lia.
  - by rewrite map_of_granted.
  - split; [|done]. unfold not_saved in *. cbn. apply Z.eqb_eq in Hp1.
    by rewrite not_saved_granted.
Qed.

Lemma remainder_ok w a size n :
  cut_ok w size n → r_len n ≠ size →
  region_ok w (remainder a size n) ∧ r_loc (remainder a size n) = r_loc n + size.
Proof.
  intros [[Hl Hn He [Ha1 Ha2] Hk Hm [Hp1 [Hp2 Hp3]] Hf] Hfr Hs Hal] Hne.
  assert (u32 (r_loc n + size) = r_loc n + size) as Hu by (apply u32_id; lia).
  split; [|done]. constructor; cbn; rewrite ?Hu; try done; try lia.
  - split; [by apply Z.divide_add_r|by apply Z.divide_sub_r].
  - by rewrite map_of_masked.
  - split; [|done]. unfold not_saved. cbn. rewrite <- Z.land_assoc.
    change (Z.land M_MAP M_FSAVED) with 0. by rewrite Z.land_0_r.
  - intros _. by rewrite <- Z.land_assoc.
Qed.

Lemma alloc_ok w b n e size mode a :
  cut_ok w size n → map_ok w (b ++ n :: e) →
  let l := b ++ granted size mode n :: leftover a size n ++ e in
  map_ok w l ∧ used l = used b ++ granted size mode n :: used e ∧
  total l = total (b ++ n :: e).
Proof.
  intros Hcut [Hall Hch]. pose proof (granted_ok w size mode n Hcut) as Hg.
  pose proof (remainder_ok w a size n Hcut) as Hr. destruct Hcut as [Hn Hfr Hs Hal].
  apply Forall_app in Hall as [Hb [_ He]%Forall_cons].
  apply chain_mid in Hch as (Hc1 & Hc2 & Hc3 & Hc4). cbn zeta.
  assert (link apart (last b) (Some (granted size mode n))) as Hc2'.
  { destruct (last b); [|done]. split; [apply Hc2|done]. }
  unfold leftover. case_bool; bool_to_prop; cbn [app].
  - split; [split; [by rewrite Forall_app, Forall_cons|]|].
    + rewrite chain_mid. split; [done|]. split; [done|]. split; [|done].
      destruct (head e); [|done]. cbn in *. unfold apart in *. cbn.
      split; [lia|done].
    + rewrite used_app, used_cons, ISFREE_granted, !total_app. split; [done|].
      unfold total. cbn. lia.
  - destruct Hr as [Hr Hloc]; [done|]. split; [split; [|]|].
    + by rewrite Forall_app, !Forall_cons.
    + rewrite chain_mid. split; [done|]. split; [done|]. split.
      { split; [|done]. rewrite Hloc. cbn. lia. }
      split; [|done]. destruct (head e); [|done]. destruct Hc3 as [Hc3 Hc5].
      unfold link, apart. rewrite Hloc. change (r_len (remainder a size n)) with (r_len n - size).
      split; [lia|]. intros _ Hf. specialize (Hc5 Hfr Hf). lia.
    + rewrite used_app, !used_cons, ISFREE_granted, !total_app. split; [done|].
      unfold total. cbn. lia.
Qed.

(** A descriptor from [kmr_get]. *)
Definition with_kmr (a : ptr) (s : mstate) : mstate := set_kmr ({[a]} ∪ kmr s) s.

(** What [win] leaves: the maps [l] and one marked region. *)
Definition won (w : mmap) (size mode : Z) (n : region) (l : list region) (s : mstate) : mstate :=
  putmap w l (set_effects (effects s ++
    [Mark (r_loc n) size (Z.land mode PROT_PROTMODE) 0]) s).

Lemma win_run w b n e size mode s :
  ISFREE n = true →
  win w b (set_r_len size n) e mode 0 s =
  Some (Some (r_addr n), won w size mode n (b ++ granted size mode n :: e) s).
Proof.
  intros Hf%Z.eqb_eq. unfold win, won, granted, granted_flags. cbn. rewrite Hf.
  by case_bool.
Qed.

(** [_get_region] with a free region [n] that fits. *)
Lemma get_region_with_run w s size mode a b n e :
  getmap w s = b ++ n :: e → cut_ok w (region_size size) n →
  find_first (fits (region_size size)) (b ++ n :: e) = Some (b, n, e) →
  a ∈ kmr s →
  get_region_with w size mode 0 (Some a) false s =
  Some (Some (r_addr n),
        won w (region_size size) mode n
          (b ++ granted (region_size size) mode n :: leftover a (region_size size) n ++ e)
          (if r_len n =? region_size size then set_kmr (kmr s ∖ {[a]}) s else s)).
Proof.
  intros Hm [Hn Hfr Hs Hal] Hff Ha. unfold get_region_with. cbn [negb orb andb].
  rewrite (bind_run (massert true) _ _ tt s) by done.
  rewrite (bind_run (mgets (getmap w)) _ _ _ s eq_refl), Hm, Hff.
  unfold leftover. case_bool; bool_to_prop; cbn [app].
  - rewrite (bind_run (kmr_free_opt (Some a)) _ _ tt (set_kmr (kmr s ∖ {[a]}) s))
      by (unfold kmr_free_opt, kmr_free; by rewrite decide_True).
    replace n with (set_r_len (region_size size) n) at 1 by (destruct n; cbn in *; by subst).
    by apply win_run.
  - rewrite (bind_run (massert _) _ _ tt s); [by apply win_run|].
    apply massert_run, Z.eqb_refl.
Qed.

(** The state after [get_region]. *)
Definition got (w : mmap) (size mode : Z) (a : ptr) (b : list region) (n : region)
    (e : list region) (s : mstate) : mstate :=
  won w size mode n (b ++ granted size mode n :: leftover a size n ++ e)
    (if r_len n =? size then s else with_kmr a s).

Lemma get_region_none w s size mode a :
  a ∉ kmr s → find_first (fits (region_size size)) (getmap w s) = None →
  get_region (Some a) w size mode s = Some (None, s).
Proof.
  intros Ha Hff. unfold get_region.
  rewrite (bind_run (kmr_get (Some a)) _ s (Some a) (with_kmr a s) eq_refl).
  rewrite (bind_run _ _ _ None (with_kmr a s)).
  2: { unfold get_region_with. cbn [negb orb andb].
    rewrite (bind_run (massert true) _ _ tt (with_kmr a s)) by done.
    rewrite (bind_run (mgets (getmap w)) _ _ _ (with_kmr a s) eq_refl).
    replace (getmap w (with_kmr a s)) with (getmap w s) by (by destruct w).
    by rewrite Hff. }
  rewrite (bind_run _ _ _ tt s); [done|].
  unfold kmr_free, with_kmr. cbn. rewrite decide_True by set_solver.
  f_equal. f_equal. destruct s as [c al k sp ef]. unfold set_kmr. cbn in *.
  f_equal. set_solver.
Qed.

Lemma get_region_some w s size mode a b n e :
  a ∉ kmr s → getmap w s = b ++ n :: e → cut_ok w (region_size size) n →
  find_first (fits (region_size size)) (b ++ n :: e) = Some (b, n, e) →
  get_region (Some a) w size mode s =
  Some (Some (r_addr n), got w (region_size size) mode a b n e s).
Proof.
  intros Ha Hm Hcut Hff. unfold get_region.
  rewrite (bind_run (kmr_get (Some a)) _ s (Some a) (with_kmr a s) eq_refl).
  assert (getmap w (with_kmr a s) = b ++ n :: e) as Hm' by (by destruct w).
  erewrite (bind_run _ _ _ _ _
    (get_region_with_run w (with_kmr a s) size mode a b n e Hm' Hcut Hff _)).
  unfold got. case_bool; [|done]. rewrite ret_run. do 3 f_equal.
  destruct s as [c al k sp ef]. unfold set_kmr, with_kmr. cbn in *. f_equal. set_solver.
  Unshelve. cbn. set_solver.
Qed.

Lemma getmap_got w size mode a b n e s :
  getmap w (got w size mode a b n e s) =
  b ++ granted size mode n :: leftover a size n ++ e.
Proof. unfold got, won. by rewrite getmap_putmap. Qed.

Lemma getmap_other_got w size mode a b n e s :
  getmap (other w) (got w size mode a b n e s) = getmap (other w) s.
Proof. unfold got, won. rewrite getmap_other. by destruct w, (r_len n =? size). Qed.

Lemma kmr_got w size mode a b n e s :
  kmr (got w size mode a b n e s) = if r_len n =? size then kmr s else {[a]} ∪ kmr s.
Proof. unfold got, won. rewrite kmr_putmap. by case_bool. Qed.

Lemma got_ok w size mode a b n e s :
  mem_ok s → a ∉ kmr s → getmap w s = b ++ n :: e → cut_ok w size n →
  mem_ok (got w size mode a b n e s).
Proof.
  intros Hok Ha Hm Hcut. pose proof (mem_ok_map w s Hok) as Hmap. rewrite Hm in Hmap.
  destruct (alloc_ok w b n e size mode a Hcut Hmap) as [Hl _].
  eapply (mem_ok_put w _ s _ (if r_len n =? size then [] else [a]) []); try done.
  - apply getmap_got.
  - apply getmap_other_got.
  - rewrite kmr_got. case_bool; cbn; set_solver.
  - case_bool; [apply NoDup_nil_2|apply NoDup_singleton].
  - case_bool; set_solver.
  - rewrite Hm. unfold leftover. case_bool; cbn [app]; rewrite !fmap_app, !fmap_cons.
    + done.
    + cbn. solve_Permutation.
Qed.

Lemma fits_cut w s size b n e :
  mem_ok s → 0 ≤ size < 4294967296 →
  find_first (fits (region_size size)) (getmap w s) = Some (b, n, e) →
  getmap w s = b ++ n :: e ∧ cut_ok w (region_size size) n ∧
  Forall (λ r, fits (region_size size) r = false) b.
Proof.
  intros Hok Hs Hff. destruct (find_first_spec _ _ _ _ _ Hff) as (Hm & Hfit & Hb).
  split; [done|]. split; [|done].
  destruct (mem_ok_map w s Hok) as [Hall _]. rewrite Hm in Hall.
  apply Forall_app in Hall as [_ [Hn _]%Forall_cons].
  destruct (region_size_spec size Hs) as ([? ?] & ? & _).
  unfold fits in Hfit. bool_to_prop. constructor; try done; lia.
Qed.

(** C22: [get_region] never panics on well-formed maps.  It keeps them
    well-formed, the amount of memory described by a map does not change, and
    the other map is untouched.  On success the first free region that is large
    enough is cut at the request rounded up to a page, marked with one link, and
    is new among the allocated regions, which otherwise stay as they were.  On
    failure no free region is large enough, the state is unchanged, and the
    descriptor has been given back. *)
Theorem get_region_spec w s size mode a :
  mem_ok s → 0 ≤ size < 4294967296 → a ∉ kmr s →
  ∃ res s', get_region (Some a) w size mode s = Some (res, s') ∧
  mem_ok s' ∧ total (getmap w s') = total (getmap w s) ∧
  getmap (other w) s' = getmap (other w) s ∧
  match res with
  | None => s' = s ∧ Forall (λ r, fits (region_size size) r = false) (getmap w s)
  | Some p => ∃ b n e r,
      getmap w s = b ++ n :: e ∧ ISFREE n = true ∧
      Forall (λ r, fits (region_size size) r = false) b ∧
      used (getmap w s') = used b ++ r :: used e ∧
      r_addr r = p ∧ r_loc r = r_loc n ∧ r_len r = region_size size ∧ r_links r = 1
  end.
Proof.
  intros Hok Hs Ha.
  destruct (find_first (fits (region_size size)) (getmap w s)) as [[[b n] e]|] eqn:Hff.
  - destruct (fits_cut w s size b n e Hok Hs Hff) as (Hm & Hcut & Hb).
    pose proof Hff as Hff'. rewrite Hm in Hff'.
    eexists _, _. split; [by apply get_region_some|].
    split; [by apply got_ok|]. pose proof (mem_ok_map w s Hok) as Hmap. rewrite Hm in Hmap.
    destruct (alloc_ok w b n e _ mode a Hcut Hmap) as (_ & Hu & Ht).
    rewrite getmap_got, getmap_other_got, Hm. split; [done|]. split; [done|].
    exists b, n, e, (granted (region_size size) mode n).
    split; [done|]. split; [apply Hcut|]. done.
  - eexists _, _. split; [by apply get_region_none|].
    repeat split; try done; try apply Hok. by apply find_first_none.
Qed.

(** ** Release *)

Lemma kmr_free_all_run d s :
  NoDup d → (∀ x, x ∈ d → x ∈ kmr s) →
  kmr_free_all d s = Some (tt, set_kmr (kmr s ∖ list_to_set d) s).
Proof.
  revert s. induction d as [|a d IH]; intros s Hnd Hin.
  - cbn [kmr_free_all]. rewrite ret_run. f_equal. f_equal.
    destruct s as [c al k sp ef]. unfold set_kmr. cbn. f_equal. set_solver.
  - apply NoDup_cons in Hnd as [Ha Hnd]. cbn [kmr_free_all].
    rewrite (bind_run (kmr_free a) _ s tt (set_kmr (kmr s ∖ {[a]}) s)).
    2: { unfold kmr_free. rewrite decide_True; [done|]. apply Hin. left. }
    rewrite IH; [|done|].
    + f_equal. f_equal. destruct s as [c al k sp ef]. unfold set_kmr. cbn.
      f_equal. set_solver.
    + intros x Hx. cbn. specialize (Hin x ltac:(by right)). set_solver.
Qed.

(** The state after a region of length [len] at [loc] was released. *)
Definition freed (w : mmap) (loc len : Z) (ld : list region * list ptr) (s : mstate) : mstate :=
  set_kmr (kmr s ∖ list_to_set ld.2)
    (putmap w ld.1 (set_effects (effects s ++ [Mark loc len PROT_I 0]) s)).

(** The freed region, before it is merged. *)
Definition unused (reg : region) : region :=
  set_r_flags (Z.land (r_flags reg) M_MAP) (set_r_links 0 reg).

Lemma freed_ok_run w b reg e s :
  at_place w s b reg e → map_of (r_flags reg) = Some w →
  let reg' := set_r_flags (Z.land (r_flags reg) M_MAP) reg in
  NoDup (release b reg' e).2 → (∀ x, x ∈ (release b reg' e).2 → x ∈ kmr s) →
  free_to_map (r_addr reg) s =
  Some (tt, freed w (r_loc reg) (r_len reg) (release b reg' e) s).
Proof.
  intros Hat Hw reg' Hnd Hin. unfold free_to_map.
  rewrite (bind_run _ _ _ _ _ (getr_at w s b reg e Hat)), Hw.
  rewrite (bind_run _ _ _ _ _ (modr_at w s b reg e _ Hat)). fold reg'.
  assert (at_place w (putmap w (b ++ reg' :: e) s) b reg' e) as Hat'
    by (by apply (at_place_put w s b reg e)).
  change (r_addr reg) with (r_addr reg').
  rewrite (bind_run _ _ _ _ _ (getr_at _ _ _ _ _ Hat')).
  unfold mark_region, emit. erewrite (bind_run (mmod _)) by reflexivity.
  erewrite (bind_run (mgets _)) by reflexivity.
  replace (getmap w (set_effects _ _)) with (b ++ reg' :: e) by (by destruct w).
  rewrite (find_first_addr _ b reg' e).
  2: { by destruct (at_place_nodup _ _ _ _ _ Hat'). }
  2: { done. }
  destruct (release b reg' e) as [l d]. cbn in Hnd, Hin.
  erewrite (bind_run (mmod _)) by reflexivity.
  rewrite kmr_free_all_run; [|done|].
  - unfold freed. cbn. by destruct w, s.
  - intros x Hx. rewrite kmr_putmap. destruct w; cbn; auto.
Qed.

Lemma unused_ok w reg : region_ok w reg → region_ok w (unused reg).
Proof.
  intros [Hl Hn He Ha Hk Hm [Hp1 [Hp2 Hp3]] Hf]. constructor; cbn; try done.
  - by rewrite map_of_masked.
  - split; [|done]. unfold not_saved. cbn. rewrite <- Z.land_assoc.
    change (Z.land M_MAP M_FSAVED) with 0. by rewrite Z.land_0_r.
  - intros _. by rewrite <- Z.land_assoc.
Qed.

Lemma gap_unused w b reg e : map_ok w (b ++ reg :: e) → gap w b (unused reg) e.
Proof.
  intros [Hall Hch]. apply Forall_app in Hall as [Hb [Hr He]%Forall_cons].
  apply chain_mid in Hch as (Hc1 & Hc2 & Hc3 & Hc4).
  constructor; try done.
  - by apply unused_ok.
  - by apply chain_apart_before in Hc2.
  - apply chain_apart_before in Hc3. done.
Qed.

(** What [release] leaves of a well-formed map. *)
Lemma freed_state_ok w b reg e s :
  mem_ok s → getmap w s = b ++ reg :: e →
  let ld := release b (unused reg) e in
  used ld.1 = used (b ++ e) ∧ total ld.1 = total (b ++ reg :: e) ∧
  mem_ok (freed w (r_loc reg) (r_len reg) ld s) ∧
  NoDup ld.2 ∧ (∀ x, x ∈ ld.2 → x ∈ kmr s).
Proof.
  intros Hok Hm. pose proof (mem_ok_map w s Hok) as Hmap. rewrite Hm in Hmap.
  pose proof (gap_unused w b reg e Hmap) as Hgap.
  destruct (release b (unused reg) e) as [l d] eqn:Hrel.
  destruct (release_ok _ _ _ _ _ _ Hgap Hrel) as (Hl & Hu & Ht & Hp). cbn zeta.
  assert (r_addr <$> getmap w s ≡ₚ d ++ (r_addr <$> l)) as Hp'.
  { rewrite Hm, <- Hp. by rewrite !fmap_app, !fmap_cons. }
  split; [done|]. split; [by rewrite !total_app in *|].
  split; [|split].
  - apply (mem_ok_put w l s _ [] d); try done.
    + by destruct w.
    + by destruct w.
    + unfold freed. cbn. set_solver.
    + apply NoDup_nil_2.
    + set_solver.
  - pose proof (NoDup_addrs w s Hok) as Hnd. rewrite Hp' in Hnd.
    by apply NoDup_app in Hnd as [[Hnd _]%NoDup_app _].
  - intros x Hx. apply (mo_kmr s Hok). fold (addrs s).
    rewrite addrs_map, Hp'. set_solver.
Qed.

(** [unref_memreg] of the last link of a region. *)
Lemma unref_run ph p w s b reg e :
  mem_ok s → getmap w s = b ++ reg :: e → r_links reg = 1 →
  unref_memreg ph p (r_addr reg) s =
  Some (tt, freed w (r_loc reg) (r_len reg) (release b (unused reg) e) s).
Proof.
  intros Hok Hm Hl. destruct (freed_state_ok w b reg e s Hok Hm) as (_ & _ & _ & Hnd & Hin).
  pose proof (mem_ok_at w s b reg e Hok Hm) as Hat.
  assert (region_ok w reg) as [_ _ _ _ _ Hw [Hns [_ Hsh]] _].
  { destruct (mem_ok_map w s Hok) as [Hall _]. rewrite Hm in Hall.
    by apply Forall_app in Hall as [_ [? _]%Forall_cons]. }
  unfold unref_memreg. rewrite (bind_run _ _ _ _ _ (modr_at w s b reg e _ Hat)).
  rewrite Hl. set (reg0 := set_r_links (1 - 1) reg). set (s0 := putmap w _ s).
  assert (at_place w s0 b reg0 e) as Hat0 by (by apply (at_place_put w s b reg e)).
  change (r_addr reg) with (r_addr reg0).
  pose proof (getr_at _ _ _ _ _ Hat0) as Hget.
  rewrite (bind_run _ _ _ _ _ Hget). change (r_links reg0 =? 0) with true. cbv iota.
  unfold free_region. rewrite (bind_run _ _ _ _ _ Hget).
  rewrite (bind_run (massert (ISFREE reg0)) _ _ tt s0) by done.
  rewrite (bind_run (massert (not_saved reg0)) _ _ tt s0) by (by apply massert_run).
  change (r_shadow reg0) with (r_shadow reg). rewrite Hsh.
  rewrite (freed_ok_run w b reg0 e s0); try done.
  - f_equal. f_equal. unfold s0. by destruct w.
  - intros x Hx. unfold s0. rewrite kmr_putmap. by apply Hin.
Qed.

(** dropping the last link of a region returns it: the maps stay well-formed
    (in particular free neighbours have been merged and their descriptors given
    back), the allocated regions are the former ones without it, and the map
    still describes the same amount of memory. *)
Theorem unref_memreg_spec ph p w s b reg e :
  mem_ok s → getmap w s = b ++ reg :: e → r_links reg = 1 →
  ∃ s', unref_memreg ph p (r_addr reg) s = Some (tt, s') ∧ mem_ok s' ∧
  used (getmap w s) = used b ++ reg :: used e ∧
  used (getmap w s') = used b ++ used e ∧
  total (getmap w s') = total (getmap w s) ∧
  getmap (other w) s' = getmap (other w) s.
Proof.
  intros Hok Hm Hl. eexists. split; [by apply unref_run|].
  destruct (freed_state_ok w b reg e s Hok Hm) as (Hu & Ht & Hok' & _).
  split; [done|]. rewrite used_app in Hu.
  replace (getmap w (freed _ _ _ _ s)) with (release b (unused reg) e).1 by (by destruct w).
  split; [|split; [|split]].
  - rewrite Hm, used_app, used_cons. unfold ISFREE. by rewrite Hl.
  - done.
  - by rewrite Ht, Hm.
  - by destruct w.
Qed.

(** Whether anything is in front of it, a region that touches no free region
    before it is merged with its successor only. *)
Lemma release_no_left w b reg e :
  Forall (region_ok w) b → r_len reg ≠ 0 →
  (∀ m, last b = Some m → ISFREE m = true → r_loc m + r_len m ≠ r_loc reg) →
  release b reg e = (b ++ (merge_after reg e).1, (merge_after reg e).2).
Proof.
  intros Hb Hlen Hno. unfold release.
  replace (r_len reg =? 0) with false by (symmetry; by apply Z.eqb_neq).
  destruct (last b) as [m|] eqn:Hlast.
  - assert (region_ok w m) as Hm.
    { rewrite Forall_forall in Hb. apply Hb. by apply last_Some_elem_of. }
    rewrite (r_end_ok w m) by done. specialize (Hno m eq_refl).
    destruct (ISFREE m); cbn [andb].
    + replace (_ =? _) with false by (symmetry; apply Z.eqb_neq; auto).
      by destruct (merge_after reg e).
    + by destruct (merge_after reg e).
  - apply last_None in Hlast as ->. by destruct (merge_after reg e).
Qed.

(** Freeing what was cut off [n] gives [n] back. *)
Lemma unused_granted w size mode n :
  cut_ok w size n →
  set_r_len (r_len n) (unused (granted size mode n)) = n.
Proof.
  intros [[Hl Hn He Ha Hk Hm Hp Hf] Hfr Hs Hal]. specialize (Hf Hfr).
  unfold ISFREE in Hfr. bool_to_prop.
  assert (Z.land (granted_flags mode (r_flags n)) M_MAP = r_flags n) as Hflags.
  { unfold granted_flags. destruct (negb _); [by rewrite land_lor_0|done]. }
  unfold unused, granted. cbn. rewrite Hflags. destruct n. cbn in *. by subst.
Qed.

Lemma release_granted w b n e size mode a :
  cut_ok w size n → map_ok w (b ++ n :: e) →
  release b (unused (granted size mode n)) (leftover a size n ++ e) =
  (b ++ n :: e, r_addr <$> leftover a size n).
Proof.
  intros Hcut [Hall Hch]. pose proof (unused_granted w size mode n Hcut) as Hg.
  set (g := unused (granted size mode n)) in *.
  destruct Hcut as [Hn Hfr Hs Hal]. apply Forall_app in Hall as [Hb [_ He]%Forall_cons].
  apply chain_mid in Hch as (Hc1 & Hc2 & Hc3 & Hc4).
  rewrite (release_no_left w); [|done|cbn; lia|].
  2: { intros m Hlast Hm. rewrite Hlast in Hc2. destruct Hc2 as [_ Hne]. by apply Hne. }
  assert (r_end g = r_loc n + size) as Hend.
  { unfold r_end. cbn. apply u32_id. destruct Hn. lia. }
  unfold leftover. case_bool; bool_to_prop; cbn [app fmap list_fmap].
  - assert (g = n) as Hgn.
    { transitivity (set_r_len (r_len n) g); [by rewrite E|done]. }
    unfold merge_after. destruct e as [|m e]; [by rewrite Hgn|].
    destruct Hc3 as [_ Hne]. specialize (Hne Hfr). rewrite Hend.
    destruct (ISFREE m); cbn [andb]; [|by rewrite Hgn].
    specialize (Hne eq_refl). replace (_ =? _) with false by (symmetry; apply Z.eqb_neq; lia).
    by rewrite Hgn.
  - unfold merge_after. rewrite Hend. cbn.
    rewrite u32_id by (destruct Hn; lia). rewrite Z.eqb_refl. cbn.
    replace (u32 (size + (r_len n - size))) with (r_len n); [by rewrite Hg|].
    replace (size + (r_len n - size)) with (r_len n) by lia.
    symmetry. apply u32_id. destruct Hn. lia.
Qed.

(** allocation and release are inverse: after [get_region] has given out a
    region, dropping its only link puts both memory maps and the set of region
    descriptors back exactly as they were, descriptor by descriptor. *)
Theorem get_unref_roundtrip w s size mode a n s1 ph p :
  mem_ok s → 0 ≤ size < 4294967296 → a ∉ kmr s →
  get_region (Some a) w size mode s = Some (Some n, s1) →
  ∃ s2, unref_memreg ph p n s1 = Some (tt, s2) ∧
  core s2 = core s ∧ alt s2 = alt s ∧ kmr s2 = kmr s.
Proof.
  intros Hok Hs Ha Hget.
  destruct (find_first (fits (region_size size)) (getmap w s)) as [[[b x] e]|] eqn:Hff.
  2: { rewrite get_region_none in Hget by done. done. }
  destruct (fits_cut w s size b x e Hok Hs Hff) as (Hm & Hcut & Hb).
  rewrite Hm in Hff.
  rewrite (get_region_some w s size mode a b x e) in Hget by done.
  injection Hget as <- <-. pose proof (got_ok w _ mode a b x e s Hok Ha Hm Hcut) as Hok1.
  pose proof (getmap_got w (region_size size) mode a b x e s) as Hm1.
  pose proof (unref_run ph p w _ b _ _ Hok1 Hm1 eq_refl) as Hrun.
  eexists. split; [exact Hrun|]. pose proof (mem_ok_map w s Hok) as Hmap.
  rewrite Hm in Hmap. rewrite (release_granted w) by done.
  assert (kmr s = kmr (freed w (r_loc x) (region_size size)
    (b ++ x :: e, r_addr <$> leftover a (region_size size) x)
    (got w (region_size size) mode a b x e s))) as Hk.
  { unfold freed. cbn. rewrite kmr_got. unfold leftover. case_bool; cbn; set_solver. }
  pose proof (getmap_other_got w (region_size size) mode a b x e s) as Hother.
  destruct w; cbn in *; rewrite <- ?Hk; auto.
Qed.

(** ** The largest free region *)

Definition max_free (l : list region) : Z :=
  foldr (λ r n, if ISFREE r then Z.max (r_len r) n else n) 0 l.

Lemma chain_after m l x :
  Forall (λ r, 0 < r_len r) l → chain apart (m :: l) → x ∈ l →
  r_loc m + r_len m ≤ r_loc x ∧
  (ISFREE m = true → ISFREE x = true → r_loc m + r_len m ≠ r_loc x).
Proof.
  revert m. induction l as [|y l IH]; intros m Hlen [Hlink Hch] Hx.
  { by apply not_elem_of_nil in Hx. }
  apply Forall_cons in Hlen as [Hy Hlen]. cbn in Hlink.
  apply elem_of_cons in Hx as [->|Hx]; [done|].
  destruct (IH y Hlen Hch Hx) as [Hle _]. destruct Hlink as [Hmy _]. split; [lia|].
  intros _ _. lia.
Qed.

Lemma scan_all_free w l size lastsize last_end :
  Forall (region_ok w) l → Forall (λ r, r_len r < 2147483648) l → chain apart l →
  (∀ x, x ∈ l → ISFREE x = true → run_len x lastsize last_end = r_len x) →
  0 ≤ size → scan_all 0 l size lastsize last_end = Z.max size (max_free l).
Proof.
  intros Hok Hlen. revert size lastsize last_end.
  induction l as [|m l IH]; intros size lastsize last_end Hch Hrun Hsize; [cbn; lia|].
  apply Forall_cons in Hok as [Hm Hok]. apply Forall_cons in Hlen as [Hml Hlen].
  assert (Forall (λ r, 0 < r_len r) l) as Hpos
    by (eapply Forall_impl; [exact Hok|]; by intros r []).
  assert (reclaimable2 m = ISFREE m) as Hrec.
  { unfold reclaimable2, reclaimable1, ISFREE. pose proof (ro_links w m Hm).
    destruct (Z.eqb_spec (r_links m) 0); [done|].
    replace (r_links m =? -2) with false by lia.
    by replace (r_links m =? -1) with false by lia. }
  pose proof Hch as [_ Hcl]. cbn [scan_all]. rewrite Hrec.
  change (max_free (m :: l)) with
    (if ISFREE m then Z.max (r_len m) (max_free l) else max_free l).
  destruct (ISFREE m) eqn:Hf.
  - rewrite Hrun by (by try left). cbn [andb negb Z.eqb].
    assert (∀ x, x ∈ l → ISFREE x = true → run_len x (r_len m) (r_end m) = r_len x) as Hrun'.
    { intros x Hx Hxf. unfold run_len. rewrite (r_end_ok w m) by done.
      destruct (chain_after m l x Hpos Hch Hx) as [_ Hne]. specialize (Hne Hf Hxf).
      replace (_ =? _) with false by lia. rewrite Forall_forall in Hlen, Hpos.
      apply s32_id. specialize (Hlen x Hx). specialize (Hpos x Hx). lia. }
    destruct Hm. case_bool; bool_to_prop; rewrite IH by (auto || lia); lia.
  - rewrite IH; [done..| |done].
    intros x Hx. apply Hrun. by right.
Qed.

Lemma max_rsize_free w l :
  map_ok w l → Forall (λ r, r_len r < 2147483648) l → max_rsize l 0 = max_free l.
Proof.
  intros [Hok Hch] Hlen. unfold max_rsize. cbn [Z.eqb negb andb].
  rewrite (scan_all_free w); try done.
  - assert (0 ≤ max_free l); [|lia].
    clear. unfold max_free. induction l as [|r l IH]; cbn; [lia|]. case_bool; lia.
  - intros x Hx _. rewrite Forall_forall in Hlen, Hok.
    specialize (Hlen x Hx). destruct (Hok x Hx).
    unfold run_len. case_bool; apply s32_id; lia.
Qed.

Lemma max_free_fits l size :
  0 < size → size ≤ max_free l ↔ ∃ r, r ∈ l ∧ fits size r = true.
Proof.
  intros Hs. unfold max_free. induction l as [|m l IH]; cbn.
  { split; [lia|]. by intros (r & Hr%not_elem_of_nil & _). }
  assert (fits size m = ISFREE m && (size <=? r_len m)) as Hfit
    by (unfold fits; by rewrite Z.geb_leb).
  split.
  - intros Hle. destruct (fits size m) eqn:E; [exists m; by split; [left|]|].
    destruct IH as [IH _]. destruct IH as (r & Hr & Hf).
    + destruct (ISFREE m); [|done]. cbn in Hfit. symmetry in Hfit. bool_to_prop. lia.
    + exists r. split; [by right|done].
  - intros (r & [->|Hr]%elem_of_cons & Hf).
    + rewrite Hfit in Hf. bool_to_prop. case_bool; [lia|congruence].
    + destruct IH as [_ IH]. specialize (IH ltac:(by exists r)). case_bool; lia.
Qed.

(** [max_rsize] with no bound is the size of the largest free region, and so
    it decides [get_region]: a request succeeds exactly when, rounded up to a
    page, it is at most [max_rsize] of the map. *)
Theorem max_rsize_get_region w s size mode a :
  mem_ok s → Forall (λ r, r_len r < 2147483648) (getmap w s) →
  0 ≤ size < 4294967296 → a ∉ kmr s →
  max_rsize (getmap w s) 0 = max_free (getmap w s) ∧
  ((∃ n s', get_region (Some a) w size mode s = Some (Some n, s')) ↔
   region_size size ≤ max_rsize (getmap w s) 0).
Proof.
  intros Hok Hlen Hs Ha.
  rewrite (max_rsize_free w) by (done || by apply mem_ok_map). split; [done|].
  destruct (region_size_spec size Hs) as ([Hpos _] & _). rewrite max_free_fits by done.
  destruct (find_first (fits (region_size size)) (getmap w s)) as [[[b x] e]|] eqn:Hff.
  - destruct (fits_cut w s size b x e Hok Hs Hff) as (Hm & Hcut & Hb).
    destruct (find_first_spec _ _ _ _ _ Hff) as (_ & Hx & _).
    split; intros _.
    + exists x. rewrite Hm. split; [set_solver|done].
    + eexists _, _. apply get_region_some; try done. by rewrite <- Hm.
  - rewrite get_region_none by done. pose proof (find_first_none _ _ Hff) as Hno.
    rewrite Forall_forall in Hno. split.
    + by intros (n & s' & [=]).
    + intros (r & Hr & Hf). by rewrite Hno in Hf.
Qed.

(** ** Shrinking *)

(** The part of [reg] above [size] joins the free region behind it. *)
Definition grown_left (d : Z) (n : region) : region :=
  set_r_loc (r_loc n - d) (set_r_len (r_len n + d) n).

Definition adjoins (reg : region) (e : list region) : bool :=
  match e with n :: _ => ISFREE n && (r_end reg =? r_loc n) | [] => false end.

(** The rest of the map after [reg] was cut down to [size]. *)
Definition shrunk_rest (a : ptr) (size : Z) (reg : region) (e : list region) : list region :=
  if adjoins reg e then
    match e with n :: e' => grown_left (r_len reg - size) n :: e' | [] => [] end
  else remainder a size reg :: e.

Lemma remainder_used_ok w a size reg :
  region_ok w reg → 0 < size < r_len reg → (QUANTUM | size) →
  region_ok w (remainder a size reg) ∧ r_loc (remainder a size reg) = r_loc reg + size.
Proof.
  intros [Hl Hn He [Ha1 Ha2] Hk Hm Hp Hf] Hs Hal.
  assert (u32 (r_loc reg + size) = r_loc reg + size) as Hu by (apply u32_id; lia).
  split; [|done]. constructor; cbn; rewrite ?Hu; try done; try lia.
  - split; [by apply Z.divide_add_r|by apply Z.divide_sub_r].
  - by rewrite map_of_masked.
  - split; [|done]. unfold not_saved. cbn. rewrite <- Z.land_assoc.
    change (Z.land M_MAP M_FSAVED) with 0. by rewrite Z.land_0_r.
  - intros _. by rewrite <- Z.land_assoc.
Qed.

Lemma cut_len_ok w size reg :
  region_ok w reg → 0 < size < r_len reg → (QUANTUM | size) →
  region_ok w (set_r_len size reg).
Proof.
  intros [Hl Hn He [Ha1 Ha2] Hk Hm Hp Hf] Hs Hal. constructor; cbn; try done; lia.
Qed.

Lemma grown_left_ok w reg n d :
  region_ok w reg → region_ok w n → 0 < d < r_len reg → (QUANTUM | d) →
  r_loc reg + r_len reg = r_loc n → region_ok w (grown_left d n).
Proof.
  intros [Hl1 _ He1 _ _ _ _ _] [Hl2 Hn2 He2 [Ha1 Ha2] Hk2 Hm2 Hp2 Hf2] Hd Hal Heq.
  constructor; cbn; try done; try lia.
  split; [by apply Z.divide_sub_r|by apply Z.divide_add_r].
Qed.

Lemma shrunk_ok w b reg e size a :
  map_ok w (b ++ reg :: e) → ISFREE reg = false → 0 < size < r_len reg →
  (QUANTUM | size) →
  let l := b ++ set_r_len size reg :: shrunk_rest a size reg e in
  map_ok w l ∧ used l = used b ++ set_r_len size reg :: used e ∧
  total l = total (b ++ reg :: e).
Proof.
  intros [Hall Hch] Huse Hs Hal. apply Forall_app in Hall as [Hb [Hr He]%Forall_cons].
  apply chain_mid in Hch as (Hc1 & Hc2 & Hc3 & Hc4). cbn zeta.
  pose proof (cut_len_ok w size reg Hr Hs Hal) as Hr'.
  assert (link apart (last b) (Some (set_r_len size reg))) as Hc2' by (by destruct (last b)).
  assert (ISFREE (set_r_len size reg) = false) as Huse' by done.
  unfold shrunk_rest, adjoins. destruct e as [|n e].
  - destruct (remainder_used_ok w a size reg Hr Hs Hal) as [Hm Hloc].
    split; [split; [by rewrite Forall_app, !Forall_cons|]|].
    + rewrite chain_mid. split; [done|]. split; [done|]. split; [|done].
      split; [rewrite Hloc; cbn; lia|]. by rewrite Huse'.
    + rewrite used_app, !used_cons, Huse', !total_app. split; [done|]. unfold total. cbn. lia.
  - apply Forall_cons in He as [Hn He]. rewrite (r_end_ok w reg) by done.
    destruct Hc3 as [Hrn _]. destruct Hc4 as [Hne Hce].
    destruct (ISFREE n && (r_loc reg + r_len reg =? r_loc n)) eqn:E.
    + bool_to_prop. set (m := grown_left (r_len reg - size) n).
      assert (region_ok w m) as Hm.
      { apply (grown_left_ok w reg); try done; [lia|]. apply Z.divide_sub_r; [apply Hr|done]. }
      split; [split; [by rewrite Forall_app, !Forall_cons|]|].
      * rewrite chain_mid. split; [done|]. split; [done|]. split.
        { split; [cbn; lia|]. by rewrite Huse'. }
        split; [|done]. destruct (head e); [|done]. cbn in *. unfold apart in *. cbn.
        replace (r_loc n - (r_len reg - size) + (r_len n + (r_len reg - size)))
          with (r_loc n + r_len n) by lia. done.
      * rewrite used_app, !used_cons, Huse', !total_app.
        change (ISFREE m) with (ISFREE n). rewrite H. split; [done|]. unfold total. cbn. lia.
    + destruct (remainder_used_ok w a size reg Hr Hs Hal) as [Hm Hloc].
      split; [split; [by rewrite Forall_app, !Forall_cons|]|].
      * rewrite chain_mid. split; [done|]. split; [done|]. split.
        { split; [rewrite Hloc; cbn; lia|]. by rewrite Huse'. }
        split; [|done]. cbn. unfold apart. rewrite Hloc.
        change (r_len (remainder a size reg)) with (r_len reg - size).
        split; [lia|]. intros _ Hf Heq. rewrite Hf in E. cbn in E. lia.
      * rewrite used_app, !used_cons, Huse', !total_app. split; [done|]. unfold total. cbn. lia.
Qed.

(** The state after a region was cut down. *)
Definition shrunk (w : mmap) (b : list region) (reg : region) (e : list region)
    (size : Z) (a : ptr) (s : mstate) : mstate :=
  let m := match shrunk_rest a size reg e with m :: _ => m | [] => reg end in
  putmap w (b ++ set_r_len size reg :: shrunk_rest a size reg e)
    (set_effects (effects s ++ [Mark (r_loc m) (r_len m) PROT_I 0])
       (if adjoins reg e then s else with_kmr a s)).

Lemma shrink_run ph cur w s b reg e nsize a :
  mem_ok s → getmap w s = b ++ reg :: e → 0 < r_links reg →
  0 < ROUND nsize < r_len reg →
  shrink_region (Some a) ph cur (r_addr reg) nsize s =
  Some (0, shrunk w b reg e (ROUND nsize) a s).
Proof.
  intros Hok Hm Hl Hs. pose proof (mem_ok_at w s b reg e Hok Hm) as Hat.
  assert (region_ok w reg) as [_ _ _ _ _ Hw [Hns [_ Hsh]] _].
  { destruct (mem_ok_map w s Hok) as [Hall _]. rewrite Hm in Hall.
    by apply Forall_app in Hall as [_ [? _]%Forall_cons]. }
  unfold shrink_region. rewrite (bind_run _ _ _ _ _ (getr_at _ _ _ _ _ Hat)).
  rewrite (bind_run (massert _) _ s tt s) by (apply massert_run; lia).
  rewrite (bind_run (massert _) _ s tt s).
  2: { apply massert_run. apply negb_true_iff, Z.eqb_neq. intros H0.
    unfold map_of in Hw. rewrite !Z.land_lor_distr_r in H0.
    apply Z.lor_eq_0_iff in H0 as [H1 H0]. apply Z.lor_eq_0_iff in H0 as [H2 _].
    by rewrite H1, H2 in Hw. }
  replace (ROUND nsize =? 0) with false by lia.
  replace (ROUND nsize =? r_len reg) with false by lia.
  replace (ROUND nsize >? r_len reg) with false by lia.
  rewrite decide_False by (intros Hn; by apply Hn). rewrite Hw.
  erewrite (bind_run (mgets (getmap w))) by reflexivity. rewrite Hm.
  rewrite (find_first_addr _ b reg e) by (done || by destruct (at_place_nodup _ _ _ _ _ Hat)).
  unfold shrunk, shrunk_rest, adjoins. destruct e as [|n e]; [by destruct w|].
  destruct (ISFREE n && (r_end reg =? r_loc n)); by destruct w.
Qed.

Lemma ROUND_align n : (QUANTUM | ROUND n).
Proof. rewrite round_spec. apply Z.divide_factor_l. Qed.

(** [shrink_region] cuts an allocated region at the new size rounded up to a
    page: the region stays where it is, the rest becomes free memory (joined to
    the free region behind it when there is one), the other allocated regions
    and the amount of memory in the map do not change, and the maps stay
    well-formed. *)
Theorem shrink_region_spec ph cur w s b reg e nsize a :
  mem_ok s → a ∉ kmr s → getmap w s = b ++ reg :: e → 0 < r_links reg →
  0 < ROUND nsize < r_len reg →
  ∃ s', shrink_region (Some a) ph cur (r_addr reg) nsize s = Some (0, s') ∧
  mem_ok s' ∧ getmap (other w) s' = getmap (other w) s ∧
  used (getmap w s) = used b ++ reg :: used e ∧
  used (getmap w s') = used b ++ set_r_len (ROUND nsize) reg :: used e ∧
  total (getmap w s') = total (getmap w s).
Proof.
  intros Hok Ha Hm Hl Hs. eexists. split; [by apply shrink_run|].
  pose proof (mem_ok_map w s Hok) as Hmap. rewrite Hm in Hmap.
  assert (ISFREE reg = false) as Huse by (unfold ISFREE; lia).
  destruct (shrunk_ok w b reg e (ROUND nsize) a Hmap Huse Hs (ROUND_align _))
    as (Hl' & Hu & Ht).
  assert (getmap w (shrunk w b reg e (ROUND nsize) a s) =
          b ++ set_r_len (ROUND nsize) reg :: shrunk_rest a (ROUND nsize) reg e) as Hm'
    by apply getmap_putmap.
  assert (getmap (other w) (shrunk w b reg e (ROUND nsize) a s) = getmap (other w) s) as Ho.
  { unfold shrunk. rewrite getmap_other. by destruct w, (adjoins reg e). }
  split; [|split; [done|split; [|split]]].
  - apply (mem_ok_put w _ s _ (if adjoins reg e then [] else [a]) []
             Hok Hl' Hm' Ho).
    + unfold shrunk. rewrite kmr_putmap. destruct (adjoins reg e); cbn; set_solver.
    + destruct (adjoins reg e); [apply NoDup_nil_2|apply NoDup_singleton].
    + destruct (adjoins reg e); set_solver.
    + rewrite Hm. unfold shrunk_rest. destruct (adjoins reg e) eqn:Hadj.
      * destruct e; [done|]. by rewrite !fmap_app, !fmap_cons.
      * rewrite !fmap_app, !fmap_cons. cbn. solve_Permutation.
  - by rewrite Hm, used_app, used_cons, Huse.
  - by rewrite Hm'.
  - by rewrite Hm', Hm.
Qed.

(** ** [realloc_region] without a region *)

Lemma last_fit_probe w l : Forall (region_ok w) l → last_fit (-1) None l = None.
Proof.
  induction 1 as [|m l Hm Hl IH]; [done|]. cbn [last_fit].
  change (u32 (-1)) with 4294967295.
  replace (r_len m >=? 4294967295) with false.
  2: { symmetry. rewrite Z.geb_leb. apply Z.leb_gt.
    destruct Hm as [? ? ? [_ [k Hk]]]. unfold QUANTUM in Hk. lia. }
  by destruct (ISFREE m).
Qed.

(** asking [realloc_region] for the largest block that could be had (no
    region and the size [-1]) answers 0 on every well-formed map, however much
    memory is free, and the descriptor that was allocated at the start is lost:
    it is in use but in no map. *)
Theorem realloc_probe_fails s a :
  mem_ok s → a ∉ kmr s →
  ∃ s', realloc_region (Some a) None (-1) s = Some (0, s') ∧
  core s' = core s ∧ alt s' = alt s ∧ a ∈ kmr s' ∧ a ∉ addrs s'.
Proof.
  intros Hok Ha. exists (with_kmr a s). split; [|split; [|split; [|split]]].
  - unfold realloc_region, realloc_new. cbn [Z.eqb Pos.eqb].
    rewrite (bind_run (kmr_get (Some a)) _ s (Some a) (with_kmr a s) eq_refl).
    erewrite (bind_run (mgets core)) by reflexivity.
    by rewrite (last_fit_probe Core) by apply Hok.
  - done.
  - done.
  - cbn. set_solver.
  - intros Hin. apply Ha. by apply (mo_kmr s Hok).
Qed.

(** ** Examples *)

Definition ex_region (a : ptr) (loc len links flags : Z) : region :=
  mk_region a loc len links flags 0 None.
(** A core map with an allocated region between two free ones. *)
Definition ex_mem : mstate :=
  mk_mstate
    [ex_region 1 65536 16384 0 M_CORE; ex_region 2 81920 24576 1 M_CORE;
     ex_region 3 106496 32768 0 M_CORE]
    [ex_region 4 16777216 65536 0 M_ALT] {[1%positive; 2%positive; 3%positive; 4%positive]} ∅ [].

Lemma ex_region_ok w a loc len links flags :
  0 ≤ loc → 0 < len → loc + len < 4294967296 → (loc mod QUANTUM = 0 ∧ len mod QUANTUM = 0) →
  0 ≤ links → map_of flags = Some w → Z.land flags M_FSAVED = 0 →
  Z.land flags M_MAP = flags → region_ok w (ex_region a loc len links flags).
Proof.
  intros ? ? ? [? ?] ? ? Hs ?. constructor; cbn; try done.
  - by split; apply Z.mod_divide.
  - split; [|done]. unfold not_saved. cbn. by rewrite Hs.
Qed.

Lemma ex_mem_ok : mem_ok ex_mem.
Proof.
  constructor.
  - split; [|done]. cbn. repeat (apply Forall_cons; split); try done;
      apply ex_region_ok; try done; lia.
  - split; [|done]. cbn. repeat (apply Forall_cons; split); try done;
      apply ex_region_ok; try done; lia.
  - cbn. by apply (bool_decide_unpack _).
  - intros a. cbn. set_solver.
Qed.


Lemma ex_mem_fresh : 9%positive ∉ kmr ex_mem.
Proof. by apply (bool_decide_unpack _). Qed.

Lemma get_region_spec_witness :
  mem_ok ex_mem ∧ 9%positive ∉ kmr ex_mem ∧
  ∃ res s', get_region (Some 9%positive) Core 20000 PROT_P ex_mem = Some (res, s') ∧
  mem_ok s' ∧ total (core s') = total (core ex_mem).
Proof.
  split; [apply ex_mem_ok|]. split; [apply ex_mem_fresh|].
  destruct (get_region_spec Core ex_mem 20000 PROT_P 9 ex_mem_ok ltac:(lia) ex_mem_fresh)
    as (res & s' & Hrun & Hok & Ht & _).
  exists res, s'. auto.
Defined.

Lemma unref_memreg_spec_witness :
  getmap Core ex_mem = [ex_region 1 65536 16384 0 M_CORE] ++
    ex_region 2 81920 24576 1 M_CORE :: [ex_region 3 106496 32768 0 M_CORE] ∧
  ∃ s', unref_memreg 0 7 2 ex_mem = Some (tt, s') ∧ mem_ok s' ∧ used (core s') = [].
Proof.
  split; [done|].
  destruct (unref_memreg_spec 0 7 Core ex_mem [ex_region 1 65536 16384 0 M_CORE]
    (ex_region 2 81920 24576 1 M_CORE) [ex_region 3 106496 32768 0 M_CORE]
    ex_mem_ok eq_refl eq_refl) as (s' & Hrun & Hok & _ & Hu & _).
  exists s'. auto.
Defined.

Lemma get_unref_roundtrip_witness :
  ∃ n s1 s2, get_region (Some 9%positive) Core 20000 PROT_P ex_mem = Some (Some n, s1) ∧
  n = 3%positive ∧ core s1 ≠ core ex_mem ∧
  unref_memreg 0 7 n s1 = Some (tt, s2) ∧ core s2 = core ex_mem ∧ kmr s2 = kmr ex_mem.
Proof.
  assert (∃ s1, get_region (Some 9%positive) Core 20000 PROT_P ex_mem =
                Some (Some 3%positive, s1) ∧ core s1 ≠ core ex_mem) as (s1 & Hget & Hne)
    by (eexists; split; [vm_compute; reflexivity|discriminate]).
  destruct (get_unref_roundtrip Core ex_mem 20000 PROT_P 9 3 s1 0 7
    ex_mem_ok ltac:(lia) ex_mem_fresh Hget) as (s2 & Hrun & Hc & _ & Hk).
  exists 3%positive, s1, s2. done.
Defined.

Lemma max_rsize_get_region_witness :
  max_rsize (core ex_mem) 0 = 32768 ∧
  ((∃ n s', get_region (Some 9%positive) Core 32768 PROT_P ex_mem = Some (Some n, s')) ↔
   region_size 32768 ≤ max_rsize (core ex_mem) 0).
Proof.
  assert (Forall (λ r, r_len r < 2147483648) (getmap Core ex_mem)) as Hlen
    by (cbn; repeat (apply Forall_cons; split); cbn; (lia || constructor)).
  destruct (max_rsize_get_region Core ex_mem 32768 PROT_P 9 ex_mem_ok Hlen
    ltac:(lia) ex_mem_fresh) as [Hmax Hiff].
  split; [exact Hmax|exact Hiff].
Defined.

Lemma shrink_region_spec_witness :
  ∃ s', shrink_region (Some 9%positive) 0 7 2 8000 ex_mem = Some (0, s') ∧ mem_ok s' ∧
  used (core s') = [ex_region 2 81920 8192 1 M_CORE].
Proof.
  destruct (shrink_region_spec 0 7 Core ex_mem [ex_region 1 65536 16384 0 M_CORE]
    (ex_region 2 81920 24576 1 M_CORE) [ex_region 3 106496 32768 0 M_CORE] 8000 9
    ex_mem_ok ex_mem_fresh eq_refl) as (s' & Hrun & Hok & _ & _ & Hu & _);
    [reflexivity|by vm_compute|].
  exists s'. split; [exact Hrun|]. split; [exact Hok|exact Hu].
Defined.

Lemma realloc_probe_fails_witness :
  ∃ s', realloc_region (Some 9%positive) None (-1) ex_mem = Some (0, s') ∧
  9%positive ∈ kmr s' ∧ 9%positive ∉ addrs s'.
Proof.
  destruct (realloc_probe_fails ex_mem 9 ex_mem_ok ex_mem_fresh)
    as (s' & Hrun & _ & _ & Hin & Hout).
  exists s'. auto.
Defined.
