(* ===== verification/Linked.v ===== *)
(** * Linked lists

    A structure that is linked through two fields is given by two functions: [N x] is the
    next of [x], [P x] the previous one.  [dll N P l] says that following the links from
    the first element gives the list [l], forwards and backwards; the lemmas say which
    links an operation has to set.  [chain N o l] is the same for one link. *)

From S2P Require Import Prelude.

Section linked.
Implicit Types (N P : Z → option Z) (l : list Z) (x y : Z) (p n : option Z).

(** ** The ends of a list *)

Definition head_or (l : list Z) (n : option Z) : option Z :=
  match l with [] => n | x :: _ => Some x end.
Fixpoint last_or (p : option Z) (l : list Z) : option Z :=
  match l with [] => p | x :: l => last_or (Some x) l end.

Lemma last_or_snoc p l x : last_or p (l ++ [x]) = Some x.
Proof. revert p. induction l as [|y l IH]; intros p; simpl; [done | apply IH]. Qed.

Lemma last_or_in p l x : last_or p l = Some x → p = Some x ∨ x ∈ l.
Proof.
  revert p. induction l as [|y l IH]; intros p; simpl; [by left |].
  intros [[= ->] | ?]%IH; right; set_solver.
Qed.

Lemma head_or_in n l x : head_or l n = Some x → n = Some x ∨ x ∈ l.
Proof. destruct l; simpl; [by left | intros [= ->]; right; set_solver]. Qed.

Lemma head_or_app l1 l2 n : head_or (l1 ++ l2) n = head_or l1 (head_or l2 n).
Proof. by destruct l1. Qed.

(** ** Segments *)

(** The elements of [l], between [p] and [n] *)
Fixpoint seg (N P : Z → option Z) (p : option Z) (l : list Z) (n : option Z) : Prop :=
  match l with
  | [] => True
  | x :: l => P x = p ∧ N x = head_or l n ∧ seg N P (Some x) l n
  end.

Lemma seg_app N P p l1 l2 n :
  seg N P p (l1 ++ l2) n ↔ seg N P p l1 (head_or l2 n) ∧ seg N P (last_or p l1) l2 n.
Proof.
  revert p. induction l1 as [|x l1 IH]; intros p; simpl; [tauto |].
  rewrite IH, head_or_app. tauto.
Qed.

Lemma seg_frame N P N' P' p l n :
  (∀ x, x ∈ l → N' x = N x ∧ P' x = P x) → seg N P p l n → seg N' P' p l n.
Proof.
  revert p. induction l as [|x l IH]; intros p E; simpl; [done |].
  intros (? & ? & ?). destruct (E x) as [-> ->]; [set_solver |].
  repeat split; auto. apply IH; [set_solver | done].
Qed.

(** The link of the last element is set. *)
Lemma seg_set_next N P N' P' p l n n' :
  NoDup l →
  (∀ x, x ∈ l → P' x = P x) →
  (∀ x, x ∈ l → N' x = if decide (last_or p l = Some x) then n' else N x) →
  seg N P p l n → seg N' P' p l n'.
Proof.
  revert p. induction l as [|x l IH]; intros p Hd EP EN; simpl; [done |].
  intros (Hp & Hn & Hs). apply NoDup_cons in Hd as [Hx Hd].
  split; [rewrite EP; set_solver |]. split.
  - rewrite EN by set_solver. simpl. destruct l as [|y l]; simpl.
    + by rewrite decide_True.
    + rewrite decide_False; [done |]. intros [[= ->] | ?]%last_or_in; set_solver.
  - apply IH; [done | set_solver | | done]. intros y Hy. apply EN. set_solver.
Qed.

(** The back link of the first element is set. *)
Lemma seg_set_prev N P N' P' p p' l n :
  NoDup l →
  (∀ x, x ∈ l → N' x = N x) →
  (∀ x, x ∈ l → P' x = if decide (head_or l None = Some x) then p' else P x) →
  seg N P p l n → seg N' P' p' l n.
Proof.
  destruct l as [|x l]; [done |]. intros [Hx Hd]%NoDup_cons EN EP (Hp & Hn & Hs). simpl.
  split; [rewrite EP by set_solver; simpl; by rewrite decide_True |].
  split; [rewrite EN; set_solver |].
  eapply seg_frame, Hs. intros y Hy. split; [apply EN; set_solver |].
  rewrite EP by set_solver. simpl. rewrite decide_False; [done |]. intros [= ->]. done.
Qed.

(** ** Doubly linked lists *)

Definition dll (N P : Z → option Z) (l : list Z) : Prop := NoDup l ∧ seg N P None l None.

Lemma dll_links N P l1 x l2 :
  dll N P (l1 ++ x :: l2) → P x = last_or None l1 ∧ N x = head_or l2 None.
Proof. intros [_ [_ (? & ? & _)]%seg_app]. done. Qed.

Lemma dll_ext N P N' P' l :
  (∀ x, x ∈ l → N' x = N x ∧ P' x = P x) → dll N P l → dll N' P' l.
Proof. intros E [? ?]. split; [done | by eapply seg_frame]. Qed.

Lemma dll_snoc N P N' P' l x :
  dll N P l → x ∉ l →
  (∀ y, y ∈ l → P' y = P y) →
  (∀ y, y ∈ l → N' y = if decide (last_or None l = Some y) then Some x else N y) →
  P' x = last_or None l → N' x = None →
  dll N' P' (l ++ [x]).
Proof.
  intros [Hd Hs] Hx EP EN HP HN. split; [apply NoDup_app; repeat split; auto; [set_solver |
    apply NoDup_singleton] |].
  apply seg_app. simpl. split; [by eapply seg_set_next | done].
Qed.

Lemma dll_remove N P N' P' l1 x l2 :
  dll N P (l1 ++ x :: l2) →
  (∀ y, y ∈ l1 ++ l2 → N' y = if decide (last_or None l1 = Some y) then head_or l2 None else N y) →
  (∀ y, y ∈ l1 ++ l2 → P' y = if decide (head_or l2 None = Some y) then last_or None l1 else P y) →
  dll N' P' (l1 ++ l2).
Proof.
  intros [Hd [H1 (_ & _ & H2)]%seg_app] EN EP.
  apply NoDup_app in Hd as (Hd1 & Hd12 & [Hx Hd2]%NoDup_cons). split.
  { apply NoDup_app. set_solver. }
  apply seg_app. split.
  - eapply seg_set_next, H1; [done | | ].
    + intros y Hy. rewrite EP by set_solver. rewrite decide_False; [done |].
      intros [? | ?]%head_or_in; set_solver.
    + intros y Hy. apply EN. set_solver.
  - eapply seg_set_prev, H2; [done | |].
    + intros y Hy. rewrite EN by set_solver. rewrite decide_False; [done |].
      intros [? | ?]%last_or_in; set_solver.
    + intros y Hy. apply EP. set_solver.
Qed.

Lemma dll_insert N P N' P' l1 x z l2 :
  dll N P (l1 ++ x :: l2) → z ∉ l1 ++ x :: l2 →
  (∀ y, y ∈ l1 ++ x :: l2 → N' y = if decide (y = x) then Some z else N y) →
  (∀ y, y ∈ l1 ++ x :: l2 → P' y = if decide (head_or l2 None = Some y) then Some z else P y) →
  P' z = Some x → N' z = head_or l2 None →
  dll N' P' (l1 ++ x :: z :: l2).
Proof.
  intros [Hd [H1 (Hp & Hn & H2)]%seg_app] Hz EN EP HP HN.
  apply NoDup_app in Hd as (Hd1 & Hd12 & [Hx Hd2]%NoDup_cons).
  assert (∀ y, y ∈ x :: l1 → head_or l2 None ≠ Some y) as Hh.
  { intros y Hy [? | ?]%head_or_in; set_solver. }
  split; [apply NoDup_app; rewrite !NoDup_cons; set_solver |].
  apply seg_app. simpl. repeat split.
  - eapply seg_frame, H1. intros y Hy. split; [rewrite EN by set_solver | rewrite EP by set_solver].
    + rewrite decide_False; [done | set_solver].
    + rewrite decide_False; [done | apply Hh; set_solver].
  - rewrite EP by set_solver. rewrite decide_False; [done | apply Hh; set_solver].
  - rewrite EN by set_solver. by rewrite decide_True.
  - done.
  - done.
  - eapply seg_set_prev, H2; [done | |].
    + intros y Hy. rewrite EN by set_solver. rewrite decide_False; [done | set_solver].
    + intros y Hy. apply EP. set_solver.
Qed.

(** ** Chains *)

Fixpoint chain (N : Z → option Z) (o : option Z) (l : list Z) : Prop :=
  match l with
  | [] => o = None
  | x :: l => o = Some x ∧ chain N (N x) l
  end.

Lemma chain_frame N N' o l : (∀ x, x ∈ l → N' x = N x) → chain N o l → chain N' o l.
Proof.
  revert o. induction l as [|x l IH]; intros o E; simpl; [done |].
  intros [? ?]. split; [done |]. rewrite E by set_solver. apply IH; [set_solver | done].
Qed.

Lemma chain_unique N o l l' : chain N o l → chain N o l' → l = l'.
Proof.
  revert o l'. induction l as [|x l IH]; intros o [|y l']; simpl; [done | | |].
  - by intros -> [? _].
  - by intros [-> _].
  - intros [-> H] [[= <-] H']. f_equal. by eapply IH.
Qed.

Lemma chain_head N o l : chain N o l → o = head_or l None.
Proof. destruct l; simpl; naive_solver. Qed.

(** Removing [x] from a chain: the link before it is set to the rest. *)
Lemma chain_remove (N N' : Z → option Z) o a x c :
  chain N o (a ++ x :: c) → NoDup (a ++ x :: c) →
  (∀ y, y ∈ a ++ c → N' y = if decide (last_or None a = Some y) then head_or c None else N y) →
  chain N' (if last_or None a then o else head_or c None) (a ++ c).
Proof.
  revert o. induction a as [|y a IH]; intros o; cbn [app chain last_or].
  - intros [_ Hc] [Hx Hn]%NoDup_cons E. rewrite <- (chain_head _ _ _ Hc). eapply chain_frame, Hc.
    intros z Hz. rewrite E by done. by rewrite decide_False.
  - intros [-> Hc] [Hy Hn]%NoDup_cons E.
    assert (last_or (Some y) a ≠ None) as Hl.
    { destruct a using rev_ind; [done |]. by rewrite last_or_snoc. }
    destruct (last_or (Some y) a) as [z |] eqn:Ez; [clear Hl | done]. split; [done |].
    rewrite E by set_solver. destruct a as [|w a].
    + simpl in *. injection Ez as ->. rewrite decide_True by done.
      specialize (IH (N z) Hc Hn). apply IH. intros u Hu. rewrite E by set_solver.
      rewrite decide_False; [done |]. intros [= ->]. set_solver.
    + rewrite decide_False.
      2: { intros [= ->]. cbn in Ez. apply last_or_in in Ez as [Ez |]; [injection Ez as -> |]; set_solver. }
      assert (last_or None (w :: a) = Some z) as Ew by exact Ez.
      specialize (IH (N y) Hc Hn). rewrite Ew in IH. apply IH. intros u Hu. apply E. set_solver.
Qed.

Lemma chain_seg N P p o l : o = head_or l None → seg N P p l None → chain N o l.
Proof.
  revert p o. induction l as [|x l IH]; intros p o -> Hs; simpl in *; [done |].
  destruct Hs as (_ & -> & Hs). eauto.
Qed.

(** The rest of a doubly linked list is a chain. *)
Lemma dll_chain N P l1 l2 : dll N P (l1 ++ l2) → chain N (head_or l2 None) l2.
Proof. intros [_ [_ Hs]%seg_app]. by eapply chain_seg. Qed.
End linked.
