(* ===== verification/KMem.v ===== *)
(** * The kernel's heap (sys/kmemory.c)

    [kmalloc] answers a request with one of three strategies: blocks of a fixed size from
    pages with a free list (small), blocks of any size cut from pages (medium), and whole
    memory regions that a hash table finds again (large).  The addresses are integers, as
    the code computes with them; a null pointer is [None].

    What the code asks of the memory regions (sys/memory.c, see Memory.v) and of the store
    of region descriptors is an argument of the operations: the [grant] of [_get_region] and
    the descriptor of [kmr_get].  The configuration is the one without KMEMORY_DEBUG. *)

From S2P Require Import Prelude CInt Memory.

(** ** Constants *)

Definition PAGESIZE : Z := 8192.
Definition HASHMASK : Z := 255.
Definition MR_MAGIC : Z := 21296.
Definition S1_MAGIC : Z := 21297.
Definition S2_MAGIC : Z := 21298.
Definition LB_MAGIC : Z := 21299.
Definition ST_MAGIC : Z := 21300.
Definition S1_SIZE : Z := 48.
(** [sizeof(KM_P)] is 30: five pointers and shorts, and the union. *)
Definition P__HEAD : Z := Z.land (30 + 15) (Z.lnot 15).
Definition S__HEAD : Z := 4.
Definition S1_HEAD : Z := S__HEAD.
Definition S2_HEAD : Z := 16 + S__HEAD.
Definition S2_SPLIT_SIZE : Z := Z.land (S2_HEAD + S1_SIZE + 15) (Z.lnot 15).
(** [(PAGESIZE - P__HEAD) / S1_SIZE] *)
Definition S1_BLOCKS : nat := Z.to_nat ((PAGESIZE - P__HEAD) / S1_SIZE).

(** ** Data *)

(** [struct km_p], the head of a page, or the descriptor of a large block *)
Record km_p := mk_km_p {
  kp_hnext : option Z;
  kp_next : option Z;
  kp_prev : option Z;
  kp_self : option Z;
  kp_size : Z;
  kp_magic : Z;
  kp_free : option Z;
  kp_pos : Z;
  kp_used : Z
}.

Definition km_p_eta (r : km_p) : km_p :=
  mk_km_p
    (kp_hnext r) (kp_next r) (kp_prev r) (kp_self r) (kp_size r) (kp_magic
    r) (kp_free r) (kp_pos r) (kp_used r).
Definition set_kp_hnext : option Z → km_p → km_p :=
  ltac:(build_setter km_p_eta kp_hnext).
Definition set_kp_next : option Z → km_p → km_p :=
  ltac:(build_setter km_p_eta kp_next).
Definition set_kp_prev : option Z → km_p → km_p :=
  ltac:(build_setter km_p_eta kp_prev).
Definition set_kp_self : option Z → km_p → km_p :=
  ltac:(build_setter km_p_eta kp_self).
Definition set_kp_size : Z → km_p → km_p :=
  ltac:(build_setter km_p_eta kp_size).
Definition set_kp_magic : Z → km_p → km_p :=
  ltac:(build_setter km_p_eta kp_magic).
Definition set_kp_free : option Z → km_p → km_p :=
  ltac:(build_setter km_p_eta kp_free).
Definition set_kp_pos : Z → km_p → km_p :=
  ltac:(build_setter km_p_eta kp_pos).
Definition set_kp_used : Z → km_p → km_p :=
  ltac:(build_setter km_p_eta kp_used).

(** The head in memory that was not written yet. *)
Definition raw_page : km_p := mk_km_p None None None None 0 0 None 0 0.

(** [struct km_s1]: a small block; the link is in the part that the user gets *)
Record km_s1 := mk_km_s1 {
  b_page : Z;
  b_next : option Z
}.

Definition km_s1_eta (r : km_s1) : km_s1 :=
  mk_km_s1
    (b_page r) (b_next r).
Definition set_b_page : Z → km_s1 → km_s1 :=
  ltac:(build_setter km_s1_eta b_page).
Definition set_b_next : option Z → km_s1 → km_s1 :=
  ltac:(build_setter km_s1_eta b_next).

(** [struct km_s2]: a medium block; the links of the free list are in the part that the
    user gets *)
Record km_s2 := mk_km_s2 {
  m_magic : Z;
  m_size : Z;
  m_free : bool;
  m_next : option Z;
  m_prev : option Z;
  m_page : Z;
  m_fnext : option Z;
  m_fprev : option Z
}.

Definition km_s2_eta (r : km_s2) : km_s2 :=
  mk_km_s2
    (m_magic r) (m_size r) (m_free r) (m_next r) (m_prev r) (m_page r)
    (m_fnext r) (m_fprev r).
Definition set_m_magic : Z → km_s2 → km_s2 :=
  ltac:(build_setter km_s2_eta m_magic).
Definition set_m_size : Z → km_s2 → km_s2 :=
  ltac:(build_setter km_s2_eta m_size).
Definition set_m_free : bool → km_s2 → km_s2 :=
  ltac:(build_setter km_s2_eta m_free).
Definition set_m_next : option Z → km_s2 → km_s2 :=
  ltac:(build_setter km_s2_eta m_next).
Definition set_m_prev : option Z → km_s2 → km_s2 :=
  ltac:(build_setter km_s2_eta m_prev).
Definition set_m_page : Z → km_s2 → km_s2 :=
  ltac:(build_setter km_s2_eta m_page).
Definition set_m_fnext : option Z → km_s2 → km_s2 :=
  ltac:(build_setter km_s2_eta m_fnext).
Definition set_m_fprev : option Z → km_s2 → km_s2 :=
  ltac:(build_setter km_s2_eta m_fprev).

(** The heap: the page heads, the small and medium blocks, the buckets of the hash table,
    the list of the pages of small blocks and the first with a free one, the list of free
    medium blocks; the regions that the heap holds (address and length, by descriptor), and
    the descriptors it got from [kmr_get] and did not give away. *)
Record kms := mk_kms {
  kps : gmap Z km_p;
  s1s : gmap Z km_s1;
  s2s : gmap Z km_s2;
  table : gmap Z Z;
  s1_head : option Z;
  s1_tail : option Z;
  s1_free : option Z;
  s2_head : option Z;
  s2_tail : option Z;
  regs : gmap Z (Z * Z);
  descrs : gset Z
}.

Definition kms_eta (r : kms) : kms :=
  mk_kms
    (kps r) (s1s r) (s2s r) (table r) (s1_head r) (s1_tail r) (s1_free r)
    (s2_head r) (s2_tail r) (regs r) (descrs r).
Definition set_kps : gmap Z km_p → kms → kms :=
  ltac:(build_setter kms_eta kps).
Definition set_s1s : gmap Z km_s1 → kms → kms :=
  ltac:(build_setter kms_eta s1s).
Definition set_s2s : gmap Z km_s2 → kms → kms :=
  ltac:(build_setter kms_eta s2s).
Definition set_table : gmap Z Z → kms → kms :=
  ltac:(build_setter kms_eta table).
Definition set_s1_head : option Z → kms → kms :=
  ltac:(build_setter kms_eta s1_head).
Definition set_s1_tail : option Z → kms → kms :=
  ltac:(build_setter kms_eta s1_tail).
Definition set_s1_free : option Z → kms → kms :=
  ltac:(build_setter kms_eta s1_free).
Definition set_s2_head : option Z → kms → kms :=
  ltac:(build_setter kms_eta s2_head).
Definition set_s2_tail : option Z → kms → kms :=
  ltac:(build_setter kms_eta s2_tail).
Definition set_regs : gmap Z (Z * Z) → kms → kms :=
  ltac:(build_setter kms_eta regs).
Definition set_descrs : gset Z → kms → kms :=
  ltac:(build_setter kms_eta descrs).

(** ** Access *)

Definition getkp (p : Z) : M kms km_p := mderef (λ s, kps s !! p).
Definition putkp (p : Z) (r : km_p) : M kms unit := mmod (λ s, set_kps (<[p := r]> (kps s)) s).
Definition modkp (p : Z) (f : km_p → km_p) : M kms unit := r ← getkp p; putkp p (f r).
Definition gets1 (b : Z) : M kms km_s1 := mderef (λ s, s1s s !! b).
Definition puts1 (b : Z) (r : km_s1) : M kms unit := mmod (λ s, set_s1s (<[b := r]> (s1s s)) s).
Definition gets2 (b : Z) : M kms km_s2 := mderef (λ s, s2s s !! b).
Definition puts2 (b : Z) (r : km_s2) : M kms unit := mmod (λ s, set_s2s (<[b := r]> (s2s s)) s).
Definition mods2 (b : Z) (f : km_s2 → km_s2) : M kms unit := r ← gets2 b; puts2 b (f r).
(** The dereference of a pointer that may be null. *)
Definition nonnull {A} (o : option A) : M kms A := mderef (λ _, o).
(** [n->self->loc] *)
Definition loc_of (m : Z) : M kms Z := '(l, _) ← mderef (λ s, regs s !! m); mret l.

(** ** The hash table of the large blocks *)

Definition km_hash (p : Z) : Z := Z.land (u32 p) HASHMASK.

Definition bucket (h : Z) : M kms (option Z) := mgets (λ s, table s !! h).
Definition set_bucket (h : Z) (o : option Z) : M kms unit :=
  mmod (λ s, set_table (partial_alter (λ _, o) h (table s)) s).

(** The chains are shorter than the number of heads. *)
Fixpoint hash_lookup_loop (fuel : nat) (p : Z) (n : option Z) : M kms (option Z) :=
  match n, fuel with
  | None, _ => mret None
  | Some _, O => mpanic
  | Some n, S fuel =>
      r ← getkp n;
      m ← nonnull (kp_self r);
      l ← loc_of m;
      if p =? l then mret (Some n) else hash_lookup_loop fuel p (kp_hnext r)
  end.
Definition chain_fuel : M kms nat := mgets (λ s, S (size (kps s))).

Definition km_hash_lookup (p : Z) : M kms (option Z) :=
  fuel ← chain_fuel;
  n ← bucket (km_hash p);
  hash_lookup_loop fuel p n.

Definition hash_of (item : Z) : M kms Z :=
  r ← getkp item;
  m ← nonnull (kp_self r);
  l ← loc_of m;
  mret (km_hash l).

Definition km_hash_insert (item : Z) : M kms unit :=
  h ← hash_of item;
  n ← bucket h;
  modkp item (set_kp_hnext n) ;;
  set_bucket h (Some item).

(** [*n] is the pointer [cur]; it is stored in the bucket [h], or in the field [hnext] of
    [prev]. *)
Definition store_link (h : Z) (prev : option Z) (v : option Z) : M kms unit :=
  match prev with
  | None => set_bucket h v
  | Some q => modkp q (set_kp_hnext v)
  end.
Fixpoint hash_remove_loop (fuel : nat) (h item : Z) (prev cur : option Z) : M kms unit :=
  match cur, fuel with
  | None, _ => mret tt
  | Some _, O => mpanic
  | Some c, S fuel =>
      r ← getkp c;
      if item =? c then store_link h prev (kp_hnext r)
      else hash_remove_loop fuel h item (Some c) (kp_hnext r)
  end.
Definition km_hash_remove (item : Z) : M kms unit :=
  h ← hash_of item;
  fuel ← chain_fuel;
  n ← bucket h;
  hash_remove_loop fuel h item None n.

(** ** Regions and descriptors *)

(** What the allocator is given when it asks for more memory.  The answer of
    [_get_region]: no memory; a region whose descriptor is [n], at [loc], for which the
    descriptor of the caller was used; or one of exactly the size, so that the caller's
    descriptor was given back with [kmr_free]. *)
Inductive grant := Denied | Cut (n loc : Z) | Exact (n loc : Z).

(** The two answers of [kmr_get], and of [_get_region] for TT-RAM and for ST-RAM. *)
Record supply := mk_supply {
  sp_descr : option Z;
  sp_head : option Z;
  sp_alt : grant;
  sp_core : grant
}.

(** [o] is the answer of the store of descriptors. *)
Definition kmr_get (o : option Z) : M kms (option Z) :=
  match o with
  | Some m => mmod (λ s, set_descrs ({[m]} ∪ descrs s) s) ;; mret (Some m)
  | None => mret None
  end.
(** The head that was in the memory of the descriptor is gone. *)
Definition kmr_free (m : Z) : M kms unit :=
  b ← mgets (λ s, bool_decide (m ∈ descrs s));
  massert b ;;
  mmod (λ s, set_kps (delete m (kps s)) (set_descrs (descrs s ∖ {[m]}) s)).

(** The descriptor [m] becomes the property of the memory map, or is given back. *)
Definition km_get_region (g : grant) (size m : Z) : M kms (option Z) :=
  match g with
  | Denied => mret None
  | Cut n loc | Exact n loc =>
      kmr_free m ;;
      mmod (λ s, set_regs (<[n := (loc, region_size size)]> (regs s)) s) ;;
      mret (Some n)
  end.

(** What lies outside of the region at [l] with [n] bytes *)
Definition outside {A} (l n : Z) (h : gmap Z A) : gmap Z A :=
  filter (λ '(a, _), ¬ (l ≤ a < l + n)) h.
(** With the region all heads in it are gone. *)
Definition km_free_region (m : Z) : M kms unit :=
  '(l, n) ← mderef (λ s, regs s !! m);
  mmod (λ s, set_kps (outside l n (kps s)) (set_s1s (outside l n (s1s s))
    (set_s2s (outside l n (s2s s)) (set_regs (delete m (regs s)) s)))).

Definition km_malloc (sp : supply) (size descr : Z) (page : option Z) : M kms (option Z) :=
  m ← km_get_region (sp_alt sp) size descr;
  m ← match m with
      | Some m => mret (Some m)
      | None => km_get_region (sp_core sp) size descr
      end;
  match m with
  | None => mret None
  | Some m =>
      l ← loc_of m;
      let page := default l page in
      r ← mgets (λ s, default raw_page (kps s !! page));
      putkp page (set_kp_size (u16 (Z.shiftr size 4)) (set_kp_self (Some m) r)) ;;
      mret (Some page)
  end.
Definition km_free (m : Z) : M kms unit := km_free_region m.

(** A new page: a descriptor from [kmr_get], and the region for it. *)
Definition new_page (sp : supply) : M kms (option Z) :=
  m ← kmr_get (sp_descr sp);
  match m with
  | None => mret None
  | Some m =>
      page ← km_malloc sp PAGESIZE m None;
      match page with
      | Some page => mret (Some page)
      | None => kmr_free m ;; mret None
      end
  end.

(** ** The list of the pages of small blocks *)

Definition km_list_insert (item : Z) : M kms unit :=
  t ← mgets s1_tail;
  match t with
  | Some t => modkp t (set_kp_next (Some item))
  | None => mmod (set_s1_head (Some item))
  end ;;
  modkp item (set_kp_prev t) ;;
  modkp item (set_kp_next None) ;;
  mmod (set_s1_tail (Some item)).

Definition km_list_remove (item : Z) : M kms unit :=
  r ← getkp item;
  match kp_prev r with
  | Some q => modkp q (set_kp_next (kp_next r))
  | None => mmod (set_s1_head (kp_next r))
  end ;;
  match kp_next r with
  | Some n => modkp n (set_kp_prev (kp_prev r))
  | None => mmod (set_s1_tail (kp_prev r))
  end.

(** ** Small blocks *)

Fixpoint s1_carve (n : nat) (page ptr : Z) : M kms unit :=
  match n with
  | O => mret tt
  | S n =>
      puts1 ptr (mk_km_s1 page (Some (ptr + S1_SIZE))) ;;
      s1_carve n page (ptr + S1_SIZE)
  end.

Definition km_s1_setup (page : Z) : M kms unit :=
  let ptr := page + P__HEAD in
  km_list_insert page ;;
  r ← getkp page;
  pos ← match kp_prev r with
        | Some q => rq ← getkp q; mret (u32 (kp_pos rq + 1))
        | None => mret 0
        end;
  modkp page (λ r, set_kp_used 0 (set_kp_pos pos
                     (set_kp_free (Some ptr) (set_kp_magic S1_MAGIC r)))) ;;
  mmod (set_s1_free (Some page)) ;;
  s1_carve S1_BLOCKS page ptr ;;
  let last := ptr + S1_SIZE * (Z.of_nat S1_BLOCKS - 1) in
  b ← gets1 last;
  puts1 last (set_b_next None b).

(** [while (s1_free && !s1_free->s.s1.free) s1_free = s1_free->next] *)
Fixpoint s1_skip (fuel : nat) : M kms unit :=
  match fuel with
  | O => mpanic
  | S fuel =>
      p ← mgets s1_free;
      match p with
      | None => mret tt
      | Some p =>
          r ← getkp p;
          match kp_free r with
          | Some _ => mret tt
          | None => mmod (set_s1_free (kp_next r)) ;; s1_skip fuel
          end
      end
  end.

(** The retry after a new page finds blocks in it, and ends. *)
Fixpoint km_s1_malloc (tries : nat) (sp : supply) : M kms (option Z) :=
  match tries with
  | O => mpanic
  | S tries =>
      p ← mgets s1_free;
      p ← nonnull p;
      r ← getkp p;
      new ← nonnull (kp_free r);
      b ← gets1 new;
      modkp p (λ r, set_kp_used (u16 (kp_used r + 1)) (set_kp_free (b_next b) r)) ;;
      match b_next b with
      | Some _ => mret (Some (new + S1_HEAD))
      | None =>
          fuel ← chain_fuel;
          s1_skip fuel ;;
          q ← mgets s1_free;
          match q with
          | Some _ => mret (Some (new + S1_HEAD))
          | None =>
              page ← new_page sp;
              match page with
              | Some page => km_s1_setup page ;; km_s1_malloc tries sp
              | None =>
                  q ← mgets s1_free;
                  q ← nonnull q;
                  rq ← getkp q;
                  puts1 new (set_b_next (kp_free rq) b) ;;
                  modkp q (λ r, set_kp_used (u16 (kp_used r - 1)) (set_kp_free (Some new) r)) ;;
                  mret None
              end
          end
      end
  end.

(** The page becomes the first with a free block. *)
Definition s1_lower (f : option Z) (page : Z) (r : km_p) : M kms unit :=
  f ← nonnull f;
  rf ← getkp f;
  if kp_pos r <? kp_pos rf then mmod (set_s1_free (Some page)) else mret tt.

Definition km_s1_free (ptr page : Z) : M kms unit :=
  b ← gets1 ptr;
  r ← getkp page;
  puts1 ptr (set_b_next (kp_free r) b) ;;
  let r := set_kp_used (u16 (kp_used r - 1)) (set_kp_free (Some ptr) r) in
  putkp page r ;;
  f ← mgets s1_free;
  match kp_self r with
  | Some self =>
      if (kp_used r =? 0) && bool_decide (f ≠ Some page) then
        km_list_remove page ;; km_free self
      else s1_lower f page r
  | None => s1_lower f page r
  end.

(** ** Medium blocks *)

(** What is in memory where a head will be written *)
Definition raw_block : km_s2 := mk_km_s2 0 0 false None None 0 None None.
Definition old_block (b : Z) : M kms km_s2 := mgets (λ s, default raw_block (s2s s !! b)).

Definition km_s2_flist_ins (item : Z) : M kms unit :=
  t ← mgets s2_tail;
  match t with
  | Some t => mods2 t (set_m_fnext (Some item))
  | None => mmod (set_s2_head (Some item))
  end ;;
  mods2 item (λ r, set_m_fnext None (set_m_fprev t (set_m_free true r))) ;;
  mmod (set_s2_tail (Some item)).

Definition km_s2_flist_rem (item : Z) : M kms unit :=
  mods2 item (set_m_free false) ;;
  r ← gets2 item;
  match m_fnext r with
  | Some n => mods2 n (set_m_fprev (m_fprev r))
  | None => mmod (set_s2_tail (m_fprev r))
  end ;;
  match m_fprev r with
  | Some q => mods2 q (set_m_fnext (m_fnext r))
  | None => mmod (set_s2_head (m_fnext r))
  end.

Definition km_s2_split (item size : Z) : M kms Z :=
  mods2 item (λ r, set_m_size (u16 (m_size r - size)) r) ;;
  r ← gets2 item;
  let new := item + m_size r in
  o ← old_block new;
  puts2 new (set_m_page (m_page r) (set_m_prev (Some item) (set_m_next (m_next r)
    (set_m_free false (set_m_size size (set_m_magic S2_MAGIC o)))))) ;;
  match m_next r with
  | Some n => mods2 n (set_m_prev (Some new))
  | None => mret tt
  end ;;
  mods2 item (set_m_next (Some new)) ;;
  mret new.

(** The head of the second block becomes a part of the first. *)
Definition km_s2_concat (item1 item2 : Z) : M kms unit :=
  r2 ← gets2 item2;
  mods2 item1 (λ r, set_m_next (m_next r2) (set_m_size (u16 (m_size r + m_size r2)) r)) ;;
  match m_next r2 with
  | Some n => mods2 n (set_m_prev (Some item1))
  | None => mret tt
  end ;;
  mmod (λ s, set_s2s (delete item2 (s2s s)) s).

Definition km_s2_setup (page : Z) : M kms Z :=
  let temp := page + P__HEAD in
  modkp page (set_kp_magic S2_MAGIC) ;;
  o ← old_block temp;
  puts2 temp (mk_km_s2 S2_MAGIC (PAGESIZE - P__HEAD) false None None page
                (m_fnext o) (m_fprev o)) ;;
  km_s2_flist_ins temp ;;
  mret temp.

(** The size with the head, in units of 16 bytes *)
Definition s2_round (size : Z) : Z := u16 (Z.land (u16 (size + S2_HEAD) + 15) (Z.lnot 15)).

Fixpoint s2_first_fit (fuel : nat) (size : Z) (n : option Z) : M kms (option Z) :=
  match n, fuel with
  | None, _ => mret None
  | Some _, O => mpanic
  | Some n, S fuel =>
      r ← gets2 n;
      if size <=? m_size r then mret (Some n) else s2_first_fit fuel size (m_fnext r)
  end.

(** The list is shorter than the number of blocks. *)
Definition s2_fuel : M kms nat := mgets (λ s, size (s2s s)).

Definition km_s2_malloc (sp : supply) (size : Z) : M kms (option Z) :=
  let size := s2_round size in
  fuel ← s2_fuel;
  h ← mgets s2_head;
  new ← s2_first_fit fuel size h;
  new ← match new with
        | Some new => mret (Some new)
        | None =>
            page ← new_page sp;
            match page with
            | Some page => new ← km_s2_setup page; mret (Some new)
            | None => mret None
            end
        end;
  match new with
  | None => mret None
  | Some new =>
      r ← gets2 new;
      new ← (if S2_SPLIT_SIZE <? u16 (m_size r - size) then km_s2_split new size
             else km_s2_flist_rem new ;; mret new);
      mret (Some (new + S2_HEAD))
  end.

Definition is_free (o : option Z) : M kms bool :=
  match o with
  | Some b => r ← gets2 b; mret (m_free r)
  | None => mret false
  end.

(** [if (next && next->free == FREE)]: the next block becomes a part of [ptr]. *)
Definition merge_next (ptr : Z) (next : option Z) : M kms unit :=
  b ← is_free next;
  match next with
  | Some n => if b : bool then km_s2_flist_rem n ;; km_s2_concat ptr n else mret tt
  | None => mret tt
  end.
(** [if (prev && prev->free == FREE)]: [ptr] becomes a part of the previous block. *)
Definition merge_prev (ptr : Z) (prev : option Z) : M kms Z :=
  b ← is_free prev;
  match prev with
  | Some q =>
      if b : bool then km_s2_flist_rem q ;; km_s2_concat q ptr ;; mret q else mret ptr
  | None => mret ptr
  end.

Definition km_s2_free (ptr page : Z) : M kms unit :=
  r ← gets2 ptr;
  merge_next ptr (m_next r) ;;
  ptr ← merge_prev ptr (m_prev r);
  r ← gets2 ptr;
  if m_size r =? PAGESIZE - P__HEAD then
    rp ← getkp page;
    self ← nonnull (kp_self rp);
    km_free self
  else km_s2_flist_ins ptr.

(** ** Large blocks *)

Definition lb_size (size : Z) : Z :=
  if size <? PAGESIZE then PAGESIZE else Z.land (u32 (size + 15)) (Z.lnot 15).

Definition drop_descr (o : option Z) : M kms unit :=
  match o with Some m => kmr_free m | None => mret tt end.

Definition km_lb_malloc (sp : supply) (size : Z) : M kms (option Z) :=
  m ← kmr_get (sp_descr sp);
  kmp ← kmr_get (sp_head sp);
  new ← match m, kmp with
        | Some m, Some kmp => km_malloc sp (lb_size size) m (Some kmp)
        | _, _ => mret None
        end;
  match new with
  | Some new =>
      modkp new (set_kp_magic LB_MAGIC) ;;
      km_hash_insert new ;;
      r ← getkp new;
      m ← nonnull (kp_self r);
      l ← loc_of m;
      mret (Some l)
  | None => drop_descr m ;; drop_descr kmp ;; mret None
  end.

Definition km_lb_free (kmp : Z) : M kms unit :=
  km_hash_remove kmp ;;
  r ← getkp kmp;
  m ← nonnull (kp_self r);
  km_free m ;;
  kmr_free kmp.

(** ** The interface *)

Definition S1_MAX : Z := S1_SIZE - S1_HEAD.
Definition S2_LIMIT : Z := PAGESIZE - P__HEAD - S2_HEAD - (S1_SIZE - S1_HEAD).

Definition _kmalloc (sp : supply) (size : Z) : M kms (option Z) :=
  massert (negb (size =? 0)) ;;
  ptr ← (if size <=? S1_MAX then km_s1_malloc 2 sp else mret None);
  match ptr with
  | Some ptr => mret (Some ptr)
  | None => if size <? S2_LIMIT then km_s2_malloc sp size else km_lb_malloc sp size
  end.

(** The word before [place]: the field [page] of a small or of a medium block. *)
Definition page_word (place : Z) : M kms Z :=
  mderef (λ s, match s1s s !! (place - S1_HEAD) with
               | Some b => Some (b_page b)
               | None => m_page <$> s2s s !! (place - S2_HEAD)
               end).

Definition _kfree (place : option Z) : M kms unit :=
  match place with
  | None => mret tt
  | Some place =>
      page ← km_hash_lookup place;
      match page with
      | Some page => km_lb_free page
      | None =>
          page ← page_word place;
          r ← getkp page;
          if kp_magic r =? S1_MAGIC then km_s1_free (place - S1_HEAD) page
          else if kp_magic r =? S2_MAGIC then km_s2_free (place - S2_HEAD) page
          else if kp_magic r =? ST_MAGIC then m ← nonnull (kp_self r); km_free_region m
          else mpanic
      end
  end.

(** Memory for DMA comes from ST-RAM, and is not the heap's afterwards.  [no_prot] is
    [no_mem_prot]. *)
Definition _dmabuf_alloc (sp : supply) (no_prot : bool) (size cmode : Z) : M kms (option Z) :=
  if negb (cmode =? 0) && no_prot then mret None
  else
    m ← kmr_get (sp_descr sp);
    match m with
    | None => mret None
    | Some m =>
        new ← km_get_region (sp_core sp) (lb_size size) m;
        match new with
        | Some new => l ← loc_of new; mret (Some l)
        | None => kmr_free m ;; mret None
        end
    end.

(** ** Initialization *)

(** The heap before [init_kmemory], with the page that is a static array of the kernel *)
Definition km_empty (s1_initial : Z) : kms :=
  mk_kms {[s1_initial := raw_page]} ∅ ∅ ∅ None None None None None ∅ ∅.
Definition init_kmemory (s1_initial : Z) : M kms unit := km_s1_setup s1_initial.
