(* ===== verification/KHeap.v ===== *)
(** * The heap keeps what it gave away (sys/kmemory.c)

    [rep s v] relates the state of the allocator of KMem.v to a view of it: the pages of
    small blocks, the pages of medium blocks, the list of free medium blocks and the chains
    of large blocks are well-formed, and no two of them share memory.  [in_use] says which
    areas are handed out.  Then: the small blocks are taken and given back within [rep]. *)

From stdpp Require Import sorting.
From S2P Require Import Prelude CInt Memory Linked KMem.

(** ** Space *)

(** Two pieces of memory, as address and length *)
Definition disj (x y : Z * Z) : Prop := x.1 + x.2 ≤ y.1 ∨ y.1 + y.2 ≤ x.1.
Definition within (a : Z) (x : Z * Z) : Prop := x.1 ≤ a < x.1 + x.2.
#[export] Instance within_dec a x : Decision (within a x).
Proof. unfold within. apply _. Defined.

Fixpoint apart (l : list (Z * Z)) : Prop :=
  match l with
  | [] => True
  | x :: l => Forall (disj x) l ∧ apart l
  end.

Lemma disj_sym x y : disj x y → disj y x.
Proof. unfold disj. lia. Qed.

Lemma apart_perm l l' : l ≡ₚ l' → apart l → apart l'.
Proof.
  induction 1 as [|x l l' Hp IH|x y l|]; simpl; auto.
  - intros [H1 H2]. split; [by rewrite <- Hp | auto].
  - rewrite !Forall_cons. intros ([? ?] & ? & ?). auto using disj_sym.
Qed.

Lemma apart_elem x y l : apart (x :: l) → y ∈ l → disj x y.
Proof. intros [H1 _] Hy. rewrite Forall_forall in H1. auto. Qed.

(** ** The view of the heap *)

(** The pages of small blocks with the free blocks of each, the pages of medium blocks with
    their blocks, the free medium blocks, and the heads of the large blocks with their
    memory. *)
Record view := mk_view {
  v_small : list (Z * list Z);
  v_med : list (Z * list Z);
  v_free : list Z;
  v_large : list (Z * (Z * Z))
}.

Definition page_ext (p : Z) : Z * Z := (p, PAGESIZE).
Definition exts (v : view) : list (Z * Z) :=
  (page_ext <$> (v_small v).*1) ++ (page_ext <$> (v_med v).*1) ++ (v_large v).*2.

(** *** Small blocks *)

Section small.
Context (K : gmap Z km_p) (B : gmap Z km_s1) (R : gmap Z (Z * Z)).

Definition block_at (p : Z) (i : nat) : Z := p + P__HEAD + S1_SIZE * Z.of_nat i.
Definition small_blocks (p : Z) : list Z := block_at p <$> seq 0 S1_BLOCKS.

(** The next of a free block, and the neighbours of a page *)
Definition bnext (b : Z) : option Z := B !! b ≫= b_next.
Definition knext (p : Z) : option Z := K !! p ≫= kp_next.
Definition kprev (p : Z) : option Z := K !! p ≫= kp_prev.
Definition kpos (p : Z) : Z := default 0 (kp_pos <$> K !! p).

(** The region of a page; the first one is a static array *)
Definition self_ok (p : Z) (r : km_p) : Prop :=
  match kp_self r with Some m => R !! m = Some (p, PAGESIZE) | None => True end.

Record small_page (p : Z) (F : list Z) : Prop := {
  sp_rec : ∃ r, K !! p = Some r ∧ kp_magic r = S1_MAGIC ∧ kp_free r = head_or F None ∧
    kp_used r = Z.of_nat S1_BLOCKS - Z.of_nat (length F) ∧ self_ok p r;
  sp_chain : chain bnext (head_or F None) F;
  sp_nodup : NoDup F;
  sp_sub : F ⊆ small_blocks p;
  sp_blocks : ∀ b, b ∈ small_blocks p → b_page <$> B !! b = Some p
}.

Record small_pages (sm : list (Z * list Z)) (hd tl : option Z) : Prop := {
  ss_dll : dll knext kprev sm.*1;
  ss_head : hd = head_or sm.*1 None;
  ss_tail : tl = last_or None sm.*1;
  ss_pos : StronglySorted Z.lt (-1 :: (kpos <$> sm.*1));
  ss_pages : Forall (λ e, small_page e.1 e.2) sm;
  ss_dom : ∀ b, is_Some (B !! b) → ∃ p, p ∈ sm.*1 ∧ within b (p, PAGESIZE)
}.
End small.

(** The first page with a free block *)
Fixpoint first_free (sm : list (Z * list Z)) : option Z :=
  match sm with
  | [] => None
  | (p, []) :: sm => first_free sm
  | (p, _ :: _) :: _ => Some p
  end.

(** *** Medium blocks *)

Section medium.
Context (K : gmap Z km_p) (S2 : gmap Z km_s2) (R : gmap Z (Z * Z)).

Definition mnext (b : Z) : option Z := S2 !! b ≫= m_next.
Definition mprev (b : Z) : option Z := S2 !! b ≫= m_prev.
Definition fnext (b : Z) : option Z := S2 !! b ≫= m_fnext.
Definition fprev (b : Z) : option Z := S2 !! b ≫= m_fprev.
Definition bfree (b : Z) : bool := default false (m_free <$> S2 !! b).

(** The blocks fill the memory from [a] to [e]. *)
Fixpoint tiles (p a : Z) (bs : list Z) (e : Z) : Prop :=
  match bs with
  | [] => a = e
  | b :: bs =>
      b = a ∧ ∃ r, S2 !! b = Some r ∧ 32 ≤ m_size r ∧ (16 | m_size r) ∧ m_page r = p ∧
        tiles p (a + m_size r) bs e
  end.

(** No two neighbours are free; [f] says whether the block before is. *)
Fixpoint coalesced (f : bool) (bs : list Z) : Prop :=
  match bs with
  | [] => True
  | b :: bs => ¬ (f = true ∧ bfree b = true) ∧ coalesced (bfree b) bs
  end.

Record med_page (p : Z) (bs : list Z) : Prop := {
  mp_rec : ∃ r m, K !! p = Some r ∧ kp_magic r = S2_MAGIC ∧ kp_self r = Some m ∧
    R !! m = Some (p, PAGESIZE);
  mp_dll : dll mnext mprev bs;
  mp_tiles : tiles p (p + P__HEAD) bs (p + PAGESIZE);
  mp_coal : coalesced false bs
}.

Record free_list (md : list (Z * list Z)) (fl : list Z) (hd tl : option Z) : Prop := {
  fl_dll : dll fnext fprev fl;
  fl_head : hd = head_or fl None;
  fl_tail : tl = last_or None fl;
  fl_free : ∀ b, b ∈ fl ↔ b ∈ mjoin md.*2 ∧ bfree b = true
}.
End medium.

(** *** Large blocks *)

Section large.
Context (K : gmap Z km_p) (T : gmap Z Z) (R : gmap Z (Z * Z)).

Definition hnext (p : Z) : option Z := K !! p ≫= kp_hnext.
Definition in_bucket (h : Z) (e : Z * (Z * Z)) : Prop := km_hash e.2.1 = h.
#[export] Instance in_bucket_dec h e : Decision (in_bucket h e).
Proof. unfold in_bucket. apply _. Defined.

Record large_blocks (lg : list (Z * (Z * Z))) : Prop := {
  lb_nodup : NoDup lg.*1;
  lb_rec : ∀ k x, (k, x) ∈ lg → ∃ r m, K !! k = Some r ∧ kp_magic r = LB_MAGIC ∧
    kp_self r = Some m ∧ R !! m = Some x;
  lb_chain : ∀ h, chain hnext (T !! h) (filter (in_bucket h) lg).*1
}.
End large.

(** *** All together *)

Record space_ok (v : view) (D : gset Z) : Prop := {
  so_apart : apart (exts v);
  so_pos : Forall (λ e, 0 < e.1 ∧ 0 < e.2 ∧ e.1 + e.2 ≤ 4294967296) (exts v);
  so_heads : ∀ k e, k ∈ (v_large v).*1 → e ∈ exts v → ¬ within k e;
  so_descrs : D = list_to_set (v_large v).*1
}.

Record rep (s : kms) (v : view) : Prop := {
  rp_small : small_pages (kps s) (s1s s) (regs s) (v_small v) (s1_head s) (s1_tail s);
  rp_first : s1_free s = first_free (v_small v);
  rp_med : Forall (λ e, med_page (kps s) (s2s s) (regs s) e.1 e.2) (v_med v);
  rp_list : free_list (s2s s) (v_med v) (v_free v) (s2_head s) (s2_tail s);
  rp_large : large_blocks (kps s) (table s) (regs s) (v_large v);
  rp_space : space_ok v (descrs s)
}.

(** The size and the flag of a block *)
Definition use_of (r : km_s2) : Z * bool := (m_size r, m_free r).
(** The block [b] of medium size is in use, with [z] bytes. *)
Definition used_med (s : kms) (v : view) (b z : Z) : Prop :=
  b ∈ mjoin (v_med v).*2 ∧ use_of <$> s2s s !! b = Some (z, false).

(** The address [a] is a block of [c] bytes that is not free. *)
Inductive in_use (s : kms) (v : view) (a c : Z) : Prop :=
| use_small p F :
    (p, F) ∈ v_small v → a - S1_HEAD ∈ small_blocks p → a - S1_HEAD ∉ F → c = S1_MAX →
    in_use s v a c
| use_med : used_med s v (a - S2_HEAD) (c + S2_HEAD) → in_use s v a c
| use_large k : (k, (a, c)) ∈ v_large v → in_use s v a c.

(** ** Small blocks: the pages *)

Lemma small_block_within p b : b ∈ small_blocks p → within b (p, PAGESIZE) ∧ p + P__HEAD ≤ b.
Proof.
  intros (i & -> & Hi)%list_elem_of_fmap. apply elem_of_seq in Hi.
  change S1_BLOCKS with 170%nat in Hi. unfold within, block_at. cbn [fst snd].
  change P__HEAD with 32. unfold S1_SIZE, PAGESIZE. lia.
Qed.

Lemma small_page_frame K B R K' B' R' p F :
  K' !! p = K !! p → (∀ b, b ∈ small_blocks p → B' !! b = B !! b) →
  (∀ m, R !! m = Some (p, PAGESIZE) → R' !! m = Some (p, PAGESIZE)) →
  small_page K B R p F → small_page K' B' R' p F.
Proof.
  intros EK EB ER [(r & Hr & ? & ? & ? & Hs) Hc Hn Hsub Hb]. split; [| | done..|].
  - exists r. rewrite EK. repeat split; auto. unfold self_ok in *. destruct (kp_self r); auto.
  - eapply chain_frame, Hc. intros x Hx. unfold bnext. rewrite EB; [done | by apply Hsub].
  - intros b Hin. rewrite EB; auto.
Qed.

Lemma small_pages_elem K B R sm hd tl p F :
  small_pages K B R sm hd tl → (p, F) ∈ sm → small_page K B R p F.
Proof. intros Hs He. pose proof (ss_pages _ _ _ _ _ _ Hs) as Hf. rewrite Forall_forall in Hf. apply (Hf _ He). Qed.

Lemma links_frame (K K' : gmap Z km_p) (l : list Z) :
  (∀ p, p ∈ l → K' !! p = K !! p) →
  ∀ p, p ∈ l → knext K' p = knext K p ∧ kprev K' p = kprev K p.
Proof. intros E p Hp. unfold knext, kprev. by rewrite E. Qed.

Lemma pos_frame (K K' : gmap Z km_p) (l : list Z) :
  (∀ p, p ∈ l → kpos K' p = kpos K p) → kpos K' <$> l = kpos K <$> l.
Proof. intros E. apply Forall_fmap_ext, Forall_forall. apply E. Qed.

Lemma small_pages_frame K B R K' B' R' sm hd tl :
  (∀ p F, (p, F) ∈ sm → K' !! p = K !! p) →
  (∀ p F b, (p, F) ∈ sm → within b (p, PAGESIZE) → B' !! b = B !! b) →
  (∀ b, is_Some (B' !! b) → is_Some (B !! b)) →
  (∀ p F m, (p, F) ∈ sm → R !! m = Some (p, PAGESIZE) → R' !! m = Some (p, PAGESIZE)) →
  small_pages K B R sm hd tl → small_pages K' B' R' sm hd tl.
Proof.
  intros EK EB DB ER [Hd Hh Ht Hp Hf Hdom].
  assert (∀ p, p ∈ sm.*1 → K' !! p = K !! p) as EK'.
  { intros p ([p' F] & -> & He)%list_elem_of_fmap. eauto. }
  split; auto.
  - by eapply dll_ext, Hd; apply links_frame.
  - rewrite (pos_frame K); [done |]. intros p Hin. unfold kpos. by rewrite EK'.
  - rewrite Forall_forall in *. intros [p F] He. eapply small_page_frame, (Hf _ He); cbn.
    + eauto.
    + intros b [Hw _]%small_block_within. eauto.
    + eauto.
Qed.

(** A block belongs to one page. *)
Lemma small_blocks_page K B R p q F G b :
  small_page K B R p F → small_page K B R q G →
  b ∈ small_blocks p → b ∈ small_blocks q → p = q.
Proof.
  intros Hp Hq H1%(sp_blocks _ _ _ _ _ Hp) H2%(sp_blocks _ _ _ _ _ Hq). congruence.
Qed.

Lemma fst_unique {A} (l1 : list (Z * A)) p x y l2 :
  NoDup (l1 ++ (p, x) :: l2).*1 → (p, y) ∈ l1 ++ (p, x) :: l2 → y = x.
Proof.
  rewrite fmap_app, fmap_cons. intros (_ & H1 & [H2 _]%NoDup_cons)%NoDup_app.
  intros [Hy | [[= ->] | Hy]%elem_of_cons]%elem_of_app; [| done |].
  - apply (list_elem_of_fmap_2 fst) in Hy. set_solver.
  - apply (list_elem_of_fmap_2 fst) in Hy. set_solver.
Qed.

(** The free blocks of one page change. *)
Lemma small_pages_update K B R B' l1 p F F' l2 hd tl r r' :
  small_pages K B R (l1 ++ (p, F) :: l2) hd tl → K !! p = Some r →
  kp_next r' = kp_next r → kp_prev r' = kp_prev r → kp_pos r' = kp_pos r →
  (∀ b, b ∉ small_blocks p → B' !! b = B !! b) →
  small_page (<[p := r']> K) B' R p F' →
  small_pages (<[p := r']> K) B' R (l1 ++ (p, F') :: l2) hd tl.
Proof.
  intros Hs Hr En Ep Eo EB Hpg. pose proof Hs as [Hd Hh Ht Hp Hf Hdom].
  assert ((l1 ++ (p, F') :: l2).*1 = (l1 ++ (p, F) :: l2).*1) as El.
  { by rewrite !fmap_app, !fmap_cons. }
  assert (small_page K B R p F) as Hpg0 by (eapply small_pages_elem; [done | set_solver]).
  split; rewrite ?El; auto.
  - eapply dll_ext, Hd. intros x _. unfold knext, kprev.
    destruct (decide (x = p)) as [-> |]; [rewrite lookup_insert_eq, Hr | rewrite lookup_insert_ne by done]; auto.
  - rewrite (pos_frame K); [done |]. intros x _. unfold kpos.
    destruct (decide (x = p)) as [-> |]; [rewrite lookup_insert_eq, Hr | rewrite lookup_insert_ne by done]; auto.
  - rewrite Forall_forall in *. intros [q G] He. cbn.
    destruct (decide (q = p)) as [-> | Hne].
    + rewrite (fst_unique l1 p F' G l2); [done | rewrite El; apply Hd | done].
    + assert ((q, G) ∈ l1 ++ (p, F) :: l2) as He' by set_solver.
      eapply small_page_frame, (Hf _ He'); [by apply lookup_insert_ne | | done].
      intros b Hb. apply EB. intros Hb'. by eapply Hne, small_blocks_page, Hb'; [apply (Hf _ He') | ..].
  - intros b Hb. destruct (decide (b ∈ small_blocks p)) as [Hin | Hn].
    + exists p. split; [rewrite fmap_app, fmap_cons; set_solver | by apply small_block_within].
    + apply Hdom. by rewrite <- EB.
Qed.

Lemma nodup_sub_length (l k : list Z) : NoDup l → l ⊆ k → (length l ≤ length k)%nat.
Proof. intros ? ?. by apply submseteq_length, NoDup_submseteq. Qed.

Lemma small_blocks_length p : length (small_blocks p) = S1_BLOCKS.
Proof. unfold small_blocks. by rewrite length_fmap, length_seq. Qed.

Lemma small_page_length K B R p F : small_page K B R p F → (length F ≤ S1_BLOCKS)%nat.
Proof. intros Hp. rewrite <- (small_blocks_length p). apply nodup_sub_length; apply Hp. Qed.

Lemma small_page_pop K B R p x F r rx r' :
  small_page K B R p (x :: F) → K !! p = Some r → B !! x = Some rx →
  r' = set_kp_used (u16 (kp_used r + 1)) (set_kp_free (b_next rx) r) →
  b_next rx = head_or F None ∧ small_page (<[p := r']> K) B R p F.
Proof.
  intros Hp Hr Hx ->. pose proof (small_page_length _ _ _ _ _ Hp) as Hl.
  destruct Hp as [(r0 & Hr0 & Hm & Hf & Hu & Hs) [_ Hc] [Hd1 Hd2]%NoDup_cons Hsub Hb].
  rewrite Hr in Hr0. injection Hr0 as <-. cbn in Hl, Hu, Hf.
  unfold bnext at 2 in Hc. rewrite Hx in Hc. cbn in Hc.
  pose proof (chain_head _ _ _ Hc) as E. split; [done |]. split; auto; [| by rewrite <- E | set_solver].
  eexists. rewrite lookup_insert_eq. split; [done |]. cbn. repeat split; auto.
  change S1_BLOCKS with 170%nat in *. rewrite u16_id; lia.
Qed.

Lemma small_page_push K B R p b F r rb r' :
  small_page K B R p F → K !! p = Some r → B !! b = Some rb → b ∈ small_blocks p → b ∉ F →
  r' = set_kp_used (u16 (kp_used r - 1)) (set_kp_free (Some b) r) →
  small_page (<[p := r']> K) (<[b := set_b_next (kp_free r) rb]> B) R p (b :: F) ∧
  kp_used r' = Z.of_nat S1_BLOCKS - Z.of_nat (S (length F)).
Proof.
  intros Hp Hr Hb Hin HF ->.
  assert (kp_used r - 1 = Z.of_nat S1_BLOCKS - Z.of_nat (S (length F)) ∧
    (S (length F) ≤ S1_BLOCKS)%nat) as [E Hl].
  { destruct Hp as [(r0 & Hr0 & _ & _ & Hu & _) _ Hn Hs _]. rewrite Hr in Hr0. injection Hr0 as <-.
    split; [lia |]. rewrite <- (small_blocks_length p).
    apply (nodup_sub_length (b :: F)); [by apply NoDup_cons |].
    intros y [-> | Hy]%elem_of_cons; auto. }
  change S1_BLOCKS with 170%nat in *.
  assert (u16 (kp_used r - 1) = kp_used r - 1) as Eu by (apply u16_id; lia).
  split; [| cbn; lia].
  destruct Hp as [(r0 & Hr0 & Hm & Hf & Hu & Hs) Hc Hn Hsub Hbl].
  rewrite Hr in Hr0. injection Hr0 as <-. split.
  - eexists. rewrite lookup_insert_eq. split; [done |]. cbn. repeat split; auto.
    cbn in E. lia.
  - cbn. split; [done |]. unfold bnext at 2. rewrite lookup_insert_eq. cbn. rewrite Hf.
    eapply chain_frame, Hc. intros y Hy. unfold bnext. rewrite lookup_insert_ne; [done | set_solver].
  - by apply NoDup_cons.
  - intros y [-> | Hy]%elem_of_cons; auto.
  - intros c Hc'. destruct (decide (c = b)) as [-> |].
    + rewrite lookup_insert_eq. cbn. rewrite <- (Hbl b Hin), Hb. done.
    + rewrite lookup_insert_ne by done. auto.
Qed.

(** ** Small blocks: the operations *)

Lemma modkp_run p f s r :
  kps s !! p = Some r → modkp p f s = Some (tt, set_kps (<[p := f r]> (kps s)) s).
Proof. intros Hr. unfold modkp, getkp. by rewrite (bind_run _ _ _ _ _ (mderef_run (λ s, kps s !! p) _ _ Hr)). Qed.

Lemma getkp_run p s r : kps s !! p = Some r → getkp p s = Some (r, s).
Proof. apply (mderef_run (λ s, kps s !! p)). Qed.
Lemma gets1_run p s r : s1s s !! p = Some r → gets1 p s = Some (r, s).
Proof. apply (mderef_run (λ s, s1s s !! p)). Qed.
Lemma gets2_run p s r : s2s s !! p = Some r → gets2 p s = Some (r, s).
Proof. apply (mderef_run (λ s, s2s s !! p)). Qed.

Lemma putkp_run p r s : putkp p r s = Some (tt, set_kps (<[p := r]> (kps s)) s).
Proof. done. Qed.

(** Steps of a computation on a heap whose state is written out *)
Ltac kcbn := cbn beta iota zeta delta [kps s1s s2s table s1_head s1_tail s1_free s2_head s2_tail
  regs descrs set_kps set_s1s set_s2s set_table set_s1_head set_s1_tail set_s1_free set_s2_head
  set_s2_tail set_regs set_descrs].
Ltac look := kcbn; rewrite ?lookup_insert_eq; first [eassumption | reflexivity |
  rewrite lookup_insert_ne by congruence; look].
Ltac kstep :=
  lazymatch goal with
  | |- ((_ ≫= _) ≫= _) _ = _ => rewrite bind_assoc; kstep
  | |- (getkp _ ≫= _) _ = _ => erewrite bind_run; [| apply getkp_run; look]
  | |- (modkp _ _ ≫= _) _ = _ => erewrite bind_run; [| apply modkp_run; look]
  | |- (gets1 _ ≫= _) _ = _ => erewrite bind_run; [| apply gets1_run; look]
  | |- (nonnull _ ≫= _) _ = _ => erewrite bind_run; [| apply mderef_run; look]
  | |- ((let _ := _ in _) ≫= _) _ = _ => cbv zeta
  | |- (_ ≫= _) _ = _ => erewrite bind_run; [| reflexivity]
  end; kcbn.

Lemma s1_skip_run l fuel s :
  chain (knext (kps s)) (s1_free s) l.*1 → (length l < fuel)%nat →
  Forall (λ e, ∃ r, kps s !! e.1 = Some r ∧ kp_free r = head_or e.2 None) l →
  s1_skip fuel s = Some (tt, set_s1_free (first_free l) s).
Proof.
  revert s fuel. induction l as [|[p F] l IH]; intros s [|fuel] Hc Hl Hf; simpl in Hl; [lia | | lia |].
  all: destruct s as [K B S2 T h1 t1 fr h2 t2 R D]; simpl in Hc |- *.
  { subst. done. }
  destruct Hc as [-> Hc]. apply Forall_cons in Hf as [(r & Hr & Hfr) Hf].
  simpl in Hr. do 2 kstep. rewrite Hfr. destruct F as [|x F]; [| done]. simpl.
  kstep. rewrite IH; [done | | lia |].
  - simpl. unfold knext at 2 in Hc. by rewrite Hr in Hc.
  - exact Hf.
Qed.

(** ** What the parts do not share *)

Definition tile_of (r : km_s2) : Z * bool * option Z * option Z * Z :=
  (m_size r, m_free r, m_next r, m_prev r, m_page r).

Lemma tile_frame S2 S2' b :
  tile_of <$> S2' !! b = tile_of <$> S2 !! b →
  mnext S2' b = mnext S2 b ∧ mprev S2' b = mprev S2 b ∧ bfree S2' b = bfree S2 b ∧
  ∀ r, S2 !! b = Some r → ∃ r', S2' !! b = Some r' ∧ m_size r' = m_size r ∧ m_page r' = m_page r.
Proof.
  unfold mnext, mprev, bfree. destruct (S2 !! b) as [r |], (S2' !! b) as [r' |]; cbn; [| done..].
  intros [= E1 E2 E3 E4 E5]. rewrite E2, E3, E4. repeat split; auto.
  intros r0 [= <-]. eauto.
Qed.

Lemma tiles_frame S2 S2' p a bs e :
  (∀ b, b ∈ bs → tile_of <$> S2' !! b = tile_of <$> S2 !! b) →
  tiles S2 p a bs e → tiles S2' p a bs e.
Proof.
  revert a. induction bs as [|b bs IH]; intros a E; simpl; [done |].
  intros (-> & r & Hr & ? & ? & ? & Ht).
  destruct (tile_frame S2 S2' a) as (_ & _ & _ & F); [apply E; set_solver |].
  destruct (F r Hr) as (r' & Hr' & E1 & E2). split; [done |]. exists r'. rewrite E1, E2.
  repeat split; auto. apply IH; [set_solver | done].
Qed.

Lemma coalesced_frame S2 S2' f bs :
  (∀ b, b ∈ bs → bfree S2' b = bfree S2 b) → coalesced S2 f bs → coalesced S2' f bs.
Proof.
  revert f. induction bs as [|b bs IH]; intros f E; simpl; [done |].
  rewrite (E b) by set_solver. intros [? ?]. split; [done |]. apply IH; [set_solver | done].
Qed.

Lemma med_page_frame K S2 R K' S2' R' p bs :
  K' !! p = K !! p → (∀ b, b ∈ bs → tile_of <$> S2' !! b = tile_of <$> S2 !! b) →
  (∀ m, R !! m = Some (p, PAGESIZE) → R' !! m = Some (p, PAGESIZE)) →
  med_page K S2 R p bs → med_page K' S2' R' p bs.
Proof.
  intros EK ES ER [(r & m & ? & ? & ? & ?) Hd Ht Hc]. split.
  - exists r, m. rewrite EK. auto.
  - eapply dll_ext, Hd. intros b Hb. by destruct (tile_frame _ _ _ (ES b Hb)) as (? & ? & _).
  - by eapply tiles_frame.
  - eapply coalesced_frame, Hc. intros b Hb. by apply tile_frame, ES.
Qed.

Lemma large_blocks_frame K T R K' R' lg :
  (∀ k, k ∈ lg.*1 → K' !! k = K !! k) →
  (∀ k x m, (k, x) ∈ lg → R !! m = Some x → R' !! m = Some x) →
  large_blocks K T R lg → large_blocks K' T R' lg.
Proof.
  intros EK ER [Hn Hr Hc]. split; [done | |].
  - intros k x Hk. destruct (Hr k x Hk) as (r & m & ? & ? & ? & ?). exists r, m.
    rewrite EK; [eauto 10 |]. by apply (list_elem_of_fmap_2 fst) in Hk.
  - intros h. eapply chain_frame, Hc. intros k ([k' x] & -> & [_ Hk]%list_elem_of_filter)%list_elem_of_fmap.
    unfold hnext. rewrite EK; [done |]. by apply (list_elem_of_fmap_2 fst) in Hk.
Qed.

Lemma apart_app l1 l2 x y : apart (l1 ++ l2) → x ∈ l1 → y ∈ l2 → disj x y.
Proof.
  induction l1 as [|z l1 IH]; simpl; [set_solver |]. intros [Hf Ha] [-> | Hx]%elem_of_cons Hy; auto.
  rewrite Forall_forall in Hf. set_solver.
Qed.

Lemma apart_app_r l1 l2 : apart (l1 ++ l2) → apart l2.
Proof. induction l1; simpl; naive_solver. Qed.
Lemma apart_app_l l1 l2 : apart (l1 ++ l2) → apart l1.
Proof. induction l1; simpl; [done |]. rewrite Forall_app. naive_solver. Qed.

Lemma apart_two l x y : apart l → x ∈ l → y ∈ l → x ≠ y → disj x y.
Proof.
  induction l as [|z l IH]; simpl; [set_solver |]. rewrite Forall_forall.
  intros [Hf Ha] [-> | Hx]%elem_of_cons [-> | Hy]%elem_of_cons Hne; auto using disj_sym. done.
Qed.

Section rep.
Context (s : kms) (v : view) (Hrep : rep s v).

Lemma small_ext p F : (p, F) ∈ v_small v → (p, PAGESIZE) ∈ exts v.
Proof.
  intros Hp. unfold exts. apply elem_of_app. left.
  by apply (list_elem_of_fmap_2 page_ext), (list_elem_of_fmap_2 fst _ (p, F)).
Qed.
Lemma med_ext p bs : (p, bs) ∈ v_med v → (p, PAGESIZE) ∈ exts v.
Proof.
  intros Hp. unfold exts. apply elem_of_app. right. apply elem_of_app. left.
  by apply (list_elem_of_fmap_2 page_ext), (list_elem_of_fmap_2 fst _ (p, bs)).
Qed.
Lemma large_ext k x : (k, x) ∈ v_large v → x ∈ exts v.
Proof.
  intros Hp. unfold exts. apply elem_of_app. right. apply elem_of_app. right.
  by apply (list_elem_of_fmap_2 snd) in Hp.
Qed.
Lemma page_in (l : list (Z * list Z)) p : p ∈ l.*1 → ∃ F, (p, F) ∈ l.
Proof. intros ([q F] & -> & He)%list_elem_of_fmap. eauto. Qed.

Lemma small_not_med p F bs : (p, F) ∈ v_small v → (p, bs) ∈ v_med v → False.
Proof.
  intros Hp Hm. destruct (rp_space _ _ Hrep) as [Ha _ _ _].
  apply (list_elem_of_fmap_2 fst), (list_elem_of_fmap_2 page_ext) in Hp, Hm.
  assert (disj (p, PAGESIZE) (p, PAGESIZE)) as Hd.
  { eapply apart_app; [exact Ha | exact Hp |]. apply elem_of_app. by left. }
  unfold disj, PAGESIZE in Hd. cbn in Hd. lia.
Qed.

Lemma page_not_head p k : (p, PAGESIZE) ∈ exts v → k ∈ (v_large v).*1 → k ≠ p.
Proof.
  intros Hp Hk ->. destruct (rp_space _ _ Hrep) as [_ _ Hh _]. apply (Hh p _ Hk Hp).
  unfold within, PAGESIZE. cbn. lia.
Qed.
End rep.

(** Only the pages of small blocks change. *)
Lemma rep_small s v sm' K' B' hd tl p F :
  rep s v → (p, F) ∈ v_small v → (∀ q, q ≠ p → K' !! q = kps s !! q) →
  small_pages K' B' (regs s) sm' hd tl → sm'.*1 = (v_small v).*1 →
  rep (mk_kms K' B' (s2s s) (table s) hd tl (first_free sm') (s2_head s) (s2_tail s) (regs s)
         (descrs s))
      (mk_view sm' (v_med v) (v_free v) (v_large v)).
Proof.
  intros Hrep Hp EK Hs Ef. pose proof Hrep as [_ _ Hm Hl Hg Hsp]. split; cbn; auto.
  - rewrite Forall_forall in *. intros [q bs] Hq. specialize (Hm _ Hq). cbn in *.
    eapply med_page_frame, Hm; [| done..]. apply EK. intros ->. by eapply small_not_med.
  - eapply large_blocks_frame, Hg; [| done]. intros k Hk. apply EK.
    eapply page_not_head, Hk; [done | by eapply small_ext].
  - destruct Hsp as [H1 H2 H3 H4]. split; unfold exts in *; cbn; rewrite ?Ef; auto.
Qed.

(** ** Small blocks: allocation *)

Lemma first_free_split sm p :
  first_free sm = Some p →
  ∃ l1 x F l2, sm = l1 ++ (p, x :: F) :: l2 ∧ Forall (λ e, e.2 = []) l1.
Proof.
  induction sm as [|[q [|x F]] sm IH]; simpl; [done | |].
  - intros (l1 & x & F & l2 & -> & ?)%IH. exists ((q, []) :: l1), x, F, l2. auto.
  - intros [= ->]. by exists [], x, F, sm.
Qed.

Lemma first_free_app l1 l2 : Forall (λ e, e.2 = []) l1 → first_free (l1 ++ l2) = first_free l2.
Proof. induction 1 as [|[q G] l1 HG _ IH]; simpl in *; [done |]. by rewrite HG. Qed.

Lemma dom_size_le (K : gmap Z km_p) (l : list Z) :
  NoDup l → (∀ p, p ∈ l → is_Some (K !! p)) → (length l ≤ size K)%nat.
Proof.
  intros Hn Hs. rewrite <- size_dom, <- (size_list_to_set (C := gset Z) l) by done.
  apply subseteq_size. intros p Hp%elem_of_list_to_set. by apply elem_of_dom, Hs.
Qed.

Lemma small_pages_heads K B R sm hd tl :
  small_pages K B R sm hd tl →
  Forall (λ e, ∃ r, K !! e.1 = Some r ∧ kp_free r = head_or e.2 None) sm.
Proof.
  intros Hs. eapply Forall_impl; [apply Hs |]. intros e [(r & ? & _ & ? & _) _ _ _ _]. eauto.
Qed.

Lemma small_pages_size K B R sm hd tl :
  small_pages K B R sm hd tl → (length sm ≤ size K)%nat.
Proof.
  intros Hs. rewrite <- (length_fmap fst). apply dom_size_le; [apply Hs |].
  intros p (F & Hp)%page_in. destruct (small_pages_elem _ _ _ _ _ _ _ _ Hs Hp) as [(r & ? & _) _ _ _ _].
  eauto.
Qed.

(** What the code does when no page has a free block left. *)
Definition s1_grow (tries : nat) (sp : supply) (new : Z) (b : km_s1) : M kms (option Z) :=
  page ← new_page sp;
  match page with
  | Some page => km_s1_setup page ;; km_s1_malloc tries sp
  | None =>
      q ← mgets s1_free;
      q ← nonnull q;
      rq ← getkp q;
      puts1 new (set_b_next (kp_free rq) b) ;;
      modkp q (λ r, set_kp_used (u16 (kp_used r - 1)) (set_kp_free (Some new) r)) ;;
      mret None
  end.

(** The space that the heap holds is the same. *)
Record same_space (s s' : kms) : Prop := {
  sm_self : ∀ q, kp_self <$> kps s' !! q = kp_self <$> kps s !! q;
  sm_pos : ∀ q, kpos (kps s') q = kpos (kps s) q;
  sm_regs : regs s' = regs s;
  sm_descrs : descrs s' = descrs s;
  sm_tail : s1_tail s' = s1_tail s;
  sm_s2s : s2s s' = s2s s
}.

Lemma s1_malloc_step tries sp s v l1 p x F l2 :
  rep s v → v_small v = l1 ++ (p, x :: F) :: l2 → Forall (λ e, e.2 = []) l1 →
  ∃ s' b, km_s1_malloc (S tries) sp s =
      (if first_free (l1 ++ (p, F) :: l2) then Some (Some (x + S1_HEAD), s')
       else s1_grow tries sp x b s') ∧
    same_space s s' ∧ rep s' (mk_view (l1 ++ (p, F) :: l2) (v_med v) (v_free v) (v_large v)).
Proof.
  intros Hrep Ev Hl1. pose proof (rp_small _ _ Hrep) as Hs. rewrite Ev in Hs.
  assert (small_page (kps s) (s1s s) (regs s) p (x :: F)) as Hpg
    by (eapply small_pages_elem; [done | set_solver]).
  pose proof Hpg as [(r & Hr & Hm & Hf & _) [_ Hc] _ Hsub Hb].
  destruct (s1s s !! x) as [b |] eqn:Hx; [| specialize (Hb x); rewrite Hx in Hb; by assert (None = Some p) by set_solver].
  destruct (small_page_pop _ _ _ _ _ _ _ _ _ Hpg Hr Hx eq_refl) as [En Hpg'].
  eassert (small_pages _ _ _ _ _ _) as Hs'
    by (eapply small_pages_update; [exact Hs | exact Hr | .. | exact Hpg']; done).
  eexists (mk_kms _ _ _ _ _ _ _ _ _ _ _), b. split; [| split; cycle 1].
  2: { eapply (rep_small s v _ _ _ _ _ p (x :: F)); [done | rewrite Ev; set_solver | | exact Hs' |].
    - intros q Hq. by rewrite lookup_insert_ne.
    - by rewrite Ev, !fmap_app, !fmap_cons. }
  2: { split; try done; intros q; kcbn; [|unfold kpos]; (destruct (decide (q = p)) as [-> |];
         [by rewrite lookup_insert_eq, Hr | by rewrite lookup_insert_ne]). }
  pose proof (rp_first _ _ Hrep) as Efr. rewrite Ev, first_free_app in Efr by done. simpl in Efr.
  rewrite first_free_app by done. cbn [km_s1_malloc].
  destruct s as [K B S2 T h1 t1 fr h2 t2 R D]. cbn in *. subst fr. 
  do 6 kstep. rewrite En in *. destruct F as [|y F]; [| done]. cbn [head_or] in *.
  kstep. erewrite bind_run; cycle 1.
  { apply (s1_skip_run ((p, []) :: l2)); kcbn.
    - pose proof (ss_dll _ _ _ _ _ _ Hs') as Hd. rewrite fmap_app in Hd.
      by apply dll_chain in Hd.
    - apply small_pages_size in Hs'. rewrite length_app in Hs'. cbn in *. lia.
    - apply small_pages_heads, Forall_app in Hs'. apply Hs'. }
  kcbn. kstep. cbn [first_free]. by destruct (first_free l2).
Qed.

(** ** Growth: what the memory regions and the store of descriptors promise *)

Definition grant_at (g : grant) : option (Z * Z) :=
  match g with Denied => None | Cut n l | Exact n l => Some (n, l) end.
(** The region that is given: its descriptor and address. *)
Definition granted (sp : supply) : option (Z * Z) :=
  match grant_at (sp_alt sp) with Some x => Some x | None => grant_at (sp_core sp) end.

(** A piece of memory that the heap does not hold: it is apart from the regions, the static
    page and the heads in descriptors. *)
Record fresh_region (s : kms) (x : Z * Z) : Prop := {
  fr_pos : 0 < x.1 ∧ x.1 + x.2 ≤ 4294967296;
  fr_regs : ∀ m y, regs s !! m = Some y → disj x y;
  fr_static : ∀ p r, kps s !! p = Some r → kp_self r = None → disj x (p, PAGESIZE);
  fr_descrs : ∀ k, k ∈ descrs s → ¬ within k x
}.
(** A descriptor that the heap does not hold *)
Record fresh_descr (s : kms) (k : Z) : Prop := {
  fd_descrs : k ∉ descrs s;
  fd_head : kps s !! k = None;
  fd_regs : ∀ m y, regs s !! m = Some y → ¬ within k y;
  fd_static : ∀ p r, kps s !! p = Some r → kp_self r = None → ¬ within k (p, PAGESIZE)
}.
Record supply_ok (s : kms) (sp : supply) (size : Z) : Prop := {
  su_descr : ∀ m, sp_descr sp = Some m → fresh_descr s m;
  su_head : ∀ k, sp_head sp = Some k → fresh_descr s k ∧ sp_descr sp ≠ Some k;
  su_region : ∀ n l, granted sp = Some (n, l) →
    regs s !! n = None ∧ fresh_region s (l, region_size size) ∧
    ∀ k, sp_head sp = Some k → ¬ within k (l, region_size size)
}.

Lemma fresh_disj s v x e : rep s v → fresh_region s x → e ∈ exts v → disj x e.
Proof.
  intros Hrep Hx. unfold exts. rewrite !elem_of_app.
  intros [(p & -> & (F & Hp)%page_in)%list_elem_of_fmap
    | [(p & -> & (bs & Hp)%page_in)%list_elem_of_fmap | ([k y] & -> & Hk)%list_elem_of_fmap]].
  - destruct (small_pages_elem _ _ _ _ _ _ _ _ (rp_small _ _ Hrep) Hp) as [(r & Hr & _ & _ & _ & Hs) _ _ _ _].
    unfold self_ok in Hs. destruct (kp_self r) as [m |] eqn:Em.
    + by eapply fr_regs.
    + by eapply fr_static.
  - pose proof (rp_med _ _ Hrep) as Hm. rewrite Forall_forall in Hm.
    destruct (Hm _ Hp) as [(r & m & _ & _ & _ & Hr) _ _ _]. by eapply fr_regs.
  - destruct (lb_rec _ _ _ _ (rp_large _ _ Hrep) k y Hk) as (r & m & _ & _ & _ & Hr).
    by eapply fr_regs.
Qed.

Lemma fresh_not_within s v k e : rep s v → fresh_descr s k → e ∈ exts v → ¬ within k e.
Proof.
  intros Hrep Hx. unfold exts. rewrite !elem_of_app.
  intros [(p & -> & (F & Hp)%page_in)%list_elem_of_fmap
    | [(p & -> & (bs & Hp)%page_in)%list_elem_of_fmap | ([q y] & -> & Hk)%list_elem_of_fmap]].
  - destruct (small_pages_elem _ _ _ _ _ _ _ _ (rp_small _ _ Hrep) Hp) as [(r & Hr & _ & _ & _ & Hs) _ _ _ _].
    unfold self_ok in Hs. destruct (kp_self r) as [m |] eqn:Em.
    + by eapply fd_regs.
    + by eapply fd_static.
  - pose proof (rp_med _ _ Hrep) as Hm. rewrite Forall_forall in Hm.
    destruct (Hm _ Hp) as [(r & m & _ & _ & _ & Hr) _ _ _]. by eapply fd_regs.
  - destruct (lb_rec _ _ _ _ (rp_large _ _ Hrep) q y Hk) as (r & m & _ & _ & _ & Hr).
    by eapply fd_regs.
Qed.

(** The descriptor is taken and the region entered. *)
Lemma get_region_run g size m s :
  m ∈ descrs s → kps s !! m = None →
  km_get_region g size m s =
    Some (fst <$> grant_at g,
      match grant_at g with
      | None => s
      | Some (n, l) => set_regs (<[n := (l, region_size size)]> (regs s))
          (set_descrs (descrs s ∖ {[m]}) s)
      end).
Proof.
  intros Hm Hk. destruct s as [K B S2 T h1 t1 fr h2 t2 R D]. cbn in Hm, Hk.
  destruct g as [| n l | n l]; [done | |]; cbn.
  all: unfold kmr_free; kstep; rewrite bool_decide_eq_true_2 by done; kstep;
    erewrite bind_run by reflexivity; kcbn; kstep; by rewrite delete_id.
Qed.

Lemma km_malloc_run sp size m page s :
  m ∈ descrs s → kps s !! m = None →
  km_malloc sp size m page s =
    match granted sp with
    | None => Some (None, s)
    | Some (n, l) =>
        let p := default l page in
        let r := default raw_page (kps s !! p) in
        Some (Some p, set_kps (<[p := set_kp_size (u16 (size ≫ 4)) (set_kp_self (Some n) r)]> (kps s))
          (set_regs (<[n := (l, region_size size)]> (regs s)) (set_descrs (descrs s ∖ {[m]}) s)))
    end.
Proof.
  intros Hm Hk. unfold km_malloc, granted. erewrite bind_run by (by apply get_region_run).
  destruct (grant_at (sp_alt sp)) as [[n l] |] eqn:Ea; simpl.
  - kstep. destruct s as [K B S2 T h1 t1 fr h2 t2 R D]. kcbn.
    unfold loc_of. rewrite bind_assoc. erewrite bind_run by (apply mderef_run; look).
    by kcbn; do 2 kstep.
  - erewrite bind_run by (by apply get_region_run).
    destruct (grant_at (sp_core sp)) as [[n l] |]; simpl; [| done].
    destruct s as [K B S2 T h1 t1 fr h2 t2 R D]. kcbn.
    unfold loc_of. rewrite bind_assoc. erewrite bind_run by (apply mderef_run; look).
    by kcbn; do 2 kstep.
Qed.

(** The state with a page at [l], whose region has the descriptor [n] *)
Definition page_rec (s : kms) (n l : Z) : km_p :=
  set_kp_size (u16 (PAGESIZE ≫ 4)) (set_kp_self (Some n) (default raw_page (kps s !! l))).
Definition with_page (n l : Z) (s : kms) : kms :=
  set_kps (<[l := page_rec s n l]> (kps s)) (set_regs (<[n := (l, PAGESIZE)]> (regs s)) s).

Lemma new_page_run s sp size :
  supply_ok s sp size →
  new_page sp s =
    Some (match sp_descr sp, granted sp with
          | Some _, Some (n, l) => (Some l, with_page n l s)
          | _, _ => (None, s)
          end).
Proof.
  intros [Hd _ _]. unfold new_page. destruct (sp_descr sp) as [m |]; [| done].
  destruct (Hd m eq_refl) as [H1 H2 _ _]. destruct s as [K B S2 T h1 t1 fr h2 t2 R D]. cbn in *.
  assert (({[m]} ∪ D) ∖ {[m]} = D) as ED by set_solver.
  kstep. kstep.
  destruct (granted sp) as [[n l] |] eqn:Eg.
  - erewrite bind_run; [| rewrite km_malloc_run, Eg by (kcbn; first [done | set_solver]); reflexivity].
    kcbn. by rewrite ED.
  - erewrite bind_run; [| rewrite km_malloc_run, Eg by (kcbn; first [done | set_solver]); reflexivity].
    kcbn. unfold kmr_free. kstep. rewrite bool_decide_eq_true_2 by set_solver. do 2 kstep.
    by rewrite ED, delete_id.
Qed.

(** ** Small blocks: a new page *)

Lemma s1_carve_run n page ptr s :
  ∃ B, s1_carve n page ptr s = Some (tt, set_s1s B s) ∧
    (∀ i, (i < n)%nat → B !! (ptr + S1_SIZE * Z.of_nat i) =
       Some (mk_km_s1 page (Some (ptr + S1_SIZE * Z.of_nat (S i))))) ∧
    (∀ b, (∀ i, (i < n)%nat → b ≠ ptr + S1_SIZE * Z.of_nat i) → B !! b = s1s s !! b).
Proof.
  revert ptr s. induction n as [|n IH]; intros ptr s.
  { exists (s1s s). split; [by destruct s |]. split; [lia | done]. }
  cbn [s1_carve]. set (s1 := set_s1s (<[ptr := mk_km_s1 page (Some (ptr + S1_SIZE))]> (s1s s)) s).
  rewrite (bind_run _ _ s tt s1) by done.
  destruct (IH (ptr + S1_SIZE) s1) as (B & -> & H1 & H2). exists B.
  split; [by destruct s |]. split.
  - intros [|i] Hi.
    + rewrite H2 by (intros j _; unfold S1_SIZE; lia). destruct s. cbn.
      rewrite Z.mul_0_r, Z.add_0_r. by rewrite lookup_insert_eq, Z.mul_1_r.
    + replace (ptr + S1_SIZE * Z.of_nat (S i)) with (ptr + S1_SIZE + S1_SIZE * Z.of_nat i) by lia.
      rewrite H1 by lia. do 3 f_equal. lia.
  - intros b Hb. rewrite H2.
    + destruct s. cbn. apply lookup_insert_ne. intros <-. apply (Hb 0%nat); lia.
    + intros i Hi E. apply (Hb (S i)); lia.
Qed.

Lemma chain_seq N f k n :
  (∀ i, (k ≤ i < k + n)%nat → N (f i) = if decide (S i = k + n)%nat then None else Some (f (S i))) →
  chain N (head_or (f <$> seq k n) None) (f <$> seq k n).
Proof.
  revert k. induction n as [|n IH]; intros k E; simpl; [done |]. split; [done |].
  rewrite E by lia. specialize (IH (S k)).
  assert (chain N (head_or (f <$> seq (S k) n) None) (f <$> seq (S k) n)) as Hc.
  { apply IH. intros i Hi. rewrite E by lia. do 2 case_decide; try done; lia. }
  case_decide.
  - destruct n; [done | lia].
  - destruct n; [lia | exact Hc].
Qed.

Lemma small_blocks_nodup p : NoDup (small_blocks p).
Proof.
  apply NoDup_fmap_2_strong; [| apply NoDup_seq].
  intros i j _ _. unfold block_at, S1_SIZE. lia.
Qed.

(** The heads after [page] was put at the end of the list. *)
Record appended (K K' : gmap Z km_p) (tl : option Z) (page : Z) (rp : km_p) : Prop := {
  ap_page : K' !! page = Some rp;
  ap_next : kp_next rp = None;
  ap_prev : kp_prev rp = tl;
  ap_tail : ∀ t rt, tl = Some t → K !! t = Some rt → K' !! t = Some (set_kp_next (Some page) rt);
  ap_other : ∀ q, q ≠ page → tl ≠ Some q → K' !! q = K !! q
}.

Lemma list_insert_run s page r :
  kps s !! page = Some r → (∀ t, s1_tail s = Some t → t ≠ page ∧ is_Some (kps s !! t)) →
  ∃ K', km_list_insert page s = Some (tt, mk_kms K' (s1s s) (s2s s) (table s)
      (if s1_tail s then s1_head s else Some page) (Some page) (s1_free s) (s2_head s) (s2_tail s)
      (regs s) (descrs s)) ∧
    appended (kps s) K' (s1_tail s) page (set_kp_next None (set_kp_prev (s1_tail s) r)).
Proof.
  intros Hr Ht. destruct s as [K B S2 T h1 t1 fr h2 t2 R D]. cbn in *.
  destruct t1 as [t |].
  - destruct (Ht t eq_refl) as [Hne [rt Hrt]].
    eexists. split; [unfold km_list_insert; do 4 kstep; reflexivity |]. split; kcbn; try done.
    + by rewrite insert_insert_eq, lookup_insert_eq.
    + intros t' rt' [= <-] Hrt'. rewrite insert_insert_eq, lookup_insert_ne by done.
      rewrite lookup_insert_eq. congruence.
    + intros q Hq Hq'. rewrite insert_insert_eq, !lookup_insert_ne by congruence. done.
  - eexists. split; [unfold km_list_insert; do 4 kstep; reflexivity |]. split; kcbn; try done.
    + by rewrite insert_insert_eq, lookup_insert_eq.
    + intros q Hq Hq'. rewrite insert_insert_eq, !lookup_insert_ne by congruence. done.
Qed.

Lemma appended_links K K' tl page rp (l : list Z) :
  appended K K' tl page rp → tl = last_or None l → page ∉ l →
  (∀ p, p ∈ l → is_Some (K !! p)) →
  dll (knext K) (kprev K) l → dll (knext K') (kprev K') (l ++ [page]).
Proof.
  intros [Hp Hn Hpr Ht Ho] -> Hnin Hs Hd.
  assert (∀ y, y ∈ l → ∃ r r', K !! y = Some r ∧ K' !! y = Some r' ∧ kp_prev r' = kp_prev r ∧
    kp_next r' = if decide (last_or None l = Some y) then Some page else kp_next r) as Hy.
  { intros y Hy. destruct (Hs y Hy) as [r Hr]. case_decide as E.
    - exists r, (set_kp_next (Some page) r). auto.
    - exists r, r. rewrite Ho; [done | set_solver | done]. }
  eapply dll_snoc; [exact Hd | done | | | |].
  - intros y Hin. destruct (Hy y Hin) as (r & r' & E1 & E2 & E3 & _). unfold kprev. by rewrite E1, E2.
  - intros y Hin. destruct (Hy y Hin) as (r & r' & E1 & E2 & _ & E3). unfold knext. by rewrite E1, E2.
  - unfold kprev. by rewrite Hp.
  - unfold knext. by rewrite Hp.
Qed.

Lemma sorted_last l x y : StronglySorted Z.lt (l ++ [y]) → x ∈ l ++ [y] → x ≤ y.
Proof.
  intros (Hl & _ & _)%StronglySorted_app [Hx | ->%list_elem_of_singleton]%elem_of_app; [|lia].
  specialize (Hl x y Hx). assert (y ∈ [y]) by set_solver. specialize (Hl H). lia.
Qed.

Lemma small_page_same K B R K' B' p F r r' :
  K !! p = Some r → K' !! p = Some r' →
  kp_magic r' = kp_magic r ∧ kp_free r' = kp_free r ∧ kp_used r' = kp_used r ∧
    kp_self r' = kp_self r →
  (∀ b, b ∈ small_blocks p → B' !! b = B !! b) →
  small_page K B R p F → small_page K' B' R p F.
Proof.
  intros E1 E2 (Em & Ef & Eu & Es) EB [(r0 & Hr & ? & ? & ? & Hs) Hc Hn Hsub Hb].
  rewrite E1 in Hr. injection Hr as <-. split; [| | done..|].
  - exists r'. unfold self_ok. rewrite Em, Ef, Eu, Es. auto.
  - eapply chain_frame, Hc. intros x Hx. unfold bnext. rewrite EB; [done | by apply Hsub].
  - intros b Hin. rewrite EB; auto.
Qed.

Lemma small_pages_snoc K B R K' B' sm hd tl page rp :
  small_pages K B R sm hd tl → appended K K' tl page rp → page ∉ sm.*1 →
  small_page K' B' R page (small_blocks page) →
  (∀ t, tl = Some t → kpos K t < kp_pos rp) → 0 ≤ kp_pos rp →
  (∀ b, ¬ within b (page, PAGESIZE) → B' !! b = B !! b) →
  (∀ p, p ∈ sm.*1 → disj (p, PAGESIZE) (page, PAGESIZE)) →
  small_pages K' B' R (sm ++ [(page, small_blocks page)]) (head_or (sm.*1 ++ [page]) None) (Some page).
Proof.
  intros Hs Ha Hnin Hpg Hpos Hpos0 EB Hdj. pose proof Hs as [Hd Hh Ht Hp Hf Hdom].
  assert (∀ p, p ∈ sm.*1 → is_Some (K !! p)) as Hsome.
  { intros p (F & Hin)%page_in. rewrite Forall_forall in Hf.
    destruct (Hf _ Hin) as [(r & ? & _) _ _ _ _]. eauto. }
  assert (∀ p, p ∈ sm.*1 → ∃ r r', K !! p = Some r ∧ K' !! p = Some r' ∧ kp_pos r' = kp_pos r ∧
    kp_magic r' = kp_magic r ∧ kp_free r' = kp_free r ∧ kp_used r' = kp_used r ∧
    kp_self r' = kp_self r) as Hsame.
  { intros p Hin. destruct (Hsome p Hin) as [r Hr]. exists r. destruct Ha as [_ _ _ H1 H2].
    destruct (decide (tl = Some p)) as [Et |].
    - rewrite (H1 p r Et Hr). eauto 10.
    - rewrite H2; [eauto 10 | set_solver | done]. }
  split; rewrite ?fmap_app; cbn [fmap list_fmap fst]; auto.
  - by eapply appended_links.
  - by rewrite last_or_snoc.
  - change (-1 :: ?l ++ ?k) with ((-1 :: l) ++ k). apply StronglySorted_app.
    rewrite (pos_frame K).
    2: { intros p Hin. destruct (Hsame p Hin) as (r & r' & E1 & E2 & E3 & _). unfold kpos.
         rewrite E1, E2. cbn. by rewrite E3. }
    split; [| split; [done | repeat constructor]].
    assert (kpos K' page = kp_pos rp) as -> by (unfold kpos; by rewrite (ap_page _ _ _ _ _ Ha)).
    intros x y Hx ->%list_elem_of_singleton.
    destruct (decide (x = -1)) as [-> |]; [lia |]. apply elem_of_cons in Hx as [-> | Hx]; [lia |].
    destruct sm.*1 as [|t l _] using rev_ind; [by apply elem_of_nil in Hx |].
    rewrite last_or_snoc in Ht. specialize (Hpos t Ht). rewrite fmap_app in Hp, Hx.
    apply StronglySorted_cons in Hp as [_ Hp]. pose proof (sorted_last _ _ _ Hp Hx). lia.
  - apply Forall_app. split; [| by apply Forall_singleton].
    rewrite Forall_forall in *. intros [p F] Hin. specialize (Hf _ Hin). cbn in *.
    apply (list_elem_of_fmap_2 fst) in Hin as Hin'. destruct (Hsame p Hin') as (r & r' & E1 & E2 & E3).
    eapply small_page_same; [exact E1 | exact E2 | tauto | | exact Hf].
    intros b [Hw _]%small_block_within. apply EB. intros Hw'. specialize (Hdj p Hin').
    unfold disj, within in *. cbn in *. lia.
  - intros b Hb. destruct (decide (within b (page, PAGESIZE))) as [Hw | Hw].
    + exists page. split; [set_solver | done].
    + destruct (Hdom b) as (p & ? & ?); [by rewrite <- EB |]. exists p. split; [set_solver | done].
Qed.

Lemma small_blocks_head p : head_or (small_blocks p) None = Some (p + P__HEAD).
Proof.
  unfold small_blocks. change S1_BLOCKS with (S 169). simpl. unfold block_at. f_equal. lia.
Qed.

(** The head of a page that was just set up *)
Record fresh_head (page pos : Z) (tl : option Z) (r rp : km_p) : Prop := {
  fh_next : kp_next rp = None;
  fh_prev : kp_prev rp = tl;
  fh_magic : kp_magic rp = S1_MAGIC;
  fh_free : kp_free rp = Some (page + P__HEAD);
  fh_pos : kp_pos rp = pos;
  fh_used : kp_used rp = 0;
  fh_self : kp_self rp = kp_self r
}.

Lemma carved_page K B R page r rp pos tl :
  K !! page = Some rp → fresh_head page pos tl r rp → self_ok R page r →
  (∀ i, (i < S1_BLOCKS)%nat → ∃ o, B !! block_at page i = Some (mk_km_s1 page o) ∧
     o = if decide (S i = S1_BLOCKS) then None else Some (block_at page (S i))) →
  small_page K B R page (small_blocks page).
Proof.
  intros Hp [] Hs HB. split.
  - exists rp. repeat split; auto.
    + by rewrite small_blocks_head.
    + unfold self_ok in *. by rewrite fh_self0.
  - unfold small_blocks. apply chain_seq. intros i Hi. destruct (HB i) as (o & E & ->); [lia |].
    unfold bnext. rewrite E. done.
  - apply small_blocks_nodup.
  - done.
  - intros b (i & -> & Hi%elem_of_seq)%list_elem_of_fmap. destruct (HB i) as (o & -> & _); [lia | done].
Qed.

Lemma s1_setup_run s page r :
  kps s !! page = Some r →
  (∀ t, s1_tail s = Some t → t ≠ page ∧ is_Some (kps s !! t) ∧
     0 ≤ kpos (kps s) t ∧ kpos (kps s) t + 1 < 4294967296) →
  ∃ K' B' rp, km_s1_setup page s = Some (tt, mk_kms K' B' (s2s s) (table s)
      (if s1_tail s then s1_head s else Some page) (Some page) (Some page) (s2_head s) (s2_tail s)
      (regs s) (descrs s)) ∧
    appended (kps s) K' (s1_tail s) page rp ∧
    fresh_head page (match s1_tail s with Some t => kpos (kps s) t + 1 | None => 0 end)
      (s1_tail s) r rp ∧
    (∀ i, (i < S1_BLOCKS)%nat → ∃ o, B' !! block_at page i = Some (mk_km_s1 page o) ∧
       o = if decide (S i = S1_BLOCKS) then None else Some (block_at page (S i))) ∧
    (∀ b, ¬ within b (page, PAGESIZE) → B' !! b = s1s s !! b).
Proof.
  intros Hr Ht. destruct (list_insert_run s page r Hr) as (K1 & Hi & Ha); [naive_solver |].
  destruct s as [K B S2 T h1 t1 fr h2 t2 R D]. cbn in *.
  set (h1' := if t1 then h1 else Some page) in *.
  set (pos := match t1 with Some t => kpos K t + 1 | None => 0 end).
  set (rp := set_kp_used 0 (set_kp_pos pos (set_kp_free (Some (page + P__HEAD))
    (set_kp_magic S1_MAGIC (set_kp_next None (set_kp_prev t1 r)))))).
  destruct (s1_carve_run S1_BLOCKS page (page + P__HEAD)
    (mk_kms (<[page := rp]> K1) B S2 T h1' (Some page) (Some page) h2 t2 R D)) as (B1 & Hc & HB1 & HB2).
  cbn in HB2. 
  assert (Hpos : ∀ st, kps st = K1 →
    (match t1 with Some q => rq ← getkp q; mret (u32 (kp_pos rq + 1)) | None => mret 0 end) st =
    Some (pos, st)).
  { intros st Est. destruct t1 as [t |]; [| done]. destruct (Ht t eq_refl) as (_ & [rt Hrt] & H1 & H2).
    unfold pos, kpos in *. rewrite Hrt in *. cbn in *.
    erewrite bind_run; [| apply getkp_run; rewrite Est; exact (ap_tail _ _ _ _ _ Ha t rt eq_refl Hrt)].
    cbn. by rewrite u32_id by lia. }
  assert (∀ i, (i < S1_BLOCKS)%nat → page + P__HEAD + S1_SIZE * Z.of_nat i = block_at page i) as Eb by done.
  pose proof (HB1 169%nat ltac:(change S1_BLOCKS with 170%nat; lia)) as Hlast.
  exists (<[page := rp]> K1), (<[block_at page 169 := mk_km_s1 page None]> B1), rp.
  split; [| split; [| split; [| split]]].
  - unfold km_s1_setup. rewrite (bind_run _ _ _ _ _ Hi).
    erewrite bind_run; [| apply getkp_run; exact (ap_page _ _ _ _ _ Ha)].
    erewrite bind_run; [| apply Hpos; reflexivity].
    erewrite bind_run; [| apply modkp_run; exact (ap_page _ _ _ _ _ Ha)]. kcbn.
    do 1 kstep. rewrite (bind_run _ _ _ _ _ Hc). kcbn.
    erewrite bind_run; [| apply gets1_run; exact Hlast]. done.
  - destruct Ha as [_ _ _ H1 H2]. split; [apply lookup_insert_eq | done | done | |].
    + intros t rt Et Hrt. destruct (Ht t Et) as [Hne _]. rewrite lookup_insert_ne by done. auto.
    + intros q Hq Hq'. rewrite lookup_insert_ne by done. auto.
  - done.
  - intros i Hi'. destruct (decide (i = 169%nat)) as [-> | Hne].
    + exists None. by rewrite lookup_insert_eq.
    + eexists. rewrite lookup_insert_ne by (unfold block_at, S1_SIZE; lia). split; [by apply HB1 |].
      change S1_BLOCKS with 170%nat in *. rewrite decide_False by lia. done.
  - intros b Hb. assert (∀ i, (i < S1_BLOCKS)%nat → b ≠ block_at page i) as Hnb.
    { intros i Hi' ->. apply Hb. apply small_block_within, list_elem_of_fmap. exists i.
      split; [done |]. apply elem_of_seq. lia. }
    rewrite lookup_insert_ne; [apply HB2; intros i Hi'; by apply Hnb |].
    apply not_eq_sym, Hnb. change S1_BLOCKS with 170%nat. lia.
Qed.

(** ** Growth of the view *)

Lemma space_ok_add v v' D x :
  space_ok v D → exts v' ≡ₚ x :: exts v → v_large v' = v_large v →
  (∀ e, e ∈ exts v → disj x e) → 0 < x.1 ∧ 0 < x.2 ∧ x.1 + x.2 ≤ 4294967296 →
  (∀ k, k ∈ (v_large v).*1 → ¬ within k x) → space_ok v' D.
Proof.
  intros [H1 H2 H3 H4] Hp El Hd Hpos Hh. split.
  - eapply apart_perm; [symmetry; exact Hp |]. split; [by apply Forall_forall | done].
  - rewrite Hp. by constructor.
  - intros k e. rewrite El, Hp. intros Hk [-> | He]%elem_of_cons; auto.
  - by rewrite El.
Qed.

(** A page that the heap gets is apart from what it has. *)
Lemma fresh_page s v sp size n l :
  rep s v → supply_ok s sp size → granted sp = Some (n, l) → region_size size = PAGESIZE →
  regs s !! n = None ∧ (∀ e, e ∈ exts v → disj (l, PAGESIZE) e) ∧
  (0 < l ∧ l + PAGESIZE ≤ 4294967296) ∧ (∀ k, k ∈ (v_large v).*1 → ¬ within k (l, PAGESIZE)) ∧
  (∀ F, (l, F) ∉ v_small v) ∧ (∀ F, (l, F) ∉ v_med v) ∧ l ∉ (v_large v).*1.
Proof.
  intros Hrep Hsu Hg Esz. destruct (su_region _ _ _ Hsu n l Hg) as (H1 & H2 & _). rewrite Esz in H2.
  assert (∀ e, e ∈ exts v → disj (l, PAGESIZE) e) as Hd by (intros e; by eapply fresh_disj).
  assert (∀ k, k ∈ (v_large v).*1 → ¬ within k (l, PAGESIZE)) as Hk.
  { intros k Hk. apply (fr_descrs _ _ H2). rewrite (so_descrs _ _ (rp_space _ _ Hrep)).
    by apply elem_of_list_to_set. }
  assert (¬ disj (l, PAGESIZE) (l, PAGESIZE)) as Hn by (unfold disj, PAGESIZE; cbn; lia).
  repeat split; auto; try apply (fr_pos _ _ H2).
  - intros F Hin. by eapply Hn, Hd, small_ext.
  - intros F Hin. by eapply Hn, Hd, med_ext.
  - intros Hin. apply (Hk l Hin). unfold within, PAGESIZE. cbn. lia.
Qed.

(** The number of the last page can be incremented. *)
Definition pos_room (s : kms) : Prop :=
  ∀ t, s1_tail s = Some t → kpos (kps s) t + 1 < 4294967296.

Lemma small_tail K B R sm hd tl t :
  small_pages K B R sm hd tl → tl = Some t → t ∈ sm.*1 ∧ is_Some (K !! t) ∧ 0 ≤ kpos K t.
Proof.
  intros Hs Et. pose proof (ss_tail _ _ _ _ _ _ Hs) as E. rewrite Et in E.
  apply eq_sym, last_or_in in E as [? | Hin]; [done |].
  destruct (page_in _ _ Hin) as [F HF].
  destruct (small_pages_elem _ _ _ _ _ _ _ _ Hs HF) as [(r & Hr & _) _ _ _ _].
  split; [done |]. split; [eauto |].
  pose proof (ss_pos _ _ _ _ _ _ Hs) as Hp. apply StronglySorted_cons in Hp as [Hp _].
  rewrite Forall_forall in Hp. specialize (Hp (kpos K t)).
  assert (kpos K t ∈ kpos K <$> sm.*1) as Hin' by (by apply list_elem_of_fmap_2). apply Hp in Hin'. lia.
Qed.

Lemma with_page_small n l s sm hd tl :
  small_pages (kps s) (s1s s) (regs s) sm hd tl → l ∉ sm.*1 → regs s !! n = None →
  small_pages (kps (with_page n l s)) (s1s s) (regs (with_page n l s)) sm hd tl.
Proof.
  intros Hs Hl Hn. destruct s as [K B S2 T h1 t1 fr h2 t2 R D]. cbn in *.
  eapply small_pages_frame, Hs; auto.
  - intros p F Hp%(list_elem_of_fmap_2 fst). rewrite lookup_insert_ne; [done |]. cbn in Hp. set_solver.
  - intros p F m _ Hm. rewrite lookup_insert_ne; [done |]. congruence.
Qed.

(** What a new page at [l] leaves alone. *)
Lemma with_page_others n l s v K' :
  rep s v → (∀ F, (l, F) ∉ v_med v) → l ∉ (v_large v).*1 → regs s !! n = None →
  (∀ q, q ≠ l → q ∉ (v_small v).*1 → K' !! q = kps s !! q) →
  Forall (λ e, med_page K' (s2s s) (regs (with_page n l s)) e.1 e.2) (v_med v) ∧
  large_blocks K' (table s) (regs (with_page n l s)) (v_large v).
Proof.
  intros Hrep Hlm Hll Hn EK. pose proof Hrep as [_ _ Hm _ Hg _].
  assert (∀ m x, regs s !! m = Some x → regs (with_page n l s) !! m = Some x) as ER.
  { intros m x Hx. destruct s. cbn in *. rewrite lookup_insert_ne; [done | congruence]. }
  split.
  - rewrite Forall_forall in *. intros [q bs] Hq. specialize (Hm _ Hq). cbn in *.
    eapply med_page_frame, Hm; [| done | auto]. apply EK; [naive_solver |].
    intros (F & HF)%page_in. by eapply small_not_med.
  - eapply large_blocks_frame, Hg; [| eauto]. intros k Hk. apply EK; [naive_solver |].
    intros (F & HF)%page_in. by eapply page_not_head; [| eapply small_ext, HF | ..].
Qed.

Lemma first_free_none sm : first_free sm = None → Forall (λ e, e.2 = []) sm.
Proof. induction sm as [|[p [|x F]] sm IH]; simpl; intros ?; [by constructor | | done]. constructor; auto. Qed.

Lemma list_head_eq (l : list Z) hd tl p :
  hd = head_or l None → tl = last_or None l →
  (if tl then hd else Some p : option Z) = head_or (l ++ [p]) None.
Proof. destruct l as [|x l]; intros -> ->; [done |]. simpl. destruct l using rev_ind; [done |]. by rewrite last_or_snoc. Qed.

Lemma s1_grow_run s v sp n l :
  rep s v → supply_ok s sp PAGESIZE → granted sp = Some (n, l) → pos_room s →
  first_free (v_small v) = None →
  ∃ s', km_s1_setup l (with_page n l s) = Some (tt, s') ∧ s2s s' = s2s s ∧
    rep s' (mk_view (v_small v ++ [(l, small_blocks l)]) (v_med v) (v_free v) (v_large v)).
Proof.
  intros Hrep Hsu Hg Hpr Hff.
  destruct (fresh_page s v sp PAGESIZE n l Hrep Hsu Hg eq_refl) as (Hn & Hd & [Hp1 Hp2] & Hhd & Hls & Hlm & Hll).
  assert (l ∉ (v_small v).*1) as Hl by (intros (F & HF)%page_in; naive_solver).
  pose proof (with_page_small n l s _ _ _ (rp_small _ _ Hrep) Hl Hn) as Hs.
  set (s0 := with_page n l s) in *.
  assert (s1_tail s0 = s1_tail s ∧ s1s s0 = s1s s ∧ s1_head s0 = s1_head s ∧ regs s0 !! n = Some (l, PAGESIZE) ∧
    kps s0 !! l = Some (page_rec s n l) ∧ ∀ q, q ≠ l → kps s0 !! q = kps s !! q) as (Et & EB & Eh & Er & Ep & Eq).
  { unfold s0. destruct s. cbn. rewrite !lookup_insert_eq. repeat split; auto.
    intros q Hq. by rewrite lookup_insert_ne. }
  destruct (s1_setup_run s0 l (page_rec s n l) Ep) as (K' & B' & rp & Hrun & Ha & Hf & HB & HB').
  { intros t Ht. rewrite Et in Ht. destruct (small_tail _ _ _ _ _ _ _ Hs Ht) as (? & ? & ?).
    repeat split; auto; [naive_solver |]. unfold kpos. rewrite Eq by naive_solver. by apply Hpr. }
  eexists. split; [exact Hrun |]. split; [by destruct s |].
  assert (∀ q, q ≠ l → q ∉ (v_small v).*1 → K' !! q = kps s !! q) as EK.
  { intros q Hq Hqs. rewrite (ap_other _ _ _ _ _ Ha); [by apply Eq | done |].
    rewrite Et. intros Ht. by destruct (small_tail _ _ _ _ _ _ _ Hs Ht). }
  destruct (with_page_others n l s v K' Hrep Hlm Hll Hn EK) as [Hm Hlg].
  assert (small_pages K' B' (regs s0) (v_small v ++ [(l, small_blocks l)])
    (head_or ((v_small v).*1 ++ [l]) None) (Some l)) as Hs'.
  { eapply small_pages_snoc; [exact Hs | rewrite <- Et; exact Ha | done | | | | |].
    - eapply carved_page; [apply Ha | exact Hf | | exact HB]. unfold self_ok, page_rec. cbn. done.
    - intros t Ht. rewrite (fh_pos _ _ _ _ _ Hf), Et, Ht. lia.
    - rewrite (fh_pos _ _ _ _ _ Hf), Et. destruct (s1_tail s) as [t |] eqn:Ht; [| done].
      destruct (small_tail _ _ _ _ _ _ _ Hs eq_refl) as (_ & _ & ?). lia.
    - intros b Hb. rewrite <- EB. auto.
    - intros p (F & HF)%page_in. apply disj_sym, Hd. by eapply small_ext. }
  rewrite <- (list_head_eq _ (s1_head s) (s1_tail s)) in Hs';
    [| exact (ss_head _ _ _ _ _ _ Hs) | exact (ss_tail _ _ _ _ _ _ Hs)].
  destruct Hrep as [_ _ _ Hfl _ Hsp]. split; kcbn; cbn [v_small v_med v_free v_large]; rewrite ?Et, ?Eh.
  - exact Hs'.
  - by rewrite first_free_app by (by apply first_free_none).
  - destruct s; exact Hm.
  - destruct s; exact Hfl.
  - destruct s; exact Hlg.
  - eapply (space_ok_add v _ _ (l, PAGESIZE)); [by destruct s | | done | exact Hd | done | exact Hhd].
    unfold exts. cbn. rewrite fmap_app, fmap_app. cbn. rewrite <- !app_assoc. cbn.
    by rewrite <- Permutation_middle.
Qed.

Lemma self_same (o o' : option km_p) :
  kp_self <$> o' = kp_self <$> o →
  ∀ r', o' = Some r' → ∃ r, o = Some r ∧ kp_self r = kp_self r'.
Proof. intros E r' ->. destruct o; naive_solver. Qed.

Lemma supply_ok_same s s' sp size : same_space s s' → supply_ok s sp size → supply_ok s' sp size.
Proof.
  intros [Es _ Er Ed _ _] [H1 H2 H3].
  assert (∀ k, fresh_descr s k → fresh_descr s' k) as Hf.
  { intros k [A1 A2 A3 A4]. split; rewrite ?Ed, ?Er; auto.
    - specialize (Es k). rewrite A2 in Es. by destruct (kps s' !! k).
    - intros p r' Hr' Hn. destruct (self_same _ _ (Es p) r' Hr') as (r & Hr & E).
      eapply A4; [exact Hr | congruence]. }
  split; [auto | |].
  - intros k Hk. destruct (H2 k Hk). auto.
  - intros n l Hg. destruct (H3 n l Hg) as (B1 & [C1 C2 C3 C4] & B3). rewrite Er. repeat split; auto.
    + apply C1.
    + apply C1.
    + rewrite Er. done.
    + intros p r' Hr' Hn. destruct (self_same _ _ (Es p) r' Hr') as (r & Hr & E).
      eapply C3; [exact Hr | congruence].
    + rewrite Ed. done.
Qed.

(** The supply that a small or a medium block may need: a descriptor and a page. *)
Definition grows (s : kms) (sp : supply) : Prop :=
  supply_ok s sp PAGESIZE ∧ pos_room s ∧ sp_descr sp ≠ None ∧ granted sp ≠ None.

(** The pages of [sm] are still there, with no more free blocks. *)
Definition less_free (sm sm' : list (Z * list Z)) : Prop :=
  ∀ q G, (q, G) ∈ sm → ∃ G', (q, G') ∈ sm' ∧ G' ⊆ G.

Lemma less_free_pop l1 p (x : Z) F l2 : less_free (l1 ++ (p, x :: F) :: l2) (l1 ++ (p, F) :: l2).
Proof.
  intros q G [Hq | [[= -> ->] | Hq]%elem_of_cons]%elem_of_app; [exists G | exists F | exists G]; set_solver.
Qed.

(** A block was taken that was free, or is of a page that is new. *)
Definition taken (sm sm' : list (Z * list Z)) (x : Z) : Prop :=
  ∃ p F, (p, F) ∈ sm' ∧ x ∈ small_blocks p ∧ x ∉ F ∧ ∀ G, (p, G) ∈ sm → x ∈ G.

Lemma taken_pop K B R l1 p x F l2 hd tl :
  small_pages K B R (l1 ++ (p, x :: F) :: l2) hd tl →
  taken (l1 ++ (p, x :: F) :: l2) (l1 ++ (p, F) :: l2) x.
Proof.
  intros Hs. assert (small_page K B R p (x :: F)) as Hp by (eapply small_pages_elem; [done | set_solver]).
  pose proof (sp_nodup _ _ _ _ _ Hp) as [Hx _]%NoDup_cons.
  exists p, F. repeat split; [set_solver | apply (sp_sub _ _ _ _ _ Hp); set_solver | done |].
  intros G HG. rewrite (fst_unique l1 p (x :: F) G l2); [set_solver | | done].
  apply (ss_dll _ _ _ _ _ _ Hs).
Qed.

(** A new page has more than one block. *)
Lemma small_blocks_two p : ∃ x y F, small_blocks p = x :: y :: F.
Proof. unfold small_blocks. change S1_BLOCKS with (S (S 168)). simpl. eauto. Qed.

Lemma less_free_app sm l G : less_free sm (sm ++ [(l, G)]).
Proof. intros q H Hq. exists H. set_solver. Qed.
Lemma less_free_trans a b c : less_free a b → less_free b c → less_free a c.
Proof. intros H1 H2 q G (G1 & HG1 & E1)%H1. destruct (H2 q G1 HG1) as (G2 & ? & ?). exists G2. set_solver. Qed.

Lemma s1_malloc_grow s v sp new b0 :
  rep s v → first_free (v_small v) = None → grows s sp →
  ∃ x s' v' l, s1_grow 1 sp new b0 s = Some (Some (x + S1_HEAD), s') ∧ rep s' v' ∧
    first_free (v_small v') ≠ None ∧ s2s s' = s2s s ∧ v_med v' = v_med v ∧
    v_large v' = v_large v ∧ less_free (v_small v) (v_small v') ∧ l ∉ (v_small v).*1 ∧
    taken (v_small v ++ [(l, small_blocks l)]) (v_small v') x.
Proof.
  intros Hrep Hff (Hsu & Hpr & Hd & Hg).
  destruct (sp_descr sp) as [m |] eqn:Em; [clear Hd | done].
  destruct (granted sp) as [[n l] |] eqn:Eg; [clear Hg | done].
  destruct (fresh_page s v sp PAGESIZE n l Hrep Hsu Eg eq_refl) as (_ & _ & _ & _ & Hls & _ & _).
  destruct (s1_grow_run s v sp n l Hrep Hsu Eg Hpr Hff) as (s1 & Hset & Es1 & Hrep1).
  destruct (small_blocks_two l) as (x & y & F & EF). rewrite EF in Hrep1.
  destruct (s1_malloc_step 0 sp s1 _ (v_small v) l x (y :: F) [] Hrep1 eq_refl (first_free_none _ Hff))
    as (s2 & b & Hrun & Hsame & Hrep2).
  rewrite first_free_app in Hrun by (by apply first_free_none). cbn in Hrun.
  pose proof (rp_small _ _ Hrep1) as Hs. cbn [v_small] in Hs.
  exists x, s2, (mk_view (v_small v ++ [(l, y :: F)]) (v_med v) (v_free v) (v_large v)), l.
  split; [| split; [exact Hrep2 | cbn [v_small v_med v_large]]].
  - unfold s1_grow. erewrite bind_run; [| rewrite (new_page_run _ _ _ Hsu), Em, Eg; reflexivity]. kcbn.
    by rewrite (bind_run _ _ _ _ _ Hset).
  - rewrite first_free_app by (by apply first_free_none). repeat split; try done.
    + rewrite (sm_s2s _ _ Hsame). done.
    + apply less_free_app.
    + intros (G & HG)%page_in. by eapply Hls.
    + rewrite EF. by eapply taken_pop.
Qed.

Lemma s1_malloc_ok s v sp :
  rep s v → first_free (v_small v) ≠ None → grows s sp →
  ∃ x s' v', km_s1_malloc 2 sp s = Some (Some (x + S1_HEAD), s') ∧ rep s' v' ∧
    first_free (v_small v') ≠ None ∧ s2s s' = s2s s ∧ v_med v' = v_med v ∧
    v_large v' = v_large v ∧ less_free (v_small v) (v_small v') ∧ taken (v_small v) (v_small v') x.
Proof.
  intros Hrep Hff Hgr.
  destruct (first_free (v_small v)) as [p |] eqn:Ep; [clear Hff | done].
  destruct (first_free_split _ _ Ep) as (l1 & x & F & l2 & Ev & Hl1).
  destruct (s1_malloc_step 1 sp s v l1 p x F l2 Hrep Ev Hl1) as (s1 & b & Hrun & Hsame & Hrep1).
  pose proof (rp_small _ _ Hrep) as Hs. rewrite Ev in Hs.
  pose proof (less_free_pop l1 p x F l2) as Hle. pose proof (taken_pop _ _ _ _ _ _ _ _ _ _ Hs) as Htk.
  rewrite <- Ev in Hle, Htk.
  destruct (first_free (l1 ++ (p, F) :: l2)) as [q |] eqn:Eq.
  { exists x, s1, (mk_view (l1 ++ (p, F) :: l2) (v_med v) (v_free v) (v_large v)).
    cbn [v_small v_med v_large]. rewrite Eq. split_and!; auto. apply (sm_s2s _ _ Hsame). }
  assert (grows s1 sp) as Hgr1.
  { destruct Hgr as (A1 & A2 & A3). split; [by eapply supply_ok_same |]. split; [| done].
    intros t. rewrite (sm_tail _ _ Hsame), (sm_pos _ _ Hsame). apply A2. }
  destruct (s1_malloc_grow s1 _ sp x b Hrep1 Eq Hgr1) as
    (x' & s2 & v2 & l & Hrun2 & Hrep2 & Hff2 & Es2 & Em2 & El2 & Hle2 & Hl & Htk2).
  exists x', s2, v2. cbn [v_small v_med v_large] in *.
  split; [| split_and!; auto].
  - by rewrite Hrun.
  - rewrite Es2. apply (sm_s2s _ _ Hsame).
  - by eapply less_free_trans.
  - destruct Htk2 as (q & G & H1 & H2 & H3 & H4). exists q, G. repeat split; auto.
    intros G0 HG0. destruct (Hle q G0 HG0) as (G1 & HG1 & Hsub). apply Hsub, H4. set_solver.
Qed.

(** ** Small blocks: release *)

Definition on_link {A} (o : option Z) (f : A → A) (K : gmap Z A) : gmap Z A :=
  match o with Some q => alter f q K | None => K end.

Lemma on_link_lookup {A} o (f : A → A) (K : gmap Z A) y :
  on_link o f K !! y = (if decide (o = Some y) then f <$> K !! y else K !! y).
Proof.
  destruct o as [q |]; cbn; [| done]. destruct (decide (q = y)) as [-> | Hne].
  - by rewrite decide_True, lookup_alter_eq.
  - rewrite decide_False by congruence. by rewrite lookup_alter_ne.
Qed.

Lemma modkp_alter p f s :
  is_Some (kps s !! p) → modkp p f s = Some (tt, set_kps (alter f p (kps s)) s).
Proof.
  intros [r Hr]. rewrite (modkp_run _ _ _ r Hr). do 3 f_equal. apply map_eq. intros q.
  destruct (decide (q = p)) as [-> |].
  - by rewrite lookup_insert_eq, lookup_alter_eq, Hr.
  - by rewrite lookup_insert_ne, lookup_alter_ne.
Qed.

Lemma head_remove (l1 l2 : list Z) x hd :
  hd = head_or (l1 ++ x :: l2) None →
  (if last_or None l1 then hd else head_or l2 None : option Z) = head_or (l1 ++ l2) None.
Proof. destruct l1 as [|y l1] using rev_ind; intros ->; [done |]. by rewrite last_or_snoc, <- !app_assoc; destruct l1. Qed.

Lemma last_or_app p (l1 l2 : list Z) : last_or p (l1 ++ l2) = last_or (last_or p l1) l2.
Proof. revert p. induction l1; simpl; auto. Qed.

Lemma last_remove (l1 l2 : list Z) x tl :
  tl = last_or None (l1 ++ x :: l2) →
  (if head_or l2 None then tl else last_or None l1 : option Z) = last_or None (l1 ++ l2).
Proof. intros ->. rewrite !last_or_app. by destruct l2. Qed.

Lemma list_remove_run s l1 p l2 r :
  dll (knext (kps s)) (kprev (kps s)) (l1 ++ p :: l2) → kps s !! p = Some r →
  (∀ q, q ∈ l1 ++ p :: l2 → is_Some (kps s !! q)) →
  s1_head s = head_or (l1 ++ p :: l2) None → s1_tail s = last_or None (l1 ++ p :: l2) →
  km_list_remove p s = Some (tt, mk_kms
    (on_link (head_or l2 None) (set_kp_prev (last_or None l1))
      (on_link (last_or None l1) (set_kp_next (head_or l2 None)) (kps s)))
    (s1s s) (s2s s) (table s) (head_or (l1 ++ l2) None) (last_or None (l1 ++ l2)) (s1_free s)
    (s2_head s) (s2_tail s) (regs s) (descrs s)).
Proof.
  intros Hd Hr Hs Hh Ht. destruct (dll_links _ _ _ _ _ Hd) as [Ep En].
  destruct s as [K B S2 T h1 t1 fr h2 t2 R D]. cbn in *.
  unfold kprev in Ep. unfold knext in En. rewrite Hr in Ep, En. cbn in Ep, En.
  rewrite <- (head_remove _ _ _ _ Hh), <- (last_remove _ _ _ _ Ht).
  unfold km_list_remove. kstep. rewrite Ep, En.
  assert (∀ q, last_or None l1 = Some q → is_Some (K !! q)) as H1.
  { intros q [? | ?]%last_or_in; [done |]. apply Hs. set_solver. }
  assert (∀ q, head_or l2 None = Some q → is_Some (K !! q)) as H2.
  { intros q [? | ?]%head_or_in; [done |]. apply Hs. set_solver. }
  destruct (last_or None l1) as [q |] eqn:Eq; cbn [on_link].
  - erewrite bind_run; [| apply modkp_alter; kcbn; auto]. kcbn.
    destruct (head_or l2 None) as [n |]; cbn [on_link]; [| done].
    rewrite modkp_alter; [done |]. kcbn. apply lookup_alter_is_Some. auto.
  - kstep. destruct (head_or l2 None) as [n |]; cbn [on_link]; [| done].
    rewrite modkp_alter; [done |]. kcbn. auto.
Qed.

Lemma outside_lookup {A} x (h : gmap Z A) a :
  (within a x → outside x.1 x.2 h !! a = None) ∧
  (¬ within a x → outside x.1 x.2 h !! a = h !! a).
Proof.
  unfold within, outside. split; intros Hw.
  - apply map_lookup_filter_None. right. intros ? _ ?. done.
  - rewrite map_lookup_filter. destruct (h !! a); cbn; [| done]. by case_guard.
Qed.

Lemma free_region_run s m x :
  regs s !! m = Some x →
  km_free_region m s = Some (tt, set_kps (outside x.1 x.2 (kps s)) (set_s1s (outside x.1 x.2 (s1s s))
    (set_s2s (outside x.1 x.2 (s2s s)) (set_regs (delete m (regs s)) s)))).
Proof.
  intros Hm. unfold km_free_region. destruct x as [l n].
  erewrite bind_run; [| apply mderef_run; exact Hm]. done.
Qed.

Lemma StronglySorted_remove (l1 l2 : list Z) x :
  StronglySorted Z.lt (l1 ++ x :: l2) → StronglySorted Z.lt (l1 ++ l2).
Proof.
  intros (H1 & H2 & [_ H3]%StronglySorted_cons)%StronglySorted_app.
  apply StronglySorted_app. split; [set_solver | done].
Qed.

Lemma small_pages_remove K B R K' B' R' l1 p F l2 hd tl :
  small_pages K B R (l1 ++ (p, F) :: l2) hd tl →
  (∀ q, q ∈ (l1 ++ l2).*1 → K' !! q =
     on_link (head_or l2.*1 None) (set_kp_prev (last_or None l1.*1))
      (on_link (last_or None l1.*1) (set_kp_next (head_or l2.*1 None)) K) !! q) →
  (∀ b, ¬ within b (p, PAGESIZE) → B' !! b = B !! b) →
  (∀ b, within b (p, PAGESIZE) → B' !! b = None) →
  (∀ q m, q ≠ p → R !! m = Some (q, PAGESIZE) → R' !! m = Some (q, PAGESIZE)) →
  (∀ q, q ∈ (l1 ++ l2).*1 → disj (p, PAGESIZE) (q, PAGESIZE)) →
  small_pages K' B' R' (l1 ++ l2) (head_or (l1 ++ l2).*1 None) (last_or None (l1 ++ l2).*1).
Proof.
  intros Hs EK EB NB ER Hdj. pose proof Hs as [Hd Hh Ht Hp Hf Hdom].
  rewrite fmap_app, fmap_cons in Hd, Hp, Hdom. cbn [fst] in Hd, Hp, Hdom.
  assert (∀ q, q ∈ (l1 ++ l2).*1 → ∃ r r', K !! q = Some r ∧ K' !! q = Some r' ∧
    knext K' q = (if decide (last_or None l1.*1 = Some q) then head_or l2.*1 None else knext K q) ∧
    kprev K' q = (if decide (head_or l2.*1 None = Some q) then last_or None l1.*1 else kprev K q) ∧
    kp_pos r' = kp_pos r ∧ kp_magic r' = kp_magic r ∧ kp_free r' = kp_free r ∧
    kp_used r' = kp_used r ∧ kp_self r' = kp_self r) as Hall.
  { intros q Hq. destruct (page_in _ _ Hq) as [G HG]. rewrite Forall_forall in Hf.
    destruct (Hf (q, G)) as [(r & Hr & _) _ _ _ _]; [set_solver |]. cbn in Hr.
    exists r. unfold knext, kprev. rewrite (EK q Hq), !on_link_lookup, Hr.
    repeat case_decide; cbn; eauto 15. }
  split; auto.
  - rewrite (fmap_app fst l1 l2). eapply dll_remove; [exact Hd | |].
    + intros y Hy. rewrite <- fmap_app in Hy. destruct (Hall y Hy) as (? & ? & _ & _ & ? & _). done.
    + intros y Hy. rewrite <- fmap_app in Hy. destruct (Hall y Hy) as (? & ? & _ & _ & _ & ? & _). done.
  - rewrite (pos_frame K).
    + rewrite !fmap_app. rewrite fmap_app, fmap_cons in Hp.
      change (-1 :: ?a ++ ?b) with ((-1 :: a) ++ b) in *. by eapply StronglySorted_remove.
    + intros q Hq. destruct (Hall q Hq) as (r & r' & E1 & E2 & _ & _ & E3 & _).
      unfold kpos. rewrite E1, E2. cbn. by rewrite E3.
  - rewrite Forall_forall in *. intros [q G] HG. cbn.
    assert (q ∈ (l1 ++ l2).*1) as Hq by (by apply (list_elem_of_fmap_2 fst) in HG).
    destruct (Hall q Hq) as (r & r' & E1 & E2 & _ & _ & _ & E3).
    assert (q ≠ p) as Hne.
    { intros ->. specialize (Hdj p Hq). unfold disj, PAGESIZE in Hdj. cbn in Hdj. lia. }
    assert (small_page K B R q G) as Hpg by (apply (Hf (q, G)); set_solver).
    eapply (small_page_frame K' B' R); [done.. | intros m; by apply ER |].
    eapply small_page_same; [exact E1 | exact E2 | tauto | | exact Hpg].
    intros b [Hw _]%small_block_within. apply EB. intros Hw'. specialize (Hdj q Hq).
    unfold disj, within in *. cbn in *. lia.
  - intros b Hb. destruct (decide (within b (p, PAGESIZE))) as [Hw | Hw].
    + rewrite NB in Hb by done. by destruct Hb.
    + rewrite EB in Hb by done. destruct (Hdom b Hb) as (q & Hq & Hwq). exists q. split; [| done].
      rewrite fmap_app. set_solver.
Qed.

(** ** The release of a region *)

Lemma tiles_within S2 p a bs e b :
  tiles S2 p a bs e → b ∈ bs →
  ∃ r, S2 !! b = Some r ∧ a ≤ b ∧ 32 ≤ m_size r ∧ b + m_size r ≤ e ∧ m_page r = p.
Proof.
  revert a. induction bs as [|c bs IH]; intros a; [set_solver |].
  intros (-> & r & Hr & H1 & H2 & H3 & Ht) Hb.
  assert (∀ a' cs, tiles S2 p a' cs e → a' ≤ e) as Hle.
  { intros a' cs. revert a'. induction cs as [|d cs IH']; simpl; [lia |].
    intros a' (_ & r' & _ & ? & _ & _ & ?%IH'). lia. }
  apply elem_of_cons in Hb as [-> | Hb].
  - exists r. apply Hle in Ht. eauto with lia.
  - destruct (IH _ Ht Hb) as (r' & ? & ? & ? & ? & ?). exists r'. repeat split; auto. lia.
Qed.

Lemma med_block_within K S2 R p bs b :
  med_page K S2 R p bs → b ∈ bs →
  within b (p, PAGESIZE) ∧ ∃ r, S2 !! b = Some r ∧ p + P__HEAD ≤ b ∧ 32 ≤ m_size r ∧
    b + m_size r ≤ p + PAGESIZE ∧ m_page r = p.
Proof.
  intros [_ _ Ht _] Hb. destruct (tiles_within _ _ _ _ _ _ Ht Hb) as (r & ? & ? & ? & ? & ?).
  split; [| eauto 10]. unfold within. cbn. change P__HEAD with 32 in *. lia.
Qed.

Lemma space_ok_remove v v' D x :
  space_ok v D → exts v ≡ₚ x :: exts v' → v_large v' = v_large v → space_ok v' D.
Proof.
  intros [H1 H2 H3 H4] Hp El. rewrite Hp in H2. apply Forall_cons in H2 as [_ H2]. split; auto.
  - apply (apart_perm _ _ Hp) in H1. apply H1.
  - rewrite El. intros k e Hk He. apply H3; [done |]. rewrite Hp. set_solver.
  - by rewrite El.
Qed.

(** What the release of the region of the page [p] leaves alone *)
Lemma freed_med s v p m K' l :
  rep s v → regs s !! m = Some (p, PAGESIZE) →
  (∀ q bs, (q, bs) ∈ l → (q, bs) ∈ v_med v ∧ disj (p, PAGESIZE) (q, PAGESIZE)) →
  (∀ q, ¬ within q (p, PAGESIZE) → q ∉ (v_small v).*1 → K' !! q = kps s !! q) →
  Forall (λ e, med_page K' (outside p PAGESIZE (s2s s)) (delete m (regs s)) e.1 e.2) l.
Proof.
  intros Hrep Hm Hl EK. apply Forall_forall. intros [q bs] Hq. cbn.
  destruct (Hl q bs Hq) as [Hin Hdj]. pose proof (rp_med _ _ Hrep) as Hf.
  rewrite Forall_forall in Hf. specialize (Hf _ Hin). cbn in Hf.
  eapply med_page_frame, Hf.
  - apply EK; [unfold disj, within, PAGESIZE in *; cbn in *; lia |].
    intros (F & HF)%page_in. by eapply small_not_med.
  - intros b Hb. destruct (med_block_within _ _ _ _ _ _ Hf Hb) as [Hw _].
    f_equal. apply (outside_lookup (p, PAGESIZE)). unfold disj, within in *. cbn in *. lia.
  - intros m' Hm'. rewrite lookup_delete_ne; [done |]. intros ->. rewrite Hm in Hm'.
    injection Hm' as ->. unfold disj, PAGESIZE in Hdj. cbn in Hdj. lia.
Qed.

Lemma freed_large s v p m K' :
  rep s v → regs s !! m = Some (p, PAGESIZE) → (p, PAGESIZE) ∈ exts v → (p, PAGESIZE) ∉ (v_large v).*2 →
  (∀ q, ¬ within q (p, PAGESIZE) → q ∉ (v_small v).*1 → K' !! q = kps s !! q) →
  large_blocks K' (table s) (delete m (regs s)) (v_large v).
Proof.
  intros Hrep Hm He Hnl EK. pose proof Hrep as [_ _ _ _ Hg Hsp].
  eapply large_blocks_frame, Hg.
  - intros k Hk. apply EK; [by apply (so_heads _ _ Hsp) |].
    intros (F & HF)%page_in. by eapply page_not_head; [| eapply small_ext, HF | ..].
  - intros k x m' Hk Hm'. rewrite lookup_delete_ne; [done |]. intros ->. rewrite Hm in Hm'.
    injection Hm' as <-. by apply Hnl, (list_elem_of_fmap_2 snd _ (k, (p, PAGESIZE))).
Qed.

Lemma page_not_large v D p :
  space_ok v D → p ∈ (v_small v).*1 ∨ p ∈ (v_med v).*1 → (p, PAGESIZE) ∉ (v_large v).*2.
Proof.
  intros [Ha _ _ _] Hp Hl. unfold exts in Ha. rewrite app_assoc in Ha.
  assert (disj (p, PAGESIZE) (p, PAGESIZE)) as Hd.
  { eapply apart_app; [exact Ha | | exact Hl]. rewrite elem_of_app.
    destruct Hp; [left | right]; by apply (list_elem_of_fmap_2 page_ext). }
  unfold disj, PAGESIZE in Hd. cbn in Hd. lia.
Qed.

Lemma first_free_in sm f : first_free sm = Some f → f ∈ sm.*1.
Proof. intros (l1 & x & F & l2 & -> & _)%first_free_split. rewrite fmap_app. set_solver. Qed.

Lemma first_free_app_eq l1 l2 :
  first_free (l1 ++ l2) = match first_free l1 with Some f => Some f | None => first_free l2 end.
Proof. induction l1 as [|[p [|x F]] l1 IH]; simpl; auto. Qed.

Lemma kpos_lookup K p r : K !! p = Some r → kpos K p = kp_pos r.
Proof. unfold kpos. by intros ->. Qed.

Lemma s1_lower_run s l1 p b F l2 hd tl r f :
  small_pages (kps s) (s1s s) (regs s) (l1 ++ (p, b :: F) :: l2) hd tl →
  kps s !! p = Some r → s1_free s = Some f → first_free (l1 ++ (p, F) :: l2) = Some f →
  s1_lower (Some f) p r s = Some (tt, set_s1_free (first_free (l1 ++ (p, b :: F) :: l2)) s).
Proof.
  intros Hs Hr Ef Hff. pose proof (ss_pos _ _ _ _ _ _ Hs) as Hp.
  apply StronglySorted_cons in Hp as [_ Hp]. rewrite !fmap_app, fmap_cons, fmap_cons in Hp.
  apply StronglySorted_app in Hp as (H1 & _ & [H2 _]%StronglySorted_cons). cbn [fst] in H1, H2.
  rewrite (kpos_lookup _ _ _ Hr) in H1, H2. rewrite Forall_forall in H2.
  assert (f ∈ (l1 ++ (p, b :: F) :: l2).*1) as Hin.
  { apply first_free_in in Hff. rewrite fmap_app in *. done. }
  destruct (page_in _ _ Hin) as [G HG].
  destruct (small_pages_elem _ _ _ _ _ _ _ _ Hs HG) as [(rf & Hrf & _) _ _ _ _].
  unfold s1_lower. kstep. erewrite bind_run; [| apply getkp_run, Hrf].
  rewrite first_free_app_eq in Hff |- *. cbn [first_free] in Hff |- *.
  destruct (first_free l1) as [g |] eqn:Eg.
  - injection Hff as ->. apply first_free_in in Eg.
    assert (kp_pos rf < kp_pos r) as Hlt.
    { rewrite <- (kpos_lookup _ _ _ Hrf). apply H1; [by apply list_elem_of_fmap_2 | set_solver]. }
    rewrite (proj2 (Z.ltb_ge _ _)) by lia. by destruct s; cbn in *; subst.
  - destruct F as [|y F]; cbn [first_free] in Hff.
    + apply first_free_in in Hff. assert (kp_pos r < kp_pos rf) as Hlt.
      { rewrite <- (kpos_lookup _ _ _ Hrf). apply H2. by apply list_elem_of_fmap_2. }
      rewrite (proj2 (Z.ltb_lt _ _)) by lia. done.
    + injection Hff as <-. rewrite Hr in Hrf. injection Hrf as <-. rewrite Z.ltb_irrefl.
      by destruct s; cbn in *; subst.
Qed.

(** The blocks in use other than [b] stay in use. *)
Definition others_kept (sm sm' : list (Z * list Z)) (b : Z) : Prop :=
  ∀ q G c, (q, G) ∈ sm → c ∈ small_blocks q → c ∉ G → c ≠ b → ∃ G', (q, G') ∈ sm' ∧ c ∉ G'.

Definition med_kept (v : view) (s s' : kms) : Prop :=
  ∀ q bs c, (q, bs) ∈ v_med v → c ∈ bs → s2s s' !! c = s2s s !! c.

(** The state of the heap after the block was put on the list of its page *)
Definition pushed (s : kms) (b p : Z) (rb : km_s1) (r : km_p) : kms :=
  set_s1s (<[b := set_b_next (kp_free r) rb]> (s1s s))
    (set_kps (<[p := set_kp_used (u16 (kp_used r - 1)) (set_kp_free (Some b) r)]> (kps s)) s).

Lemma s1_push s v l1 p F l2 b :
  rep s v → v_small v = l1 ++ (p, F) :: l2 → b ∈ small_blocks p → b ∉ F →
  ∃ rb r, s1s s !! b = Some rb ∧ kps s !! p = Some r ∧
    small_pages (kps (pushed s b p rb r)) (s1s (pushed s b p rb r)) (regs s)
      (l1 ++ (p, b :: F) :: l2) (s1_head s) (s1_tail s) ∧
    u16 (kp_used r - 1) = Z.of_nat S1_BLOCKS - Z.of_nat (S (length F)) ∧ self_ok (regs s) p r.
Proof.
  intros Hrep Ev Hb HF. pose proof (rp_small _ _ Hrep) as Hs. rewrite Ev in Hs.
  assert (small_page (kps s) (s1s s) (regs s) p F) as Hpg by (eapply small_pages_elem; [done | set_solver]).
  pose proof (sp_blocks _ _ _ _ _ Hpg b Hb) as Hbk. destruct (s1s s !! b) as [rb |] eqn:Erb; [| done].
  destruct (sp_rec _ _ _ _ _ Hpg) as (r & Hr & _ & _ & _ & Hself).
  destruct (small_page_push _ _ _ _ _ _ _ _ _ Hpg Hr Erb Hb HF eq_refl) as [Hpg' Hu].
  exists rb, r. split; [done |]. split; [done |]. split; [| done].
  destruct s as [K B S2 T h1 t1 fr h2 t2 R D]. cbn in *.
  eapply small_pages_update; [exact Hs | exact Hr | done.. | | exact Hpg'].
  intros c Hc. rewrite lookup_insert_ne; [done |]. by intros ->.
Qed.

Lemma nodup_full (l k : list Z) : NoDup l → l ⊆ k → (length k ≤ length l)%nat → k ⊆ l.
Proof.
  intros Hn Hs Hl. apply NoDup_submseteq, submseteq_length_Permutation in Hs; [| done..].
  intros x. by rewrite Hs.
Qed.

Lemma exts_small_remove v l1 p F l2 :
  v_small v = l1 ++ (p, F) :: l2 →
  exts v ≡ₚ (p, PAGESIZE) :: exts (mk_view (l1 ++ l2) (v_med v) (v_free v) (v_large v)).
Proof.
  intros E. unfold exts. rewrite E. cbn. rewrite !fmap_app, !fmap_cons. cbn.
  rewrite <- !app_assoc. cbn. by rewrite <- Permutation_middle.
Qed.

Lemma free_list_frame S2 S2' md fl hd tl :
  (∀ b, b ∈ mjoin md.*2 → S2' !! b = S2 !! b) →
  free_list S2 md fl hd tl → free_list S2' md fl hd tl.
Proof.
  intros E [Hd Hh Ht Hf]. split; auto.
  - eapply dll_ext, Hd. intros b [Hb _]%Hf. unfold fnext, fprev. by rewrite E.
  - intros b. rewrite Hf. split; intros [Hb ?]; (split; [done |]); unfold bfree in *.
    + by rewrite E.
    + by rewrite <- E.
Qed.

Lemma med_block_ext v b : b ∈ mjoin (v_med v).*2 → ∃ p bs, (p, bs) ∈ v_med v ∧ b ∈ bs.
Proof. intros (bs & Hb & ([p bs'] & -> & Hin)%list_elem_of_fmap)%list_elem_of_join. eauto. Qed.

(** The blocks of medium size are not in the memory that is freed. *)
Lemma freed_blocks s v p b :
  rep s v → (∀ q bs, (q, bs) ∈ v_med v → disj (p, PAGESIZE) (q, PAGESIZE)) →
  b ∈ mjoin (v_med v).*2 → outside p PAGESIZE (s2s s) !! b = s2s s !! b.
Proof.
  intros Hrep Hdj (q & bs & Hin & Hb)%med_block_ext. pose proof (rp_med _ _ Hrep) as Hf.
  rewrite Forall_forall in Hf. destruct (med_block_within _ _ _ _ _ _ (Hf _ Hin) Hb) as [Hw _].
  apply (outside_lookup (p, PAGESIZE)). specialize (Hdj q bs Hin).
  unfold disj, within in *. cbn in *. lia.
Qed.

(** The page goes when its last block is free. *)
Lemma s1_free_page s v l1 p F l2 b rb r m f :
  rep s v → v_small v = l1 ++ (p, F) :: l2 → regs s !! m = Some (p, PAGESIZE) →
  kps s !! p = Some r → s1_free s = Some f → f ≠ p →
  small_pages (kps (pushed s b p rb r)) (s1s (pushed s b p rb r)) (regs s)
    (l1 ++ (p, b :: F) :: l2) (s1_head s) (s1_tail s) →
  let v' := mk_view (l1 ++ l2) (v_med v) (v_free v) (v_large v) in
  ∃ s', (km_list_remove p ;; km_free m) (pushed s b p rb r) = Some (tt, s') ∧ rep s' v' ∧
    first_free (l1 ++ l2) ≠ None ∧ med_kept v s s'.
Proof.
  intros Hrep Ev Hm Hr Ef Hne Hs v'. pose proof (rp_space _ _ Hrep) as Hsp.
  pose proof (exts_small_remove v l1 p F l2 Ev) as Hex.
  assert (apart ((p, PAGESIZE) :: exts v')) as Hap by (apply (apart_perm _ _ Hex), Hsp).
  pose proof (ss_dll _ _ _ _ _ _ Hs) as Hd. pose proof (ss_head _ _ _ _ _ _ Hs) as Hh.
  pose proof (ss_tail _ _ _ _ _ _ Hs) as Ht. rewrite fmap_app, fmap_cons in Hd, Hh, Ht. cbn in Hd, Hh, Ht.
  assert (p ∉ (l1 ++ l2).*1) as Hnin.
  { rewrite fmap_app. destruct Hd as [(_ & H1 & [H2 _]%NoDup_cons)%NoDup_app _]. set_solver. }
  assert (∀ q, q ∈ l1.*1 ++ p :: l2.*1 → is_Some (kps (pushed s b p rb r) !! q)) as Hsome.
  { intros q Hq. destruct (page_in (l1 ++ (p, b :: F) :: l2) q) as [G HG]; [by rewrite fmap_app, fmap_cons |].
    destruct (small_pages_elem _ _ _ _ _ _ _ _ Hs HG) as [(r0 & ? & _) _ _ _ _]. eauto. }
  assert (first_free (l1 ++ l2) = Some f) as Hff.
  { pose proof (rp_first _ _ Hrep) as E. rewrite Ef, Ev, first_free_app_eq in E.
    rewrite first_free_app_eq. destruct (first_free l1); [done |]. destruct F; cbn in E; congruence. }
  destruct s as [K B S2 T h1 t1 fr h2 t2 R D]. unfold pushed in *. cbn in Hm, Hr, Ef, Hd, Hh, Ht, Hsome, Hs, Hsp.
  set (K1 := <[p := _]> K) in *. set (B1 := <[b := _]> B) in *.
  eexists. split; [| split; [| split]].
  - erewrite bind_run; [| eapply list_remove_run; [exact Hd | apply lookup_insert_eq | exact Hsome | exact Hh | exact Ht]].
    kcbn. rewrite free_region_run with (x := (p, PAGESIZE)) by exact Hm. reflexivity.
  - assert (∀ q, ¬ within q (p, PAGESIZE) → q ∉ (v_small v).*1 →
      outside p PAGESIZE (on_link (head_or l2.*1 None) (set_kp_prev (last_or None l1.*1))
        (on_link (last_or None l1.*1) (set_kp_next (head_or l2.*1 None)) K1)) !! q = K !! q) as EK.
    { intros q Hw Hq. rewrite (proj2 (outside_lookup (p, PAGESIZE) _ q) Hw), !on_link_lookup.
      rewrite Ev, fmap_app, fmap_cons in Hq. cbn in Hq. unfold K1.
      rewrite !decide_False, lookup_insert_ne; [done | set_solver | |].
      - intros [? | ?]%last_or_in; set_solver.
      - intros [? | ?]%head_or_in; set_solver. }
    assert (∀ q bs, (q, bs) ∈ v_med v → disj (p, PAGESIZE) (q, PAGESIZE)) as Hdm.
    { intros q bs Hq. eapply apart_elem; [exact Hap |]. by eapply (med_ext v'). }
    assert (∀ q, q ∈ (l1 ++ l2).*1 → disj (p, PAGESIZE) (q, PAGESIZE)) as Hds.
    { intros q (G & HG)%page_in. eapply apart_elem; [exact Hap |]. by eapply (small_ext v'). }
    assert (p ∈ (v_small v).*1) as Hpin by (rewrite Ev, fmap_app; set_solver).
    destruct (page_in _ _ Hpin) as [F' HF'].
    split; kcbn; cbn [v_small v_med v_free v_large].
    + rewrite <- (fmap_app fst l1 l2). eapply small_pages_remove; [exact Hs | | | | | exact Hds].
      * intros q Hq. apply (outside_lookup (p, PAGESIZE)). specialize (Hds q Hq).
        unfold disj, within, PAGESIZE in *. cbn in *. lia.
      * intros c Hc. rewrite (proj2 (outside_lookup (p, PAGESIZE) _ c) Hc). done.
      * intros c Hc. by apply (outside_lookup (p, PAGESIZE)).
      * intros q m' Hq Hm'. rewrite lookup_delete_ne; [done |]. congruence.
    + transitivity (Some f); [exact Ef | symmetry; exact Hff].
    + eapply (freed_med _ v p m _ _ Hrep Hm); [| exact EK]. intros q bs Hq. eauto.
    + eapply free_list_frame, Hrep. intros c. by apply (freed_blocks _ v p c Hrep).
    + eapply (freed_large _ v p m _ Hrep Hm); [by eapply small_ext | | exact EK].
      eapply page_not_large; [exact Hsp | by left].
    + by eapply (space_ok_remove v _ _ _ Hsp Hex).
  - by rewrite Hff.
  - intros q bs c Hq Hc. eapply (freed_blocks _ v p c Hrep).
    + intros q' bs' Hq'. eapply apart_elem; [exact Hap |]. by eapply (med_ext v').
    + apply list_elem_of_join. exists bs. split; [done |]. by apply (list_elem_of_fmap_2 snd _ (q, bs)).
Qed.

Lemma in_sm_split (sm : list (Z * list Z)) p F :
  (p, F) ∈ sm → ∃ l1 l2, sm = l1 ++ (p, F) :: l2.
Proof. intros (l1 & l2 & ?)%list_elem_of_split. eauto. Qed.

(** A full page is all on its list. *)
Lemma page_all_free K B R p F b :
  small_page K B R p F → b ∈ small_blocks p → b ∉ F →
  Z.of_nat S1_BLOCKS - Z.of_nat (S (length F)) = 0 → small_blocks p ⊆ b :: F.
Proof.
  intros Hp Hb HF E. apply nodup_full.
  - apply NoDup_cons. split; [done | apply Hp].
  - intros x [-> | Hx]%elem_of_cons; [done | by apply (sp_sub _ _ _ _ _ Hp)].
  - rewrite small_blocks_length. cbn [length]. lia.
Qed.

Lemma others_kept_push l1 p F l2 b :
  NoDup (l1 ++ (p, F) :: l2).*1 → others_kept (l1 ++ (p, F) :: l2) (l1 ++ (p, b :: F) :: l2) b.
Proof.
  intros Hn q G c Hq Hc HG Hne. destruct (decide (q = p)) as [-> | Hqp].
  - rewrite (fst_unique l1 p F G l2 Hn Hq) in HG. exists (b :: F). set_solver.
  - exists G. set_solver.
Qed.

Lemma others_kept_remove l1 p F l2 b :
  NoDup (l1 ++ (p, F) :: l2).*1 → small_blocks p ⊆ b :: F →
  others_kept (l1 ++ (p, F) :: l2) (l1 ++ l2) b.
Proof.
  intros Hn Hall q G c Hq Hc HG Hne. destruct (decide (q = p)) as [-> | Hqp].
  - rewrite (fst_unique l1 p F G l2 Hn Hq) in HG. apply Hall in Hc. set_solver.
  - exists G. set_solver.
Qed.

Lemma s1_free_ok s v p F b :
  rep s v → first_free (v_small v) ≠ None → (p, F) ∈ v_small v → b ∈ small_blocks p → b ∉ F →
  ∃ s' v', km_s1_free b p s = Some (tt, s') ∧ rep s' v' ∧ first_free (v_small v') ≠ None ∧
    v_med v' = v_med v ∧ v_large v' = v_large v ∧ others_kept (v_small v) (v_small v') b ∧
    med_kept v s s'.
Proof.
  intros Hrep Hff Hin Hb HF. destruct (in_sm_split _ _ _ Hin) as (l1 & l2 & Ev).
  destruct (s1_push s v l1 p F l2 b Hrep Ev Hb HF) as (rb & r & Hrb & Hr & Hs & Hu & Hself).
  destruct (first_free (v_small v)) as [f |] eqn:Ef; [clear Hff | done].
  pose proof (rp_first _ _ Hrep) as Efr. rewrite Ef in Efr.
  pose proof (ss_dll _ _ _ _ _ _ (rp_small _ _ Hrep)) as [Hn _]. rewrite Ev in Hn.
  set (r' := set_kp_used (u16 (kp_used r - 1)) (set_kp_free (Some b) r)).
  assert (km_s1_free b p s = (match kp_self r with
    | Some self => if (kp_used r' =? 0) && bool_decide (Some f ≠ Some p)
                   then km_list_remove p ;; km_free self else s1_lower (Some f) p r'
    | None => s1_lower (Some f) p r' end) (pushed s b p rb r)) as Hrun.
  { destruct s as [K B S2 T h1 t1 fr h2 t2 R D]. cbn in Hr, Hrb, Efr. subst fr.
    unfold km_s1_free. do 5 kstep. reflexivity. }
  assert (∃ s', s1_lower (Some f) p r' (pushed s b p rb r) = Some (tt, s') ∧
    rep s' (mk_view (l1 ++ (p, b :: F) :: l2) (v_med v) (v_free v) (v_large v)) ∧
    s2s s' = s2s s) as (s1 & Hlow & Hrep1 & E2).
  { eexists. split; [| split].
    - eapply s1_lower_run; [destruct s; exact Hs | destruct s; apply lookup_insert_eq |
        destruct s; exact Efr | by rewrite <- Ev].
    - eapply (rep_small s v) in Hs; [| done | exact Hin | | by rewrite Ev, !fmap_app].
      + destruct s; exact Hs.
      + intros q Hq. destruct s. cbn. by rewrite lookup_insert_ne.
    - by destruct s. }
  assert (∃ s' v', s1_lower (Some f) p r' (pushed s b p rb r) = Some (tt, s') ∧ rep s' v' ∧
    first_free (v_small v') ≠ None ∧ v_med v' = v_med v ∧ v_large v' = v_large v ∧
    others_kept (v_small v) (v_small v') b ∧ med_kept v s s') as Hlower.
  { exists s1, (mk_view (l1 ++ (p, b :: F) :: l2) (v_med v) (v_free v) (v_large v)).
    cbn [v_small v_med v_large]. split_and!; auto.
    - rewrite first_free_app_eq. by destruct (first_free l1).
    - rewrite Ev. by apply others_kept_push.
    - intros q bs c _ _. by rewrite E2. }
  rewrite Hrun. destruct (kp_self r) as [m |] eqn:Em; [| exact Hlower].
  destruct (Z.eqb_spec (kp_used r') 0) as [E0 |]; [| exact Hlower].
  case_bool_decide as Hne; [| exact Hlower]. cbn [andb].
  unfold self_ok in Hself. rewrite Em in Hself.
  destruct (s1_free_page s v l1 p F l2 b rb r m f Hrep Ev Hself Hr Efr) as (s' & Hrm & Hrep' & Hff' & Hk);
    [congruence | exact Hs |].
  exists s', (mk_view (l1 ++ l2) (v_med v) (v_free v) (v_large v)). split_and!; auto.
  cbn [v_small]. rewrite Ev. apply others_kept_remove; [done |].
  eapply page_all_free; [eapply small_pages_elem; [apply Hrep | exact Hin] | done | done |].
  rewrite <- Hu. exact E0.
Qed.
