(* ===== verification/KMedium.v ===== *)
(** * Medium blocks of the heap (sys/kmemory.c)

    The operations on the blocks of medium size keep the representation of KHeap.v: the
    free list, splitting a block, merging it with its neighbours, a new page. *)

From stdpp Require Import sorting.
From S2P Require Import Prelude CInt Memory Linked KMem KHeap.

(** ** The state outside of the medium blocks *)

(** The state with other medium blocks and another free list *)
Definition with_s2 (s : kms) (S2 : gmap Z km_s2) (hd tl : option Z) : kms :=
  mk_kms (kps s) (s1s s) S2 (table s) (s1_head s) (s1_tail s) (s1_free s) hd tl (regs s) (descrs s).
Definition with_med (v : view) (md : list (Z * list Z)) (fl : list Z) : view :=
  mk_view (v_small v) md fl (v_large v).

Lemma rep_med s v S2 md fl hd tl :
  rep s v → Forall (λ e, med_page (kps s) S2 (regs s) e.1 e.2) md → free_list S2 md fl hd tl →
  md.*1 = (v_med v).*1 → rep (with_s2 s S2 hd tl) (with_med v md fl).
Proof.
  intros [H1 H2 _ _ H5 [A1 A2 A3 A4]] Hm Hf E.
  assert (exts (with_med v md fl) = exts v) as Ee by (unfold exts, with_med; cbn; by rewrite E).
  split; auto. split; rewrite ?Ee; auto.
Qed.

Lemma mjoin_elem (m1 : list (Z * list Z)) p bs m2 b :
  b ∈ mjoin (m1 ++ (p, bs) :: m2).*2 ↔ b ∈ mjoin m1.*2 ∨ b ∈ bs ∨ b ∈ mjoin m2.*2.
Proof. rewrite fmap_app, fmap_cons, join_app, !elem_of_app. cbn. rewrite elem_of_app. tauto. Qed.

Lemma med_pages_disj s v p bs q cs :
  rep s v → (p, bs) ∈ v_med v → (q, cs) ∈ v_med v → p ≠ q → disj (p, PAGESIZE) (q, PAGESIZE).
Proof.
  intros Hrep Hp Hq Hne. eapply apart_two; [apply Hrep | by eapply med_ext | by eapply med_ext |].
  congruence.
Qed.

Lemma med_nodup s v : rep s v → NoDup (v_med v).*1.
Proof.
  intros Hrep. destruct (rp_space _ _ Hrep) as [Ha _ _ _]. unfold exts in Ha.
  apply apart_app_r, apart_app_l in Ha. induction (v_med v).*1 as [|p l IH]; [constructor |].
  destruct Ha as [Hf Ha]. constructor; [| auto].
  intros Hp%(list_elem_of_fmap_2 page_ext). rewrite Forall_forall in Hf.
  specialize (Hf _ Hp). unfold disj, page_ext, PAGESIZE in Hf. cbn in Hf. lia.
Qed.

(** The blocks of the page [p] change, within the page. *)
Lemma rep_med_update s v m1 p bs bs' m2 S2 fl hd tl :
  rep s v → v_med v = m1 ++ (p, bs) :: m2 →
  (∀ b, ¬ within b (p, PAGESIZE) → tile_of <$> S2 !! b = tile_of <$> s2s s !! b) →
  med_page (kps s) S2 (regs s) p bs' → free_list S2 (m1 ++ (p, bs') :: m2) fl hd tl →
  rep (with_s2 s S2 hd tl) (with_med v (m1 ++ (p, bs') :: m2) fl).
Proof.
  intros Hrep Ev ES Hpg Hf. apply rep_med; auto; [| by rewrite Ev, !fmap_app].
  pose proof (med_nodup _ _ Hrep) as Hn. rewrite Ev in Hn.
  pose proof (rp_med _ _ Hrep) as Hm. rewrite Forall_forall in *. intros [q cs] Hq. cbn.
  destruct (decide (q = p)) as [-> | Hne].
  - assert ((m1 ++ (p, bs') :: m2).*1 = (m1 ++ (p, bs) :: m2).*1) as E by (by rewrite !fmap_app).
    rewrite (fst_unique m1 p bs' cs m2); [done | by rewrite E | done].
  - assert ((q, cs) ∈ v_med v) as Hin by (rewrite Ev; set_solver).
    eapply med_page_frame, (Hm _ Hin); auto. intros b Hb. apply ES.
    destruct (med_block_within _ _ _ _ _ _ (Hm _ Hin) Hb) as [Hw _]. cbn in Hw.
    assert (disj (p, PAGESIZE) (q, PAGESIZE)) as Hd.
    { eapply (med_pages_disj s v p bs); [exact Hrep | rewrite Ev; set_solver | exact Hin | done]. }
    unfold disj, within in *. cbn in *. lia.
Qed.

(** ** Runs *)

Lemma mods2_run b f s :
  is_Some (s2s s !! b) → mods2 b f s = Some (tt, set_s2s (alter f b (s2s s)) s).
Proof.
  intros [r Hr]. unfold mods2. rewrite (bind_run _ _ _ _ _ (gets2_run _ _ _ Hr)).
  unfold puts2, mmod. do 3 f_equal. apply map_eq. intros q.
  destruct (decide (q = b)) as [-> |].
  - by rewrite lookup_insert_eq, lookup_alter_eq, Hr.
  - by rewrite lookup_insert_ne, lookup_alter_ne.
Qed.

Definition rem_map (S2 : gmap Z km_s2) (l1 : list Z) (x : Z) (l2 : list Z) : gmap Z km_s2 :=
  on_link (last_or None l1) (set_m_fnext (head_or l2 None))
    (on_link (head_or l2 None) (set_m_fprev (last_or None l1)) (alter (set_m_free false) x S2)).

Lemma flist_rem_run s l1 x l2 :
  dll (fnext (s2s s)) (fprev (s2s s)) (l1 ++ x :: l2) →
  (∀ q, q ∈ l1 ++ x :: l2 → is_Some (s2s s !! q)) →
  s2_head s = head_or (l1 ++ x :: l2) None → s2_tail s = last_or None (l1 ++ x :: l2) →
  km_s2_flist_rem x s = Some (tt, with_s2 s (rem_map (s2s s) l1 x l2)
    (head_or (l1 ++ l2) None) (last_or None (l1 ++ l2))).
Proof.
  intros Hd Hs Hh Ht. destruct (dll_links _ _ _ _ _ Hd) as [Ep En].
  destruct (Hs x) as [r Hr]; [set_solver |].
  rewrite <- (head_remove _ _ _ _ Hh), <- (last_remove _ _ _ _ Ht).
  destruct s as [K B S2 T h1 t1 fr h2 t2 R D]. cbn in *.
  unfold fprev in Ep. unfold fnext in En. rewrite Hr in Ep, En. cbn in Ep, En.
  unfold km_s2_flist_rem, rem_map, with_s2. erewrite bind_run; [| apply mods2_run; kcbn; eauto]. kcbn.
  erewrite bind_run; [| apply gets2_run; kcbn; by rewrite lookup_alter_eq, Hr].
  cbn [set_m_free m_fnext m_fprev]. rewrite Ep, En.
  assert (∀ q, last_or None l1 = Some q → is_Some (S2 !! q)) as H1.
  { intros q [? | ?]%last_or_in; [done |]. apply Hs. set_solver. }
  assert (∀ q, head_or l2 None = Some q → is_Some (S2 !! q)) as H2.
  { intros q [? | ?]%head_or_in; [done |]. apply Hs. set_solver. }
  destruct (head_or l2 None) as [n |] eqn:Eq; cbn [on_link].
  - erewrite bind_run; [| apply mods2_run; kcbn; apply lookup_alter_is_Some; auto]. kcbn.
    destruct (last_or None l1) as [q |]; cbn [on_link]; [| done].
    rewrite mods2_run; [done |]. kcbn. rewrite !lookup_alter_is_Some. auto.
  - kstep. destruct (last_or None l1) as [q |]; cbn [on_link]; [| done].
    rewrite mods2_run; [done |]. kcbn. rewrite lookup_alter_is_Some. auto.
Qed.

Definition ins_map (S2 : gmap Z km_s2) (tl : option Z) (x : Z) : gmap Z km_s2 :=
  alter (λ r, set_m_fnext None (set_m_fprev tl (set_m_free true r))) x
    (on_link tl (set_m_fnext (Some x)) S2).

Lemma flist_ins_run s x :
  is_Some (s2s s !! x) → (∀ q, s2_tail s = Some q → is_Some (s2s s !! q)) →
  km_s2_flist_ins x s = Some (tt, with_s2 s (ins_map (s2s s) (s2_tail s) x)
    (if s2_tail s then s2_head s else Some x) (Some x)).
Proof.
  intros Hx Ht. destruct s as [K B S2 T h1 t1 fr h2 t2 R D]. cbn in *.
  unfold km_s2_flist_ins, ins_map, with_s2. kstep. destruct t2 as [t |]; cbn [on_link].
  - erewrite bind_run; [| apply mods2_run; kcbn; auto]. kcbn.
    erewrite bind_run; [| apply mods2_run; kcbn; rewrite lookup_alter_is_Some; auto]. done.
  - kstep. erewrite bind_run; [| apply mods2_run; kcbn; auto]. done.
Qed.

(** ** Taking a block from the free list *)

Lemma tile_on_link o (f : km_s2 → km_s2) S2 y :
  (∀ r, tile_of (f r) = tile_of r) → tile_of <$> on_link o f S2 !! y = tile_of <$> S2 !! y.
Proof.
  intros E. rewrite on_link_lookup. case_decide; [| done]. destruct (S2 !! y); cbn; [| done].
  by rewrite E.
Qed.

Lemma rem_map_tile S2 l1 x l2 y :
  tile_of <$> rem_map S2 l1 x l2 !! y =
    tile_of <$> (if decide (y = x) then set_m_free false <$> S2 !! y else S2 !! y).
Proof.
  unfold rem_map. rewrite !tile_on_link by done. case_decide as E.
  - by rewrite E, lookup_alter_eq.
  - by rewrite lookup_alter_ne.
Qed.

Lemma rem_map_free S2 l1 x l2 y :
  bfree (rem_map S2 l1 x l2) y = (if decide (y = x) then false else bfree S2 y).
Proof.
  generalize (rem_map_tile S2 l1 x l2 y). unfold bfree, tile_of.
  destruct (decide (y = x)), (rem_map _ _ _ _ !! y), (S2 !! y); cbn; congruence.
Qed.

(** The state of the links in the free list *)
Lemma rem_map_dll S2 l1 x l2 :
  dll (fnext S2) (fprev S2) (l1 ++ x :: l2) →
  (∀ q, q ∈ l1 ++ x :: l2 → is_Some (S2 !! q)) →
  dll (fnext (rem_map S2 l1 x l2)) (fprev (rem_map S2 l1 x l2)) (l1 ++ l2).
Proof.
  intros Hd Hs. assert (∀ y, y ∈ l1 ++ l2 → y ≠ x ∧ is_Some (S2 !! y)) as Hy.
  { intros y Hin. destruct Hd as [(_ & H1 & [H2 _]%NoDup_cons)%NoDup_app _]. set_solver. }
  eapply dll_remove; [exact Hd | |]; intros y Hin; destruct (Hy y Hin) as [Hne [r Hr]];
    unfold fnext, fprev, rem_map; rewrite !on_link_lookup, lookup_alter_ne, Hr by done;
    repeat case_decide; done.
Qed.

(** Fewer blocks are free. *)
Lemma coalesced_weaken S2 S2' f f' bs :
  (f' = true → f = true) → (∀ b, b ∈ bs → bfree S2' b = true → bfree S2 b = true) →
  coalesced S2 f bs → coalesced S2' f' bs.
Proof.
  revert f f'. induction bs as [|b bs IH]; intros f f' Hf E; simpl; [done |].
  intros [H1 H2]. split; [specialize (E b); set_solver |].
  eapply (IH (bfree S2 b)); [| set_solver | done]. apply E. set_solver.
Qed.

Definition shape_of (r : km_s2) : Z * option Z * option Z * Z :=
  (m_size r, m_next r, m_prev r, m_page r).

Definition span_of (r : km_s2) : Z * Z := (m_size r, m_page r).

Lemma tiles_span S2 S2' p a bs e :
  (∀ b, b ∈ bs → span_of <$> S2' !! b = span_of <$> S2 !! b) →
  tiles S2 p a bs e → tiles S2' p a bs e.
Proof.
  revert a. induction bs as [|b bs IH]; intros a E; simpl; [done |].
  intros (-> & r & Hr & ? & ? & ? & Ht). assert (a ∈ a :: bs) as Ha by set_solver.
  specialize (E a Ha) as Ea. rewrite Hr in Ea.
  destruct (S2' !! a) as [r' |] eqn:Er; cbn in Ea; [| done]. injection Ea as E1 E2.
  split; [done |]. exists r'. rewrite E1, E2. repeat split; auto. apply IH; [set_solver | done].
Qed.

Lemma span_shape (o o' : option km_s2) : shape_of <$> o' = shape_of <$> o → span_of <$> o' = span_of <$> o.
Proof. destruct o, o'; cbn; [| done..]. unfold span_of, shape_of. congruence. Qed.

Lemma med_page_shape K S2 R p bs S2' :
  (∀ b, b ∈ bs → shape_of <$> S2' !! b = shape_of <$> S2 !! b) →
  coalesced S2' false bs → med_page K S2 R p bs → med_page K S2' R p bs.
Proof.
  intros E Hc [H1 Hd Ht _]. split; [done | | | done].
  - eapply dll_ext, Hd. intros b Hb. specialize (E b Hb). unfold mnext, mprev.
    destruct (S2' !! b), (S2 !! b); cbn in *; [| done..]. by injection E as _ -> -> _.
  - eapply tiles_span, Ht. intros b Hb. by apply span_shape, E.
Qed.

Lemma shape_tile (o o' : option km_s2) : tile_of <$> o' = tile_of <$> o → shape_of <$> o' = shape_of <$> o.
Proof. destruct o, o'; cbn; [| done..]. unfold tile_of, shape_of. congruence. Qed.

Lemma rem_map_shape S2 l1 x l2 y :
  shape_of <$> rem_map S2 l1 x l2 !! y = shape_of <$> S2 !! y.
Proof.
  rewrite (shape_tile _ _ (rem_map_tile S2 l1 x l2 y)). case_decide; [| done].
  by destruct (S2 !! y).
Qed.

Lemma free_list_some S2 md fl hd tl q K R :
  Forall (λ e, med_page K S2 R e.1 e.2) md → free_list S2 md fl hd tl → q ∈ fl → is_Some (S2 !! q).
Proof.
  intros Hm Hf Hq. apply (fl_free _ _ _ _ _ Hf) in Hq as [_ Hb]. unfold bfree in Hb.
  destruct (S2 !! q); [eauto | done].
Qed.

(** [s'] has the same small and large blocks, regions and page heads. *)
Definition only_s2 (s s' : kms) : Prop := ∃ S2 hd tl, s' = with_s2 s S2 hd tl.

Lemma flist_rem_ok s v l1 x l2 :
  rep s v → v_free v = l1 ++ x :: l2 →
  ∃ s', km_s2_flist_rem x s = Some (tt, s') ∧ only_s2 s s' ∧
    rep s' (with_med v (v_med v) (l1 ++ l2)) ∧
    (∀ y, bfree (s2s s') y = if decide (y = x) then false else bfree (s2s s) y) ∧
    (∀ y, shape_of <$> s2s s' !! y = shape_of <$> s2s s !! y).
Proof.
  intros Hrep Ev. pose proof Hrep as [_ _ Hm Hl _ _]. rewrite Ev in Hl.
  pose proof Hl as [Hd Hh Ht Hf].
  assert (∀ q, q ∈ l1 ++ x :: l2 → is_Some (s2s s !! q)) as Hs.
  { intros q Hq. by eapply free_list_some. }
  eexists. split; [by apply flist_rem_run |]. split; [by eexists _, _, _ |]. split; [| split].
  - apply rep_med; [done | | | done].
    + eapply Forall_impl; [exact Hm |]. intros [p bs] Hp. cbn in *.
      eapply med_page_shape, Hp; [intros b _; apply rem_map_shape |].
      eapply coalesced_weaken, (mp_coal _ _ _ _ _ Hp); [done |].
      intros b _. rewrite rem_map_free. by case_decide.
    + split; [by apply rem_map_dll | done | done |]. intros b. rewrite rem_map_free.
      specialize (Hf b). destruct Hd as [(_ & H1 & [H2 _]%NoDup_cons)%NoDup_app _].
      case_decide as E; [set_solver |]. rewrite <- Hf. set_solver.
  - intros y. apply rem_map_free.
  - intros y. apply rem_map_shape.
Qed.

(** ** Putting a block on the free list *)

Lemma ins_map_tile S2 tl x y :
  tile_of <$> ins_map S2 tl x !! y =
    tile_of <$> (if decide (y = x) then set_m_free true <$> S2 !! y else S2 !! y).
Proof.
  unfold ins_map. case_decide as E.
  - subst. rewrite lookup_alter_eq, on_link_lookup. case_decide; by destruct (S2 !! x).
  - rewrite lookup_alter_ne by done. by apply tile_on_link.
Qed.

Lemma ins_map_free S2 tl x y :
  is_Some (S2 !! x) → bfree (ins_map S2 tl x) y = (if decide (y = x) then true else bfree S2 y).
Proof.
  intros [r Hr]. generalize (ins_map_tile S2 tl x y). unfold bfree, tile_of.
  destruct (decide (y = x)) as [-> |]; [rewrite Hr |];
    destruct (ins_map _ _ _ !! _); cbn; try congruence; destruct (S2 !! y); cbn; congruence.
Qed.

Lemma ins_map_shape S2 tl x y : shape_of <$> ins_map S2 tl x !! y = shape_of <$> S2 !! y.
Proof.
  rewrite (shape_tile _ _ (ins_map_tile S2 tl x y)). case_decide; [| done]. by destruct (S2 !! y).
Qed.

Lemma ins_map_dll S2 fl x :
  dll (fnext S2) (fprev S2) fl → x ∉ fl → (∀ q, q ∈ fl → is_Some (S2 !! q)) → is_Some (S2 !! x) →
  dll (fnext (ins_map S2 (last_or None fl) x)) (fprev (ins_map S2 (last_or None fl) x)) (fl ++ [x]).
Proof.
  intros Hd Hx Hs [rx Hrx].
  assert (last_or None fl ≠ Some x) as Hl by (intros [? | ?]%last_or_in; done).
  eapply dll_snoc; [exact Hd | done | | | |].
  1, 2: intros y Hy; destruct (Hs y Hy) as [r Hr]; unfold fnext, fprev, ins_map;
    rewrite lookup_alter_ne, on_link_lookup, Hr by set_solver; by case_decide.
  all: unfold fnext, fprev, ins_map; rewrite lookup_alter_eq, on_link_lookup, Hrx;
    by rewrite decide_False.
Qed.

Definition bfree_or (S2 : gmap Z km_s2) (f : bool) (o : option Z) : bool :=
  match o with Some y => bfree S2 y | None => f end.

Lemma coalesced_app S2 f a b :
  coalesced S2 f (a ++ b) ↔ coalesced S2 f a ∧ coalesced S2 (bfree_or S2 f (last_or None a)) b.
Proof.
  revert f. induction a as [|x a IH]; intros f; simpl; [tauto |]. rewrite IH.
  assert (bfree_or S2 (bfree S2 x) (last_or None a) = bfree_or S2 f (last_or (Some x) a)) as ->.
  { destruct a using rev_ind; [done |]. by rewrite !last_or_snoc. }
  tauto.
Qed.

Lemma med_blocks_page K S2 R p bs q cs b :
  med_page K S2 R p bs → med_page K S2 R q cs → b ∈ bs → b ∈ cs → p = q.
Proof.
  intros Hp Hq H1 H2. destruct (med_block_within _ _ _ _ _ _ Hp H1) as (_ & r & E1 & _ & _ & _ & E2).
  destruct (med_block_within _ _ _ _ _ _ Hq H2) as (_ & r' & E1' & _ & _ & _ & E2'). congruence.
Qed.

(** The block [x] may become free: no neighbour is. *)
Definition alone (S2 : gmap Z km_s2) (a c : list Z) : Prop :=
  bfree_or S2 false (last_or None a) = false ∧ bfree_or S2 false (head_or c None) = false.

Lemma coalesced_alone S2 S2' a x c :
  NoDup (a ++ x :: c) → (∀ y, bfree S2' y = if decide (y = x) then true else bfree S2 y) →
  alone S2 a c → coalesced S2 false (a ++ x :: c) → coalesced S2' false (a ++ x :: c).
Proof.
  intros (_ & Ha & [Hc _]%NoDup_cons)%NoDup_app E [H1 H2]. rewrite !coalesced_app. intros [C1 C2].
  assert (∀ y, y ≠ x → bfree S2' y = bfree S2 y) as En by (intros y Hy; by rewrite E, decide_False).
  assert (x ∉ a) as Hxa by set_solver. split.
  { eapply coalesced_frame, C1. intros b Hb. apply En. set_solver. }
  simpl in C2 |- *. split.
  - assert (bfree_or S2' false (last_or None a) = bfree_or S2 false (last_or None a)) as ->.
    { destruct (last_or None a) as [y |] eqn:Ey; [| done]. cbn. apply En.
      intros ->. by apply last_or_in in Ey as [? |]. }
    rewrite H1. naive_solver.
  - destruct C2 as [_ C2]. destruct c as [|y c]; [done |]. simpl in H2, C2 |- *.
    rewrite (En y) by set_solver. split; [rewrite H2; naive_solver |].
    eapply coalesced_frame, C2. intros b Hb. apply En. set_solver.
Qed.

Lemma flist_ins_ok s v m1 p a x c m2 :
  rep s v → v_med v = m1 ++ (p, a ++ x :: c) :: m2 → bfree (s2s s) x = false →
  alone (s2s s) a c →
  ∃ s', km_s2_flist_ins x s = Some (tt, s') ∧ only_s2 s s' ∧
    rep s' (with_med v (v_med v) (v_free v ++ [x])) ∧
    (∀ y, bfree (s2s s') y = if decide (y = x) then true else bfree (s2s s) y) ∧
    (∀ y, shape_of <$> s2s s' !! y = shape_of <$> s2s s !! y).
Proof.
  intros Hrep Ev Hx Hal. pose proof Hrep as [_ _ Hm Hl _ _]. pose proof Hl as [Hd Hh Ht Hf].
  assert ((p, a ++ x :: c) ∈ v_med v) as Hin by (rewrite Ev; set_solver).
  assert (med_page (kps s) (s2s s) (regs s) p (a ++ x :: c)) as Hpg
    by (rewrite Forall_forall in Hm; apply (Hm _ Hin)).
  destruct (med_block_within _ _ _ _ _ x Hpg) as (Hwx & rx & Hrx & _); [set_solver |].
  assert (∀ q, q ∈ v_free v → is_Some (s2s s !! q)) as Hs by (intros q Hq; by eapply free_list_some).
  assert (x ∉ v_free v) as Hnf by (intros [_ ?]%Hf; congruence).
  assert (∀ y, bfree (ins_map (s2s s) (s2_tail s) x) y = if decide (y = x) then true else bfree (s2s s) y) as HF
    by (intros y; apply ins_map_free; eauto).
  eexists. split; [apply flist_ins_run; [eauto |] |].
  { intros q Hq. rewrite Ht in Hq. apply last_or_in in Hq as [? | ?]; [done | auto]. }
  split; [by eexists _, _, _ |]. split; [| split; [exact HF | intros y; apply ins_map_shape]].
  rewrite Ev. eapply rep_med_update; [done | exact Ev | | |].
  - intros b Hb. rewrite ins_map_tile, decide_False; [done |]. by intros ->.
  - eapply med_page_shape, Hpg; [intros b _; apply ins_map_shape |].
    eapply coalesced_alone, Hpg; [apply (mp_dll _ _ _ _ _ Hpg) | exact HF | exact Hal].
  - split.
    + rewrite Ht. apply ins_map_dll; eauto.
    + by apply list_head_eq.
    + by rewrite last_or_snoc.
    + intros b. rewrite HF, <- Ev, elem_of_app, list_elem_of_singleton, Hf. case_decide; [| tauto].
      subst. rewrite Ev, mjoin_elem. set_solver.
Qed.

(** ** Splitting a block *)

Lemma tiles_app S2 p s0 a b e :
  tiles S2 p s0 (a ++ b) e ↔ ∃ mid, tiles S2 p s0 a mid ∧ tiles S2 p mid b e.
Proof.
  revert s0. induction a as [|x a IH]; intros s0; simpl.
  { split; [by exists s0 | by intros (? & -> & ?)]. }
  split.
  - intros (-> & r & ? & ? & ? & ? & (mid & ? & ?)%IH). exists mid. split; [| done]. eauto 10.
  - intros (mid & (-> & r & ? & ? & ? & ? & ?) & ?). split; [done |]. exists r. split_and!; auto.
    apply IH. eauto.
Qed.

Definition split_block (S2 : gmap Z km_s2) (x sz new : Z) (r : km_s2) : km_s2 :=
  set_m_page (m_page r) (set_m_prev (Some x) (set_m_next (m_next r) (set_m_free false
    (set_m_size sz (set_m_magic S2_MAGIC (default raw_block (S2 !! new))))))).
Definition split_map (S2 : gmap Z km_s2) (x sz new : Z) (r : km_s2) : gmap Z km_s2 :=
  alter (set_m_next (Some new)) x (on_link (m_next r) (set_m_prev (Some new))
    (<[new := split_block S2 x sz new r]> (alter (λ r, set_m_size (u16 (m_size r - sz)) r) x S2))).

Lemma split_run s x sz r :
  s2s s !! x = Some r → 0 < m_size r - sz < 65536 →
  (∀ n, m_next r = Some n → is_Some (s2s s !! n)) →
  let new := x + (m_size r - sz) in
  km_s2_split x sz s = Some (new, with_s2 s (split_map (s2s s) x sz new r) (s2_head s) (s2_tail s)).
Proof.
  intros Hr Hsz Hn new. destruct s as [K B S2 T h1 t1 fr h2 t2 R D]. cbn in *.
  assert (x ≠ new) as Hne by (unfold new; lia).
  unfold km_s2_split, split_map, with_s2. erewrite bind_run; [| apply mods2_run; kcbn; eauto]. kcbn.
  erewrite bind_run; [| apply gets2_run; kcbn; by rewrite lookup_alter_eq, Hr].
  cbn [m_size set_m_size m_next m_page]. rewrite u16_id by lia. fold new. kstep.
  rewrite lookup_alter_ne by done. kstep. fold (split_block S2 x sz new r).
  destruct (m_next r) as [n |]; cbn [on_link].
  - erewrite bind_run.
    2: { apply mods2_run. kcbn. destruct (decide (n = new)) as [-> |]; [by rewrite lookup_insert_eq |].
         rewrite lookup_insert_ne by done. apply lookup_alter_is_Some. auto. }
    kcbn. erewrite bind_run; [reflexivity |]. apply mods2_run. kcbn.
    rewrite lookup_alter_is_Some, lookup_insert_ne, lookup_alter_is_Some by done. eauto.
  - kstep. erewrite bind_run; [reflexivity |]. apply mods2_run. kcbn.
    rewrite lookup_insert_ne, lookup_alter_is_Some by done. eauto.
Qed.

Section split.
Context (S2 : gmap Z km_s2) (x sz new : Z) (r : km_s2).
Context (Hr : S2 !! x = Some r) (Hnew : new = x + (m_size r - sz)) (Hsz : 0 < m_size r - sz < 65536).
Local Notation S2' := (split_map S2 x sz new r).

Lemma split_x :
  m_next r ≠ Some x →
  S2' !! x = Some (set_m_next (Some new) (set_m_size (m_size r - sz) r)).
Proof.
  intros Hn. unfold split_map. rewrite lookup_alter_eq, on_link_lookup, decide_False by done.
  rewrite lookup_insert_ne, lookup_alter_eq, Hr by lia. cbn. by rewrite u16_id by lia.
Qed.

Lemma split_new :
  m_next r ≠ Some new → S2' !! new = Some (split_block S2 x sz new r).
Proof.
  intros Hn. unfold split_map. rewrite lookup_alter_ne, on_link_lookup, decide_False by (done || lia).
  by rewrite lookup_insert_eq.
Qed.

Lemma split_other y :
  y ≠ x → y ≠ new →
  S2' !! y = (if decide (m_next r = Some y) then set_m_prev (Some new) <$> S2 !! y else S2 !! y).
Proof.
  intros H1 H2. unfold split_map. rewrite lookup_alter_ne, on_link_lookup by done.
  by rewrite lookup_insert_ne, lookup_alter_ne by done.
Qed.

Lemma split_free y :
  m_next r ≠ Some x → m_next r ≠ Some new →
  bfree S2' y = if decide (y = new) then false else bfree S2 y.
Proof.
  intros H1 H2. unfold bfree. case_decide as E1; [by rewrite E1, split_new |].
  destruct (decide (y = x)) as [E |]; [by rewrite E, split_x, Hr |].
  rewrite split_other by done. case_decide; [| done]. by destruct (S2 !! y).
Qed.

Lemma split_dll a c :
  dll (mnext S2) (mprev S2) (a ++ x :: c) → new ∉ a ++ x :: c →
  (∀ b, b ∈ a ++ x :: c → is_Some (S2 !! b)) →
  dll (mnext S2') (mprev S2') (a ++ x :: new :: c).
Proof.
  intros Hd Hn Hs. destruct (dll_links _ _ _ _ _ Hd) as [Ep En].
  unfold mprev in Ep. unfold mnext in En. rewrite Hr in Ep, En. cbn in Ep, En.
  destruct Hd as [Hnd Hseg].
  assert (m_next r ≠ Some x ∧ m_next r ≠ Some new) as [H1 H2].
  { rewrite En. apply NoDup_app in Hnd as (_ & _ & [Hx _]%NoDup_cons).
    split; intros [? | ?]%head_or_in; set_solver. }
  eapply dll_insert; [by split | done | | | |].
  - intros y Hy. unfold mnext. case_decide as E; [by rewrite E, split_x |].
    rewrite split_other by set_solver. case_decide; [| done]. by destruct (S2 !! y).
  - intros y Hy. rewrite <- En. unfold mprev. destruct (decide (y = x)) as [E |].
    { by rewrite E, split_x, decide_False, Hr. }
    rewrite split_other by set_solver. case_decide; [| done].
    destruct (Hs y Hy) as [ry Hry]. by rewrite Hry.
  - unfold mprev. by rewrite split_new.
  - unfold mnext. rewrite split_new by done. cbn. done.
Qed.

Lemma split_tiles p a c s0 e :
  tiles S2 p s0 (a ++ x :: c) e → NoDup (a ++ x :: c) → new ∉ a ++ x :: c →
  m_next r ≠ Some x → m_next r ≠ Some new →
  32 ≤ sz → (16 | sz) → 32 ≤ m_size r - sz → tiles S2' p s0 (a ++ x :: new :: c) e.
Proof.
  intros Ht (_ & Ha & [Hx _]%NoDup_cons)%NoDup_app Hn H1 H2 G1 G2 G3.
  apply tiles_app in Ht as (mid & Hta & Ex & r0 & Hr0 & B1 & B2 & B3 & Htc). subst mid.
  rewrite Hr in Hr0. injection Hr0 as <-.
  assert (∀ b, b ≠ x → b ≠ new → span_of <$> S2' !! b = span_of <$> S2 !! b) as Eo.
  { intros b E1 E2. rewrite split_other by done. case_decide; [| done]. by destruct (S2 !! b). }
  apply tiles_app. exists x. split.
  { eapply tiles_span, Hta. intros b Hb. apply Eo; set_solver. }
  simpl. split; [done |]. eexists. split; [by apply split_x |]. cbn. split; [done |]. split.
  { by apply Z.divide_sub_r. }
  split; [done |]. split; [lia |]. eexists. split; [by apply split_new |]. cbn.
  split_and!; auto. replace (x + (m_size r - sz) + sz) with (x + m_size r) by lia.
  eapply tiles_span, Htc. intros b Hb. apply Eo; set_solver.
Qed.
End split.

(** Two blocks of a page do not overlap. *)
Lemma tiles_disj S2 p s0 bs e b b' r r' :
  tiles S2 p s0 bs e → b ∈ bs → b' ∈ bs → b ≠ b' → S2 !! b = Some r → S2 !! b' = Some r' →
  disj (b, m_size r) (b', m_size r').
Proof.
  revert s0. induction bs as [|c bs IH]; intros s0; [set_solver |].
  intros (-> & rc & Hrc & _ & _ & _ & Ht) H1 H2 Hne Hr Hr'. unfold disj. cbn.
  apply elem_of_cons in H1 as [-> | H1], H2 as [-> | H2]; [done | | | by eapply IH].
  - destruct (tiles_within _ _ _ _ _ _ Ht H2) as (? & _ & ? & _). rewrite Hrc in Hr. injection Hr as <-. lia.
  - destruct (tiles_within _ _ _ _ _ _ Ht H1) as (? & _ & ? & _). rewrite Hrc in Hr'. injection Hr' as <-. lia.
Qed.

(** An address inside of a block, but not its start, is not a block. *)
Lemma inside_not_block s v p bs x r y :
  rep s v → (p, bs) ∈ v_med v → x ∈ bs → s2s s !! x = Some r → x < y < x + m_size r →
  y ∉ mjoin (v_med v).*2 ∧ within y (p, PAGESIZE).
Proof.
  intros Hrep Hin Hx Hr Hy. pose proof (rp_med _ _ Hrep) as Hm. rewrite Forall_forall in Hm.
  pose proof (Hm _ Hin) as Hpg. cbn in Hpg.
  destruct (med_block_within _ _ _ _ _ _ Hpg Hx) as (_ & r0 & Hr0 & B1 & _ & B2 & _).
  rewrite Hr in Hr0. injection Hr0 as <-. change P__HEAD with 32 in B1.
  assert (within y (p, PAGESIZE)) as Hw by (unfold within; cbn; lia). split; [| done].
  intros (q & cs & Hq & Hc)%med_block_ext. pose proof (Hm _ Hq) as Hpq. cbn in Hpq.
  destruct (med_block_within _ _ _ _ _ _ Hpq Hc) as (Hwq & rq & Hrq & _ & B3 & _).
  destruct (decide (p = q)) as [<- | Hne].
  - assert (cs = bs) as ->.
    { destruct (in_sm_split _ _ _ Hin) as (l1 & l2 & E). pose proof (med_nodup _ _ Hrep) as Hn.
      rewrite E in Hn, Hq. by eapply fst_unique. }
    assert (disj (x, m_size r) (y, m_size rq)) as Hd.
    { eapply tiles_disj; [apply Hpg | done.. | lia | done | done]. }
    unfold disj in Hd. cbn in Hd. lia.
  - pose proof (med_pages_disj _ _ _ _ _ _ Hrep Hin Hq Hne) as Hd.
    unfold disj, within in *. cbn in *. lia.
Qed.

Lemma coalesced_split S2 S2' a x new c :
  (∀ y, bfree S2' y = if decide (y = new) then false else bfree S2 y) → new ∉ a ++ x :: c →
  coalesced S2 false (a ++ x :: c) → coalesced S2' false (a ++ x :: new :: c).
Proof.
  intros HF Hn. rewrite !coalesced_app. intros [H1 H2].
  assert (∀ y, y ≠ new → bfree S2' y = bfree S2 y) as E by (intros y Hy; by rewrite HF, decide_False).
  split; [eapply coalesced_frame, H1; intros b Hb; apply E; set_solver |].
  assert (bfree_or S2' false (last_or None a) = bfree_or S2 false (last_or None a)) as ->.
  { destruct (last_or None a) as [y |] eqn:Ey; [| done]. cbn. apply E. intros ->.
    apply last_or_in in Ey as [? |]; [done | set_solver]. }
  simpl in *. rewrite (E x) by set_solver. split; [apply H2 |].
  rewrite HF, decide_True by done. split; [naive_solver |].
  eapply coalesced_weaken, (proj2 H2); [done |]. intros b Hb. by rewrite E by set_solver.
Qed.

Lemma free_list_split S2 S2' m1 p a x new c m2 fl hd tl :
  (∀ y, bfree S2' y = if decide (y = new) then false else bfree S2 y) →
  new ∉ mjoin (m1 ++ (p, a ++ x :: c) :: m2).*2 →
  (∀ y, y ≠ new → fnext S2' y = fnext S2 y ∧ fprev S2' y = fprev S2 y) →
  free_list S2 (m1 ++ (p, a ++ x :: c) :: m2) fl hd tl →
  free_list S2' (m1 ++ (p, a ++ x :: new :: c) :: m2) fl hd tl.
Proof.
  intros HF Hn EL [Hd Hh Ht Hf]. split; [| done | done |].
  - eapply dll_ext, Hd. intros y [Hy _]%Hf. apply EL. by intros ->.
  - intros b. rewrite Hf, HF, !mjoin_elem in *. case_decide; [subst |]; set_solver.
Qed.

Lemma s2_split_ok s v m1 p a x c m2 r sz :
  rep s v → v_med v = m1 ++ (p, a ++ x :: c) :: m2 → s2s s !! x = Some r →
  32 ≤ sz → (16 | sz) → 32 ≤ m_size r - sz →
  let new := x + (m_size r - sz) in
  ∃ s', km_s2_split x sz s = Some (new, s') ∧ only_s2 s s' ∧
    rep s' (with_med v (m1 ++ (p, a ++ x :: new :: c) :: m2) (v_free v)) ∧
    use_of <$> s2s s' !! new = Some (sz, false) ∧ new ∉ mjoin (v_med v).*2 ∧
    (∀ y, y ≠ x → y ≠ new → use_of <$> s2s s' !! y = use_of <$> s2s s !! y).
Proof.
  intros Hrep Ev Hr G1 G2 G3 new. pose proof (rp_med _ _ Hrep) as Hm. rewrite Forall_forall in Hm.
  assert ((p, a ++ x :: c) ∈ v_med v) as Hin by (rewrite Ev; set_solver).
  pose proof (Hm _ Hin) as Hpg. cbn in Hpg. assert (x ∈ a ++ x :: c) as Hx by set_solver.
  destruct (med_block_within _ _ _ _ _ _ Hpg Hx) as (_ & r0 & Hr0 & B1 & B4 & B2 & B3).
  rewrite Hr in Hr0. injection Hr0 as <-. change P__HEAD with 32 in B1.
  destruct (inside_not_block s v p _ x r new Hrep Hin Hx Hr) as [Hnb Hw]; [lia |].
  assert (0 < m_size r - sz < 65536) as Hsz.
  { pose proof (so_pos _ _ (rp_space _ _ Hrep)) as Hp. rewrite Forall_forall in Hp.
    specialize (Hp _ (med_ext _ _ _ Hin)). unfold PAGESIZE in *. cbn in Hp. lia. }
  pose proof (mp_dll _ _ _ _ _ Hpg) as Hd. destruct (dll_links _ _ _ _ _ Hd) as [_ En].
  unfold mnext in En. rewrite Hr in En. cbn in En.
  assert (∀ b, b ∈ a ++ x :: c → is_Some (s2s s !! b)) as Hs.
  { intros b Hb. destruct (med_block_within _ _ _ _ _ _ Hpg Hb) as (_ & ? & ? & _). eauto. }
  assert (new ∉ a ++ x :: c) as Hnp by (rewrite Ev, mjoin_elem in Hnb; tauto).
  assert (m_next r ≠ Some x ∧ m_next r ≠ Some new) as [Hn1 Hn2].
  { rewrite En. destruct Hd as [(_ & _ & [Hxc _]%NoDup_cons)%NoDup_app _].
    split; intros [? | ?]%head_or_in; set_solver. }
  assert (∀ n, m_next r = Some n → is_Some (s2s s !! n)) as Hns.
  { intros n Hn. rewrite En in Hn. apply head_or_in in Hn as [? | ?]; [done |]. apply Hs. set_solver. }
  pose proof (λ y, split_free (s2s s) x sz new r Hr eq_refl Hsz y Hn1 Hn2) as HF.
  eexists. split; [by apply split_run |]. split; [by eexists _, _, _ |]. split; [| split; [| split; [done |]]].
  - eapply rep_med_update; [done | exact Ev | | |].
    + intros b Hb. assert (∀ y, y ∈ a ++ x :: c → y ≠ b) as Hne.
      { intros y Hy ->. apply Hb. by eapply med_block_within. }
      assert (b ≠ x ∧ b ≠ new) as [? ?] by (split; [apply not_eq_sym, Hne, Hx | by intros ->]).
      rewrite split_other by done.
      rewrite decide_False; [done |]. rewrite En. intros [? | ?]%head_or_in; [done |].
      by eapply (Hne b); [set_solver |].
    + split; [apply Hpg | | |].
      * by apply split_dll.
      * apply split_tiles; auto; [apply Hpg | apply Hd].
      * eapply coalesced_split, Hpg; [exact HF | done].
    + eapply free_list_split; [exact HF | by rewrite <- Ev | | rewrite <- Ev; apply Hrep].
      intros y Hy. unfold fnext, fprev. destruct (decide (y = x)) as [-> |].
      * by rewrite split_x, Hr.
      * rewrite split_other by done. case_decide; [| done]. by destruct (s2s s !! y).
  - cbn. by rewrite split_new.
  - intros y Hy1 Hy2. cbn. rewrite split_other by done. case_decide; [| done]. by destruct (s2s s !! y).
Qed.

(** ** Merging two blocks *)

Definition concat_map (S2 : gmap Z km_s2) (x y : Z) (ry : km_s2) : gmap Z km_s2 :=
  delete y (on_link (m_next ry) (set_m_prev (Some x))
    (alter (λ r, set_m_next (m_next ry) (set_m_size (u16 (m_size r + m_size ry)) r)) x S2)).

Lemma concat_run s x y ry :
  is_Some (s2s s !! x) → s2s s !! y = Some ry → (∀ n, m_next ry = Some n → is_Some (s2s s !! n)) →
  km_s2_concat x y s = Some (tt, with_s2 s (concat_map (s2s s) x y ry) (s2_head s) (s2_tail s)).
Proof.
  intros Hx Hy Hn. destruct s as [K B S2 T h1 t1 fr h2 t2 R D]. cbn in *.
  unfold km_s2_concat, concat_map, with_s2. erewrite bind_run; [| apply gets2_run; exact Hy].
  erewrite bind_run; [| apply mods2_run; kcbn; eauto]. kcbn.
  destruct (m_next ry) as [n |]; cbn [on_link]; [| kstep; done].
  erewrite bind_run; [| apply mods2_run; kcbn; rewrite lookup_alter_is_Some; auto]. done.
Qed.

Section concat.
Context (S2 : gmap Z km_s2) (x y : Z) (r ry : km_s2).
Context (Hr : S2 !! x = Some r) (Hry : S2 !! y = Some ry) (Hxy : x ≠ y)
  (Hsz : 0 ≤ m_size r + m_size ry < 65536) (Hnx : m_next ry ≠ Some x).
Local Notation S2' := (concat_map S2 x y ry).

Lemma concat_x : S2' !! x = Some (set_m_next (m_next ry) (set_m_size (m_size r + m_size ry) r)).
Proof.
  unfold concat_map. rewrite lookup_delete_ne, on_link_lookup, decide_False, lookup_alter_eq, Hr by done.
  cbn. by rewrite u16_id by lia.
Qed.

Lemma concat_other z :
  z ≠ x → z ≠ y →
  S2' !! z = (if decide (m_next ry = Some z) then set_m_prev (Some x) <$> S2 !! z else S2 !! z).
Proof.
  intros H1 H2. unfold concat_map. by rewrite lookup_delete_ne, on_link_lookup, lookup_alter_ne by done.
Qed.

Lemma concat_use z : z ≠ x → z ≠ y → use_of <$> S2' !! z = use_of <$> S2 !! z.
Proof. intros H1 H2. rewrite concat_other by done. case_decide; [| done]. by destruct (S2 !! z). Qed.

Lemma concat_free z : m_free ry = false → bfree S2' z = bfree S2 z.
Proof.
  intros Hf. unfold bfree. destruct (decide (z = x)) as [E |]; [by rewrite E, concat_x, Hr |].
  destruct (decide (z = y)) as [E |].
  - rewrite E, Hry. unfold concat_map. by rewrite lookup_delete_eq, <- Hf.
  - rewrite concat_other by done. case_decide; [| done]. by destruct (S2 !! z).
Qed.

Lemma concat_flinks z :
  z ≠ y → fnext S2' z = fnext S2 z ∧ fprev S2' z = fprev S2 z.
Proof.
  intros Hz. unfold fnext, fprev. destruct (decide (z = x)) as [E |]; [by rewrite E, concat_x, Hr |].
  rewrite concat_other by done. case_decide; [| done]. by destruct (S2 !! z).
Qed.

Lemma concat_dll a c :
  dll (mnext S2) (mprev S2) (a ++ x :: y :: c) → (∀ b, b ∈ c → is_Some (S2 !! b)) →
  dll (mnext S2') (mprev S2') (a ++ x :: c).
Proof.
  intros Hd Hs. change (a ++ x :: y :: c) with (a ++ [x] ++ y :: c) in Hd. rewrite app_assoc in Hd.
  destruct (dll_links _ _ _ _ _ Hd) as [_ En]. unfold mnext in En. rewrite Hry in En. cbn in En.
  change (a ++ x :: c) with (a ++ [x] ++ c). rewrite app_assoc.
  assert (∀ z, z ∈ (a ++ [x]) ++ c → z ≠ y) as Hy.
  { destruct Hd as [(_ & H1 & [H2 _]%NoDup_cons)%NoDup_app _]. set_solver. }
  eapply dll_remove; [exact Hd | |]; intros z Hz; rewrite last_or_snoc, <- En;
    specialize (Hy z Hz); unfold mnext, mprev.
  - destruct (decide (z = x)) as [E |].
    + rewrite E, concat_x, decide_True by done. done.
    + rewrite concat_other, (decide_False (P := Some x = Some z)) by (congruence || done).
      case_decide; [| done].
      by destruct (S2 !! z).
  - destruct (decide (z = x)) as [E |].
    + rewrite E, concat_x, decide_False, Hr by done. done.
    + rewrite concat_other by done. case_decide as Ez; [| done].
      rewrite En in Ez. apply head_or_in in Ez as [? | Hin]; [done |].
      destruct (Hs z Hin) as [rz Hrz]. by rewrite Hrz.
Qed.

Lemma concat_tiles p a c s0 e :
  tiles S2 p s0 (a ++ x :: y :: c) e → NoDup (a ++ x :: y :: c) → tiles S2' p s0 (a ++ x :: c) e.
Proof.
  intros Ht (_ & Ha & [Hx [Hy _]%NoDup_cons]%NoDup_cons)%NoDup_app.
  apply tiles_app in Ht as (mid & Hta & Ex & r0 & Hr0 & B1 & B2 & B3 & Ey & r1 & Hr1 & C1 & C2 & C3 & Htc).
  subst mid. rewrite Hr in Hr0. injection Hr0 as <-. rewrite Hry in Hr1. injection Hr1 as <-.
  assert (∀ z, z ≠ x → z ≠ y → span_of <$> S2' !! z = span_of <$> S2 !! z) as Eo.
  { intros z E1 E2. rewrite concat_other by done. case_decide; [| done]. by destruct (S2 !! z). }
  apply tiles_app. exists x. split; [eapply tiles_span, Hta; intros b Hb; apply Eo; set_solver |].
  simpl. split; [done |]. eexists. split; [by apply concat_x |]. cbn.
  split; [lia |]. split; [by apply Z.divide_add_r |]. split; [done |].
  replace (x + (m_size r + m_size ry)) with (x + m_size r + m_size ry) by lia.
  eapply tiles_span, Htc. intros b Hb. apply Eo; set_solver.
Qed.
End concat.

Lemma coalesced_concat S2 S2' a x y c :
  (∀ z, bfree S2' z = bfree S2 z) → bfree S2 x = false → bfree S2 y = false →
  coalesced S2 false (a ++ x :: y :: c) → coalesced S2' false (a ++ x :: c).
Proof.
  intros HF Hx Hy. rewrite !coalesced_app. intros [H1 (_ & _ & H2)]. rewrite Hy in H2.
  split; [eapply coalesced_frame, H1; auto |]. simpl. rewrite HF, Hx. split; [naive_solver |].
  eapply coalesced_frame, H2; auto.
Qed.

Lemma free_list_concat S2 S2' m1 p a x y c m2 fl hd tl :
  (∀ z, bfree S2' z = bfree S2 z) → bfree S2 y = false →
  (∀ z, z ≠ y → fnext S2' z = fnext S2 z ∧ fprev S2' z = fprev S2 z) →
  free_list S2 (m1 ++ (p, a ++ x :: y :: c) :: m2) fl hd tl →
  free_list S2' (m1 ++ (p, a ++ x :: c) :: m2) fl hd tl.
Proof.
  intros HF Hy EL [Hd Hh Ht Hf]. split; [| done | done |].
  - eapply dll_ext, Hd. intros z [_ Hz]%Hf. apply EL. intros ->. congruence.
  - intros b. rewrite Hf, HF, !mjoin_elem, !elem_of_app, !elem_of_cons.
    split; [| tauto]. intros [[? | [[? | [? | [-> | ?]]] | ?]] ?]; tauto || congruence.
Qed.

Lemma s2_concat_ok s v m1 p a x y c m2 r ry :
  rep s v → v_med v = m1 ++ (p, a ++ x :: y :: c) :: m2 → s2s s !! x = Some r → s2s s !! y = Some ry →
  m_free r = false → m_free ry = false →
  ∃ s', km_s2_concat x y s = Some (tt, s') ∧ only_s2 s s' ∧
    rep s' (with_med v (m1 ++ (p, a ++ x :: c) :: m2) (v_free v)) ∧
    (∀ z, bfree (s2s s') z = bfree (s2s s) z) ∧
    (∃ r', s2s s' !! x = Some r' ∧ m_prev r' = m_prev r) ∧
    (∀ z, z ≠ x → z ≠ y → use_of <$> s2s s' !! z = use_of <$> s2s s !! z).
Proof.
  intros Hrep Ev Hr Hry Fx Fy. pose proof (rp_med _ _ Hrep) as Hm. rewrite Forall_forall in Hm.
  assert ((p, a ++ x :: y :: c) ∈ v_med v) as Hin by (rewrite Ev; set_solver).
  pose proof (Hm _ Hin) as Hpg. cbn in Hpg.
  pose proof (mp_dll _ _ _ _ _ Hpg) as Hd. pose proof (proj1 Hd) as Hnd.
  assert (x ≠ y ∧ x ∉ c) as [Hxy Hxc].
  { apply NoDup_app in Hnd as (_ & _ & [Hx _]%NoDup_cons). set_solver. }
  assert (m_next ry = head_or c None) as En.
  { change (a ++ x :: y :: c) with (a ++ [x] ++ y :: c) in Hd. rewrite app_assoc in Hd.
    destruct (dll_links _ _ _ _ _ Hd) as [_ En]. unfold mnext in En. by rewrite Hry in En. }
  assert (m_next ry ≠ Some x) as Hnx by (rewrite En; intros [? | ?]%head_or_in; done).
  assert (∀ b, b ∈ a ++ x :: y :: c → is_Some (s2s s !! b)) as Hs.
  { intros b Hb. destruct (med_block_within _ _ _ _ _ _ Hpg Hb) as (_ & ? & ? & _). eauto. }
  assert (0 ≤ m_size r + m_size ry < 65536) as Hsz.
  { destruct (med_block_within _ _ _ _ _ x Hpg) as (_ & r0 & E0 & A1 & A2 & A3 & _); [set_solver |].
    destruct (med_block_within _ _ _ _ _ y Hpg) as (_ & r1 & E1 & B1 & B2 & B3 & _); [set_solver |].
    rewrite Hr in E0. injection E0 as <-. rewrite Hry in E1. injection E1 as <-.
    change P__HEAD with 32 in *. unfold PAGESIZE in *. lia. }
  assert (bfree (s2s s) x = false ∧ bfree (s2s s) y = false) as [Bx By].
  { unfold bfree. by rewrite Hr, Hry. }
  pose proof (λ z, concat_free (s2s s) x y r ry Hr Hry Hxy Hsz Hnx z Fy) as HF.
  eexists. split; [apply concat_run; [eauto | exact Hry |] |].
  { intros n Hn. rewrite En in Hn. apply head_or_in in Hn as [? | ?]; [done |]. apply Hs. set_solver. }
  split; [by eexists _, _, _ |]. split; [| split; [exact HF | split]].
  - eapply rep_med_update; [done | exact Ev | | |].
    + intros b Hb. assert (∀ z, z ∈ a ++ x :: y :: c → z ≠ b) as Hne.
      { intros z Hz ->. apply Hb. by eapply med_block_within. }
      rewrite concat_other by (apply not_eq_sym, Hne; set_solver). rewrite decide_False; [done |].
      rewrite En. intros [? | ?]%head_or_in; [done |]. by eapply (Hne b); [set_solver |].
    + split; [apply Hpg | | |].
      * eapply concat_dll; [done.. |]. intros b Hb. apply Hs. set_solver.
      * by eapply concat_tiles; [.. | apply Hpg |].
      * by eapply coalesced_concat, Hpg.
    + eapply free_list_concat; [exact HF | exact By | | rewrite <- Ev; apply Hrep].
      intros z Hz. by eapply concat_flinks.
  - eexists. split; [by apply concat_x | done].
  - intros z Hz1 Hz2. by apply concat_use.
Qed.

(** ** A new page *)

Definition first_block (S2 : gmap Z km_s2) (l : Z) : km_s2 :=
  let o := default raw_block (S2 !! (l + P__HEAD)) in
  mk_km_s2 S2_MAGIC (PAGESIZE - P__HEAD) false None None l (m_fnext o) (m_fprev o).
Definition with_block (n l : Z) (s : kms) : kms :=
  set_s2s (<[l + P__HEAD := first_block (s2s s) l]> (s2s s))
    (set_kps (<[l := set_kp_magic S2_MAGIC (page_rec s n l)]> (kps s))
      (set_regs (<[n := (l, PAGESIZE)]> (regs s)) s)).

Lemma med_page_new K S2 R l n r :
  K !! l = Some r → kp_magic r = S2_MAGIC → kp_self r = Some n → R !! n = Some (l, PAGESIZE) →
  med_page K (<[l + P__HEAD := first_block S2 l]> S2) R l [l + P__HEAD].
Proof.
  intros Hr Hm Hs Hn. split; [by exists r, n | | |].
  - split; [apply NoDup_singleton |]. simpl. unfold mnext, mprev. by rewrite lookup_insert_eq.
  - simpl. split; [done |]. eexists. rewrite lookup_insert_eq. split; [done |]. cbn.
    split; [done |]. split; [exists 510; done |]. split; [done |]. lia.
  - simpl. split; [naive_solver | done].
Qed.

Lemma free_list_new S2 md fl hd tl p l r :
  l ∉ mjoin md.*2 → m_free r = false → free_list S2 md fl hd tl →
  free_list (<[l := r]> S2) ((p, [l]) :: md) fl hd tl.
Proof.
  intros Hl Hr [Hd Hh Ht Hf]. split; [| done | done |].
  - eapply dll_ext, Hd. intros b [Hb _]%Hf. unfold fnext, fprev. rewrite lookup_insert_ne; [done |].
    by intros ->.
  - intros b. rewrite Hf. cbn. rewrite elem_of_cons. unfold bfree. destruct (decide (b = l)) as [-> |].
    + rewrite lookup_insert_eq. cbn. rewrite Hr. naive_solver.
    + rewrite lookup_insert_ne by done. naive_solver.
Qed.

Lemma with_block_rep s v sp n l :
  rep s v → supply_ok s sp PAGESIZE → granted sp = Some (n, l) →
  rep (with_block n l s) (with_med v ((l, [l + P__HEAD]) :: v_med v) (v_free v)) ∧
  l + P__HEAD ∉ mjoin (v_med v).*2.
Proof.
  intros Hrep Hsu Hg.
  destruct (fresh_page s v sp PAGESIZE n l Hrep Hsu Hg eq_refl) as (Hn & Hd & [Hp1 Hp2] & Hhd & Hls & Hlm & Hll).
  set (K' := <[l := set_kp_magic S2_MAGIC (page_rec s n l)]> (kps s)).
  assert (∀ q, q ≠ l → q ∉ (v_small v).*1 → K' !! q = kps s !! q) as EK.
  { intros q Hq _. unfold K'. by rewrite lookup_insert_ne. }
  destruct (with_page_others n l s v K' Hrep Hlm Hll Hn EK) as [Hm Hlg].
  assert (l + P__HEAD ∉ mjoin (v_med v).*2) as Hnb.
  { intros (q & cs & Hq & Hc)%med_block_ext. pose proof (rp_med _ _ Hrep) as Hf.
    rewrite Forall_forall in Hf. destruct (med_block_within _ _ _ _ _ _ (Hf _ Hq) Hc) as [Hw _].
    specialize (Hd _ (med_ext _ _ _ Hq)). unfold disj, within, PAGESIZE in *. cbn in *.
    change P__HEAD with 32 in *. lia. }
  split; [| done].
  assert (regs (with_page n l s) = <[n := (l, PAGESIZE)]> (regs s)) as ER by (by destruct s).
  rewrite ER in Hm, Hlg. pose proof Hrep as [Hs Hff _ Hfl _ Hsp].
  split; unfold with_block, with_med; cbn [v_small v_med v_free v_large].
  - destruct s as [K B S2 T h1 t1 fr h2 t2 R D]. cbn in *. eapply small_pages_frame, Hs; auto.
    + intros p F Hp. unfold K'. rewrite lookup_insert_ne; [done |]. intros ->. by eapply Hls.
    + intros p F m _ Hm'. rewrite lookup_insert_ne; [done |]. congruence.
  - destruct s; exact Hff.
  - apply Forall_cons. split.
    + cbn. eapply med_page_new; destruct s; cbn; [apply lookup_insert_eq | done | done | apply lookup_insert_eq].
    + rewrite Forall_forall in *. intros [q cs] Hq. specialize (Hm _ Hq). cbn in Hm |- *.
      eapply med_page_frame, Hm; [by destruct s | | by destruct s].
      intros b Hb. destruct s. cbn. rewrite lookup_insert_ne; [done |]. intros <-. apply Hnb.
      apply list_elem_of_join. exists cs. split; [done |]. by apply (list_elem_of_fmap_2 snd _ (q, cs)).
  - destruct s; cbn. by eapply free_list_new.
  - destruct s; exact Hlg.
  - eapply (space_ok_add v _ _ (l, PAGESIZE)); [by destruct s | | done | exact Hd | done | exact Hhd].
    unfold exts. cbn. by rewrite <- Permutation_middle.
Qed.

(** ** Allocation *)

Lemma s2_round_spec size :
  1 ≤ size < S2_LIMIT → size + S2_HEAD ≤ s2_round size ≤ 8128 ∧ (16 | s2_round size) ∧ 32 ≤ s2_round size.
Proof.
  intros Hs. pose proof (forallb_range (λ n, (n + S2_HEAD <=? s2_round n) && (s2_round n <=? 8128) &&
    (s2_round n mod 16 =? 0) && (32 <=? s2_round n))%bool 1 (Z.to_nat 8095) size eq_refl) as H1.
  change S2_LIMIT with 8096 in Hs. specialize (H1 ltac:(lia)). cbn beta in H1. bool_to_prop. destruct_cases.
  bool_to_prop. split_and!; auto. apply Z.mod_divide; lia.
Qed.

Lemma first_fit_run s fl fuel sz o :
  chain (fnext (s2s s)) o fl → (∀ b, b ∈ fl → is_Some (s2s s !! b)) → (length fl ≤ fuel)%nat →
  ∃ res, s2_first_fit fuel sz o s = Some (res, s) ∧
    match res with
    | Some x => x ∈ fl ∧ ∃ r, s2s s !! x = Some r ∧ sz ≤ m_size r
    | None => ∀ b r, b ∈ fl → s2s s !! b = Some r → m_size r < sz
    end.
Proof.
  revert o fuel. induction fl as [|x fl IH]; intros o fuel Hc Hs Hl; simpl in Hc.
  { subst. exists None. split; [by destruct fuel | set_solver]. }
  destruct Hc as [-> Hc], fuel as [|fuel]; cbn in Hl; [lia |].
  destruct (Hs x) as [r Hr]; [set_solver |]. cbn [s2_first_fit].
  rewrite (bind_run _ _ _ _ _ (gets2_run _ _ _ Hr)). case_bool; bool_to_prop.
  - exists (Some x). split; [done |]. split; [set_solver | eauto].
  - unfold fnext at 2 in Hc. rewrite Hr in Hc. cbn in Hc.
    destruct (IH _ fuel Hc) as (res & Hrun & Hres); [set_solver | lia |]. exists res. split; [done |].
    destruct res as [y |]; [set_solver |].
    intros b rb [-> | Hb]%elem_of_cons Hrb; [| by eapply Hres]. rewrite Hr in Hrb. injection Hrb as <-. lia.
Qed.

Lemma free_block_at s v x :
  rep s v → x ∈ v_free v → ∃ m1 p a c m2 r, v_med v = m1 ++ (p, a ++ x :: c) :: m2 ∧
    s2s s !! x = Some r ∧ m_free r = true ∧ m_size r ≤ PAGESIZE.
Proof.
  intros Hrep [Hx Hf]%(fl_free _ _ _ _ _ (rp_list _ _ Hrep)).
  apply med_block_ext in Hx as (p & bs & Hin & Hb). pose proof (rp_med _ _ Hrep) as Hm.
  rewrite Forall_forall in Hm. destruct (med_block_within _ _ _ _ _ _ (Hm _ Hin) Hb) as (_ & r & Hr & B1 & _ & B2 & _).
  destruct (in_sm_split _ _ _ Hin) as (m1 & m2 & Ev). apply list_elem_of_split in Hb as (a & c & ->).
  exists m1, p, a, c, m2, r. split_and!; auto.
  - unfold bfree in Hf. by rewrite Hr in Hf.
  - cbn in *. change P__HEAD with 32 in B1. lia.
Qed.

(** What an allocation of medium size promises of the view. *)
Record med_taken (s s' : kms) (v v' : view) (new z : Z) : Prop := {
  mt_used : used_med s' v' new z;
  mt_fresh : ∀ z', ¬ used_med s v new z';
  mt_kept : ∀ b z', used_med s v b z' → used_med s' v' b z';
  mt_small : v_small v' = v_small v;
  mt_large : v_large v' = v_large v
}.

Definition s2_take (new size : Z) : M kms (option Z) :=
  r ← gets2 new;
  new ← (if S2_SPLIT_SIZE <? u16 (m_size r - size) then km_s2_split new size
         else km_s2_flist_rem new ;; mret new);
  mret (Some (new + S2_HEAD)).

Lemma s2_take_ok s v x r sz :
  rep s v → x ∈ v_free v → s2s s !! x = Some r → sz ≤ m_size r → 32 ≤ sz → (16 | sz) →
  ∃ new s' v' z, s2_take x sz s = Some (Some (new + S2_HEAD), s') ∧ rep s' v' ∧ sz ≤ z ∧
    med_taken s s' v v' new z.
Proof.
  intros Hrep Hx Hr Hle H32 H16.
  destruct (free_block_at s v x Hrep Hx) as (m1 & p & a & c & m2 & r0 & Ev & Hr0 & Hfree & Hmax).
  rewrite Hr in Hr0. injection Hr0 as <-. unfold s2_take. rewrite (bind_run _ _ _ _ _ (gets2_run _ _ _ Hr)).
  rewrite u16_id by (unfold PAGESIZE in *; lia). change S2_SPLIT_SIZE with 80.
  destruct (Z.ltb_spec 80 (m_size r - sz)).
  - destruct (s2_split_ok s v m1 p a x c m2 r sz Hrep Ev Hr H32 H16) as
      (s' & Hrun & _ & Hrep' & Hnew & Hnb & Hk); [lia |].
    exists (x + (m_size r - sz)), s', (with_med v (m1 ++ (p, a ++ x :: x + (m_size r - sz) :: c) :: m2) (v_free v)), sz.
    split; [by rewrite (bind_run _ _ _ _ _ Hrun) |]. split; [done |]. split; [lia |]. split; try done.
    + split; [| done]. cbn. rewrite mjoin_elem. set_solver.
    + by intros z' [? _].
    + intros b z' [Hb Hu]. split.
      * cbn. rewrite Ev in Hb. rewrite mjoin_elem in *. set_solver.
      * rewrite Hk; [done | | by intros ->]. intros ->. rewrite Hr in Hu. cbn in Hu. unfold use_of in Hu. congruence.
  - apply list_elem_of_split in Hx as (l1 & l2 & Ef).
    destruct (flist_rem_ok s v l1 x l2 Hrep Ef) as (s' & Hrun & _ & Hrep' & HF & HS).
    assert (∀ y, y ≠ x → use_of <$> s2s s' !! y = use_of <$> s2s s !! y) as HU.
    { intros y Hy. specialize (HF y). specialize (HS y). rewrite decide_False in HF by done. unfold bfree in HF.
      destruct (s2s s' !! y), (s2s s !! y); cbn in *; [| done..]. unfold use_of, shape_of in *. congruence. }
    exists x, s', (with_med v (v_med v) (l1 ++ l2)), (m_size r).
    split; [by rewrite bind_assoc, (bind_run _ _ _ _ _ Hrun) |]. split; [done |]. split; [lia |]. split; try done.
    + split; [cbn; rewrite Ev, mjoin_elem; set_solver |]. specialize (HF x). specialize (HS x).
      rewrite decide_True in HF by done. unfold bfree in HF. rewrite Hr in HS.
      destruct (s2s s' !! x) as [r' |]; cbn in *; [| done]. unfold use_of, shape_of in *. congruence.
    + intros z' [_ Hu]. rewrite Hr in Hu. cbn in Hu. unfold use_of in Hu. congruence.
    + intros b z' [Hb Hu]. split; [done |]. rewrite HU; [done |]. intros ->. rewrite Hr in Hu.
      cbn in Hu. unfold use_of in Hu. congruence.
Qed.

Lemma s2_setup_ok s v sp n l :
  rep s v → supply_ok s sp PAGESIZE → granted sp = Some (n, l) →
  ∃ s' v' r, km_s2_setup l (with_page n l s) = Some (l + P__HEAD, s') ∧ rep s' v' ∧
    l + P__HEAD ∈ v_free v' ∧ s2s s' !! (l + P__HEAD) = Some r ∧ m_size r = PAGESIZE - P__HEAD ∧
    (∀ b z, used_med s v b z → used_med s' v' b z) ∧ v_small v' = v_small v ∧ v_large v' = v_large v.
Proof.
  intros Hrep Hsu Hg. destruct (with_block_rep s v sp n l Hrep Hsu Hg) as [Hrep1 Hnb].
  assert (s2s (with_block n l s) = <[l + P__HEAD := first_block (s2s s) l]> (s2s s)) as E2 by (by destruct s).
  destruct (flist_ins_ok (with_block n l s) _ [] l [] (l + P__HEAD) [] (v_med v) Hrep1 eq_refl)
    as (s' & Hins & _ & Hrep' & HF & HS).
  { unfold bfree. by rewrite E2, lookup_insert_eq. }
  { done. }
  pose proof (HS (l + P__HEAD)) as HS0. rewrite E2, lookup_insert_eq in HS0.
  destruct (s2s s' !! (l + P__HEAD)) as [r |] eqn:Er; [| done].
  eexists s', _, r. split; [| split; [exact Hrep' |]].
  - unfold km_s2_setup, with_page. destruct s as [K B S2 T h1 t1 fr h2 t2 R D].
    cbn [kps regs set_kps set_regs]. erewrite bind_run; [| apply modkp_run; kcbn; apply lookup_insert_eq].
    kcbn. rewrite insert_insert_eq. do 2 kstep. by rewrite (bind_run _ _ _ _ _ Hins).
  - cbn. split; [set_solver |]. split; [done |]. split.
    { cbn in HS0. unfold shape_of in HS0. cbn in HS0. congruence. }
    split; [| done]. intros b z [Hb Hu]. split.
    { cbn. set_solver. }
    assert (b ≠ l + P__HEAD) as Hne by (by intros ->).
    specialize (HF b). specialize (HS b). rewrite decide_False in HF by done.
    rewrite E2, lookup_insert_ne in HS by done. unfold bfree in HF. rewrite E2, lookup_insert_ne in HF by done.
    rewrite <- Hu. destruct (s2s s' !! b), (s2s s !! b); cbn in *; [| done..].
    unfold use_of, shape_of in *. congruence.
Qed.

Lemma free_list_size s v : rep s v → (length (v_free v) ≤ size (s2s s))%nat.
Proof.
  intros Hrep. pose proof (rp_list _ _ Hrep) as Hl.
  rewrite <- size_dom, <- (size_list_to_set (C := gset Z) (v_free v)) by apply (fl_dll _ _ _ _ _ Hl).
  apply subseteq_size. intros b Hb%elem_of_list_to_set. apply elem_of_dom.
  eapply free_list_some; [apply (rp_med _ _ Hrep) | exact Hl | done].
Qed.

(** Without a block that fits and without a new page the answer is a null pointer, and
    nothing changed. *)
Lemma s2_malloc_ok s v sp size :
  rep s v → supply_ok s sp PAGESIZE → 1 ≤ size < S2_LIMIT →
  (∃ new s' v' z, km_s2_malloc sp size s = Some (Some (new + S2_HEAD), s') ∧ rep s' v' ∧
     size + S2_HEAD ≤ z ∧ med_taken s s' v v' new z) ∨
  (km_s2_malloc sp size s = Some (None, s) ∧ (sp_descr sp = None ∨ granted sp = None)).
Proof.
  intros Hrep Hsu Hs. destruct (s2_round_spec size Hs) as (Hsz & H16 & H32).
  pose proof (rp_list _ _ Hrep) as Hl. unfold km_s2_malloc.
  rewrite (bind_run s2_fuel _ s (base.size (s2s s)) s) by done.
  rewrite (bind_run (mgets s2_head) _ s (s2_head s) s) by done.
  destruct (first_fit_run s (v_free v) (base.size (s2s s)) (s2_round size) (s2_head s)) as (res & Hrun & Hres).
  { rewrite (fl_head _ _ _ _ _ Hl). eapply (dll_chain _ _ []), Hl. }
  { intros b Hb. eapply free_list_some; [apply (rp_med _ _ Hrep) | exact Hl | done]. }
  { by apply free_list_size. }
  rewrite (bind_run _ _ _ _ _ Hrun). destruct res as [x |].
  - left. destruct Hres as (Hx & r & Hr & Hle).
    destruct (s2_take_ok s v x r (s2_round size) Hrep Hx Hr Hle H32 H16) as (new & s' & v' & z & Htk & Hrep' & Hz & Hmt).
    exists new, s', v', z. split_and!; [exact Htk | done | lia | done].
  - pose proof (new_page_run s sp PAGESIZE Hsu) as Hnp.
    destruct (sp_descr sp) as [m |] eqn:Em.
    2: { right. split; [| by left]. rewrite bind_assoc. by rewrite (bind_run _ _ _ _ _ Hnp). }
    destruct (granted sp) as [[n l] |] eqn:Eg.
    2: { right. split; [| by right]. rewrite bind_assoc. by rewrite (bind_run _ _ _ _ _ Hnp). }
    left. destruct (s2_setup_ok s v sp n l Hrep Hsu Eg) as (s1 & v1 & r & Hset & Hrep1 & Hx & Hr & Esz & Hk & E1 & E2).
    destruct (s2_take_ok s1 v1 _ r (s2_round size) Hrep1 Hx Hr) as (new & s' & v' & z & Htk & Hrep' & Hz & Hmt);
      [rewrite Esz; change (PAGESIZE - P__HEAD) with 8160; lia | done | done |].
    exists new, s', v', z. split_and!; [| done | lia |].
    + rewrite bind_assoc, (bind_run _ _ _ _ _ Hnp), bind_assoc, (bind_run _ _ _ _ _ Hset). exact Htk.
    + destruct Hmt as [M1 M2 M3 M4 M5]. split; [done | | | congruence..].
      * intros z' Hu. by eapply M2, Hk.
      * intros b z' Hu. by apply M3, Hk.
Qed.

(** ** Release *)

(** The blocks in use other than [x] stay in use. *)
Definition kept_but (x : Z) (s s' : kms) (v v' : view) : Prop :=
  ∀ b z, b ≠ x → used_med s v b z → used_med s' v' b z.
Definition same_rest (v v' : view) : Prop := v_small v' = v_small v ∧ v_large v' = v_large v.

Lemma is_free_run o s :
  (∀ b, o = Some b → is_Some (s2s s !! b)) → is_free o s = Some (bfree_or (s2s s) false o, s).
Proof.
  intros Hs. destruct o as [b |]; [| done]. destruct (Hs b eq_refl) as [r Hr].
  unfold is_free, bfree_or, bfree. by rewrite (bind_run _ _ _ _ _ (gets2_run _ _ _ Hr)), Hr.
Qed.

Lemma med_at s v m1 p bs m2 b :
  rep s v → v_med v = m1 ++ (p, bs) :: m2 → b ∈ bs →
  med_page (kps s) (s2s s) (regs s) p bs ∧ is_Some (s2s s !! b) ∧ b ∈ mjoin (v_med v).*2.
Proof.
  intros Hrep Ev Hb. pose proof (rp_med _ _ Hrep) as Hm. rewrite Forall_forall in Hm.
  assert ((p, bs) ∈ v_med v) as Hin by (rewrite Ev; set_solver). specialize (Hm _ Hin). cbn in Hm.
  split; [done |]. destruct (med_block_within _ _ _ _ _ _ Hm Hb) as (_ & r & ? & _). split; [eauto |].
  rewrite Ev, mjoin_elem. auto.
Qed.

Lemma bfree_lookup S2 x r f : S2 !! x = Some r → bfree S2 x = f ↔ m_free r = f.
Proof. intros Hr. unfold bfree. by rewrite Hr. Qed.

(** [n] is free: it is taken from the list and becomes a part of the block before it. *)
Lemma absorb_ok s v m1 p a x n c m2 :
  rep s v → v_med v = m1 ++ (p, a ++ x :: n :: c) :: m2 →
  bfree (s2s s) x ≠ bfree (s2s s) n → 
  let f := if bfree (s2s s) x then x else n in
  ∃ s' v', (km_s2_flist_rem f ;; km_s2_concat x n) s = Some (tt, s') ∧ rep s' v' ∧
    v_med v' = m1 ++ (p, a ++ x :: c) :: m2 ∧ same_rest v v' ∧
    (∀ y, bfree (s2s s') y = if decide (y = f) then false else bfree (s2s s) y) ∧
    (∃ r r', s2s s !! x = Some r ∧ s2s s' !! x = Some r' ∧ m_prev r' = m_prev r) ∧
    (∀ b, b ≠ x → b ≠ n → use_of <$> s2s s' !! b = use_of <$> s2s s !! b).
Proof.
  intros Hrep Ev Hne f.
  destruct (med_at s v m1 p _ m2 x Hrep Ev) as (Hpg & [r Hr] & Hxj); [set_solver |].
  destruct (med_at s v m1 p _ m2 n Hrep Ev) as (_ & [rn Hrn] & Hnj); [set_solver |].
  assert (f ∈ v_free v) as Hf.
  { apply (fl_free _ _ _ _ _ (rp_list _ _ Hrep)). unfold f.
    destruct (bfree (s2s s) x) eqn:E1; [done |]. split; [done |]. by destruct (bfree (s2s s) n). }
  apply list_elem_of_split in Hf as (l1 & l2 & Ef).
  destruct (flist_rem_ok s v l1 f l2 Hrep Ef) as (s1 & Hrem & _ & Hrep1 & HF1 & HS1).
  assert (bfree (s2s s1) x = false ∧ bfree (s2s s1) n = false) as [Fx Fn].
  { rewrite !HF1. unfold f. destruct (bfree (s2s s) x) eqn:E1; split; case_decide; try done.
    - by destruct (bfree (s2s s) n). }
  pose proof (HS1 x) as Sx. pose proof (HS1 n) as Sn. rewrite Hr in Sx. rewrite Hrn in Sn.
  destruct (s2s s1 !! x) as [r1 |] eqn:Er1; [| done]. destruct (s2s s1 !! n) as [rn1 |] eqn:Ern1; [| done].
  apply (bfree_lookup _ _ _ _ Er1) in Fx as Fx'. apply (bfree_lookup _ _ _ _ Ern1) in Fn as Fn'.
  destruct (s2_concat_ok s1 (with_med v (v_med v) (l1 ++ l2)) m1 p a x n c m2 r1 rn1 Hrep1 Ev Er1 Ern1 Fx' Fn')
    as (s2 & Hcat & _ & Hrep2 & HF2 & (r' & Hr' & Ep) & HU2).
  eexists s2, _. split; [by rewrite (bind_run _ _ _ _ _ Hrem) |]. split; [exact Hrep2 |].
  split; [done |]. split; [done |]. split; [intros y; by rewrite HF2 |]. split.
  { exists r, r'. cbn in Sx. unfold shape_of in Sx. split_and!; auto. congruence. }
  intros b H1 H2. rewrite HU2 by done. specialize (HF1 b). specialize (HS1 b).
  rewrite decide_False in HF1 by (unfold f; by destruct (bfree (s2s s) x)).
  unfold bfree in HF1. destruct (s2s s1 !! b), (s2s s !! b); cbn in *; [| done..].
  unfold use_of, shape_of in *. congruence.
Qed.

Lemma absorb_kept s s' v v' m1 p a x n c m2 u :
  v_med v = m1 ++ (p, a ++ x :: n :: c) :: m2 → v_med v' = m1 ++ (p, a ++ x :: c) :: m2 →
  bfree (s2s s) x ≠ bfree (s2s s) n → u = (if bfree (s2s s) x then n else x) →
  (∀ b, b ≠ x → b ≠ n → use_of <$> s2s s' !! b = use_of <$> s2s s !! b) →
  kept_but u s s' v v'.
Proof.
  intros Ev Ev' Hne -> HU b z Hb [Hin Hu].
  assert (bfree (s2s s) b = false) as Hbf.
  { unfold bfree. destruct (s2s s !! b); cbn in *; [| done]. unfold use_of in Hu. congruence. }
  assert (b ≠ x ∧ b ≠ n) as [H1 H2].
  { destruct (bfree (s2s s) x) eqn:E1.
    - split; [intros ->; congruence | done].
    - split; [done | intros ->; congruence]. }
  split; [| by rewrite HU]. rewrite Ev, Ev', mjoin_elem, !elem_of_app, !elem_of_cons in *. tauto.
Qed.

Lemma merge_next_ok s v m1 p a x c m2 r :
  rep s v → v_med v = m1 ++ (p, a ++ x :: c) :: m2 → s2s s !! x = Some r → m_free r = false →
  ∃ s' v' c' r', merge_next x (head_or c None) s = Some (tt, s') ∧ rep s' v' ∧
    v_med v' = m1 ++ (p, a ++ x :: c') :: m2 ∧ same_rest v v' ∧ s2s s' !! x = Some r' ∧
    m_free r' = false ∧ m_prev r' = m_prev r ∧ bfree_or (s2s s') false (head_or c' None) = false ∧
    kept_but x s s' v v'.
Proof.
  intros Hrep Ev Hr Hf. unfold merge_next. apply (bfree_lookup _ _ _ _ Hr) in Hf as Hbx.
  erewrite bind_run; cycle 1.
  { apply is_free_run. intros b Hb. apply head_or_in in Hb as [? | Hb]; [done |].
    eapply med_at; [exact Hrep | exact Ev | set_solver]. }
  destruct c as [|n c]; simpl.
  { exists s, v, [], r. split_and!; auto; [done |]. by intros b z _. }
  destruct (bfree (s2s s) n) eqn:Hn.
  2: { exists s, v, (n :: c), r. split_and!; auto; [done |]. by intros b z _. }
  destruct (absorb_ok s v m1 p a x n c m2 Hrep Ev) as (s' & v' & Hrun & Hrep' & Ev' & Hsr & HF & (r0 & r' & E0 & Er' & Ep) & HU);
    [congruence |]. rewrite Hbx in Hrun, HF. rewrite Hr in E0. injection E0 as <-.
  exists s', v', c, r'. split; [exact Hrun |]. split; [done |]. split; [done |]. split; [done |].
  split; [done |]. split; [| split; [done |]].
  { apply (bfree_lookup _ _ _ _ Er'). rewrite HF. case_decide; [done | done]. }
  split; [| eapply absorb_kept; [exact Ev | exact Ev' | congruence | by rewrite Hbx | exact HU]].
  destruct (med_at s v m1 p _ m2 x Hrep Ev) as (Hpg & _ & _); [set_solver |].
  pose proof (mp_coal _ _ _ _ _ Hpg) as [_ Hc]%coalesced_app. simpl in Hc. destruct Hc as (_ & _ & Hc).
  rewrite Hn in Hc. destruct c as [|y c]; [done |]. simpl in Hc |- *. rewrite HF. case_decide; [done |].
  destruct Hc as [Hc _]. by destruct (bfree (s2s s) y); [naive_solver |].
Qed.

Lemma merge_prev_ok s v m1 p a x c m2 r :
  rep s v → v_med v = m1 ++ (p, a ++ x :: c) :: m2 → s2s s !! x = Some r → m_free r = false →
  bfree_or (s2s s) false (head_or c None) = false →
  ∃ s' v' a' y, merge_prev x (last_or None a) s = Some (y, s') ∧ rep s' v' ∧
    v_med v' = m1 ++ (p, a' ++ y :: c) :: m2 ∧ same_rest v v' ∧
    bfree (s2s s') y = false ∧ alone (s2s s') a' c ∧ kept_but x s s' v v' ∧
    (y = x ∨ bfree (s2s s) y = true).
Proof.
  intros Hrep Ev Hr Hf Hc. unfold merge_prev. apply (bfree_lookup _ _ _ _ Hr) in Hf as Hbx.
  erewrite bind_run; cycle 1.
  { apply is_free_run. intros b Hb. apply last_or_in in Hb as [? | Hb]; [done |].
    eapply med_at; [exact Hrep | exact Ev | set_solver]. }
  assert (∀ E : bfree_or (s2s s) false (last_or None a) = false,
    ∃ s' v' a' y, Some (x, s) = Some (y, s') ∧ rep s' v' ∧
    v_med v' = m1 ++ (p, a' ++ y :: c) :: m2 ∧ same_rest v v' ∧
    bfree (s2s s') y = false ∧ alone (s2s s') a' c ∧ kept_but x s s' v v' ∧
    (y = x ∨ bfree (s2s s) y = true)) as Hstay.
  { intros E. exists s, v, a, x. split_and!; auto; [done | done |]. by intros b z _. }
  destruct a as [|q a _] using rev_ind; [by apply Hstay |].
  rewrite last_or_snoc in *. simpl in Hstay |- *.
  destruct (bfree (s2s s) q) eqn:Hq; [| by apply Hstay]. clear Hstay.
  rewrite <- app_assoc in Ev. simpl in Ev.
  destruct (absorb_ok s v m1 p a q x c m2 Hrep Ev) as (s' & v' & Hrun & Hrep' & Ev' & Hsr & HF & _ & HU);
    [congruence |]. rewrite Hq in Hrun, HF.
  destruct (med_at s v m1 p _ m2 q Hrep Ev) as (Hpg & _ & _); [set_solver |].
  pose proof (mp_coal _ _ _ _ _ Hpg) as [_ Hcl]%coalesced_app. simpl in Hcl. destruct Hcl as [Hcl _].
  pose proof (proj1 (mp_dll _ _ _ _ _ Hpg)) as (_ & Hna & [Hnq _]%NoDup_cons)%NoDup_app.
  exists s', v', a, q. split; [by rewrite <- bind_assoc, (bind_run _ _ _ _ _ Hrun) |].
  split; [done |]. split; [done |]. split; [done |]. split; [by rewrite HF, decide_True |].
  split; [split |].
  - destruct (last_or None a) as [y |] eqn:Ey; [| done]. cbn in *. rewrite HF. case_decide; [done |].
    rewrite Hq in Hcl. by destruct (bfree (s2s s) y); [naive_solver |].
  - destruct c as [|y c]; [done |]. simpl in Hc |- *. rewrite HF. by case_decide.
  - split; [| by right]. eapply absorb_kept; [exact Ev | exact Ev' | congruence | by rewrite Hq | exact HU].
Qed.

Lemma tiles_nil S2 p s0 bs e : tiles S2 p s0 bs e → e - s0 < 32 → bs = [].
Proof.
  destruct bs as [|b bs]; [done |]. intros Ht Hlt.
  destruct (tiles_within S2 p s0 (b :: bs) e b Ht) as (r & _ & ? & ? & ? & _); [set_solver | lia].
Qed.

(** A block as long as the page is the only one. *)
Lemma whole_page K S2 R p a y c r :
  med_page K S2 R p (a ++ y :: c) → S2 !! y = Some r → m_size r = PAGESIZE - P__HEAD →
  a = [] ∧ c = [].
Proof.
  intros Hpg Hr Esz. pose proof (mp_tiles _ _ _ _ _ Hpg) as Ht.
  destruct (med_block_within _ _ _ _ _ y Hpg) as (_ & r0 & Hr0 & B1 & _ & B2 & _); [set_solver |].
  rewrite Hr in Hr0. injection Hr0 as <-. rewrite Esz in B2.
  apply tiles_app in Ht as (mid & Ha & Ey & r1 & Hr1 & _ & _ & _ & Hc). subst mid.
  rewrite Hr in Hr1. injection Hr1 as <-. rewrite Esz in Hc.
  split; [apply (tiles_nil _ _ _ _ _ Ha) | apply (tiles_nil _ _ _ _ _ Hc)]; lia.
Qed.

Lemma exts_med_remove v m1 p bs m2 fl :
  v_med v = m1 ++ (p, bs) :: m2 → exts v ≡ₚ (p, PAGESIZE) :: exts (with_med v (m1 ++ m2) fl).
Proof.
  intros E. unfold exts. rewrite E. cbn. rewrite !fmap_app, !fmap_cons. cbn.
  rewrite <- !app_assoc. cbn. by rewrite <- !Permutation_middle.
Qed.

Lemma s2_free_page s v m1 p y m2 m :
  rep s v → v_med v = m1 ++ (p, [y]) :: m2 → bfree (s2s s) y = false →
  regs s !! m = Some (p, PAGESIZE) →
  ∃ s', km_free m s = Some (tt, s') ∧ rep s' (with_med v (m1 ++ m2) (v_free v)) ∧
    (∀ b, b ∈ mjoin (m1 ++ m2).*2 → s2s s' !! b = s2s s !! b).
Proof.
  intros Hrep Ev Hy Hm. pose proof (rp_space _ _ Hrep) as Hsp.
  pose proof (exts_med_remove v m1 p [y] m2 (v_free v) Ev) as Hex.
  set (v' := with_med v (m1 ++ m2) (v_free v)) in *.
  assert (apart ((p, PAGESIZE) :: exts v')) as Hap by (apply (apart_perm _ _ Hex), Hsp).
  assert ((p, [y]) ∈ v_med v) as Hin by (rewrite Ev; set_solver).
  assert (∀ q bs, (q, bs) ∈ m1 ++ m2 → (q, bs) ∈ v_med v ∧ disj (p, PAGESIZE) (q, PAGESIZE)) as Hdm.
  { intros q bs Hq. split; [rewrite Ev; set_solver |]. eapply apart_elem; [exact Hap |]. by eapply (med_ext v'). }
  assert (∀ q, q ∈ (v_small v).*1 → disj (p, PAGESIZE) (q, PAGESIZE)) as Hds.
  { intros q (G & HG)%page_in. eapply apart_elem; [exact Hap |]. by eapply (small_ext v'). }
  assert (∀ b, b ∈ mjoin (m1 ++ m2).*2 → outside p PAGESIZE (s2s s) !! b = s2s s !! b) as HB.
  { intros b (bs & Hb & ([q bs'] & -> & Hq)%list_elem_of_fmap)%list_elem_of_join. cbn in Hb.
    destruct (Hdm q bs' Hq) as [Hqv Hdj]. pose proof (rp_med _ _ Hrep) as Hf. rewrite Forall_forall in Hf.
    destruct (med_block_within _ _ _ _ _ _ (Hf _ Hqv) Hb) as [Hw _].
    apply (outside_lookup (p, PAGESIZE)). unfold disj, within in *. cbn in *. lia. }
  assert (∀ q, ¬ within q (p, PAGESIZE) → outside p PAGESIZE (kps s) !! q = kps s !! q) as EK
    by (intros q; apply (outside_lookup (p, PAGESIZE))).
  pose proof Hrep as [Hs Hff _ Hfl _ _].
  eexists. split; [by apply (free_region_run s m (p, PAGESIZE)) |].
  destruct s as [K B S2 T h1 t1 fr h2 t2 R D]. cbn in *. split; [| exact HB].
  split; cbn; auto.
  - eapply small_pages_frame, Hs.
    + intros q G HG. apply EK. specialize (Hds q ltac:(by apply (list_elem_of_fmap_2 fst) in HG)).
      unfold disj, within, PAGESIZE in *. cbn in *. lia.
    + intros q G b HG Hw. apply (outside_lookup (p, PAGESIZE)).
      specialize (Hds q ltac:(by apply (list_elem_of_fmap_2 fst) in HG)). unfold disj, within in *. cbn in *. lia.
    + intros b [rb Hb]. apply map_lookup_filter_Some in Hb as [? _]. eauto.
    + intros q G m' HG Hm'. rewrite lookup_delete_ne; [done |]. intros ->. rewrite Hm in Hm'. injection Hm' as ->.
      by eapply small_not_med.
  - eapply (freed_med _ v p m _ _ Hrep Hm Hdm). intros q Hq _. by apply EK.
  - destruct Hfl as [Hd Hh Ht Hf].
    assert (∀ b, b ∈ v_free v → b ∈ mjoin (m1 ++ m2).*2) as Hfm.
    { intros b [Hb Hbf]%Hf. rewrite Ev, mjoin_elem, list_elem_of_singleton in Hb.
      rewrite fmap_app, join_app, elem_of_app. destruct Hb as [? | [-> | ?]]; [tauto | congruence | tauto]. }
    split; [| done | done |].
    + eapply dll_ext, Hd. intros b Hb. unfold fnext, fprev. by rewrite HB by auto.
    + intros b. split.
      * intros Hb. split; [auto |]. unfold bfree. rewrite HB by auto. by apply Hf.
      * intros [Hb Hbf]. apply Hf. split.
        { rewrite Ev, mjoin_elem. rewrite fmap_app, join_app, elem_of_app in Hb. tauto. }
        unfold bfree in *. by rewrite HB in Hbf.
  - eapply (freed_large _ v p m _ Hrep Hm); [by eapply med_ext | |].
    + eapply page_not_large; [exact Hsp | right]. by apply (list_elem_of_fmap_2 fst) in Hin.
    + intros q Hq _. by apply EK.
  - exact (space_ok_remove v v' _ _ Hsp Hex eq_refl).
Qed.

Lemma s2_free_ok s v p bs x r :
  rep s v → (p, bs) ∈ v_med v → x ∈ bs → s2s s !! x = Some r → m_free r = false →
  ∃ s' v', km_s2_free x p s = Some (tt, s') ∧ rep s' v' ∧ same_rest v v' ∧ kept_but x s s' v v'.
Proof.
  intros Hrep Hin Hx Hr Hf. destruct (in_sm_split _ _ _ Hin) as (m1 & m2 & Ev).
  apply list_elem_of_split in Hx as (a & c & ->).
  destruct (med_at s v m1 p _ m2 x Hrep Ev) as (Hpg & _ & _); [set_solver |].
  destruct (dll_links _ _ _ _ _ (mp_dll _ _ _ _ _ Hpg)) as [Ep En].
  unfold mprev in Ep. unfold mnext in En. rewrite Hr in Ep, En. cbn in Ep, En.
  destruct (merge_next_ok s v m1 p a x c m2 r Hrep Ev Hr Hf) as
    (s1 & v1 & c1 & r1 & Hrun1 & Hrep1 & Ev1 & [S1a S1b] & Hr1 & Hf1 & Ep1 & Hc1 & Hk1).
  destruct (merge_prev_ok s1 v1 m1 p a x c1 m2 r1 Hrep1 Ev1 Hr1 Hf1 Hc1) as
    (s2 & v2 & a2 & y & Hrun2 & Hrep2 & Ev2 & [S2a S2b] & Hy & Hal & Hk2 & Hyx).
  destruct (med_at s2 v2 m1 p _ m2 y Hrep2 Ev2) as (Hpg2 & [ry Hry] & _); [set_solver |].
  assert (∀ b z, b ≠ x → used_med s v b z → b ≠ y ∧ used_med s2 v2 b z) as Hk.
  { intros b z Hb Hu. specialize (Hk1 b z Hb Hu). split; [| by apply Hk2].
    intros ->. destruct Hyx as [-> | Hyf]; [done |]. destruct Hk1 as [_ Hu1]. unfold bfree in Hyf.
    destruct (s2s s1 !! y); cbn in *; [| done]. unfold use_of in Hu1. congruence. }
  assert (km_s2_free x p s = (r ← gets2 y; if m_size r =? PAGESIZE - P__HEAD
      then rp ← getkp p; self ← nonnull (kp_self rp); km_free self else km_s2_flist_ins y) s2) as ->.
  { unfold km_s2_free. rewrite (bind_run _ _ _ _ _ (gets2_run _ _ _ Hr)). rewrite En, Ep.
    rewrite (bind_run _ _ _ _ _ Hrun1). by rewrite (bind_run _ _ _ _ _ Hrun2). }
  rewrite (bind_run _ _ _ _ _ (gets2_run _ _ _ Hry)).
  destruct (Z.eqb_spec (m_size ry) (PAGESIZE - P__HEAD)) as [Esz | Esz].
  - destruct (whole_page _ _ _ _ _ _ _ _ Hpg2 Hry Esz) as [-> ->]. cbn [app] in Ev2.
    destruct (mp_rec _ _ _ _ _ Hpg2) as (rp & m & Hrp & _ & Hself & Hm).
    destruct (s2_free_page s2 v2 m1 p y m2 m Hrep2 Ev2 Hy Hm) as (s' & Hrun & Hrep' & HB).
    exists s', (with_med v2 (m1 ++ m2) (v_free v2)).
    rewrite (bind_run _ _ _ _ _ (getkp_run _ _ _ Hrp)).
    rewrite (bind_run (nonnull (kp_self rp)) _ s2 m s2) by (by unfold nonnull, mderef; rewrite Hself).
    split; [exact Hrun |]. split; [done |]. split; [split; cbn; congruence |].
    intros b z Hb Hu. destruct (Hk b z Hb Hu) as [Hby [Hbj Hbu]].
    rewrite Ev2, mjoin_elem, list_elem_of_singleton in Hbj.
    assert (b ∈ mjoin (m1 ++ m2).*2) as Hbj' by (rewrite fmap_app, join_app, elem_of_app; tauto).
    split; [done |]. by rewrite HB.
  - destruct (flist_ins_ok s2 v2 m1 p a2 y c1 m2 Hrep2 Ev2 Hy Hal) as (s' & Hrun & _ & Hrep' & HF & HS).
    exists s', (with_med v2 (v_med v2) (v_free v2 ++ [y])).
    split; [exact Hrun |]. split; [done |]. split; [split; cbn; congruence |].
    intros b z Hb Hu. destruct (Hk b z Hb Hu) as [Hby [Hbj Hbu]]. split; [done |].
    rewrite <- Hbu. specialize (HF b). specialize (HS b). rewrite decide_False in HF by done. unfold bfree in HF.
    destruct (s2s s' !! b), (s2s s2 !! b); cbn in *; [| done..]. unfold use_of, shape_of in *. congruence.
Qed.
