(* ===== verification/KLarge.v ===== *)
(** * Large blocks of the heap (sys/kmemory.c)

    A large block is a memory region of its own; its head is in the memory of a descriptor,
    and is found again by the hash table.  The operations keep the representation of
    KHeap.v. *)

From S2P Require Import Prelude CInt Memory Linked KMem KHeap.

(** ** The hash table *)

Lemma head_loc s v k x r :
  rep s v → (k, x) ∈ v_large v → kps s !! k = Some r →
  ∃ m, kp_self r = Some m ∧ regs s !! m = Some x.
Proof.
  intros Hrep Hk Hr. destruct (lb_rec _ _ _ _ (rp_large _ _ Hrep) k x Hk) as (r0 & m & Hr0 & _ & Hs & Hm).
  rewrite Hr in Hr0. injection Hr0 as <-. eauto.
Qed.

Lemma loc_of_run s m x : regs s !! m = Some x → loc_of m s = Some (x.1, s).
Proof.
  intros Hm. unfold loc_of. destruct x as [l n].
  by rewrite (bind_run _ _ _ _ _ (mderef_run (λ s, regs s !! m) s _ Hm)).
Qed.

Lemma hash_lookup_loop_run s lg fuel p o :
  (∀ k x, (k, x) ∈ lg → ∃ r m, kps s !! k = Some r ∧ kp_self r = Some m ∧ regs s !! m = Some x) →
  chain (hnext (kps s)) o lg.*1 → (length lg ≤ fuel)%nat →
  ∃ res, hash_lookup_loop fuel p o s = Some (res, s) ∧
    match res with
    | Some k => ∃ n, (k, (p, n)) ∈ lg
    | None => ∀ k n, (k, (p, n)) ∉ lg
    end.
Proof.
  revert o fuel. induction lg as [|[k x] lg IH]; intros o fuel Hs Hc Hl; simpl in Hc, Hl.
  { subst. exists None. split; [by destruct fuel | set_solver]. }
  destruct Hc as [-> Hc], fuel as [|fuel]; [lia |]. cbn [hash_lookup_loop].
  destruct (Hs k x) as (r & m & Hr & Hm & Hx); [set_solver |].
  rewrite (bind_run _ _ _ _ _ (getkp_run _ _ _ Hr)).
  rewrite (bind_run (nonnull (kp_self r)) _ s m s) by (by unfold nonnull, mderef; rewrite Hm).
  rewrite (bind_run _ _ _ _ _ (loc_of_run _ _ _ Hx)). destruct (Z.eqb_spec p x.1) as [-> | Hne].
  - exists (Some k). split; [done |]. exists x.2. destruct x. set_solver.
  - unfold hnext at 2 in Hc. rewrite Hr in Hc. cbn in Hc.
    destruct (IH _ fuel (λ k x Hk, Hs k x (list_elem_of_further _ _ _ Hk)) Hc) as (res & Hrun & Hres); [lia |].
    exists res. split; [done |]. destruct res as [k' |].
    + destruct Hres as [n ?]. exists n. set_solver.
    + intros k' n [[= -> <-] | Hk]%elem_of_cons; [done | by eapply Hres].
Qed.

Lemma bucket_run h s : bucket h s = Some (table s !! h, s).
Proof. done. Qed.

Lemma bucket_sub h (lg : list (Z * (Z * Z))) e : e ∈ filter (in_bucket h) lg → e ∈ lg.
Proof. by intros [_ ?]%list_elem_of_filter. Qed.

Lemma large_some s v k x :
  rep s v → (k, x) ∈ v_large v →
  ∃ r m, kps s !! k = Some r ∧ kp_self r = Some m ∧ regs s !! m = Some x.
Proof.
  intros Hrep Hk. destruct (lb_rec _ _ _ _ (rp_large _ _ Hrep) k x Hk) as (r & m & ? & _ & ? & ?). eauto.
Qed.

Lemma nodup_filter_fst (P : Z * (Z * Z) → Prop) `{∀ e, Decision (P e)} (lg : list (Z * (Z * Z))) :
  NoDup lg.*1 → NoDup (filter P lg).*1.
Proof.
  induction lg as [|e lg IH]; [done |]. intros [Hx Hn]%NoDup_cons. rewrite filter_cons.
  case_decide; [| auto]. apply NoDup_cons. split; [| auto].
  intros ([k x] & E & [_ Hk]%list_elem_of_filter)%list_elem_of_fmap. apply Hx. rewrite E.
  by apply (list_elem_of_fmap_2 fst) in Hk.
Qed.

Lemma bucket_size s v h : rep s v → (length (filter (in_bucket h) (v_large v)) ≤ size (kps s))%nat.
Proof.
  intros Hrep. rewrite <- (length_fmap fst). apply dom_size_le.
  - apply nodup_filter_fst, (rp_large _ _ Hrep).
  - intros k ([k' x] & -> & Hk%bucket_sub)%list_elem_of_fmap.
    destruct (large_some _ _ _ _ Hrep Hk) as (r & _ & ? & _). eauto.
Qed.

Lemma hash_lookup_run s v p :
  rep s v → ∃ res, km_hash_lookup p s = Some (res, s) ∧
    match res with
    | Some k => ∃ n, (k, (p, n)) ∈ v_large v
    | None => ∀ k n, (k, (p, n)) ∉ v_large v
    end.
Proof.
  intros Hrep. unfold km_hash_lookup. rewrite (bind_run chain_fuel _ s (S (size (kps s))) s) by done.
  rewrite (bind_run _ _ _ _ _ (bucket_run _ _)).
  destruct (hash_lookup_loop_run s (filter (in_bucket (km_hash p)) (v_large v)) (S (size (kps s))) p
    (table s !! km_hash p)) as (res & Hrun & Hres).
  - intros k x Hk%bucket_sub. by eapply large_some.
  - apply (rp_large _ _ Hrep).
  - pose proof (bucket_size s v (km_hash p) Hrep). lia.
  - exists res. split; [done |]. destruct res as [k |].
    + destruct Hres as [n Hn%bucket_sub]. eauto.
    + intros k n Hk. apply (Hres k n), list_elem_of_filter. done.
Qed.

(** The bucket or the link that is set *)
Definition link_large (s : kms) (h : Z) (o v : option Z) : kms :=
  match o with
  | None => set_table (partial_alter (λ _, v) h (table s)) s
  | Some q => set_kps (alter (set_kp_hnext v) q (kps s)) s
  end.

Lemma hash_remove_loop_run s h k ks fuel prev cur a c :
  chain (hnext (kps s)) cur ks → ks = a ++ k :: c → NoDup ks → (length ks ≤ fuel)%nat →
  (∀ q, q ∈ ks → is_Some (kps s !! q)) → (∀ q, prev = Some q → is_Some (kps s !! q)) →
  hash_remove_loop fuel h k prev cur s =
    Some (tt, link_large s h (last_or prev a) (head_or c None)).
Proof.
  revert fuel prev cur ks. induction a as [|q a IH]; intros fuel prev cur ks Hc -> Hn Hl Hs Hp;
    simpl in Hc; destruct Hc as [-> Hc]; (destruct fuel as [|fuel]; [cbn in Hl; lia |]);
    cbn [hash_remove_loop app] in *.
  - destruct (Hs k) as [r Hr]; [set_solver |]. rewrite (bind_run _ _ _ _ _ (getkp_run _ _ _ Hr)).
    rewrite Z.eqb_refl. assert (kp_hnext r = head_or c None) as ->.
    { rewrite <- (chain_head _ _ _ Hc). unfold hnext. by rewrite Hr. }
    destruct prev as [q |]; [| done]. cbn. rewrite modkp_alter; [done | auto].
  - destruct (Hs q) as [r Hr]; [set_solver |]. rewrite (bind_run _ _ _ _ _ (getkp_run _ _ _ Hr)).
    rewrite (proj2 (Z.eqb_neq _ _)).
    2: { intros ->. apply NoDup_cons in Hn as [Hn _]. set_solver. }
    unfold hnext at 2 in Hc. rewrite Hr in Hc. cbn in Hc. cbn [last_or].
    eapply (IH fuel (Some q)); [exact Hc | done | | cbn in Hl; lia | |].
    + by apply NoDup_cons in Hn as [_ Hn].
    + intros y Hy. apply Hs. set_solver.
    + intros y [= <-]. eauto.
Qed.

Lemma hash_of_run s v k x : rep s v → (k, x) ∈ v_large v → hash_of k s = Some (km_hash x.1, s).
Proof.
  intros Hrep Hk. destruct (large_some _ _ _ _ Hrep Hk) as (r & m & Hr & Hm & Hx). unfold hash_of.
  rewrite (bind_run _ _ _ _ _ (getkp_run _ _ _ Hr)).
  rewrite (bind_run (nonnull (kp_self r)) _ s m s) by (by unfold nonnull, mderef; rewrite Hm).
  by rewrite (bind_run _ _ _ _ _ (loc_of_run _ _ _ Hx)).
Qed.

Lemma hash_remove_run s v l1 k x l2 :
  rep s v → v_large v = l1 ++ (k, x) :: l2 →
  let h := km_hash x.1 in
  km_hash_remove k s = Some (tt, link_large s h (last_or None (filter (in_bucket h) l1).*1)
    (head_or (filter (in_bucket h) l2).*1 None)).
Proof.
  intros Hrep Ev h. assert ((k, x) ∈ v_large v) as Hk by (rewrite Ev; set_solver).
  unfold km_hash_remove. rewrite (bind_run _ _ _ _ _ (hash_of_run _ _ _ _ Hrep Hk)).
  rewrite (bind_run chain_fuel _ s (S (size (kps s))) s) by done.
  rewrite (bind_run _ _ _ _ _ (bucket_run _ _)). fold h.
  eapply hash_remove_loop_run.
  - apply (rp_large _ _ Hrep).
  - rewrite Ev, filter_app, filter_cons, decide_True by done. by rewrite fmap_app, fmap_cons.
  - apply nodup_filter_fst, (rp_large _ _ Hrep).
  - rewrite length_fmap. pose proof (bucket_size s v h Hrep). lia.
  - intros q ([q' y] & -> & Hq%bucket_sub)%list_elem_of_fmap.
    destruct (large_some _ _ _ _ Hrep Hq) as (r & _ & ? & _). eauto.
  - done.
Qed.

(** ** Release *)

Lemma fst_fun {A} (l : list (Z * A)) q (x y : A) : NoDup l.*1 → (q, x) ∈ l → (q, y) ∈ l → x = y.
Proof.
  intros Hn (l1 & l2 & ->)%list_elem_of_split Hy. symmetry. by eapply fst_unique.
Qed.

(** The heads after [k] was removed from its chain *)
Record unlinked (s : kms) (K' : gmap Z km_p) (T' : gmap Z Z) (h : Z) (ks a c : list Z) : Prop := {
  un_next : ∀ q, q ∈ ks → hnext K' q = if decide (last_or None a = Some q) then head_or c None
                                     else hnext (kps s) q;
  un_bucket : T' !! h = if last_or None a then table s !! h else head_or c None;
  un_table : ∀ h', h' ≠ h → T' !! h' = table s !! h'
}.

Lemma large_blocks_remove s l1 k x l2 K' T' R' :
  let h := km_hash x.1 in
  let a := (filter (in_bucket h) l1).*1 in let c := (filter (in_bucket h) l2).*1 in
  large_blocks (kps s) (table s) (regs s) (l1 ++ (k, x) :: l2) →
  unlinked s K' T' h (l1 ++ l2).*1 a c →
  (∀ q y, (q, y) ∈ l1 ++ l2 → ∃ r r', kps s !! q = Some r ∧ K' !! q = Some r' ∧
     kp_magic r' = kp_magic r ∧ kp_self r' = kp_self r) →
  (∀ q y m, (q, y) ∈ l1 ++ l2 → regs s !! m = Some y → R' !! m = Some y) →
  large_blocks K' T' R' (l1 ++ l2).
Proof.
  intros h a c [Hn Hr Hc] [EN EB ET] ES ER.
  assert (∀ e, e ∈ l1 ++ l2 → e ∈ l1 ++ (k, x) :: l2) as Hsub by set_solver.
  pose proof Hn as Hn0. rewrite fmap_app, fmap_cons in Hn0. cbn in Hn0.
  split.
  - rewrite fmap_app. apply NoDup_app in Hn0 as (N1 & N2 & [_ N3]%NoDup_cons).
    apply NoDup_app. set_solver.
  - intros q y Hq. destruct (ES q y Hq) as (r & r' & E1 & E2 & E3 & E4).
    destruct (Hr q y (Hsub _ Hq)) as (r0 & m & E0 & ? & ? & ?). rewrite E1 in E0. injection E0 as <-.
    exists r', m. rewrite E3, E4. eauto.
  - intros h'. destruct (decide (h' = h)) as [-> | Hne].
    + rewrite EB, filter_app, fmap_app. eapply chain_remove.
      * specialize (Hc h). rewrite filter_app, filter_cons, decide_True, fmap_app, fmap_cons in Hc by done.
        exact Hc.
      * pose proof (nodup_filter_fst (in_bucket h) _ Hn) as Hf.
        by rewrite filter_app, filter_cons, decide_True, fmap_app, fmap_cons in Hf by done.
      * intros q Hq. apply EN. rewrite <- fmap_app, <- filter_app in Hq.
        apply list_elem_of_fmap in Hq as (e & -> & He%bucket_sub). by apply list_elem_of_fmap_2.
    + rewrite ET by done. specialize (Hc h'). rewrite filter_app, filter_cons, decide_False in Hc
        by (intros E; by apply Hne). rewrite filter_app. eapply chain_frame, Hc.
      intros q Hq. rewrite <- filter_app in Hq. apply list_elem_of_fmap in Hq as ([q' y] & -> & Hq).
      apply list_elem_of_filter in Hq as [Hin Hq]. cbn.
      rewrite EN, decide_False; [done | |].
      * intros [? | Ha]%last_or_in; [done |].
        apply list_elem_of_fmap in Ha as ([q0 y0] & -> & [Hin0 Hq0]%list_elem_of_filter).
        assert (y = y0) as -> by (eapply fst_fun; [exact Hn | by apply Hsub | apply Hsub; set_solver]).
        unfold in_bucket in *. cbn in *. congruence.
      * by apply (list_elem_of_fmap_2 fst _ (q', y)).
Qed.

Lemma exts_large_remove v l1 k x l2 :
  v_large v = l1 ++ (k, x) :: l2 →
  exts v ≡ₚ x :: exts (mk_view (v_small v) (v_med v) (v_free v) (l1 ++ l2)).
Proof.
  intros E. unfold exts. rewrite E. cbn. rewrite !fmap_app, !fmap_cons. cbn.
  by rewrite <- !Permutation_middle.
Qed.

Lemma link_large_unlinked s h o w :
  (∀ q, hnext (kps (link_large s h o w)) q =
     if decide (o = Some q) then (if kps s !! q then w else None) else hnext (kps s) q) ∧
  (table (link_large s h o w) !! h = if o then table s !! h else w) ∧
  (∀ h', h' ≠ h → table (link_large s h o w) !! h' = table s !! h') ∧
  (∀ q, o ≠ Some q → kps (link_large s h o w) !! q = kps s !! q) ∧
  (∀ q r, kps s !! q = Some r → ∃ r', kps (link_large s h o w) !! q = Some r' ∧
     kp_magic r' = kp_magic r ∧ kp_self r' = kp_self r).
Proof.
  unfold link_large. destruct s as [K B S2 T h1 t1 fr h2 t2 R D]. destruct o as [q0 |]; kcbn.
  - split_and!; auto.
    + intros q. unfold hnext. case_decide as E.
      * injection E as ->. rewrite lookup_alter_eq. by destruct (K !! q).
      * by rewrite lookup_alter_ne by congruence.
    + intros q Hq. by rewrite lookup_alter_ne by congruence.
    + intros q r Hr. destruct (decide (q0 = q)) as [-> |].
      * rewrite lookup_alter_eq, Hr. eexists. split; [done |]. done.
      * rewrite lookup_alter_ne by done. eauto.
  - split_and!; auto.
    + apply lookup_partial_alter_eq.
    + intros h' Hh. by apply lookup_partial_alter_ne.
    + eauto.
Qed.

Lemma kmr_free_run s k :
  k ∈ descrs s →
  kmr_free k s = Some (tt, set_kps (delete k (kps s)) (set_descrs (descrs s ∖ {[k]}) s)).
Proof.
  intros Hk. unfold kmr_free. erewrite bind_run by reflexivity.
  rewrite bool_decide_eq_true_2 by done. erewrite bind_run by reflexivity. done.
Qed.

Lemma lb_free_ok s v k x :
  rep s v → (k, x) ∈ v_large v →
  ∃ s' l1 l2, v_large v = l1 ++ (k, x) :: l2 ∧ km_lb_free k s = Some (tt, s') ∧
    rep s' (mk_view (v_small v) (v_med v) (v_free v) (l1 ++ l2)) ∧ med_kept v s s'.
Proof.
  intros Hrep Hk. pose proof Hk as (l1 & l2 & Ev)%list_elem_of_split.
  set (h := km_hash x.1). set (a := (filter (in_bucket h) l1).*1). set (c := (filter (in_bucket h) l2).*1).
  pose proof (hash_remove_run s v l1 k x l2 Hrep Ev) as Hrm. cbn in Hrm. fold h a c in Hrm.
  destruct (large_some _ _ _ _ Hrep Hk) as (r & m & Hr & Hm & Hx).
  pose proof (exts_large_remove v l1 k x l2 Ev) as Hex.
  set (v' := mk_view (v_small v) (v_med v) (v_free v) (l1 ++ l2)) in *.
  pose proof (rp_space _ _ Hrep) as Hsp. destruct Hsp as [Ha Hpos Hhd HD].
  pose proof (apart_perm _ _ Hex Ha) as Ha'.
  pose proof (lb_nodup _ _ _ _ (rp_large _ _ Hrep)) as Hnd. rewrite Ev, fmap_app, fmap_cons in Hnd. cbn in Hnd.
  assert (k ∉ (l1 ++ l2).*1) as Hkn.
  { rewrite fmap_app. apply NoDup_app in Hnd as (_ & H1 & [H2 _]%NoDup_cons). set_solver. }
  destruct (link_large_unlinked s h (last_or None a) (head_or c None)) as (U1 & U2 & U3 & U4 & U5).
  set (s1 := link_large s h (last_or None a) (head_or c None)) in *.
  destruct (U5 k r Hr) as (r1 & Hr1 & _ & Hself1).
  assert (regs s1 = regs s ∧ s1s s1 = s1s s ∧ s2s s1 = s2s s ∧ descrs s1 = descrs s) as (ER & E1 & E2 & ED).
  { unfold s1, link_large. destruct s, (last_or None a); done. }
  set (K' := delete k (outside x.1 x.2 (kps s1))).
  assert (∀ q, q ∉ (v_large v).*1 → ¬ within q x → K' !! q = kps s !! q) as EK.
  { intros q Hq Hw. unfold K'. rewrite lookup_delete_ne.
    2: { intros <-. by apply Hq, (list_elem_of_fmap_2 fst _ (k, x)). }
    rewrite (proj2 (outside_lookup x _ q) Hw). apply U4. intros [? | Hin]%last_or_in; [done |].
    apply list_elem_of_fmap in Hin as (e & -> & He%bucket_sub). apply Hq, list_elem_of_fmap_2.
    rewrite Ev. set_solver. }
  assert (∀ e, e ∈ exts v' → disj x e) as Hdj by (intros e; by apply apart_elem).
  assert (0 < x.2) as Hx0.
  { rewrite Forall_forall in Hpos. by apply (Hpos x (large_ext _ _ _ Hk)). }
  assert (∀ q y, (q, y) ∈ l1 ++ l2 → ∃ r r', kps s !! q = Some r ∧ K' !! q = Some r' ∧
     kp_magic r' = kp_magic r ∧ kp_self r' = kp_self r) as ES.
  { intros q y Hq. destruct (large_some s v q y Hrep) as (rq & _ & Hrq & _); [rewrite Ev; set_solver |].
    destruct (U5 q rq Hrq) as (r' & Hr' & ? & ?). exists rq, r'. split; [done |]. split; [| done].
    apply (list_elem_of_fmap_2 fst) in Hq as Hq'. unfold K'. rewrite lookup_delete_ne by set_solver.
    rewrite (proj2 (outside_lookup x _ q)); [done |]. apply Hhd; [| by eapply large_ext].
    rewrite Ev, fmap_app, fmap_cons. rewrite fmap_app in Hq'. set_solver. }
  eexists (mk_kms K' (outside x.1 x.2 (s1s s)) (outside x.1 x.2 (s2s s)) (table s1) (s1_head s) (s1_tail s)
    (s1_free s) (s2_head s) (s2_tail s) (delete m (regs s)) (descrs s ∖ {[k]})), l1, l2.
  split; [done |]. split; [| split].
  - unfold km_lb_free. rewrite (bind_run _ _ _ _ _ Hrm). rewrite (bind_run _ _ _ _ _ (getkp_run _ _ _ Hr1)).
    rewrite (bind_run (nonnull (kp_self r1)) _ s1 m s1) by (by unfold nonnull, mderef; rewrite Hself1, Hm).
    erewrite bind_run; [| apply (free_region_run s1 m x); by rewrite ER].
    rewrite kmr_free_run.
    + unfold K', s1, link_large. destruct s, (last_or None a); done.
    + assert (k ∈ descrs s) as Hkd.
      { rewrite HD. apply elem_of_list_to_set. by apply (list_elem_of_fmap_2 fst _ (k, x)). }
      rewrite <- ED in Hkd. by destruct s1.
  - pose proof Hrep as [Hs Hff Hmd Hfl Hlg _].
    assert (∀ p, (p, PAGESIZE) ∈ exts v' → K' !! p = kps s !! p) as EKp.
    { intros p Hp. apply EK.
      - intros Hin. apply (page_not_head s v Hrep p p); [rewrite Hex; set_solver | done | done].
      - specialize (Hdj _ Hp). unfold disj, within, PAGESIZE in *. cbn in *. lia. }
    assert (∀ p m', regs s !! m' = Some (p, PAGESIZE) → (p, PAGESIZE) ∈ exts v' →
      delete m (regs s) !! m' = Some (p, PAGESIZE)) as ERp.
    { intros p m' Hm' Hp. rewrite lookup_delete_ne; [done |]. intros ->. rewrite Hx in Hm'. injection Hm' as ->.
      specialize (Hdj _ Hp). unfold disj, PAGESIZE in Hdj. cbn in Hdj. lia. }
    split; cbn; auto.
    + eapply small_pages_frame, Hs.
      * intros p F HF. apply EKp. by eapply (small_ext v').
      * intros p F b HF Hw. apply (outside_lookup x). specialize (Hdj _ (small_ext v' _ _ HF)).
        unfold disj, within in *. cbn in *. lia.
      * intros b [rb Hb]. apply map_lookup_filter_Some in Hb as [? _]. eauto.
      * intros p F m' HF Hm'. apply ERp; [done |]. by eapply (small_ext v').
    + rewrite Forall_forall in *. intros [p bs] Hp. specialize (Hmd _ Hp). cbn in *.
      eapply med_page_frame, Hmd; [apply EKp; by eapply (med_ext v') | |].
      * intros b Hb. destruct (med_block_within _ _ _ _ _ _ Hmd Hb) as [Hw _]. f_equal.
        apply (outside_lookup x). specialize (Hdj _ (med_ext v' _ _ Hp)). unfold disj, within in *. cbn in *. lia.
      * intros m' Hm'. apply ERp; [done |]. by eapply (med_ext v').
    + eapply free_list_frame, Hfl. intros b (p & bs & Hp & Hb)%med_block_ext.
      rewrite Forall_forall in Hmd. destruct (med_block_within _ _ _ _ _ _ (Hmd _ Hp) Hb) as [Hw _].
      apply (outside_lookup x). specialize (Hdj _ (med_ext v' _ _ Hp)). unfold disj, within in *. cbn in *. lia.
    + rewrite Ev in Hlg. eapply large_blocks_remove; [exact Hlg | | exact ES |].
      * split; [| exact U2 | exact U3]. intros q Hq.
        assert (q ≠ k) as Hqk by (intros ->; done).
        assert (¬ within q x) as Hqw.
        { apply Hhd; [| by eapply large_ext]. rewrite Ev, fmap_app, fmap_cons. rewrite fmap_app in Hq. set_solver. }
        specialize (U1 q). unfold hnext at 1 in U1. unfold hnext at 1, K'.
        rewrite lookup_delete_ne, (proj2 (outside_lookup x _ q) Hqw) by done. rewrite U1.
        fold h a c. case_decide; [| done].
        apply list_elem_of_fmap in Hq as ([q' y] & -> & Hq). destruct (ES q' y Hq) as (rq & _ & Hrq & _).
        cbn. by rewrite Hrq.
      * intros q y m' Hq Hm'. rewrite lookup_delete_ne; [done |]. intros ->. rewrite Hx in Hm'. injection Hm' as <-.
        specialize (Hdj x (large_ext v' _ _ Hq)). unfold disj in Hdj. lia.
    + split; cbn.
      * apply Ha'.
      * rewrite Hex in Hpos. by apply Forall_cons in Hpos as [_ ?].
      * intros q e Hq He. apply Hhd; [| rewrite Hex; set_solver].
        rewrite Ev, fmap_app, fmap_cons. rewrite fmap_app in Hq. set_solver.
      * rewrite HD, Ev, fmap_app, fmap_cons. rewrite fmap_app in Hkn |- *. cbn.
        rewrite !list_to_set_app_L. cbn. set_solver.
  - intros q bs b Hq Hb. apply (outside_lookup x). 
    pose proof (rp_med _ _ Hrep) as Hf. rewrite Forall_forall in Hf.
    destruct (med_block_within _ _ _ _ _ _ (Hf _ Hq) Hb) as [Hw _].
    specialize (Hdj _ (med_ext v' _ _ Hq)). unfold disj, within in *. cbn in *. lia.
Qed.

(** ** Allocation *)

Lemma lb_size_spec size :
  0 ≤ size ≤ 4294959088 → 0 ≤ lb_size size < 4294967296 ∧ size ≤ region_size (lb_size size).
Proof.
  intros Hs. assert (lb_size size = (if size <? PAGESIZE then PAGESIZE else 16 * ((size + 15) / 16))) as E.
  { unfold lb_size. case_bool; [done |]. change (Z.lnot 15) with (Z.lnot (Z.ones 4)).
    rewrite <- Z.ldiff_land, Z.ldiff_ones_r by lia. rewrite Z.shiftl_mul_pow2, Z.shiftr_div_pow2 by lia.
    rewrite u32_id by lia. change (2 ^ 4) with 16. lia. }
  assert (0 ≤ lb_size size ≤ 4294959104 ∧ size ≤ lb_size size) as [H1 H2].
  { rewrite E. unfold PAGESIZE. case_bool; bool_to_prop; Z.div_mod_to_equations; lia. }
  split; [lia |]. destruct (region_size_spec (lb_size size)) as (H0 & _ & H3); [lia |].
  destruct (H3 ltac:(lia)) as [? | [? ?]]; lia.
Qed.

(** The state with the new head [k] *)
Definition large_head (s : kms) (k n : Z) (sz : Z) (hn : option Z) : km_p :=
  set_kp_hnext hn (set_kp_magic LB_MAGIC (set_kp_size (u16 (Z.shiftr sz 4))
    (set_kp_self (Some n) raw_page))).
Definition with_large (s : kms) (k n l sz : Z) : kms :=
  mk_kms (<[k := large_head s k n sz (table s !! km_hash l)]> (kps s)) (s1s s) (s2s s)
    (<[km_hash l := k]> (table s)) (s1_head s) (s1_tail s) (s1_free s) (s2_head s) (s2_tail s)
    (<[n := (l, region_size sz)]> (regs s)) ({[k]} ∪ descrs s).

Lemma lb_malloc_run s sp size m k n l :
  sp_descr sp = Some m → sp_head sp = Some k → granted sp = Some (n, l) →
  supply_ok s sp (lb_size size) →
  km_lb_malloc sp size s = Some (Some l, with_large s k n l (lb_size size)).
Proof.
  intros Em Ek Eg [Hd Hh _]. destruct (Hd m Em) as [D1 D2 _ _]. destruct (Hh k Ek) as [[K1 K2 _ _] Hne].
  assert (m ≠ k) as Hmk by congruence.
  unfold km_lb_malloc. rewrite Em, Ek. destruct s as [K B S2 T h1 t1 fr h2 t2 R D]. cbn in *.
  erewrite bind_run by reflexivity. erewrite bind_run by reflexivity.
  erewrite bind_run; [| rewrite km_malloc_run, Eg by (kcbn; first [done | set_solver]); reflexivity].
  kcbn. change (default l (Some k)) with k. rewrite K2. change (default raw_page None) with raw_page.
  assert (({[k]} ∪ ({[m]} ∪ D)) ∖ {[m]} = {[k]} ∪ D) as -> by set_solver.
  kstep. rewrite insert_insert_eq.
  assert (∀ K0 T0 st, kps st = K0 → table st = T0 → regs st = <[n := (l, region_size (lb_size size))]> R →
    ∀ r0, K0 !! k = Some r0 → kp_self r0 = Some n → hash_of k st = Some (km_hash l, st)) as Hh0.
  { intros K0 T0 st <- <- HR r0 Hr0 Hs0. unfold hash_of. rewrite (bind_run _ _ _ _ _ (getkp_run _ _ _ Hr0)).
    rewrite (bind_run (nonnull (kp_self r0)) _ st n st) by (by unfold nonnull, mderef; rewrite Hs0).
    erewrite bind_run; [| apply (loc_of_run _ _ (l, region_size (lb_size size)))]; [done |].
    by rewrite HR, lookup_insert_eq. }
  unfold km_hash_insert. rewrite bind_assoc. erewrite bind_run.
  2: { eapply Hh0; [reflexivity.. | kcbn; apply lookup_insert_eq | done]. }
  do 5 kstep. rewrite insert_insert_eq.
  erewrite bind_run; [| apply (loc_of_run _ _ (l, region_size (lb_size size))); kcbn; apply lookup_insert_eq].
  done.
Qed.

Lemma with_large_rep s v sp k n l sz :
  rep s v → supply_ok s sp sz → sp_head sp = Some k → granted sp = Some (n, l) → 0 < region_size sz →
  rep (with_large s k n l sz)
    (mk_view (v_small v) (v_med v) (v_free v) ((k, (l, region_size sz)) :: v_large v)).
Proof.
  intros Hrep [_ Hh Hg] Ek Eg Hsz. destruct (Hh k Ek) as [Hfd _].
  destruct (Hg n l Eg) as (Hn & Hfr & Hkw). specialize (Hkw k Ek).
  set (x := (l, region_size sz)) in *.
  assert (∀ e, e ∈ exts v → disj x e) as Hdj by (intros e; by eapply fresh_disj).
  assert (∀ e, e ∈ exts v → ¬ within k e) as Hke by (intros e; by eapply fresh_not_within).
  pose proof Hrep as [Hs Hff Hm Hfl Hlg [A1 A2 A3 A4]].
  assert (k ∉ (v_large v).*1) as Hkn.
  { intros Hin. apply (fd_descrs _ _ Hfd). rewrite A4. by apply elem_of_list_to_set. }
  assert (∀ p, (p, PAGESIZE) ∈ exts v → p ≠ k) as Hpk.
  { intros p Hp ->. apply (Hke _ Hp). unfold within, PAGESIZE. cbn. lia. }
  assert (∀ m y, regs s !! m = Some y → <[n := x]> (regs s) !! m = Some y) as ER.
  { intros m y Hy. rewrite lookup_insert_ne; [done | congruence]. }
  unfold with_large. split; cbn [kps s1s s2s table s1_head s1_tail s1_free s2_head s2_tail regs descrs
    v_small v_med v_free v_large]; auto.
  - eapply small_pages_frame, Hs; auto. intros p F HF. rewrite lookup_insert_ne; [done |].
    apply not_eq_sym, Hpk. by eapply small_ext.
  - rewrite Forall_forall in *. intros [p bs] Hp. eapply med_page_frame, (Hm _ Hp); auto. cbn.
    rewrite lookup_insert_ne; [done |]. apply not_eq_sym, Hpk. by eapply med_ext.
  - destruct Hlg as [B1 B2 B3]. split.
    + cbn. by apply NoDup_cons.
    + intros q y [[= -> ->] | Hq]%elem_of_cons.
      * eexists _, n. rewrite lookup_insert_eq. split; [done |]. split_and!; [done | done |].
        apply lookup_insert_eq.
      * destruct (B2 q y Hq) as (r & m & ? & ? & ? & ?). exists r, m. rewrite lookup_insert_ne; [auto 10 |].
        intros ->. by apply Hkn, (list_elem_of_fmap_2 fst _ (q, y)).
    + intros h. rewrite filter_cons. unfold in_bucket at 1. cbn [fst snd x]. case_decide as Eh.
      * subst h. rewrite lookup_insert_eq. cbn [fmap list_fmap fst]. split; [done |].
        unfold hnext at 2. rewrite lookup_insert_eq. cbn. eapply chain_frame, B3.
        intros q (e & -> & He%bucket_sub)%list_elem_of_fmap. unfold hnext.
        rewrite lookup_insert_ne; [done |]. intros ->. by apply Hkn, list_elem_of_fmap_2.
      * rewrite lookup_insert_ne by done. eapply chain_frame, B3.
        intros q (e & -> & He%bucket_sub)%list_elem_of_fmap. unfold hnext.
        rewrite lookup_insert_ne; [done |]. intros ->. by apply Hkn, list_elem_of_fmap_2.
  - assert (exts (mk_view (v_small v) (v_med v) (v_free v) ((k, x) :: v_large v)) ≡ₚ x :: exts v) as Hex.
    { unfold exts. cbn. by rewrite <- !Permutation_middle. }
    pose proof (fr_pos _ _ Hfr) as [P1 P2].
    split.
    + eapply apart_perm; [symmetry; exact Hex |]. split; [by apply Forall_forall | done].
    + rewrite Hex. constructor; [split_and!; auto | done].
    + intros q e Hq. rewrite Hex. intros [-> | He]%elem_of_cons.
      * cbn in Hq. apply elem_of_cons in Hq as [-> | Hq]; [done |].
        apply (fr_descrs _ _ Hfr). rewrite A4. by apply elem_of_list_to_set.
      * cbn in Hq. apply elem_of_cons in Hq as [-> | Hq]; auto.
    + cbn. by rewrite A4.
Qed.

(** Without two descriptors and a region the answer is a null pointer, and nothing changed. *)
Lemma lb_malloc_none s sp size :
  supply_ok s sp (lb_size size) → sp_descr sp = None ∨ sp_head sp = None ∨ granted sp = None →
  km_lb_malloc sp size s = Some (None, s).
Proof.
  intros [Hd Hh _] Hnone. unfold km_lb_malloc. destruct s as [K B S2 T h1 t1 fr h2 t2 R D].
  destruct (sp_descr sp) as [m |] eqn:Em, (sp_head sp) as [k |] eqn:Ek.
  - assert (granted sp = None) as Eg by naive_solver.
    destruct (Hd m eq_refl) as [D1 D2 _ _]. destruct (Hh k eq_refl) as [[K1 K2 _ _] Hne]. cbn in *.
    assert (m ≠ k) as Hmk by congruence.
    erewrite bind_run by reflexivity. erewrite bind_run by reflexivity.
    erewrite bind_run; [| rewrite km_malloc_run, Eg by (kcbn; first [done | set_solver]); reflexivity].
    kcbn. erewrite bind_run; [| apply kmr_free_run; kcbn; set_solver].
    erewrite bind_run; [| apply kmr_free_run; kcbn; set_solver]. kcbn.
    assert (({[k]} ∪ ({[m]} ∪ D)) ∖ {[m]} ∖ {[k]} = D) as -> by set_solver. by rewrite !delete_id by (rewrite ?lookup_delete_None; auto).
  - destruct (Hd m eq_refl) as [D1 D2 _ _]. cbn in *.
    do 2 (erewrite bind_run by reflexivity). cbn. kstep.
    erewrite bind_run; [| apply kmr_free_run; kcbn; set_solver]. kcbn.
    assert (({[m]} ∪ D) ∖ {[m]} = D) as -> by set_solver. by rewrite delete_id.
  - destruct (Hh k eq_refl) as [[K1 K2 _ _] _]. cbn in *.
    do 2 (erewrite bind_run by reflexivity). cbn. do 2 kstep.
    erewrite bind_run; [| apply kmr_free_run; kcbn; set_solver]. kcbn.
    assert (({[k]} ∪ D) ∖ {[k]} = D) as -> by set_solver. by rewrite delete_id.
  - done.
Qed.
