(* ===== verification/KAlloc.v ===== *)
(** * The heap refines a map of areas (sys/kmemory.c)

    [_kmalloc] adds an area to the map of what was handed out, [_kfree] removes one; the
    areas never overlap. *)

From S2P Require Import Prelude CInt Memory Linked KMem KHeap KMedium KLarge.

(** The areas of [L] (length by address) are in use in [s], and there is a small block left. *)
Definition heap (s : kms) (L : gmap Z Z) : Prop :=
  ∃ v, rep s v ∧ first_free (v_small v) ≠ None ∧ ∀ a c, L !! a = Some c → in_use s v a c.

(** ** Where the areas are *)

Section where_.
Context (s : kms) (v : view) (Hrep : rep s v).

Lemma small_disj p F q G :
  (p, F) ∈ v_small v → (q, G) ∈ v_small v → p ≠ q → disj (p, PAGESIZE) (q, PAGESIZE).
Proof.
  intros Hp Hq Hne. eapply apart_two; [apply Hrep | by eapply small_ext | by eapply small_ext |]. congruence.
Qed.

Lemma small_med_disj p F q bs :
  (p, F) ∈ v_small v → (q, bs) ∈ v_med v → disj (p, PAGESIZE) (q, PAGESIZE).
Proof.
  intros Hp Hq. destruct (rp_space _ _ Hrep) as [Ha _ _ _].
  apply (list_elem_of_fmap_2 fst), (list_elem_of_fmap_2 page_ext) in Hp, Hq.
  eapply apart_app; [exact Ha | exact Hp |]. apply elem_of_app. by left.
Qed.

Lemma page_large_disj p k x :
  p ∈ (v_small v).*1 ∨ p ∈ (v_med v).*1 → (k, x) ∈ v_large v → disj (p, PAGESIZE) x.
Proof.
  intros Hp Hk. destruct (rp_space _ _ Hrep) as [Ha _ _ _]. unfold exts in Ha. rewrite app_assoc in Ha.
  eapply apart_app; [exact Ha | | by apply (list_elem_of_fmap_2 snd _ (k, x))].
  rewrite elem_of_app. destruct Hp; [left | right]; by apply (list_elem_of_fmap_2 page_ext).
Qed.

Lemma large_disj k x k' x' :
  (k, x) ∈ v_large v → (k', x') ∈ v_large v → x ≠ x' → disj x x'.
Proof.
  intros Hk Hk' Hne. eapply apart_two; [apply Hrep | by eapply large_ext | by eapply large_ext | done].
Qed.

Lemma used_med_within b z :
  used_med s v b z → ∃ p bs, (p, bs) ∈ v_med v ∧ b ∈ bs ∧ p + P__HEAD ≤ b ∧ 32 ≤ z ∧ b + z ≤ p + PAGESIZE.
Proof.
  intros [(p & bs & Hp & Hb)%med_block_ext Hu]. pose proof (rp_med _ _ Hrep) as Hm.
  rewrite Forall_forall in Hm. destruct (med_block_within _ _ _ _ _ _ (Hm _ Hp) Hb) as (_ & r & Hr & B1 & B2 & B3 & _).
  rewrite Hr in Hu. cbn in Hu. unfold use_of in Hu. injection Hu as <- _. cbn in *. exists p, bs. auto.
Qed.

Lemma small_within p b : b ∈ small_blocks p → p + P__HEAD ≤ b ∧ b + S1_SIZE ≤ p + PAGESIZE.
Proof.
  intros (i & -> & Hi%elem_of_seq)%list_elem_of_fmap. change S1_BLOCKS with 170%nat in Hi.
  unfold block_at, S1_SIZE, PAGESIZE. change P__HEAD with 32. lia.
Qed.

Lemma small_apart p b b' : b ∈ small_blocks p → b' ∈ small_blocks p → b ≠ b' → b + S1_SIZE ≤ b' ∨ b' + S1_SIZE ≤ b.
Proof.
  intros (i & -> & _)%list_elem_of_fmap (j & -> & _)%list_elem_of_fmap. unfold block_at, S1_SIZE. lia.
Qed.

(** An area is in the memory that the heap holds. *)
Lemma in_use_ext a c :
  in_use s v a c → ∃ e, e ∈ exts v ∧ e.1 ≤ a ∧ a + c ≤ e.1 + e.2 ∧ 0 < c ∧ 0 < a ∧ a + c ≤ 4294967296.
Proof.
  pose proof (so_pos _ _ (rp_space _ _ Hrep)) as Hpos. rewrite Forall_forall in Hpos.
  assert (∀ e, e ∈ exts v → e.1 ≤ a → a + c ≤ e.1 + e.2 → 0 < c →
    ∃ e, e ∈ exts v ∧ e.1 ≤ a ∧ a + c ≤ e.1 + e.2 ∧ 0 < c ∧ 0 < a ∧ a + c ≤ 4294967296) as Hgo.
  { intros e He H1 H2 H3. specialize (Hpos e He). exists e. split; [done | lia]. }
  intros [p F Hp [B1 B2]%small_within _ -> | (p & bs & Hp & _ & B1 & B2 & B3)%used_med_within | k Hk].
  - unfold S1_MAX, S1_HEAD, S__HEAD, S1_SIZE in *. change P__HEAD with 32 in *.
    apply (Hgo (p, PAGESIZE)); cbn; [by eapply small_ext | lia..].
  - unfold S2_HEAD, S__HEAD in *. change P__HEAD with 32 in *.
    apply (Hgo (p, PAGESIZE)); cbn; [by eapply med_ext | lia..].
  - pose proof (large_ext _ _ _ Hk) as He. specialize (Hpos _ He). apply (Hgo (a, c)); cbn in *; [done | lia..].
Qed.

(** Where an area is: in a page, or all of a large block *)
Inductive home (a c : Z) : Prop :=
| home_small p F : (p, F) ∈ v_small v → a - S1_HEAD ∈ small_blocks p → c = S1_MAX →
    p + 36 ≤ a → a + c ≤ p + PAGESIZE → home a c
| home_med p bs : (p, bs) ∈ v_med v → a - S2_HEAD ∈ bs → use_of <$> s2s s !! (a - S2_HEAD) = Some (c + S2_HEAD, false) →
    p + 52 ≤ a → 12 ≤ c → a + c ≤ p + PAGESIZE → home a c
| home_large k : (k, (a, c)) ∈ v_large v → 0 < c → home a c.

Lemma in_use_home a c : in_use s v a c → home a c.
Proof.
  intros [p F Hp Hb _ -> | Hu | k Hk].
  - destruct (small_within _ _ Hb) as [B1 B2]. unfold S1_MAX, S1_HEAD, S__HEAD, S1_SIZE in *.
    change P__HEAD with 32 in *. eapply home_small; [done.. | |]; unfold S1_MAX, S1_HEAD, S__HEAD, S1_SIZE; lia.
  - destruct (used_med_within _ _ Hu) as (p & bs & Hp & Hb & B1 & B2 & B3).
    unfold S2_HEAD, S__HEAD in *. change P__HEAD with 32 in *.
    eapply home_med; [exact Hp | exact Hb | apply Hu | lia..].
  - pose proof (so_pos _ _ (rp_space _ _ Hrep)) as Hpos. rewrite Forall_forall in Hpos.
    specialize (Hpos _ (large_ext _ _ _ Hk)). eapply home_large; [done | apply Hpos].
Qed.

(** Two areas of one kind in one page *)
Lemma home_med_same p bs a c b d :
  (p, bs) ∈ v_med v → a - S2_HEAD ∈ bs → b - S2_HEAD ∈ bs → a ≠ b →
  use_of <$> s2s s !! (a - S2_HEAD) = Some (c + S2_HEAD, false) →
  use_of <$> s2s s !! (b - S2_HEAD) = Some (d + S2_HEAD, false) → disj (a, c) (b, d).
Proof.
  intros Hp Ha Hb Hne Ua Ub. pose proof (rp_med _ _ Hrep) as Hm. rewrite Forall_forall in Hm.
  pose proof (mp_tiles _ _ _ _ _ (Hm _ Hp)) as Ht. cbn in Ht.
  destruct (s2s s !! (a - S2_HEAD)) as [ra |] eqn:Ea; [| done].
  destruct (s2s s !! (b - S2_HEAD)) as [rb |] eqn:Eb; [| done].
  cbn in Ua, Ub. unfold use_of in Ua, Ub. injection Ua as Ua _. injection Ub as Ub _.
  assert (disj (a - S2_HEAD, m_size ra) (b - S2_HEAD, m_size rb)) as Hd.
  { eapply tiles_disj; [exact Ht | done | done | lia | done | done]. }
  unfold disj, S2_HEAD, S__HEAD in *. cbn in *. lia.
Qed.

(** Two areas do not overlap. *)
Lemma in_use_apart a c b d :
  in_use s v a c → in_use s v b d → a ≠ b → disj (a, c) (b, d).
Proof.
  intros [p F Hp Hpb -> P1 P2 | p bs Hp Hpb Pu P1 P2 P3 | k Hk Kc]%in_use_home
    [q G Hq Hqb -> Q1 Q2 | q cs Hq Hqb Qu Q1 Q2 Q3 | k' Hk' Kc']%in_use_home Hne.
  - destruct (decide (p = q)) as [<- | Hpq].
    + destruct (small_apart _ _ _ Hpb Hqb) as [? | ?]; [lia | |];
        unfold disj, S1_MAX, S1_HEAD, S__HEAD, S1_SIZE in *; cbn; lia.
    + pose proof (small_disj _ _ _ _ Hp Hq Hpq). unfold disj in *. cbn in *. lia.
  - pose proof (small_med_disj _ _ _ _ Hp Hq). unfold disj in *. cbn in *. lia.
  - assert (disj (p, PAGESIZE) (b, d)) by (eapply page_large_disj; [left; by apply (list_elem_of_fmap_2 fst) in Hp | done]).
    unfold disj in *. cbn in *. lia.
  - pose proof (small_med_disj _ _ _ _ Hq Hp). unfold disj in *. cbn in *. lia.
  - destruct (decide (p = q)) as [<- | Hpq].
    + rewrite <- (fst_fun _ _ _ _ (med_nodup _ _ Hrep) Hp Hq) in Hqb.
      exact (home_med_same p bs a c b d Hp Hpb Hqb Hne Pu Qu).
    + pose proof (med_pages_disj _ _ _ _ _ _ Hrep Hp Hq Hpq). unfold disj in *. cbn in *. lia.
  - assert (disj (p, PAGESIZE) (b, d)) by (eapply page_large_disj; [right; by apply (list_elem_of_fmap_2 fst) in Hp | done]).
    unfold disj in *. cbn in *. lia.
  - assert (disj (q, PAGESIZE) (a, c)) by (eapply page_large_disj; [left; by apply (list_elem_of_fmap_2 fst) in Hq | done]).
    unfold disj in *. cbn in *. lia.
  - assert (disj (q, PAGESIZE) (a, c)) by (eapply page_large_disj; [right; by apply (list_elem_of_fmap_2 fst) in Hq | done]).
    unfold disj in *. cbn in *. lia.
  - eapply large_disj; [done.. | congruence].
Qed.
End where_.

(** ** Allocation *)

(** What the request needs from the memory regions and the store of descriptors. *)
Definition request_ok (s : kms) (sp : supply) (size : Z) : Prop :=
  1 ≤ size ≤ 4294959088 ∧
  (if size <? S2_LIMIT then grows s sp
   else supply_ok s sp (lb_size size) ∧ sp_descr sp ≠ None ∧ sp_head sp ≠ None ∧ granted sp ≠ None).

Lemma heap_add (L : gmap Z Z) s' v' a c :
  (∀ b d, L !! b = Some d → in_use s' v' b d) → in_use s' v' a c →
  ∀ b d, <[a := c]> L !! b = Some d → in_use s' v' b d.
Proof.
  intros HL Ha b d. destruct (decide (b = a)) as [-> |].
  - rewrite lookup_insert_eq. by intros [= <-].
  - rewrite lookup_insert_ne by done. auto.
Qed.

Lemma fresh_lookup (L : gmap Z Z) s v a :
  (∀ a c, L !! a = Some c → in_use s v a c) → (∀ c, ¬ in_use s v a c) → L !! a = None.
Proof. destruct (L !! a) as [c |] eqn:E; [| done]. intros H1 H2. by destruct (H2 c); apply H1. Qed.

(** A small block *)
Lemma small_alloc s v sp L :
  rep s v → first_free (v_small v) ≠ None → (∀ a c, L !! a = Some c → in_use s v a c) → grows s sp →
  ∃ a s', km_s1_malloc 2 sp s = Some (Some a, s') ∧ L !! a = None ∧ heap s' (<[a := S1_MAX]> L).
Proof.
  intros Hrep Hff HL Hg.
  destruct (s1_malloc_ok s v sp Hrep Hff Hg) as (x & s' & v' & Hrun & Hrep' & Hff' & E2 & Em & El & Hle & p & F & Hp & Hx & HF & Hall).
  assert (∀ a c, in_use s v a c → in_use s' v' a c) as Hkeep.
  { intros a c [q G Hq Hb Hn -> | [Hj Hu] | k Hk].
    - destruct (Hle q G Hq) as (G' & HG' & Hsub). eapply use_small; [exact HG' | done | set_solver | done].
    - apply use_med. split; [by rewrite Em | by rewrite E2].
    - eapply use_large. by rewrite El. }
  assert (x + S1_HEAD - S1_HEAD = x) as Ex by lia.
  assert (∀ c, ¬ in_use s v (x + S1_HEAD) c) as Hfresh.
  { intros c Hu. destruct (small_within _ _ Hx) as [X1 X2]. unfold S1_SIZE in X2. change P__HEAD with 32 in X1.
    destruct Hu as [q G Hq Hb Hn -> | Hu | k Hk].
    - rewrite Ex in *. destruct (Hle q G Hq) as (G' & HG' & _).
      assert (q = p) as -> by (eapply small_blocks_page; [by eapply small_pages_elem, HG'; apply Hrep' |
        by eapply small_pages_elem, Hp; apply Hrep' | done | done]).
      by apply Hn, Hall.
    - destruct (used_med_within s v Hrep _ _ Hu) as (q & bs & Hq & _ & B1 & B2 & B3). rewrite <- Em in Hq.
      pose proof (small_med_disj s' v' Hrep' _ _ _ _ Hp Hq). unfold disj, S1_HEAD, S2_HEAD, S__HEAD in *.
      change P__HEAD with 32 in *. cbn in *. lia.
    - rewrite <- El in Hk. assert (in_use s' v' (x + S1_HEAD) c) as Hc by (by eapply use_large).
      destruct (in_use_ext s' v' Hrep' _ _ Hc) as (_ & _ & _ & _ & Hc0 & _).
      assert (disj (p, PAGESIZE) (x + S1_HEAD, c)) by
        (eapply page_large_disj; [exact Hrep' | left; by apply (list_elem_of_fmap_2 fst) in Hp | exact Hk]).
      unfold disj, S1_HEAD, S__HEAD in *. cbn in *. lia. }
  exists (x + S1_HEAD), s'. split; [done |]. split; [by eapply fresh_lookup |].
  exists v'. split; [done |]. split; [done |]. apply heap_add; [auto |].
  eapply use_small; [exact Hp | by rewrite Ex | by rewrite Ex | done].
Qed.

(** A medium block *)
Lemma med_alloc s v s' v' new z L :
  rep s v → rep s' v' → (∀ a c, L !! a = Some c → in_use s v a c) → med_taken s s' v v' new z →
  first_free (v_small v) ≠ None →
  L !! (new + S2_HEAD) = None ∧ heap s' (<[new + S2_HEAD := z - S2_HEAD]> L).
Proof.
  intros Hrep Hrep' HL [M1 M2 M3 M4 M5] Hff.
  assert (∀ a c, in_use s v a c → in_use s' v' a c) as Hkeep.
  { intros a c [q G Hq Hb Hn -> | Hu | k Hk].
    - apply (use_small _ _ _ _ q G); [by rewrite M4 | done..].
    - by apply use_med, M3.
    - eapply use_large. by rewrite M5. }
  assert (new + S2_HEAD - S2_HEAD = new) as Ex by lia.
  destruct (used_med_within s' v' Hrep' _ _ M1) as (p & bs & Hp & _ & B1 & B2 & B3).
  unfold S2_HEAD, S__HEAD in *. change P__HEAD with 32 in *.
  assert (∀ c, ¬ in_use s v (new + (16 + 4)) c) as Hfresh.
  { intros c Hu. pose proof (in_use_ext s v Hrep _ _ Hu) as (_ & _ & _ & _ & Hc0 & _).
    destruct Hu as [q G Hq Hb Hn -> | Hu | k Hk].
    - destruct (small_within _ _ Hb) as [X1 X2]. rewrite <- M4 in Hq.
      pose proof (small_med_disj s' v' Hrep' _ _ _ _ Hq Hp). unfold disj, S1_HEAD, S__HEAD, S1_SIZE in *.
      change P__HEAD with 32 in *. cbn in *. lia.
    - unfold S2_HEAD, S__HEAD in Hu. rewrite Ex in Hu. by eapply M2.
    - rewrite <- M5 in Hk. assert (disj (p, PAGESIZE) (new + (16 + 4), c)) by
        (eapply page_large_disj; [exact Hrep' | right; by apply (list_elem_of_fmap_2 fst) in Hp | exact Hk]).
      unfold disj in *. cbn in *. lia. }
  split; [by eapply fresh_lookup |]. exists v'. split; [done |]. split; [by rewrite M4 |].
  apply heap_add; [auto |]. apply use_med. unfold S2_HEAD, S__HEAD. rewrite Ex.
  by replace (z - (16 + 4) + (16 + 4)) with z by lia.
Qed.

(** A large block *)
Lemma large_alloc s v sp k n l sz L :
  rep s v → supply_ok s sp sz → sp_head sp = Some k → granted sp = Some (n, l) → 0 < region_size sz →
  (∀ a c, L !! a = Some c → in_use s v a c) → first_free (v_small v) ≠ None →
  L !! l = None ∧ heap (with_large s k n l sz) (<[l := region_size sz]> L).
Proof.
  intros Hrep Hsu Ek Eg Hsz HL Hff. pose proof (with_large_rep s v sp k n l sz Hrep Hsu Ek Eg Hsz) as Hrep'.
  destruct (su_region _ _ _ Hsu n l Eg) as (_ & Hfr & _). split.
  - eapply fresh_lookup; [apply HL |]. intros c Hu.
    destruct (in_use_ext s v Hrep _ _ Hu) as (e & He & A1 & A2 & A3 & _).
    pose proof (fresh_disj s v _ e Hrep Hfr He). unfold disj in *. cbn in *. lia.
  - eexists. split; [exact Hrep' |]. split; [done |]. apply heap_add; [| eapply (use_large _ _ _ _ k); cbn; set_solver].
    intros b d Hb. destruct (HL b d Hb) as [q G Hq Hbl Hn -> | [Hj Hu] | k' Hk'].
    + by eapply use_small.
    + by apply use_med.
    + eapply (use_large _ _ _ _ k'). cbn. set_solver.
Qed.

Lemma heap_alloc s L sp size :
  heap s L → request_ok s sp size →
  ∃ a c s', _kmalloc sp size s = Some (Some a, s') ∧ size ≤ c ∧ L !! a = None ∧ heap s' (<[a := c]> L).
Proof.
  intros (v & Hrep & Hff & HL) [Hs Hreq]. unfold _kmalloc.
  rewrite (bind_run _ _ _ _ _ (massert_run _ s (proj2 (negb_true_iff _) (proj2 (Z.eqb_neq size 0) ltac:(lia))))).
  change S1_MAX with 44. change S2_LIMIT with 8096 in *.
  destruct (Z.leb_spec size 44) as [H44 | H44].
  - rewrite (proj2 (Z.ltb_lt _ _)) in Hreq by lia.
    destruct (small_alloc s v sp L Hrep Hff HL Hreq) as (a & s' & Hrun & Hn & Hh).
    exists a, S1_MAX, s'. split; [by rewrite (bind_run _ _ _ _ _ Hrun) |]. split; [done |]. done.
  - rewrite (bind_run _ _ s None s) by done. destruct (Z.ltb_spec size 8096) as [H1 | H1].
    + destruct Hreq as (Hsu & _ & Hd & Hg).
      destruct (s2_malloc_ok s v sp size Hrep Hsu) as [(new & s' & v' & z & Hrun & Hrep' & Hz & Hmt) | [_ [? | ?]]];
        [change S2_LIMIT with 8096; lia | | done..].
      destruct (med_alloc s v s' v' new z L Hrep Hrep' HL Hmt Hff) as [Hn Hh].
      exists (new + S2_HEAD), (z - S2_HEAD), s'. split_and!; [done | lia | done..].
    + destruct Hreq as (Hsu & Hd & Hk & Hg). destruct (lb_size_spec size) as [B1 B2]; [lia |].
      destruct (sp_descr sp) as [m |] eqn:Em; [| done]. destruct (sp_head sp) as [k |] eqn:Ek; [| done].
      destruct (granted sp) as [[n l] |] eqn:Eg; [| done].
      destruct (large_alloc s v sp k n l (lb_size size) L Hrep Hsu Ek Eg) as [Hn Hh]; [lia | done..|].
      eexists l, _, _. split; [by apply (lb_malloc_run s sp size m k n l) |]. done.
Qed.

(** ** Release *)

Lemma heap_del (L : gmap Z Z) s' v' a :
  (∀ b d, b ≠ a → L !! b = Some d → in_use s' v' b d) →
  ∀ b d, delete a L !! b = Some d → in_use s' v' b d.
Proof. intros HL b d [Hne Hb]%lookup_delete_Some. auto. Qed.

(** An area in a page is not in the hash table. *)
Lemma page_not_hashed s v a p :
  rep s v → p ∈ (v_small v).*1 ∨ p ∈ (v_med v).*1 → within a (p, PAGESIZE) →
  km_hash_lookup a s = Some (None, s).
Proof.
  intros Hrep Hp Hw. destruct (hash_lookup_run s v a Hrep) as (res & Hrun & Hres).
  destruct res as [k |]; [| done]. exfalso. destruct Hres as [n Hk].
  pose proof (page_large_disj s v Hrep p k _ Hp Hk) as Hd.
  pose proof (so_pos _ _ (rp_space _ _ Hrep)) as Hpos. rewrite Forall_forall in Hpos.
  specialize (Hpos _ (large_ext _ _ _ Hk)). unfold disj, within in *. cbn in *. lia.
Qed.

Lemma kfree_small s v p F b :
  rep s v → (p, F) ∈ v_small v → b ∈ small_blocks p → _kfree (Some (b + S1_HEAD)) s = km_s1_free b p s.
Proof.
  intros Hrep Hp Hb. destruct (small_within _ _ Hb) as [B1 B2]. unfold S1_SIZE in B2. change P__HEAD with 32 in B1.
  assert (within (b + S1_HEAD) (p, PAGESIZE)) as Hw by (unfold within, S1_HEAD, S__HEAD; cbn; lia).
  assert (p ∈ (v_small v).*1) as Hp1 by (by apply (list_elem_of_fmap_2 fst) in Hp).
  unfold _kfree. rewrite (bind_run _ _ _ _ _ (page_not_hashed s v _ p Hrep (or_introl Hp1) Hw)).
  pose proof (small_pages_elem _ _ _ _ _ _ _ _ (rp_small _ _ Hrep) Hp) as Hpg.
  pose proof (sp_blocks _ _ _ _ _ Hpg b Hb) as Hbk. destruct (sp_rec _ _ _ _ _ Hpg) as (r & Hr & Hm & _).
  assert (b + S1_HEAD - S1_HEAD = b) as Ex by lia.
  destruct (s1s s !! b) as [rb |] eqn:Erb; [| done]. cbn in Hbk. injection Hbk as Hbk.
  rewrite (bind_run (page_word _) _ s p s) by (unfold page_word, mderef; by rewrite Ex, Erb, Hbk).
  rewrite (bind_run _ _ _ _ _ (getkp_run _ _ _ Hr)). by rewrite Hm, Ex.
Qed.

Lemma kfree_med s v b z :
  rep s v → used_med s v b z →
  ∃ p bs r, (p, bs) ∈ v_med v ∧ b ∈ bs ∧ s2s s !! b = Some r ∧ m_free r = false ∧
    _kfree (Some (b + S2_HEAD)) s = km_s2_free b p s.
Proof.
  intros Hrep Hu. destruct (used_med_within s v Hrep _ _ Hu) as (p & bs & Hp & Hb & B1 & B2 & B3).
  pose proof (rp_med _ _ Hrep) as Hm. rewrite Forall_forall in Hm. pose proof (Hm _ Hp) as Hpg. cbn in Hpg.
  destruct (med_block_within _ _ _ _ _ _ Hpg Hb) as (_ & r & Hr & _ & _ & _ & Epg).
  destruct (mp_rec _ _ _ _ _ Hpg) as (rp & m & Hrp & Hmg & _).
  assert (p ∈ (v_med v).*1) as Hp1 by (by apply (list_elem_of_fmap_2 fst) in Hp).
  unfold S2_HEAD, S__HEAD in *. change P__HEAD with 32 in *.
  assert (within (b + (16 + 4)) (p, PAGESIZE)) as Hw by (unfold within; cbn; lia).
  exists p, bs, r. split_and!; auto.
  { destruct Hu as [_ Hu]. rewrite Hr in Hu. cbn in Hu. unfold use_of in Hu. congruence. }
  unfold _kfree. rewrite (bind_run _ _ _ _ _ (page_not_hashed s v _ p Hrep (or_intror Hp1) Hw)).
  assert (s1s s !! (b + (16 + 4) - S1_HEAD) = None) as Hn.
  { destruct (s1s s !! _) eqn:E; [| done]. exfalso.
    destruct (ss_dom _ _ _ _ _ _ (rp_small _ _ Hrep) (b + (16 + 4) - S1_HEAD)) as (q & (F & Hq)%page_in & Hwq); [eauto |].
    pose proof (small_med_disj s v Hrep _ _ _ _ Hq Hp). unfold disj, within, S1_HEAD, S__HEAD in *. cbn in *. lia. }
  assert (b + (16 + 4) - S2_HEAD = b) as Ex by (unfold S2_HEAD, S__HEAD; lia).
  rewrite (bind_run (page_word _) _ s p s) by (unfold page_word, mderef; by rewrite Hn, Ex, Hr; cbn; rewrite Epg).
  rewrite (bind_run _ _ _ _ _ (getkp_run _ _ _ Hrp)). by rewrite Hmg, Ex.
Qed.

Lemma heap_free s L a c :
  heap s L → L !! a = Some c → ∃ s', _kfree (Some a) s = Some (tt, s') ∧ heap s' (delete a L).
Proof.
  intros (v & Hrep & Hff & HL) Ha. pose proof (HL a c Ha) as [p F Hp Hb HF -> | Hu | k Hk].
  - destruct (s1_free_ok s v p F (a - S1_HEAD) Hrep Hff Hp Hb HF) as (s' & v' & Hrun & Hrep' & Hff' & Em & El & Hk & Hmk).
    exists s'. split.
    { rewrite <- Hrun. replace a with (a - S1_HEAD + S1_HEAD) at 1 by lia. by eapply kfree_small. }
    exists v'. split; [done |]. split; [done |]. apply heap_del. intros b d Hne Hb'.
    destruct (HL b d Hb') as [q G Hq Hbl Hn -> | [Hj Hu] | k' Hk'].
    + destruct (Hk q G (b - S1_HEAD) Hq Hbl Hn) as (G' & HG' & HnG); [lia |]. by eapply use_small.
    + apply use_med. split; [by rewrite Em |]. apply med_block_ext in Hj as (q & bs & Hq & Hin).
      by rewrite (Hmk q bs _ Hq Hin).
    + eapply use_large. by rewrite El.
  - destruct (kfree_med s v _ _ Hrep Hu) as (p & bs & r & Hp & Hb & Hr & Hf & Hrun).
    destruct (s2_free_ok s v p bs _ r Hrep Hp Hb Hr Hf) as (s' & v' & Hrun' & Hrep' & [E1 E2] & Hk).
    exists s'. split.
    { rewrite <- Hrun', <- Hrun. do 2 f_equal. lia. }
    exists v'. split; [done |]. split; [by rewrite E1 |]. apply heap_del. intros b d Hne Hb'.
    destruct (HL b d Hb') as [q G Hq Hbl Hn -> | Hu' | k' Hk'].
    + apply (use_small _ _ _ _ q G); [by rewrite E1 | done..].
    + apply use_med, Hk; [lia | done].
    + eapply use_large. by rewrite E2.
  - destruct (hash_lookup_run s v a Hrep) as (res & Hrun & Hres).
    destruct res as [k' |]; [| by destruct (Hres k c)]. destruct Hres as [n Hk'].
    destruct (lb_free_ok s v k' (a, n) Hrep Hk') as (s' & l1 & l2 & Ev & Hrun' & Hrep' & Hmk).
    exists s'. split; [unfold _kfree; by rewrite (bind_run _ _ _ _ _ Hrun) |].
    eexists. split; [exact Hrep' |]. split; [done |]. apply heap_del. intros b d Hne Hb'.
    destruct (HL b d Hb') as [q G Hq Hbl Hn -> | [Hj Hu'] | q Hq].
    + by eapply use_small.
    + apply use_med. split; [done |]. apply med_block_ext in Hj as (q & bs & Hq & Hin).
      by rewrite (Hmk q bs _ Hq Hin).
    + apply (use_large _ _ _ _ q). cbn. rewrite Ev in Hq.
      apply elem_of_app in Hq as [Hq | [[= -> -> ->] | Hq]%elem_of_cons]; [set_solver | done | set_solver].
Qed.

(** ** Initialization *)

Lemma init_heap_ok p :
  0 < p → p + PAGESIZE ≤ 4294967296 →
  ∃ s', init_kmemory p (km_empty p) = Some (tt, s') ∧ heap s' ∅.
Proof.
  intros Hp1 Hp2. set (s := km_empty p).
  destruct (s1_setup_run s p raw_page) as (K' & B' & rp & Hrun & Ha & Hf & HB & HB');
    [apply lookup_insert_eq | done |].
  eexists. split; [exact Hrun |].
  exists (mk_view [(p, small_blocks p)] [] [] []). split; [| split].
  - assert (small_pages K' B' ∅ [(p, small_blocks p)] (head_or [p] None) (Some p)) as Hs.
    { apply (small_pages_snoc {[p := raw_page]} ∅ ∅ K' B' [] None None p rp).
      - split; try done.
        + split; [constructor | done].
        + repeat constructor.
        + by intros b [? ?].
      - exact Ha.
      - set_solver.
      - eapply carved_page; [apply Ha | exact Hf | done | exact HB].
      - done.
      - rewrite (fh_pos _ _ _ _ _ Hf). done.
      - intros b Hb. by rewrite HB'.
      - set_solver. }
    split; cbn [v_small v_med v_free v_large].
    + exact Hs.
    + cbn. destruct (small_blocks_two p) as (x & y & F & ->). done.
    + constructor.
    + split; [split; [constructor | done] | done | done |]. intros b. cbn. set_solver.
    + split; [constructor | set_solver | done].
    + split; cbn; [done | | set_solver | done]. repeat constructor; cbn; unfold PAGESIZE in *; lia.
  - cbn. destruct (small_blocks_two p) as (x & y & F & ->). done.
  - intros a c Hac. by rewrite lookup_empty in Hac.
Qed.

(** ** An example heap *)

Definition ex_state (c : M kms unit) : kms :=
  match c (km_empty 4096) with Some (_, s) => s | None => km_empty 4096 end.
Definition ex_heap : kms := ex_state (init_kmemory 4096).
Definition ex_supply : supply := mk_supply (Some 20000) (Some 20100) (Cut 20000 65536) Denied.

Lemma ex_heap_ok : heap ex_heap ∅.
Proof.
  destruct (init_heap_ok 4096) as (s' & Hrun & Hh); [lia | unfold PAGESIZE; lia |].
  unfold ex_heap, ex_state. by rewrite Hrun.
Qed.

(** A request that can be served is recognized by computation. *)
#[export] Instance disj_dec x y : Decision (disj x y).
Proof. unfold disj. apply _. Defined.

#[export] Instance fresh_descr_dec s k : Decision (fresh_descr s k).
Proof.
  refine (cast_if (decide ((k ∉ descrs s ∧ kps s !! k = None) ∧
    map_Forall (λ _ y, ¬ within k y) (regs s) ∧
    map_Forall (λ p r, kp_self r = None → ¬ within k (p, PAGESIZE)) (kps s)))).
  - destruct a as ([? ?] & ? & ?). by split.
  - intros [? ? ? ?]. apply n. split; [done |]. split; done.
Defined.

#[export] Instance fresh_region_dec s x : Decision (fresh_region s x).
Proof.
  refine (cast_if (decide ((0 < x.1 ∧ x.1 + x.2 ≤ 4294967296) ∧
    map_Forall (λ _ y, disj x y) (regs s) ∧
    map_Forall (λ p r, kp_self r = None → disj x (p, PAGESIZE)) (kps s) ∧
    set_Forall (λ k, ¬ within k x) (descrs s)))).
  - destruct a as (? & ? & ? & ?). by split.
  - intros [? ? ? ?]. apply n. split; [done |]. split; [done |]. done.
Defined.

#[export] Instance option_all_dec {A} (P : A → Prop) `{∀ x, Decision (P x)} (o : option A) :
  Decision (∀ x, o = Some x → P x).
Proof.
  refine (match o with Some x => cast_if (decide (P x)) | None => left _ end).
  - by intros y [= <-].
  - intros Hn. by apply n, Hn.
  - done.
Defined.

Definition region_free (s : kms) (sp : supply) (size : Z) (x : Z * Z) : Prop :=
  (regs s !! x.1 = None ∧ fresh_region s (x.2, region_size size)) ∧
  ∀ k, sp_head sp = Some k → ¬ within k (x.2, region_size size).
#[export] Instance region_free_dec s sp size x : Decision (region_free s sp size x).
Proof. unfold region_free. apply _. Defined.

#[export] Instance supply_ok_dec s sp size : Decision (supply_ok s sp size).
Proof.
  refine (cast_if (decide ((∀ m, sp_descr sp = Some m → fresh_descr s m) ∧
    (∀ k, sp_head sp = Some k → fresh_descr s k ∧ sp_descr sp ≠ Some k) ∧
    ∀ x, granted sp = Some x → region_free s sp size x))).
  - destruct a as (? & ? & Hg). split; [done | done |]. intros n l Hnl. by destruct (Hg _ Hnl) as [[? ?] ?].
  - intros [? ? Hg]. apply n. split_and!; [done | done |]. intros [m l] Hx.
    destruct (Hg _ _ Hx) as (? & ? & ?). by split.
Defined.

#[export] Instance request_ok_dec s sp size : Decision (request_ok s sp size).
Proof. unfold request_ok, grows, pos_room. destruct (size <? S2_LIMIT); apply _. Defined.

Lemma ex_request size : size = 20 ∨ size = 100 ∨ size = 10000 → request_ok ex_heap ex_supply size.
Proof. intros [-> | [-> | ->]]; apply (bool_decide_eq_true_1 _); vm_compute; reflexivity. Qed.

(** ** The contract of the allocator *)

(** C4: a request that the regions and descriptors can serve is answered with an area of at
    least the size that was asked for, at an address that is not in use; everything that
    was handed out before stays as it was. *)
Theorem kmalloc_spec s L sp size :
  heap s L → request_ok s sp size →
  ∃ a c s', _kmalloc sp size s = Some (Some a, s') ∧ size ≤ c ∧ L !! a = None ∧
    heap s' (<[a := c]> L).
Proof. apply heap_alloc. Qed.

Lemma kmalloc_spec_witness :
  ∃ a c s', _kmalloc ex_supply 10000 ex_heap = Some (Some a, s') ∧ 10000 ≤ c ∧
    (∅ : gmap Z Z) !! a = None ∧ heap s' (<[a := c]> ∅).
Proof. apply (kmalloc_spec ex_heap ∅ ex_supply 10000 ex_heap_ok). apply ex_request. auto. Defined.


Definition ex_supply2 : supply := mk_supply (Some 20100) None (Cut 20100 131072) Denied.
(** The example heap with one block of medium size *)
Definition ex_med : kms :=
  match _kmalloc ex_supply 100 ex_heap with Some (_, s) => s | None => ex_heap end.
Lemma ex_med_ok : ∃ c, heap ex_med {[73620 := c]}.
Proof.
  destruct (heap_alloc ex_heap ∅ ex_supply 100 ex_heap_ok (ex_request 100 (or_intror (or_introl eq_refl))))
    as (a & c & s' & Hrun & _ & _ & Hh).
  assert (s' = ex_med) as Es by (unfold ex_med; rewrite Hrun; reflexivity).
  assert (fst <$> _kmalloc ex_supply 100 ex_heap = Some (Some 73620)) as Ea by (vm_compute; reflexivity).
  rewrite Hrun in Ea. cbn in Ea. injection Ea as Ea.
  rewrite Es, Ea, insert_empty in Hh. exists c. exact Hh.
Qed.



(** The example heap with a medium block and then a small one *)
Definition ex_two : kms :=
  match _kmalloc ex_supply2 20 ex_med with Some (_, s) => s | None => ex_heap end.
Lemma ex_two_ok : ∃ c d, heap ex_two (<[4132 := d]> {[73620 := c]}).
Proof.
  destruct ex_med_ok as [c0 Hmed]. exists c0.
  assert (request_ok ex_med ex_supply2 20) as Hreq
    by (apply (bool_decide_eq_true_1 _); vm_compute; reflexivity).
  destruct (heap_alloc ex_med {[73620 := c0]} ex_supply2 20 Hmed Hreq) as (a & c & s' & Hrun & _ & _ & Hh).
  assert (s' = ex_two) as Es by (unfold ex_two; rewrite Hrun; reflexivity).
  assert (fst <$> _kmalloc ex_supply2 20 ex_med = Some (Some 4132)) as Ea by (vm_compute; reflexivity).
  rewrite Hrun in Ea. cbn in Ea. injection Ea as Ea.
  rewrite Es, Ea in Hh. exists c. exact Hh.
Qed.




(** C40: without memory for a page or a region, a request of more than [S1_MAX] bytes is
    answered from the free blocks, or with a null pointer and an unchanged heap. *)
Theorem kmalloc_starved s L sp size :
  heap s L → S1_MAX < size ≤ 4294959088 → granted sp = None →
  supply_ok s sp (if size <? S2_LIMIT then PAGESIZE else lb_size size) →
  _kmalloc sp size s = Some (None, s) ∨
  size < S2_LIMIT ∧ ∃ a c s', _kmalloc sp size s = Some (Some a, s') ∧ size ≤ c ∧
    L !! a = None ∧ heap s' (<[a := c]> L).
Proof.
  intros (v & Hrep & Hff & HL) Hs Hg Hsu. unfold _kmalloc.
  change S1_MAX with 44 in *. change S2_LIMIT with 8096 in *.
  rewrite (bind_run _ _ _ _ _ (massert_run _ s (proj2 (negb_true_iff _) (proj2 (Z.eqb_neq size 0) ltac:(lia))))).
  rewrite (proj2 (Z.leb_gt _ _)) by lia. rewrite (bind_run _ _ s None s) by done.
  destruct (Z.ltb_spec size 8096) as [H1 | H1].
  - destruct (s2_malloc_ok s v sp size Hrep Hsu) as [(new & s' & v' & z & Hrun & Hrep' & Hz & Hmt) | [Hrun _]];
      [change S2_LIMIT with 8096; lia | right | by left].
    destruct (med_alloc s v s' v' new z L Hrep Hrep' HL Hmt Hff) as [Hn Hh].
    split; [done |]. exists (new + S2_HEAD), (z - S2_HEAD), s'. split_and!; [done | lia | done..].
  - left. apply lb_malloc_none; [done | auto].
Qed.

(** A small request when the last page has one free block and there is no descriptor *)
Definition ex_denied : supply := mk_supply None None Denied Denied.
Lemma ex_denied_ok s z : supply_ok s ex_denied z.
Proof. split; done. Qed.

Lemma kmalloc_starved_witness :
  _kmalloc ex_denied 100 ex_heap = Some (None, ex_heap) ∨
  100 < S2_LIMIT ∧ ∃ a c s', _kmalloc ex_denied 100 ex_heap = Some (Some a, s') ∧ 100 ≤ c ∧
    (∅ : gmap Z Z) !! a = None ∧ heap s' (<[a := c]> ∅).
Proof.
  apply (kmalloc_starved ex_heap ∅ ex_denied 100 ex_heap_ok); [split; [done | done] | done |].
  apply ex_denied_ok.
Defined.

(** ** What the code does not mean to do *)

Lemma insert_size_S (K : gmap Z km_p) p r : ∃ n, size (<[p := r]> K) = S n.
Proof.
  destruct (size (<[p := r]> K)) eqn:E; [| eauto]. apply map_size_empty_inv in E.
  by destruct (insert_non_empty K p r).
Qed.

(** The page [s1_free] has one free block, and is the last of the list. *)
Definition last_free_block (s : kms) : Prop :=
  ∃ p r x b, s1_free s = Some p ∧ kps s !! p = Some r ∧ kp_free r = Some x ∧
    s1s s !! x = Some b ∧ b_next b = None ∧ kp_next r = None.

(** when the last free small block of the heap is asked for and there is no descriptor
    for a new page, the code dereferences the null pointer [s1_free] in its attempt to give
    the block back, where it means to answer with a null pointer. *)
Theorem kmalloc_last_block_panics s sp size :
  1 ≤ size ≤ S1_MAX → last_free_block s → sp_descr sp = None → _kmalloc sp size s = None.
Proof.
  intros Hs (p & r & x & b & Ef & Hr & Hx & Hb & Hn & Hnx) Hd.
  destruct s as [K B S2 T h1 t1 fr h2 t2 R D]. cbn in *. subst fr.
  unfold _kmalloc. rewrite (bind_run _ _ _ _ _ (massert_run _ _ (proj2 (negb_true_iff _) (proj2 (Z.eqb_neq size 0) ltac:(lia))))).
  rewrite (proj2 (Z.leb_le _ _)) by lia. 
  assert (km_s1_malloc 2 sp (mk_kms K B S2 T h1 t1 (Some p) h2 t2 R D) = None) as E.
  { cbn [km_s1_malloc]. do 6 kstep. rewrite Hn. kstep. cbn [s1_skip]. do 2 kstep.
    destruct (insert_size_S K p (set_kp_used (u16 (kp_used r + 1)) (set_kp_free None r))) as [n ->].
    change (kp_free (set_kp_used _ _)) with (@None Z). cbv iota.
    change (kp_next (set_kp_used _ _)) with (kp_next r). rewrite Hnx.
    do 3 kstep. unfold new_page. rewrite Hd. repeat kstep. reflexivity. }
  unfold mbind, M_bind. by rewrite E.
Qed.

(** All blocks of the static page but one are handed out. *)
Fixpoint alloc_n (n : nat) (sp : supply) (size : Z) : M kms (list Z) :=
  match n with
  | O => mret []
  | S n =>
      a ← _kmalloc sp size; l ← alloc_n n sp size;
      mret (match a with Some a => a :: l | None => l end)
  end.
Definition full_heap : kms :=
  match alloc_n 169 ex_denied 32 ex_heap with Some (_, s) => s | None => ex_heap end.

Lemma kmalloc_last_block_panics_witness : _kmalloc ex_denied 20 full_heap = None.
Proof.
  refine (kmalloc_last_block_panics full_heap ex_denied 20 _ _ _); [split; done | | done].
  exists 4096, (default raw_page (kps full_heap !! 4096)), 12240,
    (default (mk_km_s1 0 None) (s1s full_heap !! 12240)).
  split_and!; vm_compute; reflexivity.
Defined.

(** The blocks of a page can be given back, except the one that made the page: a cycle that
    takes and gives back as many blocks as the static page has leaves one in use for good. *)
Fixpoint free_all (l : list Z) : M kms unit :=
  match l with [] => mret tt | a :: l => _kfree (Some a) ;; free_all l end.
Definition cycle (n : nat) (sp : supply) : M kms unit := l ← alloc_n n sp 32; free_all l.
Definition used_after (c : M kms unit) : option Z :=
  match c ex_heap with Some (_, s) => kp_used <$> kps s !! 4096 | None => None end.

Example small_block_leak :
  used_after (cycle 169 ex_supply) = Some 0 ∧ used_after (cycle 170 ex_supply) = Some 1 ∧
  used_after (cycle 170 ex_supply ;; cycle 170 ex_supply2) = Some 2.
Proof. vm_compute. repeat split. Qed.

(** The blocks are aligned to 16 bytes, the areas in them are not. *)
Example areas_misaligned :
  (λ r, default 0 (fst r) mod 16) <$> _kmalloc ex_supply 20 ex_heap = Some 4 ∧
  (λ r, default 0 (fst r) mod 16) <$> _kmalloc ex_supply 100 ex_heap = Some 4 ∧
  (λ r, default 0 (fst r) mod 16) <$> _kmalloc ex_supply 10000 ex_heap = Some 0.
Proof. vm_compute. repeat split. Qed.
