(* ===== verification/Signal.v ===== *)
(** * Signals (sys/signal.c, sys/dossig.c)

    Posting signals to processes, the permission to do so, their delivery to the
    current process, and the system calls on actions and masks. *)

From stdpp Require Import functions.
From S2P Require Import Prelude CInt Errno Kernel ProcQueue Cred.

Definition NSIG : Z := 32.
Definition SIGINT : Z := 2.
Definition SIGFPE : Z := 8.
Definition SIGKILL : Z := 9.
Definition SIGBUS : Z := 10.
Definition SIGSEGV : Z := 11.
Definition SIGTERM : Z := 15.
Definition SIGSTOP : Z := 17.
Definition SIGTSTP : Z := 18.
Definition SIGCONT : Z := 19.
Definition SIGCHLD : Z := 20.
Definition SIGTTIN : Z := 21.
Definition SIGTTOU : Z := 22.
Definition SIGWINCH : Z := 28.

Definition UNMASKABLE : Z :=
  Z.lor 1 (Z.lor (bit SIGKILL) (Z.lor (bit SIGCONT) (bit SIGSTOP))).
Definition STOPSIGS : Z :=
  Z.lor (bit SIGTTIN) (Z.lor (bit SIGTTOU) (Z.lor (bit SIGTSTP) (bit SIGSTOP))).
Definition SIG_DFL : Z := 0.
Definition SIG_IGN : Z := 1.
Definition SA_NODEFER : Z := 16.
Definition SA_NOCLDSTOP : Z := 1.
Definition SA_RESETHAND : Z := 32768.
Definition SAUSER : Z := Z.lor SA_NODEFER (Z.lor SA_NOCLDSTOP SA_RESETHAND).
Definition DOM_TOS : Z := 0.

(** ** Signal actions *)

(** [SIGACTION(p, sig)] *)
Definition lookup_action (k : kst) (a : ptr) (sig : Z) : option sigaction :=
  s ← sigactss k !! a; sigact s !! Z.to_nat sig.
Definition SIGACTION (p : ptr) (sig : Z) : M kst sigaction :=
  r ← getp p;
  match p_sigacts r with
  | Some a => mderef (λ k, lookup_action k a sig)
  | None => mpanic
  end.
Definition put_action (a : ptr) (sig : Z) (f : sigaction → sigaction) : M kst unit :=
  s ← mderef (λ k, sigactss k !! a);
  mmod (λ k, set_sigactss
    (<[a := mk_sigacts (alter f (Z.to_nat sig) (sigact s)) (sg_links s)]> (sigactss k)) k).
Definition mod_action (p : ptr) (sig : Z) (f : sigaction → sigaction) : M kst unit :=
  r ← getp p;
  match p_sigacts r with
  | Some a => put_action a sig f
  | None => mpanic
  end.

(** ** Posting *)

Definition is_dead (r : proc) : bool :=
  (wait_q r =? ZOMBIE_Q) || (wait_q r =? TSR_Q).

(** The processes and signals that [post_sig] leaves alone. *)
Definition immune (r : proc) (sig : Z) : bool :=
  is_dead r
  || ((pid r =? 1) && ((sig =? SIGKILL) || (sig =? SIGSTOP)))
  || negb (Z.land (p_flag r) P_FLAG_SLB =? 0)
  || ((sig =? SIGKILL) && negb (Z.land (p_flag r) P_FLAG_SYS =? 0)).

(** The action discards the signal. *)
Definition discards (r : proc) (a : sigaction) (sig : Z) : bool :=
  (sa_handler a =? SIG_IGN) && bool_decide (ptracer r = None) && negb (sig =? SIGCONT).

Definition wake_up (p : ptr) : M kst unit :=
  r ← getp p;
  mwhen (negb (wait_q r =? CURPROC_Q) && negb (wait_q r =? READY_Q))
    (rm_q (wait_q r) p ;; add_q READY_Q p).

Definition post_sig (p : ptr) (sig : Z) : M kst unit :=
  massert (sig <? NSIG) ;;
  r ← getp p;
  if immune r sig then mret tt
  else
    massert (bool_decide (p_sigacts r ≠ None)) ;;
    if sig =? 0 then mret tt
    else
      a ← SIGACTION p sig;
      if discards r a sig then mret tt
      else
        modp p (λ r, set_sigpending (Z.lor (sigpending r) (bit sig)) r) ;;
        r ← getp p;
        mwhen (Z.land (p_sigmask r) (bit sig) =? 0) (wake_up p).

(** The permission of the current process to send [sig] to [p]. *)
Definition may_signal (c p : ptr) (sig priv : Z) : M kst bool :=
  rc ← getp c;
  rp ← getp p;
  cc ← getpc (p_cred rc);
  uc ← getuc (ucr cc);
  cp ← getpc (p_cred rp);
  let priv :=
    if suser uc then true
    else if (euid uc =? suid cp) || (euid uc =? ruid cp)
            || (ruid cc =? suid cp) || (ruid cc =? ruid cp) then true
    else negb (priv =? 0) in
  mret (priv || ((sig =? SIGCONT) && (pgrp rc =? pgrp rp))).

Definition send_sig (p : ptr) (sig priv : Z) : M kst Z :=
  c ← mgets curproc;
  ok ← may_signal c p sig priv;
  if negb ok then mret EACCES
  else if sig =? 0 then mret 0
  else
    r ← getp p;
    if is_dead r then mret 0
    else
      massert (bool_decide (p_sigacts r ≠ None)) ;;
      a ← SIGACTION p sig;
      if discards r a sig then mret 0
      else post_sig p sig ;; mret 0.

(** The body of the loop of [killgroup]; the variables are [found] and [ret]. *)
Definition kill_member (pgrp0 sig priv : Z) (v : bool * Z) (p : ptr) : M kst (bool * Z) :=
  let '(found, ret) := v in
  r ← getp p;
  if is_dead r then mret (found, ret)
  else if pgrp r =? pgrp0 then
    e ← send_sig p sig priv;
    mret (if negb (e =? 0) then (found, e) else (true, ret))
  else mret (found, ret).

Definition group_result (v : bool * Z) : Z := if v.1 then E_OK else v.2.
Definition killgroup (pgrp0 sig priv : Z) : M kst Z :=
  if pgrp0 <? 0 then mret EINTERNAL
  else if sig >=? NSIG then mret EINVAL
  else
    l ← mgets proclist;
    v ← fold_procs (kill_member pgrp0 sig priv) (false, ENOENT) l;
    mret (group_result v).

Definition ikill (n sig : Z) : M kst Z :=
  if sig >=? NSIG then mret EBADARG
  else if n <? 0 then killgroup (s16 (- n)) sig 1
  else if n =? 0 then
    c ← mgets curproc; r ← getp c; killgroup (pgrp r) sig 1
  else
    p ← pid2proc n;
    match p with
    | None => mret ENOENT
    | Some p =>
        r ← getp p;
        if is_dead r then mret ENOENT
        else mwhen (negb (sig =? 0)) (post_sig p sig) ;; mret E_OK
    end.

(** ** Delivery *)

(** The functions that delivery calls: [sendsig] (the processor dependent code
    that runs the handler), the end of a process, and the blocking [sleep]. *)
Class SignalCalls := {
  sendsig : Z → M kst Z;
  kernel_pterm : ptr → Z → M kst unit;
  terminate : ptr → Z → Z → M kst unit;
  bombs : Z → M kst unit;
  proc_ext_on_signal : ptr → Z → M kst unit;
  proc_ext_on_stop : ptr → Z → M kst unit;
  save_exception : ptr → M kst unit;
  sc_blocking :: Blocking;
}.

Section delivery.
Context `{SignalCalls}.

(** The signal mask of a stopped process. *)
Definition stop_mask (m : Z) : Z := Z.lor m (not32 (Z.lor UNMASKABLE SIGTERM)).

Definition notify_parent (c : ptr) : M kst unit :=
  r ← getp c;
  match ptracer r with
  | Some t => post_sig t SIGCHLD
  | None =>
      p ← pid2proc (ppid r);
      match p with
      | None => mret tt
      | Some p =>
          rp ← getp p;
          massert (bool_decide (p_sigacts rp ≠ None)) ;;
          a ← SIGACTION p SIGCHLD;
          mwhen (Z.land (sa_flags a) SA_NOCLDSTOP =? 0) (
            post_sig p SIGCHLD ;;
            rp ← getp p;
            mwhen ((wait_q rp =? WAIT_Q) && (wait_cond rp =? sys_pwaitpid))
              (rm_q WAIT_Q p ;; add_q READY_Q p))
      end
  end.

Definition stop (sig : Z) : M kst unit :=
  massert (sig <? NSIG) ;;
  let code := u16 (Z.shiftl sig 8) in
  c ← mgets curproc;
  r ← getp c;
  if pid r =? 0 then mret tt
  else
    notify_parent c ;;
    r ← getp c;
    let oldmask := p_sigmask r in
    mwhen (bool_decide (ptracer r = None)) (
      massert (negb (Z.land (bit sig) STOPSIGS =? 0)) ;;
      modp c (set_p_sigmask (stop_mask oldmask))) ;;
    proc_ext_on_stop c sig ;;
    sleep_until STOP_Q (Z.lor code 127) ;;
    modp c (set_p_sigmask oldmask) ;;
    modp c (λ r, set_sigpending (Z.land (sigpending r) (not32 STOPSIGS)) r).

(** The switch after the label [_default]. *)
Definition default_action (c : ptr) (sig : Z) : M kst unit :=
  if (sig =? SIGWINCH) || (sig =? SIGCHLD) || (sig =? SIGFPE) then mret tt
  else if (sig =? SIGSTOP) || (sig =? SIGTSTP) || (sig =? SIGTTIN) || (sig =? SIGTTOU)
  then stop sig
  else if sig =? SIGCONT then
    modp c (λ r, set_sigpending (Z.land (sigpending r) (not32 STOPSIGS)) r)
  else
    r ← getp c;
    if (sig =? SIGINT) && (domain r =? DOM_TOS) then
      modp c (set_signaled 1) ;; kernel_pterm c ENOSYS
    else
      modp c (set_signaled 1) ;;
      bombs sig ;;
      r ← getp c;
      if negb (Z.land (p_sigmask r) 1 =? 0) || (sig =? SIGKILL)
      then terminate c (Z.shiftl sig 8) ZOMBIE_Q
      else kernel_pterm c (Z.shiftl sig 8).

Definition handle_sig (sig : Z) : M kst unit :=
  massert (sig <? NSIG) ;;
  c ← mgets curproc;
  r ← getp c;
  massert (bool_decide (p_sigacts r ≠ None)) ;;
  proc_ext_on_signal c sig ;;
  modp c (set_last_sig sig) ;;
  a ← SIGACTION c sig;
  if sa_handler a =? SIG_IGN then mret tt
  else if sa_handler a =? SIG_DFL then default_action c sig
  else
    n ← sendsig sig;
    mwhen (negb (n =? 0)) (default_action c sig).

(** The mask while [sig] is handled by [a]. *)
Definition handler_mask (m sig : Z) (a : sigaction) : Z :=
  let m := Z.lor m (sa_mask a) in
  if negb (Z.land (sa_flags a) SA_NODEFER =? 0) && (Z.land (sa_mask a) (bit sig) =? 0)
  then Z.land m (not32 (bit sig)) else Z.lor m (bit sig).

Definition deliver (p : ptr) (sig : Z) : M kst unit :=
  r ← getp p;
  let omask := p_sigmask r in
  a ← SIGACTION p sig;
  modp p (set_p_sigmask (handler_mask omask sig a)) ;;
  handle_sig sig ;;
  modp p (set_p_sigmask omask).

(** The loop over the signals [l]; [again] is [goto top]. *)
Fixpoint scan_sigs (again : M kst unit) (p : ptr) (sigs : Z) (deliversig : bool)
    (l : list Z) : M kst unit :=
  match l with
  | [] => mret tt
  | i :: l =>
      if negb (Z.land sigs (bit i) =? 0) then
        modp p (λ r, set_sigpending (Z.land (sigpending r) (not32 (bit i))) r) ;;
        r ← getp p;
        if bool_decide (ptracer r ≠ None) && negb deliversig
           && negb (i =? SIGCONT) && negb (i =? SIGKILL)
        then stop i ;; again
        else deliver p i ;; scan_sigs again p sigs deliversig l
      else scan_sigs again p sigs deliversig l
  end.

Definition all_sigs : list Z := Zrange 1 31.

(** [sigs] *)
Definition deliverable (r : proc) : Z :=
  if bool_decide (ptracer r = None) || negb (Z.land (sigpending r) 1 =? 0)
  then Z.land (sigpending r) (not32 (p_sigmask r)) else sigpending r.

Fixpoint check_top (fuel : nat) (p : ptr) : M kst unit :=
  match fuel with
  | O => mpanic
  | S fuel =>
      r ← getp p;
      massert (bool_decide (p_sigacts r ≠ None)) ;;
      let sigs := deliverable r in
      mwhen (negb (sigs =? 0)) (
        let deliversig := negb (Z.land (sigpending r) 1 =? 0) in
        modp p (λ r, set_sigpending (Z.land (sigpending r) (not32 1)) r) ;;
        scan_sigs (check_top fuel p) p sigs deliversig all_sigs)
  end.

Definition check_sigs (fuel : nat) : M kst unit :=
  p ← mgets curproc;
  r ← getp p;
  mwhen (negb (pid r =? 0)) (check_top fuel p).

Definition raise (fuel : nat) (sig : Z) : M kst unit :=
  c ← mgets curproc; post_sig c sig ;; check_sigs fuel.

(** ** System calls *)

Definition kill_one (c p : ptr) (sig : Z) : M kst Z :=
  r ← getp p;
  if is_dead r then mret ENOENT
  else
    rc ← getp c;
    cc ← getpc (p_cred rc);
    uc ← getuc (ucr cc);
    cp ← getpc (p_cred r);
    if negb (euid uc =? 0) && negb (ruid cc =? ruid cp) then mret EACCES
    else mwhen (negb (sig =? 0)) (post_sig p sig) ;; mret E_OK.

Definition sys_p_kill (fuel : nat) (n sig : Z) : M kst Z :=
  if (sig <? 0) || (sig >=? NSIG) then mret EBADARG
  else
    c ← mgets curproc;
    mwhen ((sig =? SIGSEGV) || (sig =? SIGBUS)) (save_exception c) ;;
    r ← (if n <? 0 then killgroup (s16 (- n)) sig 0
         else if n =? 0 then rc ← getp c; killgroup (pgrp rc) sig 0
         else
           p ← pid2proc n;
           match p with
           | None => mret ENOENT
           | Some p => kill_one c p sig
           end);
    mwhen (r =? E_OK) (check_sigs fuel) ;;
    mret r.

(** [act] is the new action; the second result is [*oact]. *)
Definition sys_p_sigaction (sig : Z) (act : option sigaction) (oact : bool) :
    M kst (Z * option sigaction) :=
  p ← mgets curproc;
  r ← getp p;
  massert (bool_decide (p_sigacts r ≠ None)) ;;
  if (sig <? 1) || (sig >=? NSIG) then mret (EBADARG, None)
  else if bool_decide (act ≠ None) && ((sig =? SIGKILL) || (sig =? SIGSTOP))
  then mret (EACCES, None)
  else
    old ← SIGACTION p sig;
    let out := if oact then Some (set_sa_flags (Z.land (sa_flags old) SAUSER) old)
               else None in
    match act with
    | None => mret (E_OK, out)
    | Some act =>
        mod_action p sig (λ a, mk_sigaction (sa_handler act)
          (Z.land (sa_mask act) (not32 UNMASKABLE))
          (Z.lor (Z.land (sa_flags a) (not16 SAUSER)) (Z.land (sa_flags act) SAUSER))) ;;
        mwhen (sa_handler act =? SIG_IGN)
          (modp p (λ r, set_sigpending (Z.land (sigpending r) (not32 (bit sig))) r)) ;;
        modp p (λ r, set_p_sigmask (Z.land (p_sigmask r) (not32 (bit sig))) r) ;;
        mret (E_OK, out)
    end.

Definition sys_p_signal (sig handler : Z) : M kst Z :=
  p ← mgets curproc;
  r ← getp p;
  match p_sigacts r with
  | None => mpanic
  | Some sa =>
      s ← mderef (λ k, sigactss k !! sa);
      massert (sg_links s >? 0) ;;
      if (sig <? 1) || (sig >=? NSIG) then mret EBADARG
      else if (sig =? SIGKILL) || (sig =? SIGSTOP) then mret EACCES
      else
        old ← SIGACTION p sig;
        mod_action p sig (λ _, mk_sigaction handler 0 0) ;;
        mwhen (handler =? SIG_IGN)
          (modp p (λ r, set_sigpending (Z.land (sigpending r) (not32 (bit sig))) r)) ;;
        modp p (λ r, set_p_sigmask (Z.land (p_sigmask r) (not32 (bit sig))) r) ;;
        mret (sa_handler old)
  end.

Definition sys_p_sigblock (mask : Z) : M kst Z :=
  p ← mgets curproc;
  r ← getp p;
  let mask := Z.land mask (not32 UNMASKABLE) in
  modp p (λ r, set_p_sigmask (Z.lor (p_sigmask r) mask) r) ;;
  mret (p_sigmask r).

Definition sys_p_sigsetmask (fuel : nat) (mask : Z) : M kst Z :=
  p ← mgets curproc;
  r ← getp p;
  modp p (set_p_sigmask (Z.land mask (not32 UNMASKABLE))) ;;
  check_sigs fuel ;;
  mret (p_sigmask r).

Definition sys_p_sigpending (fuel : nat) : M kst Z :=
  p ← mgets curproc;
  check_sigs fuel ;;
  r ← getp p;
  mret (Z.land (sigpending r) (not32 1)).

Definition sys_p_sigpause (fuel : nat) (mask : Z) : M kst Z :=
  p ← mgets curproc;
  r ← getp p;
  let oldmask := p_sigmask r in
  modp p (set_p_sigmask (Z.land mask (not32 UNMASKABLE))) ;;
  r ← getp p;
  (if negb (Z.land (sigpending r) (not32 (p_sigmask r)) =? 0)
   then check_sigs fuel
   else sleep_until IO_Q (-1)) ;;
  modp p (set_p_sigmask oldmask) ;;
  check_sigs fuel ;;
  mret E_OK.
End delivery.

(** ** Posting a signal *)

Lemma SIGACTION_run k p r a act sig :
  procs k !! p = Some r → p_sigacts r = Some a → lookup_action k a sig = Some act →
  SIGACTION p sig k = Some (act, k).
Proof.
  intros Hr Ha Hact. unfold SIGACTION. erewrite bind_run by by apply getp_run.
  rewrite Ha. by apply (mderef_run (λ k, lookup_action k a sig)).
Qed.

(** The process waits, and would be made ready by a signal. *)
Definition asleep (r : proc) : bool :=
  negb (wait_q r =? CURPROC_Q) && negb (wait_q r =? READY_Q).
Definition awake_queues (p : ptr) (r : proc) (Q : Z → list ptr) : Z → list ptr :=
  if asleep r then moved (wait_q r) (without p (Q (wait_q r))) [p] Q else Q.

(** The other processes stay on their queues when [p] becomes ready. *)
Lemma moved_wait_q k k' Q que p q r r' :
  queues_ok k Q → queues_ok k' (moved que (without p (Q que)) [p] Q) →
  0 < que < NUM_QUEUES → que ≠ READY_Q → q ≠ p →
  procs k !! q = Some r → procs k' !! q = Some r' → wait_q r' = wait_q r.
Proof.
  set (Q' := moved _ _ _ _). intros Hok Hok' Hb Hne Hq Hr Hr'.
  assert (∀ n, 0 < n < NUM_QUEUES → q ∈ Q n ↔ q ∈ Q' n) as Hin.
  { intros n Hn. unfold Q'. destruct (decide (n = READY_Q)) as [->|Hn1].
    - rewrite moved_ready. set_solver.
    - destruct (decide (n = que)) as [->|Hn2].
      + rewrite moved_que by done. unfold without. rewrite list_elem_of_filter. tauto.
      + by rewrite moved_other. }
  destruct (decide (wait_q r = CURPROC_Q)) as [Hw|Hw].
  - destruct (decide (wait_q r' = CURPROC_Q)) as [Hw'|Hw']; [congruence|].
    destruct (qok_all k' Q' Hok' q r' Hr' Hw') as [Hb' Hi].
    apply Hin in Hi; [|done]. symmetry. by rewrite (queue_elem_iff k Q) in Hi.
  - destruct (qok_all k Q Hok q r Hr Hw) as [Hb' Hi].
    apply Hin in Hi; [|done]. by rewrite (queue_elem_iff k' Q') in Hi.
Qed.

Lemma wake_up_ok k Q p r :
  queues_ok k Q → procs k !! p = Some r →
  ∃ k', wake_up p k = Some (tt, k') ∧ queues_ok k' (awake_queues p r Q) ∧
    cores k' = cores k ∧ rest k' = rest k ∧
    (∀ q rq rq', procs k !! q = Some rq → procs k' !! q = Some rq' →
      wait_q rq' = if bool_decide (q = p) && asleep r then READY_Q else wait_q rq).
Proof.
  intros Hok Hr. unfold wake_up, awake_queues. erewrite bind_run by by apply getp_run.
  fold (asleep r). destruct (asleep r) eqn:Ha; cbn [mwhen].
  - unfold asleep in Ha. bool_to_prop.
    destruct (qok_all k Q Hok p r Hr H) as [Hb Hin].
    destruct (move_ready_ok k Q (wait_q r) p Hok) as (k' & Hrun & Hok' & Hc & Hrest);
      [unfold READY_Q in *; lia|done|].
    exists k'. do 4 (split; [done|]). intros q rq rq' Hrq Hrq'.
    case_bool_decide as Hqp; cbn [andb].
    + subst q. rewrite <- (queue_elem_iff k' _ READY_Q p rq' Hok') by done.
      rewrite moved_ready. set_solver.
    + by apply (moved_wait_q k k' Q (wait_q r) p q).
  - exists k. do 4 (split; [done|]). intros q rq rq' Hrq Hrq'.
    rewrite andb_false_r. congruence.
Qed.

(** [p] with the signal pending. *)
Definition post (sig : Z) (r : proc) : proc :=
  set_sigpending (Z.lor (sigpending r) (bit sig)) r.
Definition unmasked (r : proc) (sig : Z) : bool := Z.land (p_sigmask r) (bit sig) =? 0.

(** The signal becomes pending. *)
Definition takes (k : kst) (r : proc) (sig : Z) : bool :=
  match p_sigacts r ≫= λ a, lookup_action k a sig with
  | Some a => negb (immune r sig) && negb (sig =? 0) && negb (discards r a sig)
  | None => false
  end.

(** The kernel after [sig] was posted to the processes of [S]. *)
Record signalled (k k' : kst) (sig : Z) (S : gset ptr) : Prop := {
  sd_queues : ∃ Q, queues_ok k' Q;
  sd_rest : rest k' = rest k;
  sd_dom : dom (procs k') = dom (procs k);
  sd_core : ∀ p r r', procs k !! p = Some r → procs k' !! p = Some r' →
    core r' = core (if bool_decide (p ∈ S) then post sig r else r);
  sd_wait : ∀ p r r', procs k !! p = Some r → procs k' !! p = Some r' →
    wait_q r' = if bool_decide (p ∈ S) && unmasked r sig && asleep r
                then READY_Q else wait_q r;
}.

(** What posting needs to know of a process: its table of actions. *)
Definition has_action (k : kst) (sig : Z) (r : proc) : Prop :=
  ∃ a act, p_sigacts r = Some a ∧ lookup_action k a sig = Some act.

Lemma signalled_refl k sig Q : queues_ok k Q → signalled k k sig ∅.
Proof.
  intros Hok. constructor; [eauto|done|done| |].
  - intros p r r' Hr Hr'. rewrite bool_decide_eq_false_2 by set_solver. congruence.
  - intros p r r' Hr Hr'. rewrite bool_decide_eq_false_2 by set_solver. cbn. congruence.
Qed.

Lemma post_run k Q p r sig :
  queues_ok k Q → procs k !! p = Some r → has_action k sig r → 0 ≤ sig < NSIG →
  ∃ k', post_sig p sig k = Some (tt, k') ∧
    signalled k k' sig (if takes k r sig then {[p]} else ∅).
Proof.
  intros Hok Hr (a & act & Ha & Hact) Hs. unfold post_sig, takes. rewrite Ha. cbn [mbind option_bind].
  rewrite Hact. erewrite bind_run by (apply massert_run; lia).
  erewrite bind_run by by apply getp_run.
  pose proof (signalled_refl k sig Q Hok) as Hrefl.
  destruct (immune r sig); [by exists k|]. cbn [negb andb].
  erewrite bind_run by (apply massert_run, bool_decide_eq_true_2; by rewrite Ha).
  destruct (sig =? 0); [by exists k|]. cbn [negb andb].
  erewrite bind_run by by eapply SIGACTION_run.
  destruct (discards r act sig); [by exists k|]. cbn [negb].
  erewrite bind_run by by apply modp_run. fold (post sig r). set (k1 := set_procs _ k).
  assert (queues_ok k1 Q) as Hok1 by (by apply queues_ok_modp).
  assert (procs k1 !! p = Some (post sig r)) as Hr1 by apply lookup_insert_eq.
  assert (dom (procs k1) = dom (procs k)) as Hd1.
  { cbn. rewrite dom_insert_L. apply elem_of_dom_2 in Hr. set_solver. }
  erewrite bind_run by by apply getp_run. fold (unmasked (post sig r) sig).
  change (unmasked (post sig r) sig) with (unmasked r sig).
  assert (∀ q rq rq1, procs k !! q = Some rq → procs k1 !! q = Some rq1 →
    rq1 = (if bool_decide (q ∈ ({[p]} : gset ptr)) then post sig rq else rq)) as Hk1.
  { intros q rq rq1 Hrq Hrq1. change (<[p := post sig r]> (procs k) !! q = Some rq1) in Hrq1.
    case_bool_decide as Hq.
    - apply elem_of_singleton in Hq as ->. rewrite lookup_insert_eq in Hrq1. congruence.
    - rewrite lookup_insert_ne in Hrq1 by set_solver. congruence. }
  destruct (unmasked r sig) eqn:Hum; cbn [mwhen].
  - destruct (wake_up_ok k1 Q p (post sig r) Hok1 Hr1) as (k' & Hrun & Hok' & Hc & Hrest & Hw).
    exists k'. split; [done|]. pose proof (cores_dom k1 k' Hc) as Hd.
    assert (∀ q rq', procs k' !! q = Some rq' → ∃ rq1, procs k1 !! q = Some rq1 ∧
      core rq' = core rq1) as Hback.
    { intros q rq' Hq. by apply (cores_lookup k1 k'). }
    constructor; [eauto|done|congruence| |].
    + intros q rq rq' Hrq Hrq'. destruct (Hback q rq' Hrq') as (rq1 & Hrq1 & ->).
      f_equal. by apply (Hk1 q).
    + intros q rq rq' Hrq Hrq'. destruct (Hback q rq' Hrq') as (rq1 & Hrq1 & _).
      rewrite (Hw q rq1 rq' Hrq1 Hrq'), (Hk1 q rq rq1 Hrq Hrq1).
      rewrite (bool_decide_ext (q ∈ {[p]}) (q = p)) by apply elem_of_singleton.
      case_bool_decide as Hq; cbn [andb]; [|done]. subst q.
      assert (rq = r) as -> by congruence. by rewrite Hum.
  - exists k1. split; [done|]. constructor; [eauto|done|done| |].
    + intros q rq rq' Hrq Hrq'. f_equal. by apply (Hk1 q).
    + intros q rq rq' Hrq Hrq'. rewrite (Hk1 q rq rq' Hrq Hrq').
      case_bool_decide as Hq; cbn [andb]; [|done].
      apply elem_of_singleton in Hq as ->. assert (rq = r) as -> by congruence. by rewrite Hum.
Qed.

Lemma core_post sig r : core (post sig r) = post sig (core r).
Proof. done. Qed.

Lemma signalled_trans k k1 k2 sig S1 S2 :
  S1 ## S2 → signalled k k1 sig S1 → signalled k1 k2 sig S2 → signalled k k2 sig (S1 ∪ S2).
Proof.
  intros Hdis [_ Hr1 Hd1 Hc1 Hw1] [HQ Hr2 Hd2 Hc2 Hw2].
  assert (∀ p r r2, procs k !! p = Some r → procs k2 !! p = Some r2 → ∃ r1,
    procs k1 !! p = Some r1) as Hmid.
  { intros p r r2 Hr Hr2'. apply elem_of_dom. rewrite Hd1. by apply elem_of_dom_2 in Hr. }
  constructor; [done|congruence|congruence| |]; intros p r r2 Hr Hr2';
    destruct (Hmid p r r2 Hr Hr2') as [r1 Hr1'];
    specialize (Hc1 p r r1 Hr Hr1'); specialize (Hc2 p r1 r2 Hr1' Hr2');
    specialize (Hw1 p r r1 Hr Hr1'); specialize (Hw2 p r1 r2 Hr1' Hr2').
  - rewrite Hc2. repeat case_bool_decide; rewrite ?core_post, ?Hc1; set_solver.
  - rewrite Hw2. destruct (decide (p ∈ S1)) as [Hp1|Hp1].
    + rewrite (bool_decide_eq_true_2 (p ∈ S1)), (bool_decide_eq_true_2 (p ∈ S1 ∪ S2)),
        (bool_decide_eq_false_2 (p ∈ S2)) in * by set_solver. done.
    + rewrite (bool_decide_eq_false_2 (p ∈ S1)) in Hw1, Hc1 by done. cbn in Hw1.
      rewrite (bool_decide_ext (p ∈ S1 ∪ S2) (p ∈ S2)) by set_solver.
      unfold unmasked, asleep. rewrite Hw1.
      replace (p_sigmask r1) with (p_sigmask r); [done|].
      change (p_sigmask (core r) = p_sigmask (core r1)). by rewrite Hc1.
Qed.

(** A field of a process that no signal changes. *)
Lemma signalled_field {A} (f : proc → A) k k' sig S p r :
  (∀ r, f (core r) = f r) → (∀ r, f (post sig r) = f r) →
  signalled k k' sig S → procs k !! p = Some r →
  ∃ r', procs k' !! p = Some r' ∧ f r' = f r.
Proof.
  intros Hf Hp [_ _ Hd Hc _] Hr.
  assert (is_Some (procs k' !! p)) as [r' Hr'].
  { apply elem_of_dom. rewrite Hd. by apply elem_of_dom_2 in Hr. }
  exists r'. split; [done|]. specialize (Hc p r r' Hr Hr').
  rewrite <- (Hf r'), Hc, Hf. case_bool_decide; auto.
Qed.

(** ** Permission *)

Definition permitted (uc : ucred) (cc cp : pcred) (rc rp : proc) (sig priv : Z) : bool :=
  suser uc || (euid uc =? suid cp) || (euid uc =? ruid cp) || (ruid cc =? suid cp)
  || (ruid cc =? ruid cp) || negb (priv =? 0) || ((sig =? SIGCONT) && (pgrp rc =? pgrp rp)).

(** Whether [c] may send [sig] to [p], as the tables of [k] say. *)
Definition perm (k : kst) (c p : ptr) (sig priv : Z) : option bool :=
  rc ← procs k !! c;
  rp ← procs k !! p;
  cc ← pcreds k !! p_cred rc;
  uc ← ucreds k !! ucr cc;
  cp ← pcreds k !! p_cred rp;
  Some (permitted uc cc cp rc rp sig priv).

Lemma may_signal_run k c p sig priv b :
  perm k c p sig priv = Some b → may_signal c p sig priv k = Some (b, k).
Proof.
  unfold perm, may_signal. intros Hp.
  destruct (procs k !! c) as [rc|] eqn:Hc; [|done]. erewrite bind_run by by apply getp_run.
  cbn in Hp. destruct (procs k !! p) as [rp|] eqn:Hrp; [|done].
  erewrite bind_run by by apply getp_run. cbn in Hp.
  destruct (pcreds k !! p_cred rc) as [cc|] eqn:Hcc; [|done].
  erewrite bind_run by by apply (mderef_run (λ k, pcreds k !! p_cred rc)). cbn in Hp.
  destruct (ucreds k !! ucr cc) as [uc|] eqn:Huc; [|done].
  erewrite bind_run by by apply (mderef_run (λ k, ucreds k !! ucr cc)). cbn in Hp.
  destruct (pcreds k !! p_cred rp) as [cp|] eqn:Hcp; [|done].
  erewrite bind_run by by apply (mderef_run (λ k, pcreds k !! p_cred rp)). cbn in Hp.
  injection Hp as <-. rewrite ret_run. unfold permitted. do 2 f_equal.
  destruct (suser uc), (euid uc =? suid cp), (euid uc =? ruid cp), (ruid cc =? suid cp),
    (ruid cc =? ruid cp), (priv =? 0); done.
Qed.

Lemma rest_eq {A} (f : kst → A) k k' :
  (∀ k, f (rest k) = f k) → rest k' = rest k → f k' = f k.
Proof. intros Hf Hr. by rewrite <- (Hf k'), Hr, Hf. Qed.

Lemma perm_signalled k k' sig S c p priv b :
  signalled k k' sig S → perm k c p sig priv = Some b → perm k' c p sig priv = Some b.
Proof.
  intros Hs. pose proof (sd_rest _ _ _ _ Hs) as Hrest. unfold perm.
  destruct (procs k !! c) as [rc|] eqn:Hc; [|done].
  destruct (procs k !! p) as [rp|] eqn:Hp; [|done].
  destruct (signalled_field (λ r, (p_cred r, pgrp r)) k k' sig S c rc ltac:(done) ltac:(done)
    Hs Hc) as (rc' & -> & [= Hc1 Hc2]).
  destruct (signalled_field (λ r, (p_cred r, pgrp r)) k k' sig S p rp ltac:(done) ltac:(done)
    Hs Hp) as (rp' & -> & [= Hp1 Hp2]).
  cbn. rewrite Hc1, Hp1, (rest_eq pcreds k k'), (rest_eq ucreds k k') by done.
  unfold permitted. by rewrite Hc2, Hp2.
Qed.

(** ** Signals to groups *)

(** What [killgroup] relies on for a process of the list. *)
Definition target_ok (k : kst) (sig priv : Z) (p : ptr) : Prop :=
  ∃ r b, procs k !! p = Some r ∧ has_action k sig r ∧
         perm k (curproc k) p sig priv = Some b.

Definition live_member (k : kst) (g : Z) (p : ptr) : bool :=
  match procs k !! p with Some r => negb (is_dead r) && (pgrp r =? g) | None => false end.
Definition allowed (k : kst) (sig priv : Z) (p : ptr) : bool :=
  match perm k (curproc k) p sig priv with Some b => b | None => false end.
Definition hit (k : kst) (sig : Z) (p : ptr) : bool :=
  match procs k !! p with Some r => takes k r sig | None => false end.

(** The processes of [l] that a signal to the group [g] reaches. *)
Definition reached (k : kst) (g sig priv : Z) (l : list ptr) : list ptr :=
  filter (λ p, live_member k g p && allowed k sig priv p && hit k sig p) l.

Lemma send_sig_run k Q p r sig priv b :
  queues_ok k Q → procs k !! p = Some r → has_action k sig r → 0 ≤ sig < NSIG →
  is_dead r = false → perm k (curproc k) p sig priv = Some b →
  ∃ k', send_sig p sig priv k = Some (if b then 0 else EACCES, k') ∧
    signalled k k' sig (if b && takes k r sig then {[p]} else ∅).
Proof.
  intros Hok Hr Hact Hs Hdead Hperm. unfold send_sig.
  pose proof (signalled_refl k sig Q Hok) as Hrefl.
  erewrite (bind_run (mgets _)) by reflexivity.
  erewrite bind_run by by apply may_signal_run.
  destruct b; cbn [negb andb]; [|by exists k].
  pose proof Hact as (a & act & Ha & Hact').
  destruct (Z.eqb_spec sig 0) as [->|Hs0].
  { exists k. split; [done|]. unfold takes. destruct (_ ≫= _); [|done].
    by rewrite andb_false_r. }
  erewrite bind_run by by apply getp_run. rewrite Hdead.
  erewrite bind_run by (apply massert_run, bool_decide_eq_true_2; by rewrite Ha).
  erewrite bind_run by by eapply SIGACTION_run.
  destruct (discards r act sig) eqn:Hd.
  { exists k. split; [done|]. unfold takes. rewrite Ha. cbn [mbind option_bind].
    rewrite Hact', Hd. by rewrite !andb_false_r. }
  destruct (post_run k Q p r sig Hok Hr Hact Hs) as (k' & Hrun & Hsig).
  exists k'. split; [|done]. by erewrite bind_run by exact Hrun.
Qed.

(** A process that was not signalled has changed in its queue links only. *)
Lemma signalled_other k k1 sig S p r :
  signalled k k1 sig S → procs k !! p = Some r → p ∉ S →
  ∃ r1, procs k1 !! p = Some r1 ∧ core r1 = core r ∧ wait_q r1 = wait_q r.
Proof.
  intros Hs Hr Hp.
  destruct (signalled_field (λ _, tt) k k1 sig S p r ltac:(done) ltac:(done) Hs Hr)
    as (r1 & Hr1 & _).
  exists r1. split; [done|]. destruct Hs as [_ _ _ Hc Hw].
  specialize (Hc p r r1 Hr Hr1). specialize (Hw p r r1 Hr Hr1).
  by rewrite bool_decide_eq_false_2 in Hc, Hw.
Qed.

Lemma core_fields r r1 :
  core r1 = core r → pid r1 = pid r ∧ pgrp r1 = pgrp r ∧ p_flag r1 = p_flag r ∧
  p_sigacts r1 = p_sigacts r ∧ ptracer r1 = ptracer r.
Proof. destruct r, r1. unfold core. cbn. by intros [=]. Qed.

Lemma takes_same k k1 r r1 sig :
  rest k1 = rest k → core r1 = core r → wait_q r1 = wait_q r →
  is_dead r1 = is_dead r ∧ takes k1 r1 sig = takes k r sig ∧
  (has_action k sig r → has_action k1 sig r1).
Proof.
  intros Hrest Hc Hw. apply core_fields in Hc as (Hpid & _ & Hfl & Hsa & Htr).
  assert (sigactss k1 = sigactss k) as Hk by (by apply (rest_eq sigactss)).
  unfold takes, has_action, immune, is_dead, discards, lookup_action.
  by rewrite Hw, Hpid, Hfl, Hsa, Htr, Hk.
Qed.

Lemma reached_one k g sig priv p :
  reached k g sig priv [p] =
  if live_member k g p && allowed k sig priv p && hit k sig p then [p] else [].
Proof.
  unfold reached. rewrite filter_cons.
  destruct (live_member k g p && allowed k sig priv p && hit k sig p) eqn:E.
  - by rewrite decide_True.
  - rewrite decide_False; [done|]. by intros [].
Qed.

Lemma kill_member_run k k1 g sig priv S v p :
  signalled k k1 sig S → p ∉ S → target_ok k sig priv p → 0 ≤ sig < NSIG →
  ∃ k2, kill_member g sig priv v p k1 =
    Some (if live_member k g p
          then if allowed k sig priv p then (true, v.2) else (v.1, EACCES) else v, k2) ∧
    signalled k k2 sig (S ∪ list_to_set (reached k g sig priv [p])).
Proof.
  intros Hsig Hp (r & b & Hr & Hact & Hperm) Hs.
  destruct (signalled_other k k1 sig S p r Hsig Hr Hp) as (r1 & Hr1 & Hc & Hw).
  pose proof (sd_rest _ _ _ _ Hsig) as Hrest.
  destruct (takes_same k k1 r r1 sig Hrest Hc Hw) as (Hdead & Htakes & Hact').
  assert (pgrp r1 = pgrp r) as Hg by (by apply core_fields in Hc as (_ & ? & _)).
  rewrite reached_one. unfold kill_member. destruct v as [found ret].
  erewrite bind_run by by apply getp_run.
  assert (live_member k g p = negb (is_dead r) && (pgrp r =? g)) as Hlive
    by (unfold live_member; by rewrite Hr).
  assert (allowed k sig priv p = b) as Hb by (unfold allowed; by rewrite Hperm).
  assert (hit k sig p = takes k r sig) as Hh by (unfold hit; by rewrite Hr).
  cbn. rewrite Hlive, Hb, Hh, Hdead, Hg.
  destruct (is_dead r) eqn:Hd; cbn [negb andb].
  { exists k1. split; [done|]. cbn. by rewrite union_empty_r_L. }
  destruct (pgrp r =? g); cbn [negb andb].
  2: { exists k1. split; [done|]. cbn. by rewrite union_empty_r_L. }
  destruct (sd_queues _ _ _ _ Hsig) as [Q1 Hok1].
  assert (curproc k1 = curproc k) as Hcur by (by apply (rest_eq curproc)).
  destruct (send_sig_run k1 Q1 p r1 sig priv b Hok1 Hr1 (Hact' Hact) Hs) as (k2 & Hrun & Hsig2).
  { congruence. }
  { rewrite Hcur. by eapply perm_signalled. }
  exists k2. erewrite bind_run by exact Hrun. split; [by destruct b|].
  rewrite Htakes in Hsig2. destruct (b && takes k r sig) eqn:Hbt; cbn.
  - rewrite union_empty_r_L. apply signalled_trans with k1; [set_solver|done|done].
  - rewrite <- (union_empty_r_L S) at 1. rewrite union_empty_r_L.
    by apply signalled_trans with k1; [set_solver|done|].
Qed.

Lemma reached_cons k g sig priv p l :
  reached k g sig priv (p :: l) = reached k g sig priv [p] ++ reached k g sig priv l.
Proof. apply (filter_app _ [p]). Qed.

Lemma reached_incl k g sig priv l p : p ∈ reached k g sig priv l → p ∈ l.
Proof. unfold reached. by intros [_ ?]%list_elem_of_filter. Qed.

Lemma group_loop k g sig priv l : ∀ k1 S v,
  0 ≤ sig < NSIG → NoDup l → Forall (target_ok k sig priv) l →
  signalled k k1 sig S → (∀ p, p ∈ l → p ∉ S) →
  ∃ k2, fold_procs (kill_member g sig priv) v l k1 =
    Some (v.1 || existsb (λ p, live_member k g p && allowed k sig priv p) l,
          if existsb (λ p, live_member k g p && negb (allowed k sig priv p)) l
          then EACCES else v.2, k2) ∧
    signalled k k2 sig (S ∪ list_to_set (reached k g sig priv l)).
Proof.
  induction l as [|p l IH]; intros k1 S v Hs Hnd Hl Hsig Hout.
  { exists k1. cbn. rewrite union_empty_r_L, orb_false_r. split; [by destruct v|done]. }
  apply NoDup_cons in Hnd as [Hp Hnd]. apply Forall_cons in Hl as [Hok Hl].
  destruct (kill_member_run k k1 g sig priv S v p Hsig) as (k2 & Hrun & Hsig2); try done.
  { apply Hout. left. }
  cbn [fold_procs]. erewrite bind_run by exact Hrun.
  edestruct (IH k2) as (k3 & Hrun3 & Hsig3); [done|done|done|exact Hsig2| |].
  { intros q Hq. assert (q ∉ S) by (apply Hout; by right).
    assert (q ∉ reached k g sig priv [p]) by (intros Hq'%reached_incl; set_solver).
    set_solver. }
  exists k3. rewrite Hrun3. split.
  - do 2 f_equal. cbn [existsb].
    destruct (live_member k g p), (allowed k sig priv p); cbn [andb negb orb]; try done.
    + cbn [fst snd]. by rewrite orb_true_r.
    + cbn [fst snd]. by destruct (existsb (λ p, live_member k g p && negb _) l).
  - rewrite (reached_cons k g sig priv p l), list_to_set_app_L, (assoc_L (∪)). done.
Qed.


(** [killgroup] answers EINTERNAL and EINVAL for a bad group or signal.
    Otherwise the signal is posted to exactly the live members of the group the
    sender has permission for, and the result tells what was found: success if
    one member could be signalled, EACCES if there are members but none may be
    signalled, ENOENT if there is no live member. *)
Theorem killgroup_spec k Q g sig priv :
  queues_ok k Q → NoDup (proclist k) → Forall (target_ok k sig priv) (proclist k) →
  0 ≤ sig →
  ∃ res k', killgroup g sig priv k = Some (res, k') ∧
  if g <? 0 then res = EINTERNAL ∧ k' = k
  else if NSIG <=? sig then res = EINVAL ∧ k' = k
  else
    signalled k k' sig (list_to_set (reached k g sig priv (proclist k))) ∧
    res = if existsb (λ p, live_member k g p && allowed k sig priv p) (proclist k) then E_OK
          else if existsb (live_member k g) (proclist k) then EACCES else ENOENT.
Proof.
  intros Hok Hnd Hl Hs. unfold killgroup. destruct (g <? 0); [by exists EINTERNAL, k|].
  rewrite Z.geb_leb. destruct (Z.leb_spec NSIG sig) as [|Hlt]; [by exists EINVAL, k|].
  erewrite (bind_run (mgets _)) by reflexivity.
  destruct (group_loop k g sig priv (proclist k) k ∅ (false, ENOENT) ltac:(done) Hnd Hl
    (signalled_refl k sig Q Hok) ltac:(set_solver)) as (k' & Hrun & Hsig).
  eexists _, k'. erewrite bind_run by exact Hrun. split; [done|].
  rewrite union_empty_l_L in Hsig. split; [done|].
  unfold group_result. cbn [fst snd orb].
  destruct (existsb (λ p, live_member k g p && allowed k sig priv p)) eqn:He; [done|].
  assert (∀ l, existsb (λ p, live_member k g p && allowed k sig priv p) l = false →
    existsb (λ p, live_member k g p && negb (allowed k sig priv p)) l =
    existsb (live_member k g) l) as Hex.
  { clear. induction l as [|p l IH]; [done|]. cbn. intros [H1 H2]%orb_false_elim.
    rewrite IH by done. by destruct (live_member k g p), (allowed k sig priv p). }
  by rewrite Hex.
Qed.

(** ** Delivery of the pending signals *)

(** Handling [sig] by [a] returns to the loop and touches no pending signal. *)
Definition harmless (a : sigaction) (sig : Z) : bool :=
  negb (sa_handler a =? SIG_DFL) || (sig =? SIGWINCH) || (sig =? SIGCHLD) || (sig =? SIGFPE).

(** The current process [p] is [r], with the actions [tbl]. *)
Record delivering (k : kst) (p : ptr) (r : proc) (a : ptr) (s : sigacts) : Prop := {
  dl_cur : curproc k = p;
  dl_proc : procs k !! p = Some r;
  dl_acts : p_sigacts r = Some a;
  dl_table : sigactss k !! a = Some s;
}.

(** What delivery relies on: a handler that runs returns, leaves the process in
    the table as it found it, and does not change its actions. *)
Class SignalCallsOk `{SignalCalls} : Prop := {
  sendsig_ok k p r a s sig : delivering k p r a s →
    ∃ k', sendsig sig k = Some (0, k') ∧ delivering k' p r a s;
  proc_ext_on_signal_ok k p r a s sig : delivering k p r a s →
    ∃ k', proc_ext_on_signal p sig k = Some (tt, k') ∧ delivering k' p r a s;
}.

Section delivery_lemmas.
Context `{SignalCallsOk}.

Lemma delivering_modp k p r a s f :
  delivering k p r a s → p_sigacts (f r) = p_sigacts r →
  ∃ k', modp p f k = Some (tt, k') ∧ delivering k' p (f r) a s.
Proof.
  intros [Hc Hp Ha Hs] Hf. eexists. split; [by apply modp_run|].
  constructor; cbn; [done|apply lookup_insert_eq|congruence|done].
Qed.

Lemma delivering_action k p r a s sig act :
  delivering k p r a s → sigact s !! Z.to_nat sig = Some act →
  SIGACTION p sig k = Some (act, k).
Proof.
  intros [Hc Hp Ha Hs] Hact. eapply SIGACTION_run; [done|done|].
  unfold lookup_action. by rewrite Hs.
Qed.

Lemma handle_sig_run k p r a s sig act :
  delivering k p r a s → sigact s !! Z.to_nat sig = Some act → harmless act sig = true →
  0 ≤ sig < NSIG →
  ∃ k', handle_sig sig k = Some (tt, k') ∧ delivering k' p (set_last_sig sig r) a s.
Proof.
  intros Hd Hact Hh Hs. unfold handle_sig.
  erewrite bind_run by (apply massert_run; lia).
  erewrite (bind_run (mgets _)) by reflexivity. rewrite (dl_cur _ _ _ _ _ Hd).
  erewrite bind_run by apply getp_run, Hd.
  erewrite bind_run by (apply massert_run, bool_decide_eq_true_2; by rewrite (dl_acts _ _ _ _ _ Hd)).
  destruct (proc_ext_on_signal_ok k p r a s sig Hd) as (k1 & H1 & Hd1).
  erewrite bind_run by exact H1.
  destruct (delivering_modp k1 p r a s (set_last_sig sig) Hd1 eq_refl) as (k2 & H2 & Hd2).
  erewrite bind_run by exact H2. erewrite bind_run by by eapply delivering_action.
  destruct (sa_handler act =? SIG_IGN); [by exists k2|].
  unfold harmless in Hh. destruct (sa_handler act =? SIG_DFL); cbn [negb orb] in Hh.
  - exists k2. split; [|done]. unfold default_action. by rewrite Hh.
  - destruct (sendsig_ok k2 p _ a s sig Hd2) as (k3 & H3 & Hd3).
    exists k3. by erewrite bind_run by exact H3.
Qed.

(** The mask is restored after each signal. *)
Lemma deliver_run k p r a s sig act :
  delivering k p r a s → sigact s !! Z.to_nat sig = Some act → harmless act sig = true →
  0 ≤ sig < NSIG →
  ∃ k', deliver p sig k = Some (tt, k') ∧ delivering k' p (set_last_sig sig r) a s.
Proof.
  intros Hd Hact Hh Hs. unfold deliver. erewrite bind_run by apply getp_run, Hd.
  erewrite bind_run by by eapply delivering_action.
  destruct (delivering_modp k p r a s (set_p_sigmask (handler_mask (p_sigmask r) sig act))
    Hd eq_refl) as (k1 & H1 & Hd1). erewrite bind_run by exact H1.
  destruct (handle_sig_run k1 p _ a s sig act Hd1 Hact Hh Hs) as (k2 & H2 & Hd2).
  erewrite bind_run by exact H2.
  destruct (delivering_modp k2 p _ a s (set_p_sigmask (p_sigmask r)) Hd2 eq_refl)
    as (k3 & H3 & Hd3). exists k3. split; [exact H3|]. by destruct r.
Qed.

(** [sigs] without the signals of [l], and the last signal of [l] in [sigs]. *)
Definition cleared (sigs : Z) (l : list Z) (m : Z) : Z :=
  foldl (λ m i, if negb (Z.land sigs (bit i) =? 0) then Z.land m (not32 (bit i)) else m) m l.
Definition last_in (sigs : Z) (l : list Z) (z : Z) : Z :=
  foldl (λ z i, if negb (Z.land sigs (bit i) =? 0) then i else z) z l.

Definition after_scan (sigs : Z) (l : list Z) (r : proc) : proc :=
  set_last_sig (last_in sigs l (last_sig r)) (set_sigpending (cleared sigs l (sigpending r)) r).

Definition all_harmless (s : sigacts) (sigs : Z) : Prop :=
  ∀ i, 1 ≤ i < NSIG → Z.testbit sigs i = true →
  ∃ act, sigact s !! Z.to_nat i = Some act ∧ harmless act i = true.

Lemma scan_sigs_run again p sigs b a s l : ∀ k r,
  delivering k p r a s → ptracer r = None → all_harmless s sigs →
  Forall (λ i, 1 ≤ i < NSIG) l →
  ∃ k', scan_sigs again p sigs b l k = Some (tt, k') ∧
        delivering k' p (after_scan sigs l r) a s.
Proof.
  induction l as [|i l IH]; intros k r Hd Ht Hh Hl.
  { exists k. split; [done|]. unfold after_scan. cbn. by destruct r. }
  apply Forall_cons in Hl as [Hi Hl]. cbn [scan_sigs].
  unfold after_scan, cleared, last_in. cbn [foldl].
  destruct (Z.eqb_spec (Z.land sigs (bit i)) 0) as [|Hbit]; cbn [negb]; [by apply IH|].
  destruct (Hh i Hi) as (act & Hact & Hha).
  { destruct (Z.testbit sigs i) eqn:E; [done|]. destruct Hbit.
    apply Z.eqb_eq. rewrite land_bit_zero by lia. by rewrite E. }
  destruct (delivering_modp k p r a s
    (λ r, set_sigpending (Z.land (sigpending r) (not32 (bit i))) r) Hd eq_refl)
    as (k1 & H1 & Hd1). erewrite bind_run by exact H1.
  erewrite bind_run by apply getp_run, Hd1.
  rewrite bool_decide_eq_false_2 by (cbn; intros Hn; by apply Hn). cbn [andb].
  destruct (deliver_run k1 p _ a s i act Hd1 Hact Hha ltac:(unfold NSIG in *; lia))
    as (k2 & H2 & Hd2). erewrite bind_run by exact H2.
  destruct (IH k2 _ Hd2 Ht Hh Hl) as (k3 & H3 & Hd3). exists k3. split; [exact H3|].
  unfold after_scan, cleared, last_in in Hd3. by destruct r.
Qed.
End delivery_lemmas.

Lemma cleared_bit sigs l : ∀ m j,
  Forall (λ i, 1 ≤ i < NSIG) l → 0 ≤ j < 32 →
  Z.testbit (cleared sigs l m) j =
  Z.testbit m j && negb (bool_decide (j ∈ l) && Z.testbit sigs j).
Proof.
  induction l as [|i l IH]; intros m j Hl Hj.
  { cbn. by rewrite andb_true_r. }
  apply Forall_cons in Hl as [Hi Hl]. unfold NSIG in Hi.
  change (cleared sigs (i :: l) m) with
    (cleared sigs l (if negb (Z.land sigs (bit i) =? 0) then Z.land m (not32 (bit i)) else m)).
  rewrite IH by done. rewrite land_bit_zero, negb_involutive by lia.
  destruct (Z.eqb_spec j i) as [->|Hne].
  - rewrite (bool_decide_eq_true_2 (i ∈ i :: l)) by left.
    destruct (Z.testbit sigs i) eqn:E; [|by rewrite !andb_false_r].
    rewrite land_not32_bit_spec, Z.eqb_refl by lia. by rewrite !andb_false_r.
  - rewrite (bool_decide_ext (j ∈ i :: l) (j ∈ l)) by set_solver.
    destruct (Z.testbit sigs i); [|done].
    rewrite land_not32_bit_spec by lia. replace (j =? i) with false by lia.
    by rewrite andb_true_r.
Qed.

Lemma all_sigs_in j : 1 ≤ j < 32 → j ∈ all_sigs.
Proof. intros. apply Zrange_elem. lia. Qed.

Lemma all_sigs_range : Forall (λ i, 1 ≤ i < NSIG) all_sigs.
Proof. apply Forall_forall. intros i Hi. unfold all_sigs in Hi. cbn in Hi. set_solver by lia. Qed.


(** ** Actions and masks *)

(** The action that a process asked for, as it is installed over [old]. *)
Definition installed (act old : sigaction) : sigaction :=
  mk_sigaction (sa_handler act) (Z.land (sa_mask act) (not32 UNMASKABLE))
    (Z.lor (Z.land (sa_flags old) (not16 SAUSER)) (Z.land (sa_flags act) SAUSER)).

(** The caller after it installed a handler for [sig]. *)
Definition unblocked (sig handler : Z) (r : proc) : proc :=
  set_p_sigmask (Z.land (p_sigmask r) (not32 (bit sig)))
    (if handler =? SIG_IGN
     then set_sigpending (Z.land (sigpending r) (not32 (bit sig))) r else r).

Definition with_action (sig : Z) (f : sigaction → sigaction) (s : sigacts) : sigacts :=
  mk_sigacts (alter f (Z.to_nat sig) (sigact s)) (sg_links s).

Lemma mod_action_run k p r a s sig f :
  delivering k p r a s →
  ∃ k', mod_action p sig f k = Some (tt, k') ∧
    k' = set_sigactss (<[a := with_action sig f s]> (sigactss k)) k ∧
    delivering k' p r a (with_action sig f s).
Proof.
  intros [Hc Hp Ha Hs]. unfold mod_action, put_action.
  erewrite bind_run by by apply getp_run. rewrite Ha.
  erewrite bind_run by by apply (mderef_run (λ k, sigactss k !! a)).
  eexists. split; [done|]. split; [done|].
  constructor; [done|done|done|]. apply lookup_insert_eq.
Qed.

Lemma unblock_run k p r a s sig handler :
  delivering k p r a s →
  (mwhen (handler =? SIG_IGN)
     (modp p (λ r, set_sigpending (Z.land (sigpending r) (not32 (bit sig))) r)) ;;
   modp p (λ r, set_p_sigmask (Z.land (p_sigmask r) (not32 (bit sig))) r)) k =
  Some (tt, set_procs (<[p := unblocked sig handler r]> (procs k)) k).
Proof.
  intros [Hc Hp Ha Hs]. unfold unblocked, mwhen. destruct (handler =? SIG_IGN).
  - erewrite bind_run by by apply modp_run.
    rewrite (modp_run p _ _ _ (lookup_insert_eq _ _ _)). state_eq.
  - erewrite bind_run by by apply ret_run. by rewrite (modp_run p r _ k Hp).
Qed.

(** The kernel after the actions of the caller changed. *)
Definition acted (p a : ptr) (sig handler : Z) (f : sigaction → sigaction) (r : proc)
    (s : sigacts) (k : kst) : kst :=
  set_procs (<[p := unblocked sig handler r]> (procs k))
    (set_sigactss (<[a := with_action sig f s]> (sigactss k)) k).

Lemma acted_delivering k p a sig handler f r s :
  delivering k p r a s →
  delivering (acted p a sig handler f r s k) p (unblocked sig handler r) a (with_action sig f s).
Proof.
  intros [Hc Hp Ha Hs]. constructor; cbn; [done|apply lookup_insert_eq| |apply lookup_insert_eq].
  unfold unblocked. by case_bool.
Qed.

Lemma sigaction_run k p r a s sig act oact old :
  delivering k p r a s → 1 ≤ sig < NSIG → sigact s !! Z.to_nat sig = Some old →
  (act ≠ None → sig ≠ SIGKILL ∧ sig ≠ SIGSTOP) →
  sys_p_sigaction sig act oact k =
  Some ((E_OK, if oact then Some (set_sa_flags (Z.land (sa_flags old) SAUSER) old) else None),
        match act with
        | Some act => acted p a sig (sa_handler act) (installed act) r s k
        | None => k
        end).
Proof.
  intros Hd Hs Hold Hact. unfold sys_p_sigaction.
  erewrite (bind_run (mgets _)) by reflexivity. rewrite (dl_cur _ _ _ _ _ Hd).
  erewrite bind_run by apply getp_run, Hd.
  erewrite bind_run by (apply massert_run, bool_decide_eq_true_2; by rewrite (dl_acts _ _ _ _ _ Hd)).
  replace ((sig <? 1) || (sig >=? NSIG)) with false by lia.
  replace (bool_decide (act ≠ None) && _) with false.
  2: { case_bool_decide as Ha; [|done]. specialize (Hact Ha). cbn. lia. }
  erewrite bind_run by by eapply delivering_action.
  destruct act as [act|]; [|done].
  destruct (mod_action_run k p r a s sig (installed act) Hd) as (k1 & H1 & -> & Hd1).
  erewrite bind_run by exact H1.
  pose proof (unblock_run _ p r a _ sig (sa_handler act) Hd1) as H2.
  rewrite <- bind_assoc. by erewrite bind_run by exact H2.
Qed.

Lemma installed_user_flags act old :
  Z.land (sa_flags (installed act old)) SAUSER = Z.land (sa_flags act) SAUSER.
Proof.
  cbn. rewrite Z.land_lor_distr_l, <- !Z.land_assoc, Z.land_diag.
  by change (Z.land (not16 SAUSER) SAUSER) with 0; rewrite Z.land_0_r, Z.lor_0_l.
Qed.

(** Psigaction answers EBADARG for a signal out of range and EACCES for
    SIGKILL and SIGSTOP, without effect.  Otherwise a new action is in force at
    once: asking again gives back the handler, the mask without the unmaskable
    signals, and those flags that a process may set; the signal is unblocked, and
    it is no longer pending when it is now ignored. *)
Theorem sigaction_roundtrip `{SignalCallsOk} k p r a s sig act old :
  delivering k p r a s → sigact s !! Z.to_nat sig = Some old →
  if (sig <? 1) || (NSIG <=? sig) then sys_p_sigaction sig (Some act) true k = Some ((EBADARG, None), k)
  else if (sig =? SIGKILL) || (sig =? SIGSTOP) then
    sys_p_sigaction sig (Some act) true k = Some ((EACCES, None), k)
  else ∃ out k' r' s',
    sys_p_sigaction sig (Some act) true k = Some ((E_OK, Some out), k') ∧
    out = set_sa_flags (Z.land (sa_flags old) SAUSER) old ∧
    delivering k' p r' a s' ∧
    sys_p_sigaction sig None true k' =
      Some ((E_OK, Some (mk_sigaction (sa_handler act)
        (Z.land (sa_mask act) (not32 UNMASKABLE)) (Z.land (sa_flags act) SAUSER))), k') ∧
    p_sigmask r' = Z.land (p_sigmask r) (not32 (bit sig)) ∧
    sigpending r' = (if sa_handler act =? SIG_IGN
                     then Z.land (sigpending r) (not32 (bit sig)) else sigpending r).
Proof.
  intros Hd Hold.
  assert (∀ (X : M kst (Z * option sigaction)) out, X k = Some (out, k) →
    (p ← mgets curproc; r ← getp p; massert (bool_decide (p_sigacts r ≠ None)) ;; X) k =
    Some (out, k)) as Hhead.
  { intros X out HX. erewrite (bind_run (mgets _)) by reflexivity. rewrite (dl_cur _ _ _ _ _ Hd).
    erewrite bind_run by apply getp_run, Hd.
    by erewrite bind_run by (apply massert_run, bool_decide_eq_true_2;
                             by rewrite (dl_acts _ _ _ _ _ Hd)). }
  case_bool.
  { apply Hhead. by rewrite Z.geb_leb, E. }
  assert (1 ≤ sig < NSIG) as Hs by (unfold NSIG in *; lia).
  assert (((sig <? 1) || (sig >=? NSIG)) = false) as Hrange by (rewrite Z.geb_leb; exact E).
  destruct ((sig =? SIGKILL) || (sig =? SIGSTOP)) eqn:E2.
  { unfold sys_p_sigaction.
    erewrite (bind_run (mgets _)) by reflexivity. rewrite (dl_cur _ _ _ _ _ Hd).
    erewrite bind_run by apply getp_run, Hd.
    erewrite bind_run by (apply massert_run, bool_decide_eq_true_2;
                          by rewrite (dl_acts _ _ _ _ _ Hd)).
    by rewrite Hrange, bool_decide_eq_true_2, E2 by done. }
  bool_to_prop.
  pose proof (sigaction_run k p r a s sig (Some act) true old Hd Hs Hold ltac:(done)) as Hrun.
  pose proof (acted_delivering k p a sig (sa_handler act) (installed act) r s Hd) as Hd'.
  eexists _, _, _, _. split; [exact Hrun|]. split; [done|]. split; [exact Hd'|].
  split; [|unfold unblocked; by destruct (sa_handler act =? SIG_IGN)].
  erewrite (sigaction_run _ p _ a _ sig None true (installed act old) Hd' Hs); [|..|done].
  - unfold set_sa_flags. by rewrite installed_user_flags.
  - cbn. by rewrite list_lookup_alter_eq, Hold.
Qed.

(** Masks without the signals that cannot be masked. *)
Definition maskable (m : Z) : Prop := Z.land m UNMASKABLE = 0.

Lemma maskable_cleared m : maskable (Z.land m (not32 UNMASKABLE)).
Proof.
  unfold maskable. rewrite <- Z.land_assoc.
  change (Z.land (not32 UNMASKABLE) UNMASKABLE) with 0. apply Z.land_0_r.
Qed.
Lemma maskable_land m n : maskable m → maskable (Z.land m n).
Proof.
  unfold maskable. intros Hm. rewrite <- Z.land_assoc, (Z.land_comm n), Z.land_assoc, Hm.
  apply Z.land_0_l.
Qed.
Lemma maskable_lor m n : maskable m → maskable n → maskable (Z.lor m n).
Proof. unfold maskable. intros Hm Hn. by rewrite Z.land_lor_distr_l, Hm, Hn. Qed.
#[export] Hint Resolve maskable_cleared maskable_land maskable_lor : masks.

(** The mask of the caller and the masks of its actions. *)
Record masks_ok (r : proc) (s : sigacts) : Prop := {
  mk_mask : maskable (p_sigmask r);
  mk_acts : Forall (λ a, maskable (sa_mask a)) (sigact s);
}.

Lemma masks_ok_acted r s sig handler f :
  masks_ok r s → (∀ old, maskable (sa_mask (f old))) →
  masks_ok (unblocked sig handler r) (with_action sig f s).
Proof.
  intros [Hm Ha] Hf. constructor.
  - unfold unblocked. case_bool; cbn; auto with masks.
  - cbn. apply Forall_alter; auto.
Qed.

(** The calls of a process on its mask and its actions, while its state is
    [r] and [s]. *)
Inductive mask_call `{SignalCalls} (p a : ptr) : kst → kst → Prop :=
  | call_sigblock mask k old k' :
      sys_p_sigblock mask k = Some (old, k') → mask_call p a k k'
  | call_sigaction sig act oact k res k' :
      sys_p_sigaction sig act oact k = Some (res, k') → mask_call p a k k'
  | call_signal sig handler k res k' :
      sys_p_signal sig handler k = Some (res, k') → mask_call p a k k'.

Section mask_calls.
Context `{SignalCalls}.

Definition acted_by (p a : ptr) (r : proc) (s : sigacts) (k k' : kst) : Prop :=
  k' = k ∨ ∃ sig handler f, (∀ old, maskable (sa_mask (f old))) ∧
                            k' = acted p a sig handler f r s k.

Lemma sigaction_acted k p r a s sig act oact res k' :
  delivering k p r a s → length (sigact s) = 32%nat →
  sys_p_sigaction sig act oact k = Some (res, k') → acted_by p a r s k k'.
Proof.
  intros Hd Hlen Hrun. destruct (decide (1 ≤ sig < NSIG)) as [Hs|Hs].
  - destruct (lookup_lt_is_Some_2 (sigact s) (Z.to_nat sig)) as [old Hold];
      [unfold NSIG in Hs; lia|].
    destruct (decide (act ≠ None ∧ (sig = SIGKILL ∨ sig = SIGSTOP))) as [[Ha Hk]|Hk].
    + left. unfold sys_p_sigaction in Hrun.
      apply bind_inv in Hrun as (p' & k1 & [= <- <-] & Hrun).
      apply bind_inv in Hrun as (r' & k1 & [-> _]%getp_inv & Hrun).
      apply bind_inv in Hrun as (? & k1 & Hass & Hrun). unfold massert in Hass.
      destruct (bool_decide _) in Hass; [|done]. injection Hass as <- <-.
      replace ((sig <? 1) || (sig >=? NSIG)) with false in Hrun by lia.
      rewrite bool_decide_eq_true_2 in Hrun by done.
      replace (true && _) with true in Hrun by lia. by injection Hrun.
    + assert (act ≠ None → sig ≠ SIGKILL ∧ sig ≠ SIGSTOP) as Hact by (intros; split; tauto).
      rewrite (sigaction_run k p r a s sig act oact old Hd Hs Hold Hact) in Hrun.
      injection Hrun as _ <-. destruct act as [act|]; [right|by left].
      exists sig, (sa_handler act), (installed act). split; [|done].
      intros. apply maskable_cleared.
  - left. unfold sys_p_sigaction in Hrun.
    apply bind_inv in Hrun as (p' & k1 & [= <- <-] & Hrun).
    apply bind_inv in Hrun as (r' & k1 & [-> _]%getp_inv & Hrun).
    apply bind_inv in Hrun as (? & k1 & Hass & Hrun). unfold massert in Hass.
    destruct (bool_decide _) in Hass; [|done]. injection Hass as <- <-.
    replace ((sig <? 1) || (sig >=? NSIG)) with true in Hrun by lia. by injection Hrun.
Qed.

Lemma signal_acted k p r a s sig handler res k' :
  delivering k p r a s →
  sys_p_signal sig handler k = Some (res, k') → acted_by p a r s k k'.
Proof.
  intros Hd Hrun. unfold sys_p_signal in Hrun.
  rewrite (bind_run (mgets _) _ k (curproc k) k eq_refl), (dl_cur _ _ _ _ _ Hd) in Hrun.
  rewrite (bind_run (getp p) _ k r k) in Hrun by apply getp_run, Hd.
  rewrite (dl_acts _ _ _ _ _ Hd) in Hrun.
  rewrite (bind_run _ _ k s k) in Hrun by apply (mderef_run (λ k, sigactss k !! a)), Hd.
  apply bind_inv in Hrun as (? & k1 & Hass & Hrun). unfold massert in Hass.
  destruct (sg_links s >? 0); [|done]. injection Hass as <- <-.
  destruct ((sig <? 1) || _); [left; by injection Hrun|].
  destruct ((sig =? SIGKILL) || _); [left; by injection Hrun|].
  right. exists sig, handler, (λ _, mk_sigaction handler 0 0). split; [done|].
  apply bind_inv in Hrun as (old & k1 & Hold & Hrun).
  assert (k1 = k) as ->.
  { unfold SIGACTION in Hold. rewrite (bind_run (getp p) _ k r k) in Hold by apply getp_run, Hd.
    rewrite (dl_acts _ _ _ _ _ Hd) in Hold. unfold mderef in Hold.
    destruct (lookup_action k a sig); [by injection Hold|done]. }
  destruct (mod_action_run k p r a s sig (λ _, mk_sigaction handler 0 0) Hd) as (k1 & H1 & -> & Hd1).
  erewrite bind_run in Hrun by exact H1. rewrite <- bind_assoc in Hrun.
  erewrite bind_run in Hrun by exact (unblock_run _ p r a _ sig handler Hd1).
  by injection Hrun.
Qed.

Lemma mask_call_keeps p a k k' r s :
  delivering k p r a s → length (sigact s) = 32%nat → masks_ok r s → mask_call p a k k' →
  ∃ r' s', delivering k' p r' a s' ∧ length (sigact s') = 32%nat ∧ masks_ok r' s'.
Proof.
  intros Hd Hlen Hok Hcall.
  assert (acted_by p a r s k k' →
    ∃ r' s', delivering k' p r' a s' ∧ length (sigact s') = 32%nat ∧ masks_ok r' s') as Hacted.
  { intros [->|(sig & handler & f & Hf & ->)]; [eauto|].
    eexists _, _. split; [by apply acted_delivering|].
    split; [cbn; by rewrite length_alter|]. by apply masks_ok_acted. }
  inversion Hcall as [mask ? old ? Hrun|sig act oact ? res ? Hrun|sig handler ? res ? Hrun]; subst.
  - clear Hacted. unfold sys_p_sigblock in Hrun.
    rewrite (bind_run (mgets _) _ k (curproc k) k eq_refl), (dl_cur _ _ _ _ _ Hd) in Hrun.
    rewrite (bind_run (getp p) _ k r k) in Hrun by apply getp_run, Hd.
    destruct (delivering_modp k p r a s (λ r, set_p_sigmask
      (Z.lor (p_sigmask r) (Z.land mask (not32 UNMASKABLE))) r) Hd eq_refl) as (k1 & H1 & Hd1).
    erewrite bind_run in Hrun by exact H1. injection Hrun as _ <-.
    eexists _, s. split; [done|]. split; [done|]. destruct Hok as [Hm Ha].
    constructor; [cbn|done]. auto with masks.
  - eapply Hacted, sigaction_acted; done.
  - eapply Hacted, signal_acted; done.
Qed.
End mask_calls.


(** ** Stopping *)

Section stopping.
Context `{SignalCalls}.

(** The parent that [stop] finds for [r]: the first process of the list with the
    process number [ppid r]. *)
Definition parent_of (k : kst) (r : proc) (o : option ptr) : Prop :=
  pid2proc (ppid r) k = Some (o, k).

(** The parent waits for its children, and wants to hear of stopped ones. *)
Definition waits_child (k : kst) (rp : proc) : Prop :=
  wait_q rp = WAIT_Q ∧ wait_cond rp = sys_pwaitpid ∧
  ∃ a act, p_sigacts rp = Some a ∧ lookup_action k a SIGCHLD = Some act ∧
           Z.land (sa_flags act) SA_NOCLDSTOP = 0.

(** What happened to the others before the process sleeps. *)
Record notified (k k' : kst) (c : ptr) (r : proc) (o : option ptr) : Prop := {
  nt_queues : ∃ Q, queues_ok k' Q;
  nt_rest : rest k' = rest k;
  nt_self : ∃ r', procs k' !! c = Some r' ∧ core r' = core r;
  nt_parent : ∀ p rp, o = Some p → procs k !! p = Some rp → waits_child k rp →
    ∃ rp', procs k' !! p = Some rp' ∧ wait_q rp' = READY_Q;
}.

(** [SIGCHLD] for the parent, and the end of its [Pwaitpid]. *)
Lemma wake_waiter_ok k Q c p r rp1 :
  queues_ok k Q → p ≠ c → procs k !! c = Some r → procs k !! p = Some rp1 →
  ∃ k' r' rp', (rp ← getp p;
    mwhen ((wait_q rp =? WAIT_Q) && (wait_cond rp =? sys_pwaitpid))
      (rm_q WAIT_Q p ;; add_q READY_Q p)) k = Some (tt, k') ∧
  (∃ Q', queues_ok k' Q') ∧ rest k' = rest k ∧ procs k' !! c = Some r' ∧ core r' = core r ∧
  procs k' !! p = Some rp' ∧
  wait_q rp' = (if (wait_q rp1 =? WAIT_Q) && (wait_cond rp1 =? sys_pwaitpid)
                then READY_Q else wait_q rp1).
Proof.
  intros Hok Hne Hc Hp. erewrite bind_run by by apply getp_run.
  destruct ((wait_q rp1 =? WAIT_Q) && (wait_cond rp1 =? sys_pwaitpid)) eqn:E; cbn [mwhen].
  - bool_to_prop. assert (p ∈ Q WAIT_Q) as Hin by by apply (queue_elem_iff k Q WAIT_Q p rp1).
    destruct (move_ready_ok k Q WAIT_Q p Hok) as (k' & Hrun & Hok' & Hcores & Hrest);
      [done|done|].
    destruct (core_field (λ _, tt) k k' c r) as (r' & Hr' & _ & Hcr); [done|done|done|].
    destruct (core_field (λ _, tt) k k' p rp1) as (rp' & Hrp' & _ & _); [done|done|done|].
    exists k', r', rp'. split; [done|]. split; [eauto|]. do 4 (split; [done|]).
    apply (queue_elem_iff k' _ READY_Q p rp' Hok'); [done|done|].
    rewrite moved_ready. set_solver.
  - exists k, r, rp1. split; [done|]. split; [eauto|]. done.
Qed.

Lemma notify_parent_ok k Q c r o :
  queues_ok k Q → procs k !! c = Some r → ptracer r = None → parent_of k r o →
  (∀ p, o = Some p → p ≠ c ∧ ∃ rp, procs k !! p = Some rp ∧ has_action k SIGCHLD rp) →
  ∃ k', notify_parent c k = Some (tt, k') ∧ notified k k' c r o.
Proof.
  intros Hok Hc Ht Ho Hp. unfold notify_parent. erewrite bind_run by by apply getp_run.
  rewrite Ht. erewrite bind_run by exact Ho. destruct o as [p|].
  2: { exists k. split; [done|]. constructor; [eauto|done|eauto|done]. }
  destruct (Hp p eq_refl) as (Hne & rp & Hrp & Hact). pose proof Hact as (a & act & Ha & Hlk).
  erewrite bind_run by by apply getp_run.
  erewrite bind_run by (apply massert_run, bool_decide_eq_true_2; by rewrite Ha).
  erewrite bind_run by by eapply SIGACTION_run.
  destruct (Z.eqb_spec (Z.land (sa_flags act) SA_NOCLDSTOP) 0) as [Hf|Hf]; cbn [mwhen].
  2: { exists k. split; [done|]. constructor; [eauto|done|eauto|].
    intros p' rp' [= <-] Hrp' (_ & _ & a' & act' & Ha' & Hlk' & Hf'). congruence. }
  destruct (post_run k Q p rp SIGCHLD Hok Hrp Hact ltac:(done)) as (k1 & H1 & Hsig).
  erewrite bind_run by exact H1. destruct (sd_queues _ _ _ _ Hsig) as [Q1 Hok1].
  assert (c ∉ (if takes k rp SIGCHLD then {[p]} else ∅ : gset ptr)) as Hout
    by (destruct (takes k rp SIGCHLD); set_solver).
  destruct (signalled_other k k1 _ _ c r Hsig Hc Hout) as (r1 & Hr1 & Hcr1 & _).
  destruct (signalled_field wait_cond k k1 SIGCHLD _ p rp ltac:(done) ltac:(done) Hsig Hrp)
    as (rp1 & Hrp1 & Hwc).
  destruct (wake_waiter_ok k1 Q1 c p r1 rp1 Hok1 Hne Hr1 Hrp1)
    as (k2 & r2 & rp2 & H2 & HQ2 & Hrest2 & Hr2 & Hcr2 & Hrp2 & Hw2).
  exists k2. split; [exact H2|]. constructor; [done| |exists r2; split; congruence|].
  - by rewrite Hrest2, (sd_rest _ _ _ _ Hsig).
  - intros p' rp' [= <-] Hrp' (Hw & Hcond & _). assert (rp' = rp) as -> by congruence.
    exists rp2. split; [done|]. rewrite Hw2.
    rewrite (sd_wait _ _ _ _ Hsig p rp rp1 Hrp Hrp1), Hwc, Hw, Hcond.
    by destruct (_ && _ && _).
Qed.

Lemma stop_mask_bit m i :
  0 ≤ i < 32 → Z.testbit (stop_mask m) i =
  Z.testbit m i || negb (existsb (Z.eqb i) [0; 1; 2; 3; SIGKILL; SIGSTOP; SIGCONT]).
Proof.
  intros Hi. unfold stop_mask. rewrite Z.lor_spec. f_equal.
  pattern i. match goal with |- ?P i => assert (forallb
    (λ j, Bool.eqb (Z.testbit (not32 (Z.lor UNMASKABLE SIGTERM)) j)
      (negb (existsb (Z.eqb j) [0; 1; 2; 3; SIGKILL; SIGSTOP; SIGCONT]))) (Zrange 0 32) = true)
      as Hall by by vm_compute end.
  apply Bool.eqb_prop. by apply (forallb_range _ 0 32 i Hall).
Qed.

(** a process that is not traced and receives a stop signal wakes its parent
    if that waits for children (unless the parent asked not to hear of stopped
    ones), and then sleeps on the stop queue with a mask that lets through
    SIGKILL, SIGSTOP and SIGCONT and, besides, only SIGHUP, SIGINT and SIGQUIT;
    in particular it is deaf to SIGTERM.  When it runs again, whatever happened
    meanwhile, its mask is the one it had and no stop signal is pending. *)
Theorem stop_spec k Q c r o sig :
  queues_ok k Q → curproc k = c → procs k !! c = Some r → pid r ≠ 0 → ptracer r = None →
  sig ∈ [SIGSTOP; SIGTSTP; SIGTTIN; SIGTTOU] → parent_of k r o →
  (∀ p, o = Some p → p ≠ c ∧ ∃ rp, procs k !! p = Some rp ∧ has_action k SIGCHLD rp) →
  (∀ k, proc_ext_on_stop c sig k = Some (tt, k)) →
  ∃ k1 r1, procs k1 !! c = Some r1 ∧
  (∀ i, 1 ≤ i < NSIG → Z.testbit (p_sigmask r1) i =
    Z.testbit (p_sigmask r) i || negb (existsb (Z.eqb i) [1; 2; 3; SIGKILL; SIGSTOP; SIGCONT])) ∧
  (∀ p rp, o = Some p → procs k !! p = Some rp → waits_child k rp →
    ∃ rp', procs k1 !! p = Some rp' ∧ wait_q rp' = READY_Q) ∧
  (∀ k2 r2, sleep_until STOP_Q (Z.lor (u16 (Z.shiftl sig 8)) 127) k1 = Some (tt, k2) →
    procs k2 !! c = Some r2 →
    ∃ k3, stop sig k = Some (tt, k3) ∧
    procs k3 !! c = Some (set_sigpending (Z.land (sigpending r2) (not32 STOPSIGS))
                            (set_p_sigmask (p_sigmask r) r2))).
Proof.
  intros Hok Hcur Hc Hpid Ht Hs Ho Hp Hext.
  destruct (notify_parent_ok k Q c r o Hok Hc Ht Ho Hp) as (k0 & H0 & [_ Hrest (r0 & Hr0 & Hc0) Hpar]).
  assert (p_sigmask r0 = p_sigmask r ∧ ptracer r0 = None) as [Hm0 Ht0].
  { split; [change (p_sigmask (core r0) = p_sigmask (core r))|
            rewrite <- Ht; change (ptracer (core r0) = ptracer (core r))]; by rewrite Hc0. }
  set (r1 := set_p_sigmask (stop_mask (p_sigmask r)) r0).
  exists (set_procs (<[c := r1]> (procs k0)) k0), r1. split; [apply lookup_insert_eq|].
  split; [|split].
  - intros i Hi. unfold r1. change (p_sigmask (set_p_sigmask ?m r0)) with m.
    rewrite stop_mask_bit by (unfold NSIG in Hi; lia). cbn [existsb].
    by replace (i =? 0) with false by lia.
  - intros p rp -> Hrp Hw. destruct (Hpar p rp eq_refl Hrp Hw) as (rp' & Hrp' & Hq).
    destruct (Hp p eq_refl) as [Hne _]. exists rp'. split; [|done].
    cbn. by rewrite lookup_insert_ne by congruence.
  - intros k2 r2 Hsl Hr2.
    exists (set_procs (<[c := set_sigpending (Z.land (sigpending r2) (not32 STOPSIGS))
      (set_p_sigmask (p_sigmask r) r2)]> (procs k2)) k2). split; [|apply lookup_insert_eq].
    assert (0 ≤ sig < NSIG ∧ negb (Z.land (bit sig) STOPSIGS =? 0) = true) as [Hrange Hbit]
      by (repeat (apply elem_of_cons in Hs as [->|Hs]; [done|]); set_solver).
    unfold stop. erewrite bind_run by (apply massert_run; lia).
    erewrite (bind_run (mgets _)) by reflexivity. rewrite Hcur.
    erewrite bind_run by by apply getp_run. replace (pid r =? 0) with false by lia.
    erewrite bind_run by exact H0. erewrite bind_run by by apply getp_run.
    rewrite bool_decide_eq_true_2, Hm0 by done. cbn [mwhen].
    rewrite bind_assoc. erewrite bind_run by by apply massert_run.
    erewrite bind_run by by apply modp_run. erewrite bind_run by apply Hext.
    erewrite bind_run by exact Hsl. erewrite bind_run by by apply modp_run.
    rewrite (modp_run c _ _ _ (lookup_insert_eq _ _ _)). state_eq.
Qed.
End stopping.

(** ** Examples *)

#[local] Instance ex_sig_calls : SignalCalls := {|
  sendsig := λ _, mret 0; kernel_pterm := λ _ _, mret tt; terminate := λ _ _ _, mret tt;
  bombs := λ _, mret tt; proc_ext_on_signal := λ _ _, mret tt;
  proc_ext_on_stop := λ _ _, mret tt;
  save_exception := λ _, mret tt; sc_blocking := {| sleep_until := λ _ _, mret tt |}
|}.

#[local] Instance ex_sig_calls_ok : SignalCallsOk.
Proof. constructor; intros k **; by exists k. Qed.

Lemma ex_has_action p r sig :
  procs ex_kst !! p = Some r → 0 ≤ sig < NSIG → has_action ex_kst sig r.
Proof.
  intros Hr Hs. exists 20%positive, (mk_sigaction 0 0 0). split.
  - apply ex_procs_inv in Hr. repeat (apply elem_of_cons in Hr as [[= -> ->]|Hr]; [done|]).
    by apply not_elem_of_nil in Hr.
  - unfold lookup_action, ex_kst. cbn [sigactss]. rewrite lookup_singleton_eq.
    cbn [mbind option_bind sigact]. apply lookup_replicate. unfold NSIG in Hs. split; [done|lia].
Qed.


Lemma ex_target_ok sig priv :
  0 ≤ sig < NSIG → Forall (target_ok ex_kst sig priv) (proclist ex_kst).
Proof.
  intros Hs. apply Forall_forall. intros p Hp.
  assert (∃ r, procs ex_kst !! p = Some r ∧ p_cred r = 10%positive) as (r & Hr & Hcr).
  { cbn in Hp. repeat (apply elem_of_cons in Hp as [->|Hp]; [by eexists|]).
    by apply not_elem_of_nil in Hp. }
  eexists r, _. split; [done|]. split; [by eapply ex_has_action|].
  unfold perm. rewrite Hr. change (procs ex_kst !! curproc ex_kst) with
    (Some (ex_proc 2 CURPROC_Q 0 0 None None)). cbn [mbind option_bind]. by rewrite Hcr.
Qed.

Lemma killgroup_spec_witness :
  ∃ res k', killgroup 4 SIGTERM 0 ex_kst = Some (res, k') ∧ res = E_OK ∧
    signalled ex_kst k' SIGTERM {[4%positive]}.
Proof.
  destruct (killgroup_spec ex_kst ex_queues 4 SIGTERM 0 ex_queues_ok
    ltac:(by apply (bool_decide_unpack _)) (ex_target_ok SIGTERM 0 ltac:(done)) ltac:(done))
    as (res & k' & Hrun & Hsig & Hres).
  exists res, k'. split; [exact Hrun|]. split; [exact Hres|].
  replace {[4%positive]} with (list_to_set (C := gset ptr)
    (reached ex_kst 4 SIGTERM 0 (proclist ex_kst))) by (by vm_compute). exact Hsig.
Defined.

(** The current process has SIGCHLD and SIGFPE pending. *)
Definition ex_pending : kst :=
  set_procs (<[2%positive := set_sigpending (Z.lor (bit SIGCHLD) (bit SIGFPE))
    (ex_proc 2 CURPROC_Q 0 0 None None)]> (procs ex_kst)) ex_kst.
Definition ex_acts : sigacts := mk_sigacts (replicate 32 (mk_sigaction 0 0 0)) 5.

Lemma ex_delivering :
  delivering ex_pending 2 (set_sigpending (Z.lor (bit SIGCHLD) (bit SIGFPE))
    (ex_proc 2 CURPROC_Q 0 0 None None)) 20 ex_acts.
Proof. by constructor. Qed.

Lemma ex_harmless : all_harmless ex_acts (Z.lor (bit SIGCHLD) (bit SIGFPE)).
Proof.
  intros i Hi Hb. exists (mk_sigaction 0 0 0).
  split; [apply lookup_replicate; unfold NSIG in Hi; split; [done|lia]|].
  rewrite Z.lor_spec, !bit_spec in Hb by done. unfold harmless. cbn.
  destruct (Z.eqb_spec i SIGCHLD) as [->|]; [done|].
  by destruct (Z.eqb_spec i SIGFPE) as [->|].
Qed.


Lemma sigaction_roundtrip_witness :
  ∃ out k', sys_p_sigaction SIGCHLD (Some (mk_sigaction 4096 (bit SIGKILL) 17)) true ex_pending =
      Some ((E_OK, Some out), k') ∧
    sys_p_sigaction SIGCHLD None true k' = Some ((E_OK, Some (mk_sigaction 4096 0 17)), k').
Proof.
  destruct (sigaction_roundtrip ex_pending 2 _ 20 ex_acts SIGCHLD
    (mk_sigaction 4096 (bit SIGKILL) 17) (mk_sigaction 0 0 0) ex_delivering ltac:(done))
    as (out & k' & r' & s' & Hrun & _ & _ & Hget & _).
  exists out, k'. split; [exact Hrun|exact Hget].
Defined.


Lemma stop_spec_witness :
  ∃ k3 r3, stop SIGTSTP ex_kst = Some (tt, k3) ∧ procs k3 !! 2%positive = Some r3 ∧
    p_sigmask r3 = 0.
Proof.
  destruct (stop_spec ex_kst ex_queues 2 (ex_proc 2 CURPROC_Q 0 0 None None)
    (Some 1%positive) SIGTSTP ex_queues_ok eq_refl eq_refl) as (k1 & r1 & Hr1 & _ & _ & Hend);
    [done|done|set_solver|reflexivity| |done|].
  - intros p [= <-]. split; [done|].
    eexists. split; [reflexivity|]. by apply (ex_has_action 1).
  - destruct (Hend k1 r1 eq_refl Hr1) as (k3 & Hrun & Hr3).
    eexists k3, _. split; [exact Hrun|]. split; [exact Hr3|done].
Defined.
