(* ===== verification/Wait.v ===== *)
(** * Waiting for children (sys/k_exit.c)

    [pwaitpid] looks through the process list for a child (or a traced process)
    that has ended or stopped, answers its status and, when nobody else has to be
    told, removes the process from the system. *)

From S2P Require Import Prelude CInt Errno Kernel ProcQueue Cred Signal.

Definition SIGTRAP : Z := 5.

(** ** The children asked for *)

(** The condition of the loop: a child or a traced process of the caller [me], and
    in the set that [want] describes. *)
Definition asked (me : ptr) (ourpid ourpgrp want : Z) (r : proc) : bool :=
  ((ppid r =? ourpid) || bool_decide (ptracer r = Some me)) &&
  ((want =? -1)
   || ((want >? 0) && (want =? pid r))
   || ((want =? 0) && (pgrp r =? ourpgrp))
   || ((want <? -1) && (pgrp r =? s16 (- want)))).

(** A process that ended, or stopped and was not reported yet. *)
Definition reportable (nohang : Z) (r : proc) : bool :=
  is_dead r ||
  ((wait_q r =? STOP_Q) && negb (wait_cond r =? 0) &&
   (negb (Z.land nohang 2 =? 0) || bool_decide (ptracer r ≠ None))).

(** The loop over [proclist]: the number of children seen, and the one found. *)
Fixpoint look (ask rep : proc → bool) (found : Z) (l : list ptr) : M kst (Z * option ptr) :=
  match l with
  | [] => mret (found, None)
  | p :: l =>
      r ← getp p;
      if ask r then
        if rep r then mret (found + 1, Some p) else look ask rep (found + 1) l
      else look ask rep found l
  end.

(** ** The answer *)

(** What the call gives back: the result, [*rusage] and [*retval]. *)
Record wanswer := mk_wanswer {
  w_ret : Z;
  w_usage : option (Z * Z);
  w_retval : option Z
}.
Definition no_child (e : Z) : wanswer := mk_wanswer e None None.

(** The pid and the wait condition of the child, before the exit code is cut. *)
Definition raw_status (r : proc) : Z :=
  Z.lor (u32 (Z.shiftl (u32 (pid r)) 16)) (Z.land (wait_cond r) 65535).
Definition killed_status (raw last_sig : Z) : Z :=
  Z.lor (Z.land raw 4294902015) (Z.land (u16 (Z.shiftl last_sig 8)) 40704).
Definition wait_status (r : proc) : Z :=
  let raw := raw_status r in
  s32 (if negb (signaled r =? 0) then killed_status raw (last_sig r)
       else if negb (wait_q r =? STOP_Q)
               && negb (Z.land (wait_cond r) 7936 =? Z.shiftl SIGTRAP 8)
       then Z.land raw 4294902015 else raw).

Definition child_usage (r : proc) : Z * Z :=
  (s32 (usrtime r + chldutime r), s32 (systime r + chldstime r)).

Definition answer (want_usage want_retval : bool) (r : proc) : wanswer :=
  mk_wanswer (wait_status r)
    (if want_usage then Some (child_usage r) else None)
    (if want_retval then Some (s16 (raw_status r)) else None).

(** The child's times are added to those of the caller, unless it is adopted. *)
Definition add_usage (me : ptr) (r : proc) : M kst unit :=
  rc ← getp me;
  mwhen ((pid rc =? ppid r) && is_dead r)
    (modp me (λ c, set_chldstime (u32 (chldstime c + (systime r + chldstime r))) c) ;;
     modp me (λ c, set_chldutime (u32 (chldutime c + (usrtime r + chldutime r))) c)).

(** ** The end of a process *)

(** Off the list linked through [gl_next]; a process that is not on it is the
    failed [assert]. *)
Fixpoint unlink (p : ptr) (l : list ptr) : option (list ptr) :=
  match l with
  | [] => None
  | q :: l => if decide (q = p) then Some l else (q ::.) <$> unlink p l
  end.
Definition unlink_proc (p : ptr) : M kst unit :=
  l ← mderef (λ k, unlink p (proclist k)); mmod (set_proclist l).

Definition drop_pcred (a : ptr) : M kst unit :=
  modpc a (λ c, set_p_links (s16 (p_links c - 1)) c) ;;
  c ← getpc a;
  mwhen (p_links c =? 0)
    (free_cred (ucr c) ;; mmod (λ k, set_pcreds (delete a (pcreds k)) k)).

(** [free_sigacts (sys/proc_help.c)] *)
Definition free_sigacts (p : ptr) : M kst unit :=
  r ← getp p;
  match p_sigacts r with
  | None => mpanic
  | Some a =>
      s ← mderef (λ k, sigactss k !! a);
      massert (sg_links s >? 0) ;;
      modp p (set_p_sigacts None) ;;
      let n := sg_links s - 1 in
      if n >? 0 then mmod (λ k, set_sigactss (<[a := mk_sigacts (sigact s) n]> (sigactss k)) k)
      else mmod (λ k, set_sigactss (delete a (sigactss k)) k)
  end.

(** From the zombie queue on. *)
Definition reap (p : ptr) : M kst unit :=
  r ← getp p;
  massert (wait_q r =? ZOMBIE_Q) ;;
  c ← mgets curproc;
  massert (bool_decide (p ≠ c)) ;;
  rm_q ZOMBIE_Q p ;;
  unlink_proc p ;;
  drop_pcred (p_cred r) ;;
  free_sigacts p ;;
  mmod (λ k, set_procs (delete p (procs k)) k).

(** The end of [pwaitpid] for the process [p] that ended, and was traced by a process
    other than its parent: the first of the two to ask leaves it to the other. *)
Definition traced_by_other (p : ptr) : M kst bool :=
  r ← getp p;
  match ptracer r with
  | None => mret false
  | Some t =>
      rt ← getp t;
      if pid rt =? ppid r then mret false
      else
        c ← mgets curproc;
        if decide (c = t) then
          modp p (set_ptracer None) ;;
          r ← getp p;
          mret (negb (ppid r =? -1))
        else modp p (set_ppid (-1)) ;; mret true
  end.

Definition dispose (p : ptr) : M kst unit :=
  r ← getp p;
  if wait_q r =? STOP_Q then modp p (set_wait_cond 0)
  else
    left ← traced_by_other p;
    if left : bool then mret tt
    else if wait_q r =? TSR_Q then modp p (set_ppid (-1))
    else reap p.

(** ** The call *)

Section wait.
Context `{Blocking}.

(** [fuel] bounds the number of sleeps. *)
Fixpoint wait_loop (fuel : nat) (ask rep : proc → bool) (nohang : Z) :
    M kst (Z + ptr) :=
  match fuel with
  | O => mpanic
  | S fuel =>
      l ← mgets proclist;
      '(found, p) ← look ask rep 0 l;
      match p with
      | Some p => mret (inr p)
      | None =>
          if negb (found =? 0) then
            if negb (Z.land nohang 1 =? 0) then mret (inl 0)
            else sleep_until WAIT_Q sys_pwaitpid ;; wait_loop fuel ask rep nohang
          else mret (inl ENOENT)
      end
  end.

Definition pwaitpid (fuel : nat) (want nohang : Z) (want_usage want_retval : bool) :
    M kst wanswer :=
  me ← mgets curproc;
  rc ← getp me;
  x ← wait_loop fuel (asked me (pid rc) (pgrp rc) want) (reportable nohang) nohang;
  match x with
  | inl e => mret (no_child e)
  | inr p =>
      r ← getp p;
      add_usage me r ;;
      dispose p ;;
      mret (answer want_usage want_retval r)
  end.

Definition sys_pwaitpid_call (fuel : nat) (want nohang : Z) (usage : bool) : M kst wanswer :=
  pwaitpid fuel want nohang usage false.
Definition sys_pwait3 (fuel : nat) (nohang : Z) (usage : bool) : M kst wanswer :=
  pwaitpid fuel (-1) nohang usage false.
Definition sys_pwait (fuel : nat) : M kst wanswer :=
  pwaitpid fuel (-1) 2 false false.
End wait.

(** ** Looking for a child *)

(** What a test says about the process at [p]. *)
Definition at_proc (k : kst) (f : proc → bool) (p : ptr) : bool :=
  match procs k !! p with Some r => f r | None => false end.

Lemma look_found k ask rep l1 p l2 r found :
  Forall (λ q, is_Some (procs k !! q)) l1 →
  Forall (λ q, at_proc k (λ r, ask r && rep r) q = false) l1 →
  procs k !! p = Some r → ask r = true → rep r = true →
  ∃ n, look ask rep found (l1 ++ p :: l2) k = Some ((n, Some p), k).
Proof.
  intros Hl. revert found. induction Hl as [|q l1 [rq Hq] Hl IH]; intros found Hno Hp Ha Hr; cbn.
  - rewrite (bind_run _ _ _ _ _ (getp_run _ _ _ Hp)), Ha, Hr. by eexists.
  - apply Forall_cons in Hno as [Hno1 Hno]. rewrite (bind_run _ _ _ _ _ (getp_run _ _ _ Hq)).
    unfold at_proc in Hno1. rewrite Hq in Hno1.
    destruct (ask rq); cbn in Hno1; [rewrite Hno1|]; by apply IH.
Qed.

Lemma look_none k ask rep l : ∀ found,
  Forall (λ q, is_Some (procs k !! q)) l →
  Forall (λ q, at_proc k (λ r, ask r && rep r) q = false) l →
  look ask rep found l k =
    Some ((found + Z.of_nat (length (filter (λ q, at_proc k ask q = true) l)), None), k).
Proof.
  induction l as [|q l IH]; intros found Hl Hno; cbn [look].
  { rewrite ret_run. cbn. by rewrite Z.add_0_r. }
  apply Forall_cons in Hl as [[rq Hq] Hl], Hno as [Hno1 Hno].
  rewrite (bind_run _ _ _ _ _ (getp_run _ _ _ Hq)), filter_cons.
  assert (at_proc k ask q = ask rq) as Ha by (unfold at_proc; by rewrite Hq).
  unfold at_proc in Hno1. rewrite Hq in Hno1. destruct (ask rq) eqn:E; cbn in Hno1.
  - rewrite Hno1, IH by done. rewrite decide_True by done. cbn [length].
    do 3 f_equal. lia.
  - rewrite IH by done. rewrite decide_False by (rewrite Ha; done). done.
Qed.

(** The children of the current process in the set [want]. *)
Definition children (k : kst) (rc : proc) (want : Z) (p : ptr) : bool :=
  at_proc k (asked (curproc k) (pid rc) (pgrp rc) want) p.
(** A child that the call answers with. *)
Definition candidate (k : kst) (rc : proc) (want nohang : Z) (p : ptr) : bool :=
  at_proc k (λ r, asked (curproc k) (pid rc) (pgrp rc) want r && reportable nohang r) p.

(** without a child in the set the call answers ENOENT, whatever the flags say;
    with children of which none can be reported and WNOHANG it answers 0. Nothing
    changes in the system. *)
Theorem pwaitpid_nothing `{Blocking} fuel k rc want nohang usage ret :
  procs_listed k → procs k !! curproc k = Some rc →
  Forall (λ p, candidate k rc want nohang p = false) (proclist k) →
  Z.land nohang 1 ≠ 0 ∨ Forall (λ p, children k rc want p = false) (proclist k) →
  pwaitpid (S fuel) want nohang usage ret k =
    Some (no_child (if decide (Forall (λ p, children k rc want p = false) (proclist k))
                    then ENOENT else 0), k).
Proof.
  intros Hl Hc Hno Hor. unfold pwaitpid.
  rewrite (bind_run (mgets curproc) _ k (curproc k) k) by done.
  rewrite (bind_run _ _ _ _ _ (getp_run _ _ _ Hc)).
  set (e := if decide _ then ENOENT else 0).
  rewrite (bind_run (wait_loop _ _ _ _) _ k (inl e) k); [by rewrite ret_run|].
  cbn [wait_loop]. rewrite (bind_run (mgets proclist) _ k (proclist k) k) by done.
  rewrite (bind_run _ _ _ _ _ (look_none k _ _ (proclist k) 0 Hl Hno)). cbn beta iota.
  set (l := filter _ _). unfold e. clear e.
  destruct (decide (Forall (λ p, children k rc want p = false) (proclist k))) as [Hall|Hall].
  - assert (l = []) as ->; [|done].
    apply filter_none. eapply Forall_impl; [exact Hall|]. unfold children. by intros p ->.
  - destruct Hor as [Hn|?]; [|done]. destruct l as [|q l'] eqn:El.
    + destruct Hall. apply Forall_forall. intros p Hp.
      destruct (children k rc want p) eqn:E; [|done].
      assert (p ∈ l) as Hpl by (unfold l; apply list_elem_of_filter; done).
      rewrite El in Hpl. by apply not_elem_of_nil in Hpl.
    + apply Z.eqb_neq in Hn. rewrite Hn.
      cbn [length]. destruct (Z.eqb_spec (0 + Z.of_nat (S (length l'))) 0); [lia|done].
Qed.

(** ** Reaping *)

(** The caller with the times of its child. *)
Definition credit (r c : proc) : proc :=
  if (pid c =? ppid r) && is_dead r then
    set_chldutime (u32 (chldutime c + (usrtime r + chldutime r)))
      (set_chldstime (u32 (chldstime c + (systime r + chldstime r))) c)
  else c.

Lemma add_usage_run k me rc r :
  procs k !! me = Some rc →
  add_usage me r k = Some (tt, set_procs (<[me := credit r rc]> (procs k)) k).
Proof.
  intros Hc. unfold add_usage, credit. rewrite (bind_run _ _ _ _ _ (getp_run _ _ _ Hc)).
  destruct ((pid rc =? ppid r) && is_dead r); cbn [mwhen].
  - rewrite (bind_run _ _ _ _ _ (modp_run _ _ _ _ Hc)).
    erewrite modp_run by apply lookup_insert_eq. cbn. by rewrite insert_insert_eq.
  - rewrite ret_run. rewrite insert_id by done. by rewrite set_procs_id.
Qed.

Lemma core_credit r c : core (credit r c) = credit r (core c).
Proof.
  unfold credit. change (pid (core c)) with (pid c).
  by destruct ((pid c =? ppid r) && is_dead r).
Qed.

(** The references that a process holds are dropped. *)
Definition released_pcreds (a : ptr) (k : kst) : gmap ptr pcred :=
  match pcreds k !! a with
  | Some c => if p_links c =? 1 then delete a (pcreds k)
              else <[a := set_p_links (p_links c - 1) c]> (pcreds k)
  | None => pcreds k
  end.
Definition released_ucreds (a : ptr) (k : kst) : gmap ptr ucred :=
  match pcreds k !! a with
  | Some c =>
      if p_links c =? 1 then
        match ucreds k !! ucr c with
        | Some u => if u_links u =? 1 then delete (ucr c) (ucreds k)
                    else <[ucr c := set_u_links (u_links u - 1) u]> (ucreds k)
        | None => ucreds k
        end
      else ucreds k
  | None => ucreds k
  end.
Definition released_sigacts (o : option ptr) (k : kst) : gmap ptr sigacts :=
  match o with
  | Some a =>
      match sigactss k !! a with
      | Some s => if sg_links s =? 1 then delete a (sigactss k)
                  else <[a := mk_sigacts (sigact s) (sg_links s - 1)]> (sigactss k)
      | None => sigactss k
      end
  | None => sigactss k
  end.

(** The structures that a process refers to exist, with links. *)
Definition cred_held (k : kst) (a : ptr) : Prop :=
  ∃ c, pcreds k !! a = Some c ∧ 0 < p_links c < 32768 ∧
    (p_links c = 1 → ∃ u, ucreds k !! ucr c = Some u ∧ 0 < u_links u < 32768).
Definition acts_held (k : kst) (o : option ptr) : Prop :=
  ∃ a s, o = Some a ∧ sigactss k !! a = Some s ∧ 0 < sg_links s.

Lemma free_cred_run k u c :
  ucreds k !! u = Some c → 0 < u_links c < 32768 →
  free_cred u k = Some (tt, set_ucreds
    (if u_links c =? 1 then delete u (ucreds k)
     else <[u := set_u_links (u_links c - 1) c]> (ucreds k)) k).
Proof.
  intros Hu Hl. unfold free_cred.
  rewrite (bind_run _ _ _ _ _ (mderef_run (λ k, ucreds k !! u) _ _ Hu)).
  erewrite (bind_run (massert _)) by (apply massert_run; lia).
  set (c' := set_u_links (s16 (u_links c - 1)) c).
  rewrite (bind_run (moduc _ _) _ k tt (set_ucreds (<[u := c']> (ucreds k)) k))
    by (unfold moduc; by rewrite Hu).
  rewrite (bind_run (getuc u) _ _ c' (set_ucreds (<[u := c']> (ucreds k)) k))
    by (apply (mderef_run (λ k, ucreds k !! u)); apply lookup_insert_eq).
  unfold c'. cbn [u_links set_u_links]. rewrite s16_id by lia.
  destruct (Z.eqb_spec (u_links c) 1) as [E|E].
  - rewrite E. change (1 - 1 =? 0) with true. cbn [mwhen].
    rewrite <- (delete_insert_eq (ucreds k) u (set_u_links 0 c)). reflexivity.
  - by replace (u_links c - 1 =? 0) with false by lia.
Qed.

Lemma drop_pcred_run k a :
  cred_held k a →
  drop_pcred a k = Some (tt, set_pcreds (released_pcreds a k)
    (set_ucreds (released_ucreds a k) k)).
Proof.
  intros (c & Hc & Hl & Hu). unfold drop_pcred, released_pcreds, released_ucreds.
  rewrite Hc. set (c' := set_p_links (s16 (p_links c - 1)) c).
  rewrite (bind_run (modpc _ _) _ k tt (set_pcreds (<[a := c']> (pcreds k)) k))
    by (unfold modpc; by rewrite Hc).
  rewrite (bind_run (getpc a) _ _ c' (set_pcreds (<[a := c']> (pcreds k)) k))
    by (apply (mderef_run (λ k, pcreds k !! a)); apply lookup_insert_eq).
  unfold c'. cbn [p_links set_p_links ucr]. rewrite s16_id by lia.
  destruct (Z.eqb_spec (p_links c) 1) as [E|E].
  - destruct (Hu E) as (u & Hucr & Hul). rewrite E. cbn [mwhen]. change (1 - 1 =? 0) with true.
    cbn [mwhen]. erewrite (bind_run (free_cred _)) by (apply free_cred_run; [exact Hucr|lia]).
    rewrite Hucr, <- (delete_insert_eq (pcreds k) a (set_p_links 0 c)). reflexivity.
  - replace (p_links c - 1 =? 0) with false by lia. cbn [mwhen]. rewrite ret_run.
    unfold set_pcreds, set_ucreds. cbn. reflexivity.
Qed.

Lemma free_sigacts_run k p r :
  procs k !! p = Some r → acts_held k (p_sigacts r) →
  free_sigacts p k = Some (tt, set_sigactss (released_sigacts (p_sigacts r) k)
    (set_procs (<[p := set_p_sigacts None r]> (procs k)) k)).
Proof.
  intros Hp (a & s & Ha & Hs & Hl). unfold free_sigacts, released_sigacts.
  rewrite (bind_run _ _ _ _ _ (getp_run _ _ _ Hp)), Ha, Hs.
  rewrite (bind_run _ _ _ _ _ (mderef_run (λ k, sigactss k !! a) _ _ Hs)).
  erewrite (bind_run (massert _)) by (apply massert_run; lia). rewrite (bind_run _ _ _ _ _ (modp_run _ _ _ _ Hp)).
  destruct (Z.eqb_spec (sg_links s) 1) as [E|E].
  - rewrite E. reflexivity.
  - replace (sg_links s - 1 >? 0) with true by lia. reflexivity.
Qed.

Lemma unlink_mid p l1 l2 : p ∉ l1 → unlink p (l1 ++ p :: l2) = Some (l1 ++ l2).
Proof.
  induction l1 as [|q l1 IH]; cbn; intros Hp; [by rewrite decide_True|].
  apply not_elem_of_cons in Hp as [Hne Hp]. rewrite decide_False by done. by rewrite IH.
Qed.

(** A process that is on no queue can go. *)
Lemma queues_ok_delete k Q p r :
  queues_ok k Q → procs k !! p = Some r → wait_q r = CURPROC_Q →
  queues_ok (set_procs (delete p (procs k)) k) Q.
Proof.
  intros Hok Hp Hw. pose proof Hok as [Hrep Hcur Hfree Hall]. constructor; cbn; [|done| |].
  - intros que Hq. destruct (Hrep que Hq) as (Hs & Hd & Hnd). split; [done|]. split; [|done].
    eapply dll_same; [|exact Hd]. intros q Hqq. apply same_links_eq.
    destruct (decide (q = p)) as [->|]; [|by rewrite lookup_delete_ne]. exfalso.
    destruct (decide (que = CURPROC_Q)) as [->|Hne]; [rewrite Hcur in Hqq; by apply not_elem_of_nil in Hqq|].
    destruct (queue_elem k Q que p Hok Hq Hqq) as (r' & Hr' & Hw'). congruence.
  - intros q rq [_ Hrq]%lookup_delete_Some. exact (Hfree q rq Hrq).
  - intros q rq [_ Hrq]%lookup_delete_Some. exact (Hall q rq Hrq).
Qed.

(** The kernel outside of what a reaped process leaves. *)
Definition others (k : kst) : kst :=
  set_sigactss ∅ (set_ucreds ∅ (set_pcreds ∅ (set_proclist [] (rest k)))).

(** The process [p] is gone, and its references. *)
Record gone (k k' : kst) (Q : Z → list ptr) (p : ptr) (r : proc) : Prop := {
  gn_list : proclist k' = filter (λ q, q ≠ p) (proclist k);
  gn_queues : queues_ok k' (<[ZOMBIE_Q := without p (Q ZOMBIE_Q)]> Q);
  gn_procs : cores k' = delete p (cores k);
  gn_pcreds : pcreds k' = released_pcreds (p_cred r) k;
  gn_ucreds : ucreds k' = released_ucreds (p_cred r) k;
  gn_sigacts : sigactss k' = released_sigacts (p_sigacts r) k;
  gn_others : others k' = others k
}.

Lemma rest_field {A} (f : kst → A) k k' :
  (∀ k, f (rest k) = f k) → rest k' = rest k → f k' = f k.
Proof. intros Hf Hr. by rewrite <- (Hf k'), Hr, Hf. Qed.

Lemma reap_ok k Q p r :
  queues_ok k Q → NoDup (proclist k) → p ∈ proclist k → procs k !! p = Some r →
  wait_q r = ZOMBIE_Q → p ≠ curproc k → cred_held k (p_cred r) →
  acts_held k (p_sigacts r) →
  ∃ k', reap p k = Some (tt, k') ∧ gone k k' Q p r.
Proof.
  intros Hok Hnd Hin Hp Hw Hne Hcr Hac. unfold reap.
  rewrite (bind_run _ _ _ _ _ (getp_run _ _ _ Hp)).
  erewrite (bind_run (massert _)) by (apply massert_run; rewrite Hw; done).
  rewrite (bind_run (mgets curproc) _ k (curproc k) k) by done.
  erewrite (bind_run (massert _)) by (apply massert_run; by apply bool_decide_eq_true_2).
  destruct (rm_q_ok k Q ZOMBIE_Q p Hok ltac:(done)) as (r1 & k1 & Hr1 & Hrm & Hok1 & Hp1 & Hc1 & Hrest).
  { by apply (queue_elem_iff k Q ZOMBIE_Q p r Hok). }
  assert (r1 = r) as -> by congruence. rewrite (bind_run _ _ _ _ _ Hrm).
  pose proof (rest_field pcreds k k1 ltac:(done) Hrest) as E1.
  pose proof (rest_field ucreds k k1 ltac:(done) Hrest) as E2.
  pose proof (rest_field sigactss k k1 ltac:(done) Hrest) as E3.
  pose proof (rest_field proclist k k1 ltac:(done) Hrest) as E4.
  apply list_elem_of_split in Hin as (l1 & l2 & Hl). rewrite Hl in Hnd.
  set (k2 := set_proclist (l1 ++ l2) k1).
  rewrite (bind_run (unlink_proc p) _ k1 tt k2).
  2: { unfold unlink_proc. rewrite (bind_run (mderef _) _ k1 (l1 ++ l2) k1); [done|].
       apply (mderef_run (λ k, unlink p (proclist k))). rewrite E4, Hl. apply unlink_mid.
       apply NoDup_app in Hnd as (_ & Hd & _). intros Hx. eapply Hd; [exact Hx|left]. }
  assert (cred_held k2 (p_cred r)) as Hcr2 by (unfold cred_held in *; cbn; by rewrite E1, E2).
  rewrite (bind_run _ _ _ _ _ (drop_pcred_run k2 _ Hcr2)). set (k3 := set_pcreds _ _).
  assert (acts_held k3 (p_sigacts (core r))) as Hac3 by (unfold acts_held in *; cbn; by rewrite E3).
  rewrite (bind_run _ _ _ _ _ (free_sigacts_run k3 p (core r) Hp1 Hac3)).
  eexists. split; [reflexivity|].
  constructor; cbn.
  - rewrite Hl. symmetry. by apply without_mid.
  - eapply (queues_ok_vars (set_procs (delete p (procs k1)) k1)); [| |].
    + cbn. by rewrite delete_insert_eq.
    + done.
    + by apply (queues_ok_delete k1 _ p (core r)).
  - unfold cores. cbn. rewrite delete_insert_eq, fmap_delete. fold (cores k1). by rewrite Hc1.
  - unfold released_pcreds. cbn. by rewrite E1.
  - unfold released_ucreds. cbn. by rewrite E1, E2.
  - unfold released_sigacts. cbn. by rewrite E3.
  - change (others k1 = others k). unfold others. by rewrite Hrest.
Qed.

(** Nobody but the caller still has to be told about the process. *)
Definition last_waiter (k : kst) (r : proc) : Prop :=
  match ptracer r with
  | None => True
  | Some t => ∃ rt, procs k !! t = Some rt ∧
      (pid rt = ppid r ∨ (t = curproc k ∧ ppid r = -1))
  end.

Lemma traced_by_other_last k p r :
  procs k !! p = Some r → last_waiter k r →
  ∃ r', traced_by_other p k = Some (false, set_procs (<[p := r']> (procs k)) k) ∧
    (r' = r ∨ r' = set_ptracer None r).
Proof.
  intros Hp Hl. unfold traced_by_other, last_waiter in *.
  rewrite (bind_run _ _ _ _ _ (getp_run _ _ _ Hp)).
  assert (set_procs (<[p := r]> (procs k)) k = k) as Eid by (rewrite insert_id by done; apply set_procs_id).
  destruct (ptracer r) as [t|]; [|exists r; rewrite ret_run, Eid; by split; [|left]].
  destruct Hl as (rt & Ht & Hor). rewrite (bind_run _ _ _ _ _ (getp_run _ _ _ Ht)).
  destruct (Z.eqb_spec (pid rt) (ppid r)) as [E|E].
  { exists r. rewrite ret_run, Eid. by split; [|left]. }
  destruct Hor as [?|[-> Hpp]]; [done|].
  rewrite (bind_run (mgets curproc) _ k (curproc k) k) by done. rewrite decide_True by done.
  rewrite (bind_run _ _ _ _ _ (modp_run _ _ _ _ Hp)).
  erewrite (bind_run (getp p)) by (apply getp_run; apply lookup_insert_eq).
  exists (set_ptracer None r). split; [|by right]. rewrite ret_run.
  change (ppid (set_ptracer None r)) with (ppid r). by rewrite Hpp.
Qed.

Lemma gone_insert k k' Q p r r' :
  core r' = set_ptracer (ptracer r') (core r) → p_cred r' = p_cred r → p_sigacts r' = p_sigacts r →
  gone (set_procs (<[p := r']> (procs k)) k) k' Q p r' → gone k k' Q p r.
Proof.
  intros _ Hc Ha [H1 H2 H3 H4 H5 H6 H7]. rewrite Hc in *. rewrite Ha in *. constructor; try done.
  rewrite H3. unfold cores. cbn. by rewrite fmap_insert, delete_insert_eq.
Qed.

(** The caller's answer for the first candidate, and what is left to do. *)
Lemma pwaitpid_run `{Blocking} fuel k rc want nohang usage ret l1 p l2 r :
  procs_listed k → procs k !! curproc k = Some rc → proclist k = l1 ++ p :: l2 →
  Forall (λ q, candidate k rc want nohang q = false) l1 → candidate k rc want nohang p = true →
  procs k !! p = Some r → p ≠ curproc k →
  pwaitpid (S fuel) want nohang usage ret k =
    (dispose p ;; mret (answer usage ret r))
      (set_procs (<[curproc k := credit r rc]> (procs k)) k).
Proof.
  intros Hl Hc Hpl Hno Hyes Hp Hne. unfold pwaitpid.
  rewrite (bind_run (mgets curproc) _ k (curproc k) k) by done.
  rewrite (bind_run _ _ _ _ _ (getp_run _ _ _ Hc)).
  unfold candidate, at_proc in Hyes. rewrite Hp in Hyes. apply andb_prop in Hyes as [Ha Hr].
  rewrite (bind_run (wait_loop _ _ _ _) _ k (inr p) k).
  - rewrite (bind_run _ _ _ _ _ (getp_run _ _ _ Hp)).
    by rewrite (bind_run _ _ _ _ _ (add_usage_run k (curproc k) rc r Hc)).
  - cbn [wait_loop]. rewrite (bind_run (mgets proclist) _ k (proclist k) k) by done.
    unfold procs_listed in Hl. rewrite Hpl in *. apply Forall_app in Hl as [Hl _].
    destruct (look_found k _ _ l1 p l2 r 0 Hl Hno Hp Ha Hr) as [n Hrun].
    by rewrite (bind_run _ _ _ _ _ Hrun).
Qed.

Lemma last_waiter_credit k rc r :
  procs k !! curproc k = Some rc → last_waiter k r →
  last_waiter (set_procs (<[curproc k := credit r rc]> (procs k)) k) r.
Proof.
  intros Hc Hlast. unfold last_waiter in *. destruct (ptracer r) as [t|]; [|done].
  destruct Hlast as (rt & Ht & Hor). cbn.
  destruct (decide (t = curproc k)) as [->|Hnt]; [|by exists rt; rewrite lookup_insert_ne].
  exists (credit r rc). rewrite lookup_insert_eq. split; [done|].
  assert (rt = rc) as -> by congruence. replace (pid (credit r rc)) with (pid rc); [done|].
  unfold credit. by destruct (_ && _).
Qed.

(** C26: when the first candidate of the process list is a zombie that nobody else has
    to be told about, the call answers its status and usage, adds its times to the
    caller if it is the parent, and the zombie leaves the system: it is off the process
    list and the zombie queue, its structure is freed, and the references it held on
    credentials and signal actions are dropped, freeing them with the last one.
    Nothing else changes. *)
Theorem pwaitpid_reaps `{Blocking} fuel k Q rc want nohang usage ret l1 p l2 r :
  queues_ok k Q → procs_listed k → NoDup (proclist k) →
  procs k !! curproc k = Some rc → wait_q rc = CURPROC_Q → proclist k = l1 ++ p :: l2 →
  Forall (λ q, candidate k rc want nohang q = false) l1 → candidate k rc want nohang p = true →
  procs k !! p = Some r → wait_q r = ZOMBIE_Q → last_waiter k r →
  cred_held k (p_cred r) → acts_held k (p_sigacts r) →
  ∃ k', pwaitpid (S fuel) want nohang usage ret k = Some (answer usage ret r, k') ∧
    gone (set_procs (<[curproc k := credit r rc]> (procs k)) k) k' Q p r.
Proof.
  intros Hok Hli Hnd Hc Hwc Hpl Hno Hyes Hp Hw Hlast Hcr Hac.
  assert (p ≠ curproc k) as Hne by (intros ->; rewrite Hc in Hp; injection Hp as ->; by rewrite Hw in Hwc).
  rewrite (pwaitpid_run fuel k rc want nohang usage ret l1 p l2 r) by done.
  set (k0 := set_procs _ k).
  assert (procs k0 !! p = Some r) as Hp0 by (cbn; by rewrite lookup_insert_ne).
  pose proof (last_waiter_credit k rc r Hc Hlast) as Hlast0. fold k0 in Hlast0.
  unfold dispose. rewrite bind_assoc, (bind_run _ _ _ _ _ (getp_run _ _ _ Hp0)).
  rewrite Hw. change (ZOMBIE_Q =? STOP_Q) with false. cbv iota. rewrite bind_assoc.
  destruct (traced_by_other_last k0 p r Hp0 Hlast0) as (r' & Htr & Hr').
  rewrite (bind_run _ _ _ _ _ Htr). change (ZOMBIE_Q =? TSR_Q) with false. cbv iota.
  set (k1 := set_procs _ k0).
  assert (queues_ok k0 Q) as Hok0.
  { apply (queues_ok_modp k Q _ rc (credit r)); [done..| | |]; unfold credit; by destruct (_ && _). }
  assert (wait_q r' = wait_q r ∧ q_prev r' = q_prev r ∧ q_next r' = q_next r ∧
    p_cred r' = p_cred r ∧ p_sigacts r' = p_sigacts r) as (E1 & E2 & E3 & E4 & E5)
    by (by destruct Hr' as [->| ->]).
  assert (queues_ok k1 Q) as Hok1 by (by apply (queues_ok_modp k0 Q p r (λ _, r'))).
  destruct (reap_ok k1 Q p r') as (k' & Hrun & Hg).
  - done.
  - done.
  - cbn. rewrite Hpl. set_solver.
  - cbn. apply lookup_insert_eq.
  - congruence.
  - done.
  - rewrite E4. done.
  - rewrite E5. done.
  - exists k'. rewrite (bind_run _ _ _ _ _ Hrun). split; [done|].
    apply (gone_insert k0 k' Q p r r'); try done. by destruct Hr' as [->| ->].
Qed.

(** ** The status word *)

Lemma raw_status_eq r :
  0 ≤ pid r < 32768 → raw_status r = pid r * 2 ^ 16 + wait_cond r mod 65536.
Proof.
  intros Hp. unfold raw_status. rewrite (u32_id (pid r)), Z.shiftl_mul_pow2 by lia.
  rewrite u32_id by lia. change 65535 with (Z.ones 16). rewrite Z.land_ones by lia.
  pose proof (Z.mod_pos_bound (wait_cond r) 65536 ltac:(lia)).
  change (2 ^ 16) with 65536 in *. set (c := wait_cond r mod 65536) in *.
  pose proof (lor_parts 16 (pid r) 0 0 c ltac:(lia) ltac:(lia) ltac:(lia)) as E.
  change (2 ^ 16) with 65536 in E. rewrite Z.lor_0_r, Z.lor_0_l, Z.add_0_r in E. exact E.
Qed.

Lemma cut_code h l :
  0 ≤ h < 32768 → 0 ≤ l < 65536 →
  Z.land (h * 2 ^ 16 + l) 4294902015 = h * 2 ^ 16 + l mod 256.
Proof.
  intros Hh Hl. change 4294902015 with (65535 * 2 ^ 16 + 255). rewrite land_parts by lia.
  change 65535 with (Z.ones 16). change 255 with (Z.ones 8).
  rewrite !Z.land_ones by lia. by rewrite Z.mod_small by lia.
Qed.

Lemma killed_bits s : 0 ≤ s < 256 →
  Z.land (u16 (Z.shiftl s 8)) 40704 = Z.land s 159 * 2 ^ 8 + 0 ∧ 0 ≤ Z.land s 159 < 256.
Proof.
  intros Hs.
  assert (forallb (λ s, (Z.land (u16 (Z.shiftl s 8)) 40704 =? Z.land s 159 * 2 ^ 8 + 0)
    && (0 <=? Z.land s 159) && (Z.land s 159 <? 256)) (Zrange 0 256) = true) as E
    by (vm_compute; reflexivity).
  pose proof (forallb_range _ _ _ s E ltac:(lia)) as Es. cbv beta in Es. bool_to_prop. lia.
Qed.

(** what the answer of [pwaitpid] says: the high word is the pid of the child.
    The low word has, for a child that a signal killed, the signal (and the core flag)
    in the high byte; for a stopped child, and one whose exit code looks like a trace
    trap, the whole wait condition; and otherwise the exit code modulo 256. *)
Theorem wait_status_decode r :
  0 ≤ pid r < 32768 → 0 ≤ last_sig r < 256 →
  wait_status r / 65536 = pid r ∧
  wait_status r mod 65536 =
    if negb (signaled r =? 0) then Z.land (last_sig r) 159 * 256 + wait_cond r mod 256
    else if negb (wait_q r =? STOP_Q) && negb (Z.land (wait_cond r) 7936 =? 1280)
    then wait_cond r mod 256 else wait_cond r mod 65536.
Proof.
  intros Hp Hs. destruct (killed_bits (last_sig r) Hs) as [Ek Hk].
  pose proof (Z.mod_pos_bound (wait_cond r) 65536 ltac:(lia)) as Hm.
  assert ((wait_cond r mod 65536) mod 256 = wait_cond r mod 256) as E256.
  { Z.div_mod_to_equations. lia. }
  pose proof (Z.mod_pos_bound (wait_cond r) 256 ltac:(lia)) as Hm2.
  assert (∀ l, 0 ≤ l < 65536 → s32 (pid r * 2 ^ 16 + l) / 65536 = pid r ∧
    s32 (pid r * 2 ^ 16 + l) mod 65536 = l) as Hw.
  { intros l Hl. rewrite s32_id by lia. split.
    - symmetry. apply (Z.div_unique _ _ _ l); lia.
    - symmetry. apply (Z.mod_unique _ _ (pid r)); lia. }
  unfold wait_status. rewrite raw_status_eq by done. change (Z.shiftl SIGTRAP 8) with 1280.
  case_bool; [|case_bool; [rewrite cut_code, E256 by lia|]; apply Hw; lia].
  unfold killed_status. rewrite cut_code, E256, Ek by lia.
  replace (pid r * 2 ^ 16 + wait_cond r mod 256)
    with ((pid r * 2 ^ 8) * 2 ^ 8 + wait_cond r mod 256) by lia.
  rewrite lor_parts, Z.lor_0_r by lia.
  replace (pid r * 2 ^ 8) with (pid r * 2 ^ 8 + 0) by lia.
  replace (Z.land (last_sig r) 159) with (0 * 2 ^ 8 + Z.land (last_sig r) 159) at 1 2 by lia.
  rewrite lor_parts, Z.lor_0_r, Z.lor_0_l by lia.
  replace ((pid r * 2 ^ 8 + Z.land (last_sig r) 159) * 2 ^ 8 + wait_cond r mod 256)
    with (pid r * 2 ^ 16 + (Z.land (last_sig r) 159 * 256 + wait_cond r mod 256)) by lia.
  apply Hw. lia.
Qed.

(** An exit code whose second byte is 5 is answered as the end by a trace trap. *)
Example exit_code_trap (r : proc) :
  pid r = 7 → signaled r = 0 → wait_q r = ZOMBIE_Q → wait_cond r = 1281 →
  wait_status r mod 65536 = 1281 ∧ wait_status (set_wait_cond 1537 r) mod 65536 = 1.
Proof.
  intros Hp Hs Hw Hc. unfold wait_status, raw_status. cbn [pid signaled wait_q wait_cond set_wait_cond].
  rewrite Hp, Hs, Hw, Hc. done.
Qed.

(** ** Processes traced by another than their parent *)

(** The zombie after the first of the two has asked. *)
Definition told (me t : ptr) (r : proc) : proc :=
  if decide (me = t) then set_ptracer None r else set_ppid (-1) r.

Lemma dispose_told k p r t rt :
  procs k !! p = Some r → wait_q r = ZOMBIE_Q → ptracer r = Some t →
  procs k !! t = Some rt → pid rt ≠ ppid r → ppid r ≠ -1 →
  dispose p k = Some (tt, set_procs (<[p := told (curproc k) t r]> (procs k)) k).
Proof.
  intros Hp Hw Ht Hrt Hpid Hpp. unfold dispose, told.
  rewrite (bind_run _ _ _ _ _ (getp_run _ _ _ Hp)), Hw.
  change (ZOMBIE_Q =? STOP_Q) with false. cbv iota.
  set (k' := set_procs _ k). rewrite (bind_run (traced_by_other p) _ k true k'); [done|].
  unfold traced_by_other. rewrite (bind_run _ _ _ _ _ (getp_run _ _ _ Hp)), Ht.
  rewrite (bind_run _ _ _ _ _ (getp_run _ _ _ Hrt)), (proj2 (Z.eqb_neq _ _) Hpid).
  rewrite (bind_run (mgets curproc) _ k (curproc k) k) by done. unfold k'.
  destruct (decide (curproc k = t)); rewrite (bind_run _ _ _ _ _ (modp_run _ _ _ _ Hp)); [|done].
  erewrite (bind_run (getp p)) by (apply getp_run; apply lookup_insert_eq).
  rewrite ret_run. change (ppid (set_ptracer None r)) with (ppid r).
  by rewrite (proj2 (Z.eqb_neq _ _) Hpp).
Qed.

(** a zombie whose tracer is not its parent is answered to both. To whichever of the
    two asks first the call answers the status and keeps the zombie; the same caller
    will not find it again, and the other finds it, with the same status, as its last
    waiter. *)
Theorem pwaitpid_tells_both `{Blocking} fuel k rc want nohang usage ret l1 p l2 r t rt :
  procs_listed k → procs k !! curproc k = Some rc → proclist k = l1 ++ p :: l2 →
  Forall (λ q, candidate k rc want nohang q = false) l1 → candidate k rc want nohang p = true →
  procs k !! p = Some r → wait_q r = ZOMBIE_Q → p ≠ curproc k → 0 ≤ pid rc →
  ptracer r = Some t → procs k !! t = Some rt → pid rt ≠ ppid r → ppid r ≠ -1 →
  ∃ k' r', pwaitpid (S fuel) want nohang usage ret k = Some (answer usage ret r, k') ∧
    proclist k' = proclist k ∧ curproc k' = curproc k ∧
    procs k' !! p = Some r' ∧ wait_q r' = ZOMBIE_Q ∧ wait_status r' = wait_status r ∧
    (∀ want', children k' rc want' p = false) ∧
    ∀ o ro, procs k !! o = Some ro → o ≠ curproc k →
      (if decide (curproc k = t) then pid ro = ppid r else o = t) →
      children (set_curproc o k') ro (-1) p = true ∧ last_waiter (set_curproc o k') r'.
Proof.
  intros Hli Hc Hpl Hno Hyes Hp Hw Hne Hpos Ht Hrt Hpid Hpp.
  rewrite (pwaitpid_run fuel k rc want nohang usage ret l1 p l2 r) by done.
  set (k0 := set_procs _ k).
  assert (procs k0 !! p = Some r) as Hp0 by (cbn; by rewrite lookup_insert_ne).
  assert (∃ rt', procs k0 !! t = Some rt' ∧ pid rt' = pid rt) as (rt' & Hrt' & Ept).
  { cbn. destruct (decide (t = curproc k)) as [->|]; [|exists rt; by rewrite lookup_insert_ne].
    exists (credit r rc). rewrite lookup_insert_eq. split; [done|].
    assert (rt = rc) as -> by congruence. unfold credit. by destruct (_ && _). }
  rewrite (bind_run _ _ _ _ _ (dispose_told k0 p r t rt' Hp0 Hw Ht Hrt' ltac:(congruence) Hpp)).
  set (r' := told (curproc k) t r). set (k' := set_procs _ k0).
  assert (procs k' !! p = Some r') as Hp' by (cbn; apply lookup_insert_eq).
  assert (wait_q r' = wait_q r ∧ wait_status r' = wait_status r) as [Ew Es]
    by (unfold r', told; by case_decide).
  exists k', r'. do 4 (split; [done|]). split; [congruence|]. split; [done|].
  unfold candidate, at_proc in Hyes. rewrite Hp in Hyes.
  apply andb_prop in Hyes as [Ha _]. apply andb_prop in Ha as [Ha _]. rewrite Ht in Ha.
  unfold children, at_proc, asked, last_waiter. change (procs (set_curproc _ k')) with (procs k').
  rewrite Hp'. unfold r', told. split.
  - intros want'. change (curproc k') with (curproc k). bool_to_prop.
    destruct (decide (curproc k = t)) as [E|E]; cbn [ppid ptracer set_ptracer set_ppid].
    + assert (rt = rc) as -> by congruence. rewrite bool_decide_eq_false_2 by done.
      by replace (ppid r =? pid rc) with false by lia.
    + rewrite Ht, bool_decide_eq_false_2 by congruence.
      by replace (-1 =? pid rc) with false by lia.
  - intros o ro Ho Hoc Hor. change (curproc (set_curproc o k')) with o.
    destruct (decide (curproc k = t)) as [E|E]; cbn [ppid ptracer set_ptracer set_ppid].
    + by rewrite Hor, Z.eqb_refl.
    + subst o. rewrite Ht, bool_decide_eq_true_2, orb_true_r by done. split; [done|].
      destruct (decide (p = t)) as [<-|Hpt]; [exists r'; split; [exact Hp'|by right]|].
      exists rt'. split; [|by right]. cbn. by rewrite lookup_insert_ne.
Qed.

(** ** Concrete kernels *)

(** Process 6 is a zombie, a child of the current process with exit code 3; [t] traces
    it. *)
Definition ex_zombie (t : option ptr) : proc :=
  set_ptracer t (set_ppid 2 (set_systime 30 (ex_proc 6 ZOMBIE_Q 3 0 None None))).
Definition ex_wait (t : option ptr) : kst :=
  set_procs (<[6%positive := ex_zombie t]> ex_procs)
    (set_sysq (<[ZOMBIE_Q := ex_queue (Some 6%positive) (Some 6%positive)]> ex_sysq)
      (set_proclist [6; 5; 4; 3; 2; 1]%positive ex_kst)).
Definition ex_wait_queues (que : Z) : list ptr :=
  if que =? ZOMBIE_Q then [6%positive] else ex_queues que.

#[local] Instance ex_blocking : Blocking := {| sleep_until := λ _ _, mpanic |}.

Definition ex_rc : proc := ex_proc 2 CURPROC_Q 0 0 None None.

Lemma ex_wait_listed t : procs_listed (ex_wait t).
Proof. repeat constructor; by eexists. Qed.

Lemma pwaitpid_nothing_witness :
  pwaitpid 1 99 1 false false (ex_wait None) = Some (no_child ENOENT, ex_wait None) ∧
  pwaitpid 1 (-1) 0 false false ex_kst = Some (no_child ENOENT, ex_kst).
Proof.
  split.
  - apply (pwaitpid_nothing 0 (ex_wait None) ex_rc 99 1 false false);
      [apply ex_wait_listed|reflexivity|by repeat constructor|by left].
  - apply (pwaitpid_nothing 0 ex_kst ex_rc (-1) 0 false false);
      [repeat constructor; by eexists|reflexivity|by repeat constructor|].
    right. by repeat constructor.
Defined.

Lemma pwaitpid_reaps_witness :
  ∃ k', pwaitpid 1 (-1) 0 true false (ex_wait None) =
      Some (mk_wanswer (6 * 65536 + 3) (Some (0, 30)) None, k') ∧
    gone (set_procs (<[2%positive := credit (ex_zombie None) ex_rc]> (procs (ex_wait None)))
      (ex_wait None)) k' ex_wait_queues 6 (ex_zombie None).
Proof.
  apply (pwaitpid_reaps 0 (ex_wait None) ex_wait_queues ex_rc (-1) 0 true false []
    6 [5; 4; 3; 2; 1]%positive (ex_zombie None)); try reflexivity.
  - apply queues_okb_sound. vm_compute. reflexivity.
  - apply ex_wait_listed.
  - vm_compute. apply (bool_decide_unpack _). reflexivity.
  - constructor.
  - exists (mk_pcred 11 0 0 0 0 5). split; [reflexivity|]. split; [cbn; lia|done].
  - eexists 20%positive, _. split; [reflexivity|]. split; [reflexivity|cbn; lia].
Defined.

Lemma wait_status_decode_witness :
  wait_status (ex_zombie None) / 65536 = 6 ∧ wait_status (ex_zombie None) mod 65536 = 3.
Proof. apply (wait_status_decode (ex_zombie None)); cbn; lia. Defined.

Lemma pwaitpid_tells_both_witness :
  ∃ k' r', pwaitpid 1 (-1) 0 false false (ex_wait (Some 3%positive)) =
      Some (answer false false (ex_zombie (Some 3%positive)), k') ∧
    procs k' !! 6%positive = Some r' ∧ wait_q r' = ZOMBIE_Q ∧
    children (set_curproc 3 k') (ex_proc 3 READY_Q 0 2 None None) (-1) 6 = true.
Proof.
  destruct (pwaitpid_tells_both 0 (ex_wait (Some 3%positive)) ex_rc (-1) 0 false false []
    6 [5; 4; 3; 2; 1]%positive (ex_zombie (Some 3%positive)) 3
    (ex_proc 3 READY_Q 0 2 None None)) as (k' & r' & Hrun & _ & _ & Hp & Hw & _ & _ & Ho);
    try reflexivity; try done; [apply ex_wait_listed|].
  exists k', r'. split; [exact Hrun|]. split; [exact Hp|]. split; [exact Hw|].
  apply (Ho 3%positive); [reflexivity|done|reflexivity].
Defined.
