(* ===== verification/Rendez.v ===== *)
(** * Rendezvous and semaphores (sys/rendez.c)

    Pmsg passes a message of two longs between a reader and a writer that name
    the same mailbox; the message and the state of the exchange live in the
    [struct proc] of the process that waits.  Psemaphore keeps the list of
    semaphores. *)

From stdpp Require Import functions.
From S2P Require Import Prelude CInt Errno Timeout Kernel ProcQueue.

(** ** Messages *)

(** What the call writes to the message buffer: the two longs, if it does, and
    the short. *)
Record reply := mk_reply { rp_longs : option (Z * Z); rp_pid : option Z }.
Definition no_reply : reply := mk_reply None None.

Section pmsg.
Context `{Blocking}.

Definition is_writer (mbid : Z) (r : proc) : bool :=
  ((mb_mode r =? 1) || (mb_mode r =? 2)) && (mb_mbid r =? mbid).
Definition is_reader (mbid : Z) (r : proc) : bool :=
  (mb_mode r =? 0) && (mb_mbid r =? mbid).

Definition find_writer (mbid : Z) : M kst (option ptr) :=
  l ← mgets proclist; find_proc (is_writer mbid) l.
Definition find_reader (mbid : Z) : M kst (option ptr) :=
  l ← mgets proclist; find_proc (is_reader mbid) l.

(** [0xFFFF0000L | pid] *)
Definition reply_box (n : Z) : Z := s32 (Z.lor 4294901760 n).

Definition wake_peer (p : ptr) : M kst unit :=
  modp p (set_mb_mode (-1)) ;;
  modp p (set_wait_cond 0) ;;
  r ← getp p;
  mwhen (negb (wait_q r =? READY_Q)) (rm_q (wait_q r) p ;; add_q READY_Q p).

(** The loop around [sleep]. *)
Fixpoint wait_rendezvous (fuel : nat) (c : ptr) : M kst unit :=
  match fuel with
  | O => mpanic
  | S fuel =>
      sleep_until WAIT_Q WAIT_MB ;;
      r ← getp c;
      if mb_mode r =? -1 then mret tt else wait_rendezvous fuel c
  end.

(** The label [dosleep]. *)
Definition dosleep (fuel : nat) (noblock : bool) (mode mbid : Z) : M kst (Z * reply) :=
  if noblock then mret (-1, no_reply)
  else
    c ← mgets curproc;
    modp c (set_mb_mbid mbid) ;;
    modp c (set_mb_mode mode) ;;
    wait_rendezvous fuel c ;;
    r ← getp c;
    mret (0, mk_reply (if mode =? 0 then Some (mb_long1 r, mb_long2 r) else None)
               (Some (mb_writer r))).

(** [got_rendezvous] with the writer [p], for a reader. *)
Definition take_message (p : ptr) : M kst (Z * reply) :=
  r ← getp p;
  (if mb_mode r =? 2 then
     modp p (set_mb_mbid (reply_box (pid r))) ;; modp p (set_mb_mode 0)
   else
     c ← mgets curproc;
     rc ← getp c;
     modp p (set_mb_writer (pid rc)) ;;
     wake_peer p) ;;
  mret (0, mk_reply (Some (mb_long1 r, mb_long2 r)) (Some (pid r))).

(** [got_rendezvous] with the reader [p], for a writer of [l1] and [l2]. *)
Definition give_message (fuel : nat) (noblock : bool) (mode : Z) (l1 l2 : Z) (p : ptr) :
    M kst (Z * reply) :=
  c ← mgets curproc;
  rc ← getp c;
  modp p (set_mb_writer (pid rc)) ;;
  modp p (set_mb_long1 l1) ;;
  modp p (set_mb_long2 l2) ;;
  wake_peer p ;;
  if mode =? 2 then
    rc ← getp c;
    dosleep fuel noblock 0 (reply_box (pid rc))
  else
    r ← getp p;
    mret (0, mk_reply None (Some (pid r))).

(** [mode0] is the [int] that is passed, [l1] and [l2] the longs at [ptr]. *)
Definition sys_p_msg (fuel : nat) (mode0 mbid l1 l2 : Z) : M kst (Z * reply) :=
  let noblock := negb (Z.land (u16 mode0) 32768 =? 0) in
  let mode := Z.land (u16 mode0) (not16 32768) in
  if mode =? 0 then
    p ← find_writer mbid;
    match p with
    | Some p => take_message p
    | None => dosleep fuel noblock mode mbid
    end
  else if (mode =? 1) || (mode =? 2) then
    p ← find_reader mbid;
    match p with
    | Some p => give_message fuel noblock mode l1 l2 p
    | None =>
        c ← mgets curproc;
        modp c (set_mb_long1 l1) ;;
        modp c (set_mb_long2 l2) ;;
        dosleep fuel noblock mode mbid
    end
  else mret (ENOSYS, no_reply).
End pmsg.

(** ** Semaphores *)

Definition on_timers {A} (c : M (tstate Z) A) : M kst A := mlift ktimers set_ktimers c.

Definition unsemame (p : ptr) : M kst unit :=
  r ← getp p;
  mwhen (wait_q r =? WAIT_Q) (rm_q WAIT_Q p ;; add_q READY_Q p) ;;
  modp p (set_wait_cond 0).

(** The first semaphore [id] of the list and its place. *)
Fixpoint find_sema (id : Z) (l : list sema) : option (list sema * sema * list sema) :=
  match l with
  | [] => None
  | s :: l =>
      if sm_id s =? id then Some ([], s, l)
      else '(b, x, e) ← find_sema id l; Some (s :: b, x, e)
  end.

Definition set_owner (n : Z) (s : sema) : sema := mk_sema (sm_id s) n.

Section semaphore.
Context `{Blocking}.

Definition current_pid : M kst Z := c ← mgets curproc; r ← getp c; mret (pid r).

(** [mem] tells whether [kmalloc] succeeds. *)
Definition sema_create (mem : bool) (id : Z) : M kst Z :=
  l ← mgets semalist;
  match find_sema id l with
  | Some _ => mret EACCES
  | None =>
      if mem then
        n ← current_pid;
        mmod (λ k, set_semalist (mk_sema id n :: semalist k) k) ;;
        mret E_OK
      else mret ENOMEM
  end.

Definition cancel_opt (t : option taddr) : M kst unit :=
  c ← mgets curproc;
  match t with Some t => on_timers (canceltimeout t c) | None => mret tt end.

(** From the label [loop] on; [t] is [timeout_ptr], [mem] the answer of the
    allocation in [addtimeout]. *)
Fixpoint sema_get (fuel : nat) (mem : option ptr) (id timeout : Z) (t : option taddr) :
    M kst Z :=
  match fuel with
  | O => mpanic
  | S fuel =>
      l ← mgets semalist;
      match find_sema id l with
      | None => cancel_opt t ;; mret EBADARG
      | Some (b, s, e) =>
          n ← current_pid;
          if sm_owner s =? n then mret EERROR
          else if sm_owner s =? -1 then
            mmod (set_semalist (b ++ set_owner n s :: e)) ;;
            cancel_opt t ;;
            mret 0
          else if timeout =? 0 then mret EACCES
          else
            c ← mgets curproc;
            t ← (if negb (timeout =? -1) && bool_decide (t = None)
                 then on_timers (addtimeout mem c timeout unsemame_addr)
                 else mret t);
            sleep_until WAIT_Q WAIT_SEMA ;;
            r ← getp c;
            if negb (wait_cond r =? WAIT_SEMA) then mret EACCES
            else sema_get fuel mem id timeout t
      end
  end.

Definition sema_release (mode id : Z) : M kst Z :=
  l ← mgets semalist;
  match find_sema id l with
  | None => mret EBADARG
  | Some (b, s, e) =>
      n ← current_pid;
      if negb (sm_owner s =? n) && negb (sm_owner s =? -1) then mret EACCES
      else
        mmod (set_semalist (if mode =? 3 then b ++ set_owner (-1) s :: e else b ++ e)) ;;
        wake WAIT_Q WAIT_SEMA ;;
        mret E_OK
  end.

Definition sys_p_semaphore (fuel : nat) (mem : bool) (tmem : option ptr)
    (mode id timeout : Z) : M kst Z :=
  if mode =? 0 then sema_create mem id
  else if mode =? 2 then sema_get fuel tmem id timeout None
  else if (mode =? 3) || (mode =? 1) then sema_release mode id
  else mret ENOSYS.
End semaphore.

Definition free_semaphores (n : Z) : M kst unit :=
  l ← mgets semalist;
  mmod (set_semalist ((λ s, if sm_owner s =? n then set_owner (-1) s else s) <$> l)) ;;
  mwhen (existsb (λ s, sm_owner s =? n) l) (wake WAIT_Q WAIT_SEMA).

(** ** A rendezvous *)

(** [p] waits on a queue that [wake_peer] takes it from. *)
Definition waiting (r : proc) : Prop := READY_Q < wait_q r < NUM_QUEUES.

Lemma wake_peer_ok k Q p r :
  queues_ok k Q → procs k !! p = Some r → waiting r →
  ∃ k' r', wake_peer p k = Some (tt, k') ∧
    queues_ok k' (moved (wait_q r) (without p (Q (wait_q r))) [p] Q) ∧
    procs k' !! p = Some r' ∧ core r' = core (set_wait_cond 0 (set_mb_mode (-1) r)) ∧
    wait_q r' = READY_Q ∧ rest k' = rest k ∧
    (∀ q rq, q ≠ p → procs k !! q = Some rq →
      ∃ rq', procs k' !! q = Some rq' ∧ core rq' = core rq).
Proof.
  intros Hok Hr Hw. unfold wake_peer.
  erewrite bind_run by by apply modp_run.
  erewrite bind_run by (apply modp_run; apply lookup_insert_eq).
  set (r1 := set_wait_cond 0 (set_mb_mode (-1) r)). set (k1 := set_procs _ _).
  assert (k1 = set_procs (<[p := r1]> (procs k)) k) as ->.
  { unfold k1. cbn. unfold set_procs. cbn. by rewrite insert_insert_eq. }
  set (k1 := set_procs _ k).
  assert (queues_ok k1 Q) as Hok1 by (by apply (queues_ok_modp k Q p r (λ _, r1))).
  assert (procs k1 !! p = Some r1) as Hr1 by apply lookup_insert_eq.
  erewrite bind_run by by apply getp_run. change (wait_q r1) with (wait_q r).
  unfold waiting in Hw. replace (wait_q r =? READY_Q) with false by lia. cbn [negb mwhen].
  assert (p ∈ Q (wait_q r)) as Hin.
  { apply (queue_elem_iff k Q (wait_q r) p r Hok); [unfold READY_Q in *; lia|done|done]. }
  destruct (move_ready_ok k1 Q (wait_q r) p Hok1 Hw Hin) as (k' & Hrun & Hok' & Hc & Hrest).
  destruct (core_field (λ _, tt) k1 k' p r1) as (r' & Hr' & _ & Hcr); [done|done|done|].
  exists k', r'. split; [done|]. split; [done|]. split; [done|]. split; [done|].
  split; [|split; [done|]].
  - apply (queue_elem_iff k' _ READY_Q p r' Hok'); [done|done|]. rewrite moved_ready. set_solver.
  - intros q rq Hq Hrq. assert (procs k1 !! q = Some rq) as Hrq1.
    { change (<[p := r1]> (procs k) !! q = Some rq). by rewrite lookup_insert_ne. }
    destruct (core_field (λ _, tt) k1 k' q rq) as (rq' & Hrq' & _ & ?); [done|done|done|].
    eauto.
Qed.

Section rendezvous.
Context `{Blocking}.

Lemma msg_write_found fuel mbid l1 l2 k p :
  find_reader mbid k = Some (Some p, k) →
  sys_p_msg fuel 1 mbid l1 l2 k = give_message fuel false 1 l1 l2 p k ∧
  sys_p_msg fuel 2 mbid l1 l2 k = give_message fuel false 2 l1 l2 p k ∧
  sys_p_msg fuel 32770 mbid l1 l2 k = give_message fuel true 2 l1 l2 p k.
Proof.
  intros Hf. split; [|split].
  - change (sys_p_msg fuel 1 mbid l1 l2 k) with ((p ← find_reader mbid;
      match p with Some p => give_message fuel false 1 l1 l2 p
      | None => c ← mgets curproc; modp c (set_mb_long1 l1) ;; modp c (set_mb_long2 l2) ;;
                dosleep fuel false 1 mbid end) k).
    by erewrite bind_run by exact Hf.
  - change (sys_p_msg fuel 2 mbid l1 l2 k) with ((p ← find_reader mbid;
      match p with Some p => give_message fuel false 2 l1 l2 p
      | None => c ← mgets curproc; modp c (set_mb_long1 l1) ;; modp c (set_mb_long2 l2) ;;
                dosleep fuel false 2 mbid end) k).
    by erewrite bind_run by exact Hf.
  - change (sys_p_msg fuel 32770 mbid l1 l2 k) with ((p ← find_reader mbid;
      match p with Some p => give_message fuel true 2 l1 l2 p
      | None => c ← mgets curproc; modp c (set_mb_long1 l1) ;; modp c (set_mb_long2 l2) ;;
                dosleep fuel true 2 mbid end) k).
    by erewrite bind_run by exact Hf.
Qed.

Lemma msg_write_none fuel mbid l1 l2 k c rc mode :
  mode ∈ [1; 2] → find_reader mbid k = Some (None, k) → curproc k = c → procs k !! c = Some rc →
  sys_p_msg fuel mode mbid l1 l2 k =
  dosleep fuel false mode mbid
    (set_procs (<[c := set_mb_long2 l2 (set_mb_long1 l1 rc)]> (procs k)) k).
Proof.
  intros Hmode Hf Hcur Hc.
  assert ((p ← find_reader mbid;
      match p with Some p => give_message fuel false mode l1 l2 p
      | None => c ← mgets curproc; modp c (set_mb_long1 l1) ;; modp c (set_mb_long2 l2) ;;
                dosleep fuel false mode mbid end) k =
    dosleep fuel false mode mbid
      (set_procs (<[c := set_mb_long2 l2 (set_mb_long1 l1 rc)]> (procs k)) k)) as Hrun.
  { erewrite bind_run by exact Hf. cbv beta iota.
    erewrite (bind_run (mgets _)) by reflexivity. rewrite Hcur.
    erewrite bind_run by by apply modp_run.
    erewrite bind_run by (apply modp_run; apply lookup_insert_eq). f_equal.
    unfold set_procs. cbn. by rewrite insert_insert_eq. }
  rewrite <- Hrun.
  repeat (apply elem_of_cons in Hmode as [->|Hmode]; [done|]). by apply not_elem_of_nil in Hmode.
Qed.

Lemma msg_read fuel mbid x1 x2 k o :
  find_writer mbid k = Some (o, k) →
  sys_p_msg fuel 0 mbid x1 x2 k =
  match o with Some p => take_message p | None => dosleep fuel false 0 mbid end k.
Proof.
  intros Hf. change (sys_p_msg fuel 0 mbid x1 x2 k) with ((p ← find_writer mbid;
    match p with Some p => take_message p | None => dosleep fuel false 0 mbid end) k).
  by erewrite bind_run by exact Hf.
Qed.

(** The caller [c], and the other process that [find] found. *)
Record meets (k : kst) (Q : Z → list ptr) (c p : ptr) (rc rp : proc) : Prop := {
  mt_queues : queues_ok k Q;
  mt_cur : curproc k = c;
  mt_self : procs k !! c = Some rc;
  mt_other : procs k !! p = Some rp;
  mt_ne : p ≠ c;
  mt_wait : waiting rp;
}.

(** [r'] is the record that the exchange left to a process with record [r]: only
    the message, the partner and the state of the exchange changed. *)
Definition handed (r r' : proc) (l1 l2 partner : Z) : Prop :=
  mb_mode r' = -1 ∧ mb_long1 r' = l1 ∧ mb_long2 r' = l2 ∧ mb_writer r' = partner ∧
  wait_q r' = READY_Q ∧ pid r' = pid r.

(** The message is handed to the waiting reader [p]; then the call goes on. *)
Lemma hand_over_run k Q c p rc rp l1 l2 :
  meets k Q c p rc rp →
  ∃ k' rp' rc',
    (∀ A (X : M kst A), (modp p (set_mb_writer (pid rc)) ;; modp p (set_mb_long1 l1) ;;
       modp p (set_mb_long2 l2) ;; wake_peer p ;; X) k = X k') ∧
    (∃ Q', queues_ok k' Q') ∧ procs k' !! p = Some rp' ∧ handed rp rp' l1 l2 (pid rc) ∧
    procs k' !! c = Some rc' ∧ pid rc' = pid rc.
Proof.
  intros [Hok Hcur Hc Hp Hne Hw].
  set (r1 := set_mb_long2 l2 (set_mb_long1 l1 (set_mb_writer (pid rc) rp))).
  set (k1 := set_procs (<[p := r1]> (procs k)) k).
  assert (queues_ok k1 Q) as Hok1 by (by apply (queues_ok_modp k Q p rp (λ _, r1))).
  destruct (wake_peer_ok k1 Q p r1 Hok1) as (k' & r' & Hrun & Hok' & Hr' & Hcr & Hwq & _ & Hoth);
    [apply lookup_insert_eq|done|].
  destruct (Hoth c rc) as (rc' & Hrc' & Hcc); [congruence|cbn; by rewrite lookup_insert_ne|].
  exists k', r', rc'. split; [|split; [eauto|split; [done|split; [|split; [done|]]]]].
  - intros A X. erewrite bind_run by by apply modp_run.
    erewrite bind_run by (apply modp_run; apply lookup_insert_eq).
    erewrite bind_run by (apply modp_run; apply lookup_insert_eq).
    replace (set_procs _ _) with k1; [by erewrite bind_run by exact Hrun|].
    unfold k1, set_procs. cbn. by rewrite !insert_insert_eq.
  - assert (∀ A (f : proc → A), (∀ r, f (core r) = f r) →
      f r' = f (set_wait_cond 0 (set_mb_mode (-1) r1))) as Hfield
      by (intros A f Hfc; by rewrite <- (Hfc r'), Hcr, Hfc).
    unfold handed. by rewrite (Hfield _ mb_mode), (Hfield _ mb_long1), (Hfield _ mb_long2),
      (Hfield _ mb_writer), (Hfield _ pid) by done.
  - change (pid (core rc') = pid (core rc)). by rewrite Hcc.
Qed.

Lemma give_message_run fuel noblock mode l1 l2 k Q c p rc rp :
  meets k Q c p rc rp →
  ∃ k' rp', (∃ Q', queues_ok k' Q') ∧ procs k' !! p = Some rp' ∧ handed rp rp' l1 l2 (pid rc) ∧
    give_message fuel noblock mode l1 l2 p k =
    (if mode =? 2 then dosleep fuel noblock 0 (reply_box (pid rc)) k'
     else Some ((0, mk_reply None (Some (pid rp))), k')).
Proof.
  intros Hm. destruct (hand_over_run k Q c p rc rp l1 l2 Hm)
    as (k' & rp' & rc' & Hrun & HQ & Hrp' & Hh & Hrc' & Hpid).
  exists k', rp'. do 3 (split; [done|]). destruct Hm as [_ Hcur Hc _ _ _].
  unfold give_message. erewrite (bind_run (mgets _)) by reflexivity. rewrite Hcur.
  erewrite bind_run by by apply getp_run. rewrite Hrun. destruct (mode =? 2).
  - erewrite bind_run by by apply getp_run. by rewrite Hpid.
  - erewrite bind_run by by apply getp_run. destruct Hh as (_ & _ & _ & _ & _ & ->). done.
Qed.

(** A write to a process that waits to read. *)
Lemma write_run fuel k Q c p rc rp mbid l1 l2 :
  meets k Q c p rc rp → find_reader mbid k = Some (Some p, k) →
  ∃ k' rp', sys_p_msg fuel 1 mbid l1 l2 k = Some ((0, mk_reply None (Some (pid rp))), k') ∧
    (∃ Q', queues_ok k' Q') ∧ procs k' !! p = Some rp' ∧ handed rp rp' l1 l2 (pid rc).
Proof.
  intros Hm Hf. destruct (msg_write_found fuel mbid l1 l2 k p Hf) as [-> _].
  destruct (give_message_run fuel false 1 l1 l2 k Q c p rc rp Hm)
    as (k' & rp' & HQ & Hrp' & Hh & ->).
  by exists k', rp'.
Qed.

(** The end of a call that waited: it runs again with the record [r2]. *)
Lemma dosleep_run fuel k c rc mode mbid :
  curproc k = c → procs k !! c = Some rc →
  let k1 := set_procs (<[c := set_mb_mode mode (set_mb_mbid mbid rc)]> (procs k)) k in
  ∀ k2 r2, sleep_until WAIT_Q WAIT_MB k1 = Some (tt, k2) → procs k2 !! c = Some r2 →
  mb_mode r2 = -1 →
  dosleep (S fuel) false mode mbid k =
  Some ((0, mk_reply (if mode =? 0 then Some (mb_long1 r2, mb_long2 r2) else None)
              (Some (mb_writer r2))), k2).
Proof.
  intros Hcur Hc k1 k2 r2 Hsl Hr2 Hm. unfold dosleep.
  erewrite (bind_run (mgets _)) by reflexivity. rewrite Hcur.
  erewrite bind_run by by apply modp_run.
  erewrite bind_run by (apply modp_run; apply lookup_insert_eq).
  replace (set_procs _ _) with k1 by (unfold k1, set_procs; cbn; by rewrite insert_insert_eq).
  cbn [wait_rendezvous]. rewrite bind_assoc. erewrite bind_run by exact Hsl.
  rewrite bind_assoc. erewrite bind_run by by apply getp_run.
  rewrite Hm. change (-1 =? -1) with true. cbv iota.
  erewrite bind_run by by apply ret_run. by erewrite bind_run by by apply getp_run.
Qed.

(** [p] with the state of the exchange changed, seen through [f]. *)
Lemma set_mb_run k Q p r (f g : proc → proc) :
  queues_ok k Q → procs k !! p = Some r →
  wait_q (g (f r)) = wait_q r → q_prev (g (f r)) = q_prev r → q_next (g (f r)) = q_next r →
  ∃ k', (modp p f ;; modp p g) k = Some (tt, k') ∧ queues_ok k' Q ∧
    procs k' = <[p := g (f r)]> (procs k) ∧ rest k' = rest k.
Proof.
  intros Hok Hr Hw Hp Hn. erewrite bind_run by by apply modp_run.
  rewrite (modp_run p _ _ _ (lookup_insert_eq _ _ _)).
  exists (set_procs (<[p := g (f r)]> (procs k)) k). split; [|split; [|done]].
  - do 2 f_equal. unfold set_procs. cbn. by rewrite insert_insert_eq.
  - by apply (queues_ok_modp k Q p r (λ _, g (f r))).
Qed.

(** The record of a writer whose message was taken. *)
Definition released (rp rp' : proc) (partner : Z) : Prop :=
  if mb_mode rp =? 2
  then mb_mode rp' = 0 ∧ mb_mbid rp' = reply_box (pid rp) ∧ wait_q rp' = wait_q rp
  else mb_mode rp' = -1 ∧ mb_writer rp' = partner ∧ wait_q rp' = READY_Q.

(** a process that reads a mailbox where another waits to write gets the
    message and the process number of the writer at once.  A writer in mode 1 is
    ready and finds the reader's number; a writer in mode 2 goes on waiting, now
    for an answer in its own mailbox - and the reader, or anybody, that writes to
    that mailbox next finds a reader there, so that the answer cannot block. *)
Theorem message_taken fuel k Q c p rc rp mbid x1 x2 :
  meets k Q c p rc rp → find_writer mbid k = Some (Some p, k) →
  procs_listed k → p ∈ proclist k →
  ∃ k' rp', sys_p_msg fuel 0 mbid x1 x2 k =
    Some ((0, mk_reply (Some (mb_long1 rp, mb_long2 rp)) (Some (pid rp))), k') ∧
  (∃ Q', queues_ok k' Q') ∧ procs k' !! p = Some rp' ∧ released rp rp' (pid rc) ∧
  (mb_mode rp = 2 → ∃ q, find_reader (reply_box (pid rp)) k' = Some (Some q, k')).
Proof.
  intros [Hok Hcur Hc Hp Hne Hw] Hf Hlisted Hin. rewrite (msg_read _ _ _ _ _ _ Hf).
  unfold take_message, released. erewrite bind_run by by apply getp_run.
  destruct (Z.eqb_spec (mb_mode rp) 2) as [Hm|Hm].
  - destruct (set_mb_run k Q p rp (set_mb_mbid (reply_box (pid rp))) (set_mb_mode 0) Hok Hp)
      as (k' & Hrun & Hok' & Hk' & Hrest); [done..|].
    exists k', (set_mb_mode 0 (set_mb_mbid (reply_box (pid rp)) rp)).
    erewrite bind_run by exact Hrun. split; [done|]. split; [eauto|].
    split; [rewrite Hk'; apply lookup_insert_eq|]. split; [done|]. intros _.
    unfold find_reader. erewrite (bind_run (mgets _)) by reflexivity.
    assert (proclist k' = proclist k) as Hl
      by (change (proclist (rest k') = proclist (rest k)); by rewrite Hrest).
    destruct (find_proc_run (is_reader (reply_box (pid rp))) (proclist k') k')
      as (o & Hfind & Hspec).
    { rewrite Hl, Hk'. eapply Forall_impl; [exact Hlisted|]. intros q Hq. cbn in Hq.
      destruct (decide (q = p)) as [->|]; [rewrite lookup_insert_eq; eauto|].
      by rewrite lookup_insert_ne by congruence. }
    destruct o as [q|]; [by exists q|]. exfalso. rewrite Hl, Hk' in Hspec.
    specialize (Hspec p _ Hin (lookup_insert_eq _ _ _)).
    unfold is_reader in Hspec. cbn in Hspec. by rewrite Z.eqb_refl in Hspec.
  - rewrite bind_assoc. erewrite (bind_run (mgets _)) by reflexivity. rewrite Hcur.
    rewrite bind_assoc. erewrite bind_run by by apply getp_run.
    rewrite bind_assoc. erewrite bind_run by by apply modp_run. set (k1 := set_procs _ k).
    assert (queues_ok k1 Q) as Hok1
      by (by apply (queues_ok_modp k Q p rp (set_mb_writer (pid rc)))).
    destruct (wake_peer_ok k1 Q p (set_mb_writer (pid rc) rp) Hok1)
      as (k' & r' & Hrun & Hok' & Hr' & Hcr & Hwq & _); [apply lookup_insert_eq|done|].
    erewrite bind_run by exact Hrun. exists k', r'. split; [done|]. split; [eauto|].
    split; [done|]. split; [|done]. split; [|split; [|done]].
    + change (mb_mode (core r') = -1). by rewrite Hcr.
    + change (mb_writer (core r') = pid rc). by rewrite Hcr.
Qed.

(** a write in mode 2 waits for an answer.  The answer reaches the caller when
    a reader was there at the time of the call; when the caller had to wait for a
    reader first, the answer that arrives in its process structure is not copied
    to its buffer: it learns only the process number of the partner. *)
Theorem blocked_write_read_loses_reply fuel mbid l1 l2 k c rc k2 r2 :
  find_reader mbid k = Some (None, k) → curproc k = c → procs k !! c = Some rc →
  sleep_until WAIT_Q WAIT_MB
    (set_procs (<[c := set_mb_mode 2 (set_mb_mbid mbid
       (set_mb_long2 l2 (set_mb_long1 l1 rc)))]> (procs k)) k) = Some (tt, k2) →
  procs k2 !! c = Some r2 → mb_mode r2 = -1 →
  sys_p_msg (S fuel) 2 mbid l1 l2 k = Some ((0, mk_reply None (Some (mb_writer r2))), k2) ∧
  (** the same wait as it ends in [give_message] *)
  (∀ k0 r0, curproc k0 = c → procs k0 !! c = Some r0 →
    sleep_until WAIT_Q WAIT_MB
      (set_procs (<[c := set_mb_mode 0 (set_mb_mbid mbid r0)]> (procs k0)) k0) = Some (tt, k2) →
    dosleep (S fuel) false 0 mbid k0 =
    Some ((0, mk_reply (Some (mb_long1 r2, mb_long2 r2)) (Some (mb_writer r2))), k2)).
Proof.
  intros Hf Hcur Hc Hsl Hr2 Hm. split.
  - rewrite (msg_write_none _ _ _ _ k c rc 2) by (done || set_solver).
    set (k1 := set_procs _ k). rewrite (dosleep_run fuel k1 c
      (set_mb_long2 l2 (set_mb_long1 l1 rc)) 2 mbid Hcur (lookup_insert_eq _ _ _) k2 r2);
      [done| |done|done].
    replace (set_procs _ k1) with
      (set_procs (<[c := set_mb_mode 2 (set_mb_mbid mbid
         (set_mb_long2 l2 (set_mb_long1 l1 rc)))]> (procs k)) k); [done|].
    unfold k1, set_procs. cbn. by rewrite insert_insert_eq.
  - intros k0 r0 Hcur0 Hr0 Hsl0. by apply (dosleep_run fuel k0 c r0 0 mbid Hcur0 Hr0 k2 r2).
Qed.

(** in mode 2 with the non-blocking bit, a write that finds a reader delivers
    the message and nevertheless answers -1, as it does when nobody was there. *)
Theorem nonblocking_write_read fuel k Q c p rc rp mbid l1 l2 :
  meets k Q c p rc rp → find_reader mbid k = Some (Some p, k) →
  ∃ k' rp', sys_p_msg fuel 32770 mbid l1 l2 k = Some ((-1, no_reply), k') ∧
  procs k' !! p = Some rp' ∧ handed rp rp' l1 l2 (pid rc).
Proof.
  intros Hm Hf. destruct (msg_write_found fuel mbid l1 l2 k p Hf) as (_ & _ & ->).
  destruct (give_message_run fuel true 2 l1 l2 k Q c p rc rp Hm)
    as (k' & rp' & _ & Hrp' & Hh & ->).
  by exists k', rp'.
Qed.

(** C35: a message that is written to a mailbox where a process waits to read
    arrives.  The writer returns at once with the process number of the reader;
    the reader is ready, and its Pmsg - when it runs again with the record that
    the writer left - returns exactly the two longs that were written and the
    process number of the writer. *)
Theorem message_arrives fuel k Q c p rc rp mbid l1 l2 :
  meets k Q c p rc rp → find_reader mbid k = Some (Some p, k) →
  ∃ k' rp', sys_p_msg fuel 1 mbid l1 l2 k = Some ((0, mk_reply None (Some (pid rp))), k') ∧
  (∃ Q', queues_ok k' Q') ∧ procs k' !! p = Some rp' ∧ wait_q rp' = READY_Q ∧
  (** the reader's call, from the state [k0] in which it was made *)
  ∀ k0 r0 x1 x2 k2 r2, curproc k0 = p → procs k0 !! p = Some r0 →
    find_writer mbid k0 = Some (None, k0) →
    sleep_until WAIT_Q WAIT_MB
      (set_procs (<[p := set_mb_mode 0 (set_mb_mbid mbid r0)]> (procs k0)) k0) = Some (tt, k2) →
    procs k2 !! p = Some r2 → core r2 = core rp' →
    sys_p_msg (S fuel) 0 mbid x1 x2 k0 =
      Some ((0, mk_reply (Some (l1, l2)) (Some (pid rc))), k2).
Proof.
  intros Hm Hf. destruct (write_run fuel k Q c p rc rp mbid l1 l2 Hm Hf)
    as (k' & rp' & Hrun & HQ & Hrp' & Hh).
  destruct Hh as (Hmode & H1 & H2 & Hwr & Hq & _).
  exists k', rp'. do 4 (split; [done|]).
  intros k0 r0 x1 x2 k2 r2 Hcur Hr0 Hnone Hsl Hr2 Hcore.
  assert (∀ A (f : proc → A), (∀ r, f (core r) = f r) → f r2 = f rp') as Hfield
    by (intros A f Hfc; by rewrite <- (Hfc r2), Hcore, Hfc).
  rewrite (msg_read _ _ _ _ _ _ Hnone).
  rewrite (dosleep_run fuel k0 p r0 0 mbid Hcur Hr0 k2 r2 Hsl Hr2)
    by (by rewrite (Hfield _ mb_mode)).
  by rewrite (Hfield _ mb_long1), (Hfield _ mb_long2), (Hfield _ mb_writer), H1, H2, Hwr.
Qed.
End rendezvous.

(** ** Semaphores *)

(** The abstract state: a map from semaphores to their owners. *)
Definition sem_map (l : list sema) : gmap Z Z :=
  list_to_map ((λ s, (sm_id s, sm_owner s)) <$> l).
Definition sem_ids (l : list sema) : list Z := sm_id <$> l.

(** What the operations of a process with number [n] promise on it. *)
Definition create_spec (mem : bool) (id n : Z) (m : gmap Z Z) : Z * gmap Z Z :=
  match m !! id with
  | Some _ => (EACCES, m)
  | None => if mem then (E_OK, <[id := n]> m) else (ENOMEM, m)
  end.
Definition try_spec (id n : Z) (m : gmap Z Z) : Z * gmap Z Z :=
  match m !! id with
  | None => (EBADARG, m)
  | Some o =>
      if o =? n then (EERROR, m)
      else if o =? -1 then (E_OK, <[id := n]> m) else (EACCES, m)
  end.
Definition release_spec (mode id n : Z) (m : gmap Z Z) : Z * gmap Z Z :=
  match m !! id with
  | None => (EBADARG, m)
  | Some o =>
      if negb (o =? n) && negb (o =? -1) then (EACCES, m)
      else (E_OK, if mode =? 3 then <[id := -1]> m else delete id m)
  end.
Definition sem_spec (mem : bool) (mode id n : Z) (m : gmap Z Z) : Z * gmap Z Z :=
  if mode =? 0 then create_spec mem id n m
  else if mode =? 2 then try_spec id n m
  else if (mode =? 3) || (mode =? 1) then release_spec mode id n m
  else (ENOSYS, m).

Lemma find_sema_some id l b s e :
  find_sema id l = Some (b, s, e) → l = b ++ s :: e ∧ sm_id s = id.
Proof.
  revert b s e. induction l as [|x l IH]; intros b s e; cbn; [done|].
  destruct (Z.eqb_spec (sm_id x) id); [by intros [= <- <- <-]|].
  destruct (find_sema id l) as [[[b' s'] e']|]; cbn; [|done].
  intros [= <- <- <-]. destruct (IH _ _ _ eq_refl) as [-> ?]. done.
Qed.

Lemma find_sema_none id l : find_sema id l = None → id ∉ sem_ids l.
Proof.
  induction l as [|x l IH]; cbn; [set_solver|].
  destruct (Z.eqb_spec (sm_id x) id); [done|].
  destruct (find_sema id l) as [[[b' s'] e']|]; cbn; [done|]. set_solver.
Qed.

Lemma sem_ids_fst l : ((λ s, (sm_id s, sm_owner s)) <$> l).*1 = sem_ids l.
Proof. unfold sem_ids. rewrite <- list_fmap_compose. by apply list_fmap_ext. Qed.

Lemma sem_map_none id l : id ∉ sem_ids l → sem_map l !! id = None.
Proof. intros H. apply not_elem_of_list_to_map_1. by rewrite sem_ids_fst. Qed.

Lemma sem_map_mid b s e :
  NoDup (sem_ids (b ++ s :: e)) →
  sem_map (b ++ s :: e) !! sm_id s = Some (sm_owner s) ∧
  (∀ n, sem_map (b ++ set_owner n s :: e) = <[sm_id s := n]> (sem_map (b ++ s :: e))) ∧
  sem_map (b ++ e) = delete (sm_id s) (sem_map (b ++ s :: e)).
Proof.
  intros Hnd.
  assert (∀ n, sem_map (b ++ set_owner n s :: e) = <[sm_id s := n]> (sem_map (b ++ e))) as Hset.
  { intros n. unfold sem_map. change (<[sm_id s := n]> _) with
      (list_to_map (M := gmap Z Z) ((sm_id s, n) :: ((λ s, (sm_id s, sm_owner s)) <$> b ++ e))).
    apply list_to_map_proper.
    - rewrite sem_ids_fst. unfold sem_ids in *. by rewrite fmap_app, fmap_cons in *.
    - rewrite !fmap_app, fmap_cons. cbn. symmetry. apply Permutation_middle. }
  assert (sm_id s ∉ sem_ids (b ++ e)) as Hout.
  { unfold sem_ids in *. rewrite fmap_app, fmap_cons in Hnd. rewrite fmap_app.
    apply NoDup_app in Hnd as (_ & Hdis & [Hs _]%NoDup_cons).
    intros [Hb|He]%elem_of_app; [|done]. apply (Hdis _ Hb). left. }
  assert (s = set_owner (sm_owner s) s) as Hs by (by destruct s).
  assert (sem_map (b ++ s :: e) = <[sm_id s := sm_owner s]> (sem_map (b ++ e))) as Heq
    by (rewrite Hs at 1; apply Hset).
  split; [rewrite Heq; apply lookup_insert_eq|]. split.
  - intros n. by rewrite Hset, Heq, insert_insert_eq.
  - rewrite Heq, delete_insert_id; [done|]. by apply sem_map_none.
Qed.

Lemma current_pid_run k r :
  procs k !! curproc k = Some r → current_pid k = Some (pid r, k).
Proof.
  intros Hr. unfold current_pid. erewrite (bind_run (mgets _)) by reflexivity.
  by erewrite bind_run by by apply getp_run.
Qed.

Section semaphore_proofs.
Context `{Blocking}.

(** The processes that wait for a semaphore have moved to the ready queue. *)
Definition semas_woken (k k' : kst) (Q : Z → list ptr) : Prop :=
  queues_ok k' (moved WAIT_Q (sleepers k WAIT_SEMA (Q WAIT_Q)) (wakers k WAIT_SEMA (Q WAIT_Q)) Q) ∧
  cores k' = cores k.

Lemma wake_semas k k1 Q l :
  queues_ok k Q → k1 = set_semalist l k →
  ∃ k', wake WAIT_Q WAIT_SEMA k1 = Some (tt, k') ∧ semas_woken k k' Q ∧ semalist k' = l.
Proof.
  intros Hok ->.
  assert (queues_ok (set_semalist l k) Q) as Hok1 by (by apply (queues_ok_vars k)).
  destruct (wake_ok _ Q WAIT_Q WAIT_SEMA Hok1 ltac:(done)) as (k' & Hrun & Hok' & Hc & Hn & _).
  exists k'. split; [done|]. split; [|].
  - split; [|done]. by rewrite (sleepers_same k), (wakers_same k) in Hok'.
  - change (semalist (rest_nosleep k') = semalist (rest_nosleep (set_semalist l k))). by rewrite Hn.
Qed.


Lemma cancel_opt_semas t k a k' :
  cancel_opt t k = Some (a, k') → semalist k' = semalist k.
Proof.
  intros Hrun. apply bind_inv in Hrun as (c & k1 & [= <- <-] & Hrun).
  destruct t as [t|]; [|by injection Hrun as _ <-].
  unfold on_timers, mlift in Hrun. destruct (canceltimeout _ _ _) as [[? ?]|]; [|done].
  by injection Hrun as _ <-.
Qed.

(** whatever happens while the caller sleeps, and however often it is woken,
    Psemaphore gives a semaphore to the caller only in a state in which nobody
    owned it, and records the caller as the owner. *)
Theorem semaphore_exclusive fuel mem id timeout t k k' :
  sema_get fuel mem id timeout t k = Some (0, k') →
  ∃ k1 b s e n, semalist k1 = b ++ s :: e ∧ sm_id s = id ∧ sm_owner s = -1 ∧
  current_pid k1 = Some (n, k1) ∧ semalist k' = b ++ set_owner n s :: e.
Proof.
  revert t k. induction fuel as [|fuel IH]; intros t k; [done|]. cbn [sema_get]. intros Hrun.
  apply bind_inv in Hrun as (l & k1 & [= <- <-] & Hrun).
  destruct (find_sema id (semalist k)) as [[[b s] e]|] eqn:Hf.
  2: { apply bind_inv in Hrun as (? & ? & _ & [=]). }
  destruct (find_sema_some _ _ _ _ _ Hf) as [Hl Hid].
  apply bind_inv in Hrun as (n & k1 & Hpid & Hrun).
  assert (k1 = k) as ->.
  { apply bind_inv in Hpid as (c & k2 & [= <- <-] & Hpid).
    by apply bind_inv in Hpid as (r & k2 & [-> _]%getp_inv & [= _ <-]). }
  destruct (sm_owner s =? n); [done|].
  destruct (Z.eqb_spec (sm_owner s) (-1)) as [Hfree|_].
  - apply bind_inv in Hrun as (? & k1 & [= _ <-] & Hrun).
    apply bind_inv in Hrun as (? & k1 & Hc & [= <-]).
    exists k, b, s, e, n. apply cancel_opt_semas in Hc. done.
  - destruct (timeout =? 0); [done|].
    apply bind_inv in Hrun as (c & k1 & _ & Hrun). apply bind_inv in Hrun as (t' & k2 & _ & Hrun).
    apply bind_inv in Hrun as (? & k3 & _ & Hrun). apply bind_inv in Hrun as (r & k4 & _ & Hrun).
    destruct (negb _); [done|]. by apply (IH t' k4).
Qed.

(** a process that asks for a semaphore somebody else owns, without a time
    limit, sleeps; when it runs again it gets the semaphore if that is free by
    then, EBADARG if it was destroyed, and EACCES if it was not woken for a
    semaphore. *)
Theorem semaphore_get_blocked fuel mem id k rc o k2 r2 :
  procs k !! curproc k = Some rc → NoDup (sem_ids (semalist k)) →
  sem_map (semalist k) !! id = Some o → o ≠ pid rc → o ≠ -1 →
  sleep_until WAIT_Q WAIT_SEMA k = Some (tt, k2) → curproc k2 = curproc k →
  procs k2 !! curproc k = Some r2 → pid r2 ≠ -1 → NoDup (sem_ids (semalist k2)) →
  let res := sema_get (S (S fuel)) mem id (-1) None k in
  if negb (wait_cond r2 =? WAIT_SEMA) then res = Some (EACCES, k2)
  else match sem_map (semalist k2) !! id with
  | None => res = Some (EBADARG, k2)
  | Some o2 => o2 = -1 → ∃ k3, res = Some (0, k3) ∧
                 sem_map (semalist k3) = <[id := pid r2]> (sem_map (semalist k2))
  end.
Proof.
  intros Hr Hnd Ho Hne Hne1 Hsl Hcur Hr2 Hp2 Hnd2 res.
  assert (∀ l x, NoDup (sem_ids l) → sem_map l !! id = Some x →
    ∃ b s e, find_sema id l = Some (b, s, e) ∧ l = b ++ s :: e ∧ sm_id s = id ∧ sm_owner s = x)
    as Hfind.
  { intros l x Hndl Hx. destruct (find_sema id l) as [[[b s] e]|] eqn:Hf.
    - destruct (find_sema_some _ _ _ _ _ Hf) as [-> <-]. exists b, s, e.
      destruct (sem_map_mid b s e Hndl) as [Hs _]. rewrite Hs in Hx. injection Hx as Hx. done.
    - by rewrite (sem_map_none _ _ (find_sema_none _ _ Hf)) in Hx. }
  assert (res = (if negb (wait_cond r2 =? WAIT_SEMA) then Some (EACCES, k2)
                 else sema_get (S fuel) mem id (-1) None k2)) as ->.
  { unfold res. destruct (Hfind _ o Hnd Ho) as (b & s & e & Hf & _ & _ & Hs).
    remember (S fuel) as f. cbn [sema_get]. erewrite (bind_run (mgets _)) by reflexivity.
    rewrite Hf. erewrite bind_run by by apply current_pid_run. rewrite Hs.
    replace (o =? pid rc) with false by lia. replace (o =? -1) with false by lia.
    change (-1 =? 0) with false. change (-1 =? -1) with true. cbn [negb andb].
    erewrite (bind_run (mgets _)) by reflexivity. erewrite bind_run by by apply ret_run.
    erewrite bind_run by exact Hsl. erewrite bind_run by by apply getp_run. by case_bool. }
  destruct (negb (wait_cond r2 =? WAIT_SEMA)); [done|].
  rewrite <- Hcur in Hr2. cbn [sema_get]. erewrite (bind_run (mgets _)) by reflexivity.
  destruct (sem_map (semalist k2) !! id) as [o2|] eqn:Ho2.
  - intros ->. destruct (Hfind _ (-1) Hnd2 Ho2) as (b & s & e & Hf & Hl & Hid & Hs).
    rewrite Hf. erewrite bind_run by by apply current_pid_run. rewrite Hs.
    replace (-1 =? pid r2) with false by lia. change (-1 =? -1) with true. cbv iota.
    exists (set_semalist (b ++ set_owner (pid r2) s :: e) k2). split; [done|].
    change (semalist (set_semalist ?l k2)) with l. rewrite Hl in Hnd2 |- *. subst id.
    by destruct (sem_map_mid b s e Hnd2) as (_ & -> & _).
  - destruct (find_sema id (semalist k2)) as [[[b s] e]|] eqn:Hf.
    + destruct (find_sema_some _ _ _ _ _ Hf) as [Hl <-]. rewrite Hl in Hnd2, Ho2.
      destruct (sem_map_mid b s e Hnd2) as [Hs _]. congruence.
    + done.
Qed.
End semaphore_proofs.

Lemma freed_map n l :
  sem_map ((λ s, if sm_owner s =? n then set_owner (-1) s else s) <$> l) =
  (λ o, if o =? n then -1 else o) <$> sem_map l.
Proof.
  unfold sem_map. induction l as [|s l IH]; [symmetry; apply fmap_empty|].
  rewrite !fmap_cons, !list_to_map_cons, fmap_insert, IH.
  by destruct (sm_owner s =? n).
Qed.

(** When a process ends, its semaphores are free and all others keep their
    owner; the processes that wait for a semaphore are woken exactly if it owned
    one. *)
Theorem free_semaphores_spec k Q n :
  queues_ok k Q →
  ∃ k', free_semaphores n k = Some (tt, k') ∧
  sem_map (semalist k') = (λ o, if o =? n then -1 else o) <$> sem_map (semalist k) ∧
  sem_ids (semalist k') = sem_ids (semalist k) ∧
  (if existsb (λ s, sm_owner s =? n) (semalist k) then semas_woken k k' Q
   else queues_ok k' Q ∧ cores k' = cores k).
Proof.
  intros Hok. unfold free_semaphores. erewrite (bind_run (mgets _)) by reflexivity.
  erewrite bind_run by reflexivity. set (l := _ <$> semalist k).
  assert (sem_map l = (λ o, if o =? n then -1 else o) <$> sem_map (semalist k) ∧
          sem_ids l = sem_ids (semalist k)) as [Hm Hi].
  { split; [apply freed_map|]. unfold l, sem_ids. rewrite <- list_fmap_compose.
    apply list_fmap_ext. intros i s _. cbn. by case_bool. }
  destruct (existsb _ _); cbn [mwhen].
  - destruct (wake_semas k _ Q l Hok eq_refl) as (k' & Hrun & Hw & Hl).
    exists k'. rewrite Hl. done.
  - exists (set_semalist l k). do 3 (split; [done|]). split; [|done]. by apply (queues_ok_vars k).
Qed.

(** ** Examples *)

#[local] Instance ex_blocking : Blocking := {| sleep_until := λ _ _, mret tt |}.

(** Process 4 waits at mailbox 99, in [mode], with a message. *)
Definition ex_box (mode : Z) : proc :=
  set_mb_mode mode (set_mb_mbid 99 (set_mb_long1 11 (set_mb_long2 22
    (ex_proc 4 WAIT_Q WAIT_MB 0 (Some 1%positive) (Some 5%positive))))).
Definition ex_msg (mode : Z) : kst := set_procs (<[4%positive := ex_box mode]> (procs ex_kst)) ex_kst.

Lemma ex_meets mode :
  meets (ex_msg mode) ex_queues 2 4 (ex_proc 2 CURPROC_Q 0 0 None None) (ex_box mode).
Proof.
  constructor; try done.
  apply (queues_ok_modp ex_kst ex_queues 4
    (ex_proc 4 WAIT_Q 77 0 (Some 1%positive) (Some 5%positive)) (λ _, ex_box mode));
    [apply ex_queues_ok|done..].
Qed.

Lemma message_arrives_witness :
  ∃ k' rp', sys_p_msg 0 1 99 5 6 (ex_msg 0) = Some ((0, mk_reply None (Some 4)), k') ∧
    procs k' !! 4%positive = Some rp' ∧ wait_q rp' = READY_Q.
Proof.
  destruct (message_arrives 0 (ex_msg 0) ex_queues 2 4 _ _ 99 5 6 (ex_meets 0) eq_refl)
    as (k' & rp' & Hrun & _ & Hrp' & Hw & _).
  exists k', rp'. done.
Defined.

(** [sleep] returns in a state in which the answer (11, 22) of process 4 has come. *)
Definition ex_answered (k : kst) : kst :=
  set_procs (alter (λ r, set_mb_mode (-1) (set_mb_long1 11 (set_mb_long2 22
    (set_mb_writer 4 r)))) 2%positive (procs k)) k.
Definition ex_answers : Blocking := {| sleep_until := λ _ _ k, Some (tt, ex_answered k) |}.

Lemma blocked_write_read_loses_reply_witness :
  ∃ k', sys_p_msg (H := ex_answers) 1 2 77 5 6 ex_kst =
          Some ((0, mk_reply None (Some 4)), k').
Proof.
  eexists.
  refine (proj1 (blocked_write_read_loses_reply (H := ex_answers) 0 77 5 6 ex_kst 2
    (ex_proc 2 CURPROC_Q 0 0 None None) _ (set_mb_mode (-1) (set_mb_long1 11 (set_mb_long2 22
      (set_mb_writer 4 (set_mb_mode 2 (set_mb_mbid 77 (set_mb_long2 6 (set_mb_long1 5
        (ex_proc 2 CURPROC_Q 0 0 None None))))))))) eq_refl eq_refl eq_refl eq_refl _ eq_refl)).
  reflexivity.
Defined.

Lemma ex_msg_listed mode : procs_listed (ex_msg mode).
Proof.
  unfold procs_listed. cbn [proclist ex_msg ex_kst set_procs].
  repeat (apply Forall_cons; split; [by eexists|]). done.
Qed.

Lemma message_taken_witness :
  ∃ k' rp', sys_p_msg 0 0 99 0 0 (ex_msg 2) =
      Some ((0, mk_reply (Some (11, 22)) (Some 4)), k') ∧
    procs k' !! 4%positive = Some rp' ∧ mb_mode rp' = 0 ∧ wait_q rp' = WAIT_Q.
Proof.
  destruct (message_taken 0 (ex_msg 2) ex_queues 2 4 _ _ 99 0 0 (ex_meets 2) eq_refl
    (ex_msg_listed 2) ltac:(by apply (bool_decide_unpack _)))
    as (k' & rp' & Hrun & _ & Hrp' & Hrel & _).
  unfold released in Hrel. destruct Hrel as (Hm & _ & Hw).
  exists k', rp'. split; [exact Hrun|]. split; [exact Hrp'|]. split; [exact Hm|exact Hw].
Defined.

Lemma nonblocking_write_read_witness :
  ∃ k' rp', sys_p_msg 0 32770 99 5 6 (ex_msg 0) = Some ((-1, no_reply), k') ∧
    procs k' !! 4%positive = Some rp' ∧ mb_long1 rp' = 5 ∧ mb_long2 rp' = 6.
Proof.
  destruct (nonblocking_write_read 0 (ex_msg 0) ex_queues 2 4 _ _ 99 5 6 (ex_meets 0) eq_refl)
    as (k' & rp' & Hrun & Hrp' & _ & H1 & H2 & _).
  exists k', rp'. split; [exact Hrun|]. split; [exact Hrp'|]. split; [exact H1|exact H2].
Defined.

(** A process that never called Pmsg has mode 0 and mailbox 0, and so is taken
    for a reader of mailbox 0: process 5, which waits for something else, is
    woken by a write to that mailbox and loses its wait condition. *)
Lemma mailbox_zero_disturbs :
  ∃ k' r', sys_p_msg 0 1 0 5 6 ex_kst = Some ((0, mk_reply None (Some 5)), k') ∧
    procs k' !! 5%positive = Some r' ∧ wait_q r' = READY_Q ∧ wait_cond r' = 0.
Proof. eexists _, _. split; [vm_compute; reflexivity|]. vm_compute. done. Qed.

Definition ex_sems : kst := set_semalist [mk_sema 7 4; mk_sema 8 2] ex_kst.

Lemma ex_sems_ok : queues_ok ex_sems ex_queues.
Proof. by apply (queues_ok_vars ex_kst); [..|apply ex_queues_ok]. Qed.

Lemma ex_sems_nodup : NoDup (sem_ids (semalist ex_sems)).
Proof. by apply (bool_decide_unpack _). Qed.


Lemma semaphore_exclusive_witness :
  ∃ k', sema_get 1 None 9 0 None (set_semalist [mk_sema 9 (-1)] ex_kst) = Some (0, k') ∧
    ∃ b s e n, semalist k' = b ++ set_owner n s :: e ∧ sm_id s = 9 ∧ sm_owner s = -1.
Proof.
  assert (∃ k', sema_get 1 None 9 0 None (set_semalist [mk_sema 9 (-1)] ex_kst) = Some (0, k'))
    as (k' & Hrun) by (eexists; reflexivity).
  destruct (semaphore_exclusive 1 None 9 0 None _ k' Hrun)
    as (k1 & b & s & e & n & _ & Hid & Hfree & _ & Hk').
  exists k'. split; [exact Hrun|]. by exists b, s, e, n.
Defined.

Lemma semaphore_get_blocked_witness :
  sema_get 2 None 7 (-1) None ex_sems = Some (EACCES, ex_sems).
Proof.
  exact (semaphore_get_blocked 0 None 7 ex_sems (ex_proc 2 CURPROC_Q 0 0 None None) 4
    ex_sems (ex_proc 2 CURPROC_Q 0 0 None None) eq_refl ex_sems_nodup eq_refl
    ltac:(done) ltac:(done) eq_refl eq_refl eq_refl ltac:(done) ex_sems_nodup).
Defined.

Lemma free_semaphores_spec_witness :
  ∃ k', free_semaphores 4 ex_sems = Some (tt, k') ∧
    sem_map (semalist k') = {[7 := -1; 8 := 2]}.
Proof.
  destruct (free_semaphores_spec ex_sems ex_queues 4 ex_sems_ok) as (k' & Hrun & Hm & _).
  exists k'. split; [exact Hrun|]. rewrite Hm. by apply (bool_decide_unpack _).
Defined.
