(* ===== verification/KSema.v ===== *)
(** * The kernel's sleeping locks (sys/k_semaphore.c)

    A [struct sema] is free or taken, and counts the processes that sleep for it.
    Processes only change hands in [sleep], so that the pieces of [sema_lock] and
    [sema_unlock] between two sleeps are atomic: the steps of a system of processes
    that share one lock. *)

From stdpp Require Import relations.
From S2P Require Import Prelude CInt Kernel ProcQueue.

(** ** The operations *)

(** [struct sema] *)
Record sem := mk_sem { lock : Z; sleepers : Z }.

Definition set_lock (v : Z) (m : sem) : sem := mk_sem v (sleepers m).
Definition set_sleepers (v : Z) (m : sem) : sem := mk_sem (lock m) (u16 v).

(** The kernel and its locks. *)
Record sst := mk_sst { sk : kst; semas : gmap ptr sem }.

Definition set_sk (k : kst) (s : sst) : sst := mk_sst k (semas s).
Definition set_semas (m : gmap ptr sem) (s : sst) : sst := mk_sst (sk s) m.

Definition on_kst {A} (c : M kst A) : M sst A := mlift sk set_sk c.
Definition getsem (a : ptr) : M sst sem := mderef (λ s, semas s !! a).
Definition putsem (a : ptr) (m : sem) : M sst unit :=
  mmod (λ s, set_semas (<[a := m]> (semas s)) s).

(** The address as a wait condition. *)
Definition sema_cond (a : ptr) : Z := Z.pos a.

(** [sleep], with what the other processes do meanwhile. *)
Class SemaSleep := { sema_sleep : Z → Z → M sst bool }.

Definition sema_init (a : ptr) : M sst unit := putsem a (mk_sem 0 0).

Fixpoint sema_lock `{SemaSleep} (fuel : nat) (a : ptr) : M sst unit :=
  match fuel with
  | O => mpanic
  | S fuel =>
      m ← getsem a;
      if negb (lock m =? 0) then
        putsem a (set_sleepers (sleepers m + 1) m) ;;
        sema_sleep IO_Q (sema_cond a) ;;
        m ← getsem a;
        putsem a (set_sleepers (sleepers m - 1) m) ;;
        sema_lock fuel a
      else putsem a (set_lock 1 m)
  end.

Definition sema_unlock (a : ptr) : M sst unit :=
  m ← getsem a;
  massert (negb (lock m =? 0)) ;;
  putsem a (set_lock 0 m) ;;
  m ← getsem a;
  mwhen (negb (sleepers m =? 0)) (on_kst (wake IO_Q (sema_cond a))).

(** ** The system of processes

    Where a process is: outside, in [sleep], awake again but not yet running, or
    between [sema_lock] and [sema_unlock]. *)
Inductive point := Outside | Asleep | Awake | Inside.

#[export] Instance point_eq_dec : EqDecision point.
Proof. solve_decision. Defined.

(** From the test of the lock to the next sleep, or to the end of [sema_lock]. *)
Definition attempt (m : sem) : sem * point :=
  if negb (lock m =? 0) then (set_sleepers (sleepers m + 1) m, Asleep)
  else (set_lock 1 m, Inside).
(** After a sleep. *)
Definition resume (m : sem) : sem * point := attempt (set_sleepers (sleepers m - 1) m).
(** [sema_unlock]: the lock, and whether the sleepers are woken. *)
Definition release (m : sem) : option (sem * bool) :=
  if lock m =? 0 then None else Some (set_lock 0 m, negb (sleepers m =? 0)).

Definition waken (x : point) : point := match x with Asleep => Awake | _ => x end.

Definition sys : Type := sem * list point.

(** A sleep may also end for other reasons than the wake of [sema_unlock]. *)
Inductive step : relation sys :=
  | step_lock i m ps :
      ps !! i = Some Outside → step (m, ps) ((attempt m).1, <[i := (attempt m).2]> ps)
  | step_spurious i m ps :
      ps !! i = Some Asleep → step (m, ps) (m, <[i := Awake]> ps)
  | step_resume i m ps :
      ps !! i = Some Awake → step (m, ps) ((resume m).1, <[i := (resume m).2]> ps)
  | step_unlock i m ps m' w :
      ps !! i = Some Inside → release m = Some (m', w) →
      step (m, ps) (m', <[i := Outside]> (if w then waken <$> ps else ps)).

(** The start: [n] processes outside of a lock after [sema_init]. *)
Definition start (n : nat) : sys := (mk_sem 0 0, replicate n Outside).

(** ** The invariant *)

Definition holds (x : point) : bool := match x with Inside => true | _ => false end.
Definition waits (x : point) : bool := match x with Asleep | Awake => true | _ => false end.

Definition num (P : point → bool) (ps : list point) : Z :=
  Z.of_nat (length (filter (λ x, P x = true) ps)).
Definition unit_if (b : bool) : Z := if b then 1 else 0.

Record sys_ok (n : nat) (s : sys) : Prop := {
  so_size : length s.2 = n;
  so_lock : lock s.1 = num holds s.2;
  so_one : num holds s.2 ≤ 1;
  so_sleepers : sleepers s.1 = num waits s.2;
  so_awake : lock s.1 = 0 → Asleep ∉ s.2
}.

Lemma num_insert P ps i x y :
  ps !! i = Some x → num P (<[i := y]> ps) = num P ps - unit_if (P x) + unit_if (P y).
Proof.
  intros Hl. unfold num. rewrite insert_take_drop by (by eapply lookup_lt_Some).
  rewrite <- (take_drop_middle ps i x Hl) at 3.
  rewrite !filter_app, !length_app, !filter_cons.
  unfold unit_if. destruct (P x), (P y); repeat case_decide; try done; cbn; lia.
Qed.

Lemma num_nonneg P ps : 0 ≤ num P ps ≤ Z.of_nat (length ps).
Proof. unfold num. pose proof (length_filter (λ x, P x = true) ps). lia. Qed.

Lemma num_pos P ps i x : ps !! i = Some x → P x = true → 0 < num P ps.
Proof.
  intros Hl HP. pose proof (num_insert P ps i x x Hl) as _.
  assert (x ∈ filter (λ x, P x = true) ps) as Hin.
  { apply list_elem_of_filter. split; [done|]. by eapply list_elem_of_lookup_2. }
  unfold num. destruct (filter _ ps); [by apply not_elem_of_nil in Hin|cbn; lia].
Qed.

Lemma num_waken P ps : (∀ x, P (waken x) = P x) → num P (waken <$> ps) = num P ps.
Proof.
  intros HP. unfold num. f_equal. induction ps as [|x ps IH]; [done|].
  rewrite fmap_cons, !filter_cons, HP. case_decide; cbn [length]; by rewrite IH.
Qed.

Lemma waken_awake (ps : list point) : Asleep ∉ waken <$> ps.
Proof. intros (x & E & _)%list_elem_of_fmap. by destruct x. Qed.

Lemma insert_awake (ps : list point) i x : x ≠ Asleep → Asleep ∉ ps → Asleep ∉ <[i := x]> ps.
Proof. intros Hx Hps [<-|?]%list_insert_elem; done. Qed.

(** The two ends of [attempt]: [ps] has the process at [i] not counted yet. *)
Lemma attempt_ok n m ps i x :
  Z.of_nat n < 65536 → length ps = n → ps !! i = Some x → holds x = false →
  lock m = num holds ps → num holds ps ≤ 1 → sleepers m = num waits ps - unit_if (waits x) →
  sys_ok n ((attempt m).1, <[i := (attempt m).2]> ps).
Proof.
  intros Hn Hlen Hi Hx Hl Hone Hs. unfold attempt.
  pose proof (num_nonneg waits ps) as Hw. pose proof (num_nonneg holds ps) as Hh.
  assert (unit_if (waits x) ≤ num waits ps) as Hux.
  { destruct (waits x) eqn:E; cbn; [|lia]. pose proof (num_pos waits ps i x Hi E). lia. }
  assert (0 ≤ unit_if (waits x)) by (by destruct (waits x)).
  destruct (Z.eqb_spec (lock m) 0) as [E|E]; cbn [negb fst snd]; split; cbn;
    rewrite ?length_insert, ?(num_insert _ ps i x _ Hi), ?Hx; cbn; try lia.
  pose proof (num_insert waits ps i x Asleep Hi) as Hins. cbn in Hins.
  pose proof (num_nonneg waits (<[i := Asleep]> ps)) as Hle. rewrite length_insert in Hle.
  rewrite u16_id; lia.
Qed.

Lemma step_ok n s s' : Z.of_nat n < 65536 → sys_ok n s → step s s' → sys_ok n s'.
Proof.
  intros Hn [Hlen Hl Hone Hs Haw] Hst. destruct Hst as [i m ps Hi|i m ps Hi|i m ps Hi|i m ps m' w Hi Hr];
    cbn [fst snd] in *.
  - apply (attempt_ok n m ps i Outside); try done. cbn. lia.
  - split; cbn; rewrite ?length_insert, ?(num_insert _ ps i _ _ Hi); cbn; try lia.
    intros E. apply insert_awake; [done|by apply Haw].
  - pose proof (num_pos waits ps i Awake Hi eq_refl). pose proof (num_nonneg waits ps).
    apply (attempt_ok n _ ps i Awake); try done. cbn. rewrite u16_id; lia.
  - unfold release in Hr. destruct (Z.eqb_spec (lock m) 0) as [E|E]; [done|].
    injection Hr as <- <-. set (ps' := if _ : bool then _ else _).
    assert (num holds ps' = num holds ps ∧ num waits ps' = num waits ps ∧ length ps' = length ps)
      as (H1 & H2 & H3).
    { unfold ps'. case_bool; [|done]. rewrite length_fmap.
      by rewrite !num_waken by (by intros []). }
    assert (ps' !! i = Some Inside) as Hi' by (unfold ps'; case_bool; [by rewrite list_lookup_fmap, Hi|done]).
    pose proof (num_pos holds ps i Inside Hi eq_refl).
    split; cbn; rewrite ?length_insert, ?(num_insert _ ps' i _ _ Hi'), ?H1, ?H2; cbn; try lia.
    intros _. apply insert_awake; [done|]. unfold ps'. case_bool; [apply waken_awake|].
    bool_to_prop. intros [j Hj]%list_elem_of_lookup.
    pose proof (num_pos waits ps j Asleep Hj eq_refl). lia.
Qed.

Lemma start_ok n : sys_ok n (start n).
Proof.
  split; cbn.
  - apply length_replicate.
  - unfold num. by rewrite filter_none by (apply Forall_replicate; done).
  - unfold num. by rewrite filter_none by (apply Forall_replicate; done).
  - unfold num. by rewrite filter_none by (apply Forall_replicate; done).
  - intros _ [? _]%elem_of_replicate. done.
Qed.

Lemma reachable_ok n s : Z.of_nat n < 65536 → rtc step (start n) s → sys_ok n s.
Proof.
  intros Hn Hs. eapply rtc_ind_r; [apply start_ok| |exact Hs].
  intros y z _ Hst Hy. by eapply step_ok.
Qed.

(** C32: in every state that the processes can reach, at most one of them is inside,
    the lock is taken exactly then, the count of the sleepers is right, and no
    process sleeps while the lock is free: a wake-up is never lost. *)
Theorem sema_exclusive n m ps :
  Z.of_nat n < 65536 → rtc step (start n) (m, ps) →
  (∀ i j, ps !! i = Some Inside → ps !! j = Some Inside → i = j) ∧
  (lock m = 0 ↔ Inside ∉ ps) ∧
  sleepers m = num waits ps ∧
  (lock m = 0 → Asleep ∉ ps) ∧
  (∀ i, ps !! i = Some Inside → is_Some (release m)).
Proof.
  intros Hn Hr. destruct (reachable_ok n _ Hn Hr) as [_ Hl Hone Hs Haw]. cbn in *.
  assert (∀ i, ps !! i = Some Inside → lock m = 1) as Hin.
  { intros i Hi. pose proof (num_pos holds ps i Inside Hi eq_refl). lia. }
  split; [|split; [|split; [done|split; [done|]]]].
  - intros i j Hi Hj. destruct (decide (i = j)) as [|Hne]; [done|]. exfalso.
    pose proof (num_insert holds ps i Inside Outside Hi) as E. cbn in E.
    assert (<[i := Outside]> ps !! j = Some Inside) as Hj' by (by rewrite list_lookup_insert_ne).
    pose proof (num_pos holds _ j Inside Hj' eq_refl). lia.
  - split.
    + intros E [i Hi]%list_elem_of_lookup. rewrite (Hin i Hi) in E. done.
    + intros Hno. rewrite Hl. unfold num. rewrite filter_none; [done|].
      apply Forall_forall. intros x Hx Hh. by destruct x.
  - intros i Hi. unfold release. rewrite (Hin i Hi). by eexists.
Qed.


(** ** The steps are those of the code *)

Lemma getsem_run a s m : semas s !! a = Some m → getsem a s = Some (m, s).
Proof. apply (mderef_run (λ s, semas s !! a)). Qed.

(** [sema_lock] tests the lock and goes on inside, or to sleep; after the sleep it
    does the same with one sleeper less. *)
Lemma sema_lock_pieces `{SemaSleep} fuel a s m :
  semas s !! a = Some m →
  sema_lock (S fuel) a s =
    match attempt m with
    | (m', Inside) => Some (tt, set_semas (<[a := m']> (semas s)) s)
    | (m', _) =>
        (sema_sleep IO_Q (sema_cond a) ;;
         m ← getsem a;
         putsem a (set_sleepers (sleepers m - 1) m) ;; sema_lock fuel a)
        (set_semas (<[a := m']> (semas s)) s)
    end.
Proof.
  intros Hm. cbn [sema_lock]. rewrite (bind_run _ _ _ _ _ (getsem_run _ _ _ Hm)).
  unfold attempt. by destruct (negb (lock m =? 0)).
Qed.

Lemma sema_resume_pieces `{SemaSleep} fuel a s m :
  semas s !! a = Some m →
  (m ← getsem a; putsem a (set_sleepers (sleepers m - 1) m) ;; sema_lock (S fuel) a) s =
    match resume m with
    | (m', Inside) => Some (tt, set_semas (<[a := m']> (semas s)) s)
    | (m', _) =>
        (sema_sleep IO_Q (sema_cond a) ;;
         m ← getsem a;
         putsem a (set_sleepers (sleepers m - 1) m) ;; sema_lock fuel a)
        (set_semas (<[a := m']> (semas s)) s)
    end.
Proof.
  intros Hm. rewrite (bind_run _ _ _ _ _ (getsem_run _ _ _ Hm)).
  set (m1 := set_sleepers _ m). set (s1 := set_semas (<[a := m1]> (semas s)) s).
  rewrite (bind_run (putsem a m1) _ s tt s1) by done.
  rewrite (sema_lock_pieces fuel a s1 m1) by (cbn; apply lookup_insert_eq).
  unfold resume. fold m1. destruct (attempt m1) as [m' x]. unfold s1, set_semas. cbn.
  by rewrite insert_insert_eq.
Qed.

(** [sema_unlock] is the step of the system that frees the lock, and the wake-up
    of the step is the one of the scheduler: on well-formed queues it returns, and
    when it wakes no process that waits for this lock is left on the I/O queue; all of
    them are behind the others on the ready queue, in their order. Without sleepers
    the scheduler's state does not change. *)
Theorem sema_unlock_wakes a s m m' w Q :
  queues_ok (sk s) Q → semas s !! a = Some m → release m = Some (m', w) →
  ∃ k' Q', sema_unlock a s = Some (tt, mk_sst k' (<[a := m']> (semas s))) ∧
    queues_ok k' Q' ∧ cores k' = cores (sk s) ∧
    if w then
      Q' READY_Q = Q READY_Q ++ filter (λ p, waits_for (sk s) (sema_cond a) p) (Q IO_Q) ∧
      Q' IO_Q = filter (λ p, negb (waits_for (sk s) (sema_cond a) p)) (Q IO_Q)
    else k' = sk s ∧ Q' = Q.
Proof.
  intros Hok Hm Hr. unfold sema_unlock. rewrite (bind_run _ _ _ _ _ (getsem_run _ _ _ Hm)).
  unfold release in Hr. destruct (lock m =? 0); [done|]. injection Hr as <- <-.
  set (s1 := set_semas (<[a := set_lock 0 m]> (semas s)) s).
  rewrite (bind_run (massert _) _ s tt s) by done.
  rewrite (bind_run (putsem a _) _ s tt s1) by done.
  rewrite (bind_run (getsem a) _ s1 (set_lock 0 m) s1)
    by (apply getsem_run; cbn; apply lookup_insert_eq).
  cbn [sleepers set_lock]. destruct (negb (sleepers m =? 0)); cbn [mwhen].
  - destruct (wake_ok (sk s) Q IO_Q (sema_cond a) Hok) as (k' & Hrun & Hok' & Hc & _);
      [unfold READY_Q, IO_Q, NUM_QUEUES; lia|].
    eexists k', _. unfold on_kst, mlift. change (sk s1) with (sk s). rewrite Hrun.
    split; [done|]. split; [exact Hok'|]. split; [done|].
    split; [apply moved_ready|]. apply moved_que. done.
  - by exists (sk s), Q.
Qed.

(** ** A concrete system *)

(** Two processes: the first goes inside, the second sleeps for the lock. *)
Definition ex_sys : sys := (mk_sem 1 1, [Inside; Asleep]).

Lemma ex_sys_reachable : rtc step (start 2) ex_sys.
Proof.
  eapply rtc_l; [by apply (step_lock 0)|]. eapply rtc_l; [by apply (step_lock 1)|].
  apply rtc_refl.
Qed.

Lemma sema_exclusive_witness :
  rtc step (start 2) ex_sys ∧
  (∀ i j, ex_sys.2 !! i = Some Inside → ex_sys.2 !! j = Some Inside → i = j) ∧
  (lock ex_sys.1 = 0 ↔ Inside ∉ ex_sys.2) ∧
  sleepers ex_sys.1 = num waits ex_sys.2 ∧
  (lock ex_sys.1 = 0 → Asleep ∉ ex_sys.2) ∧
  (∀ i, ex_sys.2 !! i = Some Inside → is_Some (release ex_sys.1)).
Proof.
  split; [exact ex_sys_reachable|].
  apply (sema_exclusive 2 (mk_sem 1 1) [Inside; Asleep]); [lia|exact ex_sys_reachable].
Defined.


Definition ex_sst : sst := mk_sst ex_kst {[9%positive := mk_sem 1 1]}.

Lemma sema_unlock_wakes_witness :
  queues_ok ex_kst ex_queues ∧
  ∃ k' Q', sema_unlock 9 ex_sst =
      Some (tt, mk_sst k' (<[9%positive := mk_sem 0 1]> (semas ex_sst))) ∧
    queues_ok k' Q' ∧ cores k' = cores (sk ex_sst) ∧
    if true then
      Q' READY_Q = ex_queues READY_Q ++
        filter (λ p, waits_for (sk ex_sst) (sema_cond 9) p) (ex_queues IO_Q) ∧
      Q' IO_Q = filter (λ p, negb (waits_for (sk ex_sst) (sema_cond 9) p)) (ex_queues IO_Q)
    else k' = sk ex_sst ∧ Q' = ex_queues.
Proof.
  split; [exact ex_queues_ok|].
  apply (sema_unlock_wakes 9 ex_sst (mk_sem 1 1) (mk_sem 0 1) true ex_queues);
    [exact ex_queues_ok|reflexivity|reflexivity].
Defined.
