(* ===== verification/ProcExt.v ===== *)
(** * Process extensions (sys/proc_help.c)

    A module of the kernel can attach blocks of its own data to a process, under an
    identification.  A process has a table of at most ten blocks; a child that is
    forked shares them, or gets copies, as the flags of the blocks say. *)

From S2P Require Import Prelude CInt Kernel.

Definition PEXT_NOSHARE : Z := 1.
Definition PEXT_COPYONSHARE : Z := 2.
Definition PEXT_SHAREONCE : Z := 4.
(** [sizeof(p_ext->ext) / sizeof(p_ext->ext[0])] *)
Definition EXT_SLOTS : nat := 10.

(** [flags & m] *)
Definition flagged (flags m : Z) : bool := negb (Z.land flags m =? 0).

(** ** Data *)

(** [struct module_callback]: the addresses of the functions of the module. *)
Record module_callback := mk_module_callback {
  cb_share : option Z;
  cb_release : option Z;
  cb_on_exit : option Z;
  cb_on_exec : option Z;
  cb_on_fork : option Z;
  cb_on_stop : option Z;
  cb_on_signal : option Z
}.

(** [struct proc_ext] *)
Record proc_ext := mk_proc_ext {
  ident : Z;
  eflags : Z;
  esize : Z;
  elinks : Z;
  data : ptr;
  cb_vector : option module_callback
}.

Definition proc_ext_eta (r : proc_ext) : proc_ext :=
  mk_proc_ext
    (ident r) (eflags r) (esize r) (elinks r) (data r) (cb_vector r).
Definition set_ident : Z → proc_ext → proc_ext :=
  ltac:(build_setter proc_ext_eta ident).
Definition set_eflags : Z → proc_ext → proc_ext :=
  ltac:(build_setter proc_ext_eta eflags).
Definition set_esize : Z → proc_ext → proc_ext :=
  ltac:(build_setter proc_ext_eta esize).
Definition set_elinks : Z → proc_ext → proc_ext :=
  ltac:(build_setter proc_ext_eta elinks).
Definition set_data : ptr → proc_ext → proc_ext :=
  ltac:(build_setter proc_ext_eta data).
Definition set_cb_vector : option module_callback → proc_ext → proc_ext :=
  ltac:(build_setter proc_ext_eta cb_vector).
(** [struct p_ext] *)
Record p_ext := mk_p_ext {
  x_size : Z;
  x_used : Z;
  x_ext : list (option ptr)
}.

Definition p_ext_eta (r : p_ext) : p_ext :=
  mk_p_ext
    (x_size r) (x_used r) (x_ext r).
Definition set_x_size : Z → p_ext → p_ext :=
  ltac:(build_setter p_ext_eta x_size).
Definition set_x_used : Z → p_ext → p_ext :=
  ltac:(build_setter p_ext_eta x_used).
Definition set_x_ext : list (option ptr) → p_ext → p_ext :=
  ltac:(build_setter p_ext_eta x_ext).
(** The kernel, the field [p_ext] of the processes, and the structures and the data of
    the modules on the heap. *)
Record estate := mk_estate {
  ek : kst;
  ext_of : gmap ptr ptr;
  tables : gmap ptr p_ext;
  exts : gmap ptr proc_ext;
  edata : gmap ptr (list Z)
}.

Definition estate_eta (r : estate) : estate :=
  mk_estate
    (ek r) (ext_of r) (tables r) (exts r) (edata r).
Definition set_ek : kst → estate → estate :=
  ltac:(build_setter estate_eta ek).
Definition set_ext_of : gmap ptr ptr → estate → estate :=
  ltac:(build_setter estate_eta ext_of).
Definition set_tables : gmap ptr p_ext → estate → estate :=
  ltac:(build_setter estate_eta tables).
Definition set_exts : gmap ptr proc_ext → estate → estate :=
  ltac:(build_setter estate_eta exts).
Definition set_edata : gmap ptr (list Z) → estate → estate :=
  ltac:(build_setter estate_eta edata).

Definition in_kernel {A} (c : M kst A) : M estate A := mlift ek set_ek c.

(** [p->p_ext] and its assignment. *)
Definition get_table (p : ptr) : M estate (option ptr) := mgets (λ s, ext_of s !! p).
Definition set_table (p : ptr) (o : option ptr) : M estate unit :=
  mmod (λ s, set_ext_of (partial_alter (λ _, o) p (ext_of s)) s).

Definition getx (x : ptr) : M estate p_ext := mderef (λ s, tables s !! x).
Definition putx (x : ptr) (t : p_ext) : M estate unit :=
  mmod (λ s, set_tables (<[x := t]> (tables s)) s).
Definition free_table (x : ptr) : M estate unit :=
  getx x ;; mmod (λ s, set_tables (delete x (tables s)) s).
Definition gete (e : ptr) : M estate proc_ext := mderef (λ s, exts s !! e).
Definition pute (e : ptr) (r : proc_ext) : M estate unit :=
  mmod (λ s, set_exts (<[e := r]> (exts s)) s).
Definition put_data (d : ptr) (l : list Z) : M estate unit :=
  mmod (λ s, set_edata (<[d := l]> (edata s)) s).

(** [kfree(ext->data); kfree(ext);] *)
Definition free_ext_block (e : ptr) (r : proc_ext) : M estate unit :=
  mmod (λ s, set_edata (delete (data r) (edata s)) s) ;;
  mmod (λ s, set_exts (delete e (exts s)) s).

(** [p_ext->ext[i]]; an index outside of the array is a panic. *)
Definition slot_at (t : p_ext) (i : nat) : M estate ptr :=
  e ← mderef (λ _, x_ext t !! i); mderef (λ _, e).

(** [p_ext->ext[p_ext->used++] = e;] *)
Definition push (x e : ptr) : M estate unit :=
  t ← getx x;
  massert ((0 <=? x_used t) && (x_used t <? Z.of_nat (length (x_ext t)))) ;;
  putx x (mk_p_ext (x_size t) (x_used t + 1) (<[Z.to_nat (x_used t) := Some e]> (x_ext t))).

(** The calls into the modules: the function and its arguments. *)
Class ModuleCalls := { module_call : Z → list Z → M estate unit }.

Section extensions.
Context `{ModuleCalls}.

(** [if (ext->cb_vector && ext->cb_vector->f) ( *ext->cb_vector->f)(args);] *)
Definition notify (f : module_callback → option Z) (r : proc_ext) (args : list Z) :
    M estate unit :=
  match cb_vector r ≫= f with
  | Some a => module_call a args
  | None => mret tt
  end.

(** [for (i = 0; i < p_ext->used; i++) body(p_ext->ext[i]);] from the index [i] on;
    the array bounds the number of rounds. *)
Fixpoint each_ext (fuel : nat) (x : ptr) (i : nat) (body : nat → ptr → M estate unit) :
    M estate unit :=
  match fuel with
  | O => mpanic
  | S fuel =>
      t ← getx x;
      if Z.of_nat i <? x_used t then
        e ← slot_at t i;
        body i e ;;
        each_ext fuel x (S i) body
      else mret tt
  end.
Definition for_exts (x : ptr) (body : nat → ptr → M estate unit) : M estate unit :=
  each_ext (S EXT_SLOTS) x 0 body.

(** ** New blocks *)

(** [mems] is the memory for the structure and for its data. *)
Definition new_proc_ext (mems : option ptr * option ptr) (id flags size : Z)
    (cb : option module_callback) : M estate (option ptr) :=
  match mems with
  | (Some e, Some d) =>
      pute e (mk_proc_ext id flags size 1 d cb) ;;
      put_data d (replicate (Z.to_nat size) 0) ;;
      mret (Some e)
  | _ => mret None
  end.

(** ** Sharing with a child *)

(** The body of the first loop of [share_ext]. *)
Definition share_one (mems : nat → option ptr * option ptr) (a : ptr) (i : nat) (e : ptr) :
    M estate unit :=
  r ← gete e;
  if flagged (eflags r) PEXT_NOSHARE then mret tt
  else if flagged (eflags r) PEXT_COPYONSHARE then
    e2 ← new_proc_ext (mems i) (ident r) (eflags r) (esize r) (cb_vector r);
    match e2 with
    | None => mpanic
    | Some e2 =>
        r2 ← gete e2;
        l ← mderef (λ s, edata s !! data r);
        put_data (data r2) l ;;
        push a e2 ;;
        mwhen (flagged (eflags r2) PEXT_SHAREONCE)
          (pute e2 (set_eflags (Z.lor (eflags r2) PEXT_NOSHARE) r2))
    end
  else
    pute e (set_elinks (s16 (elinks r + 1)) r) ;;
    push a e.

(** [m1] and [m2] are the memory for the table and for its copy. *)
Definition share_ext (m1 m2 : option ptr) (mems : nat → option ptr * option ptr)
    (p p2 : ptr) : M estate (option ptr) :=
  set_table p2 None ;;
  o ← get_table p;
  match o with
  | None => mret None
  | Some x =>
      match m1, m2 with
      | Some a, Some _ =>
          t ← getx x;
          putx a (mk_p_ext (x_size t) 0 (replicate EXT_SLOTS None)) ;;
          for_exts x (share_one mems a) ;;
          t ← getx a;
          if negb (x_used t =? 0) then
            set_table p2 (Some a) ;;
            (* the loop over the copy of the table *)
            foldr (λ e rest, r ← gete e;
                     notify cb_share r [Zpos (data r); Zpos p; Zpos p2] ;; rest)
              (mret tt) (omap id (take (Z.to_nat (x_used t)) (x_ext t))) ;;
            mret (Some a)
          else free_table a ;; mret None
      | _, _ => mret m1
      end
  end.

(** ** Release *)

Definition drop_ext (e : ptr) : M estate unit :=
  r ← gete e;
  let r' := set_elinks (s16 (elinks r - 1)) r in
  pute e r' ;;
  mwhen (elinks r' <=? 0)
    (notify cb_release r' [Zpos (data r')] ;; free_ext_block e r').

Definition free_ext (p : ptr) : M estate unit :=
  o ← get_table p;
  match o with
  | None => mret tt
  | Some x =>
      for_exts x (λ _, drop_ext) ;;
      set_table p None ;;
      free_table x
  end.

(** ** Lookup, attach and detach

    A null process is the current one. *)

Definition which (o : option ptr) : M estate ptr :=
  match o with Some p => mret p | None => in_kernel (mgets curproc) end.

(** The index of the block [id] and its address, from the index [i] on. *)
Fixpoint find_ext (id : Z) (t : p_ext) (n i : nat) : M estate (option (nat * ptr)) :=
  match n with
  | O => mret None
  | S n =>
      e ← slot_at t i;
      r ← gete e;
      if ident r =? id then mret (Some (i, e)) else find_ext id t n (S i)
  end.
Definition find_in (id : Z) (t : p_ext) : M estate (option (nat * ptr)) :=
  find_ext id t (Z.to_nat (x_used t)) 0.

Definition proc_lookup_extension (p : option ptr) (id : Z) : M estate (option ptr) :=
  p ← which p;
  o ← get_table p;
  match o with
  | None => mret None
  | Some x =>
      t ← getx x;
      f ← find_in id t;
      match f with
      | Some (_, e) => r ← gete e; mret (Some (data r))
      | None => mret None
      end
  end.

(** [mt] is the memory for a table. *)
Definition table_for (mt : option ptr) (p : ptr) : M estate (option ptr) :=
  o ← get_table p;
  match o, mt with
  | Some x, _ => mret (Some x)
  | None, Some x =>
      putx x (mk_p_ext (Z.of_nat EXT_SLOTS) 0 (replicate EXT_SLOTS None)) ;;
      set_table p (Some x) ;;
      mret (Some x)
  | None, None => mret None
  end.

Definition proc_attach_extension (mt : option ptr) (mems : option ptr * option ptr)
    (p : option ptr) (id flags size : Z) (cb : option module_callback) :
    M estate (option ptr) :=
  p ← which p;
  massert (negb (size =? 0)) ;;
  o ← get_table p;
  f ← match o with
      | Some x => t ← getx x; find_in id t
      | None => mret None
      end;
  if decide (f = None) then
    x ← table_for mt p;
    match x with
    | None => mret None
    | Some x =>
        t ← getx x;
        if x_used t >=? x_size t then mret None
        else
          e ← new_proc_ext mems id flags size cb;
          match e with
          | Some e => push x e ;; r ← gete e; mret (Some (data r))
          | None =>
              mwhen (x_used t =? 0) (set_table p None ;; free_table x) ;;
              mret None
          end
    end
  else mret None.

(** The call of [_mint_bcopy] in [detach_ext], for the block [e] at the index [i] of a
    table that now has [used] blocks: the destination is not the slot of the table but
    the structure [e], and [n] times the size of a structure is copied.  One structure
    that is still in use is overwritten, with [garbage]; a structure that was freed, or
    the memory behind it, is not part of the state. *)
Definition shift_down (garbage : proc_ext) (used : Z) (i : nat) (e : ptr) : M estate unit :=
  if Z.of_nat i <? used then
    let n := used - Z.of_nat i - 1 in
    if n =? 0 then mret tt
    else gete e ;; massert (n =? 1) ;; pute e garbage
  else mret tt.

Definition detach_ext (garbage : proc_ext) (p : ptr) (id : Z) : M estate unit :=
  o ← get_table p;
  match o with
  | None => mret tt
  | Some x =>
      t ← getx x;
      f ← find_in id t;
      match f with
      | Some (i, e) =>
          drop_ext e ;;
          t ← getx x;
          putx x (set_x_used (x_used t - 1) t) ;;
          shift_down garbage (x_used t - 1) i e
      | None => mret tt
      end ;;
      t ← getx x;
      mwhen (x_used t =? 0) (set_table p None ;; free_table x)
  end.

(** A process of [inl] is [(struct proc * ) -1]: all of them. *)
Definition proc_detach_extension (garbage : proc_ext) (p : unit + option ptr) (id : Z) :
    M estate unit :=
  match p with
  | inl _ =>
      l ← in_kernel (mgets proclist);
      foldr (λ p rest, detach_ext garbage p id ;; rest) (mret tt) l
  | inr p => p ← which p; detach_ext garbage p id
  end.

(** ** Notification *)

Definition notify_all (f : module_callback → option Z) (p : ptr) (args : list Z) :
    M estate unit :=
  o ← get_table p;
  match o with
  | None => mret tt
  | Some x => for_exts x (λ _ e, r ← gete e; notify f r (Zpos (data r) :: args))
  end.

Definition proc_ext_on_exit (p : ptr) (code : Z) := notify_all cb_on_exit p [Zpos p; code].
Definition proc_ext_on_exec (p : ptr) := notify_all cb_on_exec p [Zpos p].
Definition proc_ext_on_fork (p : ptr) (flags : Z) (child : ptr) :=
  notify_all cb_on_fork p [Zpos p; flags; Zpos child].
Definition proc_ext_on_stop (p : ptr) (nr : Z) := notify_all cb_on_stop p [Zpos p; nr].
Definition proc_ext_on_signal (p : ptr) (nr : Z) := notify_all cb_on_signal p [Zpos p; nr].
End extensions.

(** ** The blocks of a process *)

(** The table at [x] holds the blocks [l], in this order. *)
Record table_ok (s : estate) (t : p_ext) (l : list (ptr * proc_ext)) : Prop := {
  tk_size : x_size t = Z.of_nat EXT_SLOTS;
  tk_slots : length (x_ext t) = EXT_SLOTS;
  tk_used : x_used t = Z.of_nat (length l);
  tk_fits : (length l ≤ EXT_SLOTS)%nat;
  tk_ext i e r : l !! i = Some (e, r) → x_ext t !! i = Some (Some e);
  tk_live i e r : l !! i = Some (e, r) → exts s !! e = Some r
}.

(** The process [p] has the blocks [l]. *)
Definition holds (s : estate) (p : ptr) (l : list (ptr * proc_ext)) : Prop :=
  match ext_of s !! p with
  | None => l = []
  | Some x => ∃ t, tables s !! x = Some t ∧ table_ok s t l
  end.

Definition find_block (id : Z) (l : list (ptr * proc_ext)) : option (nat * (ptr * proc_ext)) :=
  list_find (λ b, ident b.2 = id) l.

Lemma gete_run s e r : exts s !! e = Some r → gete e s = Some (r, s).
Proof. apply (mderef_run (λ s, exts s !! e)). Qed.
Lemma getx_run s x t : tables s !! x = Some t → getx x s = Some (t, s).
Proof. apply (mderef_run (λ s, tables s !! x)). Qed.

Lemma slot_at_run s t l i e r :
  table_ok s t l → l !! i = Some (e, r) → slot_at t i s = Some (e, s).
Proof.
  intros Ht Hi. unfold slot_at.
  rewrite (bind_run _ _ s (Some e) s); [done|].
  apply (mderef_run (λ _, x_ext t !! i)). by eapply tk_ext.
Qed.

Lemma find_ext_run s t id l : ∀ l1,
  table_ok s t (l1 ++ l) →
  find_ext id t (length l) (length l1) s =
    Some ((λ x, ((length l1 + x.1)%nat, x.2.1)) <$> find_block id l, s).
Proof.
  induction l as [|[e r] l IH]; intros l1 Ht; cbn [find_ext length]; [done|].
  assert ((l1 ++ (e, r) :: l) !! length l1 = Some (e, r)) as Hi by (by apply list_lookup_middle).
  rewrite (bind_run _ _ _ _ _ (slot_at_run _ _ _ _ _ _ Ht Hi)).
  rewrite (bind_run _ _ _ _ _ (gete_run _ _ _ (tk_live _ _ _ Ht _ _ _ Hi))).
  unfold find_block. cbn [list_find]. destruct (Z.eqb_spec (ident r) id) as [E|E].
  - rewrite decide_True by done. cbn. by rewrite Nat.add_0_r.
  - rewrite decide_False by done.
    replace (S (length l1)) with (length (l1 ++ [(e, r)])) by (rewrite length_app; cbn; lia).
    rewrite IH by (by rewrite <- app_assoc). unfold find_block.
    rewrite length_app. cbn [length]. destruct (list_find _ l) as [[j b]|]; cbn; [|done].
    do 4 f_equal. lia.
Qed.

Lemma find_in_run s t id l :
  table_ok s t l →
  find_in id t s = Some ((λ x, (x.1, x.2.1)) <$> find_block id l, s).
Proof.
  intros Ht. unfold find_in. rewrite (tk_used _ _ _ Ht), Nat2Z.id.
  exact (find_ext_run s t id l [] Ht).
Qed.

Lemma lookup_run s p l id :
  holds s p l →
  proc_lookup_extension (Some p) id s =
    Some ((λ x : nat * (ptr * proc_ext), data x.2.2) <$> find_block id l, s).
Proof.
  unfold holds, proc_lookup_extension, which, get_table. intros Hp.
  rewrite (bind_run (mret p) _ s p s) by done.
  rewrite (bind_run (mgets _) _ s (ext_of s !! p) s) by done.
  destruct (ext_of s !! p) as [x|]; [|by subst l].
  destruct Hp as (t & Hx & Ht). rewrite (bind_run _ _ _ _ _ (getx_run _ _ _ Hx)).
  rewrite (bind_run _ _ _ _ _ (find_in_run _ _ id _ Ht)).
  destruct (find_block id l) as [[i [e r]]|] eqn:Ef; [|done]. cbn.
  apply list_find_Some in Ef as (Hi & _ & _).
  by rewrite (bind_run _ _ _ _ _ (gete_run _ _ _ (tk_live _ _ _ Ht _ _ _ Hi))).
Qed.

(** ** Attaching *)

Lemma holds_table s p l x t :
  ext_of s !! p = Some x → tables s !! x = Some t → holds s p l → table_ok s t l.
Proof. unfold holds. intros -> Hx (t' & Hx' & Ht). congruence. Qed.

(** The state in which the process [p] has the table [t] at [x]. *)
Definition with_ext (p x : ptr) (t : p_ext) (s : estate) : estate :=
  set_tables (<[x := t]> (tables s)) (set_ext_of (<[p := x]> (ext_of s)) s).

Lemma table_for_run s p l mx :
  holds s p l →
  ∃ x t, (with_ext p x t s = s ∨ l = []) ∧
    table_for (Some mx) p s = Some (Some x, with_ext p x t s) ∧
    table_ok (with_ext p x t s) t l.
Proof.
  intros Hp. unfold table_for, get_table, holds in *.
  rewrite (bind_run (mgets _) _ s (ext_of s !! p) s) by done.
  destruct (ext_of s !! p) as [x|] eqn:Ex.
  - destruct Hp as (t & Hx & Ht). exists x, t.
    assert (with_ext p x t s = s) as Eid by (unfold with_ext; rewrite !insert_id by done; by destruct s).
    rewrite Eid. split; [by left|]. by split.
  - subst l. exists mx, (mk_p_ext (Z.of_nat EXT_SLOTS) 0 (replicate EXT_SLOTS None)).
    split; [by right|]. split; [reflexivity|]. constructor; cbn; done || lia.
Qed.

Lemma push_run s x t l e :
  tables s !! x = Some t → table_ok s t l → (length l < EXT_SLOTS)%nat →
  push x e s = Some (tt, set_tables (<[x := mk_p_ext (x_size t) (x_used t + 1)
    (<[length l := Some e]> (x_ext t))]> (tables s)) s).
Proof.
  intros Hx [Hs Hlen Hu Hf _ _] Hl. unfold push.
  rewrite (bind_run _ _ _ _ _ (getx_run _ _ _ Hx)), Hu, Hlen.
  erewrite (bind_run (massert _)) by (apply massert_run; lia). by rewrite Nat2Z.id.
Qed.

(** One block more at the end. *)
Lemma table_ok_snoc s s' t l e r :
  table_ok s t l → (length l < EXT_SLOTS)%nat → exts s' !! e = Some r →
  (∀ i e' r', l !! i = Some (e', r') → exts s' !! e' = Some r') →
  table_ok s' (mk_p_ext (x_size t) (x_used t + 1) (<[length l := Some e]> (x_ext t)))
    (l ++ [(e, r)]).
Proof.
  intros [Hs Hlen Hu Hf Hext Hlive] Hl He Hother.
  constructor; cbn; rewrite ?length_insert, ?length_app; cbn [length]; try done; try lia.
  - intros i e' r' [Hi|[Hge Hi]]%lookup_app_Some.
    + rewrite list_lookup_insert_ne; [by eapply Hext|]. apply lookup_lt_Some in Hi. lia.
    + apply list_lookup_singleton_Some in Hi as [Hi [= <- <-]].
      replace i with (length l) by lia. apply list_lookup_insert_eq. lia.
  - intros i e' r' [Hi|[_ Hi]]%lookup_app_Some; [by eapply Hother|].
    apply list_lookup_singleton_Some in Hi as [_ [= <- <-]]. done.
Qed.

(** attaching fails, without any change, when the process has a block with the
    identification already, or ten blocks. Otherwise it answers the new data: the process
    has one block more at the end, with one link and data of the size asked for, all
    zero, and the lookup of its identification now finds it. *)
Theorem attach_extension_spec s p l mx e d id flags size cb :
  holds s p l → size ≠ 0 → exts s !! e = None →
  ∃ res s', proc_attach_extension (Some mx) (Some e, Some d) (Some p) id flags size cb s =
    Some (res, s') ∧
  if decide (find_block id l = None ∧ (length l < EXT_SLOTS)%nat)
  then res = Some d ∧ holds s' p (l ++ [(e, mk_proc_ext id flags size 1 d cb)]) ∧
    edata s' = <[d := replicate (Z.to_nat size) 0]> (edata s) ∧
    exts s' = <[e := mk_proc_ext id flags size 1 d cb]> (exts s) ∧
    proc_lookup_extension (Some p) id s' = Some (Some d, s')
  else res = None ∧ s' = s.
Proof.
  intros Hp Hsz He. unfold proc_attach_extension, which.
  rewrite (bind_run (mret p) _ s p s) by done.
  erewrite (bind_run (massert _)) by (apply massert_run; by apply negb_true_iff, Z.eqb_neq).
  unfold get_table at 1. rewrite (bind_run (mgets _) _ s (ext_of s !! p) s) by done.
  set (f := (λ x : nat * (ptr * proc_ext), (x.1, x.2.1)) <$> find_block id l).
  rewrite (bind_run (match ext_of s !! p with Some _ => _ | None => _ end) _ s f s).
  2: { unfold f, holds in *. destruct (ext_of s !! p) as [x|]; [|by subst l].
       destruct Hp as (t & Hx & Ht). rewrite (bind_run _ _ _ _ _ (getx_run _ _ _ Hx)).
       by apply find_in_run. }
  unfold f. destruct (find_block id l) as [b|] eqn:Ef; cbn [fmap option_fmap option_map].
  { destruct (decide (Some _ = None)) as [|_]; [done|]. exists None, s. rewrite ret_run.
    split; [done|]. by destruct (decide _) as [[? _]|_]. }
  destruct (decide (None = None)) as [_|]; [|done].
  destruct (table_for_run s p l mx Hp) as (x & t & Hor & Hrun & Ht).
  set (s1 := with_ext p x t s) in *. rewrite (bind_run _ _ _ _ _ Hrun).
  assert (tables s1 !! x = Some t) as Hx by apply lookup_insert_eq.
  rewrite (bind_run _ _ _ _ _ (getx_run _ _ _ Hx)), (tk_used _ _ _ Ht), (tk_size _ _ _ Ht).
  destruct (decide (length l < EXT_SLOTS)%nat) as [Hl|Hl].
  - replace (Z.of_nat (length l) >=? Z.of_nat EXT_SLOTS) with false by lia.
    destruct (decide (None = None ∧ _)) as [_|Hno]; [|by destruct Hno].
    set (r := mk_proc_ext id flags size 1 d cb).
    set (s2 := set_edata (<[d := replicate (Z.to_nat size) 0]> (edata s1))
      (set_exts (<[e := r]> (exts s1)) s1)).
    rewrite (bind_run (new_proc_ext _ _ _ _ _) _ s1 (Some e) s2) by done.
    assert (table_ok s2 t l) as Ht2.
    { destruct Ht as [? ? ? ? ? Hlive]. constructor; try done. intros i e' r' Hi. cbn.
      rewrite lookup_insert_ne; [by eapply Hlive|]. intros ->.
      apply Hlive in Hi. cbn in Hi. congruence. }
    rewrite (bind_run _ _ _ _ _ (push_run s2 x t l e Hx Ht2 Hl)). set (s3 := set_tables _ s2).
    assert (exts s3 !! e = Some r) as Her by apply lookup_insert_eq.
    rewrite (bind_run _ _ _ _ _ (gete_run _ _ _ Her)), ret_run.
    assert (holds s3 p (l ++ [(e, r)])) as Hh.
    { unfold holds. cbn. rewrite lookup_insert_eq. eexists. rewrite lookup_insert_eq.
      split; [done|]. apply (table_ok_snoc s2); try done. by destruct Ht2. }
    eexists _, s3. split; [done|]. do 4 (split; [done|]).
    rewrite (lookup_run s3 p _ id Hh). unfold find_block in *.
    rewrite list_find_app_r by done. cbn. by rewrite decide_True by done.
  - replace (Z.of_nat (length l) >=? Z.of_nat EXT_SLOTS) with true by lia.
    destruct (decide (None = None ∧ _)) as [[_ ?]|_]; [done|]. exists None, s1.
    rewrite ret_run. split; [done|]. split; [done|]. destruct Hor as [?| ->]; [done|].
    cbn in Hl. unfold EXT_SLOTS in Hl. lia.
Qed.

(** ** Sharing and releasing *)

(** The callbacks of the modules leave the extensions alone. *)
Class SilentModules `{ModuleCalls} : Prop :=
  silent f args s : module_call f args s = Some (tt, s).

(** A loop over the blocks [L] of the table at [x], from the index [i] on. *)
Fixpoint run_blocks (body : nat → ptr → M estate unit) (i : nat) (L : list ptr) :
    M estate unit :=
  match L with
  | [] => mret tt
  | e :: L => body i e ;; run_blocks body (S i) L
  end.

(** The used slots of the table are [L]. *)
Definition slots (t : p_ext) (L : list ptr) : Prop :=
  x_used t = Z.of_nat (length L) ∧ length (x_ext t) = EXT_SLOTS ∧
  (length L ≤ EXT_SLOTS)%nat ∧
  ∀ i e, L !! i = Some e → x_ext t !! i = Some (Some e).

Lemma each_ext_run x t L body : ∀ fuel L1 L2 s,
  L = L1 ++ L2 → slots t L → tables s !! x = Some t →
  (∀ i e s s', body i e s = Some (tt, s') → tables s' !! x = tables s !! x) →
  (length L2 < fuel)%nat →
  each_ext fuel x (length L1) body s = run_blocks body (length L1) L2 s.
Proof.
  induction fuel as [|fuel IH]; intros L1 L2 s HL Ht Hx Hbody Hf; [lia|]. cbn [each_ext].
  rewrite (bind_run _ _ _ _ _ (getx_run _ _ _ Hx)).
  pose proof Ht as (Hu & _ & _ & Hs). rewrite Hu, HL, length_app.
  destruct L2 as [|e L2]; cbn [length run_blocks].
  { by rewrite (proj2 (Z.ltb_ge _ _)) by lia. }
  rewrite (proj2 (Z.ltb_lt _ _)) by lia.
  unfold slot_at. rewrite bind_assoc.
  rewrite (bind_run (mderef _) _ s (Some e) s).
  2: { apply (mderef_run (λ _, x_ext t !! length L1)). apply Hs. rewrite HL.
       by apply list_lookup_middle. }
  rewrite (bind_run (mderef _) _ s e s) by done.
  unfold mbind, M_bind. destruct (body (length L1) e s) as [[[] s']|] eqn:Eb; [|done].
  replace (S (length L1)) with (length (L1 ++ [e])) by (rewrite length_app; cbn; lia).
  apply IH; [by rewrite <- app_assoc|done| |done|cbn in Hf; lia].
  by rewrite (Hbody _ _ _ _ Eb).
Qed.

Lemma for_exts_run x t L body s :
  slots t L → tables s !! x = Some t →
  (∀ i e s s', body i e s = Some (tt, s') → tables s' !! x = tables s !! x) →
  for_exts x body s = run_blocks body 0 L s.
Proof.
  intros Ht Hx Hb. pose proof Ht as (_ & _ & Hl & _).
  apply (each_ext_run x t L body (S EXT_SLOTS) [] L); [done..|lia].
Qed.

(** How often [e] is in [M]. *)
Definition times (e : ptr) (M : list ptr) : Z :=
  Z.of_nat (length (filter (λ e', e' = e) M)).

Lemma times_cons e e' M : times e (e' :: M) = (if decide (e' = e) then 1 else 0) + times e M.
Proof. unfold times. rewrite filter_cons. case_decide; cbn [length]; lia. Qed.
Lemma times_snoc e e' M : times e (M ++ [e']) = times e M + (if decide (e' = e) then 1 else 0).
Proof.
  unfold times. rewrite filter_app, length_app, filter_cons. case_decide; cbn; lia.
Qed.
Lemma times_bounds e M : 0 ≤ times e M ≤ Z.of_nat (length M).
Proof. unfold times. pose proof (length_filter (λ e', e' = e) M). lia. Qed.
Lemma times_pos e M : e ∈ M → 0 < times e M.
Proof.
  intros (M1 & M2 & ->)%list_elem_of_split. unfold times.
  rewrite filter_app, length_app, filter_cons, decide_True by done. cbn. lia.
Qed.

(** The links of the blocks of [s0] allow ten more. *)
Definition links_ok (s0 : estate) : Prop :=
  ∀ e r, exts s0 !! e = Some r → 0 < elinks r < 32000 ∧ is_Some (edata s0 !! data r).

(** The state is [s0] but for a table with the blocks [M]: blocks of [s0], which have the
    links of [M] in addition, and new ones with one link. *)
Record shares (s0 s : estate) (M : list ptr) : Prop := {
  sh_old e r : exts s0 !! e = Some r → exts s !! e = Some (set_elinks (elinks r + times e M) r);
  sh_none e : exts s0 !! e = None → e ∉ M → exts s !! e = None;
  sh_new e : exts s0 !! e = None → e ∈ M → times e M = 1 ∧
    ∃ r, exts s !! e = Some r ∧ elinks r = 1 ∧ edata s0 !! data r = None;
  sh_data d : is_Some (edata s0 !! d) → edata s !! d = edata s0 !! d;
  sh_rest d : edata s0 !! d = None →
    (∀ e r, e ∈ M → exts s0 !! e = None → exts s !! e = Some r → data r ≠ d) →
    edata s !! d = None
}.

Lemma shares_nil s0 s : shares s0 s [] → exts s = exts s0 ∧ edata s = edata s0.
Proof.
  intros [Hold Hnone _ Hdata Hrest]. split; apply map_eq; intros i.
  - destruct (exts s0 !! i) as [r|] eqn:E.
    + rewrite (Hold i r E). f_equal. unfold times. cbn. rewrite Z.add_0_r. by destruct r.
    + apply Hnone; [done|]. apply not_elem_of_nil.
  - destruct (edata s0 !! i) as [r|] eqn:E; [rewrite <- E; by apply Hdata|].
    apply Hrest; [done|]. intros e r' []%not_elem_of_nil.
Qed.

Section silence.
Context `{SilentModules}.

Lemma notify_run f r args s : notify f r args s = Some (tt, s).
Proof. unfold notify. destruct (cb_vector r ≫= f); [apply silent|done]. Qed.

(** Dropping one of the blocks of the table: one of [s0], or a new one. *)
Lemma drop_old_run s0 s e M r :
  links_ok s0 → shares s0 s (e :: M) → (length M < EXT_SLOTS)%nat → exts s0 !! e = Some r →
  ∃ s', drop_ext e s = Some (tt, s') ∧ shares s0 s' M ∧
    tables s' = tables s ∧ ext_of s' = ext_of s ∧ ek s' = ek s.
Proof.
  intros Hlk [Hold Hnone Hnew Hdata Hrest] HM E0. unfold EXT_SLOTS in HM. unfold drop_ext.
  pose proof (times_bounds e M) as HeM.
  destruct (Hlk e r E0) as [Hl _]. pose proof (Hold e r E0) as He.
  rewrite times_cons, decide_True in He by done.
  rewrite (bind_run _ _ _ _ _ (gete_run _ _ _ He)). cbn [elinks set_elinks].
  set (r' := set_elinks _ _).
  assert (r' = set_elinks (elinks r + times e M) r) as Er'
    by (unfold r'; rewrite s16_id by lia; unfold set_elinks; cbn; f_equal; lia).
  rewrite Er'. set (s1 := set_exts (<[e := set_elinks (elinks r + times e M) r]> (exts s)) s).
  rewrite (bind_run (pute _ _) _ s tt s1) by done. cbn [elinks set_elinks].
  rewrite s16_id, (proj2 (Z.leb_gt _ _)) by lia. exists s1. split; [done|]. split; [|done].
  constructor; cbn.
  - intros e' r0 E'. destruct (decide (e' = e)) as [->|Hne].
    * rewrite lookup_insert_eq. congruence.
    * rewrite lookup_insert_ne by done. rewrite (Hold e' r0 E'), times_cons.
      by rewrite decide_False by done.
  - intros e' E' He'. rewrite lookup_insert_ne by congruence. apply Hnone; [done|].
    rewrite elem_of_cons. intros [->|?]; [congruence|done].
  - intros e' E' He'. rewrite lookup_insert_ne by congruence.
    destruct (Hnew e' E') as [Ht Hr]; [by right|].
    rewrite times_cons, decide_False in Ht by congruence. by split.
  - done.
  - intros d Ed Hd. apply Hrest; [done|]. intros e' r1 [->|He']%elem_of_cons E' Hr1; [congruence|].
    apply (Hd e' r1); [done..|]. by rewrite lookup_insert_ne by congruence.
Qed.

Lemma drop_new_run s0 s e M :
  links_ok s0 → shares s0 s (e :: M) → (length M < EXT_SLOTS)%nat → exts s0 !! e = None →
  ∃ s', drop_ext e s = Some (tt, s') ∧ shares s0 s' M ∧
    tables s' = tables s ∧ ext_of s' = ext_of s ∧ ek s' = ek s.
Proof.
  intros Hlk [Hold Hnone Hnew Hdata Hrest] HM E0. unfold EXT_SLOTS in HM. unfold drop_ext.
  pose proof (times_bounds e M) as HeM.
  destruct (Hnew e E0) as (Ht & r & He & Hl & Hd); [by left|].
  rewrite times_cons, decide_True in Ht by done.
  rewrite (bind_run _ _ _ _ _ (gete_run _ _ _ He)), Hl. change (s16 (1 - 1)) with 0.
  rewrite (bind_run (pute _ _) _ s tt (set_exts (<[e := set_elinks 0 r]> (exts s)) s)) by done.
  change (elinks (set_elinks 0 r) <=? 0) with true. cbn [mwhen].
  rewrite (bind_run _ _ _ _ _ (notify_run _ _ _ _)).
  eexists. split; [reflexivity|]. split; [|done]. cbn [data set_elinks].
  assert (e ∉ M) as HnM by (intros ?%times_pos; lia).
  constructor; cbn; rewrite ?delete_insert_eq.
  - intros e' r0 E'. rewrite lookup_delete_ne by congruence. rewrite (Hold e' r0 E'), times_cons.
    by rewrite decide_False by congruence.
  - intros e' E' He'. destruct (decide (e' = e)) as [->|Hne]; [apply lookup_delete_eq|].
    rewrite lookup_delete_ne by done. apply Hnone; [done|]. set_solver.
  - intros e' E' He'. assert (e' ≠ e) as Hne by congruence. rewrite lookup_delete_ne by done.
    destruct (Hnew e' E') as [Ht' Hr]; [by right|].
    rewrite times_cons, decide_False in Ht' by done. by split.
  - intros d Hsd. rewrite lookup_delete_ne; [by apply Hdata|]. intros <-. rewrite Hd in Hsd.
    by destruct Hsd.
  - intros d Ed Hall. destruct (decide (data r = d)) as [->|Hne]; [apply lookup_delete_eq|].
    rewrite lookup_delete_ne by done. apply Hrest; [done|].
    intros e' r1 [->|He']%elem_of_cons E' Hr1; [congruence|].
    apply (Hall e' r1); [done..|]. by rewrite lookup_delete_ne by congruence.
Qed.

Lemma drop_ext_run s0 s e M :
  links_ok s0 → shares s0 s (e :: M) → (length M < EXT_SLOTS)%nat →
  ∃ s', drop_ext e s = Some (tt, s') ∧ shares s0 s' M ∧
    tables s' = tables s ∧ ext_of s' = ext_of s ∧ ek s' = ek s.
Proof.
  destruct (exts s0 !! e) as [r|] eqn:E0; intros; [by eapply drop_old_run|by eapply drop_new_run].
Qed.

Lemma drop_all_run s0 M : ∀ i s,
  links_ok s0 → shares s0 s M → (length M ≤ EXT_SLOTS)%nat →
  ∃ s', run_blocks (λ _, drop_ext) i M s = Some (tt, s') ∧ shares s0 s' [] ∧
    tables s' = tables s ∧ ext_of s' = ext_of s ∧ ek s' = ek s.
Proof.
  induction M as [|e M IH]; intros i s Hlk Hs Hl; cbn [run_blocks]; [by exists s|].
  cbn in Hl. destruct (drop_ext_run s0 s e M Hlk Hs) as (s1 & Hrun & Hs1 & Ht & Ho & Hk); [lia|].
  rewrite (bind_run _ _ _ _ _ Hrun).
  destruct (IH (S i) s1 Hlk Hs1 ltac:(lia)) as (s' & Hrun' & Hs' & Ht' & Ho' & Hk').
  exists s'. split; [done|]. split; [done|]. repeat split; congruence.
Qed.

(** ** The loop of [share_ext] *)

Definition shareable (r : proc_ext) : bool := negb (flagged (eflags r) PEXT_NOSHARE).

(** The memory for the copies is new. *)
Definition fresh_mems (s0 : estate) (mems : nat → option ptr * option ptr) : Prop :=
  (∀ i, ∃ c d, mems i = (Some c, Some d) ∧ exts s0 !! c = None ∧ edata s0 !! d = None) ∧
  (∀ i j c, (mems i).1 = Some c → (mems j).1 = Some c → i = j).

(** After [i] rounds the table at [a] has the blocks [M], with the identifications
    [ids]. *)
Record sharing (s0 s : estate) (mems : nat → option ptr * option ptr) (a : ptr) (i : nat)
    (M : list ptr) (ids : list Z) : Prop := {
  sg_shares : shares s0 s M;
  sg_table : ∃ t, tables s = <[a := t]> (tables s0) ∧ slots t M ∧ x_size t = Z.of_nat EXT_SLOTS;
  sg_ids : Forall2 (λ e n, ∃ r, exts s !! e = Some r ∧ ident r = n) M ids;
  sg_old e : e ∈ M → exts s0 !! e = None → ∃ j, (j < i)%nat ∧ (mems j).1 = Some e;
  sg_same : ext_of s = ext_of s0 ∧ ek s = ek s0
}.

Lemma slots_snoc t M e :
  slots t M → (length M < EXT_SLOTS)%nat →
  slots (mk_p_ext (x_size t) (x_used t + 1) (<[length M := Some e]> (x_ext t))) (M ++ [e]).
Proof.
  intros (Hu & Hl & Hf & Hs) HM. unfold slots. cbn. rewrite length_insert, !length_app.
  cbn [length]. split; [lia|]. split; [done|]. split; [lia|].
  intros i e' [Hi|[Hge Hi]]%lookup_app_Some.
  - rewrite list_lookup_insert_ne; [by apply Hs|]. apply lookup_lt_Some in Hi. lia.
  - apply list_lookup_singleton_Some in Hi as [Hi <-].
    replace i with (length M) by lia. apply list_lookup_insert_eq. lia.
Qed.

Lemma push_slots s x t M e :
  tables s !! x = Some t → slots t M → (length M < EXT_SLOTS)%nat →
  push x e s = Some (tt, set_tables (<[x := mk_p_ext (x_size t) (x_used t + 1)
    (<[length M := Some e]> (x_ext t))]> (tables s)) s).
Proof.
  intros Hx (Hu & Hl & _ & _) HM. unfold push.
  rewrite (bind_run _ _ _ _ _ (getx_run _ _ _ Hx)), Hu, Hl.
  erewrite (bind_run (massert _)) by (apply massert_run; lia). by rewrite Nat2Z.id.
Qed.

(** A block of [s0] gets one link more. *)
Lemma shares_old s0 s M e r :
  shares s0 s M → exts s0 !! e = Some r →
  shares s0 (set_exts (<[e := set_elinks (elinks r + times e M + 1) r]> (exts s)) s) (M ++ [e]).
Proof.
  intros [Hold Hnone Hnew Hdata Hrest] E0. constructor; cbn; [| | |done|].
  - intros e' r' E'. rewrite times_snoc. destruct (decide (e' = e)) as [->|Hne].
    + rewrite lookup_insert_eq, decide_True by done. assert (r' = r) as -> by congruence.
      do 2 f_equal. lia.
    + rewrite lookup_insert_ne, (Hold e' r' E'), decide_False by done. do 2 f_equal. lia.
  - intros e' E' He'. rewrite lookup_insert_ne by congruence. apply Hnone; [done|]. set_solver.
  - intros e' E' [He'|He'%list_elem_of_singleton]%elem_of_app; [|congruence].
    rewrite times_snoc, lookup_insert_ne, decide_False, Z.add_0_r by congruence. by apply Hnew.
  - intros d Ed Hall. apply Hrest; [done|]. intros e' r' He' E' Hr'.
    apply (Hall e' r'); [set_solver|done|]. by rewrite lookup_insert_ne by congruence.
Qed.

(** A new block. *)
Lemma shares_new s0 s M c r l :
  shares s0 s M → exts s0 !! c = None → c ∉ M → elinks r = 1 → edata s0 !! data r = None →
  shares s0 (set_edata (<[data r := l]> (edata s)) (set_exts (<[c := r]> (exts s)) s)) (M ++ [c]).
Proof.
  intros [Hold Hnone Hnew Hdata Hrest] E0 HcM Hl Hd. constructor; cbn.
  - intros e' r' E'. rewrite times_snoc, lookup_insert_ne, (Hold e' r' E'), decide_False by congruence.
    do 2 f_equal. lia.
  - intros e' E' He'. rewrite lookup_insert_ne by set_solver. apply Hnone; [done|]. set_solver.
  - intros e' E' He'. rewrite times_snoc. destruct (decide (c = e')) as [<-|Hne].
    + rewrite lookup_insert_eq. split; [|by exists r]. unfold times.
      rewrite filter_none; [done|]. apply Forall_forall. by intros e He ->.
    + rewrite lookup_insert_ne, Z.add_0_r by done. apply Hnew; [done|]. set_solver.
  - intros d Hsd. rewrite lookup_insert_ne; [by apply Hdata|]. intros <-. rewrite Hd in Hsd.
    by destruct Hsd.
  - intros d Ed Hall. assert (data r ≠ d).
    { apply (Hall c r); [set_solver|done|]. apply lookup_insert_eq. }
    rewrite lookup_insert_ne by done. apply Hrest; [done|]. intros e' r' He' E' Hr'.
    apply (Hall e' r'); [set_solver|done|]. rewrite lookup_insert_ne; [done|]. by intros ->.
Qed.

Lemma sharing_table s0 s mems a i M ids :
  sharing s0 s mems a i M ids → ∃ t, tables s !! a = Some t ∧ slots t M.
Proof.
  intros [_ (t & Et & Hs & _) _ _ _]. exists t. rewrite Et. by rewrite lookup_insert_eq.
Qed.

(** The state with the block [e] behind [M] in the table at [a]. *)
Lemma sharing_push s0 s s1 mems a i M ids e r :
  sharing s0 s mems a i M ids → (length M < EXT_SLOTS)%nat → tables s1 = tables s →
  ext_of s1 = ext_of s → ek s1 = ek s → shares s0 s1 (M ++ [e]) →
  exts s1 !! e = Some r →
  (∀ e' r', e' ∈ M → exts s !! e' = Some r' →
    ∃ r2, exts s1 !! e' = Some r2 ∧ ident r2 = ident r') →
  (exts s0 !! e = None → (mems i).1 = Some e) →
  ∃ s2, push a e s1 = Some (tt, s2) ∧ exts s2 = exts s1 ∧ edata s2 = edata s1 ∧
    sharing s0 s2 mems a (S i) (M ++ [e]) (ids ++ [ident r]).
Proof.
  intros Hsg HM Ht1 Ho1 Hk1 Hsh He Hids Hnew.
  pose proof Hsg as [_ (t & Et & Hsl & Hsz) Hid Hold [Ho Hk]].
  assert (tables s1 !! a = Some t) as Hta by (by rewrite Ht1, Et, lookup_insert_eq).
  eexists. split; [by apply push_slots|]. do 2 (split; [done|]). constructor; cbn.
  - by destruct Hsh; constructor.
  - eexists. rewrite Ht1, Et, insert_insert_eq. split; [done|]. split; [by apply slots_snoc|done].
  - apply Forall2_app; [|constructor; [by exists r|constructor]].
    clear -Hid Hids. induction Hid as [|e' n M ids (r' & Hr' & <-) Hid IH]; constructor.
    + destruct (Hids e' r') as (r2 & ? & ?); [by left|done|by exists r2].
    + apply IH. intros e2 r2 He2. apply Hids. by right.
  - intros e' [He'|He'%list_elem_of_singleton]%elem_of_app E'.
    + destruct (Hold e' He' E') as (j & ? & ?). exists j. split; [lia|done].
    + subst e'. exists i. split; [lia|by apply Hnew].
  - by rewrite Ho1, Hk1.
Qed.

Lemma sharing_eflags s0 s mems a i M ids c r f :
  sharing s0 s mems a i M ids → exts s0 !! c = None → exts s !! c = Some r →
  sharing s0 (set_exts (<[c := set_eflags f r]> (exts s)) s) mems a i M ids.
Proof.
  intros [[Hold Hnone Hnew Hdata Hrest] Ht Hid Ho Hsame] E0 Hc.
  constructor; [|done| |done|done].
  - constructor; cbn; [| | |done|].
    + intros e' r' E'. rewrite lookup_insert_ne by congruence. by apply Hold.
    + intros e' E' He'. destruct (decide (c = e')) as [<-|]; [|rewrite lookup_insert_ne by done; by apply Hnone].
      rewrite (Hnone c E' He') in Hc. done.
    + intros e' E' He'. destruct (Hnew e' E' He') as (H1 & r1 & H2 & H3). split; [done|].
      destruct (decide (c = e')) as [<-|]; [|exists r1; by rewrite lookup_insert_ne].
      exists (set_eflags f r). rewrite lookup_insert_eq. assert (r1 = r) as -> by congruence. done.
    + intros d Ed Hall. apply Hrest; [done|]. intros e' r' He' E' Hr'.
      destruct (decide (c = e')) as [<-|Hne].
      * assert (r' = r) as -> by congruence.
        apply (Hall c (set_eflags f r) He' E'). apply lookup_insert_eq.
      * apply (Hall e' r' He' E'). by rewrite lookup_insert_ne.
  - cbn. eapply Forall2_impl; [exact Hid|]. intros e' n (r' & Hr' & <-).
    destruct (decide (c = e')) as [<-|Hne]; [|exists r'; by rewrite lookup_insert_ne].
    exists (set_eflags f r). rewrite lookup_insert_eq. assert (r' = r) as -> by congruence. done.
Qed.

Lemma share_one_run s0 s mems a i M ids e r :
  links_ok s0 → fresh_mems s0 mems → sharing s0 s mems a i M ids → exts s0 !! e = Some r →
  (length M < EXT_SLOTS)%nat →
  ∃ s' M', share_one mems a i e s = Some (tt, s') ∧ (length M' ≤ S (length M))%nat ∧
    sharing s0 s' mems a (S i) M' (ids ++ if shareable r then [ident r] else []).
Proof.
  intros Hlk [Hfr Hinj] Hsg E0 HM. pose proof Hsg as [Hsh (t & Et & Hsl & Hsz) Hid Hold [Ho Hk]].
  pose proof (sh_old _ _ _ Hsh e r E0) as He. destruct (Hlk e r E0) as [Hlr [l Hl]].
  pose proof (times_bounds e M) as Hte. unfold EXT_SLOTS in HM.
  unfold share_one, shareable. rewrite (bind_run _ _ _ _ _ (gete_run _ _ _ He)).
  cbn [eflags ident esize cb_vector data elinks set_elinks].
  destruct (flagged (eflags r) PEXT_NOSHARE); cbn [negb].
  { exists s, M. rewrite ret_run, app_nil_r. split; [done|]. split; [lia|].
    constructor; try done; [by exists t|]. intros e' He' E'.
    destruct (Hold e' He' E') as (j & ? & ?). exists j. split; [lia|done]. }
  destruct (flagged (eflags r) PEXT_COPYONSHARE).
  - destruct (Hfr i) as (c & d & Em & Ec & Ed). rewrite Em.
    set (r1 := mk_proc_ext (ident r) (eflags r) (esize r) 1 d (cb_vector r)).
    set (s1 := set_edata (<[d := l]> (edata s)) (set_exts (<[c := r1]> (exts s)) s)).
    assert (c ∉ M) as HcM.
    { intros Hc. destruct (Hold c Hc Ec) as (j & Hj & Emj).
      assert (i = j) by (apply (Hinj i j c); [by rewrite Em|done]). lia. }
    set (s1' := set_edata (<[d := replicate (Z.to_nat (esize r)) 0]> (edata s))
      (set_exts (<[c := r1]> (exts s)) s)).
    rewrite (bind_run (new_proc_ext _ _ _ _ _) _ s (Some c) s1') by done.
    assert (exts s1' !! c = Some r1) as Hc1 by apply lookup_insert_eq.
    rewrite (bind_run _ _ _ _ _ (gete_run _ _ _ Hc1)).
    rewrite (bind_run (mderef _) _ s1' l s1').
    2: { apply (mderef_run (λ s, edata s !! data r)). cbn.
         rewrite lookup_insert_ne by congruence. rewrite (sh_data _ _ _ Hsh); [done|by rewrite Hl]. }
    rewrite (bind_run (put_data _ _) _ s1' tt s1).
    2: { unfold put_data, mmod, s1, s1', set_edata, set_exts. cbn. by rewrite insert_insert_eq. }
    destruct (sharing_push s0 s s1 mems a i M ids c r1) as (s2 & Hrun & Ee & Ed2 & Hsg2); try done.
    { by apply (shares_new s0 s M c r1 l). }
    { intros e' r' He' Hr'. exists r'. cbn. rewrite lookup_insert_ne; [done|]. by intros ->. }
    { by rewrite Em. }
    rewrite (bind_run _ _ _ _ _ Hrun). cbn [negb]. destruct (flagged (eflags r1) PEXT_SHAREONCE).
    + eexists _, (M ++ [c]). split; [reflexivity|]. rewrite length_app. split; [cbn; lia|].
      apply (sharing_eflags s0 s2 _ _ _ _ _ c r1); [done..|]. by rewrite Ee.
    + exists s2, (M ++ [c]). split; [done|]. rewrite length_app. by split; [cbn; lia|].
  - rewrite s16_id by lia. set (r1 := set_elinks (elinks r + times e M + 1) r).
    set (s1 := set_exts (<[e := r1]> (exts s)) s).
    rewrite (bind_run (pute _ _) _ s tt s1) by done.
    destruct (sharing_push s0 s s1 mems a i M ids e r1) as (s2 & Hrun & Ee & Ed2 & Hsg2); try done.
    { by apply shares_old. }
    { apply lookup_insert_eq. }
    { intros e' r' He' Hr'. cbn. destruct (decide (e' = e)) as [->|].
      - rewrite lookup_insert_eq. exists r1. split; [done|].
        rewrite He in Hr'. by injection Hr' as <-.
      - exists r'. by rewrite lookup_insert_ne. }
    { congruence. }
    exists s2, (M ++ [e]). split; [done|]. rewrite length_app. by split; [cbn; lia|].
Qed.

Lemma share_loop_run s0 mems a l2 : ∀ i s M ids,
  links_ok s0 → fresh_mems s0 mems → sharing s0 s mems a i M ids →
  (∀ e r, (e, r) ∈ l2 → exts s0 !! e = Some r) → (length M + length l2 ≤ EXT_SLOTS)%nat →
  ∃ s' M', run_blocks (share_one mems a) i l2.*1 s = Some (tt, s') ∧
    sharing s0 s' mems a (i + length l2) M'
      (ids ++ (ident <$> filter (λ r, shareable r = true) l2.*2)).
Proof.
  induction l2 as [|[e r] l2 IH]; intros i s M ids Hlk Hfr Hsg Hl HM; cbn [fmap list_fmap run_blocks].
  - exists s, M. rewrite app_nil_r, Nat.add_0_r. by split.
  - cbn [length] in HM.
    destruct (share_one_run s0 s mems a i M ids e r) as (s1 & M1 & Hrun & HM1 & Hsg1);
      [done..|apply Hl; by left|lia|].
    cbn [fst snd]. rewrite (bind_run _ _ _ _ _ Hrun).
    destruct (IH (S i) s1 M1 _ Hlk Hfr Hsg1) as (s' & M' & Hrun' & Hsg'); [|lia|].
    { intros e' r' He'. apply Hl. by right. }
    exists s', M'. split; [done|]. rewrite filter_cons. rewrite <- app_assoc in Hsg'.
    replace (i + length ((e, r) :: l2))%nat with (S i + length l2)%nat by (cbn; lia).
    by destruct (shareable r).
Qed.

(** The loop that calls the modules. *)
Lemma notify_loop_run M s :
  (∀ e, e ∈ M → is_Some (exts s !! e)) → ∀ p p2,
  foldr (λ e rest, r ← gete e; notify cb_share r [Zpos (data r); Zpos p; Zpos p2] ;; rest)
    (mret tt) M s = Some (tt, s).
Proof.
  intros HM p p2. induction M as [|e M IH]; [done|]. cbn [foldr].
  destruct (HM e) as [r Hr]; [by left|]. rewrite (bind_run _ _ _ _ _ (gete_run _ _ _ Hr)).
  rewrite (bind_run _ _ _ _ _ (notify_run _ _ _ _)). apply IH. intros e' He'. apply HM. by right.
Qed.

Lemma slots_blocks t M : slots t M → omap id (take (Z.to_nat (x_used t)) (x_ext t)) = M.
Proof.
  intros (Hu & Hl & Hf & Hs). rewrite Hu, Nat2Z.id.
  assert (take (length M) (x_ext t) = Some <$> M) as ->.
  { apply list_eq. intros i. rewrite list_lookup_fmap.
    destruct (decide (i < length M)%nat) as [Hi|Hi].
    - rewrite lookup_take_lt by done. destruct (lookup_lt_is_Some_2 M i Hi) as [e He].
      by rewrite He, (Hs i e He).
    - rewrite lookup_take_ge by lia. by rewrite lookup_ge_None_2 by lia. }
  clear. induction M as [|e M IH]; [done|]. cbn. by rewrite IH.
Qed.

(** Computations that leave the table at [x] alone. *)
Definition frames {A} (x : ptr) (c : M estate A) : Prop :=
  ∀ s v s', c s = Some (v, s') → tables s' !! x = tables s !! x.

Lemma frames_ret {A} x (v : A) : frames x (mret v).
Proof. intros s w s' [= <- <-]. done. Qed.
Lemma frames_panic {A} x : frames x (mpanic : M estate A).
Proof. by intros s w s'. Qed.
Lemma frames_bind {A B} x (c : M estate A) (k : A → M estate B) :
  frames x c → (∀ v, frames x (k v)) → frames x (c ≫= k).
Proof.
  intros Hc Hk s w s' E. apply bind_inv in E as (v & s1 & E1 & E2).
  by rewrite (Hk _ _ _ _ E2), (Hc _ _ _ E1).
Qed.
Lemma frames_deref {A} x (f : estate → option A) : frames x (mderef f).
Proof. intros s v s'. unfold mderef. destruct (f s); [by intros [= _ <-]|done]. Qed.
Lemma frames_mod x f : (∀ s, tables (f s) !! x = tables s !! x) → frames x (mmod f).
Proof. intros Hf s v s' [= <- <-]. apply Hf. Qed.
Lemma frames_assert x b : frames x (massert b).
Proof. intros s v s'. destruct b; [by intros [= _ <-]|done]. Qed.
Lemma frames_notify x f r args : frames x (notify f r args).
Proof. intros s v s' E. rewrite notify_run in E. by injection E as _ <-. Qed.

Create HintDb frames.
#[local] Hint Resolve frames_ret frames_panic frames_deref frames_assert frames_notify : frames.
#[local] Hint Extern 1 (frames _ (_ ≫= _)) => apply frames_bind; [|intros ?] : frames.
#[local] Hint Extern 1 (frames _ (mmod _)) => apply frames_mod; intros ?; cbn; try done : frames.

Lemma frames_push x a e : x ≠ a → frames x (push a e).
Proof.
  intros Hne. unfold push, getx, putx.
  apply frames_bind; [apply frames_deref|intros t].
  apply frames_bind; [apply frames_assert|intros _]. apply frames_mod. intros s. cbn.
  by rewrite lookup_insert_ne.
Qed.

Lemma frames_drop x e : frames x (drop_ext e).
Proof.
  unfold drop_ext, gete, pute, free_ext_block, mwhen.
  apply frames_bind; [auto with frames|intros r]. apply frames_bind; [auto with frames|intros _].
  case_match; auto 10 with frames.
Qed.

Lemma frames_share x mems a i e : x ≠ a → frames x (share_one mems a i e).
Proof.
  intros Hne. pose proof (frames_push x a) as Hp.
  unfold share_one, gete, pute, put_data, new_proc_ext, mwhen.
  apply frames_bind; [auto with frames|intros r]. case_match; [auto with frames|].
  case_match; [|apply frames_bind; [auto with frames|auto]].
  apply frames_bind.
  { unfold pute, put_data. repeat case_match; auto 10 with frames. }
  intros [c|]; [|auto with frames]. apply frames_bind; [auto with frames|intros r2].
  apply frames_bind; [auto with frames|intros l]. apply frames_bind; [auto with frames|intros _].
  apply frames_bind; [auto|intros _]. case_match; auto with frames.
Qed.

(** The identifications of the blocks that a child gets. *)
Definition inherited (l : list (ptr * proc_ext)) : list Z :=
  ident <$> filter (λ r, shareable r = true) l.*2.

(** The table of the child after [share_ext]. *)
Lemma share_table_run s p p2 x t l a mems :
  ext_of s !! p = Some x → tables s !! x = Some t → table_ok s t l →
  p ≠ p2 → tables s !! a = None → links_ok s → fresh_mems s mems →
  let s0 := set_ext_of (partial_alter (λ _, None) p2 (ext_of s)) s in
  let s1 := set_tables (<[a := mk_p_ext (Z.of_nat EXT_SLOTS) 0 (replicate EXT_SLOTS None)]>
    (tables s0)) s0 in
  ∃ s' M, for_exts x (share_one mems a) s1 = Some (tt, s') ∧
    sharing s0 s' mems a (length l) M (inherited l).
Proof.
  intros Hp Hx Ht Hne Ha Hlk Hfr s0 s1.
  assert (x ≠ a) as Hxa by congruence.
  assert (slots t l.*1) as Hsl.
  { destruct Ht as [Hsz Hlen Hu Hf Hext _]. unfold slots. rewrite length_fmap.
    split; [done|]. split; [done|]. split; [done|]. intros j e Hj.
    apply list_lookup_fmap_Some in Hj as ([e' r] & -> & Hj). by eapply Hext. }
  assert (tables s1 !! x = Some t) as Hx1 by (cbn; by rewrite lookup_insert_ne).
  rewrite (for_exts_run x t l.*1) by (try done; intros; by eapply frames_share).
  destruct (share_loop_run s0 mems a l 0 s1 [] []) as (s' & M & Hrun & Hsg); try done.
  - constructor.
    + constructor; cbn; try done; try (by intros e ? ?%not_elem_of_nil).
      intros e r E. rewrite E. f_equal. unfold times. cbn. rewrite Z.add_0_r. by destruct r.
    + eexists. split; [reflexivity|]. split; [|done]. unfold slots. cbn.
      split; [done|]. split; [done|]. split; [lia|]. by intros i e [=].
    + constructor.
    + by intros e ?%not_elem_of_nil.
    + done.
  - intros e r (j & Hj)%list_elem_of_lookup. by eapply (tk_live _ _ _ Ht).
  - apply Ht.
  - exists s', M. by split.
Qed.

(** The blocks [M] with their records. *)
Lemma blocks_of s M ids :
  Forall2 (λ e n, ∃ r, exts s !! e = Some r ∧ ident r = n) M ids →
  ∃ l, l.*1 = M ∧ ident <$> l.*2 = ids ∧ (∀ e r, (e, r) ∈ l → exts s !! e = Some r).
Proof.
  induction 1 as [|e n M ids (r & Hr & <-) _ (l & <- & <- & Hl)]; [by exists []; repeat split; set_solver|].
  exists ((e, r) :: l). split; [done|]. split; [done|].
  by intros e' r' [[= -> ->]|He']%elem_of_cons; [|apply Hl].
Qed.

(** The end of [share_ext], and the release, when the child has blocks. *)
Lemma child_release s0 s' mems a n M ids p2 :
  sharing s0 s' mems a n M ids → tables s0 !! a = None → links_ok s0 →
  let s1 := set_ext_of (<[p2 := a]> (ext_of s')) s' in
  (∃ l2, holds s1 p2 l2 ∧ ident <$> l2.*2 = ids) ∧
  ∃ s2, free_ext p2 s1 = Some (tt, s2) ∧
    exts s2 = exts s0 ∧ edata s2 = edata s0 ∧ tables s2 = tables s0 ∧
    ext_of s2 = delete p2 (ext_of s0) ∧ ek s2 = ek s0.
Proof.
  intros [Hsh (t & Et & Hsl & Hsz) Hid _ [Ho Hk]] Ha Hlk s1.
  assert (tables s' !! a = Some t) as Hta by (by rewrite Et, lookup_insert_eq).
  pose proof Hsl as (Hu & Hlen & HlM & Hs). split.
  - destruct (blocks_of s' M ids Hid) as (l2 & El & Eid & Hl). exists l2. split; [|done].
    unfold holds. cbn. rewrite lookup_insert_eq. exists t. split; [done|].
    subst M. rewrite length_fmap in *. constructor; try done.
    + intros i e r Hi. apply Hs. by rewrite list_lookup_fmap, Hi.
    + intros i e r Hi. apply Hl. by eapply list_elem_of_lookup_2.
  - unfold free_ext, get_table. rewrite (bind_run (mgets _) _ s1 (Some a) s1)
      by (unfold mgets, s1; cbn; by rewrite lookup_insert_eq).
    assert (tables s1 !! a = Some t) as Hta1 by done.
    rewrite (bind_run (for_exts a _) _ s1 tt
      (default s1 (snd <$> run_blocks (λ _, drop_ext) 0 M s1))).
    all: assert (shares s0 s1 M) as Hsh1 by (by destruct Hsh; constructor).
    all: destruct (drop_all_run s0 M 0 s1 Hlk Hsh1 HlM) as (s3 & Hrun & Hsh3 & Ht3 & Ho3 & Hk3).
    2: { rewrite (for_exts_run a t M) by (try done; intros; by eapply frames_drop).
         by rewrite Hrun. }
    rewrite Hrun. cbn [fmap option_fmap option_map snd default].
    destruct (shares_nil s0 s3 Hsh3) as [Ee Ed].
    unfold set_table. set (s4 := set_ext_of (partial_alter (λ _, None) p2 (ext_of s3)) s3).
    rewrite (bind_run (mmod _) _ s3 tt s4) by done. unfold free_table.
    assert (tables s4 !! a = Some t) as Hta4 by (cbn; by rewrite Ht3).
    rewrite (bind_run _ _ _ _ _ (getx_run _ _ _ Hta4)). eexists. split; [reflexivity|].
    cbn. split; [done|]. split; [done|]. rewrite Ht3, Ho3, Hk3. cbn. split.
    + by rewrite Et, delete_insert_id.
    + split; [|done]. rewrite Ho. exact (delete_insert_eq (ext_of s0) p2 a).
Qed.

(** sharing the extensions of a process with its child cannot panic when there is
    memory: the child gets the blocks that may be shared, in their order. When the child
    releases them again the extensions, their links and their data, and the tables of the
    other processes are exactly as before: nothing is leaked and nothing is freed too
    early, whatever mixture of shared and copied blocks there was. *)
Theorem share_free_roundtrip s p p2 l a b mems :
  holds s p l → p ≠ p2 → tables s !! a = None → links_ok s → fresh_mems s mems →
  ∃ o s1 s2, share_ext (Some a) (Some b) mems p p2 s = Some (o, s1) ∧
    (∃ l2, holds s1 p2 l2 ∧ ident <$> l2.*2 = inherited l) ∧
    free_ext p2 s1 = Some (tt, s2) ∧
    exts s2 = exts s ∧ edata s2 = edata s ∧ tables s2 = tables s ∧
    ext_of s2 = delete p2 (ext_of s) ∧ ek s2 = ek s.
Proof.
  intros Hp Hne Ha Hlk Hfr. unfold share_ext.
  set (s0 := set_ext_of (partial_alter (λ _, None) p2 (ext_of s)) s).
  rewrite (bind_run (set_table p2 None) _ s tt s0) by done.
  rewrite (bind_run (get_table p) _ s0 (ext_of s !! p) s0)
    by (unfold get_table, mgets, s0; cbn; by rewrite lookup_partial_alter_ne by done).
  assert (ext_of s0 !! p2 = None) as E2 by (cbn; by rewrite lookup_partial_alter_eq).
  assert (holds s0 p2 [] ∧ free_ext p2 s0 = Some (tt, s0)) as [Hh0 Hfree0].
  { split; [unfold holds; by rewrite E2|]. unfold free_ext, get_table.
    by rewrite (bind_run (mgets _) _ s0 None s0) by (unfold mgets; by rewrite E2). }
  unfold holds in Hp. destruct (ext_of s !! p) as [x|] eqn:Ep.
  2: { exists None, s0, s0. subst l. split; [done|]. split; [by exists []|]. done. }
  destruct Hp as (t & Hx & Ht).
  rewrite (bind_run _ _ _ _ _ (getx_run s0 x t Hx)), (tk_size _ _ _ Ht).
  set (s1 := set_tables (<[a := mk_p_ext (Z.of_nat EXT_SLOTS) 0 (replicate EXT_SLOTS None)]>
    (tables s0)) s0). rewrite (bind_run (putx _ _) _ s0 tt s1) by done.
  destruct (share_table_run s p p2 x t l a mems Ep Hx Ht Hne Ha Hlk Hfr) as (s' & M & Hrun & Hsg).
  rewrite (bind_run _ _ _ _ _ Hrun).
  pose proof Hsg as [Hsh (t' & Et' & Hsl & Hsz) Hid Hold [Ho Hk]].
  assert (tables s' !! a = Some t') as Hta by (by rewrite Et', lookup_insert_eq).
  rewrite (bind_run _ _ _ _ _ (getx_run _ _ _ Hta)).
  pose proof Hsl as (Hu & _ & HlM & _). rewrite (slots_blocks t' M Hsl), Hu.
  destruct M as [|e M].
  - change (negb (Z.of_nat (length []) =? 0)) with false. cbv iota.
    destruct (shares_nil s0 s' Hsh) as [Ee Ed]. apply Forall2_nil_inv_l in Hid.
    assert (tables s0 = delete a (tables s')) as Ets by (by rewrite Et', delete_insert_id).
    unfold free_table. rewrite bind_assoc, (bind_run _ _ _ _ _ (getx_run _ _ _ Hta)).
    assert (set_tables (delete a (tables s')) s' = s0) as Es.
    { unfold set_tables. cbn [ek ext_of exts edata estate_eta]. by rewrite <- Ets, Ee, Ed, Ho, Hk. }
    rewrite (bind_run (mmod _) _ s' tt s0) by (unfold mmod; by rewrite Es).
    exists None, s0, s0. split; [done|]. split; [|done]. exists []. by rewrite Hid.
  - destruct (Z.eqb_spec (Z.of_nat (length (e :: M))) 0) as [E|_]; [cbn in E; lia|].
    cbn [negb]. set (s2 := set_ext_of (<[p2 := a]> (ext_of s')) s').
    rewrite (bind_run (set_table p2 (Some a)) _ s' tt s2) by done.
    rewrite (bind_run (foldr _ _ _) _ s2 tt s2).
    2: { apply notify_loop_run. intros e' He'. cbn.
         apply list_elem_of_lookup in He' as [j Hj].
         destruct (Forall2_lookup_l _ _ _ _ _ Hid Hj) as (n & _ & r & Hr & _). by exists r. }
    destruct (child_release s0 s' mems a (length l) (e :: M) (inherited l) p2)
      as (Hl2 & s3 & Hfree & H1 & H2 & H3 & H4 & H5); [done..|].
    exists (Some a), s2, s3. split; [done|]. split; [done|]. split; [done|].
    do 3 (split; [done|]). split; [|done]. rewrite H4. exact (delete_delete_eq (ext_of s) p2).
Qed.

(** ** Detaching *)

Lemma drop_block_run s e r :
  exts s !! e = Some r → 0 < elinks r < 32768 →
  drop_ext e s = Some (tt,
    if elinks r =? 1
    then set_exts (delete e (exts s)) (set_edata (delete (data r) (edata s)) s)
    else set_exts (<[e := set_elinks (elinks r - 1) r]> (exts s)) s).
Proof.
  intros He Hl. unfold drop_ext. rewrite (bind_run _ _ _ _ _ (gete_run _ _ _ He)).
  rewrite s16_id by lia. set (s1 := set_exts (<[e := set_elinks (elinks r - 1) r]> (exts s)) s).
  rewrite (bind_run (pute _ _) _ s tt s1) by done. cbn [elinks set_elinks].
  destruct (Z.eqb_spec (elinks r) 1) as [E|E].
  - rewrite E. change (1 - 1 <=? 0) with true. cbn [mwhen].
    rewrite (bind_run _ _ _ _ _ (notify_run _ _ _ _)).
    rewrite <- (delete_insert_eq (exts s) e (set_elinks (elinks r - 1) r)). reflexivity.
  - by rewrite (proj2 (Z.leb_gt _ _)) by lia.
Qed.

(** when a process has two blocks and the first is detached, by its only owner, the
    block is freed but its address stays in the table, and the other block is lost: every
    lookup then reads freed memory. *)
Theorem detach_first_dangles garbage s p e1 r1 e2 r2 :
  holds s p [(e1, r1); (e2, r2)] → elinks r1 = 1 →
  ∃ s', detach_ext garbage p (ident r1) s = Some (tt, s') ∧ exts s' !! e1 = None ∧
    ∀ id, proc_lookup_extension (Some p) id s' = None.
Proof.
  intros Hp Hl1. unfold holds, detach_ext in *.
  rewrite (bind_run (get_table p) _ s (ext_of s !! p) s) by done.
  destruct (ext_of s !! p) as [x|] eqn:Ep; [|done]. destruct Hp as (t & Hx & Ht).
  rewrite (bind_run _ _ _ _ _ (getx_run _ _ _ Hx)).
  rewrite (bind_run _ _ _ _ _ (find_in_run _ _ (ident r1) _ Ht)).
  unfold find_block. cbn [list_find fst snd]. rewrite decide_True by done. cbn [fmap option_fmap option_map fst snd].
  pose proof (tk_live _ _ _ Ht 0%nat e1 r1 eq_refl) as He1.
  set (s1 := set_exts (delete e1 (exts s)) (set_edata (delete (data r1) (edata s)) s)).
  set (s2 := set_tables (<[x := set_x_used 1 t]> (tables s1)) s1).
  pose proof (tk_used _ _ _ Ht) as Hu. cbn in Hu.
  match goal with |- context [(?c ≫= ?k) s] => rewrite (bind_run c k s tt s2) end.
  2: { rewrite (bind_run (drop_ext e1) _ s tt s1)
         by (rewrite (drop_block_run s e1 r1 He1) by lia; by rewrite Hl1).
       rewrite (bind_run _ _ _ _ _ (getx_run s1 x t Hx)), Hu. reflexivity. }
  assert (tables s2 !! x = Some (set_x_used 1 t)) as Hx2 by apply lookup_insert_eq.
  rewrite (bind_run _ _ _ _ _ (getx_run _ _ _ Hx2)).
  exists s2. split; [done|]. split; [apply lookup_delete_eq|]. intros id.
  unfold proc_lookup_extension, which. rewrite (bind_run (mret p) _ s2 p s2) by done.
  rewrite (bind_run (get_table p) _ s2 (Some x) s2) by (unfold get_table, mgets; cbn; by rewrite Ep).
  rewrite (bind_run _ _ _ _ _ (getx_run _ _ _ Hx2)).
  unfold find_in. cbn [x_used set_x_used Z.to_nat find_ext Pos.to_nat Pos.iter_op].
  change (Z.to_nat 1) with 1%nat. cbn [find_ext]. unfold slot_at, mbind, M_bind, mderef, gete. cbn.
  rewrite (tk_ext _ _ _ Ht 0%nat e1 r1 eq_refl). cbn. unfold mderef. cbn.
  by rewrite lookup_delete_eq.
Qed.

(** detaching the block that was attached last undoes the attachment: the process has
    the other blocks, the block loses a link and is freed with its data when that was the
    last. *)
Theorem detach_last_spec garbage s p l e r :
  holds s p (l ++ [(e, r)]) → find_block (ident r) l = None → 0 < elinks r < 32768 →
  ∃ s', detach_ext garbage p (ident r) s = Some (tt, s') ∧ holds s' p l ∧
    exts s' = (if elinks r =? 1 then delete e (exts s)
               else <[e := set_elinks (elinks r - 1) r]> (exts s)) ∧
    edata s' = (if elinks r =? 1 then delete (data r) (edata s) else edata s).
Proof.
  intros Hp Hid Hl1. unfold holds, detach_ext in *.
  rewrite (bind_run (get_table p) _ s (ext_of s !! p) s) by done.
  destruct (ext_of s !! p) as [x|] eqn:Ep; [|by destruct l]. destruct Hp as (t & Hx & Ht).
  rewrite (bind_run _ _ _ _ _ (getx_run _ _ _ Hx)).
  rewrite (bind_run _ _ _ _ _ (find_in_run _ _ (ident r) _ Ht)).
  assert (find_block (ident r) (l ++ [(e, r)]) = Some (length l, (e, r))) as Ef.
  { unfold find_block in *. rewrite list_find_app_r by done. cbn.
    rewrite decide_True by done. cbn. do 2 f_equal; lia. }
  rewrite Ef. cbn [fmap option_fmap option_map fst snd].
  assert ((l ++ [(e, r)]) !! length l = Some (e, r)) as Hi by (by apply list_lookup_middle).
  pose proof (tk_live _ _ _ Ht _ e r Hi) as He.
  pose proof (tk_used _ _ _ Ht) as Hu. rewrite length_app in Hu. cbn [length] in Hu.
  set (s1 := if elinks r =? 1
    then set_exts (delete e (exts s)) (set_edata (delete (data r) (edata s)) s)
    else set_exts (<[e := set_elinks (elinks r - 1) r]> (exts s)) s).
  assert (tables s1 = tables s ∧ ext_of s1 = ext_of s) as [Et1 Eo1]
    by (unfold s1; by destruct (elinks r =? 1)).
  set (t2 := set_x_used (Z.of_nat (length l)) t).
  set (s2 := set_tables (<[x := t2]> (tables s1)) s1).
  match goal with |- context [(?c ≫= ?k) s] => rewrite (bind_run c k s tt s2) end.
  2: { rewrite (bind_run _ _ _ _ _ (drop_block_run s e r He Hl1)). fold s1.
       assert (tables s1 !! x = Some t) as Hx1 by (by rewrite Et1).
       rewrite (bind_run _ _ _ _ _ (getx_run s1 x t Hx1)), Hu.
       replace (Z.of_nat (length l + 1) - 1) with (Z.of_nat (length l)) by lia.
       rewrite (bind_run (putx _ _) _ s1 tt s2) by done.
       unfold shift_down. by rewrite Z.ltb_irrefl. }
  assert (tables s2 !! x = Some t2) as Hx2 by apply lookup_insert_eq.
  rewrite (bind_run _ _ _ _ _ (getx_run _ _ _ Hx2)).
  assert (exts s2 = (if elinks r =? 1 then delete e (exts s)
      else <[e := set_elinks (elinks r - 1) r]> (exts s)) ∧
    edata s2 = (if elinks r =? 1 then delete (data r) (edata s) else edata s)) as [Ee Ed]
    by (unfold s2, s1; by destruct (elinks r =? 1)).
  change (x_used t2) with (Z.of_nat (length l)).
  destruct (Z.eqb_spec (Z.of_nat (length l)) 0) as [E0|E0]; cbn [mwhen].
  - destruct l; [|done]. unfold free_table.
    set (s3 := set_ext_of (partial_alter (λ _, None) p (ext_of s2)) s2).
    rewrite (bind_run (set_table p None) _ s2 tt s3) by done.
    rewrite (bind_run (getx x) _ s3 t2 s3) by (by apply getx_run).
    eexists. split; [reflexivity|]. split; [|done]. cbn.
    by rewrite lookup_partial_alter_eq.
  - exists s2. split; [done|]. split; [|done].
    change (ext_of s2) with (ext_of s1). rewrite Eo1, Ep. exists t2. split; [done|].
    destruct Ht as [Hsz Hlen _ Hf Hext Hlive]. rewrite length_app in Hf.
    constructor; cbn; try done; [lia| |]; intros i e' r' Hi'.
    + eapply Hext. by apply lookup_app_l_Some.
    + assert (exts s !! e' = Some r') as He' by (eapply Hlive; by apply lookup_app_l_Some).
      assert (e' ≠ e) as Hne.
      { intros ->. assert (r' = r) as -> by congruence.
        unfold find_block in Hid. rewrite list_find_None, Forall_lookup in Hid.
        by apply (Hid i _ Hi'). }
      change (exts s2 !! e' = Some r'). rewrite Ee.
      case_bool; [by rewrite lookup_delete_ne|by rewrite lookup_insert_ne].
Qed.
End silence.

(** ** A concrete process with two blocks

    Process 2 has a block that is shared and one that is copied. *)

#[local] Instance ex_modules : ModuleCalls := {| module_call := λ _ _, mret tt |}.
#[local] Instance ex_silent : SilentModules.
Proof. by intros f args s. Qed.

Definition ex_block1 : proc_ext := mk_proc_ext 100 0 8 1 41 None.
Definition ex_block2 : proc_ext := mk_proc_ext 200 PEXT_COPYONSHARE 4 1 42 None.
Definition ex_ext_table : p_ext :=
  mk_p_ext 10 2 ([Some 31%positive; Some 32%positive] ++ replicate 8 None).
Definition ex_estate : estate :=
  mk_estate ex_kst {[ 2%positive := 21%positive ]} {[ 21%positive := ex_ext_table ]}
    {[ 31%positive := ex_block1; 32%positive := ex_block2 ]}
    {[ 41%positive := replicate 8 5; 42%positive := replicate 4 7 ]}.
Definition ex_blocks : list (ptr * proc_ext) :=
  [(31%positive, ex_block1); (32%positive, ex_block2)].

Lemma ex_blocks_held : holds ex_estate 2 ex_blocks.
Proof.
  exists ex_ext_table. split; [reflexivity|]. unfold EXT_SLOTS.
  constructor; [done|done|done|cbn; unfold EXT_SLOTS; lia| |];
    by intros [|[|i]] e r [= <- <-].
Qed.

Lemma attach_extension_spec_witness :
  ∃ res s', proc_attach_extension (Some 22%positive) (Some 33%positive, Some 43%positive)
    (Some 2%positive) 300 0 2 None ex_estate = Some (res, s') ∧
    res = Some 43%positive ∧ edata s' = <[43%positive := [0; 0]]> (edata ex_estate).
Proof.
  destruct (attach_extension_spec ex_estate 2 ex_blocks 22 33 43 300 0 2 None
    ex_blocks_held ltac:(done) eq_refl) as (res & s' & Hrun & Hres).
  exists res, s'. split; [exact Hrun|].
  rewrite decide_True in Hres by (split; [reflexivity|cbn; unfold EXT_SLOTS; lia]).
  destruct Hres as (-> & _ & Hd & _). by split.
Defined.

Definition ex_mems (i : nat) : option ptr * option ptr :=
  (Some (Pos.of_nat (50 + i)), Some (Pos.of_nat (50 + i))).

Lemma share_free_roundtrip_witness :
  ∃ o s1 s2, share_ext (Some 22%positive) (Some 23%positive) ex_mems 2 3 ex_estate =
      Some (o, s1) ∧
    (∃ l2, holds s1 3 l2 ∧ ident <$> l2.*2 = [100; 200]) ∧
    free_ext 3 s1 = Some (tt, s2) ∧ exts s2 = exts ex_estate ∧
    edata s2 = edata ex_estate ∧ tables s2 = tables ex_estate ∧
    ext_of s2 = delete 3%positive (ext_of ex_estate) ∧ ek s2 = ek ex_estate.
Proof.
  apply (share_free_roundtrip ex_estate 2 3 ex_blocks 22 23 ex_mems).
  - exact ex_blocks_held.
  - done.
  - reflexivity.
  - intros e r He. cbn in He. apply lookup_insert_Some in He as [[<- <-]|[_ He]].
    + cbn. split; [lia|by eexists].
    + apply lookup_singleton_Some in He as [<- <-]. cbn. split; [lia|by eexists].
  - split.
    + intros i. eexists _, _. split; [reflexivity|]. unfold ex_estate.
      cbn [exts edata]. by rewrite !lookup_insert_ne, !lookup_singleton_ne by lia.
    + intros i j c [= <-] [= E]. lia.
Defined.

Lemma detach_first_dangles_witness :
  ∃ s', detach_ext ex_block1 2 100 ex_estate = Some (tt, s') ∧ exts s' !! 31%positive = None ∧
    ∀ id, proc_lookup_extension (Some 2%positive) id s' = None.
Proof.
  apply (detach_first_dangles ex_block1 ex_estate 2 31 ex_block1 32 ex_block2);
    [exact ex_blocks_held|reflexivity].
Defined.

Lemma detach_last_spec_witness :
  ∃ s', detach_ext ex_block1 2 200 ex_estate = Some (tt, s') ∧
    holds s' 2 [(31%positive, ex_block1)] ∧
    exts s' = delete 32%positive (exts ex_estate) ∧ edata s' = delete 42%positive (edata ex_estate).
Proof.
  apply (detach_last_spec ex_block1 ex_estate 2 [(31%positive, ex_block1)] 32 ex_block2);
    [exact ex_blocks_held|reflexivity|cbn; lia].
Defined.
