(* ===== verification/LibStr.v ===== *)
(** * Characters, strings and numbers (sys/libkern)

    The character table and the conversions of case (ctype.c, toupper.c,
    tolower.c, strupr.c, strlwr.c), the comparisons (strcmp.c, strncmp.c,
    stricmp.c, strnicmp.c) and the conversions of numbers (strtonumber.c, atol.c,
    strtol.c, strtoul.c).

    A C string is the list of its bytes, without the terminating zero; the
    character at or after the end is 0.  The arithmetic of [long] wraps. *)

From S2P Require Import Prelude CInt.

Abbreviation str := (list Z).

(** [*s] *)
Definition ch (s : str) : Z := match s with [] => 0 | c :: _ => c end.

(** The bytes of a string. *)
Definition chars (s : str) : Prop := Forall (λ c, 0 < c < 256) s.

(** ** Characters *)

Definition CTc : Z := 1.
Definition CTd : Z := 2.
Definition CTu : Z := 4.
Definition CTl : Z := 8.
Definition CTs : Z := 16.
Definition CTp : Z := 32.
Definition CTx : Z := 64.

Definition ctype : list Z :=
  replicate 9 CTc ++ replicate 5 (Z.lor CTc CTs) ++ replicate 18 CTc ++
  [CTs] ++ replicate 15 CTp ++ replicate 10 (Z.lor CTd CTx) ++ replicate 7 CTp ++
  replicate 6 (Z.lor CTu CTx) ++ replicate 20 CTu ++ replicate 6 CTp ++
  replicate 6 (Z.lor CTl CTx) ++ replicate 20 CTl ++ replicate 4 CTp ++
  [CTc] ++ replicate 128 0.

(** [_ctype[(unsigned char) c] & m] *)
Definition is_ctype (m c : Z) : bool :=
  negb (Z.land (nth (Z.to_nat (u8 c)) ctype 0) m =? 0).
Definition isupper (c : Z) : bool := is_ctype CTu c.
Definition islower (c : Z) : bool := is_ctype CTl c.
Definition isalpha (c : Z) : bool := is_ctype (Z.lor CTu CTl) c.
Definition isdigit (c : Z) : bool := is_ctype CTd c.
Definition isspace (c : Z) : bool := is_ctype CTs c.

Definition toupper (c : Z) : Z := if islower c then Z.lxor c 32 else c.
Definition tolower (c : Z) : Z := if isupper c then Z.lxor c 32 else c.
Definition strupr (s : str) : str := toupper <$> s.
Definition strlwr (s : str) : str := tolower <$> s.

(** ** Comparison *)

Fixpoint strcmp (s1 s2 : str) : Z :=
  let c1 := ch s1 in
  let c2 := ch s2 in
  match s1 with
  | _ :: t1 => if c1 =? c2 then strcmp t1 (tail s2) else s8 c1 - s8 c2
  | [] => s8 c1 - s8 c2
  end.

Fixpoint strncmp (s1 s2 : str) (len : Z) : Z :=
  let c1 := ch s1 in
  let c2 := ch s2 in
  let len := len - 1 in
  let done := if len <? 0 then 0 else s8 c1 - s8 c2 in
  match s1 with
  | _ :: t1 => if (len >=? 0) && (c1 =? c2) then strncmp t1 (tail s2) len else done
  | [] => done
  end.

Fixpoint stricmp (s1 s2 : str) : Z :=
  let c1 := tolower (ch s1) in
  let c2 := tolower (ch s2) in
  match s1 with
  | _ :: t1 => if c1 =? c2 then stricmp t1 (tail s2) else s8 c1 - s8 c2
  | [] => s8 c1 - s8 c2
  end.

Fixpoint strnicmp (s1 s2 : str) (len : Z) : Z :=
  let c1 := tolower (ch s1) in
  let c2 := tolower (ch s2) in
  let len := len - 1 in
  let done := if (len <? 0) || (c1 =? c2) then 0 else s8 c1 - s8 c2 in
  match s1 with
  | _ :: t1 => if (len >=? 0) && (c1 =? c2) then strnicmp t1 (tail s2) len else done
  | [] => done
  end.

(** ** Decimal numbers *)

Definition digit_char (c : Z) : bool := (48 <=? c) && (c <=? 57).

Fixpoint skip_zeros (s : str) : str :=
  match s with
  | c :: t => if c =? 48 then skip_zeros t else s
  | [] => []
  end.

(** The loop over the digits: the value and the rest, or an overflow. *)
Fixpoint read_digits (r : Z) (s : str) : option (Z * str) :=
  match s with
  | c :: t =>
      if digit_char c then
        let r := s32 (s32 (r * 10) + (c - 48)) in
        if r <? 0 then None else read_digits r t
      else Some (r, s)
  | [] => Some (r, s)
  end.

(** [None] is the result -1. *)
Definition strtonumber (name : str) (neg zerolead : bool) : option Z :=
  let minus := neg && (ch name =? 45) in
  let crs := if minus then tail name else name in
  let sign := if minus then -1 else 1 in
  if minus && bool_decide (crs = []) then None
  else
    let crs := if zerolead then skip_zeros crs else crs in
    if zerolead && bool_decide (crs = []) then
      if ch name =? 48 then Some 0 else None
    else if (ch crs =? 48) && (ch (tail crs) =? 0) then Some 0
    else if (ch crs <=? 48) || (57 <? ch crs) then None
    else
      '(r, rest) ← read_digits 0 crs;
      if bool_decide (rest = []) then Some (s32 (r * sign)) else None.

Fixpoint skip_space (s : str) : str :=
  match s with
  | c :: t => if isspace c then skip_space t else s
  | [] => []
  end.

Fixpoint atol_signs (neg : bool) (s : str) : bool * str :=
  match s with
  | c :: t =>
      if (c =? 45) || (c =? 43) then atol_signs (xorb neg (c =? 45)) t else (neg, s)
  | [] => (neg, s)
  end.

Definition TIMESTEN (x : Z) : Z := s32 (Z.shiftl (s32 (s32 (Z.shiftl x 2) + x)) 1).

Fixpoint atol_digits (d : Z) (s : str) : Z :=
  match s with
  | c :: t => if isdigit c then atol_digits (s32 (TIMESTEN d + (c - 48))) t else d
  | [] => d
  end.

Definition atol (s : str) : Z :=
  let '(neg, s) := atol_signs false (skip_space s) in
  let d := atol_digits 0 s in
  if neg : bool then s32 (- d) else d.

(** ** Numbers of any base *)

Definition ULONG_MAX : Z := 4294967295.
Definition LONG_MAX : Z := 2147483647.
Definition LONG_MIN : Z := -2147483648.

(** [nptr[i]] *)
Definition at_ (s : str) (i : nat) : Z := nth i s 0.

(** The value of a character as a digit. *)
Definition digit_value (c : Z) : option Z :=
  if digit_char c then Some (c - 48)
  else if isalpha c then Some (toupper c - 65 + 10)
  else None.

Fixpoint skip_spaces (s : str) (i : nat) : nat :=
  match s with
  | c :: t => if isspace c then skip_spaces t (S i) else i
  | [] => i
  end.

(** The loop over the digits from [s] on: the overflow flag, the value, and how
    many characters were read. *)
Fixpoint convert (base cutoff cutlim : Z) (overflow : bool) (i : Z) (n : nat) (s : str) :
    bool * Z * nat :=
  match s with
  | [] => (overflow, i, n)
  | c :: t =>
      match digit_value c with
      | None => (overflow, i, n)
      | Some d =>
          if d >=? base then (overflow, i, n)
          else if (i >? cutoff) || ((i =? cutoff) && (d >? cutlim))
          then convert base cutoff cutlim true i (S n) t
          else convert base cutoff cutlim overflow (u32 (u32 (i * base) + d)) (S n) t
      end
  end.

(** [*endptr] at the label [noconv]. *)
Definition noconv (nptr : str) (save : nat) : nat :=
  if (2 <=? Z.of_nat save) && (toupper (at_ nptr (save - 1)) =? 88)
     && (at_ nptr (save - 2) =? 48)
  then (save - 1)%nat else 0%nat.

(** The prefix of the digits: their position and the base. *)
Definition take_prefix (nptr : str) (s : nat) (base : Z) : nat * Z :=
  if at_ nptr s =? 48 then
    if ((base =? 0) || (base =? 16)) && (toupper (at_ nptr (S s)) =? 88)
    then (S (S s), 16) else (s, if base =? 0 then 8 else base)
  else (s, if base =? 0 then 10 else base).

(** The value that is returned for the digits. *)
Definition result_value (unsigned negative overflow : bool) (i : Z) : Z :=
  let overflow :=
    overflow || (negb unsigned && (i >? (if negative then LONG_MAX + 1 else LONG_MAX))) in
  if overflow then if unsigned then ULONG_MAX else if negative then LONG_MIN else LONG_MAX
  else if unsigned then u32 (if negative then - i else i)
  else s32 (if negative then - i else i).

(** The result and the position of [*endptr], if it is stored.  The result of
    [strtoul] is an unsigned long. *)
Definition strtoxx (unsigned : bool) (nptr : str) (base : Z) : Z * option nat :=
  if (base <? 0) || (base =? 1) || (base >? 36) then (0, None)
  else
    let s := skip_spaces nptr 0 in
    if at_ nptr s =? 0 then (0, Some (noconv nptr 0))
    else
      let negative := at_ nptr s =? 45 in
      let s := if negative || (at_ nptr s =? 43) then S s else s in
      let '(s, base) := take_prefix nptr s base in
      let save := s in
      let '(overflow, i, n) :=
        convert base (ULONG_MAX / base) (ULONG_MAX mod base) false 0 0 (drop s nptr) in
      if (n =? 0)%nat then (0, Some (noconv nptr save))
      else (result_value unsigned negative overflow i, Some (s + n)%nat).

Definition strtol (nptr : str) (base : Z) : Z * option nat := strtoxx false nptr base.
Definition strtoul (nptr : str) (base : Z) : Z * option nat := strtoxx true nptr base.

(** ** Characters: the table against the ASCII ranges *)

(** A property of all the bytes. *)
Ltac all_bytes f c :=
  let H := fresh in
  assert (f c = true) as H;
  [apply (forallb_range f 0 256 c); [vm_compute; reflexivity|lia]|cbv beta in H].

Lemma isupper_spec c : 0 ≤ c < 256 → isupper c = (65 <=? c) && (c <=? 90).
Proof.
  intros Hc. all_bytes (λ c, bool_decide (isupper c = (65 <=? c) && (c <=? 90))) c.
  by bool_to_prop.
Qed.

Lemma isdigit_spec c : 0 ≤ c < 256 → isdigit c = digit_char c.
Proof.
  intros Hc. all_bytes (λ c, bool_decide (isdigit c = digit_char c)) c.
  by bool_to_prop.
Qed.

Lemma tolower_idemp c : 0 ≤ c < 256 → tolower (tolower c) = tolower c.
Proof.
  intros Hc. all_bytes (λ c, tolower (tolower c) =? tolower c) c. by bool_to_prop.
Qed.

Lemma tolower_range c : 0 < c < 256 → 0 < tolower c < 256.
Proof.
  intros Hc.
  all_bytes (λ c, (c =? 0) || ((0 <? tolower c) && (tolower c <? 256))) c.
  destruct (Z.eqb_spec c 0); [lia|]. bool_to_prop. cbn in *. bool_to_prop. lia.
Qed.

Lemma toupper_range c : 0 < c < 256 → 0 < toupper c < 256.
Proof.
  intros Hc.
  all_bytes (λ c, (c =? 0) || ((0 <? toupper c) && (toupper c <? 256))) c.
  destruct (Z.eqb_spec c 0); [lia|]. bool_to_prop. cbn in *. bool_to_prop. lia.
Qed.

Lemma toupper_idemp c : 0 ≤ c < 256 → toupper (toupper c) = toupper c.
Proof.
  intros Hc. all_bytes (λ c, toupper (toupper c) =? toupper c) c. by bool_to_prop.
Qed.

(** ** Comparison *)

Lemma chars_cons c s : chars (c :: s) ↔ 0 < c < 256 ∧ chars s.
Proof. unfold chars. by rewrite Forall_cons. Qed.

Lemma s8_inj a b : 0 ≤ a < 256 → 0 ≤ b < 256 → s8 a - s8 b = 0 → a = b.
Proof. wrap_lia. Qed.

Lemma ch_range s : chars s → 0 ≤ ch s < 256.
Proof. destruct s; [cbn; lia|]. intros [Hc _]%chars_cons. cbn. lia. Qed.

Lemma chars_tail s : chars s → chars (tail s).
Proof. destruct s; [done|]. by intros [_ Hs]%chars_cons. Qed.

Lemma ch_zero s : chars s → ch s = 0 → s = [].
Proof. destruct s; [done|]. intros [Hc _]%chars_cons. cbn. lia. Qed.

Lemma strcmp_eq s1 : ∀ s2, chars s1 → chars s2 → strcmp s1 s2 = 0 ↔ s1 = s2.
Proof.
  induction s1 as [|c s1 IH]; intros s2 H1 H2; pose proof (ch_range _ H2); cbn.
  - change (s8 0) with 0. split; [|by intros <-].
    intros He. symmetry. apply ch_zero; [done|].
    symmetry. apply s8_inj; [lia..|]. exact He.
  - apply chars_cons in H1 as [Hc H1]. destruct (Z.eqb_spec c (ch s2)) as [->|Hne].
    + rewrite IH by auto using chars_tail.
      destruct s2 as [|c2 s2]; cbn in *; [lia|]. naive_solver.
    + split; [|by intros <-]. intros E%s8_inj; [done|lia..].
Qed.

(** [stricmp] compares up to case. *)
Lemma stricmp_eq s1 : ∀ s2, chars s1 → chars s2 →
  stricmp s1 s2 = 0 ↔ strlwr s1 = strlwr s2.
Proof.
  induction s1 as [|c s1 IH]; intros s2 H1 H2.
  - destruct s2 as [|c2 s2]; cbn; [done|].
    apply chars_cons in H2 as [Hc2 H2]. apply tolower_range in Hc2.
    change (tolower 0) with 0. change (s8 0) with 0. split; [|done].
    intros E. exfalso. revert E Hc2. wrap_lia.
  - apply chars_cons in H1 as [Hc H1]. apply tolower_range in Hc. cbn.
    destruct s2 as [|c2 s2]; cbn.
    + change (tolower 0) with 0. destruct (Z.eqb_spec (tolower c) 0); [lia|].
      split; [|done]. intros E. exfalso. revert E Hc. change (s8 0) with 0. wrap_lia.
    + apply chars_cons in H2 as [Hc2 H2]. apply tolower_range in Hc2.
      destruct (Z.eqb_spec (tolower c) (tolower c2)) as [->|Hne].
      * rewrite IH by done. unfold strlwr. cbn. split; congruence.
      * unfold strlwr. cbn. split; [|congruence]. intros E%s8_inj; [done|lia..].
Qed.

(** ** Decimal numbers *)

(** The decimal representation of a number. *)
Fixpoint digits_of (fuel : nat) (n : Z) : str :=
  match fuel with
  | O => []
  | S fuel => if n <? 10 then [48 + n] else digits_of fuel (n / 10) ++ [48 + n mod 10]
  end.
Definition decimal (n : Z) : str := digits_of (S (Z.to_nat (Z.log2 n))) n.
Definition signed_decimal (n : Z) : str :=
  if n <? 0 then 45 :: decimal (- n) else decimal n.

Lemma decimal_fuel n : 0 ≤ n → n < 2 ^ Z.of_nat (S (Z.to_nat (Z.log2 n))).
Proof.
  intros Hn. pose proof (Z.log2_nonneg n). rewrite Nat2Z.inj_succ, Z2Nat.id by done.
  destruct (decide (n = 0)) as [->|]; [done|]. apply Z.log2_spec. lia.
Qed.

Lemma s32_wrap n : 2147483648 ≤ n < 6442450944 → s32 n = n - 4294967296.
Proof. wrap_lia. Qed.

Lemma fuel_step n f : 10 ≤ n < 2 ^ Z.of_nat (S f) → 0 ≤ n / 10 < 2 ^ Z.of_nat f.
Proof.
  rewrite Nat2Z.inj_succ, Z.pow_succ_r by lia. intros.
  split; [apply Z.div_pos; lia|]. apply Z.div_lt_upper_bound; lia.
Qed.

Lemma read_digit r d t :
  0 ≤ d ≤ 9 →
  read_digits r (48 + d :: t) =
    let r := s32 (s32 (r * 10) + d) in if r <? 0 then None else read_digits r t.
Proof.
  intros Hd. cbn [read_digits]. unfold digit_char.
  replace ((48 <=? 48 + d) && (48 + d <=? 57)) with true by lia.
  by replace (48 + d - 48) with d by lia.
Qed.

Lemma read_digits_of f : ∀ n rest,
  0 ≤ n < 2147483648 → n < 2 ^ Z.of_nat f →
  read_digits 0 (digits_of f n ++ rest) = read_digits n rest.
Proof.
  induction f as [|f IH]; intros n rest Hn Hf.
  { cbn in *. by replace n with 0 by lia. }
  cbn [digits_of]. destruct (Z.ltb_spec n 10).
  - cbn [app]. rewrite read_digit by lia. cbn zeta.
    rewrite (s32_id (0 * 10)), s32_id by lia.
    replace (0 * 10 + n) with n by lia. by replace (n <? 0) with false by lia.
  - rewrite <- app_assoc, IH; [| |apply fuel_step; lia].
    + pose proof (Z.mod_pos_bound n 10). cbn [app]. rewrite read_digit by lia. cbn zeta.
      pose proof (Z.div_mod n 10). rewrite (s32_id (n / 10 * 10)), s32_id by lia.
      replace (n / 10 * 10 + n mod 10) with n by lia.
      by replace (n <? 0) with false by lia.
    + split; [apply Z.div_pos; lia|]. apply Z.div_lt_upper_bound; lia.
Qed.

Lemma decimal_head f n :
  0 < n < 2 ^ Z.of_nat f → ∃ d t, digits_of f n = 48 + d :: t ∧ 1 ≤ d ≤ 9.
Proof.
  revert n. induction f as [|f IH]; intros n Hn; [cbn in *; lia|].
  cbn [digits_of]. destruct (Z.ltb_spec n 10); [exists n, []; split; [done|lia]|].
  destruct (IH (n / 10)) as (d & t & -> & Hd).
  { pose proof (fuel_step n f). split; [|lia]. apply Z.div_str_pos. lia. }
  by exists d, (t ++ [48 + n mod 10]).
Qed.

(** The result for a number that starts with a digit other than 0. *)
Lemma strtonumber_number d t r neg zl :
  1 ≤ d ≤ 9 → read_digits 0 (48 + d :: t) = Some (r, []) →
  strtonumber (48 + d :: t) neg zl = Some (s32 (r * 1)) ∧
  strtonumber (45 :: 48 + d :: t) true zl = Some (s32 (r * -1)).
Proof.
  intros Hd Hr.
  assert (skip_zeros (48 + d :: t) = 48 + d :: t) as Hs.
  { cbn [skip_zeros]. by replace (48 + d =? 48) with false by lia. }
  assert (Hz : ∀ A (a b : A), (if zl then a else b) = if zl then a else b) by done.
  unfold strtonumber. cbn [ch tail].
  replace (48 + d =? 45) with false by lia. rewrite andb_false_r.
  rewrite Z.eqb_refl. cbn [andb]. rewrite !Hs.
  replace (if zl then 48 + d :: t else 48 + d :: t) with (48 + d :: t) by (by destruct zl).
  rewrite !bool_decide_false, !andb_false_r by done. cbn [ch tail].
  replace (48 + d =? 48) with false by lia.
  replace (48 + d <=? 48) with false by lia.
  replace (57 <? 48 + d) with false by lia. cbn [andb orb].
  rewrite Hr. by cbn.
Qed.

(** [strtonumber] inverts the decimal representation of every number of a
    [long] but the smallest; a sign is only read if it is allowed. *)
Theorem strtonumber_decimal n neg zl :
  -2147483648 < n < 2147483648 → (n < 0 → neg = true) →
  strtonumber (signed_decimal n) neg zl = Some n.
Proof.
  intros Hn Hneg. unfold signed_decimal. pose proof (decimal_fuel (Z.abs n) ltac:(lia)) as Hf.
  destruct (decide (n = 0)) as [->|Hn0]; [by destruct neg, zl|].
  pose proof (read_digits_of _ (Z.abs n) [] ltac:(lia) Hf) as Hr.
  destruct (decimal_head (S (Z.to_nat (Z.log2 (Z.abs n)))) (Z.abs n)) as (d & t & E & Hd);
    [lia|].
  rewrite app_nil_r, E in Hr. unfold decimal.
  pose proof (strtonumber_number d t (Z.abs n) neg zl Hd Hr) as [Hp Hm].
  destruct (Z.ltb_spec n 0).
  - rewrite Z.abs_neq in E by lia. rewrite E, Hneg by lia. rewrite Hm.
    f_equal. rewrite s32_id; lia.
  - rewrite Z.abs_eq in E by lia. rewrite E, Hp. f_equal. rewrite s32_id; lia.
Qed.

(** The test for an overflow misses a sum that wraps past the negative
    numbers: a number from 2^32 on is accepted, as its difference to 2^32. *)
Theorem strtonumber_overflow n neg zl :
  4294967296 ≤ n < 6442450944 →
  strtonumber (decimal n) neg zl = Some (n - 4294967296).
Proof.
  intros Hn. unfold decimal. pose proof (decimal_fuel n ltac:(lia)) as Hf.
  destruct (decimal_head (S (Z.to_nat (Z.log2 n))) n) as (d & t & E & Hd); [lia|].
  assert (read_digits 0 (48 + d :: t) = Some (n - 4294967296, [])) as Hr.
  { rewrite <- E. cbn [digits_of]. replace (n <? 10) with false by lia.
    pose proof (Z.mod_pos_bound n 10 ltac:(lia)) as Hm.
    pose proof (Z.div_mod n 10 ltac:(lia)) as Hdm.
    rewrite read_digits_of; [|lia|apply fuel_step; lia]. rewrite read_digit by lia.
    cbn zeta. rewrite (s32_wrap (n / 10 * 10)) by lia. rewrite s32_id by lia.
    replace (n / 10 * 10 - 4294967296 + n mod 10) with (n - 4294967296) by lia.
    by replace (n - 4294967296 <? 0) with false by lia. }
  destruct (strtonumber_number _ _ _ neg zl Hd Hr) as [Hp _].
  rewrite E, Hp. f_equal. rewrite s32_id; lia.
Qed.

(** ** Numbers of any base *)

(** The value of a sequence of digits. *)
Definition number (base v : Z) (ds : list Z) : Z := foldl (λ v d, v * base + d) v ds.

Definition digit_in (base c d : Z) : Prop :=
  0 < c < 256 ∧ digit_value c = Some d ∧ d < base.
(** No digit follows. *)
Definition stops (base : Z) (s : str) : Prop :=
  match s with [] => True | c :: _ => ∀ d, digit_value c = Some d → base ≤ d end.

Lemma digit_value_range c d :
  0 < c < 256 → digit_value c = Some d →
  0 ≤ d ∧ isspace c = false ∧ c ≠ 43 ∧ c ≠ 45.
Proof.
  intros Hc Hd.
  all_bytes (λ c, match digit_value c with
    | Some d => (0 <=? d) && negb (isspace c) && negb (c =? 43) && negb (c =? 45)
    | None => true end) c.
  rewrite Hd in *. bool_to_prop. done.
Qed.

Lemma number_ge base v ds :
  2 ≤ base → 0 ≤ v → Forall (λ d, 0 ≤ d) ds → v ≤ number base v ds.
Proof.
  intros Hb Hv Hds. revert v Hv. induction Hds as [|d ds Hd _ IH]; intros v Hv; [done|].
  cbn. transitivity (v * base + d); [nia|]. apply IH. nia.
Qed.

Lemma digits_nonneg b cs ds : Forall2 (digit_in b) cs ds → Forall (λ d, 0 ≤ d) ds.
Proof.
  induction 1 as [|c d cs ds (Hc & Hd & _) _ IH]; constructor; [|done].
  by destruct (digit_value_range _ _ Hc Hd).
Qed.

Lemma convert_stops base cutoff cutlim ov i n rest :
  stops base rest → convert base cutoff cutlim ov i n rest = (ov, i, n).
Proof.
  destruct rest as [|c rest]; [done|]. cbn. intros Hs.
  destruct (digit_value c) as [d|] eqn:E; [|done].
  specialize (Hs d eq_refl). by replace (d >=? base) with true by lia.
Qed.

(** The cutoff is exact: the flag tells whether the value exceeds an unsigned
    long, and the value is right if it does not. *)
Lemma convert_ok base cs ds rest :
  2 ≤ base ≤ 36 → Forall2 (digit_in base) cs ds → stops base rest →
  ∀ ov i n v, 0 ≤ v → (ov = false → i = v ∧ v ≤ ULONG_MAX) →
    (ov = true → v > ULONG_MAX) →
    ∃ i', convert base (ULONG_MAX / base) (ULONG_MAX mod base) ov i n (cs ++ rest)
          = (number base v ds >? ULONG_MAX, i', (n + length cs)%nat) ∧
      (number base v ds ≤ ULONG_MAX → i' = number base v ds).
Proof.
  intros Hb Hds Hstop.
  induction Hds as [|c d cs ds (Hc & Hd & Hlt) Hds IH]; intros ov i n v Hv Hf Ht.
  - exists i. cbn [app length number foldl]. rewrite convert_stops by done.
    split; [f_equal; [f_equal|lia]|]; destruct ov; try lia; intros; naive_solver lia.
  - destruct (digit_value_range _ _ Hc Hd) as (Hd0 & _).
    pose proof (digits_nonneg _ _ _ Hds) as Hnn.
    cbn [app convert length]. rewrite Hd. replace (d >=? base) with false by lia.
    assert (Hdm : ULONG_MAX = base * (ULONG_MAX / base) + ULONG_MAX mod base)
      by (apply Z.div_mod; lia).
    pose proof (Z.mod_pos_bound ULONG_MAX base ltac:(lia)) as Hm.
    change (number base v (d :: ds)) with (number base (v * base + d) ds).
    rewrite <- Nat.add_succ_comm.
    assert (0 ≤ v * base + d) as Hv' by nia.
    destruct ov.
    + specialize (Ht eq_refl). case_bool; apply IH; done || nia.
    + destruct (Hf eq_refl) as [-> Hmax].
      destruct ((v >? ULONG_MAX / base)
        || (v =? ULONG_MAX / base) && (d >? ULONG_MAX mod base)) eqn:E.
      * apply IH; [done..|]. intros _.
        apply orb_true_iff in E as [E|E]; bool_to_prop; nia.
      * assert (v * base + d ≤ ULONG_MAX) as Hle.
        { apply orb_false_iff in E as [E1 E2]. apply andb_false_iff in E2.
          destruct E2; bool_to_prop; nia. }
        unfold ULONG_MAX in *.
        rewrite (u32_id (v * base)), u32_id by nia. apply IH; [done..|lia].
Qed.

(** The base that a prefix of the digits [t] selects. *)
Inductive base_prefix : Z → str → Z → str → Prop :=
  | prefix_hex base x t : base = 0 ∨ base = 16 → x = 88 ∨ x = 120 →
      base_prefix base [48; x] 16 t
  | prefix_given base t : 2 ≤ base ≤ 36 →
      (base = 16 → ch t = 48 → toupper (ch (tail t)) ≠ 88) → base_prefix base [] base t
  | prefix_octal t : ch t = 48 → toupper (ch (tail t)) ≠ 88 → base_prefix 0 [] 8 t
  | prefix_decimal t : ch t ≠ 48 → base_prefix 0 [] 10 t.

(** The optional sign. *)
Definition sign_of (sg : str) (m : Z) : Prop :=
  (sg = [] ∧ m = 1) ∨ (sg = [43] ∧ m = 1) ∨ (sg = [45] ∧ m = -1).

Lemma skip_spaces_app sp t i :
  Forall (λ c, isspace c = true) sp → isspace (ch t) = false →
  skip_spaces (sp ++ t) i = (i + length sp)%nat.
Proof.
  intros Hsp Ht. revert i. induction Hsp as [|c sp Hc _ IH]; intros i; cbn.
  - destruct t as [|c t]; cbn in *; [lia|]. by rewrite Ht, Nat.add_0_r.
  - rewrite Hc, IH. lia.
Qed.

Lemma at_app s t i : at_ (s ++ t) (length s + i) = at_ t i.
Proof. unfold at_. by rewrite app_nth2_plus. Qed.

Lemma at_app_0 s t : at_ (s ++ t) (length s) = ch t.
Proof. rewrite <- (Nat.add_0_r (length s)), at_app. by destruct t. Qed.

Lemma take_prefix_ok b px base t s1 :
  base_prefix base px b t →
  take_prefix (s1 ++ px ++ t) (length s1) base = ((length s1 + length px)%nat, b).
Proof.
  assert (Hn : ∀ t, at_ (s1 ++ t) (S (length s1)) = ch (tail t)).
  { intros t'. rewrite <- Nat.add_1_r, at_app. by destruct t' as [|? [|]]. }
  intros Hp. unfold take_prefix. rewrite at_app_0, Hn.
  destruct Hp as [base x t Hb Hx|base t Hb Hx|t H0 Hx|t H0]; cbn [app length ch tail].
  - assert (toupper x = 88) as -> by (by destruct Hx as [-> | ->]).
    rewrite !Z.eqb_refl. replace ((base =? 0) || (base =? 16)) with true by lia.
    cbn. f_equal. lia.
  - rewrite Nat.add_0_r. replace (base =? 0) with false by lia.
    destruct (Z.eqb_spec (ch t) 48); [|done].
    destruct (Z.eqb_spec base 16); cbn; [|done].
    by destruct (Z.eqb_spec (toupper (ch (tail t))) 88); [tauto|].
  - rewrite Nat.add_0_r, H0. cbn.
    by destruct (Z.eqb_spec (toupper (ch (tail t))) 88).
  - rewrite Nat.add_0_r. by destruct (Z.eqb_spec (ch t) 48).
Qed.

Lemma clamp_value n m :
  0 ≤ n ≤ ULONG_MAX → m = 1 ∨ m = -1 →
  result_value false (m =? -1) false n = Z.max LONG_MIN (Z.min LONG_MAX (m * n)).
Proof.
  unfold result_value, LONG_MAX, LONG_MIN, ULONG_MAX. cbn [negb andb orb].
  intros Hn [-> | ->]; cbn [Z.eqb Pos.eqb];
    case_bool; bool_to_prop; try lia; rewrite s32_id by lia; lia.
Qed.

Section strtol.
Context (sp sg px cs rest : str) (base b m : Z) (ds : list Z).
Context (Hsp : Forall (λ c, isspace c = true) sp) (Hsg : sign_of sg m).
Context (Hpx : base_prefix base px b (cs ++ rest)).
Context (Hds : Forall2 (digit_in b) cs ds) (Hcs : cs ≠ []) (Hstop : stops b rest).

(** The digits follow the spaces and the sign, which they are not taken for. *)
Lemma digits_first :
  isspace (ch (px ++ cs ++ rest)) = false ∧ ch (px ++ cs ++ rest) ≠ 0 ∧
  ch (px ++ cs ++ rest) ≠ 43 ∧ ch (px ++ cs ++ rest) ≠ 45.
Proof.
  assert (isspace (ch (cs ++ rest)) = false ∧ ch (cs ++ rest) ≠ 0 ∧
    ch (cs ++ rest) ≠ 43 ∧ ch (cs ++ rest) ≠ 45) as Hc.
  { destruct Hds as [|c d cs' ds' (Hc & Hd & _) _]; [done|]. cbn.
    destruct (digit_value_range _ _ Hc Hd) as (_ & ? & ? & ?). repeat split; [done|lia..]. }
  by destruct Hpx.
Qed.

Lemma strtoxx_run unsigned :
  2 ≤ b ≤ 36 ∧
  ∃ i, strtoxx unsigned (sp ++ sg ++ px ++ cs ++ rest) base =
      (result_value unsigned (m =? -1) (number b 0 ds >? ULONG_MAX) i,
       Some (length (sp ++ sg ++ px ++ cs))) ∧
    (number b 0 ds ≤ ULONG_MAX → i = number b 0 ds).
Proof.
  destruct digits_first as (Hspace & Hzero & Hplus & Hminus).
  assert (2 ≤ b ≤ 36 ∧ (0 ≤ base ≤ 36 ∧ base ≠ 1)) as [Hb Hbase] by (destruct Hpx; lia).
  split; [done|].
  destruct (convert_ok b cs ds rest Hb Hds Hstop false 0 0 0) as (i & Hconv & Hi); [done..|].
  exists i. split; [|done]. unfold strtoxx.
  replace ((base <? 0) || (base =? 1) || (base >? 36)) with false by lia.
  assert (isspace (ch (sg ++ px ++ cs ++ rest)) = false ∧
    ch (sg ++ px ++ cs ++ rest) ≠ 0 ∧
    (ch (sg ++ px ++ cs ++ rest) =? 45) = (m =? -1) ∧
    length sg = if (m =? -1) || (ch (sg ++ px ++ cs ++ rest) =? 43) then 1%nat else 0%nat)
    as (Hsp1 & Hz1 & Hneg & Hlen).
  { destruct Hsg as [[-> ->]|[[-> ->]|[-> ->]]]; cbn; [|done..].
    replace (ch (px ++ cs ++ rest) =? 45) with false by lia.
    by replace (ch (px ++ cs ++ rest) =? 43) with false by lia. }
  rewrite skip_spaces_app by done. cbn [Nat.add]. rewrite at_app_0.
  replace (ch (sg ++ px ++ cs ++ rest) =? 0) with false by lia. rewrite Hneg.
  replace (if (m =? -1) || (ch (sg ++ px ++ cs ++ rest) =? 43) then S (length sp)
    else length sp) with (length (sp ++ sg))
    by (rewrite length_app; revert Hlen; destruct ((m =? -1) || _); lia).
  replace (sp ++ sg ++ px ++ cs ++ rest) with ((sp ++ sg) ++ px ++ cs ++ rest)
    by (by rewrite <- app_assoc).
  rewrite (take_prefix_ok b) by done. rewrite <- length_app.
  rewrite (app_assoc (sp ++ sg)), drop_app_length, Hconv.
  destruct cs as [|c cs']; [done|]. cbn [length Nat.add Nat.eqb].
  f_equal. f_equal. rewrite !length_app. cbn [length]. lia.
Qed.


(** [strtoul] reads the same numbers; a sign negates modulo 2^32. *)
Theorem strtoul_spec :
  strtoul (sp ++ sg ++ px ++ cs ++ rest) base =
    (if number b 0 ds >? ULONG_MAX then ULONG_MAX else u32 (m * number b 0 ds),
     Some (length (sp ++ sg ++ px ++ cs))).
Proof.
  destruct (strtoxx_run true) as (Hb & i & Hr & Hi). unfold strtoul. rewrite Hr. f_equal.
  destruct (Z.gtb_spec (number b 0 ds) ULONG_MAX); [done|].
  assert (m = 1 ∨ m = -1) as Hm by (destruct Hsg as [[_ ->]|[[_ ->]|[_ ->]]]; auto).
  rewrite Hi by done. clear Hr Hi. unfold result_value. cbn [negb andb orb].
  destruct Hm as [-> | ->]; cbn [Z.eqb Pos.eqb]; f_equal; lia.
Qed.
End strtol.

(** ** Concrete numbers *)
Section example.

(** The string "-2147483647". *)
Lemma strtonumber_decimal_witness :
  signed_decimal (-2147483647) = [45; 50; 49; 52; 55; 52; 56; 51; 54; 52; 55] ∧
  strtonumber (signed_decimal (-2147483647)) true false = Some (-2147483647).
Proof. split; [by vm_compute|]. by apply strtonumber_decimal. Defined.

(** The string "4294967296". *)
Lemma strtonumber_overflow_witness :
  strtonumber [52; 50; 57; 52; 57; 54; 55; 50; 57; 54] false true = Some 0.
Proof. by apply (strtonumber_overflow 4294967296 false true). Defined.


(** Digits that the base does not have end the number; a prefix without digits is
    a zero. *)
Example strtol_examples :
  strtol [57; 57; 57; 57; 57; 57; 57; 57; 57; 57; 57] 10 = (LONG_MAX, Some 11%nat) ∧
  strtol [49; 50; 56] 8 = (10, Some 2%nat) ∧
  strtol [48; 120; 103] 16 = (0, Some 1%nat) ∧
  strtol [43; 103] 16 = (0, Some 0%nat) ∧ strtol [49] 1 = (0, None) ∧
  atol [32; 45; 45; 45; 49; 50; 120] = -12.
Proof. by vm_compute. Qed.
End example.
