(* ===== verification/Files.v ===== *)
(** * Files: sharing, permissions, names, descriptors (sys/filesys.c, sys/k_fds.c)

    The checks that the file systems share (denyshare, denyaccess, denylock), the
    DOS patterns (has_wild, copy8_3, pat_match), and the file descriptors of a
    process.  Open files ([struct file]) live on a heap and are linked by [next];
    a slot of a descriptor table is NULL, the reserved value (address 1), or an
    open file. *)

From S2P Require Import Prelude CInt Errno LibStr Timeout Kernel ProcQueue Cred.

(** ** Constants of sys/mint/fcntl.h, stat.h and proc.h *)

Definition O_RDONLY : Z := 0.
Definition O_WRONLY : Z := 1.
Definition O_RDWR : Z := 2.
Definition O_RWMODE : Z := 3.
Definition O_EXEC : Z := 3.
Definition O_SHMODE : Z := 112.
Definition O_COMPAT : Z := 0.
Definition O_DENYRW : Z := 16.
Definition O_DENYW : Z := 32.
Definition O_DENYR : Z := 48.
Definition O_DENYNONE : Z := 64.
Definition O_NDELAY : Z := 256.
Definition O_CREAT : Z := 512.
Definition O_TTY : Z := 8192.
Definition O_HEAD : Z := 16384.
Definition O_LOCK : Z := 32768.
Definition O_GLOBAL_HANDLE : Z := 16384.
Definition FD_CLOEXEC : Z := 1.
Definition MIN_HANDLE : Z := -5.
Definition F_RDLCK : Z := 0.
Definition F_WRLCK : Z := 1.
Definition F_UNLCK : Z := 3.
Definition S_IFMT : Z := 61440.
Definition S_IFDIR : Z := 16384.
Definition TOS_NAMELEN : Z := 13.

(** [flags & m] *)
Definition has (flags m : Z) : bool := negb (Z.land flags m =? 0).

(** ** Data *)

(** [fcookie]; a file system is identified by its number *)
Record fcookie := mk_fcookie {
  fc_fs : Z;
  fc_dev : Z;
  fc_index : Z
}.

Definition fcookie_eta (r : fcookie) : fcookie :=
  mk_fcookie
    (fc_fs r) (fc_dev r) (fc_index r).
Definition set_fc_fs : Z → fcookie → fcookie :=
  ltac:(build_setter fcookie_eta fc_fs).
Definition set_fc_dev : Z → fcookie → fcookie :=
  ltac:(build_setter fcookie_eta fc_dev).
Definition set_fc_index : Z → fcookie → fcookie :=
  ltac:(build_setter fcookie_eta fc_index).

(** [struct file]; [f_dev] tells whether there is a device driver *)
Record fileptr := mk_fileptr {
  f_links : Z;
  f_flags : Z;
  f_pos : Z;
  f_devinfo : Z;
  f_fc : fcookie;
  f_dev : bool;
  f_next : option ptr
}.

Definition fileptr_eta (r : fileptr) : fileptr :=
  mk_fileptr
    (f_links r) (f_flags r) (f_pos r) (f_devinfo r) (f_fc r) (f_dev r)
    (f_next r).
Definition set_f_links : Z → fileptr → fileptr :=
  ltac:(build_setter fileptr_eta f_links).
Definition set_f_flags : Z → fileptr → fileptr :=
  ltac:(build_setter fileptr_eta f_flags).
Definition set_f_pos : Z → fileptr → fileptr :=
  ltac:(build_setter fileptr_eta f_pos).
Definition set_f_devinfo : Z → fileptr → fileptr :=
  ltac:(build_setter fileptr_eta f_devinfo).
Definition set_f_fc : fcookie → fileptr → fileptr :=
  ltac:(build_setter fileptr_eta f_fc).
Definition set_f_dev : bool → fileptr → fileptr :=
  ltac:(build_setter fileptr_eta f_dev).
Definition set_f_next : option ptr → fileptr → fileptr :=
  ltac:(build_setter fileptr_eta f_next).

(** [struct filedesc]; the tables start with the entry of [MIN_HANDLE] *)
Record filedesc := mk_filedesc {
  ofiles : list (option ptr);
  ofileflags : list Z;
  nfiles : Z
}.

Definition filedesc_eta (r : filedesc) : filedesc :=
  mk_filedesc
    (ofiles r) (ofileflags r) (nfiles r).
Definition set_ofiles : list (option ptr) → filedesc → filedesc :=
  ltac:(build_setter filedesc_eta ofiles).
Definition set_ofileflags : list Z → filedesc → filedesc :=
  ltac:(build_setter filedesc_eta ofileflags).
Definition set_nfiles : Z → filedesc → filedesc :=
  ltac:(build_setter filedesc_eta nfiles).

(** [struct tty]: the fields that the modelled code uses; [tt_xkey] tells whether there is a table *)
Record tty := mk_tty {
  tt_pgrp : Z;
  tt_state : Z;
  tt_use_cnt : Z;
  tt_aux_cnt : Z;
  tt_sg_flags : Z;
  tt_rsel : option ptr;
  tt_wsel : option ptr;
  tt_xkey : bool;
  tt_hup_ospeed : Z;
  tt_vmin : Z;
  tt_vtime : Z
}.

Definition tty_eta (r : tty) : tty :=
  mk_tty
    (tt_pgrp r) (tt_state r) (tt_use_cnt r) (tt_aux_cnt r) (tt_sg_flags r)
    (tt_rsel r) (tt_wsel r) (tt_xkey r) (tt_hup_ospeed r) (tt_vmin r)
    (tt_vtime r).
Definition set_tt_pgrp : Z → tty → tty :=
  ltac:(build_setter tty_eta tt_pgrp).
Definition set_tt_state : Z → tty → tty :=
  ltac:(build_setter tty_eta tt_state).
Definition set_tt_use_cnt : Z → tty → tty :=
  ltac:(build_setter tty_eta tt_use_cnt).
Definition set_tt_aux_cnt : Z → tty → tty :=
  ltac:(build_setter tty_eta tt_aux_cnt).
Definition set_tt_sg_flags : Z → tty → tty :=
  ltac:(build_setter tty_eta tt_sg_flags).
Definition set_tt_rsel : option ptr → tty → tty :=
  ltac:(build_setter tty_eta tt_rsel).
Definition set_tt_wsel : option ptr → tty → tty :=
  ltac:(build_setter tty_eta tt_wsel).
Definition set_tt_xkey : bool → tty → tty :=
  ltac:(build_setter tty_eta tt_xkey).
Definition set_tt_hup_ospeed : Z → tty → tty :=
  ltac:(build_setter tty_eta tt_hup_ospeed).
Definition set_tt_vmin : Z → tty → tty :=
  ltac:(build_setter tty_eta tt_vmin).
Definition set_tt_vtime : Z → tty → tty :=
  ltac:(build_setter tty_eta tt_vtime).

(** The state: the kernel, the field [p_fd] of the processes, and the structures on the heap *)
Record fstate := mk_fstate {
  fk : kst;
  p_fd : gmap ptr ptr;
  filedescs : gmap ptr filedesc;
  files : gmap ptr fileptr;
  ttys : gmap ptr tty
}.

Definition fstate_eta (r : fstate) : fstate :=
  mk_fstate
    (fk r) (p_fd r) (filedescs r) (files r) (ttys r).
Definition set_fk : kst → fstate → fstate :=
  ltac:(build_setter fstate_eta fk).
Definition set_p_fd : gmap ptr ptr → fstate → fstate :=
  ltac:(build_setter fstate_eta p_fd).
Definition set_filedescs : gmap ptr filedesc → fstate → fstate :=
  ltac:(build_setter fstate_eta filedescs).
Definition set_files : gmap ptr fileptr → fstate → fstate :=
  ltac:(build_setter fstate_eta files).
Definition set_ttys : gmap ptr tty → fstate → fstate :=
  ltac:(build_setter fstate_eta ttys).

(** [struct xattr]: the fields that decide about access. *)
Record xattr := mk_xattr { x_mode : Z; x_uid : Z; x_gid : Z }.

(** [struct ilock]: the fields of [struct flock]. *)
Record ilock := mk_ilock { l_type : Z; l_start : Z; l_len : Z; l_pid : Z }.

(** A computation on the kernel. *)
Definition on_kernel {A} (c : M kst A) : M fstate A := mlift fk set_fk c.
(** [f->...] *)
Definition getf (f : ptr) : M fstate fileptr := mderef (λ s, files s !! f).
(** [f->... = ...] *)
Definition modf (f : ptr) (g : fileptr → fileptr) : M fstate unit := λ s,
  match files s !! f with
  | Some r => Some (tt, set_files (<[f := g r]> (files s)) s)
  | None => None
  end.
(** [tty->...] *)
Definition gett (t : ptr) : M fstate tty := mderef (λ s, ttys s !! t).
(** [tty->... = ...] *)
Definition modt (t : ptr) (g : tty → tty) : M fstate unit := λ s,
  match ttys s !! t with
  | Some r => Some (tt, set_ttys (<[t := g r]> (ttys s)) s)
  | None => None
  end.
(** [p->p_fd->...] *)
Definition getfd (p : ptr) : M fstate filedesc :=
  mderef (λ s, d ← p_fd s !! p; filedescs s !! d).
Definition modfd (p : ptr) (g : filedesc → filedesc) : M fstate unit := λ s,
  match p_fd s !! p ≫= λ d, (λ r, (d, r)) <$> filedescs s !! d with
  | Some (d, r) => Some (tt, set_filedescs (<[d := g r]> (filedescs s)) s)
  | None => None
  end.
Definition current : M fstate ptr := mgets (λ s, curproc (fk s)).

(** ** Sharing *)

(** The access of an open mode, where execution counts as reading. *)
Definition rwmode_of (flags : Z) : Z :=
  let m := Z.land flags O_RWMODE in if m =? O_EXEC then O_RDONLY else m.
Definition shmode_of (flags : Z) : Z := Z.land flags O_SHMODE.

(** The four tests of the modes. *)
Definition modes_clash (newrm newsm oldrm oldsm : Z) : bool :=
  (((oldsm =? O_DENYW) || (oldsm =? O_DENYRW)) && negb (newrm =? O_RDONLY)) ||
  (((oldsm =? O_DENYR) || (oldsm =? O_DENYRW)) && negb (newrm =? O_WRONLY)) ||
  (((newsm =? O_DENYW) || (newsm =? O_DENYRW)) && negb (oldrm =? O_RDONLY)) ||
  (((newsm =? O_DENYR) || (newsm =? O_DENYRW)) && negb (oldrm =? O_WRONLY)).

(** The test whether an [O_COMPAT] file must belong to the process. *)
Definition compat_clash (newrm newsm oldrm oldsm : Z) : bool :=
  ((newsm =? O_COMPAT) && negb (newrm =? O_RDONLY) && negb (oldrm =? O_RDONLY)) ||
  ((oldsm =? O_COMPAT) && negb (newrm =? O_RDONLY)).

(** [fd->ofiles[i] == f] for a handle [i]. *)
Definition owns_file (fd : filedesc) (f : ptr) : bool :=
  existsb (λ o, bool_decide (o = Some f)) (take (Z.to_nat (nfiles fd - MIN_HANDLE)) (ofiles fd)).

(** The loop over the list of open files. *)
Fixpoint denyshare_loop (fuel : nat) (newrm newsm : Z) (list : option ptr) : M fstate Z :=
  match list, fuel with
  | None, _ => mret 0
  | Some _, O => mpanic
  | Some l, S fuel =>
      old ← getf l;
      let oldrm := rwmode_of (f_flags old) in
      let oldsm := shmode_of (f_flags old) in
      if modes_clash newrm newsm oldrm oldsm then mret 1
      else if compat_clash newrm newsm oldrm oldsm then
        c ← current;
        fd ← getfd c;
        if owns_file fd l then denyshare_loop fuel newrm newsm (f_next old) else mret 1
      else denyshare_loop fuel newrm newsm (f_next old)
  end.

Definition denyshare (list : option ptr) (f : ptr) : M fstate Z :=
  r ← getf f;
  n ← mgets (λ s, size (files s));
  denyshare_loop n (rwmode_of (f_flags r)) (shmode_of (f_flags r)) list.

(** ** Permissions *)

Definition denyaccess (cred : ucred) (x : xattr) (perm : Z) : bool :=
  if euid cred =? 0 then false
  else
    let perm :=
      if euid cred =? x_uid x then u16 (Z.shiftl perm 6)
      else if egid cred =? x_gid x then u16 (Z.shiftl perm 3)
      else if groupmember cred (x_gid x) then u16 (Z.shiftl perm 3)
      else perm in
    negb (Z.land (x_mode x) perm =? perm).

Definition S_ISDIR (m : Z) : bool := Z.land m S_IFMT =? S_IFDIR.

(** [r] and [x] are the result of [xfs_getxattr]; the mode is stored on success. *)
Definition dir_access (cred : ucred) (r : Z) (x : xattr) (perm : Z) : Z * option Z :=
  if negb (r =? 0) then (r, None)
  else if negb (S_ISDIR (x_mode x)) then (ENOTDIR, None)
  else if denyaccess cred x perm then (EACCES, None)
  else (0, Some (x_mode x)).

(** ** Record locks *)

(** The last byte of a lock, as an unsigned long. *)
Definition lock_end (l : ilock) : Z :=
  if l_len l =? 0 then 4294967295 else u32 (u32 (l_start l) + l_len l - 1).

Definition lock_clash (n : Z) (t lck : ilock) : bool :=
  let tstart := u32 (l_start t) in
  let lstart := u32 (l_start lck) in
  let other := negb (u16 (l_pid t) =? n) &&
    ((l_type lck =? F_WRLCK) || (l_type t =? F_WRLCK)) in
  ((tstart <=? lstart) && (lock_end t >=? lstart) && other) ||
  ((lstart <=? tstart) && (lock_end lck >=? tstart) && other).

(** The conflicting lock of the list. *)
Definition denylock (n : Z) (l : list ilock) (lck : ilock) : option ilock :=
  List.find (λ t, lock_clash n t lck) l.

(** ** Names and patterns *)

Definition has_wild (name : str) : bool :=
  existsb (λ c, (c =? 42) || (c =? 63)) name.

(** The loop over a field of [n] characters: what is stored, the fill character,
    the last character that was read, and the rest of the name. *)
Fixpoint copy_field (n : nat) (fill c : Z) (src : str) : str * Z * Z * str :=
  match n with
  | O => ([], fill, c, src)
  | S n =>
      let c := ch src in
      if (c =? 0) || (c =? 46) then ([], fill, c, tail src)
      else
        let star := c =? 42 in
        let fill := if star then 63 else fill in
        let '(d, fill, c', src) := copy_field n fill (if star then 63 else c) (tail src) in
        (toupper (if star then 63 else c) :: d, fill, c', src)
  end.

(** [while (c && c != '.') c = *src++;] *)
Fixpoint to_extension (c : Z) (src : str) : Z * str :=
  if (c =? 0) || (c =? 46) then (c, src)
  else match src with
       | [] => (0, [])
       | c :: src => to_extension c src
       end.

Definition pad (n : nat) (fill : Z) (d : str) : str := d ++ replicate (n - length d) fill.

Definition copy8_3 (src : str) : str :=
  if bool_decide (src = [46]) then [46] ++ replicate 7 32 ++ [46] ++ replicate 3 32
  else if bool_decide (src = [46; 46]) then [46; 46] ++ replicate 6 32 ++ [46] ++ replicate 3 32
  else if bool_decide (src = [42; 46; 42]) then [42]
  else
    let '(d, fill, c, rest) := copy_field 8 32 0 src in
    let '(c, rest) := to_extension c rest in
    let '(e, fill', _, _) :=
      if c =? 0 then ([], 32, 0, []) else copy_field 3 32 0 rest in
    pad 8 fill d ++ [46] ++ pad 3 fill' e.

(** The loop over the template. *)
Fixpoint matches (template s : str) : bool :=
  match template with
  | [] => true
  | c :: template =>
      if negb (c =? ch s) && negb (c =? 63) then false else matches template (tail s)
  end.

Definition pat_match (name template : str) : bool :=
  if ch template =? 42 then true else matches template (copy8_3 name).

Definition samefile (a b : fcookie) : bool :=
  (fc_fs a =? fc_fs b) && (fc_dev a =? fc_dev b) && (fc_index a =? fc_index b).

(** ** Sharing: the reference definition *)

Definition reads (flags : Z) : Prop := rwmode_of flags ≠ O_WRONLY.
Definition writes (flags : Z) : Prop := rwmode_of flags ≠ O_RDONLY.
Definition denies_reads (flags : Z) : Prop :=
  shmode_of flags = O_DENYR ∨ shmode_of flags = O_DENYRW.
Definition denies_writes (flags : Z) : Prop :=
  shmode_of flags = O_DENYW ∨ shmode_of flags = O_DENYRW.
Definition compatible (flags : Z) : Prop := shmode_of flags = O_COMPAT.

(** One open file denies what the other one does. *)
Definition denies (a b : Z) : Prop :=
  (denies_reads a ∧ reads b) ∨ (denies_writes a ∧ writes b).
(** A writer next to an [O_COMPAT] file must be the process that opened it. *)
Definition compat_denied (new old : Z) (mine : Prop) : Prop :=
  writes new ∧ (compatible old ∨ (compatible new ∧ writes old)) ∧ ¬ mine.
Definition conflict (new old : Z) (mine : Prop) : Prop :=
  denies new old ∨ denies old new ∨ compat_denied new old mine.

(** The list of open files at [o]. *)
Fixpoint open_list (m : gmap ptr fileptr) (o : option ptr) (l : list ptr) : Prop :=
  match l with
  | [] => o = None
  | p :: l => o = Some p ∧ ∃ r, m !! p = Some r ∧ open_list m (f_next r) l
  end.

Lemma open_list_dom m o l : open_list m o l → Forall (λ p, p ∈ dom m) l.
Proof.
  revert o. induction l as [|p l IH]; intros o; [constructor|].
  intros (_ & r & Hr & Hl). constructor; [by apply elem_of_dom_2 in Hr|eauto].
Qed.

(** The list is not longer than the heap, so that the fuel of the loop is enough. *)
Lemma open_list_size m o l : open_list m o l → NoDup l → (length l ≤ size m)%nat.
Proof.
  intros Hl Hnd. rewrite <- (size_list_to_set (C := gset ptr)) by done.
  rewrite <- size_dom. apply subseteq_size. intros p Hp%elem_of_list_to_set.
  apply open_list_dom in Hl. by rewrite Forall_forall in Hl; apply Hl.
Qed.

Lemma modes_clash_spec new old :
  modes_clash (rwmode_of new) (shmode_of new) (rwmode_of old) (shmode_of old) = true ↔
  denies new old ∨ denies old new.
Proof.
  unfold modes_clash, denies, denies_reads, denies_writes, reads, writes.
  rewrite !orb_true_iff, !andb_true_iff, !orb_true_iff, !negb_true_iff, !Z.eqb_neq, !Z.eqb_eq.
  tauto.
Qed.

Lemma compat_clash_spec new old :
  compat_clash (rwmode_of new) (shmode_of new) (rwmode_of old) (shmode_of old) = true ↔
  writes new ∧ (compatible old ∨ (compatible new ∧ writes old)).
Proof.
  unfold compat_clash, compatible, writes.
  rewrite !orb_true_iff, !andb_true_iff, !negb_true_iff, !Z.eqb_neq, !Z.eqb_eq. tauto.
Qed.

(** A handle of the process is for the file. *)
Definition is_mine (fd : filedesc) (g : ptr) : Prop :=
  ∃ i, MIN_HANDLE ≤ i < nfiles fd ∧ ofiles fd !! Z.to_nat (i - MIN_HANDLE) = Some (Some g).

Lemma owns_file_spec fd g : owns_file fd g = true ↔ is_mine fd g.
Proof.
  unfold owns_file, is_mine. rewrite existsb_exists. split.
  - intros (o & Ho%list_elem_of_In & ->%bool_decide_eq_true).
    apply list_elem_of_lookup in Ho as [i [Hi Hlt]%lookup_take_Some].
    exists (Z.of_nat i + MIN_HANDLE). unfold MIN_HANDLE in *. split; [lia|].
    rewrite <- Hi. f_equal. lia.
  - intros (i & Hi & Hl). exists (Some g). split; [|by apply bool_decide_eq_true].
    apply list_elem_of_In, list_elem_of_lookup. eexists. apply lookup_take_Some.
    split; [done|]. unfold MIN_HANDLE in *. lia.
Qed.

Section denyshare.
Context (s : fstate) (d : ptr) (fd : filedesc).
Context (Hp : p_fd s !! curproc (fk s) = Some d) (Hd : filedescs s !! d = Some fd).

Definition conflicts (new : Z) (g : ptr) : Prop :=
  ∃ r, files s !! g = Some r ∧ conflict new (f_flags r) (is_mine fd g).

Lemma denyshare_loop_ok new l : ∀ fuel o,
  open_list (files s) o l → (length l ≤ fuel)%nat →
  ∃ z, denyshare_loop fuel (rwmode_of new) (shmode_of new) o s = Some (z, s) ∧
    (z = 1 ∧ Exists (conflicts new) l ∨ z = 0 ∧ ¬ Exists (conflicts new) l).
Proof.
  induction l as [|g l IH]; intros fuel o.
  { intros -> _. exists 0. split; [by destruct fuel|]. right.
    split; [done|]. by intros ?%Exists_nil. }
  intros (-> & r & Hr & Hl) Hfuel. destruct fuel as [|fuel]; [cbn in *; lia|].
  cbn [denyshare_loop]. erewrite bind_run by (by apply (mderef_run (λ s, files s !! g))).
  destruct (IH fuel (f_next r) Hl ltac:(cbn in *; lia)) as (z & Hz & Hcase).
  pose proof (modes_clash_spec new (f_flags r)) as Hm.
  pose proof (compat_clash_spec new (f_flags r)) as Hc.
  pose proof (owns_file_spec fd g) as Ho.
  assert (conflicts new g ↔ conflict new (f_flags r) (is_mine fd g)) as Hg.
  { unfold conflicts. rewrite Hr. naive_solver. }
  setoid_rewrite Exists_cons. setoid_rewrite Hg. unfold conflict, compat_denied.
  destruct (modes_clash _ _ _ _).
  { exists 1. split; [done|]. left. tauto. }
  assert (¬ (denies new (f_flags r) ∨ denies (f_flags r) new)) by (by rewrite <- Hm).
  destruct (compat_clash _ _ _ _).
  - erewrite (bind_run current) by done.
    erewrite (bind_run (getfd _)) by (apply mderef_run; rewrite Hp; cbn; by rewrite Hd).
    destruct (owns_file fd g).
    + exists z. split; [done|]. tauto.
    + exists 1. split; [done|]. left. split; [done|]. left. right. right.
      apply proj1 in Hc. specialize (Hc eq_refl). split; [tauto|]. split; [tauto|].
      by rewrite <- Ho.
  - exists z. split; [done|].
    assert (¬ (writes new ∧ (compatible (f_flags r) ∨ compatible new ∧ writes (f_flags r))))
      by (by rewrite <- Hc). tauto.
Qed.

End denyshare.

(** ** Permissions *)

(** [denyaccess]: the permissions are those of the owner for the owner, of the
    group for the others of the group, of the world for the rest; the superuser
    has all of them. *)
Theorem denyaccess_spec cred x perm :
  0 ≤ perm < 8 →
  denyaccess cred x perm = false ↔
  euid cred = 0 ∨
  let shift := if euid cred =? x_uid x then 6
               else if (egid cred =? x_gid x) || groupmember cred (x_gid x) then 3 else 0 in
  ∀ i, 0 ≤ i → Z.testbit perm i = true → Z.testbit (x_mode x) (i + shift) = true.
Proof.
  intros Hperm. unfold denyaccess. destruct (Z.eqb_spec (euid cred) 0); [tauto|].
  assert (Hsub : ∀ k, 0 ≤ k → Z.land (x_mode x) (Z.shiftl perm k) = Z.shiftl perm k ↔
    ∀ i, 0 ≤ i → Z.testbit perm i = true → Z.testbit (x_mode x) (i + k) = true).
  { intros k Hk. split.
    - intros E i Hi Hb. apply (f_equal (λ m, Z.testbit m (i + k))) in E.
      rewrite Z.land_spec, Z.shiftl_spec in E by lia.
      replace (i + k - k) with i in E by lia. rewrite Hb, andb_true_r in E. done.
    - intros Hall. apply Z.bits_inj'. intros j Hj. rewrite Z.land_spec, Z.shiftl_spec by done.
      destruct (Z.testbit perm (j - k)) eqn:Hb; [|by rewrite andb_false_r].
      destruct (decide (0 ≤ j - k)); [|rewrite Z.testbit_neg_r in Hb; [done|lia]].
      specialize (Hall (j - k) l Hb). replace (j - k + k) with j in Hall by lia.
      by rewrite Hall. }
  assert (Hu : ∀ k, k = 6 ∨ k = 3 → u16 (Z.shiftl perm k) = Z.shiftl perm k).
  { intros k Hk. apply u16_id. rewrite Z.shiftl_mul_pow2 by lia. destruct Hk as [-> | ->]; lia. }
  cbn zeta. rewrite negb_false_iff, Z.eqb_eq.
  destruct (euid cred =? x_uid x); [rewrite Hu, Hsub by lia; naive_solver|].
  destruct (egid cred =? x_gid x); cbn [orb]; [rewrite Hu, Hsub by lia; naive_solver|].
  destruct (groupmember cred (x_gid x)); [rewrite Hu, Hsub by lia; naive_solver|].
  rewrite <- (Z.shiftl_0_r perm) at 1 2. rewrite Hsub by lia. naive_solver.
Qed.

(** ** Record locks *)

(** The bytes of a lock; a lock of length 0 extends to the end. *)
Definition covers (l : ilock) (x : Z) : Prop :=
  l_start l ≤ x ∧ (l_len l = 0 ∨ x < l_start l + l_len l).
Definition lock_ok (l : ilock) : Prop :=
  0 ≤ l_start l ∧ 0 ≤ l_len l ∧ l_start l + l_len l < 4294967296 ∧ 0 ≤ l_pid l < 32768.

(** Two locks conflict. *)
Definition lock_conflict (n : Z) (t lck : ilock) : Prop :=
  l_pid t ≠ n ∧ (l_type t = F_WRLCK ∨ l_type lck = F_WRLCK) ∧
  ∃ x, 0 ≤ x < 4294967296 ∧ covers t x ∧ covers lck x.

Lemma lock_end_spec l x :
  lock_ok l → 0 ≤ x < 4294967296 → covers l x ↔ l_start l ≤ x ≤ lock_end l.
Proof.
  unfold lock_ok, covers, lock_end. intros (? & ? & ? & _) Hx.
  destruct (Z.eqb_spec (l_len l) 0); [lia|].
  rewrite (u32_id (l_start l)), u32_id by lia. lia.
Qed.

Lemma lock_end_range l : lock_ok l → l_start l ≤ lock_end l < 4294967296.
Proof.
  unfold lock_ok, lock_end. intros (? & ? & ? & _).
  destruct (Z.eqb_spec (l_len l) 0); [lia|].
  rewrite (u32_id (l_start l)), u32_id by lia. lia.
Qed.

Lemma lock_clash_spec n t lck :
  lock_ok t → lock_ok lck → lock_clash n t lck = true ↔ lock_conflict n t lck.
Proof.
  intros Ht Hl. unfold lock_clash, lock_conflict.
  pose proof (lock_end_range t Ht). pose proof (lock_end_range lck Hl).
  assert ((∃ x, 0 ≤ x < 4294967296 ∧ covers t x ∧ covers lck x) ↔
    l_start t ≤ lock_end lck ∧ l_start lck ≤ lock_end t) as Hx.
  { split.
    - intros (x & Hx & H1 & H2). rewrite lock_end_spec in H1, H2 by done. lia.
    - intros Hse. exists (Z.max (l_start t) (l_start lck)).
      destruct Ht as (? & ?), Hl as (? & ?).
      rewrite !lock_end_spec by (done || lia). lia. }
  rewrite Hx. destruct Ht as (? & ? & ? & ?), Hl as (? & ? & ? & ?).
  rewrite (u32_id (l_start t)), (u32_id (l_start lck)), u16_id by lia.
  rewrite !orb_true_iff, !andb_true_iff, !orb_true_iff, !negb_true_iff.
  rewrite !Z.geb_leb, !Z.leb_le, !Z.eqb_neq, !Z.eqb_eq. lia.
Qed.

(** [denylock] returns the first lock of the list that another process holds on
    a byte of the new lock, where one of the two is a write lock; it returns none
    exactly if no lock of the list conflicts. *)
Theorem denylock_spec n l lck :
  Forall lock_ok l → lock_ok lck →
  match denylock n l lck with
  | Some t => ∃ l1 l2, l = l1 ++ t :: l2 ∧ lock_conflict n t lck ∧
      Forall (λ t', ¬ lock_conflict n t' lck) l1
  | None => Forall (λ t', ¬ lock_conflict n t' lck) l
  end.
Proof.
  intros Hl Hlck. unfold denylock. induction Hl as [|t l Ht _ IH]; cbn; [constructor|].
  pose proof (lock_clash_spec n t lck Ht Hlck) as Hc.
  destruct (lock_clash n t lck).
  - exists [], l. split; [done|]. split; [by apply Hc|constructor].
  - assert (¬ lock_conflict n t lck) by (by rewrite <- Hc).
    destruct (List.find _ l) as [t'|].
    + destruct IH as (l1 & l2 & -> & Ht' & Hl1). exists (t :: l1), l2.
      split; [done|]. split; [done|]. by constructor.
    + by constructor.
Qed.

(** ** Names *)

(** A character that is copied to a field as it is, in upper case. *)
Definition plain (c : Z) : Prop := 0 < c < 256 ∧ c ≠ 46 ∧ c ≠ 42.

Lemma copy_field_plain b : ∀ n fill c t,
  Forall plain b → (n ≤ length b)%nat →
  ∃ c', copy_field n fill c (b ++ t) = (toupper <$> take n b, fill, c', drop n b ++ t) ∧
    (n ≠ 0%nat → plain c').
Proof.
  induction b as [|x b IH]; intros n fill c t Hb Hn.
  { destruct n; [|cbn in *; lia]. by exists c. }
  destruct n as [|n]; [by exists c|]. apply Forall_cons in Hb as [Hx Hb].
  cbn [app copy_field ch tail take drop].
  destruct (IH n fill x t Hb) as (c' & E & Hc'); [cbn in *; lia|].
  destruct Hx as (Hx & Hdot & Hstar).
  replace ((x =? 0) || (x =? 46)) with false by lia.
  replace (x =? 42) with false by lia. rewrite E. exists c'. split; [done|].
  intros _. destruct n as [|n]; [|by apply Hc'].
  cbn in E. injection E as <-. done.
Qed.

(** A field that ends before [n] characters. *)
Lemma copy_field_short b : ∀ n fill c t,
  Forall plain b → (length b < n)%nat → ch t = 0 ∨ ch t = 46 →
  copy_field n fill c (b ++ t) = (toupper <$> b, fill, ch t, tail t).
Proof.
  induction b as [|x b IH]; intros n fill c t Hb Hn Ht; (destruct n as [|n]; [cbn in *; lia|]).
  - cbn. by replace ((ch t =? 0) || (ch t =? 46)) with true by lia.
  - apply Forall_cons in Hb as [(Hx & Hdot & Hstar) Hb]. cbn [app copy_field ch tail].
    replace ((x =? 0) || (x =? 46)) with false by lia.
    replace (x =? 42) with false by lia. by rewrite IH by (done || (cbn in *; lia)).
Qed.

Lemma to_extension_skip b : ∀ c t,
  plain c → Forall plain b → ch t = 0 ∨ ch t = 46 →
  to_extension c (b ++ t) = (ch t, tail t).
Proof.
  induction b as [|x b IH]; intros c t (Hc & Hdot & _) Hb Ht.
  - destruct t as [|x t]; cbn; replace ((c =? 0) || (c =? 46)) with false by lia; [done|].
    destruct t; cbn in *; by replace ((x =? 0) || (x =? 46)) with true by lia.
  - apply Forall_cons in Hb as [Hx Hb]. cbn.
    replace ((c =? 0) || (c =? 46)) with false by lia. by apply IH.
Qed.

Lemma pad_field n d : pad n 32 (toupper <$> take n d) = (toupper <$> take n d) ++ replicate (n - length d) 32.
Proof. unfold pad. rewrite length_fmap, length_take. f_equal. f_equal. lia. Qed.

(** A field of a name: in upper case, cut or filled with blanks. *)
Definition field (n : nat) (d : str) : str :=
  (toupper <$> take n d) ++ replicate (n - length d) 32.

(** The base name [b] and what follows it. *)
Lemma copy_base b t :
  Forall plain b → ch t = 0 ∨ ch t = 46 →
  ∃ d c rest, copy_field 8 32 0 (b ++ t) = (d, 32, c, rest) ∧ pad 8 32 d = field 8 b ∧
    to_extension c rest = (ch t, tail t).
Proof.
  intros Hb Ht. destruct (decide (length b < 8)%nat) as [Hlt|Hge].
  - eexists _, _, _. split; [by apply copy_field_short|]. split.
    + unfold field. by rewrite <- pad_field, take_ge by lia.
    + destruct t as [|c [|]]; cbn in *; [done|..];
        by replace ((c =? 0) || (c =? 46)) with true by lia.
  - destruct (copy_field_plain b 8 32 0 t Hb ltac:(lia)) as (c' & E & Hc').
    eexists _, _, _. split; [exact E|]. split; [by rewrite pad_field|].
    apply to_extension_skip; [by apply Hc'|by apply Forall_drop|done].
Qed.

(** [copy8_3] on a name without wildcards: the base and the first extension, in
    upper case, cut to 8 and 3 characters or filled with blanks; what follows a
    second dot is ignored. *)
Theorem copy8_3_spec b e t :
  b ≠ [] → Forall plain b → Forall plain e → t = [] ∨ ch t = 46 →
  copy8_3 b = field 8 b ++ [46] ++ field 3 [] ∧
  copy8_3 (b ++ 46 :: e ++ t) = field 8 b ++ [46] ++ field 3 e.
Proof.
  intros Hne Hb He Ht.
  assert (Hspecial : ∀ u, bool_decide (b ++ u = [46]) = false ∧
    bool_decide (b ++ u = [46; 46]) = false ∧ bool_decide (b ++ u = [42; 46; 42]) = false).
  { intros u. destruct b as [|x b]; [done|]. apply Forall_cons in Hb as [(_ & Hx & Hs) _].
    repeat split; apply bool_decide_eq_false; cbn; congruence. }
  unfold copy8_3. split.
  - destruct (Hspecial []) as (H1 & H2 & H3). rewrite app_nil_r in H1, H2, H3.
    rewrite H1, H2, H3.
    destruct (copy_base b [] Hb ltac:(auto)) as (d & c & rest & E & Hd & Hext).
    rewrite app_nil_r in E. rewrite E, Hext, <- Hd. done.
  - destruct (Hspecial (46 :: e ++ t)) as (-> & -> & ->).
    destruct (copy_base b (46 :: e ++ t) Hb ltac:(auto)) as (d & c & rest & -> & Hd & ->).
    cbn [ch tail]. rewrite Hd. replace (46 =? 0) with false by done.
    assert (ch t = 0 ∨ ch t = 46) as Ht' by (destruct Ht as [-> |]; auto).
    destruct (decide (length e < 3)%nat) as [Hlt|Hge].
    + rewrite copy_field_short by done. f_equal. cbn [app]. f_equal. unfold field.
      by rewrite <- pad_field, take_ge by lia.
    + destruct (copy_field_plain e 3 32 0 t He ltac:(lia)) as (c' & -> & _).
      by rewrite pad_field.
Qed.

(** The template and the expanded name agree but for question marks. *)
Lemma matches_spec p s :
  Forall (λ c, 0 < c) p → (length p ≤ length s)%nat →
  matches p s = true ↔ Forall2 (λ c x, c = x ∨ c = 63) p (take (length p) s).
Proof.
  intros Hp. revert s. induction Hp as [|c p Hc Hp IH]; intros s Hs; [by split|].
  destruct s as [|x s]; [cbn in *; lia|]. cbn [matches ch tail length take].
  rewrite Forall2_cons. specialize (IH s ltac:(cbn in *; lia)).
  destruct (Z.eqb_spec c x), (Z.eqb_spec c 63); cbn; naive_solver.
Qed.

(** ** Concrete checks *)
Section example.

(** Two open files of one list: the first denies writing, the second is opened for
    reading and writing. *)
Definition ex_file (links flags : Z) (nx : option ptr) : fileptr :=
  mk_fileptr links flags 0 0 (mk_fcookie 0 0 0) true nx.
Definition ex_files : gmap ptr fileptr :=
  {[ 60%positive := ex_file 1 O_DENYW None; 61%positive := ex_file 1 O_RDWR None ]}.

(** The current process has the file 60 as handle 0. *)
Definition ex_table : filedesc :=
  mk_filedesc [None; None; None; None; None; Some 60%positive; None; None]
    [0; 0; 0; 0; 0; 0; 0; 0] 3.
Definition ex_fstate : fstate :=
  mk_fstate ex_kst {[ 2%positive := 50%positive ]} {[ 50%positive := ex_table ]} ex_files ∅.


Lemma denyaccess_spec_witness :
  denyaccess (mk_ucred 5 7 [] 0 1) (mk_xattr 416 6 7) 4 = false.
Proof.
  apply denyaccess_spec; [lia|]. right. cbn. intros i Hi Hb.
  destruct (decide (i = 2)) as [->|]; [reflexivity|].
  change 4 with (2 ^ 2) in Hb. rewrite Z.pow2_bits_false in Hb; [done|lia].
Defined.

Definition ex_lock (ty st len n : Z) : ilock := mk_ilock ty st len n.

Lemma denylock_spec_witness :
  denylock 3 [ex_lock F_RDLCK 0 10 4; ex_lock F_WRLCK 8 0 4] (ex_lock F_RDLCK 5 20 3)
    = Some (ex_lock F_WRLCK 8 0 4) ∧
  lock_conflict 3 (ex_lock F_WRLCK 8 0 4) (ex_lock F_RDLCK 5 20 3).
Proof.
  split; [reflexivity|].
  destruct (denylock_spec 3 [ex_lock F_RDLCK 0 10 4; ex_lock F_WRLCK 8 0 4]
    (ex_lock F_RDLCK 5 20 3)) as (l1 & l2 & _ & Hc & _).
  - rewrite !Forall_cons. unfold lock_ok. cbn. repeat split; lia || constructor.
  - unfold lock_ok. cbn. lia.
  - exact Hc.
Defined.

(** "program.tar.gz" *)
Lemma copy8_3_spec_witness :
  copy8_3 [112; 114; 111; 103; 46; 116; 97; 114; 46; 103; 122]
    = [80; 82; 79; 71; 32; 32; 32; 32; 46; 84; 65; 82].
Proof.
  apply (copy8_3_spec [112; 114; 111; 103] [116; 97; 114] [46; 103; 122]);
    [done| | |by right]; rewrite !Forall_cons; unfold plain; repeat split; lia || constructor.
Defined.

(** A star does not end the field: "*bc" is expanded to "?BC?????". *)
Example star_in_field :
  copy8_3 [42; 98; 99] = [63; 66; 67; 63; 63; 63; 63; 63; 46; 32; 32; 32] ∧
  pat_match [97; 98; 99; 46; 120] (copy8_3 [97; 42; 46; 42]) = true ∧
  pat_match [97] [42] = true.
Proof. by vm_compute. Qed.
End example.
