(* ===== verification/FileDesc.v ===== *)
(** * File descriptors (sys/k_fds.c, sys/dosfile.c)

    The table of open files of a process: allocation of handles and of open files,
    duplication, Fforce, closing, and the descriptor operations of Fcntl.  A file
    has as many links as there are handles for it. *)

From stdpp Require Import fin_maps.
From S2P Require Import Prelude CInt Errno LibStr Timeout Kernel ProcQueue Cred Files.

Definition TS_BLIND : Z := 2048.
Definition TS_HPCL : Z := 16384.
Definition TIOCSTOP : Z := 21513.
Definition TIOCFLUSH : Z := 21512.
Definition TIOCOBAUD : Z := 21523.
Definition TIOCCBRK : Z := 21524.
Definition TIOCWONLINE : Z := 21533.
Definition F_DUPFD : Z := 0.
Definition F_GETFD : Z := 1.
Definition F_SETFD : Z := 2.
Definition F_GETFL : Z := 3.
Definition F_SETFL : Z := 4.
Definition F_DUPFD_CLOEXEC : Z := 1030.
Definition O_USER : Z := 4095.
(** The address of [hangup_b1], as a timeout function. *)
Definition hangup_b1_addr : Z := 1048688.

(** ** The table *)

(** [(FILEPTR * ) 1] *)
Definition reserved : option ptr := Some 1%positive.

(** [fd->ofiles[i]], if [i] is an index of the table. *)
Definition slot (fd : filedesc) (i : Z) : option (option ptr) :=
  if i <? MIN_HANDLE then None else ofiles fd !! Z.to_nat (i - MIN_HANDLE).
Definition set_slot (i : Z) (o : option ptr) (fd : filedesc) : filedesc :=
  set_ofiles (<[Z.to_nat (i - MIN_HANDLE) := o]> (ofiles fd)) fd.
Definition set_slot_flags (i v : Z) (fd : filedesc) : filedesc :=
  set_ofileflags (<[Z.to_nat (i - MIN_HANDLE) := v]> (ofileflags fd)) fd.

(** The first free handle from [min] on. *)
Definition fd_scan (fd : filedesc) (min : Z) : option Z :=
  (λ x, min + Z.of_nat x.1) <$>
    list_find (λ o, o = None)
      (take (Z.to_nat (nfiles fd - min)) (drop (Z.to_nat (min - MIN_HANDLE)) (ofiles fd))).

(** The handle, or the error.  A [min] below the table makes the loop read in
    front of it. *)
Definition fd_alloc (p : ptr) (min : Z) : M fstate (Z + Z) :=
  fd ← getfd p;
  massert (MIN_HANDLE <=? min) ;;
  match fd_scan fd min with
  | Some i => modfd p (set_slot i reserved) ;; mret (inr i)
  | None => mret (inl EMFILE)
  end.

Definition fd_remove (p : ptr) (i : Z) : M fstate unit :=
  fd ← getfd p;
  massert (bool_decide (is_Some (slot fd i))) ;;
  modfd p (set_slot i None).

(** ** Open files *)

Definition new_file : fileptr := mk_fileptr 1 0 0 0 (mk_fcookie 0 0 0) false None.

(** [mem] is what [kmalloc] returns. *)
Definition fp_alloc (mem : option ptr) : M fstate (Z + ptr) :=
  match mem with
  | None => mret (inl ENOMEM)
  | Some f => mmod (λ s, set_files (<[f := new_file]> (files s)) s) ;; mret (inr f)
  end.

Definition fp_done (p f : ptr) (i flags : Z) : M fstate unit :=
  fd ← getfd p;
  massert (bool_decide (slot fd i = Some reserved)) ;;
  modfd p (set_slot i (Some f)) ;;
  modfd p (set_slot_flags i flags).

Definition fp_free (f : ptr) : M fstate unit :=
  mmod (λ s, set_files (delete f (files s)) s).

(** The test of [fp_get] for the process [p]. *)
Definition fp_get1 (p : ptr) (fd : Z) : M fstate (Z + ptr) := λ s,
  let r :=
    if fd <? MIN_HANDLE then None
    else
      d ← p_fd s !! p;
      t ← filedescs s !! d;
      if fd >=? nfiles t then None
      else
        o ← slot t fd;
        f ← o;
        if bool_decide (Some f = reserved) then None else Some f in
  Some (match r with Some f => inr f | None => inl EBADF end, s).

(** The process, the handle and the file. *)
Definition fp_get (p : ptr) (fd : Z) : M fstate (Z + ptr * Z * ptr) :=
  root ← mgets (λ s, rootproc (fk s));
  let '(p, fd) :=
    if fd >=? O_GLOBAL_HANDLE then (root, fd - O_GLOBAL_HANDLE) else (p, fd) in
  r ← fp_get1 p fd;
  mret match r with inl e => inl e | inr f => inr (p, fd, f) end.

Definition do_dup (fd min cmd : Z) : M fstate Z :=
  c ← current;
  r ← fd_alloc c min;
  match r with
  | inl e => mret e
  | inr newfd =>
      g ← fp_get c fd;
      match g with
      | inl e => fd_remove c newfd ;; mret e
      | inr (_, _, f) =>
          fp_done c f newfd (if cmd =? 0 then 0 else FD_CLOEXEC) ;;
          modf f (λ r, set_f_links (s16 (f_links r + 1)) r) ;;
          mret newfd
      end
  end.

(** ** Closing *)

(** What closing calls: the device driver, the terminal code, the file system.
    [dev_ioctl] returns its result and the long at the buffer. *)
Class DevCalls := {
  dev_unselect : ptr → ptr → Z → M fstate unit;
  dev_ioctl : ptr → Z → Z → M fstate (Z * Z);
  tty_ioctl : ptr → Z → M fstate unit;
  xdd_close : ptr → Z → M fstate Z;
  release_cookie : fcookie → M fstate unit;
  other_fcntl : ptr → Z → Z → M fstate Z
}.

Section descriptors.
Context `{DevCalls}.

Definition is_terminal (r : fileptr) : bool := has (f_flags r) O_TTY.

(** [(struct tty * ) f->devinfo] *)
Definition tty_of (r : fileptr) : M fstate ptr :=
  match f_devinfo r with Zpos t => mret t | _ => mpanic end.

(** [t->arg = v] *)
Definition set_arg (a : taddr) (v : Z) (s : tstate Z) : tstate Z :=
  set_tlist ((λ t, if bool_decide (t_addr t = a)
                   then mk_timeout (t_addr t) (t_proc t) (t_when t) (t_func t) v else t)
             <$> tlist s) s.

(** The condition that starts a hangup; the timeout of the hangup and the output
    speed if it holds.  [mem] is the memory of the timeout. *)
Definition start_hangup (mem : option ptr) (f : ptr) (r : fileptr) (t : tty) :
    M fstate (option (taddr * Z)) :=
  if has (tt_state t) TS_HPCL && (tt_hup_ospeed t =? 0) && negb (has (f_flags r) O_HEAD) then
    '(e, ospeed) ← dev_ioctl f TIOCOBAUD (-1);
    if e >=? 0 then
      root ← mgets (λ s, rootproc (fk s));
      a ← on_kernel (mlift ktimers set_ktimers (addroottimeout mem root 500 hangup_b1_addr 0));
      mret ((λ a, (a, ospeed)) <$> a)
    else mret None
  else mret None.

(** The last close of a terminal. *)
Definition close_tty (mem : option ptr) (f : ptr) (r : fileptr) : M fstate unit :=
  t ← tty_of r;
  tt ← gett t;
  mwhen (tt_use_cnt tt - tt_aux_cnt tt <=? 1) (
    h ← start_hangup mem f r tt;
    match h with
    | Some (a, ospeed) =>
        modf f (set_f_links 1) ;;
        modt t (λ tt, set_tt_use_cnt (s16 (tt_use_cnt tt + 1)) tt) ;;
        on_kernel (mlift ktimers set_ktimers (mmod (set_arg a (Z.pos f)))) ;;
        dev_ioctl f TIOCCBRK 0 ;;
        modt t (set_tt_hup_ospeed (-1)) ;;
        tty_ioctl f TIOCSTOP ;;
        tty_ioctl f TIOCFLUSH ;;
        mwhen (ospeed >? 0) (
          modt t (set_tt_hup_ospeed ospeed) ;;
          dev_ioctl f TIOCOBAUD 0 ;; mret ())
    | None => modt t (set_tt_pgrp 0)
    end) ;;
  modt t (λ tt, set_tt_use_cnt (s16 (tt_use_cnt tt - 1)) tt) ;;
  modt t (λ tt, if (tt_use_cnt tt <=? 0) && tt_xkey tt then set_tt_xkey false tt else tt).

Definition do_close (mem : option ptr) (p : ptr) (o : option ptr) : M fstate Z :=
  match o with
  | None => mret EBADF
  | Some f =>
      if bool_decide (Some f = reserved) then mret E_OK
      else
        r ← getf f;
        mwhen (f_dev r) (
          dev_unselect f p O_RDONLY ;;
          dev_unselect f p O_WRONLY ;;
          dev_unselect f p O_RDWR ;;
          on_kernel (wake SELECT_Q select_coll_addr)) ;;
        modf f (λ r, set_f_links (s16 (f_links r - 1)) r) ;;
        r ← getf f;
        mwhen (is_terminal r && (f_links r <=? 0)) (close_tty mem f r) ;;
        r ← getf f;
        rp ← on_kernel (getp p);
        e ← (if f_dev r then xdd_close f (pid rp) else mret E_OK);
        r ← getf f;
        mwhen (f_links r <=? 0) (release_cookie (f_fc r) ;; fp_free f) ;;
        mret e
  end.

(** ** System calls *)

Definition sys_f_dup (fd : Z) : M fstate Z := do_dup fd 0 0.

(** Fforce on the controlling terminal. *)
Definition force_control (p f : ptr) (r : fileptr) : M fstate unit :=
  t ← tty_of r;
  tt ← gett t;
  mwhen (tt_pgrp tt =? 0) (
    rp ← on_kernel (getp p);
    modt t (set_tt_pgrp (pgrp rp)) ;;
    mwhen (negb (has (f_flags r) O_NDELAY) && has (tt_state tt) TS_BLIND)
      (dev_ioctl f TIOCWONLINE 0 ;; mret ())).

Definition sys_f_force (mem : option ptr) (newfd oldfd : Z) : M fstate Z :=
  c ← current;
  g ← fp_get c oldfd;
  match g with
  | inl e => mret e
  | inr (p, _, f) =>
      fd ← getfd p;
      if (newfd <? MIN_HANDLE) || (newfd >=? nfiles fd) then mret EBADF
      else
        o ← mderef (λ _, slot fd newfd);
        do_close mem p o ;;
        modfd p (set_slot newfd (Some f)) ;;
        modfd p (set_slot_flags newfd 0) ;;
        modf f (λ r, set_f_links (s16 (f_links r + 1)) r) ;;
        r ← getf f;
        mwhen (is_terminal r && (newfd =? -1) && negb (has (f_flags r) O_HEAD))
          (force_control p f r) ;;
        mret E_OK
  end.

(** The end of Fclose, for the file [f] of the handle [fd]. *)
Definition close_handle (mem : option ptr) (p : ptr) (fd : Z) (f : ptr) : M fstate Z :=
  r ← do_close mem p (Some f);
  fd_remove p fd ;;
  mret r.

(** Fcntl; [other_fcntl] are the commands of the file system and the device. *)
Definition sys_f_cntl (fd arg cmd : Z) : M fstate Z :=
  c ← current;
  if (cmd =? F_DUPFD) || (cmd =? F_DUPFD_CLOEXEC) then
    do_dup fd (s16 arg) (if cmd =? F_DUPFD_CLOEXEC then 1 else 0)
  else
    g ← fp_get c fd;
    match g with
    | inl e => mret e
    | inr (p, fd, f) =>
        if cmd =? F_GETFD then
          t ← getfd p; mderef (λ _, ofileflags t !! Z.to_nat (fd - MIN_HANDLE))
        else if cmd =? F_SETFD then modfd p (set_slot_flags fd (u8 arg)) ;; mret E_OK
        else if cmd =? F_GETFL then r ← getf f; mret (Z.land (f_flags r) O_USER)
        else if cmd =? F_SETFL then
          r ← getf f;
          let arg := Z.land (u32 arg) O_USER in
          let arg := Z.land arg (not32 (Z.lor O_RWMODE O_SHMODE)) in
          let arg := Z.lor arg (Z.land (f_flags r) (Z.lor O_RWMODE O_SHMODE)) in
          modf f (λ r, set_f_flags (Z.lor (Z.land (f_flags r) (not16 O_USER)) arg) r) ;;
          mret E_OK
        else other_fcntl f cmd arg
    end.
End descriptors.

(** ** References

    The number of handles for a file, over all the tables. *)

Definition count (f : ptr) (t : filedesc) : Z :=
  Z.of_nat (length (filter (λ o, o = Some f) (ofiles t))).
Definition refs_in (m : gmap ptr filedesc) (f : ptr) : Z :=
  map_fold (λ _ t n, count f t + n) 0 m.
Definition refs (s : fstate) (f : ptr) : Z := refs_in (filedescs s) f.

(** The descriptor tables and the open files: every handle is for an open file,
    and a file has as many links as handles. *)
Record fds_ok (s : fstate) : Prop := {
  fo_table p d : p_fd s !! p = Some d → is_Some (filedescs s !! d);
  fo_len d t : filedescs s !! d = Some t →
    length (ofiles t) = Z.to_nat (nfiles t - MIN_HANDLE) ∧
    length (ofileflags t) = Z.to_nat (nfiles t - MIN_HANDLE) ∧ 0 ≤ nfiles t < 16384;
  fo_open d t f : filedescs s !! d = Some t → Some f ∈ ofiles t → Some f ≠ reserved →
    is_Some (files s !! f);
  fo_links f r : files s !! f = Some r → Some f ≠ reserved ∧ f_links r = refs s f
}.

Lemma refs_in_split m d t f :
  m !! d = Some t → refs_in m f = count f t + refs_in (delete d m) f.
Proof.
  intros Hd. unfold refs_in.
  rewrite (map_fold_delete_L (λ _ t n, count f t + n) 0 d t m); [done| |done].
  intros. lia.
Qed.

Lemma refs_in_insert m d t t' f :
  m !! d = Some t → refs_in (<[d := t']> m) f = refs_in m f - count f t + count f t'.
Proof.
  intros Hd. rewrite (refs_in_split m d t f Hd), (refs_in_split _ d t' f).
  2: apply lookup_insert_eq.
  rewrite delete_insert_eq. lia.
Qed.

Lemma refs_in_nonneg m f : 0 ≤ refs_in m f.
Proof.
  unfold refs_in. apply (map_fold_weak_ind (λ n _, 0 ≤ n)); [done|].
  intros. unfold count. lia.
Qed.

(** What one entry of a table contributes. *)
Definition one (f : ptr) (o : option ptr) : Z := if decide (o = Some f) then 1 else 0.

Lemma count_insert f l i o o' :
  l !! i = Some o →
  Z.of_nat (length (filter (λ o, o = Some f) (<[i := o']> l))) =
    Z.of_nat (length (filter (λ o, o = Some f) l)) - one f o + one f o'.
Proof.
  intros Hl. rewrite insert_take_drop by (by eapply lookup_lt_Some).
  rewrite <- (take_drop_middle l i o Hl) at 3.
  rewrite !filter_app, !length_app, !filter_cons. unfold one.
  repeat case_decide; cbn; lia.
Qed.

Lemma slot_index t i o :
  slot t i = Some o → MIN_HANDLE ≤ i ∧ ofiles t !! Z.to_nat (i - MIN_HANDLE) = Some o.
Proof. unfold slot. destruct (Z.ltb_spec i MIN_HANDLE); [done|]. done. Qed.

Lemma count_set_slot f t i o o' :
  slot t i = Some o → count f (set_slot i o' t) = count f t - one f o + one f o'.
Proof. intros [_ Hs]%slot_index. by apply count_insert. Qed.

Lemma count_flags f t i v : count f (set_slot_flags i v t) = count f t.
Proof. done. Qed.

Lemma slot_set_slot t i o o' :
  slot t i = Some o → slot (set_slot i o' t) i = Some o'.
Proof.
  intros Hs. pose proof (slot_index _ _ _ Hs) as [Hi Hl]. unfold slot in *.
  replace (i <? MIN_HANDLE) with false by lia.
  apply list_lookup_insert_eq. by eapply lookup_lt_Some.
Qed.

Lemma slot_set_slot_ne t i j o' :
  i ≠ j → MIN_HANDLE ≤ i → slot (set_slot i o' t) j = slot t j.
Proof.
  intros Hne Hi. unfold slot, set_slot. cbn. destruct (Z.ltb_spec j MIN_HANDLE); [done|].
  apply list_lookup_insert_ne. lia.
Qed.

Lemma set_slot_slot t i o o' :
  slot t i = Some o → set_slot i o (set_slot i o' t) = t.
Proof.
  intros [Hi Hl]%slot_index. destruct t as [l fl n]. unfold set_slot. cbn in *.
  rewrite list_insert_insert_eq. by rewrite list_insert_id.
Qed.

Lemma slot_some s d t i :
  fds_ok s → filedescs s !! d = Some t → MIN_HANDLE ≤ i < nfiles t → is_Some (slot t i).
Proof.
  intros Hok Hd Hi. destruct (fo_len s Hok d t Hd) as (Hl & _). unfold slot.
  replace (i <? MIN_HANDLE) with false by lia.
  apply lookup_lt_is_Some. rewrite Hl. unfold MIN_HANDLE in *. lia.
Qed.

(** ** Changing a table *)

(** The state with another table. *)
Definition with_table (d : ptr) (t : filedesc) (s : fstate) : fstate :=
  set_filedescs (<[d := t]> (filedescs s)) s.

Section running.
Context (s : fstate) (p d : ptr) (t : filedesc).
Context (Hp : p_fd s !! p = Some d) (Hd : filedescs s !! d = Some t).

Lemma getfd_run : getfd p s = Some (t, s).
Proof. apply mderef_run. rewrite Hp. cbn. by rewrite Hd. Qed.

Lemma modfd_run g : modfd p g s = Some ((), with_table d (g t) s).
Proof. unfold modfd. rewrite Hp. cbn. by rewrite Hd. Qed.

Lemma with_table_with_table t1 t2 : with_table d t2 (with_table d t1 s) = with_table d t2 s.
Proof. unfold with_table. cbn. by rewrite insert_insert_eq. Qed.

Lemma with_table_id : with_table d t s = s.
Proof. unfold with_table. rewrite insert_id by done. by destruct s. Qed.

Lemma refs_with_table t' f : refs (with_table d t' s) f = refs s f - count f t + count f t'.
Proof. by apply refs_in_insert. Qed.
End running.

Lemma with_table_lookup s d t : filedescs (with_table d t s) !! d = Some t.
Proof. apply lookup_insert_eq. Qed.

(** The first free handle. *)
Lemma fd_scan_some t min i :
  MIN_HANDLE ≤ min → fd_scan t min = Some i →
  min ≤ i < nfiles t ∧ slot t i = Some None ∧
  ∀ j, min ≤ j < i → ∃ f, slot t j = Some (Some f).
Proof.
  intros Hmin. unfold fd_scan. destruct (list_find _ _) as [[n o]|] eqn:E; [|done].
  apply list_find_Some in E as (Hl & -> & Hbefore). intros [= <-]. cbn.
  apply lookup_take_Some in Hl as [Hl Hn]. rewrite lookup_drop in Hl.
  assert (Hidx : ∀ k, (Z.to_nat (min - MIN_HANDLE) + k)%nat
    = Z.to_nat (min + Z.of_nat k - MIN_HANDLE)) by (unfold MIN_HANDLE in *; lia).
  split; [lia|]. split.
  - unfold slot. replace (min + Z.of_nat n <? MIN_HANDLE) with false by lia.
    by rewrite <- Hidx.
  - intros j Hj. pose proof (lookup_lt_Some _ _ _ Hl) as Hlt.
    replace j with (min + Z.of_nat (Z.to_nat (j - min))) by lia. set (k := Z.to_nat (j - min)).
    destruct (ofiles t !! (Z.to_nat (min - MIN_HANDLE) + k)%nat) as [o|] eqn:Ek.
    2: { apply lookup_ge_None in Ek. lia. }
    destruct o as [f|].
    2: { exfalso. apply (Hbefore k None); [|lia|done].
         apply lookup_take_Some. split; [by rewrite lookup_drop|lia]. }
    exists f. unfold slot. replace (min + Z.of_nat k <? MIN_HANDLE) with false by lia.
    by rewrite <- Hidx.
Qed.

Lemma fd_scan_none s d t min j :
  fds_ok s → filedescs s !! d = Some t →
  MIN_HANDLE ≤ min → fd_scan t min = None → min ≤ j < nfiles t → slot t j ≠ Some None.
Proof.
  intros Hok Hd Hmin Hs Hj. unfold fd_scan in Hs. apply fmap_None in Hs.
  apply list_find_None in Hs. unfold slot.
  destruct (Z.ltb_spec j MIN_HANDLE); [done|]. intros Hl.
  rewrite Forall_lookup in Hs. apply (Hs (Z.to_nat (j - min)) None); [|done].
  apply lookup_take_Some. split; [|lia]. rewrite lookup_drop, <- Hl. f_equal.
  unfold MIN_HANDLE in *. lia.
Qed.

(** ** Handles *)

(** The open file of a handle. *)
Definition handle (s : fstate) (p : ptr) (i : Z) : option ptr :=
  d ← p_fd s !! p;
  t ← filedescs s !! d;
  if i <? nfiles t then
    match slot t i with
    | Some (Some f) => if bool_decide (Some f = reserved) then None else Some f
    | _ => None
    end
  else None.

(** The process and the index that a handle stands for: a global handle is one of
    the root process. *)
Definition target (s : fstate) (c : ptr) (i : Z) : ptr * Z :=
  if i >=? O_GLOBAL_HANDLE then (rootproc (fk s), i - O_GLOBAL_HANDLE) else (c, i).

Lemma fp_get1_run s p i :
  fp_get1 p i s =
    Some (match handle s p i with Some f => inr f | None => inl EBADF end, s).
Proof.
  unfold fp_get1, handle, slot. destruct (p_fd s !! p) as [d|]; cbn; [|by case_bool].
  destruct (filedescs s !! d) as [t|]; cbn; [|by case_bool].
  destruct (i <? MIN_HANDLE); [by destruct (i <? nfiles t)|].
  rewrite Z.geb_leb. destruct (Z.ltb_spec i (nfiles t)).
  - replace (nfiles t <=? i) with false by lia.
    by destruct (ofiles t !! _) as [[f|]|].
  - by replace (nfiles t <=? i) with true by lia.
Qed.

Lemma fp_get_run s c i :
  fp_get c i s =
    Some (match handle s (target s c i).1 (target s c i).2 with
          | Some f => inr ((target s c i).1, (target s c i).2, f)
          | None => inl EBADF
          end, s).
Proof.
  unfold fp_get. erewrite bind_run by done. unfold target. destruct (i >=? O_GLOBAL_HANDLE).
  all: erewrite bind_run by apply fp_get1_run; cbn; by destruct (handle _ _ _).
Qed.

(** A slot that holds no file is no handle. *)
Lemma handle_with_table s d t n o :
  filedescs s !! d = Some t → slot t n = Some None → o = None ∨ o = reserved →
  ∀ p i, handle (with_table d (set_slot n o t) s) p i = handle s p i.
Proof.
  intros Hd Hn Ho p i. unfold handle, with_table. cbn.
  destruct (p_fd s !! p) as [d'|]; [|done]. cbn.
  destruct (decide (d' = d)) as [->|Hne].
  2: by rewrite lookup_insert_ne.
  rewrite lookup_insert_eq, Hd. cbn. destruct (i <? nfiles t); [|done].
  destruct (decide (i = n)) as [->|Hi].
  - rewrite (slot_set_slot _ _ _ _ Hn), Hn. by destruct Ho as [-> | ->].
  - rewrite slot_set_slot_ne; [done|done|]. by apply slot_index in Hn as [? _].
Qed.

Lemma handle_file s p i f :
  fds_ok s → handle s p i = Some f →
  Some f ≠ reserved ∧ ∃ r, files s !! f = Some r ∧ f_links r = refs s f.
Proof.
  intros Hok Hh. unfold handle in Hh. destruct (p_fd s !! p) as [d|]; [|done]. cbn in Hh.
  destruct (filedescs s !! d) as [t|] eqn:Hd; [|done]. cbn in Hh.
  destruct (i <? nfiles t); [|done]. destruct (slot t i) as [[g|]|] eqn:Hs; [|done..].
  case_bool_decide as Hres; [done|]. injection Hh as ->. split; [done|].
  apply slot_index in Hs as [_ Hs]. apply list_elem_of_lookup_2 in Hs.
  destruct (fo_open s Hok d t f Hd Hs Hres) as [r Hr]. exists r. split; [done|].
  by destruct (fo_links s Hok f r Hr).
Qed.

Lemma handle_slot s p d t i f :
  p_fd s !! p = Some d → filedescs s !! d = Some t → handle s p i = Some f →
  i < nfiles t ∧ slot t i = Some (Some f).
Proof.
  intros Hp Hd. unfold handle. rewrite Hp. cbn. rewrite Hd. cbn.
  destruct (Z.ltb_spec i (nfiles t)); [|done].
  destruct (slot t i) as [[g|]|]; [|done..]. case_bool_decide; [done|]. by intros [= ->].
Qed.

Lemma fd_alloc_run s p d t min :
  fds_ok s → p_fd s !! p = Some d → filedescs s !! d = Some t → MIN_HANDLE ≤ min →
  fd_alloc p min s =
    match fd_scan t min with
    | Some i => Some (inr i, with_table d (set_slot i reserved t) s)
    | None => Some (inl EMFILE, s)
    end.
Proof.
  intros Hok Hp Hd Hmin. unfold fd_alloc. erewrite bind_run by (by eapply getfd_run).
  erewrite bind_run by (apply massert_run; lia).
  destruct (fd_scan t min) as [i|]; [|done].
  by erewrite bind_run by (by eapply modfd_run).
Qed.

Lemma fd_remove_run s p d t i o :
  p_fd s !! p = Some d → filedescs s !! d = Some t → slot t i = Some o →
  fd_remove p i s = Some ((), with_table d (set_slot i None t) s).
Proof.
  intros Hp Hd Hs. unfold fd_remove. erewrite bind_run by (by eapply getfd_run).
  erewrite bind_run by (apply massert_run; rewrite Hs; by apply bool_decide_eq_true).
  by eapply modfd_run.
Qed.

Lemma fp_done_run s p d t f i v :
  p_fd s !! p = Some d → filedescs s !! d = Some t → slot t i = Some reserved →
  fp_done p f i v s =
    Some ((), with_table d (set_slot_flags i v (set_slot i (Some f) t)) s).
Proof.
  intros Hp Hd Hs. unfold fp_done. erewrite bind_run by (by eapply getfd_run).
  erewrite bind_run by (apply massert_run; by apply bool_decide_eq_true).
  erewrite bind_run by (by eapply modfd_run).
  erewrite modfd_run; [|done|apply with_table_lookup].
  by rewrite with_table_with_table.
Qed.

(** Giving a handle to a file, and taking one from it. *)
Definition linked_file (f : ptr) (r : fileptr) (n : Z) (s : fstate) : fstate :=
  set_files (<[f := set_f_links n r]> (files s)) s.

Lemma fds_ok_add s d t i f r v :
  fds_ok s → filedescs s !! d = Some t → slot t i = Some None →
  files s !! f = Some r →
  fds_ok (linked_file f r (f_links r + 1)
    (with_table d (set_slot_flags i v (set_slot i (Some f) t)) s)).
Proof.
  intros Hok Hd Hs Hf. destruct (fo_links s Hok f r Hf) as [Hres Hl].
  assert (Hrefs : ∀ g, refs (with_table d (set_slot_flags i v (set_slot i (Some f) t)) s) g
    = refs s g + one g (Some f)).
  { intros g. rewrite (refs_with_table s d t Hd).
    rewrite count_flags, (count_set_slot _ _ _ _ _ Hs). unfold one. rewrite decide_False by done. lia. }
  split.
  - intros p d' Hp. cbn. destruct (decide (d' = d)) as [->|Hne].
    + rewrite lookup_insert_eq. eauto.
    + rewrite lookup_insert_ne by done. by eapply (fo_table s Hok).
  - intros d' t'. cbn. destruct (decide (d' = d)) as [->|Hne].
    + rewrite lookup_insert_eq. intros [= <-]. cbn. rewrite !length_insert.
      by apply (fo_len s Hok d).
    + rewrite lookup_insert_ne by done. apply (fo_len s Hok).
  - intros d' t' g. cbn. rewrite lookup_insert_is_Some.
    destruct (decide (d' = d)) as [->|Hne].
    + rewrite lookup_insert_eq. intros [= <-]. cbn.
      intros [Hg|Hg]%list_insert_elem Hr; [left; congruence|].
      destruct (decide (f = g)); [by left|right]. split; [done|].
      by eapply (fo_open s Hok d t).
    + rewrite lookup_insert_ne by done. intros Ht Hg Hr.
      destruct (decide (f = g)); [by left|right]. split; [done|]. by eapply (fo_open s Hok).
  - intros g rg. cbn. change (refs (linked_file ?f ?r ?n ?x) g) with (refs x g).
    rewrite Hrefs. unfold one. destruct (decide (g = f)) as [->|Hne].
    + rewrite lookup_insert_eq, decide_True by done. intros [= <-].
      split; [done|cbn; lia].
    + rewrite lookup_insert_ne, decide_False by congruence. intros Hg.
      destruct (fo_links s Hok g rg Hg). split; [done|lia].
Qed.

(** The handles after a slot was given to [f]. *)
Lemma handle_add s d t n f r v :
  filedescs s !! d = Some t → slot t n = Some None →
  let s' := linked_file f r (f_links r + 1)
    (with_table d (set_slot_flags n v (set_slot n (Some f) t)) s) in
  (∀ p, p_fd s !! p = Some d → n < nfiles t → Some f ≠ reserved → handle s' p n = Some f) ∧
  (∀ p i, p_fd s !! p ≠ Some d ∨ i ≠ n → handle s' p i = handle s p i).
Proof.
  intros Hd Hs s'. pose proof (slot_index _ _ _ Hs) as [Hmin _].
  assert (Hslot : ∀ i, slot (set_slot_flags n v (set_slot n (Some f) t)) i
    = slot (set_slot n (Some f) t) i) by done.
  split.
  - intros p Hp Hn Hf. unfold handle, s'. cbn. rewrite Hp. cbn. rewrite lookup_insert_eq. cbn.
    replace (n <? nfiles t) with true by lia.
    rewrite Hslot, (slot_set_slot _ _ None) by done. by rewrite bool_decide_false.
  - intros p i Hi. unfold handle, s'. cbn. destruct (p_fd s !! p) as [d'|]; [|done]. cbn.
    destruct (decide (d' = d)) as [->|Hne]; [|by rewrite lookup_insert_ne].
    rewrite lookup_insert_eq, Hd. cbn.
    by rewrite Hslot, slot_set_slot_ne by (done || naive_solver).
Qed.

Lemma do_dup_run s c d t n f r v :
  fds_ok s → p_fd s !! c = Some d → filedescs s !! d = Some t → slot t n = Some None →
  files s !! f = Some r → refs s f < 32767 →
  (fp_done c f n v ;; modf f (λ r, set_f_links (s16 (f_links r + 1)) r) ;; mret n :
      M fstate Z) (with_table d (set_slot n reserved t) s) =
  Some (n, linked_file f r (f_links r + 1)
    (with_table d (set_slot_flags n v (set_slot n (Some f) t)) s)).
Proof.
  intros Hok Hp Hd Hs Hf Href. destruct (fo_links s Hok f r Hf) as [_ Hl].
  pose proof (refs_in_nonneg (filedescs s) f) as Hnn. fold (refs s f) in Hnn.
  erewrite bind_run.
  2: { apply fp_done_run; [done|apply with_table_lookup|by apply (slot_set_slot _ _ None)]. }
  rewrite with_table_with_table.
  replace (set_slot n (Some f) (set_slot n reserved t)) with (set_slot n (Some f) t).
  2: { unfold set_slot. destruct t. cbn. by rewrite list_insert_insert_eq. }
  erewrite bind_run by (unfold modf; cbn; by rewrite Hf).
  rewrite ret_run, s16_id by lia. done.
Qed.

(** C27: Duplicating a handle.  The new handle is the lowest free one from [min] on;
    it stands for the same open file, which has one more link, and every other
    handle keeps its file.  Without a free handle, or for a handle that is not
    open, the error leaves the tables as they were. *)
Theorem do_dup_spec s d t fd min cmd :
  fds_ok s → p_fd s !! curproc (fk s) = Some d → filedescs s !! d = Some t →
  MIN_HANDLE ≤ min → (∀ f, refs s f < 32767) →
  let c := curproc (fk s) in
  ((∀ i, min ≤ i < nfiles t → slot t i ≠ Some None) ∧ do_dup fd min cmd s = Some (EMFILE, s)) ∨
  (∃ n, min ≤ n < nfiles t ∧ slot t n = Some None ∧
    (∀ i, min ≤ i < n → slot t i ≠ Some None) ∧
    match handle s (target s c fd).1 (target s c fd).2 with
    | None => do_dup fd min cmd s = Some (EBADF, s)
    | Some f => ∃ s' t',
        do_dup fd min cmd s = Some (n, s') ∧ fds_ok s' ∧ fk s' = fk s ∧
        filedescs s' !! d = Some t' ∧
        ofileflags t' !! Z.to_nat (n - MIN_HANDLE) = Some (if cmd =? 0 then 0 else FD_CLOEXEC) ∧
        handle s' c n = Some f ∧ refs s' f = refs s f + 1 ∧
        ∀ p i, p_fd s !! p ≠ Some d ∨ i ≠ n → handle s' p i = handle s p i
    end).
Proof.
  intros Hok Hp Hd Hmin Href c.
  pose proof (fd_alloc_run s c d t min Hok Hp Hd Hmin) as Ha.
  set (v := if cmd =? 0 then 0 else FD_CLOEXEC).
  destruct (fd_scan t min) as [n|] eqn:Hscan.
  2: { left. split; [intros i; by eapply (fd_scan_none s d)|].
       unfold do_dup. erewrite (bind_run current) by done. by erewrite bind_run by apply Ha. }
  destruct (fd_scan_some t min n Hmin Hscan) as (Hn & Hs & Hlow). right. exists n.
  split; [done|]. split; [done|]. split; [intros i Hi; destruct (Hlow i Hi); congruence|].
  pose proof (fp_get_run (with_table d (set_slot n reserved t) s) c fd) as Hg.
  change (target (with_table d (set_slot n reserved t) s) c fd) with (target s c fd) in Hg.
  rewrite (handle_with_table s d t n reserved Hd Hs) in Hg by auto.
  destruct (handle s _ _) as [f|] eqn:Hh.
  - destruct (handle_file s _ _ f Hok Hh) as (Hres & r & Hf & Hl).
    eexists _, _. split.
    { unfold do_dup. erewrite (bind_run current) by done. erewrite bind_run by apply Ha.
      cbv beta iota. erewrite bind_run by apply Hg. cbv beta iota. by eapply do_dup_run. }
    split; [by apply fds_ok_add|]. split; [done|]. split; [apply lookup_insert_eq|].
    destruct (handle_add s d t n f r v Hd Hs) as [Heq Hne].
    split; [|split; [|split]].
    + apply list_lookup_insert_eq. destruct (fo_len s Hok d t Hd) as (_ & E & _).
      cbn. rewrite E. unfold MIN_HANDLE in *. lia.
    + apply Heq; [done|lia|done].
    + change (refs (linked_file ?f ?r ?n ?x) f) with (refs x f).
      rewrite (refs_with_table s d t Hd).
      rewrite count_flags, (count_set_slot _ _ _ _ _ Hs). unfold one.
      rewrite decide_False, decide_True by done. lia.
    + apply Hne.
  - unfold do_dup. erewrite (bind_run current) by done. erewrite bind_run by apply Ha.
    cbv beta iota. erewrite bind_run by apply Hg. cbv beta iota. erewrite bind_run.
    2: { eapply fd_remove_run; [done|apply with_table_lookup|].
         by apply (slot_set_slot _ _ None). }
    rewrite with_table_with_table, (set_slot_slot _ _ _ _ Hs).
    by rewrite (with_table_id s _ d t Hp Hd).
Qed.

(** ** Closing *)

(** What the descriptors need of an open file. *)
Definition key (r : fileptr) : Z * bool * bool := (f_links r, has (f_flags r) O_TTY, f_dev r).
Definition keys (s : fstate) : gmap ptr (Z * bool * bool) := key <$> files s.

Definition same_fds (s s' : fstate) : Prop :=
  p_fd s' = p_fd s ∧ filedescs s' = filedescs s ∧ keys s' = keys s.
(** The process [p] exists, and the process queues are well-formed. *)
Definition kernel_ok (s : fstate) (p : ptr) : Prop :=
  is_Some (procs (fk s) !! p) ∧ ∃ Q, queues_ok (fk s) Q.
Definition quiet {A} (p : ptr) (c : M fstate A) : Prop :=
  ∀ s, kernel_ok s p → ∃ a s', c s = Some (a, s') ∧ same_fds s s' ∧ kernel_ok s' p.

(** Device drivers and file systems do not touch the descriptor tables and the
    links of the files. *)
Class DevCallsOk `{DevCalls} : Prop := {
  unselect_quiet p f q m : quiet p (dev_unselect f q m);
  close_quiet p f n : quiet p (xdd_close f n);
  release_quiet p c : quiet p (release_cookie c)
}.

Lemma same_fds_refl s : same_fds s s.
Proof. done. Qed.

Lemma same_fds_trans s1 s2 s3 : same_fds s1 s2 → same_fds s2 s3 → same_fds s1 s3.
Proof. unfold same_fds. intros (? & ? & ?) (? & ? & ?). repeat split; congruence. Qed.

Lemma quiet_bind {A B} p (c : M fstate A) (k : A → M fstate B) :
  quiet p c → (∀ a, quiet p (k a)) → quiet p (c ≫= k).
Proof.
  intros Hc Hk s Hs. destruct (Hc s Hs) as (a & s1 & E1 & H1 & Hs1).
  destruct (Hk a s1 Hs1) as (b & s2 & E2 & H2 & Hs2). exists b, s2.
  split; [by erewrite bind_run|]. split; [by eapply same_fds_trans|done].
Qed.

Lemma quiet_ret {A} p (a : A) : quiet p (mret a).
Proof. intros s Hs. exists a, s. split; [done|]. by split. Qed.

Lemma quiet_when p b c : quiet p c → quiet p (mwhen b c).
Proof. intros Hc. destruct b; [done|apply quiet_ret]. Qed.

Lemma quiet_wake p que cond : READY_Q < que < NUM_QUEUES → quiet p (on_kernel (wake que cond)).
Proof.
  intros Hque s (Hp & Q & HQ).
  destruct (wake_ok (fk s) Q que cond HQ Hque) as (k' & E & HQ' & Hc & _).
  exists (), (set_fk k' s). split; [unfold on_kernel, mlift; by rewrite E|].
  split; [done|]. split; [|eauto]. by apply (cores_some _ _ p Hc).
Qed.

Lemma keys_lookup s f r : files s !! f = Some r → keys s !! f = Some (key r).
Proof. intros Hf. unfold keys. by rewrite lookup_fmap, Hf. Qed.

Lemma keys_inv s f x : keys s !! f = Some x → ∃ r, files s !! f = Some r ∧ key r = x.
Proof.
  unfold keys. rewrite lookup_fmap. destruct (files s !! f) as [r|]; [|done].
  intros [= <-]. by exists r.
Qed.

Section closing.
Context `{DevCallsOk}.

(** The rest of the state after [f] lost a link. *)
Definition unlinked (s s' : fstate) (f : ptr) : Prop :=
  p_fd s' = p_fd s ∧ filedescs s' = filedescs s ∧
  keys s' = match keys s !! f with
            | Some (n, t, d) => if n =? 1 then delete f (keys s) else <[f := (n - 1, t, d)]> (keys s)
            | None => keys s
            end.

Lemma keys_modf s f r n :
  keys (set_files (<[f := set_f_links n r]> (files s)) s)
  = <[f := (n, has (f_flags r) O_TTY, f_dev r)]> (keys s).
Proof. unfold keys. cbn. by rewrite fmap_insert. Qed.

(** A property that the calls keep, and that does not depend on the kernel, on the numbers
    of links, and on files that are released *)
Definition calm (I : fstate → Prop) {A} (c : M fstate A) : Prop :=
  ∀ s a s', c s = Some (a, s') → I s → I s'.
Class Calm (I : fstate → Prop) : Prop := {
  calm_kernel s k : I s → I (set_fk k s);
  calm_links s f r n :
    files s !! f = Some r → I s → I (set_files (<[f := set_f_links n r]> (files s)) s);
  calm_free s f : I s → I (set_files (delete f (files s)) s);
  calm_unselect f q m : calm I (dev_unselect f q m);
  calm_close f n : calm I (xdd_close f n);
  calm_release c : calm I (release_cookie c)
}.
#[export] Instance calm_any : Calm (λ _, True).
Proof. by split. Qed.

Lemma calm_bind I {A B} (c : M fstate A) (k : A → M fstate B) :
  calm I c → (∀ a, calm I (k a)) → calm I (c ≫= k).
Proof. intros Hc Hk s b s' (a & s1 & E1 & E2)%bind_inv Hs. eapply Hk, Hc; eauto. Qed.

Lemma calm_ret I {A} (a : A) : calm I (mret a).
Proof. by intros s b s' [= <- <-]. Qed.

Lemma calm_wake I `{!Calm I} que cond : calm I (on_kernel (wake que cond)).
Proof.
  intros s a s'. unfold on_kernel, mlift. destruct (wake que cond (fk s)) as [[? k]|]; [|done].
  intros [= <- <-]. by apply calm_kernel.
Qed.

(** A call returns, and keeps [I]. *)
Definition good (I : fstate → Prop) {A} (p : ptr) (c : M fstate A) : Prop :=
  ∀ s, kernel_ok s p → I s →
    ∃ a s', c s = Some (a, s') ∧ same_fds s s' ∧ kernel_ok s' p ∧ I s'.

Lemma quiet_good I {A} p (c : M fstate A) : quiet p c → calm I c → good I p c.
Proof.
  intros Hq Hc s Hk Hs. destruct (Hq s Hk) as (a & s' & E & ? & ?).
  exists a, s'. repeat (split; [done|]). by eapply Hc.
Qed.

Lemma unselect_good I `{!Calm I} p f r :
  good I p (mwhen (f_dev r) (
    dev_unselect f p O_RDONLY ;; dev_unselect f p O_WRONLY ;; dev_unselect f p O_RDWR ;;
    on_kernel (wake SELECT_Q select_coll_addr))).
Proof.
  destruct (f_dev r); cbn [mwhen]; [|apply quiet_good; [apply quiet_ret|apply calm_ret]].
  apply quiet_good.
  - repeat (apply quiet_bind; [apply unselect_quiet|intros _]). by apply quiet_wake.
  - repeat (apply calm_bind; [apply calm_unselect|intros _]). by apply calm_wake.
Qed.

Lemma dev_close_good I `{!Calm I} p f r n :
  good I p (if f_dev r then xdd_close f n else mret E_OK).
Proof.
  destruct (f_dev r); apply quiet_good;
    [apply close_quiet|apply calm_close|apply quiet_ret|apply calm_ret].
Qed.

(** The file after a call that changes nothing of the descriptors *)
Lemma same_fds_file s s' f r :
  same_fds s s' → files s !! f = Some r → ∃ r', files s' !! f = Some r' ∧ key r' = key r.
Proof. intros (_ & _ & Hk) Hf%keys_lookup. rewrite <- Hk in Hf. by apply keys_inv. Qed.

(** Closing a file whose terminal, if it has one, does not hang up *)
Lemma do_close_gen I `{!Calm I} mem p f s r :
  kernel_ok s p → I s → files s !! f = Some r → Some f ≠ reserved → 0 < f_links r ≤ 32767 →
  (∀ s2 r2, files s2 !! f = Some r2 → I s2 → has (f_flags r2) O_TTY = has (f_flags r) O_TTY →
    ∃ s3, mwhen (is_terminal r2 && (f_links r2 <=? 0)) (close_tty mem f r2) s2 = Some (tt, s3) ∧
      same_fds s2 s3 ∧ fk s3 = fk s2 ∧ I s3) →
  ∃ e s', do_close mem p (Some f) s = Some (e, s') ∧ kernel_ok s' p ∧ unlinked s s' f ∧ I s'.
Proof.
  intros Hk Hi Hf Hres Hl Hterm. unfold do_close. rewrite bool_decide_false by done.
  erewrite bind_run by (by apply (mderef_run (λ s, files s !! f))).
  destruct (unselect_good I p f r s Hk Hi) as ([] & s1 & E1 & Hs1 & Hok1 & Hi1).
  erewrite bind_run by apply E1.
  destruct (same_fds_file s s1 f r Hs1 Hf) as (r1 & Hf1 & Hkr). injection Hkr as Hl1 Ht1 Hdv1.
  erewrite bind_run by (unfold modf; by rewrite Hf1).
  set (n := f_links r - 1). rewrite Hl1, s16_id by (unfold n; lia). fold n.
  pose proof (calm_links s1 f r1 n Hf1 Hi1) as Hi2. pose proof (keys_modf s1 f r1 n) as Hk2.
  set (s2 := set_files _ s1) in *. set (r2 := set_f_links n r1).
  assert (files s2 !! f = Some r2) as Hf2 by apply lookup_insert_eq.
  assert (kernel_ok s2 p ∧ p_fd s2 = p_fd s ∧ filedescs s2 = filedescs s) as (Hok2 & Hp2 & Hd2)
    by (destruct Hs1 as (? & ? & _); done).
  erewrite bind_run by (by apply (mderef_run (λ s, files s !! f))). clearbody s2.
  destruct (Hterm s2 r2 Hf2 Hi2 Ht1) as (s3 & E3 & Hs3 & Hfk & Hi3).
  erewrite bind_run by apply E3.
  destruct (same_fds_file s2 s3 f r2 Hs3 Hf2) as (r3 & Hf3 & Hkr3).
  injection Hkr3 as Hl3 Ht3 Hdv3. cbn in Hl3, Hdv3.
  erewrite bind_run by (by apply (mderef_run (λ s, files s !! f))).
  assert (kernel_ok s3 p) as Hok3 by (unfold kernel_ok; by rewrite Hfk).
  destruct (proj1 Hok3) as [rp Hrp].
  erewrite bind_run by (unfold on_kernel, mlift; cbn; by erewrite getp_run).
  replace (set_fk (fk s3) s3) with s3 by (by destruct s3).
  destruct (dev_close_good I p f r3 (pid rp) s3 Hok3 Hi3) as (e & s4 & E4 & Hs4 & Hok4 & Hi4).
  erewrite bind_run by apply E4.
  destruct (same_fds_file s3 s4 f r3 Hs4 Hf3) as (r4 & Hf4 & Hkr4). injection Hkr4 as Hl4 _ _.
  erewrite bind_run by (by apply (mderef_run (λ s, files s !! f))).
  destruct Hs1 as (_ & _ & Hk1), Hs3 as (Hp3 & Hd3 & Hk3), Hs4 as (Hp4 & Hd4 & Hk4).
  rewrite Hl4, Hl3. unfold unlinked. rewrite (keys_lookup s f r Hf). unfold key at 1.
  assert (keys s4 = <[f := (n, has (f_flags r) O_TTY, f_dev r)]> (keys s)) as Hk5 by congruence.
  destruct (Z.leb_spec n 0) as [Hn|Hn].
  - replace (f_links r =? 1) with true by lia.
    destruct (quiet_good I p _ (release_quiet p (f_fc r4)) (calm_release _) s4 Hok4 Hi4)
      as ([] & s5 & E5 & (Hp5 & Hd5 & Hk6) & Hok5 & Hi5).
    exists e, (set_files (delete f (files s5)) s5). split.
    { cbn [mwhen]. erewrite bind_run; [done|]. by erewrite bind_run by apply E5. }
    split; [done|]. split; [|by apply calm_free].
    split; [by cbn; congruence|]. split; [by cbn; congruence|].
    unfold keys in *. cbn. rewrite fmap_delete, Hk6, Hk5. by rewrite delete_insert_eq.
  - replace (f_links r =? 1) with false by lia. exists e, s4.
    repeat (split; [done|]). split; [|done].
    repeat (split; [congruence|]). exact Hk5.
Qed.

Lemma do_close_run mem p f s r :
  kernel_ok s p → files s !! f = Some r → Some f ≠ reserved →
  has (f_flags r) O_TTY = false → 0 < f_links r ≤ 32767 →
  ∃ e s', do_close mem p (Some f) s = Some (e, s') ∧ kernel_ok s' p ∧ unlinked s s' f.
Proof.
  intros Hk Hf Hres Htty Hl.
  destruct (do_close_gen (λ _, True) mem p f s r Hk I Hf Hres Hl) as (e & s' & ? & ? & ? & _).
  - intros s2 r2 _ _ Ht. unfold is_terminal. rewrite Ht, Htty. exists s2. by repeat split.
  - by exists e, s'.
Qed.

Lemma keys_some s f : is_Some (keys s !! f) ↔ is_Some (files s !! f).
Proof. unfold keys. by rewrite lookup_fmap, fmap_is_Some. Qed.

Lemma count_elem f t : Some f ∈ ofiles t → 1 ≤ count f t.
Proof.
  intros Hf. unfold count. assert (Some f ∈ filter (λ o, o = Some f) (ofiles t)) as Hin
    by (by apply list_elem_of_filter).
  apply list_elem_of_split in Hin as (l1 & l2 & E). rewrite E, length_app. cbn. lia.
Qed.

Lemma refs_in_elem m d t f : m !! d = Some t → Some f ∈ ofiles t → 1 ≤ refs_in m f.
Proof.
  intros Hd Hf%count_elem. rewrite (refs_in_split m d t f Hd).
  pose proof (refs_in_nonneg (delete d m) f). lia.
Qed.

(** A file that is not open has no handles. *)
Lemma refs_none s f : fds_ok s → files s !! f = None → Some f ≠ reserved → refs s f = 0.
Proof.
  intros Hok Hf Hres. destruct (decide (1 ≤ refs s f)) as [Hpos|Hpos].
  2: { pose proof (refs_in_nonneg (filedescs s) f). unfold refs in *. lia. }
  exfalso. assert (∃ d t, filedescs s !! d = Some t ∧ Some f ∈ ofiles t) as (d & t & Hd & Ht).
  { revert Hpos. unfold refs, refs_in.
    apply (map_fold_weak_ind (λ n m, 1 ≤ n → ∃ d t, m !! d = Some t ∧ Some f ∈ ofiles t));
      [lia|].
    intros d t m n Hm IH Hn. destruct (decide (Some f ∈ ofiles t)) as [Ht|Ht].
    - exists d, t. by rewrite lookup_insert_eq.
    - destruct IH as (d' & t' & Hd' & Ht').
      + revert Hn. unfold count. rewrite filter_none; [cbn; lia|].
        apply Forall_forall. intros o Ho ->. done.
      + exists d', t'. rewrite lookup_insert_ne; [done|congruence]. }
  destruct (fo_open s Hok d t f Hd Ht Hres). congruence.
Qed.

(** The state after [f] lost the handle [i] of the table [d]. *)
Lemma fds_ok_drop s s1 d t i f :
  fds_ok s → filedescs s !! d = Some t → slot t i = Some (Some f) → Some f ≠ reserved →
  unlinked s s1 f → fds_ok (with_table d (set_slot i None t) s1).
Proof.
  intros Hok Hd Hs Hres (Hp1 & Hd1 & Hk1).
  assert (Hf : Some f ∈ ofiles t)
    by (apply slot_index in Hs as [_ Hs]; by eapply list_elem_of_lookup_2).
  destruct (fo_open s Hok d t f Hd Hf Hres) as [r Hr].
  destruct (fo_links s Hok f r Hr) as [_ Hl].
  rewrite (keys_lookup s f r Hr) in Hk1. unfold key in Hk1.
  assert (filedescs s1 !! d = Some t) as Hd1' by by rewrite Hd1.
  assert (Hrefs : ∀ g, refs (with_table d (set_slot i None t) s1) g
    = refs s g - one g (Some f)).
  { intros g. rewrite (refs_with_table s1 d t Hd1'), (count_set_slot _ _ _ _ _ Hs).
    unfold refs. rewrite Hd1. unfold one. rewrite (decide_False (P := None = Some g)) by done.
    lia. }
  assert (H1 : refs s f - 1 = refs_in (<[d := set_slot i None t]> (filedescs s)) f).
  { change (refs_in _ f) with (refs (with_table d (set_slot i None t) s) f).
    rewrite (refs_with_table s d t Hd), (count_set_slot _ _ _ _ _ Hs). unfold one.
    rewrite decide_True, decide_False by done. lia. }
  split.
  - intros p d' Hp. cbn in *. rewrite Hp1 in Hp. rewrite Hd1.
    destruct (decide (d' = d)) as [->|Hne].
    + rewrite lookup_insert_eq. eauto.
    + rewrite lookup_insert_ne by done. by eapply (fo_table s Hok).
  - intros d' t'. cbn. rewrite Hd1. destruct (decide (d' = d)) as [->|Hne].
    + rewrite lookup_insert_eq. intros [= <-]. cbn. rewrite !length_insert.
      by apply (fo_len s Hok d).
    + rewrite lookup_insert_ne by done. apply (fo_len s Hok).
  - intros d' t' g Ht' Hg Hgr. change (is_Some (files s1 !! g)).
    pose proof (refs_in_elem _ _ _ _ Ht' Hg) as Hpos. fold (refs (with_table d (set_slot i None t) s1) g) in Hpos.
    rewrite Hrefs in Hpos. apply keys_some. rewrite Hk1. unfold one in Hpos.
    destruct (decide (g = f)) as [->|Hne].
    + rewrite decide_True in Hpos by done. replace (f_links r =? 1) with false by lia.
      rewrite lookup_insert_eq. eauto.
    + rewrite decide_False in Hpos by congruence.
      assert (is_Some (keys s !! g)) as Hgs.
      { apply keys_some. destruct (files s !! g) as [rg|] eqn:Hg'; [eauto|].
        exfalso. revert Hpos. rewrite (refs_none s g Hok Hg' Hgr). lia. }
      case_bool; [by rewrite lookup_delete_ne|by rewrite lookup_insert_ne].
  - intros g rg Hg. change (files s1 !! g = Some rg) in Hg. rewrite Hrefs.
    apply keys_lookup in Hg. rewrite Hk1 in Hg. unfold one.
    destruct (decide (g = f)) as [->|Hne].
    + rewrite decide_True by done. split; [done|].
      destruct (f_links r =? 1); [by rewrite lookup_delete_eq in Hg|].
      rewrite lookup_insert_eq in Hg. injection Hg as Hl' _ _. lia.
    + rewrite decide_False by congruence.
      assert (keys s !! g = Some (key rg)) as Hgs.
      { destruct (f_links r =? 1); [by rewrite lookup_delete_ne in Hg|by rewrite lookup_insert_ne in Hg]. }
      apply keys_inv in Hgs as (r' & Hr' & Hkey). injection Hkey as Hl' _ _.
      destruct (fo_links s Hok g r' Hr'). split; [done|lia].
Qed.
Lemma fp_get_local s i : i < O_GLOBAL_HANDLE → target s (curproc (fk s)) i = (curproc (fk s), i).
Proof. intros Hi. unfold target. by replace (i >=? O_GLOBAL_HANDLE) with false by lia. Qed.

Lemma unlinked_refs s s1 d t i f :
  filedescs s !! d = Some t → slot t i = Some (Some f) → unlinked s s1 f →
  refs (with_table d (set_slot i None t) s1) f = refs s f - 1.
Proof.
  intros Hd Hs (_ & Hd1 & _). rewrite (refs_with_table s1 d t) by congruence.
  rewrite (count_set_slot _ _ _ _ _ Hs). unfold refs. rewrite Hd1. unfold one.
  rewrite decide_True, decide_False by done. lia.
Qed.


(** Fforce of a handle onto itself, when it is the only handle of its file:
    the file is closed and released before its new link is counted, so that the
    count is written to freed memory. *)
Theorem fforce_itself mem d t i f r s :
  let c := curproc (fk s) in
  fds_ok s → kernel_ok s c → p_fd s !! c = Some d → filedescs s !! d = Some t →
  i < O_GLOBAL_HANDLE → handle s c i = Some f → files s !! f = Some r →
  has (f_flags r) O_TTY = false → refs s f = 1 →
  ∃ e s1, do_close mem c (Some f) s = Some (e, s1) ∧ files s1 !! f = None ∧
    sys_f_force mem i i s = None.
Proof.
  intros c Hok Hk Hp Hd Hi Hh Hf Htty Href.
  destruct (handle_slot s c d t i f Hp Hd Hh) as [Hn Hs].
  destruct (handle_file s c i f Hok Hh) as (Hres & r' & Hr' & Hl). simplify_eq.
  destruct (do_close_run mem c f s r Hk Hf Hres Htty ltac:(lia)) as (e & s1 & E & Hk1 & Hu).
  destruct Hu as (Hp1 & Hd1 & Hkeys).
  assert (files s1 !! f = None) as Hgone.
  { rewrite (keys_lookup s f r Hf) in Hkeys. unfold key in Hkeys.
    replace (f_links r =? 1) with true in Hkeys by lia.
    destruct (files s1 !! f) as [r1|] eqn:Hr1; [|done].
    apply keys_lookup in Hr1. rewrite Hkeys, lookup_delete_eq in Hr1. done. }
  exists e, s1. split; [done|]. split; [done|]. unfold sys_f_force.
  erewrite (bind_run current) by done. pose proof (fp_get_run s c i) as Hg.
  unfold c in Hg. rewrite (fp_get_local s i Hi) in Hg. cbn [fst snd] in Hg. fold c in Hg.
  rewrite Hh in Hg. erewrite bind_run by apply Hg. cbv beta iota.
  erewrite bind_run by (by eapply getfd_run).
  pose proof (slot_index _ _ _ Hs) as [Hmin _].
  replace ((i <? MIN_HANDLE) || (i >=? nfiles t)) with false by lia.
  erewrite bind_run by (by apply mderef_run). erewrite bind_run by apply E.
  assert (p_fd s1 !! c = Some d) as Hp1' by by rewrite Hp1.
  assert (filedescs s1 !! d = Some t) as Hd1' by by rewrite Hd1.
  erewrite bind_run by (by eapply modfd_run).
  erewrite bind_run by (eapply modfd_run; [done|apply with_table_lookup]).
  unfold mbind at 1, M_bind at 1, modf at 1. cbn. by rewrite Hgone.
Qed.
End closing.

(** ** A concrete process *)
Section example.
#[local] Instance ex_dev : DevCalls := {|
  dev_unselect := λ _ _ _, mret (); dev_ioctl := λ _ _ _, mret (0, 0);
  tty_ioctl := λ _ _, mret (); xdd_close := λ _ _, mret 0;
  release_cookie := λ _, mret (); other_fcntl := λ _ _ _, mret 0
|}.
#[local] Instance ex_dev_ok : DevCallsOk.
Proof. split; intros; apply quiet_ret. Qed.

(** The files without the second one, which has no handle. *)
Definition ex_open : fstate := set_files {[ 60%positive := ex_file 1 O_DENYW None ]} ex_fstate.

Lemma ex_open_ok : fds_ok ex_open.
Proof.
  split.
  - intros p d. cbn. intros [_ <-]%lookup_singleton_Some. eauto.
  - intros d t. cbn. intros [_ <-]%lookup_singleton_Some. by vm_compute.
  - intros d t f. cbn. intros [_ <-]%lookup_singleton_Some. cbn.
    rewrite !elem_of_cons, elem_of_nil. intros Hf _.
    destruct_cases; try done. by simplify_eq.
  - intros f r. cbn. intros [<- <-]%lookup_singleton_Some. by vm_compute.
Qed.

Lemma ex_open_refs f : refs ex_open f ≤ 1.
Proof.
  unfold refs, refs_in. cbn [filedescs ex_open set_files ex_fstate]. rewrite map_fold_singleton.
  unfold count, ex_table. cbn [ofiles]. rewrite !filter_cons.
  repeat case_decide; cbn; simplify_eq; lia.
Qed.

Lemma ex_kernel_ok : kernel_ok ex_open 2.
Proof. split; [by eexists|]. exists ex_queues. apply ex_queues_ok. Qed.

Lemma do_dup_spec_witness :
  ∃ s', do_dup 0 0 0 ex_open = Some (1, s') ∧ handle s' 2 1 = Some 60%positive.
Proof.
  destruct (do_dup_spec ex_open 50 ex_table 0 0 0 ex_open_ok eq_refl eq_refl)
    as [[Hfull _]|(n & _ & _ & _ & Hn)].
  - by vm_compute.
  - intros f. pose proof (ex_open_refs f). lia.
  - exfalso. by apply (Hfull 1).
  - destruct Hn as (s' & _ & E & _ & _ & _ & _ & Hh & _). exists s'.
    assert (n = 1) as -> by (vm_compute in E; by injection E). by split.
Defined.


Lemma fforce_itself_witness : sys_f_force None 0 0 ex_open = None.
Proof.
  destruct (fforce_itself None 50 ex_table 0 60 (ex_file 1 O_DENYW None) ex_open
    ex_open_ok ex_kernel_ok eq_refl eq_refl eq_refl eq_refl eq_refl eq_refl eq_refl)
    as (e & s1 & _ & _ & E). exact E.
Defined.

(** A minimum below the table makes the search for a free handle leave it. *)
Example dupfd_below_table : sys_f_cntl 0 (-6) F_DUPFD ex_open = None.
Proof. by vm_compute. Qed.
End example.
