(* ===== verification/FdTable.v ===== *)
(** * Descriptor tables of processes (sys/proc_help.c, sys/k_fork.c)

    A table of descriptors is shared by processes, or copied for the child of a fork, and
    closed when its last process ends: the controlling terminal is released, every file is
    closed, and so are the directories that are still being searched.  The structures DIR
    of Dopendir are on the heap, linked through [next]. *)

From S2P Require Import Prelude CInt Errno Linked LibStr Timeout Kernel ProcQueue Cred Files FileDesc.

Definition NDFILE : Z := 1024.
Definition MIN_OPEN : Z := 6.
Definition O_NOINHERIT : Z := 128.

(** ** Data *)

(** [struct dirstruct]; [dh_stuff] is what the file system keeps there *)
Record dirh := mk_dirh {
  dh_fc : fcookie;
  dh_index : Z;
  dh_flags : Z;
  dh_stuff : Z;
  dh_next : option Z;
  dh_fd : Z
}.

Definition dirh_eta (r : dirh) : dirh :=
  mk_dirh (dh_fc r) (dh_index r) (dh_flags r) (dh_stuff r) (dh_next r) (dh_fd r).
Definition set_dh_fc : fcookie → dirh → dirh := ltac:(build_setter dirh_eta dh_fc).
Definition set_dh_index : Z → dirh → dirh := ltac:(build_setter dirh_eta dh_index).
Definition set_dh_stuff : Z → dirh → dirh := ltac:(build_setter dirh_eta dh_stuff).
Definition set_dh_next : option Z → dirh → dirh := ltac:(build_setter dirh_eta dh_next).
Definition set_dh_fd : Z → dirh → dirh := ltac:(build_setter dirh_eta dh_fd).

(** The other fields of [struct filedesc]; [fx_srchdta] tells which of the searches are used *)
Record fdrest := mk_fdrest {
  fx_links : Z;
  fx_searches : option Z;
  fx_srchdta : list bool;
  fx_srchdir : list dirh
}.

Definition fdrest_eta (r : fdrest) : fdrest :=
  mk_fdrest (fx_links r) (fx_searches r) (fx_srchdta r) (fx_srchdir r).
Definition set_fx_links : Z → fdrest → fdrest := ltac:(build_setter fdrest_eta fx_links).
Definition set_fx_searches : option Z → fdrest → fdrest :=
  ltac:(build_setter fdrest_eta fx_searches).
Definition set_fx_srchdta : list bool → fdrest → fdrest :=
  ltac:(build_setter fdrest_eta fx_srchdta).
Definition set_fx_srchdir : list dirh → fdrest → fdrest :=
  ltac:(build_setter fdrest_eta fx_srchdir).

(** The state: [dirs] is the memory of the structures DIR, [dlive] the addresses that are
    allocated.  Memory keeps its contents when it is freed. *)
Record dst := mk_dst {
  dfs : fstate;
  fdx : gmap ptr fdrest;
  dirs : gmap Z dirh;
  dlive : list Z
}.

Definition dst_eta (r : dst) : dst := mk_dst (dfs r) (fdx r) (dirs r) (dlive r).
Definition set_dfs : fstate → dst → dst := ltac:(build_setter dst_eta dfs).
Definition set_fdx : gmap ptr fdrest → dst → dst := ltac:(build_setter dst_eta fdx).
Definition set_dirs : gmap Z dirh → dst → dst := ltac:(build_setter dst_eta dirs).
Definition set_dlive : list Z → dst → dst := ltac:(build_setter dst_eta dlive).

(** A computation on files. *)
Definition on_f {A} (c : M fstate A) : M dst A := mlift dfs set_dfs c.
Definition on_k {A} (c : M kst A) : M dst A := on_f (on_kernel c).

(** [p->p_fd] *)
Definition fd_of (p : ptr) : M dst ptr := mderef (λ s, p_fd (dfs s) !! p).
(** The fields of the table at [d] *)
Definition getx (d : ptr) : M dst fdrest := mderef (λ s, fdx s !! d).
Definition gettab (d : ptr) : M dst filedesc := mderef (λ s, filedescs (dfs s) !! d).
Definition modx (d : ptr) (g : fdrest → fdrest) : M dst unit :=
  x ← getx d; mmod (λ s, set_fdx (<[d := g x]> (fdx s)) s).
Definition modtab (d : ptr) (g : filedesc → filedesc) : M dst unit :=
  t ← gettab d; on_f (mmod (with_table d (g t))).

(** [dirh->...] *)
Definition getdir (a : Z) : M dst dirh := mderef (λ s, dirs s !! a).
Definition moddir (a : Z) (g : dirh → dirh) : M dst unit :=
  h ← getdir a; mmod (λ s, set_dirs (<[a := g h]> (dirs s)) s).

(** [kfree (dirh)] *)
Definition kfree_dir (a : Z) : M dst unit :=
  l ← mgets dlive;
  massert (bool_decide (a ∈ l)) ;;
  mmod (λ s, set_dlive (filter (λ b, b ≠ a) (dlive s)) s).

(** What file systems do with a directory; the answers of opendir and rewinddir have the
    new contents of [index] and of [dh_stuff] *)
Class DirCalls := {
  dup_cookie : fcookie → M fstate fcookie;
  fs_opendir : dirh → Z → M fstate (Z * Z * Z);
  fs_readdir : dirh → Z → M fstate (Z * str * fcookie * Z * Z);
  fs_rewinddir : dirh → M fstate (Z * Z * Z);
  fs_closedir : dirh → M fstate Z;
  fs_getxattr : fcookie → M fstate (Z * xattr)
}.

Section tables.
Context `{DevCalls} `{DirCalls}.

(** A call through [dirh->fc.fs] *)
Definition through {A} (h : dirh) (c : M fstate A) : M dst A :=
  massert (negb (fc_fs (dh_fc h) =? 0)) ;; on_f c.
Definition xfs_closedir (h : dirh) : M dst Z := through h (fs_closedir h).

(** ** Sharing and copying *)

Definition share_fd (p : ptr) : M dst ptr :=
  d ← fd_of p;
  modx d (λ x, set_fx_links (fx_links x + 1) x) ;;
  mret d.

(** The loop over the handles of the copy *)
Fixpoint inherit (l : list (option ptr)) : M fstate (list (option ptr)) :=
  match l with
  | [] => mret []
  | None :: l => l ← inherit l; mret (None :: l)
  | Some f :: l =>
      if bool_decide (Some f = reserved) then l ← inherit l; mret (None :: l)
      else
        r ← getf f;
        if has (f_flags r) O_NOINHERIT then l ← inherit l; mret (None :: l)
        else
          modf f (λ r, set_f_links (s16 (f_links r + 1)) r) ;;
          l ← inherit l; mret (Some f :: l)
  end.

(** [mem] is the answer of [kmalloc].  The files of the copy are the array inside the
    structure, so those of the original must be as well. *)
Definition copy_fd (p : ptr) (mem : option ptr) : M dst (option ptr) :=
  d ← fd_of p;
  org ← getx d;
  massert (0 <? fx_links org) ;;
  match mem with
  | None => mret None
  | Some n =>
      t ← gettab d;
      massert (nfiles t =? NDFILE) ;;
      l ← on_f (inherit (ofiles t));
      on_f (mmod (with_table n (mk_filedesc l (ofileflags t) NDFILE))) ;;
      let x := set_fx_links 1 org in
      let x := set_fx_srchdta ((λ _, false) <$> fx_srchdta x) x in
      let x := set_fx_srchdir ((λ _, mk_dirh (mk_fcookie 0 0 0) 0 0 0 None 0) <$> fx_srchdir x) x in
      let x := set_fx_searches None x in
      mmod (λ s, set_fdx (<[n := x]> (fdx s)) s) ;;
      mret (Some n)
  end.

(** What fork does with the descriptors; the answer tells whether the child got them. *)
Definition fork_fd (share : bool) (p1 p2 : ptr) (mem : option ptr) : M dst bool :=
  d ← (if share then d ← share_fd p1; mret (Some d) else copy_fd p1 mem);
  match d with
  | Some d => on_f (mmod (λ s, set_p_fd (<[p2 := d]> (p_fd s)) s)) ;; mret true
  | None => mret false
  end.

(** ** Giving up a table *)

(** Processes that are neither zombies nor resident *)
Definition gone (q : proc) : bool := (wait_q q =? ZOMBIE_Q) || (wait_q q =? TSR_Q).

(** [p1->p_fd->control] *)
Definition control_of (p : ptr) : M fstate (option ptr) :=
  t ← getfd p; mderef (λ _, slot t (-1)).

(** The control terminal of a member of the group: the same file, or one for the same
    device *)
Definition same_control (by_device : bool) (f : ptr) (r : fileptr) (p1 : ptr) : M fstate bool :=
  c ← control_of p1;
  if by_device then
    match c with
    | None => mret false
    | Some g =>
        rg ← getf g;
        mret ((fc_index (f_fc rg) =? fc_index (f_fc r)) && (fc_dev (f_fc rg) =? fc_dev (f_fc r)))
    end
  else mret (bool_decide (c = Some f)).

Fixpoint has_peer (by_device : bool) (p : ptr) (group : Z) (f : ptr) (r : fileptr)
    (l : list ptr) : M fstate bool :=
  match l with
  | [] => mret false
  | p1 :: l =>
      q ← on_kernel (getp p1);
      if gone q then has_peer by_device p group f r l
      else if (pgrp q =? group) && negb (bool_decide (p1 = p)) then
        b ← same_control by_device f r p1;
        if (b : bool) then mret true else has_peer by_device p group f r l
      else has_peer by_device p group f r l
  end.

(** The terminal has no group any more if [p] was the last process of it. *)
Definition release_control (p : ptr) (t : filedesc) : M fstate unit :=
  c ← mderef (λ _, slot t (-1));
  match c with
  | None => mret tt
  | Some f =>
      r ← getf f;
      if is_terminal r then
        a ← tty_of r;
        ty ← gett a;
        q ← on_kernel (getp p);
        if pgrp q =? tt_pgrp ty then
          l ← mgets (λ s, proclist (fk s));
          b ← has_peer (1 <? tt_use_cnt ty) p (pgrp q) f r l;
          if (b : bool) then mret tt else modt a (set_tt_pgrp 0)
        else mret tt
      else mret tt
  end.

(** [for (i = MIN_HANDLE; i < p_fd->nfiles; i++)], for the last [n] handles.  [mem i] is the
    memory for the timeout of a hangup. *)
Fixpoint close_files (n : nat) (mem : Z → option ptr) (p d : ptr) : M fstate unit :=
  match n with
  | O => mret tt
  | S m =>
      t ← mderef (λ s, filedescs s !! d);
      let i := nfiles t - Z.of_nat n in
      o ← mderef (λ _, slot t i);
      match o with
      | None => close_files m mem p d
      | Some f =>
          mmod (with_table d (set_slot i None t)) ;;
          do_close (mem i) p (Some f) ;;
          close_files m mem p d
      end
  end.

(** The searches of Fsfirst and Fsnext; the cookies are cleared in the table that is freed *)
Fixpoint close_searches (us : list bool) (ds : list dirh) : M dst unit :=
  match us, ds with
  | u :: us, h :: ds =>
      (if (u : bool) then xfs_closedir h ;; on_f (release_cookie (dh_fc h)) else mret tt) ;;
      close_searches us ds
  | _, _ => mret tt
  end.

(** The chain of the directories of Dopendir *)
Fixpoint close_dirs (fuel : nat) (o : option Z) : M dst unit :=
  match o, fuel with
  | None, _ => mret tt
  | Some _, O => mpanic
  | Some a, S fuel =>
      h ← getdir a;
      (if negb (fc_fs (dh_fc h) =? 0)
       then xfs_closedir h ;; on_f (release_cookie (dh_fc h)) else mret tt) ;;
      kfree_dir a ;;
      close_dirs fuel (dh_next h)
  end.

(** [p_fd->ofiles] is never memory of its own, see [copy_fd]. *)
Definition free_fd (mem : Z → option ptr) (p : ptr) : M dst unit :=
  d ← fd_of p;
  x ← getx d;
  massert (0 <? fx_links x) ;;
  on_f (mmod (λ s, set_p_fd (delete p (p_fd s)) s)) ;;
  modx d (set_fx_links (fx_links x - 1)) ;;
  if 0 <? fx_links x - 1 then mret tt
  else
    t ← gettab d;
    on_f (release_control p t) ;;
    on_f (close_files (Z.to_nat (nfiles t - MIN_HANDLE)) mem p d) ;;
    close_searches (fx_srchdta x) (fx_srchdir x) ;;
    n ← mgets (λ s, size (dirs s));
    close_dirs n (fx_searches x) ;;
    mmod (λ s, set_fdx (delete d (fdx s)) s) ;;
    on_f (mmod (λ s, set_filedescs (delete d (filedescs s)) s)).
End tables.

(** ** Well-formed tables *)

(** The number of processes with the table [d] *)
Definition users_in (m : gmap ptr ptr) (d : ptr) : Z :=
  Z.of_nat (size (filter (λ x : ptr * ptr, x.2 = d) m)).
Definition users (s : dst) (d : ptr) : Z := users_in (p_fd (dfs s)) d.

(** The link of a directory *)
Definition nxt (s : dst) (a : Z) : option Z := h ← dirs s !! a; dh_next h.

(** The searches of the table [d] are the chain [L d]; they are allocated, no two tables
    share one, and nothing else is allocated. *)
Record streams_ok (s : dst) (L : ptr → list Z) : Prop := {
  so_chain d x : fdx s !! d = Some x → chain (nxt s) (fx_searches x) (L d);
  so_none d : fdx s !! d = None → L d = [];
  so_dirs d a : a ∈ L d → is_Some (dirs s !! a) ∧ a ∈ dlive s;
  so_nodup d : NoDup (L d);
  so_owner d d' a : a ∈ L d → a ∈ L d' → d = d';
  so_live a : a ∈ dlive s → ∃ d, a ∈ L d
}.

(** A search of Fsfirst that is used has a file system. *)
Definition searches_ok (x : fdrest) : Prop :=
  ∀ i h, fx_srchdta x !! i = Some true → fx_srchdir x !! i = Some h → fc_fs (dh_fc h) ≠ 0.

(** A table has as many links as processes; the files and their links are those of
    [fds_ok]. *)
Record tables_ok (s : dst) : Prop := {
  tk_fds : fds_ok (dfs s);
  tk_rest d : is_Some (fdx s !! d) ↔ is_Some (filedescs (dfs s) !! d);
  tk_links d x : fdx s !! d = Some x → fx_links x = users s d;
  tk_searches d x : fdx s !! d = Some x → searches_ok x;
  tk_streams : ∃ L, streams_ok s L
}.

(** ** Counting *)

Lemma users_in_insert m p d d' :
  m !! p = None → users_in (<[p := d]> m) d' = users_in m d' + if decide (d = d') then 1 else 0.
Proof.
  intros Hp. unfold users_in. rewrite map_filter_insert. case_decide as Hd; cbn in Hd.
  - rewrite decide_True, map_size_insert_None by (done || by apply map_lookup_filter_None_2; left).
    lia.
  - rewrite decide_False, (delete_id m) by done. lia.
Qed.

Lemma users_in_delete m p d d' :
  m !! p = Some d → users_in (delete p m) d' = users_in m d' - if decide (d = d') then 1 else 0.
Proof.
  intros Hp. rewrite <- (insert_delete_id m p d Hp) at 2.
  rewrite users_in_insert by apply lookup_delete_eq. lia.
Qed.

Lemma users_in_pos m p d : m !! p = Some d → 1 ≤ users_in m d.
Proof.
  intros Hp. pose proof (users_in_delete m p d d Hp) as E. rewrite decide_True in E by done.
  unfold users_in in *. lia.
Qed.

(** A table with one user *)
Lemma users_in_one m p d q : m !! p = Some d → users_in m d = 1 → m !! q = Some d → q = p.
Proof.
  intros Hp Hu Hq. destruct (decide (q = p)) as [|Hne]; [done|].
  pose proof (users_in_delete m p d d Hp) as E. rewrite decide_True in E by done.
  assert (1 ≤ users_in (delete p m) d); [|lia].
  apply (users_in_pos _ q). by rewrite lookup_delete_ne by congruence.
Qed.

Lemma users_in_none m d : (∀ p, m !! p ≠ Some d) → users_in m d = 0.
Proof.
  intros Hm. unfold users_in. rewrite (proj2 (map_empty_filter _ m)); [done|].
  intros p d' Hp. cbn. intros ->. by eapply Hm.
Qed.

(** How often a file is in a list of handles *)
Definition occ (f : ptr) (l : list (option ptr)) : Z :=
  Z.of_nat (length (filter (λ o, o = Some f) l)).

Lemma occ_cons f o l : occ f (o :: l) = one f o + occ f l.
Proof. unfold occ, one. rewrite filter_cons. repeat case_decide; cbn; lia. Qed.

Lemma occ_nonneg f l : 0 ≤ occ f l.
Proof. unfold occ. lia. Qed.

Lemma occ_elem f l : 0 < occ f l ↔ Some f ∈ l.
Proof.
  induction l as [|o l IH].
  - rewrite elem_of_nil. unfold occ. cbn. split; [lia|done].
  - rewrite occ_cons, elem_of_cons, <- IH. pose proof (occ_nonneg f l). unfold one.
    case_decide as Hf; [split; [by left|lia]|]. split; [by right|].
    intros [Heq|?]; [by destruct Hf|lia].
Qed.

Lemma occ_none f n : occ f (replicate n None) = 0.
Proof. induction n; [done|]. cbn [replicate]. rewrite occ_cons. done. Qed.

Lemma refs_in_fresh m d t f : m !! d = None → refs_in (<[d := t]> m) f = refs_in m f + count f t.
Proof.
  intros Hd. rewrite (refs_in_split _ d t f (lookup_insert_eq _ _ _)).
  rewrite delete_insert_id by done. lia.
Qed.

(** ** Copying *)

(** The entry of the child for an entry of the parent *)
Definition keep (fs : gmap ptr fileptr) (o : option ptr) : option ptr :=
  f ← o;
  if bool_decide (Some f = reserved) then None
  else r ← fs !! f; if has (f_flags r) O_NOINHERIT then None else Some f.

(** Every file has a link more for each entry of [l]. *)
Definition linked_by (l : list (option ptr)) (m : gmap ptr fileptr) : gmap ptr fileptr :=
  map_imap (λ f r, Some (set_f_links (f_links r + occ f l) r)) m.

Lemma linked_by_lookup l m f :
  linked_by l m !! f = (λ r, set_f_links (f_links r + occ f l) r) <$> m !! f.
Proof. unfold linked_by. rewrite map_lookup_imap. by destruct (m !! f). Qed.

Lemma linked_by_none l m : linked_by (None :: l) m = linked_by l m.
Proof. apply map_eq. intros f. rewrite !linked_by_lookup, occ_cons. done. Qed.

Lemma linked_by_some f r l m :
  m !! f = Some r →
  linked_by (Some f :: l) m = linked_by l (<[f := set_f_links (f_links r + 1) r]> m).
Proof.
  intros Hf. apply map_eq. intros g. rewrite !linked_by_lookup, occ_cons. unfold one.
  destruct (decide (g = f)) as [->|Hne].
  - rewrite Hf, lookup_insert_eq, decide_True by done. cbn. by rewrite Z.add_assoc.
  - rewrite lookup_insert_ne, decide_False by congruence. done.
Qed.

Lemma linked_by_nil m : linked_by [] m = m.
Proof.
  apply map_eq. intros g. rewrite linked_by_lookup. destruct (m !! g) as [r|]; [|done].
  cbn. rewrite Z.add_0_r. by destruct r.
Qed.

Lemma keep_links fs f r n o : fs !! f = Some r → keep (<[f := set_f_links n r]> fs) o = keep fs o.
Proof.
  intros Hf. destruct o as [g|]; [|done]. cbn. case_bool_decide; [done|].
  destruct (decide (g = f)) as [->|Hne]; [by rewrite lookup_insert_eq, Hf|].
  by rewrite lookup_insert_ne.
Qed.

Lemma inherit_run l s :
  (∀ f, Some f ∈ l → Some f ≠ reserved → is_Some (files s !! f)) →
  (∀ f r, files s !! f = Some r → 0 ≤ f_links r ∧ f_links r + occ f l ≤ 32767) →
  inherit l s = Some (keep (files s) <$> l, set_files (linked_by (keep (files s) <$> l) (files s)) s).
Proof.
  revert s. induction l as [|o l IH]; intros s Hopen Hmax.
  { cbn. rewrite linked_by_nil. by destruct s. }
  assert (Hskip : (l ← inherit l; mret (None :: l) : M fstate _) s =
    Some (None :: (keep (files s) <$> l), set_files (linked_by (None :: (keep (files s) <$> l)) (files s)) s)).
  { erewrite bind_run; [by rewrite linked_by_none|]. apply IH.
    - intros f Hf. apply Hopen. by right.
    - intros f r Hr. destruct (Hmax f r Hr) as [? Hm]. rewrite occ_cons in Hm.
      unfold one in Hm. case_decide; lia. }
  cbn [inherit fmap list_fmap]. destruct o as [f|]; [|done]. cbn [keep mbind option_bind].
  case_bool_decide as Hres; [done|]. destruct (Hopen f ltac:(left) Hres) as [r Hf].
  rewrite Hf. cbn [mbind option_bind].
  erewrite bind_run by (by apply (mderef_run (λ s, files s !! f))).
  destruct (has (f_flags r) O_NOINHERIT) eqn:Hno; [done|].
  destruct (Hmax f r Hf) as [H0 Hm]. rewrite occ_cons in Hm. unfold one in Hm.
  rewrite decide_True in Hm by done. pose proof (occ_nonneg f l).
  erewrite bind_run by (unfold modf; by rewrite Hf). rewrite s16_id by lia.
  set (s1 := set_files _ s).
  assert (Hkeep : keep (files s1) <$> l = keep (files s) <$> l)
    by (apply list_fmap_ext; intros; by apply keep_links).
  erewrite bind_run.
  2: { apply IH; unfold s1; cbn.
       - intros g Hg Hgr. apply lookup_insert_is_Some'. right. apply Hopen; [by right|done].
       - intros g rg. rewrite lookup_insert_Some. intros [[<- <-]|[Hne Hg]]; cbn; [lia|].
         destruct (Hmax g rg Hg) as [? Hmg]. rewrite occ_cons in Hmg. unfold one in Hmg.
         rewrite decide_False in Hmg by congruence. lia. }
  rewrite Hkeep, ret_run. unfold s1. cbn. by rewrite (linked_by_some _ _ _ _ Hf).
Qed.

(** The files after a fork of a process with the table [t] *)
Definition copied_list (s : fstate) (t : filedesc) : list (option ptr) :=
  keep (files s) <$> ofiles t.
Definition copied (s : fstate) (t : filedesc) (n p2 : ptr) : fstate :=
  set_p_fd (<[p2 := n]> (p_fd s))
    (with_table n (mk_filedesc (copied_list s t) (ofileflags t) NDFILE)
      (set_files (linked_by (copied_list s t) (files s)) s)).

Lemma keep_some fs o f :
  keep fs o = Some f → o = Some f ∧ Some f ≠ reserved ∧ is_Some (fs !! f).
Proof.
  destruct o as [g|]; [|done]. cbn. case_bool_decide as Hr; [done|].
  destruct (fs !! g) as [r|] eqn:Hg; [|done]. cbn. destruct (has _ _); [done|].
  intros [= <-]. eauto.
Qed.

Lemma copied_occ s t f : occ f (copied_list s t) ≤ count f t.
Proof.
  unfold copied_list. change (count f t) with (occ f (ofiles t)).
  induction (ofiles t) as [|o l IH]; [done|]. cbn [fmap list_fmap]. rewrite !occ_cons.
  unfold one. destruct (keep (files s) o) as [g|] eqn:Hk.
  - apply keep_some in Hk as (-> & _). lia.
  - rewrite decide_False by done. case_decide; lia.
Qed.

Lemma copied_table_refs s t n p2 f :
  filedescs s !! n = None → refs (copied s t n p2) f = refs s f + occ f (copied_list s t).
Proof. intros Hn. unfold refs, copied. cbn. by rewrite refs_in_fresh. Qed.

Lemma copied_fds_ok s d t n p2 :
  fds_ok s → filedescs s !! d = Some t → nfiles t = NDFILE → filedescs s !! n = None →
  fds_ok (copied s t n p2).
Proof.
  intros Hok Hd Hnf Hn. destruct (fo_len s Hok d t Hd) as (Hl & Hlf & _). split.
  - intros p d'. cbn. destruct (decide (d' = n)) as [->|Hne].
    + intros _. rewrite lookup_insert_eq. eauto.
    + rewrite (lookup_insert_ne (filedescs s)), lookup_insert_Some by done.
      intros [[_ <-]|[_ Hp]]; [done|by eapply (fo_table s Hok)].
  - intros d' t'. cbn. rewrite lookup_insert_Some. intros [[_ <-]|[_ Hd']].
    + cbn. unfold copied_list. rewrite length_fmap, Hl, Hlf, Hnf. by vm_compute.
    + by apply (fo_len s Hok d').
  - intros d' t' f. cbn. rewrite linked_by_lookup, fmap_is_Some, lookup_insert_Some.
    intros [[_ <-]|[_ Hd']] Hf Hr; [|by eapply (fo_open s Hok d' t')].
    cbn in Hf. apply list_elem_of_fmap in Hf as (o & Hk & _). symmetry in Hk.
    by apply keep_some in Hk as (_ & _ & ?).
  - intros f r. rewrite copied_table_refs by done. cbn. rewrite linked_by_lookup.
    intros (r0 & Hf & ->)%fmap_Some. destruct (fo_links s Hok f r0 Hf) as [Hr Hl0].
    split; [done|cbn; lia].
Qed.

(** The handles of the child, and of the others *)
Lemma copied_handle s p1 d t n p2 i :
  fds_ok s → p_fd s !! p1 = Some d → filedescs s !! d = Some t → nfiles t = NDFILE →
  handle (copied s t n p2) p2 i = (f ← handle s p1 i; keep (files s) (Some f)).
Proof.
  intros Hok Hp Hd Hnf. unfold handle at 1. cbn. rewrite !lookup_insert_eq. cbn.
  rewrite lookup_insert_eq. unfold handle. rewrite Hp. cbn. rewrite Hd. cbn. rewrite Hnf.
  destruct (i <? NDFILE); [|done]. unfold slot. cbn. destruct (i <? MIN_HANDLE); [done|].
  unfold copied_list. rewrite list_lookup_fmap.
  destruct (ofiles t !! _) as [[f|]|]; try done. cbn.
  case_bool_decide as Hr; [done|]. cbn. rewrite bool_decide_false by done.
  destruct (files s !! f) as [r|]; [|done]. cbn. destruct (has _ _); [done|].
  by rewrite bool_decide_false.
Qed.

Lemma copied_handle_other s t n p2 q i :
  fds_ok s → filedescs s !! n = None → q ≠ p2 → handle (copied s t n p2) q i = handle s q i.
Proof.
  intros Hok Hn Hq. unfold handle. cbn. rewrite lookup_insert_ne by done.
  destruct (p_fd s !! q) as [d|] eqn:Hd; [|done]. cbn.
  rewrite lookup_insert_ne; [done|]. intros ->.
  destruct (fo_table s Hok q d Hd). congruence.
Qed.

(** The rest of the table of the child *)
Definition fresh_rest (x : fdrest) : fdrest :=
  mk_fdrest 1 None ((λ _, false) <$> fx_srchdta x)
    ((λ _, mk_dirh (mk_fcookie 0 0 0) 0 0 0 None 0) <$> fx_srchdir x).
Definition forked (s : dst) (t : filedesc) (x : fdrest) (n p2 : ptr) : dst :=
  set_dfs (copied (dfs s) t n p2) (set_fdx (<[n := fresh_rest x]> (fdx s)) s).

(** The state after [copy_fd], before the child has the table *)
Definition copied_fd (s : dst) (t : filedesc) (x : fdrest) (n : ptr) : dst :=
  set_dfs (with_table n (mk_filedesc (copied_list (dfs s) t) (ofileflags t) NDFILE)
      (set_files (linked_by (copied_list (dfs s) t) (files (dfs s))) (dfs s)))
    (set_fdx (<[n := fresh_rest x]> (fdx s)) s).

Lemma copy_fd_run s p1 d t x n :
  tables_ok s → p_fd (dfs s) !! p1 = Some d → filedescs (dfs s) !! d = Some t →
  fdx s !! d = Some x → nfiles t = NDFILE → (∀ f, refs (dfs s) f + count f t ≤ 32767) →
  copy_fd p1 (Some n) s = Some (Some n, copied_fd s t x n).
Proof.
  intros Hok Hp Hd Hx Hnf Hmax. pose proof (tk_fds s Hok) as Hfds. unfold copy_fd, fd_of.
  erewrite bind_run by (by apply mderef_run).
  erewrite bind_run by (by apply mderef_run).
  erewrite bind_run.
  2: { apply massert_run. rewrite (tk_links s Hok d x Hx).
       pose proof (users_in_pos _ _ _ Hp). unfold users. lia. }
  erewrite bind_run by (by apply mderef_run).
  erewrite bind_run by (apply massert_run; lia).
  erewrite bind_run.
  2: { unfold on_f, mlift. rewrite inherit_run; [done|..].
       - intros f Hf Hr. by eapply (fo_open _ Hfds).
       - intros f r Hf. destruct (fo_links _ Hfds f r Hf) as [_ Hl]. specialize (Hmax f).
         pose proof (refs_in_nonneg (filedescs (dfs s)) f). unfold refs in *.
         change (occ f (ofiles t)) with (count f t). lia. }
  done.
Qed.

Lemma fork_fd_copy_run s p1 p2 d t x n :
  tables_ok s → p_fd (dfs s) !! p1 = Some d → filedescs (dfs s) !! d = Some t →
  fdx s !! d = Some x → nfiles t = NDFILE → (∀ f, refs (dfs s) f + count f t ≤ 32767) →
  fork_fd false p1 p2 (Some n) s = Some (true, forked s t x n p2).
Proof.
  intros. unfold fork_fd. erewrite bind_run by (by eapply copy_fd_run). done.
Qed.

Lemma chain_nodup_none N l : chain N None l → l = [].
Proof. destruct l; [done|]. by intros [??]. Qed.

Lemma forked_ok s p1 p2 d t x n :
  tables_ok s → p_fd (dfs s) !! p1 = Some d → filedescs (dfs s) !! d = Some t →
  nfiles t = NDFILE → p_fd (dfs s) !! p2 = None → filedescs (dfs s) !! n = None →
  tables_ok (forked s t x n p2).
Proof.
  intros Hok Hp Hd Hnf Hp2 Hn. pose proof (tk_fds s Hok) as Hfds.
  assert (fdx s !! n = None) as Hxn.
  { apply eq_None_not_Some. rewrite (tk_rest s Hok), Hn. by intros []. }
  split.
  - by eapply copied_fds_ok.
  - intros d'. cbn. destruct (decide (d' = n)) as [->|Hne].
    + rewrite !lookup_insert_eq. split; eauto.
    + rewrite !lookup_insert_ne by done. apply (tk_rest s Hok).
  - intros d' x'. cbn. unfold users. cbn. rewrite (users_in_insert _ _ _ _ Hp2).
    rewrite lookup_insert_Some. intros [[<- <-]|[Hne Hx']].
    + rewrite decide_True, users_in_none; [done| |done].
      intros q Hq. destruct (fo_table _ Hfds q n Hq). congruence.
    + rewrite decide_False by done. rewrite (tk_links s Hok d' x' Hx'). unfold users. lia.
  - intros d' x'. cbn. rewrite lookup_insert_Some. intros [[_ <-]|[_ Hx']].
    + intros i h. cbn. rewrite list_lookup_fmap. by destruct (fx_srchdta x !! i).
    + by apply (tk_searches s Hok d').
  - destruct (tk_streams s Hok) as [L HL]. exists L. destruct HL as [Hc Hno Hdr Hnd Ho Hlv].
    split; try done; cbn.
    + intros d' x'. rewrite lookup_insert_Some. intros [[<- <-]|[_ Hx']]; [|by apply Hc].
      by rewrite (Hno n Hxn).
    + intros d'. rewrite lookup_insert_None. intros [? _]. by apply Hno.
Qed.

(** The child of a fork without shared files has the files of its parent, except for those
    opened with O_NOINHERIT, on the same handles; every file has as many links more as the
    child has handles for it, and no other process notices.  Searches are not inherited. *)
Theorem fork_copies s p1 p2 d t n :
  tables_ok s → p_fd (dfs s) !! p1 = Some d → filedescs (dfs s) !! d = Some t →
  nfiles t = NDFILE → p_fd (dfs s) !! p2 = None → filedescs (dfs s) !! n = None →
  (∀ f, refs (dfs s) f + count f t ≤ 32767) →
  ∃ s', fork_fd false p1 p2 (Some n) s = Some (true, s') ∧ tables_ok s' ∧
    (∀ i, handle (dfs s') p2 i = f ← handle (dfs s) p1 i; keep (files (dfs s)) (Some f)) ∧
    (∀ q i, q ≠ p2 → handle (dfs s') q i = handle (dfs s) q i) ∧
    (∀ f, refs (dfs s') f = refs (dfs s) f + occ f (copied_list (dfs s) t)) ∧
    (∃ x', fdx s' !! n = Some x' ∧ fx_searches x' = None) ∧ dlive s' = dlive s.
Proof.
  intros Hok Hp Hd Hnf Hp2 Hn Hmax. pose proof (tk_fds s Hok) as Hfds.
  destruct (proj2 (tk_rest s Hok d)) as [x Hx]; [by rewrite Hd|].
  exists (forked s t x n p2). split; [by eapply fork_fd_copy_run|].
  split; [by eapply forked_ok|]. split; [intros i; by eapply copied_handle|].
  split; [intros q i Hq; by apply copied_handle_other|].
  split; [intros f; by apply copied_table_refs|]. split; [|done].
  exists (fresh_rest x). cbn. by rewrite lookup_insert_eq.
Qed.

(** Sharing: the child has the table of its parent, with one more link. *)
Definition shared (s : dst) (d : ptr) (x : fdrest) (p2 : ptr) : dst :=
  set_dfs (set_p_fd (<[p2 := d]> (p_fd (dfs s))) (dfs s))
    (set_fdx (<[d := set_fx_links (fx_links x + 1) x]> (fdx s)) s).

Lemma fork_share_run s p1 p2 d x mem :
  p_fd (dfs s) !! p1 = Some d → fdx s !! d = Some x →
  fork_fd true p1 p2 mem s = Some (true, shared s d x p2).
Proof.
  intros Hp Hx. unfold fork_fd, share_fd, fd_of, modx, getx, mderef, on_f, mlift, mmod, mret,
    M_ret, mbind, M_bind. by rewrite Hp, Hx.
Qed.

(** ** Closing the files of a process *)

(** No terminal waits for its output before it hangs up. *)
Definition no_hangup (s : fstate) : Prop :=
  ∀ f r, files s !! f = Some r → has (f_flags r) O_TTY = true →
    ∃ a ty, f_devinfo r = Z.pos a ∧ ttys s !! a = Some ty ∧ has (tt_state ty) TS_HPCL = false.

(** The file systems and the drivers return, and keep the descriptors and [no_hangup]. *)
Class TableCallsOk `{DevCalls} `{DirCalls} : Prop := {
  #[global] table_calls :: DevCallsOk;
  #[global] table_calm :: Calm no_hangup;
  closedir_quiet p h : quiet p (fs_closedir h);
  closedir_calm h : calm no_hangup (fs_closedir h)
}.

(** The links of a file that lost [n] handles *)
Definition drop_links (n : Z) (k : option (Z * bool * bool)) : option (Z * bool * bool) :=
  '(l, t, d) ← k;
  if n =? 0 then Some (l, t, d) else if l <=? n then None else Some (l - n, t, d).

Lemma drop_links_0 k : drop_links 0 k = k.
Proof. by destruct k as [[[??]?]|]. Qed.

Lemma drop_links_add m n k : 0 < m → 0 ≤ n → drop_links n (drop_links m k) = drop_links (m + n) k.
Proof.
  intros Hm Hn. destruct k as [[[l t] d]|]; [|done]. cbn.
  replace (m =? 0) with false by lia. replace (m + n =? 0) with false by lia.
  destruct (Z.leb_spec l m); [by replace (l <=? m + n) with true by lia|]. cbn.
  destruct (Z.eqb_spec n 0) as [->|].
  - rewrite Z.add_0_r. by replace (l <=? m) with false by lia.
  - replace (l <=? m + n) with (l - m <=? n) by lia. case_bool; [done|]. do 3 f_equal. lia.
Qed.

Lemma unlinked_keys s s' f g :
  (∀ l t d, keys s !! f = Some (l, t, d) → 1 ≤ l) → unlinked s s' f →
  keys s' !! g = drop_links (one g (Some f)) (keys s !! g).
Proof.
  intros Hpos (_ & _ & ->). unfold one. destruct (decide (Some f = Some g)) as [[= ->]|Hne].
  - destruct (keys s !! g) as [[[l t] d]|] eqn:Hg; [|by rewrite Hg]. cbn.
    specialize (Hpos l t d eq_refl). destruct (Z.eqb_spec l 1) as [->|].
    + by rewrite lookup_delete_eq.
    + rewrite lookup_insert_eq. by replace (l <=? 1) with false by lia.
  - rewrite drop_links_0. assert (f ≠ g) by congruence.
    destruct (keys s !! f) as [[[l t] d]|]; [|done].
    case_bool; [by rewrite lookup_delete_ne|by rewrite lookup_insert_ne].
Qed.

Section closing.
Context `{TableCallsOk}.

Lemma no_hangup_tty s a ty ty' :
  no_hangup s → ttys s !! a = Some ty → tt_state ty' = tt_state ty →
  no_hangup (set_ttys (<[a := ty']> (ttys s)) s).
Proof.
  intros Hno Ha Hst f r Hf Ht. destruct (Hno f r Hf Ht) as (b & tb & Hb & Htb & Hh).
  exists b. cbn. destruct (decide (b = a)) as [->|Hne].
  - exists ty'. rewrite lookup_insert_eq, Hst. by simplify_eq.
  - exists tb. by rewrite lookup_insert_ne by done.
Qed.

(** The last close of a terminal that does not hang up *)
Lemma close_tty_run mem f r s :
  no_hangup s → files s !! f = Some r → has (f_flags r) O_TTY = true →
  ∃ m, close_tty mem f r s = Some (tt, set_ttys m s) ∧ no_hangup (set_ttys m s).
Proof.
  intros Hno Hf Ht. destruct (Hno f r Hf Ht) as (a & ty & Ha & Hty & Hh).
  unfold close_tty, tty_of. rewrite Ha. erewrite bind_run by done.
  erewrite bind_run by (by apply (mderef_run (λ s, ttys s !! a))).
  set (ty1 := if tt_use_cnt ty - tt_aux_cnt ty <=? 1 then set_tt_pgrp 0 ty else ty).
  erewrite (bind_run _ _ s tt (set_ttys (<[a := ty1]> (ttys s)) s)).
  2: { unfold start_hangup, ty1. rewrite Hh. cbn [andb]. destruct (_ <=? 1); cbn [mwhen].
       - erewrite bind_run by done. unfold modt. by rewrite Hty.
       - rewrite insert_id by done. by destruct s. }
  erewrite bind_run by (unfold modt; cbn; by rewrite lookup_insert_eq).
  cbn. rewrite insert_insert_eq. unfold modt. cbn. rewrite lookup_insert_eq.
  rewrite insert_insert_eq. eexists. split; [done|]. apply (no_hangup_tty s a ty); [done..|].
  unfold ty1. by repeat case_bool.
Qed.

(** Closing any file *)
Lemma do_close_ok mem p f s r :
  kernel_ok s p → no_hangup s → files s !! f = Some r → Some f ≠ reserved →
  0 < f_links r ≤ 32767 →
  ∃ e s', do_close mem p (Some f) s = Some (e, s') ∧ kernel_ok s' p ∧ unlinked s s' f ∧
    no_hangup s'.
Proof.
  intros Hk Hno Hf Hres Hl. apply (do_close_gen no_hangup mem p f s r); [done..|].
  intros s2 r2 Hf2 Hno2 _. unfold is_terminal. destruct (has (f_flags r2) O_TTY) eqn:Ht; cbn [andb].
  - destruct (f_links r2 <=? 0); cbn [mwhen]; [|by exists s2].
    destruct (close_tty_run mem f r2 s2 Hno2 Hf2 Ht) as (m & E & Hm). by exists (set_ttys m s2).
  - by exists s2.
Qed.

(** A handle that is being opened is given up. *)
Lemma fds_ok_unreserve s d t i :
  fds_ok s → filedescs s !! d = Some t → slot t i = Some reserved →
  fds_ok (with_table d (set_slot i None t) s).
Proof.
  intros Hok Hd Hs.
  assert (Hrefs : ∀ g r, files s !! g = Some r →
    refs (with_table d (set_slot i None t) s) g = refs s g).
  { intros g r Hg. rewrite (refs_with_table s d t Hd), (count_set_slot _ _ _ _ _ Hs).
    destruct (fo_links s Hok g r Hg). unfold one. rewrite !decide_False by congruence. lia. }
  split; cbn.
  - intros q d' Hq. apply lookup_insert_is_Some'. right. by eapply (fo_table s Hok).
  - intros d' t'. rewrite lookup_insert_Some. intros [[<- <-]|[_ Hd']].
    + cbn. rewrite !length_insert. by apply (fo_len s Hok d).
    + by apply (fo_len s Hok d').
  - intros d' t' g. rewrite lookup_insert_Some. intros [[<- <-]|[_ Hd']].
    + cbn. intros [?|Hg]%list_insert_elem Hr; [done|]. by eapply (fo_open s Hok d).
    + by apply (fo_open s Hok d').
  - intros g r Hg. rewrite (Hrefs g r Hg). by apply (fo_links s Hok).
Qed.

(** One step of the loop: the entry [i] is cleared, and its file is closed. *)
Lemma close_one mem p d t i f s :
  fds_ok s → kernel_ok s p → no_hangup s → filedescs s !! d = Some t →
  slot t i = Some (Some f) → (∀ g, refs s g ≤ 32767) →
  ∃ e s', do_close mem p (Some f) (with_table d (set_slot i None t) s) = Some (e, s') ∧
    fds_ok s' ∧ kernel_ok s' p ∧ no_hangup s' ∧ p_fd s' = p_fd s ∧
    filedescs s' = <[d := set_slot i None t]> (filedescs s) ∧
    ∀ g, keys s' !! g = drop_links (one g (Some f)) (keys s !! g).
Proof.
  intros Hok Hk Hno Hd Hs Hmax. set (s0 := with_table d (set_slot i None t) s).
  destruct (decide (Some f = reserved)) as [Hr|Hr].
  { exists E_OK, s0. split; [unfold do_close; by rewrite bool_decide_true|].
    split; [unfold s0; apply fds_ok_unreserve; [done|done|by rewrite <- Hr]|].
    repeat (split; [done|]). intros g. change (keys s0) with (keys s).
    destruct (keys s !! g) as [[[l t0] d0]|] eqn:Hg; [|done].
    apply keys_inv in Hg as (r & Hg & _). destruct (fo_links s Hok g r Hg) as [Hgr _].
    unfold one. rewrite decide_False by congruence. by rewrite drop_links_0. }
  assert (Hin : Some f ∈ ofiles t)
    by (apply slot_index in Hs as [_ Hs]; by eapply list_elem_of_lookup_2).
  destruct (fo_open s Hok d t f Hd Hin Hr) as [r Hf].
  destruct (fo_links s Hok f r Hf) as [_ Hl].
  pose proof (refs_in_elem _ _ _ _ Hd Hin) as Hpos. fold (refs s f) in Hpos.
  destruct (do_close_ok mem p f s0 r Hk Hno Hf Hr ltac:(specialize (Hmax f); lia))
    as (e & s' & E & Hk' & Hu & Hno').
  exists e, s'. split; [done|].
  assert (Hu2 : unlinked s (set_filedescs (filedescs s) s') f)
    by (destruct Hu as (? & _ & ?); by repeat split).
  destruct Hu as (Hp & Hfd & Hkeys). split; [|split; [done|]; split; [done|]].
  - pose proof (fds_ok_drop s _ d t i f Hok Hd Hs Hr Hu2) as Hdrop.
    replace s' with (with_table d (set_slot i None t) (set_filedescs (filedescs s) s')); [done|].
    unfold with_table. cbn. change (filedescs s0) with (<[d := set_slot i None t]> (filedescs s)) in Hfd.
    rewrite <- Hfd. by destruct s'.
  - split; [done|]. split; [done|]. intros g.
    apply (unlinked_keys s (set_filedescs (filedescs s) s') f g); [|done].
    intros l t0 d0. rewrite (keys_lookup s f r Hf). unfold key. intros [= <- <- <-]. lia.
Qed.

(** The table after its last [n] entries were cleared *)
Definition cleared (n : nat) (t : filedesc) : filedesc :=
  set_ofiles (take (length (ofiles t) - n) (ofiles t) ++ replicate n None) t.

Lemma cleared_0 t : cleared 0 t = t.
Proof.
  unfold cleared. cbn. rewrite app_nil_r, Nat.sub_0_r, firstn_all. by destruct t.
Qed.

Lemma last_entries (l : list (option ptr)) n o :
  (n < length l)%nat → l !! (length l - S n)%nat = Some o →
  drop (length l - S n) l = o :: drop (length l - n) l ∧
  take (length l - S n) l ++ [o] = take (length l - n) l.
Proof.
  intros Hn Ho. replace (length l - n)%nat with (S (length l - S n)) by lia.
  split; [by apply drop_S|by rewrite (take_S_r _ _ _ Ho)].
Qed.

Lemma cleared_slot n t i :
  (n < length (ofiles t))%nat → Z.to_nat (i - MIN_HANDLE) = (length (ofiles t) - S n)%nat →
  cleared n (set_slot i None t) = cleared (S n) t.
Proof.
  intros Hn Hi. destruct t as [l fl nf]. unfold cleared, set_slot. cbn in *. rewrite Hi.
  destruct (last_entries (<[(length l - S n)%nat := None]> l) n None) as [_ E].
  - by rewrite length_insert.
  - rewrite length_insert. apply list_lookup_insert_eq. lia.
  - rewrite length_insert in *. rewrite <- E, take_insert_ge, <- app_assoc by lia. done.
Qed.

Lemma close_files_run n mem p d t s :
  fds_ok s → kernel_ok s p → no_hangup s → filedescs s !! d = Some t →
  (n ≤ length (ofiles t))%nat → (∀ g, refs s g ≤ 32767) →
  ∃ s', close_files n mem p d s = Some (tt, s') ∧ fds_ok s' ∧ kernel_ok s' p ∧ no_hangup s' ∧
    p_fd s' = p_fd s ∧ filedescs s' = <[d := cleared n t]> (filedescs s) ∧
    ∀ g, keys s' !! g = drop_links (occ g (drop (length (ofiles t) - n) (ofiles t))) (keys s !! g).
Proof.
  revert s t. induction n as [|n IH]; intros s t Hok Hk Hno Hd Hn Hmax.
  { exists s. repeat (split; [done|]). rewrite cleared_0, insert_id by done.
    split; [done|]. intros g. rewrite drop_ge by lia. by rewrite drop_links_0. }
  cbn [close_files]. erewrite bind_run by (by apply mderef_run). cbv zeta.
  destruct (fo_len s Hok d t Hd) as (Hlen & _ & _). set (i := nfiles t - Z.of_nat (S n)).
  assert (Z.to_nat (i - MIN_HANDLE) = (length (ofiles t) - S n)%nat) as Hi by lia.
  destruct (lookup_lt_is_Some_2 (ofiles t) (length (ofiles t) - S n) ltac:(lia)) as [o Ho].
  assert (slot t i = Some o) as Hs.
  { unfold slot. replace (i <? MIN_HANDLE) with false by lia. by rewrite Hi. }
  erewrite bind_run by (by apply mderef_run).
  destruct (last_entries (ofiles t) n o ltac:(lia) Ho) as [Hdrop Htake].
  assert (Hocc : ∀ g, occ g (drop (length (ofiles t) - S n) (ofiles t))
    = one g o + occ g (drop (length (ofiles t) - n) (ofiles t))).
  { intros g. by rewrite Hdrop, occ_cons. }
  destruct o as [f|].
  - destruct (close_one (mem i) p d t i f s) as (e & s1 & E1 & Hok1 & Hk1 & Hno1 & Hp1 & Hd1 & Hkeys1);
      [done..|].
    erewrite bind_run by done. erewrite bind_run by apply E1.
    assert (length (ofiles (set_slot i None t)) = length (ofiles t)) as Hlen1
      by apply length_insert.
    destruct (IH s1 (set_slot i None t)) as (s' & E & ? & ? & ? & Hp & Hfd & Hkeys); [done..| | | |].
    { by rewrite Hd1, lookup_insert_eq. }
    { rewrite Hlen1. lia. }
    { intros g. unfold refs. rewrite Hd1, (refs_in_insert _ _ _ _ _ Hd), (count_set_slot _ _ _ _ _ Hs).
      specialize (Hmax g). unfold refs, one in *. repeat case_decide; try done; lia. }
    exists s'. repeat (split; [done|]). split; [by rewrite Hp|]. split.
    { rewrite Hfd, Hd1, insert_insert_eq. by rewrite cleared_slot by lia. }
    intros g. rewrite Hkeys, Hkeys1, Hlen1, Hocc.
    replace (drop _ (ofiles (set_slot i None t))) with (drop (length (ofiles t) - n) (ofiles t))
      by (cbn; rewrite Hi; by rewrite drop_insert_lt by lia).
    unfold one. case_decide; [|by rewrite drop_links_0].
    apply drop_links_add; [done|apply occ_nonneg].
  - destruct (IH s t) as (s' & E & ? & ? & ? & Hp & Hfd & Hkeys); [done..|lia|done|].
    exists s'. repeat (split; [done|]). split.
    + rewrite Hfd. f_equal. unfold cleared. f_equal. rewrite <- Htake, <- app_assoc. done.
    + intros g. rewrite Hkeys, Hocc. unfold one. by rewrite decide_False.
Qed.

(** ** The controlling terminal *)

(** [q] is another process of the group that has the terminal. *)
Definition is_peer (s : fstate) (by_device : bool) (p : ptr) (group : Z) (f : ptr)
    (r : fileptr) (q : ptr) : bool :=
  match procs (fk s) !! q, handle s q (-1) with
  | Some rq, Some g =>
      negb (gone rq) && (pgrp rq =? group) && negb (bool_decide (q = p)) &&
      (if by_device then
         match files s !! g with
         | Some rg => (fc_index (f_fc rg) =? fc_index (f_fc r)) && (fc_dev (f_fc rg) =? fc_dev (f_fc r))
         | None => false
         end
       else bool_decide (g = f))
  | _, _ => false
  end.

(** Every member of the group of [p] has a table, and is not about to open its terminal. *)
Definition peers_ok (s : fstate) (p : ptr) : Prop :=
  ∀ q rq rp, q ∈ proclist (fk s) → procs (fk s) !! q = Some rq → procs (fk s) !! p = Some rp →
    gone rq = false → pgrp rq = pgrp rp → q ≠ p →
    ∃ d t c, p_fd s !! q = Some d ∧ filedescs s !! d = Some t ∧ slot t (-1) = Some c ∧
      c ≠ reserved ∧ -1 < nfiles t.

Lemma same_control_run s by_device f r q d t c :
  fds_ok s → p_fd s !! q = Some d → filedescs s !! d = Some t → slot t (-1) = Some c →
  c ≠ reserved →
  same_control by_device f r q s = Some (
    if by_device then
      match c ≫= λ g, files s !! g with
      | Some rg => (fc_index (f_fc rg) =? fc_index (f_fc r)) && (fc_dev (f_fc rg) =? fc_dev (f_fc r))
      | None => false
      end
    else bool_decide (c = Some f), s).
Proof.
  intros Hok Hq Hd Hs Hc. unfold same_control, control_of.
  erewrite bind_run.
  2: { erewrite bind_run by (by eapply getfd_run). by apply mderef_run. }
  destruct by_device; [|done]. destruct c as [g|]; [|done]. cbn.
  destruct (fo_open s Hok d t g Hd) as [rg Hg]; [|done|].
  { apply slot_index in Hs as [_ Hs]. by eapply list_elem_of_lookup_2. }
  erewrite bind_run by (by apply (mderef_run (λ s, files s !! g))). by rewrite Hg.
Qed.

Lemma has_peer_run s by_device p rp f r l :
  fds_ok s → procs (fk s) !! p = Some rp → peers_ok s p → procs_listed (fk s) →
  (∀ q, q ∈ l → q ∈ proclist (fk s)) →
  has_peer by_device p (pgrp rp) f r l s =
    Some (existsb (is_peer s by_device p (pgrp rp) f r) l, s).
Proof.
  intros Hok Hp Hpeers Hlist. induction l as [|q l IH]; intros Hl; [done|].
  cbn [has_peer existsb].
  assert (Hrest := IH (λ q' H', Hl q' (list_elem_of_further _ _ _ H'))).
  assert (q ∈ proclist (fk s)) as Hq by (apply Hl; left).
  unfold procs_listed in Hlist. rewrite Forall_forall in Hlist. destruct (Hlist q Hq) as [rq Hrq].
  erewrite bind_run by (unfold on_kernel, mlift; by erewrite getp_run).
  replace (set_fk (fk s) s) with s by (by destruct s).
  unfold is_peer at 1. rewrite Hrq. destruct (gone rq) eqn:Hg.
  { rewrite Hrest. by destruct (handle s q (-1)). }
  destruct (Z.eqb_spec (pgrp rq) (pgrp rp)) as [Hgrp|Hgrp]; cbn [andb negb].
  2: { rewrite Hrest. by destruct (handle s q (-1)). }
  case_bool_decide as Hne; cbn [andb negb].
  { rewrite Hrest. by destruct (handle s q (-1)). }
  destruct (Hpeers q rq rp Hq Hrq Hp Hg Hgrp Hne) as (d & t & c & Hpq & Hd & Hs & Hc & Hn).
  erewrite bind_run by (by eapply same_control_run).
  assert (handle s q (-1) = c) as Hh.
  { unfold handle. rewrite Hpq. cbn [mbind option_bind]. rewrite Hd. cbn [mbind option_bind].
    replace (-1 <? nfiles t) with true by lia. rewrite Hs. destruct c as [g|]; [|done]. by rewrite bool_decide_false. }
  rewrite Hh. destruct c as [g|]; cbn.
  - rewrite (bool_decide_ext (Some g = Some f) (g = f)) by naive_solver. by case_bool.
  - by destruct by_device.
Qed.

(** When the last table of a process is given up its terminal loses its group exactly if
    the process was in that group, and no living process of the group has the terminal.
    With more than one user of the terminal, another open file for the device counts. *)
Lemma release_control_run s p d t rp :
  fds_ok s → filedescs s !! d = Some t → -1 < nfiles t → slot t (-1) ≠ Some reserved →
  procs (fk s) !! p = Some rp → peers_ok s p → procs_listed (fk s) → no_hangup s →
  match slot t (-1) ≫= id with
  | Some f => ∃ r, files s !! f = Some r ∧
      if is_terminal r then
        ∃ a ty, f_devinfo r = Z.pos a ∧ ttys s !! a = Some ty ∧
          release_control p t s = Some (tt,
            if (pgrp rp =? tt_pgrp ty) &&
               negb (existsb (is_peer s (1 <? tt_use_cnt ty) p (pgrp rp) f r) (proclist (fk s)))
            then set_ttys (<[a := set_tt_pgrp 0 ty]> (ttys s)) s else s)
      else release_control p t s = Some (tt, s)
  | None => release_control p t s = Some (tt, s)
  end.
Proof.
  intros Hok Hd Hn Hres Hp Hpeers Hlist Hno.
  destruct (slot_some s d t (-1) Hok Hd ltac:(unfold MIN_HANDLE; lia)) as [c Hs].
  unfold release_control. rewrite Hs. change (Some c ≫= id) with c. destruct c as [f|].
  2: by erewrite bind_run by (by apply mderef_run).
  destruct (fo_open s Hok d t f Hd) as [r Hf]; [|congruence|].
  { apply slot_index in Hs as [_ Hs]. by eapply list_elem_of_lookup_2. }
  exists r. split; [done|]. erewrite bind_run by (by apply mderef_run). cbv beta iota.
  erewrite bind_run by (by apply (mderef_run (λ s, files s !! f))).
  destruct (is_terminal r) eqn:Ht; [|done].
  destruct (Hno f r Hf Ht) as (a & ty & Ha & Hty & _). exists a, ty. split; [done|].
  split; [done|]. unfold tty_of. rewrite Ha. erewrite bind_run by done.
  erewrite bind_run by (by apply (mderef_run (λ s, ttys s !! a))).
  erewrite bind_run by (unfold on_kernel, mlift; by erewrite getp_run).
  replace (set_fk (fk s) s) with s by (by destruct s).
  destruct (pgrp rp =? tt_pgrp ty); [|done]. erewrite bind_run by done.
  erewrite bind_run by (by apply has_peer_run). cbn [andb].
  destruct (existsb _ _); [done|]. cbn. unfold modt. by rewrite Hty.
Qed.

(** ** The directories that are searched *)

(** A call on the files leaves the rest alone. *)
Definition files_only (p : ptr) {A} (c : M dst A) : Prop :=
  ∀ s, kernel_ok (dfs s) p → no_hangup (dfs s) →
    ∃ a f, c s = Some (a, set_dfs f s) ∧ same_fds (dfs s) f ∧ kernel_ok f p ∧ no_hangup f.

Lemma files_only_ret p {A} (a : A) : files_only p (mret a).
Proof. intros s Hk Hn. exists a, (dfs s). split; [by destruct s|]. by split. Qed.

Lemma files_only_bind p {A B} (c : M dst A) (k : A → M dst B) :
  files_only p c → (∀ a, files_only p (k a)) → files_only p (c ≫= k).
Proof.
  intros Hc Hk s Hs Hn. destruct (Hc s Hs Hn) as (a & f & E & Hf & Hs' & Hn').
  destruct (Hk a (set_dfs f s) Hs' Hn') as (b & g & E2 & Hg & Hs2 & Hn2).
  exists b, g. split; [by erewrite bind_run|]. split; [by eapply same_fds_trans|done].
Qed.

Lemma files_only_on_f p {A} (c : M fstate A) :
  quiet p c → calm no_hangup c → files_only p (on_f c).
Proof.
  intros Hq Hc s Hs Hn. destruct (quiet_good no_hangup p c Hq Hc (dfs s) Hs Hn)
    as (a & f & E & ?). exists a, f. split; [|done]. unfold on_f, mlift. by rewrite E.
Qed.

Lemma close_dirh_only p h :
  fc_fs (dh_fc h) ≠ 0 → files_only p (xfs_closedir h ;; on_f (release_cookie (dh_fc h))).
Proof.
  intros Hfs. apply files_only_bind.
  - unfold xfs_closedir, through. intros s Hs Hn.
    erewrite bind_run by (apply massert_run; lia).
    by apply (files_only_on_f p); [apply closedir_quiet|apply closedir_calm|..].
  - intros _. apply files_only_on_f; [apply release_quiet|apply calm_release].
Qed.

Lemma close_searches_only p us ds :
  (∀ i h, us !! i = Some true → ds !! i = Some h → fc_fs (dh_fc h) ≠ 0) →
  files_only p (close_searches us ds).
Proof.
  revert ds. induction us as [|u us IH]; intros [|h ds] Hok; try apply files_only_ret.
  cbn [close_searches]. apply files_only_bind.
  - destruct u; [|apply files_only_ret]. apply close_dirh_only. by apply (Hok 0%nat).
  - intros _. apply IH. intros i. apply (Hok (S i)).
Qed.

(** The state after the directories of [l] were freed *)
Definition without (l : list Z) (s : dst) : dst :=
  set_dlive (filter (λ a, a ∉ l) (dlive s)) s.

Lemma filter_one a (l : list Z) : filter (λ b, b ≠ a) l = filter (λ b, b ∉ [a]) l.
Proof. apply list_filter_iff. intros b. set_solver. Qed.

Lemma filter_more a (l k : list Z) :
  filter (λ b, b ∉ a :: l) k = filter (λ b, b ∉ l) (filter (λ b, b ∉ [a]) k).
Proof. rewrite list_filter_filter. apply list_filter_iff. intros b. set_solver. Qed.

Lemma kfree_dir_run a s : a ∈ dlive s → kfree_dir a s = Some (tt, without [a] s).
Proof.
  intros Ha. unfold kfree_dir. erewrite bind_run by done.
  erewrite bind_run by (apply massert_run; by apply bool_decide_eq_true).
  unfold without, mmod. by rewrite filter_one.
Qed.

Lemma close_dirs_run p fuel o l s :
  chain (nxt s) o l → NoDup l → (∀ a, a ∈ l → is_Some (dirs s !! a) ∧ a ∈ dlive s) →
  (length l ≤ fuel)%nat → kernel_ok (dfs s) p → no_hangup (dfs s) →
  ∃ f, close_dirs fuel o s = Some (tt, set_dfs f (without l s)) ∧
    same_fds (dfs s) f ∧ kernel_ok f p ∧ no_hangup f.
Proof.
  revert fuel o s. induction l as [|a l IH]; intros fuel o s Hc Hnd Hin Hlen Hk Hn.
  { cbn in Hc. subst o. exists (dfs s). split; [|by split].
    unfold without. rewrite filter_all by (apply Forall_forall; set_solver).
    destruct fuel; cbn; by destruct s. }
  destruct Hc as [-> Hc]. apply NoDup_cons in Hnd as [Ha Hnd].
  destruct fuel as [|fuel]; [cbn in Hlen; lia|]. cbn [close_dirs].
  destruct (Hin a ltac:(left)) as [[h Hh] Hlive].
  erewrite bind_run by (by apply (mderef_run (λ s, dirs s !! a))).
  assert (files_only p (if negb (fc_fs (dh_fc h) =? 0)
    then xfs_closedir h ;; on_f (release_cookie (dh_fc h)) else mret tt)) as Hfo.
  { destruct (Z.eqb_spec (fc_fs (dh_fc h)) 0); cbn [negb]; [apply files_only_ret|].
    by apply close_dirh_only. }
  destruct (Hfo s Hk Hn) as ([] & f & E & Hf & Hk1 & Hn1). erewrite bind_run by apply E.
  set (s1 := set_dfs f (without [a] s)).
  erewrite (bind_run _ _ _ tt s1) by (by apply kfree_dir_run).
  assert (nxt s a = dh_next h) as Hnx by (unfold nxt; by rewrite Hh). rewrite Hnx in Hc.
  destruct (IH fuel (dh_next h) s1) as (g & E2 & Hg & Hk2 & Hn2); try done.
  - intros b Hb. destruct (Hin b ltac:(by right)) as [Hd Hl]. split; [done|].
    unfold s1, without. cbn. apply list_elem_of_filter. split; [set_solver|done].
  - cbn in Hlen. lia.
  - exists g. split; [|split; [by eapply same_fds_trans|done]].
    rewrite E2. unfold s1, without. cbn [dlive set_dfs set_dlive].
    by rewrite (filter_more a l (dlive s)).
Qed.

(** As many directories as fuel *)
Lemma chain_length s l :
  NoDup l → (∀ a, a ∈ l → is_Some (dirs s !! a)) → (length l ≤ size (dirs s))%nat.
Proof.
  intros Hnd Hin. rewrite <- (size_dom (D := gset Z)), <- (size_list_to_set (C := gset Z) l Hnd).
  apply subseteq_size. intros a Ha%elem_of_list_to_set. by apply elem_of_dom, Hin.
Qed.

(** ** The end of a process *)

(** What [free_fd] needs of the process [p] with the table [t] *)
Record may_end (s : fstate) (p : ptr) (t : filedesc) : Prop := {
  me_kernel : kernel_ok s p;
  me_hangup : no_hangup s;
  me_listed : procs_listed (fk s);
  me_peers : peers_ok s p;
  me_control : slot t (-1) ≠ Some reserved;
  me_refs g : refs s g ≤ 32767
}.

(** The process is gone, and so is its table, with the searches [l]. *)
Record freed (s s' : dst) (p d : ptr) (t : filedesc) (l : list Z) : Prop := {
  fr_procs : p_fd (dfs s') = delete p (p_fd (dfs s));
  fr_tables : filedescs (dfs s') = delete d (filedescs (dfs s));
  fr_keys f : keys (dfs s') !! f = drop_links (count f t) (keys (dfs s) !! f);
  fr_rest : fdx s' = delete d (fdx s);
  fr_dirs : dirs s' = dirs s;
  fr_live : dlive s' = filter (λ a, a ∉ l) (dlive s)
}.

Lemma fds_ok_ttys s m : fds_ok s → fds_ok (set_ttys m s).
Proof. intros Hok. split; apply Hok. Qed.

Lemma fds_ok_leave s p : fds_ok s → fds_ok (set_p_fd (delete p (p_fd s)) s).
Proof.
  intros Hok. split; [|apply Hok..]. intros q d. cbn.
  rewrite lookup_delete_Some. intros [_ ?]. by eapply (fo_table s Hok).
Qed.

Lemma release_control_ok s p d t :
  fds_ok s → filedescs s !! d = Some t → may_end s p t →
  ∃ m, release_control p t s = Some (tt, set_ttys m s) ∧ no_hangup (set_ttys m s).
Proof.
  intros Hok Hd [[[rp Hp] Hq] Hno Hl Hpeers Hc _].
  destruct (fo_len s Hok d t Hd) as (_ & _ & Hn).
  pose proof (release_control_run s p d t rp Hok Hd ltac:(lia) Hc Hp Hpeers Hl Hno) as Hrun.
  assert (∃ m, Some (tt, s) = Some (tt, set_ttys m s) ∧ no_hangup (set_ttys m s)) as Hsame
    by (exists (ttys s); by destruct s).
  destruct (slot t (-1) ≫= id) as [f|]; [|by rewrite Hrun].
  destruct Hrun as (r & Hf & Hrun). destruct (is_terminal r) eqn:Ht; [|by rewrite Hrun].
  destruct Hrun as (a & ty & Ha & Hty & ->). case_bool; [|done].
  eexists. split; [done|]. by apply (no_hangup_tty s a ty).
Qed.

Lemma free_fd_last mem s L p d t x :
  tables_ok s → streams_ok s L → may_end (dfs s) p t → p_fd (dfs s) !! p = Some d →
  filedescs (dfs s) !! d = Some t → fdx s !! d = Some x → fx_links x = 1 →
  ∃ s', free_fd mem p s = Some (tt, s') ∧ freed s s' p d t (L d).
Proof.
  intros Hok HL Hme Hp Hd Hx Hl. pose proof (tk_fds s Hok) as Hfds. unfold free_fd, fd_of.
  erewrite bind_run by (by apply mderef_run).
  erewrite bind_run by (by apply mderef_run).
  erewrite bind_run by (apply massert_run; lia). rewrite Hl.
  set (f1 := set_p_fd (delete p (p_fd (dfs s))) (dfs s)).
  erewrite (bind_run _ _ _ tt (set_dfs f1 s)) by done.
  set (x1 := set_fx_links (1 - 1) x).
  erewrite (bind_run _ _ _ tt (set_fdx (<[d := x1]> (fdx s)) (set_dfs f1 s)))
    by (unfold modx; by erewrite bind_run by (by apply mderef_run)).
  change (0 <? 1 - 1) with false. cbv iota.
  erewrite bind_run by (by apply mderef_run).
  pose proof (fds_ok_leave _ p Hfds) as Hok1. fold f1 in Hok1.
  assert (may_end f1 p t) as Hme1.
  { destruct Hme as [? ? ? Hpeers ? ?]. split; try done. intros q rq rp Hq Hrq Hrp Hg Hgr Hne.
    destruct (Hpeers q rq rp Hq Hrq Hrp Hg Hgr Hne) as (d1 & t1 & c & Hpq & Hrest).
    exists d1, t1, c. split; [by cbn; rewrite lookup_delete_ne|done]. }
  destruct (release_control_ok f1 p d t Hok1 Hd Hme1) as (m & E1 & Hno2).
  erewrite bind_run by (unfold on_f, mlift; cbn; by rewrite E1).
  set (f2 := set_ttys m f1) in *.
  destruct (fo_len _ Hfds d t Hd) as (Hlen & _ & _).
  destruct (close_files_run (Z.to_nat (nfiles t - MIN_HANDLE)) mem p d t f2)
    as (f3 & E3 & Hok3 & Hk3 & Hno3 & Hp3 & Hd3 & Hkeys);
    [by apply fds_ok_ttys|apply Hme|done|done|lia|apply Hme|].
  erewrite bind_run by (unfold on_f, mlift; cbn; by rewrite E3).
  rewrite <- Hlen, Nat.sub_diag, drop_0 in Hkeys.
  edestruct (close_searches_only p (fx_srchdta x) (fx_srchdir x))
    as ([] & f4 & E4 & (Hp4 & Hd4 & Hk4) & Hok4 & Hno4);
    [by apply (tk_searches s Hok d)| | |].
  3: erewrite bind_run by apply E4. 1-2: done.
  erewrite bind_run by done.
  edestruct (close_dirs_run p (size (dirs s)) (fx_searches x) (L d))
    as (f5 & E5 & (Hp5 & Hd5 & Hk5) & _).
  7: erewrite bind_run by apply E5.
  - eapply chain_frame, (so_chain s L HL d x Hx). done.
  - apply (so_nodup s L HL).
  - apply (so_dirs s L HL).
  - apply chain_length; [apply (so_nodup s L HL)|intros a Ha; by apply (so_dirs s L HL d)].
  - done.
  - done.
  - erewrite bind_run by done. eexists. split; [done|]. split; cbn.
    + rewrite Hp5. cbn. rewrite Hp4. cbn. by rewrite Hp3.
    + rewrite Hd5. cbn. rewrite Hd4. cbn. rewrite Hd3. by rewrite delete_insert_eq.
    + intros f. etrans; [|exact (Hkeys f)]. change (keys f5 !! f = keys f3 !! f).
      rewrite Hk5. change (keys f4 !! f = keys f3 !! f). by rewrite Hk4.
    + by rewrite delete_insert_eq.
    + done.
    + done.
Qed.

Section after.
Context (s s' : dst) (p d : ptr) (t : filedesc) (x : fdrest) (L : ptr → list Z).
Context (Hok : tables_ok s) (HL : streams_ok s L) (Hp : p_fd (dfs s) !! p = Some d).
Context (Hd : filedescs (dfs s) !! d = Some t) (Hx : fdx s !! d = Some x) (Hl : fx_links x = 1).
Context (Hfr : freed s s' p d t (L d)).

Lemma freed_only q : q ≠ p → p_fd (dfs s) !! q ≠ Some d.
Proof.
  intros Hne Hq. apply Hne. eapply (users_in_one _ p d q); [done| |done].
  rewrite <- Hl. symmetry. by apply (tk_links s Hok).
Qed.

Lemma freed_refs f : refs (dfs s') f = refs (dfs s) f - count f t.
Proof.
  unfold refs. rewrite (fr_tables _ _ _ _ _ _ Hfr), (refs_in_split _ d t f Hd). lia.
Qed.

(** A file afterwards, and before *)
Lemma freed_file f r' :
  files (dfs s') !! f = Some r' →
  ∃ r, files (dfs s) !! f = Some r ∧ f_links r' = f_links r - count f t.
Proof.
  intros Hf%keys_lookup. rewrite (fr_keys _ _ _ _ _ _ Hfr) in Hf. unfold drop_links in Hf.
  destruct (keys (dfs s) !! f) as [[[l ty] dv]|] eqn:Hk; [|done]. cbn in Hf.
  apply keys_inv in Hk as (r & Hr & Hkr). injection Hkr as Hlr _ _. exists r. split; [done|].
  unfold key in Hf. destruct (Z.eqb_spec (count f t) 0).
  - injection Hf as Hl' _ _. lia.
  - destruct (l <=? count f t); [done|]. injection Hf as Hl' _ _. lia.
Qed.

Lemma freed_open f :
  is_Some (files (dfs s') !! f) ↔
  is_Some (files (dfs s) !! f) ∧ (count f t = 0 ∨ count f t < refs (dfs s) f).
Proof.
  rewrite <- !keys_some, (fr_keys _ _ _ _ _ _ Hfr). unfold drop_links.
  destruct (keys (dfs s) !! f) as [[[l ty] dv]|] eqn:Hk; cbn.
  2: { split; [by intros []|by intros [[] _]]. }
  apply keys_inv in Hk as (r & Hr & Hkr). injection Hkr as Hlr _ _.
  destruct (fo_links _ (tk_fds s Hok) f r Hr) as [_ Hl2].
  destruct (Z.eqb_spec (count f t) 0); [split; eauto|].
  destruct (Z.leb_spec l (count f t)); split; eauto.
  - by intros [].
  - intros [_ ?]. lia.
  - intros _. split; [eauto|lia].
Qed.

Lemma freed_fds_ok : fds_ok (dfs s').
Proof.
  pose proof (tk_fds s Hok) as Hfds. destruct Hfr as [Fp Ft _ _ _ _]. split.
  - intros q d'. rewrite Fp, Ft, lookup_delete_Some. intros [Hne Hq].
    rewrite lookup_delete_ne; [by eapply (fo_table _ Hfds)|].
    intros Heq. apply (freed_only q); congruence.
  - intros d' t'. rewrite Ft, lookup_delete_Some. intros [_ ?]. by apply (fo_len _ Hfds d').
  - intros d' t' f. rewrite Ft, lookup_delete_Some. intros [Hne Hd'] Hf Hr.
    apply freed_open. split; [by eapply (fo_open _ Hfds)|]. right.
    pose proof (refs_in_split _ d t f Hd) as E.
    assert (1 ≤ refs_in (delete d (filedescs (dfs s))) f); [|unfold refs in *; lia].
    eapply (refs_in_elem _ d'); [|done]. by rewrite lookup_delete_ne.
  - intros f r' (r & Hr & E)%freed_file. rewrite freed_refs.
    destruct (fo_links _ Hfds f r Hr). split; [done|lia].
Qed.

Lemma freed_ok : tables_ok s'.
Proof.
  destruct Hfr as [Fp Ft _ Fx Fd Fl]. split.
  - apply freed_fds_ok.
  - intros d'. rewrite Fx, Ft. destruct (decide (d' = d)) as [->|Hne].
    + rewrite !lookup_delete_eq. split; by intros [].
    + rewrite !lookup_delete_ne by done. apply (tk_rest s Hok).
  - intros d' x'. rewrite Fx, lookup_delete_Some. intros [Hne Hx'].
    rewrite (tk_links s Hok d' x' Hx'). unfold users. rewrite Fp, (users_in_delete _ _ _ _ Hp).
    rewrite decide_False by done. lia.
  - intros d' x'. rewrite Fx, lookup_delete_Some. intros [_ ?]. by apply (tk_searches s Hok d').
  - exists (λ d', if decide (d' = d) then [] else L d'). destruct HL as [Hc Hn Hdr Hnd Ho Hlv].
    split.
    + intros d' x'. rewrite Fx, lookup_delete_Some. intros [Hne Hx'].
      rewrite decide_False by done. eapply chain_frame, Hc, Hx'.
      intros a _. unfold nxt. by rewrite Fd.
    + intros d'. rewrite Fx, lookup_delete_None. case_decide; [done|].
      intros [?|?]; [congruence|by apply Hn].
    + intros d' a. case_decide; [set_solver|]. intros Ha. destruct (Hdr d' a Ha) as [? ?].
      rewrite Fd, Fl. split; [done|]. apply list_elem_of_filter. split; [|done].
      intros Ha'. by pose proof (Ho d' d a Ha Ha').
    + intros d'. case_decide; [apply NoDup_nil_2|done].
    + intros d1 d2 a. repeat case_decide; set_solver.
    + intros a. rewrite Fl, list_elem_of_filter. intros [Ha Hin].
      destruct (Hlv a Hin) as [d' Hd']. exists d'. rewrite decide_False; [done|].
      by intros ->.
Qed.
End after.

(** The table is shared: it loses a link. *)
Definition left (s : dst) (p d : ptr) (x : fdrest) : dst :=
  set_fdx (<[d := set_fx_links (fx_links x - 1) x]> (fdx s))
    (set_dfs (set_p_fd (delete p (p_fd (dfs s))) (dfs s)) s).

Lemma free_fd_shared mem s p d x :
  p_fd (dfs s) !! p = Some d → fdx s !! d = Some x → 1 < fx_links x →
  free_fd mem p s = Some (tt, left s p d x).
Proof.
  intros Hp Hx Hl. unfold free_fd, fd_of.
  erewrite bind_run by (by apply mderef_run).
  erewrite bind_run by (by apply mderef_run).
  erewrite bind_run by (apply massert_run; lia).
  erewrite bind_run by done.
  erewrite bind_run by (unfold modx; by erewrite bind_run by (by apply mderef_run)).
  by replace (0 <? fx_links x - 1) with true by lia.
Qed.

Lemma left_ok s p d x :
  tables_ok s → p_fd (dfs s) !! p = Some d → fdx s !! d = Some x → tables_ok (left s p d x).
Proof.
  intros Hok Hp Hx. destruct (tk_streams s Hok) as [L [Hc Hn ? ? ? ?]]. split; cbn.
  - by apply fds_ok_leave, Hok.
  - intros d'. rewrite <- (tk_rest s Hok). destruct (decide (d' = d)) as [->|Hne].
    + rewrite lookup_insert_eq, Hx. split; eauto.
    + by rewrite lookup_insert_ne.
  - intros d' x'. unfold users. cbn. rewrite (users_in_delete _ _ _ _ Hp), lookup_insert_Some.
    intros [[<- <-]|[Hne Hx']].
    + cbn. rewrite decide_True, (tk_links s Hok d x Hx) by done. done.
    + rewrite decide_False, (tk_links s Hok d' x' Hx') by done. unfold users. lia.
  - intros d' x'. rewrite lookup_insert_Some. intros [[_ <-]|[_ ?]].
    + exact (tk_searches s Hok d x Hx).
    + by apply (tk_searches s Hok d').
  - exists L. split; try done; cbn.
    + intros d' x'. rewrite lookup_insert_Some. intros [[<- <-]|[_ ?]]; [exact (Hc d x Hx)|by apply Hc].
    + intros d'. rewrite lookup_insert_None. intros [? _]. by apply Hn.
Qed.

Lemma handle_leave s m T q i :
  p_fd s !! q = m !! q → (∀ d, m !! q = Some d → T !! d = filedescs s !! d) →
  ∀ s', p_fd s' = m → filedescs s' = T → handle s' q i = handle s q i.
Proof.
  intros Hq HT s' Hm Ht. unfold handle. rewrite Hm, Ht, Hq.
  destruct (m !! q) as [d|] eqn:Hd; [|done]. cbn. by rewrite (HT d eq_refl).
Qed.


(** ** Fork and exit *)

Lemma copied_keys s t n p2 f :
  keys (copied s t n p2) !! f =
    (λ k : Z * bool * bool, (k.1.1 + occ f (copied_list s t), k.1.2, k.2)) <$> keys s !! f.
Proof.
  unfold keys, copied. cbn. rewrite !lookup_fmap, linked_by_lookup. by destruct (files s !! f).
Qed.

(** The links that a fork added are dropped by the end of the child. *)
Lemma copied_dropped s t n p2 d f :
  fds_ok s → filedescs s !! d = Some t →
  drop_links (occ f (copied_list s t)) (keys (copied s t n p2) !! f) = keys s !! f.
Proof.
  intros Hok Hd. rewrite copied_keys. destruct (keys s !! f) as [[[l ty] dv]|] eqn:Hk; [|done].
  apply keys_inv in Hk as (r & Hr & Hkr). injection Hkr as Hl _ _. cbn.
  destruct (fo_links s Hok f r Hr) as [_ Hl2].
  destruct (Z.eqb_spec (occ f (copied_list s t)) 0) as [->|Hne]; [by rewrite Z.add_0_r|].
  pose proof (occ_nonneg f (copied_list s t)). pose proof (copied_occ s t f).
  pose proof (refs_in_split _ d t f Hd) as E.
  pose proof (refs_in_nonneg (delete d (filedescs s)) f). unfold refs in *.
  replace (_ <=? _) with false by lia. do 3 f_equal. lia.
Qed.

Lemma copied_may_end s t d n p2 :
  fds_ok s → filedescs s !! d = Some t → filedescs s !! n = None → nfiles t = NDFILE →
  kernel_ok s p2 → no_hangup s → procs_listed (fk s) → peers_ok s p2 →
  (∀ f, refs s f + count f t ≤ 32767) →
  may_end (copied s t n p2) p2 (mk_filedesc (copied_list s t) (ofileflags t) NDFILE).
Proof.
  intros Hok Hd Hn Hnf Hk Hno Hl Hpeers Hmax. split; try done.
  - intros f r. cbn. rewrite linked_by_lookup. intros (r0 & Hf & ->)%fmap_Some.
    by apply (Hno f r0).
  - intros q rq rp Hq Hrq Hrp Hg Hgr Hne.
    destruct (Hpeers q rq rp Hq Hrq Hrp Hg Hgr Hne) as (d1 & t1 & c & Hp1 & Hd1 & Hrest).
    exists d1, t1, c. cbn. rewrite lookup_insert_ne by congruence.
    rewrite lookup_insert_ne by congruence. done.
  - unfold slot. cbn. unfold copied_list. rewrite list_lookup_fmap.
    destruct (ofiles t !! _) as [o|]; [|done]. cbn. intros [= Hk']. symmetry in Hk'.
    destruct (keep (files s) o) as [f|] eqn:Hkeep; [|done].
    apply keep_some in Hkeep as (_ & Hr & _). by rewrite <- Hk' in Hr.
  - intros f. rewrite copied_table_refs by done. pose proof (copied_occ s t f). specialize (Hmax f). lia.
Qed.

(** C29: A fork, with the descriptors copied or shared, and the end of the child: the tables, the
    links of the files and the searches are as they were, and no file was released. *)
Theorem fork_exit_roundtrip share mem s p1 p2 d t n :
  tables_ok s → p_fd (dfs s) !! p1 = Some d → filedescs (dfs s) !! d = Some t →
  nfiles t = NDFILE → p_fd (dfs s) !! p2 = None → filedescs (dfs s) !! n = None →
  (∀ f, refs (dfs s) f + count f t ≤ 32767) →
  kernel_ok (dfs s) p2 → no_hangup (dfs s) → procs_listed (fk (dfs s)) → peers_ok (dfs s) p2 →
  ∃ s1 s2, fork_fd share p1 p2 (Some n) s = Some (true, s1) ∧ free_fd mem p2 s1 = Some (tt, s2) ∧
    p_fd (dfs s2) = p_fd (dfs s) ∧ filedescs (dfs s2) = filedescs (dfs s) ∧
    keys (dfs s2) = keys (dfs s) ∧ fdx s2 = fdx s ∧ dirs s2 = dirs s ∧ dlive s2 = dlive s.
Proof.
  intros Hok Hp Hd Hnf Hp2 Hn Hmax Hk Hno Hl Hpeers.
  destruct (proj2 (tk_rest s Hok d)) as [x Hx]; [by rewrite Hd|].
  pose proof (tk_links s Hok d x Hx) as Hlx. pose proof (users_in_pos _ _ _ Hp) as Hpos.
  fold (users s d) in Hpos. destruct share.
  - eexists _, _. split; [by eapply fork_share_run|]. split.
    { eapply (free_fd_shared _ (shared s d x p2) p2 d); cbn; [apply lookup_insert_eq..|]. cbn. lia. }
    cbn. rewrite delete_insert_id by done. split; [done|]. split; [done|]. split; [done|].
    split; [|done]. rewrite insert_insert_eq, insert_id; [done|]. rewrite Hx. f_equal.
    destruct x. unfold set_fx_links. cbn. f_equal. lia.
  - set (s1 := forked s t x n p2).
    assert (tables_ok s1) as Hok1 by (by eapply forked_ok).
    destruct (tk_streams s1 Hok1) as [L HL].
    destruct (free_fd_last mem s1 L p2 n (mk_filedesc (copied_list (dfs s) t) (ofileflags t) NDFILE)
      (fresh_rest x)) as (s2 & E & Hfr); [done|done| | | | |done|].
    { by apply (copied_may_end _ t d); [apply tk_fds|..]. }
    1-3: by cbn; rewrite lookup_insert_eq.
    assert (L n = []) as HLn.
    { assert (fdx s1 !! n = Some (fresh_rest x)) as Hxn by apply lookup_insert_eq.
      by apply (so_chain s1 L HL n) in Hxn as ?%chain_nodup_none. }
    destruct Hfr as [Fp Ft Fk Fx Fd Fl].
    exists s1, s2. split; [by eapply fork_fd_copy_run|]. split; [done|].
    split; [rewrite Fp; cbn; by rewrite delete_insert_id|].
    split; [rewrite Ft; cbn; by rewrite delete_insert_id|].
    split; [apply map_eq; intros f; rewrite Fk; by apply (copied_dropped _ _ _ _ d); [apply tk_fds|]|].
    split; [|split; [done|]].
    + rewrite Fx. cbn. apply delete_insert_id. apply eq_None_not_Some.
      rewrite (tk_rest s Hok), Hn. by intros [].
    + rewrite Fl, HLn. apply filter_all, Forall_forall. set_solver.
Qed.
End closing.

(** ** A concrete process *)
Module TableExample.

#[export] Instance ex_dev : DevCalls := {|
  dev_unselect := λ _ _ _, mret (); dev_ioctl := λ _ _ _, mret (0, 0);
  tty_ioctl := λ _ _, mret (); xdd_close := λ _ _, mret 0;
  release_cookie := λ _, mret (); other_fcntl := λ _ _ _, mret 0
|}.
#[export] Instance ex_dirs : DirCalls := {|
  dup_cookie := mret; fs_opendir := λ _ _, mret (0, 0, 0);
  fs_readdir := λ _ _, mret (0, [], mk_fcookie 0 0 0, 0, 0);
  fs_rewinddir := λ _, mret (0, 0, 0); fs_closedir := λ _, mret 0;
  fs_getxattr := λ _, mret (0, mk_xattr 16895 0 0)
|}.
#[export] Instance ex_calls : TableCallsOk.
Proof.
  split.
  - split; intros; apply quiet_ret.
  - split; intros; try apply calm_ret; try done.
    + intros g rg. cbn. rewrite lookup_insert_Some. intros [[<- <-]|[_ Hg]]; [by apply (H0 f r)|].
      by apply (H0 g rg).
    + intros g rg. cbn. rewrite lookup_delete_Some. intros [_ Hg]. by apply (H g rg).
  - intros; apply quiet_ret.
  - intros; apply calm_ret.
Qed.

(** The process 2 has the handles [l], all of them for the file 60, and searches the
    directories at 100 and 101, which belong to the handle [k]. *)
Section state.
Context (l : list (option ptr)) (k : Z).

Definition ex_tab : filedesc := mk_filedesc l (replicate 1029 0) NDFILE.
Definition ex_file60 : fileptr := mk_fileptr (occ 60 l) 0 0 0 (mk_fcookie 1 2 9) true None.
Definition ex_files60 : fstate :=
  mk_fstate ex_kst {[ 2%positive := 50%positive ]} {[ 50%positive := ex_tab ]}
    {[ 60%positive := ex_file60 ]} ∅.
Definition ex_dir (nx : option Z) : dirh := mk_dirh (mk_fcookie 1 2 3) 0 0 0 nx k.
Definition ex_rest : fdrest := mk_fdrest 1 (Some 100) (replicate 10 false) [].
Definition ex_dst : dst :=
  mk_dst ex_files60 {[ 50%positive := ex_rest ]}
    {[ 100 := ex_dir (Some 101); 101 := ex_dir None ]} [100; 101].
Definition ex_chains (d : ptr) : list Z := if decide (d = 50%positive) then [100; 101] else [].

Lemma ex_refs f : refs ex_files60 f = occ f l.
Proof.
  unfold refs, refs_in. cbn [filedescs ex_files60]. rewrite map_fold_singleton.
  change (count f ex_tab) with (occ f l). lia.
Qed.

Lemma occ_length f : occ f l ≤ Z.of_nat (length l).
Proof. unfold occ. pose proof (length_filter (λ o, o = Some f) l). lia. Qed.

Lemma ex_chains_ok : streams_ok ex_dst ex_chains.
Proof.
  unfold ex_chains. split; cbn.
  - intros d x [<- <-]%lookup_singleton_Some. rewrite decide_True by done. done.
  - intros d Hd%lookup_singleton_None. rewrite decide_False by congruence. done.
  - intros d a. case_decide; [|set_solver]. intros Ha. split; [|done].
    rewrite !elem_of_cons, elem_of_nil in Ha. destruct_cases; subst; try done; eauto.
  - intros d. case_decide; [|apply NoDup_nil_2]. apply NoDup_cons. split; [set_solver|].
    apply NoDup_singleton.
  - intros d d' a. repeat case_decide; set_solver.
  - intros a Ha. exists 50%positive. by rewrite decide_True.
Qed.

Context (Hlen : length l = 1029%nat) (Hl : Forall (λ o, o = None ∨ o = Some 60%positive) l).

Lemma ex_bound f : refs (dfs ex_dst) f + count f ex_tab ≤ 32767.
Proof.
  cbn [dfs ex_dst]. rewrite ex_refs. change (count f ex_tab) with (occ f l).
  pose proof (occ_length f). lia.
Qed.

Lemma ex_refs_max f : refs ex_files60 f ≤ 32767.
Proof. rewrite ex_refs. pose proof (occ_length f). lia. Qed.

Lemma ex_dst_ok : tables_ok ex_dst.
Proof.
  split.
  - split; cbn.
    + intros p d [_ <-]%lookup_singleton_Some. eauto.
    + intros d t [_ <-]%lookup_singleton_Some. cbn. rewrite Hlen. by vm_compute.
    + intros d t f [_ <-]%lookup_singleton_Some Hf _. cbn in Hf.
      rewrite Forall_forall in Hl. destruct (Hl _ Hf) as [?|[= ->]]; [done|eauto].
    + intros f r [<- <-]%lookup_singleton_Some. by rewrite ex_refs.
  - intros d. cbn. rewrite !lookup_singleton. case_decide; [split; eauto|split; by intros []].
  - intros d x. cbn. intros [<- <-]%lookup_singleton_Some. by vm_compute.
  - intros d x. cbn. intros [<- <-]%lookup_singleton_Some i h. cbn. by destruct i.
  - exists ex_chains. apply ex_chains_ok.
Qed.

Lemma ex_hangup : no_hangup ex_files60.
Proof. intros f r. cbn. intros [<- <-]%lookup_singleton_Some. by vm_compute. Qed.

Lemma ex_listed : procs_listed ex_kst.
Proof. repeat constructor; eauto. Qed.

Lemma ex_peers p : peers_ok ex_files60 p.
Proof.
  intros q rq rp _ Hq Hp _ Hg Hne. exfalso. apply ex_procs_inv in Hq, Hp.
  rewrite !elem_of_cons, elem_of_nil in Hq, Hp. destruct_cases; by simplify_eq.
Qed.

Lemma ex_kernel p : is_Some (procs ex_kst !! p) → kernel_ok ex_files60 p.
Proof. intros Hp. split; [done|]. exists ex_queues. apply ex_queues_ok. Qed.

End state.

(** One handle, 0 *)
Definition ex_one : list (option ptr) := replicate 5 None ++ Some 60%positive :: replicate 1023 None.

Lemma ex_one_ok : length ex_one = 1029%nat ∧ Forall (λ o, o = None ∨ o = Some 60%positive) ex_one.
Proof.
  split; [by vm_compute|]. unfold ex_one. apply Forall_app. split; [by apply Forall_replicate; left|].
  constructor; [by right|]. by apply Forall_replicate; left.
Qed.

Lemma fork_copies_witness :
  ∃ s', fork_fd false 2 3 (Some 51%positive) (ex_dst ex_one 0) = Some (true, s') ∧
    handle (dfs s') 3 0 = Some 60%positive ∧ refs (dfs s') 60 = 2.
Proof.
  destruct (fork_copies (ex_dst ex_one 0) 2 3 50 (ex_tab ex_one) 51
    (ex_dst_ok ex_one 0 (proj1 ex_one_ok) (proj2 ex_one_ok)) eq_refl eq_refl eq_refl eq_refl eq_refl
    (ex_bound ex_one 0 (proj1 ex_one_ok))) as (s' & E & _ & Hh & _ & Hr & _).
  exists s'. split; [done|]. split; [by rewrite Hh|]. rewrite Hr. by vm_compute.
Defined.


Lemma fork_exit_roundtrip_witness :
  ∃ s1 s2, fork_fd false 2 3 (Some 51%positive) (ex_dst ex_one 0) = Some (true, s1) ∧
    free_fd (λ _, None) 3 s1 = Some (tt, s2) ∧ keys (dfs s2) = keys (dfs (ex_dst ex_one 0)).
Proof.
  destruct (fork_exit_roundtrip false (λ _, None) (ex_dst ex_one 0) 2 3 50 (ex_tab ex_one) 51
    (ex_dst_ok ex_one 0 (proj1 ex_one_ok) (proj2 ex_one_ok)) eq_refl eq_refl eq_refl eq_refl eq_refl
    (ex_bound ex_one 0 (proj1 ex_one_ok)) (ex_kernel ex_one 3 ltac:(eauto)) (ex_hangup ex_one)
    ex_listed (ex_peers ex_one 3))
    as (s1 & s2 & E1 & E2 & _ & _ & Hk & _).
  by exists s1, s2.
Defined.

(** A member of the group that is ending, and waits for a file to be closed, has no table
    any more: the search for the terminal goes through its null pointer. *)
Definition ex_tty : fstate :=
  set_ttys {[ 70%positive := mk_tty 2 0 2 0 0 None None false 0 0 0 ]}
    (set_files {[ 60%positive := mk_fileptr 1 O_TTY 0 70 (mk_fcookie 1 2 9) true None ]}
      (set_filedescs {[ 50%positive :=
         mk_filedesc (replicate 4 None ++ Some 60%positive :: replicate 1024 None)
           (replicate 1029 0) NDFILE ]}
        (set_fk (set_procs (<[4%positive := set_pgrp 2 (ex_proc 4 WAIT_Q 77 0 None None)]> ex_procs)
          ex_kst) (ex_files60 ex_one)))).

Example ending_peer_panics : free_fd (λ _, None) 2 (set_dfs ex_tty (ex_dst ex_one 0)) = None.
Proof. by vm_compute. Qed.

Example ending_alone_returns :
  is_Some (free_fd (λ _, None) 2 (set_dfs (set_fk ex_kst ex_tty) (ex_dst ex_one 0))).
Proof. vm_compute. eauto. Qed.
End TableExample.
