(* ===== verification/DirStream.v ===== *)
(** * Directory streams (sys/dosdir.c, sys/dosfile.c)

    The directories that a process searches are chained behind [searches] of its table of
    descriptors.  Dreaddir, Drewinddir, Dclosedir and Fdirfd take the address of such a
    structure; Ffdopendir makes one for an open file, and Fclose closes those of its handle.
    The code walks the chain with a pointer to a link, which is the field [searches], or the
    field [next] of a structure. *)

From S2P Require Import Prelude CInt Errno Linked LibStr Timeout Kernel ProcQueue Cred Files FileDesc FdTable.

Definition S_IROTH : Z := 4.

(** The remaining calls: the driver of a cookie ([Some true] is the one of the BIOS devices),
    with its long, and the open function of a driver *)
Class StreamCalls := {
  fs_getdev : fcookie → M fstate (option bool * Z);
  xdd_open : ptr → M fstate Z
}.

(** [*where]: the link at [searches] of the table [d], or at [next] of a structure *)
Definition getlink (d : ptr) (w : option Z) : M dst (option Z) :=
  match w with
  | None => x ← getx d; mret (fx_searches x)
  | Some a => h ← getdir a; mret (dh_next h)
  end.
(** [*where = v] *)
Definition setlink (d : ptr) (w v : option Z) : M dst unit :=
  match w with
  | None => modx d (set_fx_searches v)
  | Some a => moddir a (set_dh_next v)
  end.

(** [while ( *where && *where != dirh) where = &(( *where)->next);]; the answer is [where], if
    [*where] is not null at the end *)
Fixpoint find_link (fuel : nat) (d : ptr) (w : option Z) (dirh : Z) : M dst (option (option Z)) :=
  v ← getlink d w;
  match v, fuel with
  | None, _ => mret None
  | Some a, O => if a =? dirh then mret (Some w) else mpanic
  | Some a, S fuel => if a =? dirh then mret (Some w) else find_link fuel d (Some a) dirh
  end.

(** The table of the process, and the link to the structure at [handle] *)
Definition find_dir (p : ptr) (handle : Z) : M dst (ptr * option (option Z)) :=
  d ← fd_of p;
  n ← mgets (λ s, size (dirs s));
  w ← find_link n d None handle;
  mret (d, w).

(** [kmalloc (sizeof ( *dirh))], at the address [a] *)
Definition kmalloc_dir (a : Z) (h : dirh) : M dst unit :=
  mmod (λ s, set_dlive (a :: dlive s) (set_dirs (<[a := h]> (dirs s)) s)).

Section streams.
Context `{DevCalls} `{DirCalls} `{StreamCalls}.

(** The file system stored its place in the directory. *)
Definition at_place (i st : Z) (h : dirh) : dirh := set_dh_stuff st (set_dh_index i h).

(** The answer and the name *)
Definition sys_d_readdir (len handle : Z) : M dst (Z * str) :=
  p ← on_f current;
  '(_, w) ← find_dir p handle;
  match w with
  | None => mret (EBADF, [])
  | Some _ =>
      h ← getdir handle;
      if fc_fs (dh_fc h) =? 0 then mret (EBADF, [])
      else
        '(r, name, fc, i, st) ← through h (fs_readdir h len);
        moddir handle (at_place i st) ;;
        mwhen (r =? E_OK) (on_f (release_cookie fc)) ;;
        mret (r, name)
  end.

Definition sys_d_rewind (handle : Z) : M dst Z :=
  p ← on_f current;
  '(_, w) ← find_dir p handle;
  match w with
  | None => mret EBADF
  | Some _ =>
      h ← getdir handle;
      if fc_fs (dh_fc h) =? 0 then mret EBADF
      else
        '(r, i, st) ← through h (fs_rewinddir h);
        moddir handle (at_place i st) ;;
        mret r
  end.

(** The loop that closes the structures that [sel] selects, those of a handle.  The link that follows is read
    from the structure, and written through, after it was freed. *)
Fixpoint close_streams (fuel : nat) (d : ptr) (w : option Z) (sel : dirh → bool) : M dst unit :=
  v ← getlink d w;
  match v, fuel with
  | None, _ => mret tt
  | Some _, O => mpanic
  | Some a, S fuel =>
      h ← getdir a;
      mwhen (sel h) (
        xfs_closedir h ;;
        on_f (release_cookie (dh_fc h)) ;;
        kfree_dir a ;;
        n ← getlink d (Some a);
        setlink d w n) ;;
      close_streams fuel d (Some a) sel
  end.

(** The loop of Fclose, and of Dclosedir *)
Definition close_streams_of (p : ptr) (sel : dirh → bool) : M dst unit :=
  d ← fd_of p;
  n ← mgets (λ s, size (dirs s));
  close_streams n d None sel.

(** [single] is [p->modeflags & M_SINGLE_TASK]. *)
Definition sys_f_close (single : bool) (mem : option ptr) (fd : Z) : M dst Z :=
  c ← on_f current;
  if (fd <? 0) && single then mret 0
  else
    g ← on_f (fp_get c fd);
    match g with
    | inl e => mret e
    | inr (p, fd, f) =>
        close_streams_of p (λ h, (MIN_OPEN <=? fd) && (dh_fd h =? fd)) ;;
        on_f (close_handle mem p fd f)
    end.

(** The file that Fdirfd opened for the directory is closed with it. *)
Definition close_dirfd (mem : option ptr) (c : ptr) (handle : Z) (h : dirh) : M dst unit :=
  mwhen (MIN_OPEN <=? dh_fd h) (
    g ← on_f (fp_get c (dh_fd h));
    match g with
    | inl _ => mret tt
    | inr (p, fd, f) =>
        moddir handle (set_dh_fd fd) ;;
        close_streams_of p (λ h, dh_fd h =? fd) ;;
        on_f (do_close mem p (Some f)) ;;
        on_f (fd_remove p fd)
    end).

Definition sys_d_closedir (mem : option ptr) (handle : Z) : M dst Z :=
  c ← on_f current;
  '(d, w) ← find_dir c handle;
  match w with
  | None => mret EBADF
  | Some w =>
      h ← getdir handle;
      setlink d w (dh_next h) ;;
      if fc_fs (dh_fc h) =? 0 then kfree_dir handle ;; mret E_OK
      else
        close_dirfd mem c handle h ;;
        h ← getdir handle;
        r ← xfs_closedir h;
        on_f (release_cookie (dh_fc h)) ;;
        kfree_dir handle ;;
        mret r
  end.

Definition ucred_of (p : ptr) : M dst ucred := on_k (a ← cred_of p; c ← getpc a; getuc (ucr c)).

(** [mem] is the address of the new structure, [junk] what is in it where the file system
    keeps its data. *)
Definition sys_f_opendir (mem : option Z) (junk fd : Z) : M dst Z :=
  c ← on_f current;
  g ← on_f (fp_get c fd);
  match g with
  | inl e => mret e
  | inr (p, fd, f) =>
      r ← on_f (getf f);
      if fc_fs (f_fc r) =? 0 then mret ENOSYS
      else
        u ← ucred_of p;
        '(e, x) ← on_f (fs_getxattr (f_fc r));
        let '(e, _) := dir_access u e x S_IROTH in
        if negb (e =? 0) then mret e
        else
          match mem with
          | None => mret ENOMEM
          | Some a =>
              fc ← on_f (dup_cookie (f_fc r));
              let h := mk_dirh fc 0 0 junk None 0 in
              kmalloc_dir a h ;;
              '(e, i, st) ← through h (fs_opendir h 0);
              if negb (e =? 0) then
                on_f (release_cookie fc) ;; kfree_dir a ;; mret e
              else
                d ← fd_of p;
                x ← getx d;
                moddir a (λ h, set_dh_fd fd (set_dh_next (fx_searches x) (at_place i st h))) ;;
                modx d (set_fx_searches (Some a)) ;;
                massert (0 <? a) ;;
                mret a
          end
  end.

(** The file that Fdirfd opens, on the handle [fd] that was allocated; [mem] is its memory. *)
Definition open_dirfd (mem : option ptr) (c : ptr) (fd : Z) (h : dirh) (fake : bool) (devsp : Z) :
    M dst (Z + ptr) :=
  if fake then
    t ← on_f (getfd c);
    o ← on_f (mderef (λ _, slot t devsp));
    match o with
    | Some f =>
        if bool_decide (Some f = reserved) then on_f (fd_remove c fd) ;; mret (inl EBADF)
        else on_f (modf f (λ r, set_f_links (s16 (f_links r + 1)) r)) ;; mret (inr f)
    | None => on_f (fd_remove c fd) ;; mret (inl EBADF)
    end
  else
    g ← on_f (fp_alloc mem);
    match g with
    | inl e => on_f (fd_remove c fd) ;; mret (inl e)
    | inr f =>
        fc ← on_f (dup_cookie (dh_fc h));
        on_f (modf f (λ r, mk_fileptr 1 O_RDONLY 0 devsp fc true (f_next r))) ;;
        r ← on_f (xdd_open f);
        if r <? E_OK then
          on_f (release_cookie fc) ;;
          on_f (fd_remove c fd) ;;
          on_f (modf f (λ r, set_f_links (s16 (f_links r - 1)) r)) ;;
          on_f (fp_free f) ;;
          mret (inl r)
        else mret (inr f)
    end.

(** The variable [fd] is [MIN_OPEN] until a handle is allocated, and the handle [fd] is
    removed on an error if it is not below [MIN_OPEN]. *)
Definition sys_f_dirfd (mem : option ptr) (handle : Z) : M dst Z :=
  c ← on_f current;
  '(_, w) ← find_dir c handle;
  match w with
  | None => mret EBADF
  | Some _ =>
      h ← getdir handle;
      if fc_fs (dh_fc h) =? 0 then mret EBADF
      else if MIN_OPEN <=? dh_fd h then mret (dh_fd h)
      else
        '(dev, devsp) ← through h (fs_getdev (dh_fc h));
        match dev with
        | None => mret (if devsp =? 0 then EINTERNAL else devsp)
        | Some fake =>
            g ← on_f (fd_alloc c MIN_OPEN);
            match g with
            | inl e => on_f (fd_remove c MIN_OPEN) ;; mret e
            | inr fd =>
                o ← open_dirfd mem c fd h fake devsp;
                match o with
                | inl e => mret e
                | inr f =>
                    moddir handle (set_dh_fd fd) ;;
                    on_f (fp_done c f fd FD_CLOEXEC) ;;
                    mret fd
                end
            end
        end
  end.
End streams.

(** ** Walking the chain *)

Section walking.
Implicit Types (s : dst) (L : ptr → list Z) (d : ptr) (w v : option Z) (a b : Z) (l : list Z).

Lemma getlink_next s d a h : dirs s !! a = Some h → getlink d (Some a) s = Some (nxt s a, s).
Proof.
  intros Ha. unfold getlink. erewrite bind_run by (by apply (mderef_run (λ s, dirs s !! a))).
  unfold nxt. by rewrite Ha.
Qed.

Lemma getlink_head s d x : fdx s !! d = Some x → getlink d None s = Some (fx_searches x, s).
Proof. intros Hx. unfold getlink. by erewrite bind_run by (by apply (mderef_run (λ s, fdx s !! d))). Qed.

Lemma find_link_found fuel s d w o l1 a l2 :
  getlink d w s = Some (o, s) → chain (nxt s) o (l1 ++ a :: l2) → a ∉ l1 →
  (∀ b, b ∈ l1 → is_Some (dirs s !! b)) → (length l1 ≤ fuel)%nat →
  find_link fuel d w a s = Some (Some (last_or w l1), s).
Proof.
  revert fuel w o. induction l1 as [|b l1 IH]; intros fuel w o Hg Hc Ha Hin Hlen.
  - destruct Hc as [-> _]. destruct fuel; cbn [find_link]; erewrite bind_run by apply Hg;
      cbv beta iota; by rewrite Z.eqb_refl.
  - destruct Hc as [-> Hc]. destruct fuel as [|fuel]; [cbn in Hlen; lia|]. cbn [find_link].
    erewrite bind_run by apply Hg. cbv beta iota. destruct (Z.eqb_spec b a); [set_solver|].
    destruct (Hin b ltac:(left)) as [h Hh].
    apply (IH fuel (Some b) (nxt s b)); [by eapply getlink_next|done|set_solver|set_solver|].
    cbn in Hlen. lia.
Qed.

Lemma find_link_absent fuel s d w o l a :
  getlink d w s = Some (o, s) → chain (nxt s) o l → a ∉ l →
  (∀ b, b ∈ l → is_Some (dirs s !! b)) → (length l ≤ fuel)%nat →
  find_link fuel d w a s = Some (None, s).
Proof.
  revert fuel w o. induction l as [|b l IH]; intros fuel w o Hg Hc Ha Hin Hlen.
  - cbn in Hc. subst o. destruct fuel; cbn [find_link]; by erewrite bind_run by apply Hg.
  - destruct Hc as [-> Hc]. destruct fuel as [|fuel]; [cbn in Hlen; lia|]. cbn [find_link].
    erewrite bind_run by apply Hg. cbv beta iota. destruct (Z.eqb_spec b a); [set_solver|].
    destruct (Hin b ltac:(left)) as [h Hh].
    apply (IH fuel (Some b) (nxt s b)); [by eapply getlink_next|done|set_solver|set_solver|].
    cbn in Hlen. lia.
Qed.

(** A handle is accepted exactly if it is in the chain of the process. *)
Lemma find_dir_found s L p d x l1 a l2 :
  streams_ok s L → p_fd (dfs s) !! p = Some d → fdx s !! d = Some x → L d = l1 ++ a :: l2 →
  find_dir p a s = Some ((d, Some (last_or None l1)), s).
Proof.
  intros HL Hp Hx Hl. unfold find_dir, fd_of.
  erewrite bind_run by (by apply mderef_run). erewrite bind_run by done.
  pose proof (so_chain s L HL d x Hx) as Hc. pose proof (so_nodup s L HL d) as Hnd.
  pose proof (chain_length s (L d) Hnd (λ a H, proj1 (so_dirs s L HL d a H))) as Hlen.
  pose proof (so_dirs s L HL d) as Hin. rewrite Hl in *.
  erewrite bind_run; [done|]. eapply find_link_found; [by apply getlink_head|done| | |].
  - apply NoDup_app in Hnd. set_solver.
  - intros b Hb. apply Hin. set_solver.
  - rewrite length_app in Hlen. lia.
Qed.

Lemma find_dir_absent s L p d x a :
  streams_ok s L → p_fd (dfs s) !! p = Some d → fdx s !! d = Some x → a ∉ L d →
  find_dir p a s = Some ((d, None), s).
Proof.
  intros HL Hp Hx Ha. unfold find_dir, fd_of.
  erewrite bind_run by (by apply mderef_run). erewrite bind_run by done.
  erewrite bind_run; [done|]. eapply find_link_absent; [by apply getlink_head|by apply (so_chain s L HL)|done| |].
  - intros b Hb. by apply (so_dirs s L HL d).
  - apply chain_length; [apply (so_nodup s L HL)|]. intros b Hb. by apply (so_dirs s L HL d).
Qed.

(** ** Unlinking *)

Definition relink (d : ptr) (w v : option Z) (s : dst) : dst :=
  match w with
  | None => set_fdx (alter (set_fx_searches v) d (fdx s)) s
  | Some b => set_dirs (alter (set_dh_next v) b (dirs s)) s
  end.

Lemma setlink_run s d w v x :
  fdx s !! d = Some x → (∀ b, w = Some b → is_Some (dirs s !! b)) →
  setlink d w v s = Some (tt, relink d w v s).
Proof.
  intros Hx Hb. destruct w as [b|]; cbn [setlink relink].
  - destruct (Hb b eq_refl) as [h Hh]. unfold moddir.
    erewrite bind_run by (by apply (mderef_run (λ s, dirs s !! b))).
    unfold mmod. by rewrite (alter_alt_Some _ _ _ _ Hh).
  - unfold modx. erewrite bind_run by (by apply (mderef_run (λ s, fdx s !! d))).
    unfold mmod. by rewrite (alter_alt_Some _ _ _ _ Hx).
Qed.

Lemma relink_nxt s d w v a :
  (∀ b, w = Some b → is_Some (dirs s !! b)) →
  nxt (relink d w v s) a = if decide (w = Some a) then v else nxt s a.
Proof.
  intros Hw. unfold nxt. destruct w as [b|]; cbn; [|done].
  destruct (decide (a = b)) as [->|Hne].
  - destruct (Hw b eq_refl) as [h Hh]. rewrite lookup_alter_eq, Hh, decide_True by done. done.
  - rewrite lookup_alter_ne, decide_False by congruence. done.
Qed.

(** A table after a link was set *)
Lemma relink_rest s d w v d' x' :
  fdx (relink d w v s) !! d' = Some x' →
  ∃ x, fdx s !! d' = Some x ∧ fx_links x' = fx_links x ∧ fx_srchdta x' = fx_srchdta x ∧
    fx_srchdir x' = fx_srchdir x ∧
    fx_searches x' = if decide (d' = d ∧ w = None) then v else fx_searches x.
Proof.
  destruct w as [b|]; cbn.
  - intros Hx. exists x'. rewrite decide_False by naive_solver. done.
  - destruct (decide (d' = d)) as [->|Hne].
    + rewrite lookup_alter_eq. intros (x & Hx & ->)%fmap_Some. exists x.
      rewrite decide_True by done. done.
    + rewrite lookup_alter_ne by congruence. intros Hx. exists x'.
      rewrite decide_False by naive_solver. done.
Qed.

Lemma relink_none s d w v d' : fdx (relink d w v s) !! d' = None ↔ fdx s !! d' = None.
Proof.
  destruct w as [b|]; cbn; [done|]. destruct (decide (d' = d)) as [->|Hne].
  - by rewrite lookup_alter_eq, fmap_None.
  - by rewrite lookup_alter_ne by congruence.
Qed.

Lemma relink_dirs s d w v a : is_Some (dirs (relink d w v s) !! a) ↔ is_Some (dirs s !! a).
Proof.
  destruct w as [b|]; cbn; [|done]. destruct (decide (a = b)) as [->|Hne].
  - by rewrite lookup_alter_eq, fmap_is_Some.
  - by rewrite lookup_alter_ne by congruence.
Qed.

(** The chains after [a] was taken out and freed *)
Definition removed (L : ptr → list Z) (d : ptr) (l : list Z) : ptr → list Z :=
  λ d', if decide (d' = d) then l else L d'.

Lemma unlink_chain s L d x l1 a l2 d' x' :
  streams_ok s L → fdx s !! d = Some x → L d = l1 ++ a :: l2 →
  fdx (relink d (last_or None l1) (nxt s a) s) !! d' = Some x' →
  chain (nxt (relink d (last_or None l1) (nxt s a) s)) (fx_searches x')
    (removed L d (l1 ++ l2) d').
Proof.
  intros HL Hx Hl Hx'. apply relink_rest in Hx' as (x0 & Hx0 & _ & _ & _ & ->).
  pose proof (so_nodup s L HL d) as Hnd. rewrite Hl in Hnd.
  assert (Hb : ∀ b, last_or None l1 = Some b → b ∈ L d).
  { intros b [?|Hb]%last_or_in; [done|]. rewrite Hl. set_solver. }
  assert (Hw : ∀ b, last_or None l1 = Some b → is_Some (dirs s !! b)).
  { intros b Hb'. by apply (so_dirs s L HL d), Hb. }
  unfold removed. destruct (decide (d' = d)) as [->|Hne].
  - simplify_eq. pose proof (so_chain s L HL d x Hx) as Hc. rewrite Hl in Hc.
    assert (nxt s a = head_or l2 None) as Ha.
    { clear -Hc. revert Hc. generalize (fx_searches x). induction l1 as [|b l1 IH]; intros o [_ Hc];
        [by eapply chain_head|by eapply IH]. }
    assert (Hnx : ∀ y, y ∈ l1 ++ l2 → nxt (relink d (last_or None l1) (nxt s a) s) y =
      if decide (last_or None l1 = Some y) then head_or l2 None else nxt s y)
      by (intros y _; rewrite relink_nxt, Ha by done; done).
    pose proof (chain_remove _ _ _ _ _ _ Hc Hnd Hnx) as Hc'. rewrite Ha in *.
    destruct (last_or None l1); [by rewrite decide_False by naive_solver|by rewrite decide_True].
  - rewrite decide_False by naive_solver. eapply chain_frame, (so_chain s L HL d'); [|done].
    intros y Hy. rewrite relink_nxt, decide_False; [done| |done].
    intros Hlast. apply Hne. by apply (so_owner s L HL d' d y Hy), Hb.
Qed.

Lemma unlink_streams s L d x l1 a l2 :
  streams_ok s L → fdx s !! d = Some x → L d = l1 ++ a :: l2 →
  streams_ok (without [a] (relink d (last_or None l1) (nxt s a) s)) (removed L d (l1 ++ l2)).
Proof.
  intros HL Hx Hl. set (s1 := relink d (last_or None l1) (nxt s a) s).
  assert (dlive (without [a] s1) = filter (λ b, b ∉ [a]) (dlive s)) as Hlive
    by (unfold s1; by destruct (last_or None l1)).
  pose proof (so_nodup s L HL d) as Hnd. rewrite Hl in Hnd.
  apply NoDup_app in Hnd as (Hn1 & Hn12 & [Ha Hn2]%NoDup_cons).
  assert (Hsub : ∀ d' b, b ∈ removed L d (l1 ++ l2) d' → b ∈ L d' ∧ b ≠ a).
  { intros d' b. unfold removed. case_decide as Hd; [subst d'; rewrite Hl; set_solver|].
    intros Hb. split; [done|]. intros ->. apply Hd, (so_owner s L HL d' d a Hb).
    rewrite Hl. set_solver. }
  split.
  - intros d' x' Hx'. by apply (unlink_chain s L d x).
  - intros d' Hx'. unfold removed. apply relink_none in Hx'. rewrite decide_False by congruence.
    by apply (so_none s L HL).
  - intros d' b [Hb Hne]%Hsub. destruct (so_dirs s L HL d' b Hb) as [Hd Hlv]. split.
    + by apply relink_dirs.
    + rewrite Hlive. apply list_elem_of_filter. set_solver.
  - intros d'. unfold removed. case_decide; [|apply (so_nodup s L HL)].
    apply NoDup_app. set_solver.
  - intros d1 d2 b [H1 _]%Hsub [H2 _]%Hsub. by eapply (so_owner s L HL).
  - intros b. rewrite Hlive, list_elem_of_filter. intros [Hba Hb].
    destruct (so_live s L HL b Hb) as [d' Hd']. exists d'. unfold removed.
    case_decide as Hd; [subst d'; rewrite Hl in Hd'; set_solver|done].
Qed.

(** The rest of the invariant, after calls that only change what is in the files *)
Lemma fds_ok_same (s s' : fstate) : fds_ok s → same_fds s s' → fds_ok s'.
Proof.
  intros Hok (Hp & Hd & Hk). split.
  - intros q d. rewrite Hp, Hd. apply (fo_table s Hok).
  - intros d t. rewrite Hd. apply (fo_len s Hok).
  - intros d t f. rewrite Hd, <- keys_some, Hk, keys_some. apply (fo_open s Hok).
  - intros f r Hf%keys_lookup. rewrite Hk in Hf. apply keys_inv in Hf as (r0 & Hr & Hkr).
    injection Hkr as Hl _ _. unfold refs. rewrite Hd. destruct (fo_links s Hok f r0 Hr).
    split; [done|]. unfold refs in *. lia.
Qed.

Lemma tables_ok_unlink s L d x l1 a l2 f :
  tables_ok s → streams_ok s L → fdx s !! d = Some x → L d = l1 ++ a :: l2 →
  same_fds (dfs s) f →
  tables_ok (set_dfs f (without [a] (relink d (last_or None l1) (nxt s a) s))).
Proof.
  intros Hok HL Hx Hl Hf. set (s1 := relink d (last_or None l1) (nxt s a) s).
  assert (∀ g, fdx (set_dfs g (without [a] s1)) = fdx s1) as Hfdx by done. split.
  - by apply (fds_ok_same (dfs s)); [apply tk_fds|].
  - intros d'. rewrite Hfdx. cbn. rewrite (proj1 (proj2 Hf)), <- (tk_rest s Hok).
    rewrite <- !not_eq_None_Some. unfold s1. by rewrite relink_none.
  - intros d' x'. rewrite Hfdx. intros (x0 & Hx0 & -> & _)%relink_rest.
    rewrite (tk_links s Hok d' x0 Hx0). unfold users. cbn. by rewrite (proj1 Hf).
  - intros d' x'. rewrite Hfdx. intros (x0 & Hx0 & _ & E1 & E2 & _)%relink_rest i h.
    rewrite E1, E2. by apply (tk_searches s Hok d').
  - exists (removed L d (l1 ++ l2)).
    destruct (unlink_streams s L d x l1 a l2 HL Hx Hl) as [? ? ? ? ? ?]. by split.
Qed.
End walking.

(** ** Dclosedir *)

Section closing.
Context `{TableCallsOk}.

Lemma closedir_run mem s L d x l1 a l2 h :
  let c := curproc (fk (dfs s)) in
  streams_ok s L → kernel_ok (dfs s) c → no_hangup (dfs s) → p_fd (dfs s) !! c = Some d →
  fdx s !! d = Some x → L d = l1 ++ a :: l2 → dirs s !! a = Some h → dh_fd h < MIN_OPEN →
  ∃ r f, sys_d_closedir mem a s = Some (r,
      set_dfs f (without [a] (relink d (last_or None l1) (nxt s a) s))) ∧
    same_fds (dfs s) f.
Proof.
  intros c HL Hk Hno Hp Hx Hl Hh Hfd. unfold sys_d_closedir.
  erewrite (bind_run _ _ _ c s) by (unfold on_f, mlift; cbn; by destruct s).
  erewrite bind_run by (by apply (find_dir_found s L c d x l1 a l2)). cbv beta iota.
  erewrite bind_run by (by apply (mderef_run (λ s, dirs s !! a))).
  assert (a ∈ L d) as Ha by (rewrite Hl; set_solver).
  assert (Hb : ∀ b, last_or None l1 = Some b → b ∈ L d ∧ b ≠ a).
  { pose proof (so_nodup s L HL d) as Hnd. rewrite Hl in *. apply NoDup_app in Hnd.
    intros b [?|Hb]%last_or_in; [done|]. set_solver. }
  assert (nxt s a = dh_next h) as Hnx by (unfold nxt; by rewrite Hh). rewrite <- Hnx.
  erewrite bind_run.
  2: { apply (setlink_run _ _ _ _ x Hx). intros b Hb'. apply (so_dirs s L HL d), Hb, Hb'. }
  set (s1 := relink d (last_or None l1) (nxt s a) s).
  assert (dirs s1 !! a = Some h ∧ dlive s1 = dlive s ∧ dfs s1 = dfs s) as (Hh1 & Hlv1 & Hf1).
  { unfold s1. destruct (last_or None l1) as [b|] eqn:Hlast; [|done]. cbn.
    destruct (Hb b eq_refl). by rewrite lookup_alter_ne by congruence. }
  assert (a ∈ dlive s1) as Hlive by (rewrite Hlv1; by apply (so_dirs s L HL d)).
  destruct (Z.eqb_spec (fc_fs (dh_fc h)) 0) as [Hfs|Hfs].
  - erewrite bind_run by (by apply kfree_dir_run). exists E_OK, (dfs s1).
    split; [done|]. by rewrite Hf1.
  - unfold close_dirfd. replace (MIN_OPEN <=? dh_fd h) with false by lia. cbn [mwhen].
    erewrite bind_run by done.
    erewrite bind_run by (by apply (mderef_run (λ s, dirs s !! a))).
    assert (files_only c (xfs_closedir h)) as Hcl.
    { intros s2 Hs2 Hn2. unfold xfs_closedir, through.
      erewrite bind_run by (apply massert_run; lia).
      by apply (files_only_on_f c); [apply closedir_quiet|apply closedir_calm|..]. }
    destruct (Hcl s1) as (r & f & E & Hsame & Hk2 & Hn2); [by rewrite Hf1..|].
    erewrite bind_run by apply E.
    destruct (files_only_on_f c (release_cookie (dh_fc h)) (release_quiet c _) (calm_release _)
      (set_dfs f s1) Hk2 Hn2) as ([] & g & E2 & Hsame2 & _).
    erewrite bind_run by apply E2. erewrite bind_run by (by apply kfree_dir_run).
    exists r, g. split; [done|]. rewrite <- Hf1. by eapply same_fds_trans.
Qed.



(** ** Fclose of a file with two directories *)

(** One round of the loop for a directory that is selected *)
Lemma close_stream_run p s d w a h x sel fuel :
  getlink d w s = Some (Some a, s) → dirs s !! a = Some h → sel h = true → a ∈ dlive s →
  fc_fs (dh_fc h) ≠ 0 → fdx s !! d = Some x → (∀ b, w = Some b → is_Some (dirs s !! b)) →
  kernel_ok (dfs s) p → no_hangup (dfs s) →
  ∃ f, close_streams (S fuel) d w sel s =
      close_streams fuel d (Some a) sel (relink d w (nxt s a) (without [a] (set_dfs f s))) ∧
    same_fds (dfs s) f ∧ kernel_ok f p ∧ no_hangup f.
Proof.
  intros Hg Hh Hsel Hlive Hfs Hx Hw Hk Hno. cbn [close_streams].
  erewrite bind_run by apply Hg. cbv beta iota.
  erewrite bind_run by (by apply (mderef_run (λ s, dirs s !! a))). rewrite Hsel. cbn [mwhen].
  destruct (close_dirh_only p h Hfs s Hk Hno) as ([] & f & E & Hf & Hk' & Hn'). exists f.
  split; [|done]. apply bind_inv in E as (r & s1 & E1 & E2).
  erewrite bind_run; [done|]. erewrite bind_run by apply E1. erewrite bind_run by apply E2.
  erewrite bind_run by (by apply kfree_dir_run).
  erewrite bind_run by (by eapply getlink_next). by eapply setlink_run.
Qed.

Definition selected (sel : dirh → bool) (s : dst) (a : Z) : bool :=
  match dirs s !! a with Some h => sel h | None => false end.

(** The loop behind a directory [y], which may have been freed: it never comes back to the
    field [searches]. *)
Lemma close_streams_run p sel fuel l : ∀ s d x y,
  (∀ v h, sel (set_dh_next v h) = sel h) →
  chain (nxt s) (nxt s y) l → NoDup (y :: l) → is_Some (dirs s !! y) →
  (∀ a, a ∈ l → ∃ h, dirs s !! a = Some h ∧ a ∈ dlive s ∧ fc_fs (dh_fc h) ≠ 0) →
  (length l ≤ fuel)%nat → fdx s !! d = Some x → kernel_ok (dfs s) p → no_hangup (dfs s) →
  ∃ s', close_streams fuel d (Some y) sel s = Some (tt, s') ∧ fdx s' = fdx s ∧
    (∀ a, a ∈ dlive s' ↔ a ∈ dlive s ∧ ¬ (a ∈ l ∧ selected sel s a = true)) ∧
    same_fds (dfs s) (dfs s') ∧ kernel_ok (dfs s') p ∧ no_hangup (dfs s').
Proof.
  revert fuel. induction l as [|a l IH]; intros fuel s d x y Hsel Hc Hnd [hy Hy] Hin Hlen Hx Hk Hno.
  { exists s. split; [|by repeat split; try set_solver; apply Hk].
    pose proof (getlink_next s d y hy Hy) as Hg. rewrite Hc in Hg.
    destruct fuel; cbn [close_streams]; by erewrite bind_run by apply Hg. }
  destruct Hc as [Hya Hc]. destruct fuel as [|fuel]; [cbn in Hlen; lia|].
  destruct (Hin a ltac:(left)) as (h & Hh & Hlive & Hfs).
  pose proof (getlink_next s d y hy Hy) as Hg. rewrite Hya in Hg.
  apply NoDup_cons in Hnd as [Hyl Hnd].
  assert (selected sel s a = sel h) as Hsa by (unfold selected; by rewrite Hh).
  destruct (sel h) eqn:Hs.
  - destruct (close_stream_run p s d (Some y) a h x sel fuel) as (f & E & Hf & Hk1 & Hn1);
      [done..|by intros b [= <-]|done|done|].
    set (s1 := relink d (Some y) (nxt s a) (without [a] (set_dfs f s))) in *.
    assert (Hnx : ∀ z, z ≠ y → nxt s1 z = nxt s z).
    { intros z Hz. unfold s1. rewrite relink_nxt by (intros b [= <-]; by eexists).
      by rewrite decide_False by congruence. }
    assert (Hds : ∀ z, z ≠ y → dirs s1 !! z = dirs s !! z)
      by (intros z Hz; cbn; by rewrite lookup_alter_ne by congruence).
    destruct (IH fuel s1 d x a Hsel) as (s' & E2 & Hx2 & Hl2 & Hf2 & Hk2); try done.
    + rewrite Hnx by set_solver. eapply chain_frame, Hc. intros z Hz. apply Hnx. set_solver.
    + rewrite Hds by set_solver. by eexists.
    + intros z Hz. rewrite Hds by set_solver. destruct (Hin z ltac:(set_solver)) as (hz & ? & ? & ?).
      exists hz. split; [done|]. split; [|done]. cbn. apply list_elem_of_filter.
      apply NoDup_cons in Hnd. set_solver.
    + cbn in Hlen. lia.
    + exists s'. rewrite E, E2. split; [done|]. split; [by rewrite Hx2|].
      split; [|split; [by eapply same_fds_trans|done]].
      intros z. rewrite Hl2.
      change (dlive s1) with (filter (λ b, b ∉ [a]) (dlive s)). rewrite list_elem_of_filter. destruct (decide (z = a)) as [->|Hza]; [set_solver|].
      assert (z ∈ l → selected sel s1 z = selected sel s z) as Hsz.
      { intros Hz. unfold selected. by rewrite Hds by set_solver. }
      destruct (decide (z ∈ l)) as [Hzl|Hzl]; [rewrite Hsz by done|]; set_solver.
  - destruct (IH fuel s d x a Hsel Hc Hnd) as (s' & E & Hx2 & Hl2 & Hf2 & Hk2);
      [by eexists|intros z Hz; by apply Hin; right|cbn in Hlen; lia|done..|].
    exists s'. split.
    { cbn [close_streams]. erewrite bind_run by apply Hg. cbv beta iota.
      erewrite bind_run by (by apply (mderef_run (λ s, dirs s !! a))). rewrite Hs. cbn [mwhen].
      by erewrite bind_run by done. }
    split; [done|]. split; [|done]. intros z. rewrite Hl2.
    destruct (decide (z = a)) as [->|Hza]; [rewrite Hsa; apply NoDup_cons in Hnd|]; set_solver.
Qed.

(** Closing a handle, whatever the file is *)
Lemma close_handle_any mem p d t i f s :
  fds_ok s → kernel_ok s p → no_hangup s → p_fd s !! p = Some d → filedescs s !! d = Some t →
  handle s p i = Some f → refs s f ≤ 32767 →
  ∃ r s', close_handle mem p i f s = Some (r, s').
Proof.
  intros Hok Hk Hno Hp Hd Hh Hmax.
  destruct (handle_slot s p d t i f Hp Hd Hh) as [_ Hs].
  destruct (handle_file s p i f Hok Hh) as (Hres & r & Hf & Hl).
  assert (1 ≤ refs s f) as Hpos.
  { eapply refs_in_elem; [done|]. apply slot_index in Hs as [_ Hs].
    by eapply list_elem_of_lookup_2. }
  destruct (do_close_ok mem p f s r Hk Hno Hf Hres ltac:(lia)) as (e & s1 & E & _ & (Hp1 & Hd1 & _) & _).
  eexists e, _. unfold close_handle. erewrite bind_run by apply E.
  erewrite bind_run; [done|]. eapply fd_remove_run; [by rewrite Hp1|by rewrite Hd1|done].
Qed.

(** Ffdopendir can make several directories for a handle.  Fclose closes and frees them, but
    when the first two of the chain belong to the handle it sets the link to the rest in the
    first one, which is freed already: the second stays at the head of the chain of the
    process, although it is freed. *)
Theorem fclose_dangles single mem s L d t i f a b l ha hb :
  let c := curproc (fk (dfs s)) in
  tables_ok s → streams_ok s L → kernel_ok (dfs s) c → no_hangup (dfs s) →
  p_fd (dfs s) !! c = Some d → filedescs (dfs s) !! d = Some t →
  MIN_OPEN ≤ i < O_GLOBAL_HANDLE → handle (dfs s) c i = Some f → refs (dfs s) f ≤ 32767 →
  L d = a :: b :: l → dirs s !! a = Some ha → dirs s !! b = Some hb →
  dh_fd ha = i → dh_fd hb = i →
  (∀ z h, z ∈ L d → dirs s !! z = Some h → fc_fs (dh_fc h) ≠ 0) →
  ∃ r s' x, sys_f_close single mem i s = Some (r, s') ∧ fdx s' !! d = Some x ∧
    fx_searches x = Some b ∧ a ∉ dlive s' ∧ b ∉ dlive s'.
Proof.
  intros c Hok HL Hk Hno Hp Hd Hi Hh Hmax Hl Ha Hb Hfa Hfb Hfs.
  destruct (proj2 (tk_rest s Hok d)) as [x Hx]; [by rewrite Hd|].
  set (sel := λ h, (MIN_OPEN <=? i) && (dh_fd h =? i)).
  pose proof (so_chain s L HL d x Hx) as Hc. pose proof (so_nodup s L HL d) as Hnd.
  pose proof (so_dirs s L HL d) as Hin.
  pose proof (chain_length s (L d) Hnd (λ z H, proj1 (Hin z H))) as Hlen. rewrite Hl in *.
  destruct Hc as [Hsx Hc]. cbn [length] in Hlen.
  destruct (size (dirs s)) as [|fuel] eqn:Hsz; [lia|].
  destruct (close_stream_run c s d None a ha x sel fuel) as (g & E & Hg & Hkg & Hng);
    [by rewrite <- Hsx; apply getlink_head|done|unfold sel; by lia|apply Hin; left| |done|done|done|done|].
  { apply (Hfs a); [left|done]. }
  set (s1 := relink d None (nxt s a) (without [a] (set_dfs g s))) in *.
  assert (Hds : dirs s1 = dirs s) by done. apply NoDup_cons in Hnd as [Hal Hnd].
  destruct (close_streams_run c sel fuel (b :: l) s1 d (set_fx_searches (nxt s a) x) a)
    as (s2 & E2 & Hx2 & Hl2 & Hf2 & Hk2 & Hn2); [done| | | | | | |done|done|].
  - eapply chain_frame, Hc. done.
  - by apply NoDup_cons.
  - by eexists.
  - intros z Hz. destruct (Hin z ltac:(set_solver)) as [[hz Hhz] Hlz]. exists hz.
    split; [done|]. split; [cbn; apply list_elem_of_filter; set_solver|].
    apply (Hfs z); [set_solver|done].
  - cbn [length]. lia.
  - cbn. by rewrite lookup_alter_eq, Hx.
  - assert (same_fds (dfs s) (dfs s2)) as Hsame by (by eapply same_fds_trans).
    pose proof (fds_ok_same _ _ (tk_fds s Hok) Hsame) as Hok2.
    destruct Hsame as (Hp2 & Hd2 & _).
    assert (handle (dfs s2) c i = Some f) as Hh2 by (unfold handle; rewrite Hp2, Hd2; exact Hh).
    destruct (close_handle_any mem c d t i f (dfs s2) Hok2 Hk2 Hn2) as (r & f3 & E3);
      [by rewrite Hp2|by rewrite Hd2|done|unfold refs; by rewrite Hd2|].
    exists r, (set_dfs f3 s2), (set_fx_searches (nxt s a) x).
    assert (nxt s a = Some b) as Hab by (by destruct Hc).
    split; [|split; [|split; [done|]]].
    + unfold sys_f_close.
      erewrite (bind_run _ _ _ c s) by (unfold on_f, mlift; cbn; by destruct s).
      replace ((i <? 0) && single) with false by (unfold MIN_OPEN in *; lia).
      pose proof (fp_get_run (dfs s) c i) as Hg0. unfold c in Hg0.
      rewrite (fp_get_local (dfs s) i) in Hg0 by lia. cbn [fst snd] in Hg0. fold c in Hg0.
      rewrite Hh in Hg0.
      erewrite (bind_run _ _ _ (inr (c, i, f)) s) by (unfold on_f, mlift; rewrite Hg0; by destruct s).
      cbv beta iota. erewrite bind_run.
      2: { unfold close_streams_of, fd_of. erewrite bind_run by (by apply mderef_run).
           erewrite bind_run by done. rewrite Hsz. fold sel. rewrite E. apply E2. }
      unfold on_f, mlift. by rewrite E3.
    + cbn. rewrite Hx2. cbn. by rewrite lookup_alter_eq, Hx.
    + cbn [dlive set_dfs]. rewrite !Hl2. cbn [dlive s1]. split.
      * intros [Hz _]. change (dlive s1) with (filter (λ b, b ∉ [a]) (dlive s)) in Hz.
        apply list_elem_of_filter in Hz. set_solver.
      * intros [_ Hz]. apply Hz. split; [left|]. unfold selected. rewrite Hds, Hb.
        unfold sel. lia.
Qed.

(** ** Fdirfd without a free handle *)

Lemma handle_cleared (s : fstate) p d t i o :
  p_fd s !! p = Some d → slot t i = Some o →
  handle (with_table d (set_slot i None t) s) p i = None.
Proof.
  intros Hp Hs. unfold handle. cbn. rewrite Hp. cbn. rewrite lookup_insert_eq. cbn.
  rewrite (slot_set_slot _ _ _ _ Hs). by case_bool.
Qed.

(** When the process has no free handle Fdirfd answers EMFILE, but removes the handle
    [MIN_OPEN], which stands for another file: that file is not closed, and has a link more
    than handles from then on. *)
Theorem dirfd_takes_handle `{StreamCalls} mem s L d t a h f fake devsp :
  let c := curproc (fk (dfs s)) in
  tables_ok s → streams_ok s L → p_fd (dfs s) !! c = Some d → filedescs (dfs s) !! d = Some t →
  a ∈ L d → dirs s !! a = Some h → fc_fs (dh_fc h) ≠ 0 → dh_fd h < MIN_OPEN →
  (∀ j, MIN_OPEN ≤ j < nfiles t → slot t j ≠ Some None) →
  handle (dfs s) c MIN_OPEN = Some f →
  fs_getdev (dh_fc h) (dfs s) = Some ((Some fake, devsp), dfs s) →
  ∃ s', sys_f_dirfd mem a s = Some (EMFILE, s') ∧ handle (dfs s') c MIN_OPEN = None ∧
    files (dfs s') = files (dfs s) ∧
    ∃ r, files (dfs s') !! f = Some r ∧ f_links r = refs (dfs s') f + 1.
Proof.
  intros c Hok HL Hp Hd Ha Hh Hfs Hfd Hfull Hhd Hdev.
  destruct (proj2 (tk_rest s Hok d)) as [x Hx]; [by rewrite Hd|].
  destruct (list_elem_of_split _ _ Ha) as (l1 & l2 & Hl).
  destruct (handle_slot (dfs s) c d t MIN_OPEN f Hp Hd Hhd) as [Hn Hs].
  destruct (handle_file _ _ _ _ (tk_fds s Hok) Hhd) as (Hres & r & Hf & Hr).
  set (s' := set_dfs (with_table d (set_slot MIN_OPEN None t) (dfs s)) s). exists s'.
  split; [|split; [|split; [done|]]].
  - unfold sys_f_dirfd. erewrite (bind_run _ _ _ c s) by (unfold on_f, mlift; cbn; by destruct s).
    erewrite bind_run by (by apply (find_dir_found s L c d x l1 a l2)). cbv beta iota.
    erewrite bind_run by (by apply (mderef_run (λ s, dirs s !! a))).
    replace (fc_fs (dh_fc h) =? 0) with false by lia.
    replace (MIN_OPEN <=? dh_fd h) with false by lia.
    erewrite (bind_run (through _ _)).
    2: { unfold through. erewrite bind_run by (apply massert_run; lia).
         unfold on_f, mlift. by rewrite Hdev. }
    replace (set_dfs (dfs s) s) with s by (by destruct s). cbv beta iota.
    pose proof (fd_alloc_run (dfs s) c d t MIN_OPEN (tk_fds s Hok) Hp Hd ltac:(done)) as Halloc.
    destruct (fd_scan t MIN_OPEN) as [j|] eqn:Hscan.
    { apply fd_scan_some in Hscan as (Hj & Hnone & _); [|done]. by destruct (Hfull j Hj). }
    erewrite bind_run by (unfold on_f, mlift; by rewrite Halloc). cbv beta iota.
    erewrite bind_run; [done|]. unfold on_f, mlift. cbn [dfs set_dfs].
    by erewrite (fd_remove_run (dfs s)) by done.
  - by eapply handle_cleared.
  - exists r. split; [done|]. unfold s'. cbn [dfs set_dfs].
    rewrite (refs_with_table (dfs s) d t Hd), (count_set_slot _ _ _ _ _ Hs). unfold one.
    rewrite decide_True, decide_False by done. lia.
Qed.
End closing.

(** ** Concrete calls *)
Module StreamExample.
Import TableExample.

#[export] Instance ex_streams : StreamCalls :=
  {| fs_getdev := λ _, mret (Some false, 0); xdd_open := λ _, mret 0 |}.

(** One handle, 6; and all handles *)
Definition ex_six : list (option ptr) := replicate 11 None ++ Some 60%positive :: replicate 1017 None.
Definition ex_full : list (option ptr) := replicate 1029 (Some 60%positive).

Lemma ex_six_ok : length ex_six = 1029%nat ∧ Forall (λ o, o = None ∨ o = Some 60%positive) ex_six.
Proof.
  split; [by vm_compute|]. unfold ex_six. apply Forall_app. split; [by apply Forall_replicate; left|].
  constructor; [by right|]. by apply Forall_replicate; left.
Qed.

Lemma ex_full_ok : length ex_full = 1029%nat ∧ Forall (λ o, o = None ∨ o = Some 60%positive) ex_full.
Proof. split; [by vm_compute|]. by apply Forall_replicate; right. Qed.

Lemma ex_dir_fs l k z h : dirs (ex_dst l k) !! z = Some h → fc_fs (dh_fc h) ≠ 0.
Proof.
  cbn. rewrite lookup_insert_Some, lookup_singleton_Some. intros Hz.
  destruct_cases; by subst.
Qed.


Lemma fclose_dangles_witness :
  ∃ r s' x, sys_f_close false None 6 (ex_dst ex_six 6) = Some (r, s') ∧
    fdx s' !! 50%positive = Some x ∧ fx_searches x = Some 101 ∧ 101 ∉ dlive s'.
Proof.
  destruct (fclose_dangles false None (ex_dst ex_six 6) ex_chains 50 (ex_tab ex_six) 6 60 100 101 []
    (ex_dir 6 (Some 101)) (ex_dir 6 None)) as (r & s' & x & E & Hx & Hs & _ & Hb).
  - apply ex_dst_ok; apply ex_six_ok.
  - apply ex_chains_ok.
  - by apply ex_kernel.
  - apply ex_hangup.
  - done.
  - done.
  - done.
  - by vm_compute.
  - by apply ex_refs_max, ex_six_ok.
  - done.
  - done.
  - done.
  - done.
  - done.
  - intros z h _. apply ex_dir_fs.
  - by exists r, s', x.
Defined.

(** The end of the process then frees the directory a second time. *)
Example fclose_then_exit_panics :
  (sys_f_close false None 6 ;; free_fd (λ _, None) 2) (ex_dst ex_six 6) = None.
Proof. by vm_compute. Qed.

Lemma dirfd_takes_handle_witness :
  ∃ s', sys_f_dirfd None 100 (ex_dst ex_full 0) = Some (EMFILE, s') ∧
    handle (dfs s') 2 6 = None ∧ handle (dfs (ex_dst ex_full 0)) 2 6 = Some 60%positive.
Proof.
  destruct (dirfd_takes_handle None (ex_dst ex_full 0) ex_chains 50 (ex_tab ex_full) 100
    (ex_dir 0 (Some 101)) 60 false 0) as (s' & E & Hh & _).
  - apply ex_dst_ok; apply ex_full_ok.
  - apply ex_chains_ok.
  - done.
  - done.
  - left.
  - done.
  - done.
  - done.
  - intros j Hj Hs. apply slot_index in Hs as [_ Hs]. by apply lookup_replicate in Hs as [? _].
  - by vm_compute.
  - done.
  - exists s'. split; [done|]. split; [done|]. by vm_compute.
Defined.

(** Fdirfd of a directory of Dopendir, with a free handle; Dclosedir closes the file again. *)
Example dirfd_opens :
  ∃ s', sys_f_dirfd (Some 61%positive) 100 (ex_dst ex_one 0) = Some (6, s') ∧
    handle (dfs s') 2 6 = Some 61%positive ∧
    ∃ s2, sys_d_closedir None 100 s' = Some (0, s2) ∧ files (dfs s2) !! 61%positive = None ∧
      handle (dfs s2) 2 6 = None ∧ dlive s2 = [101].
Proof. eexists. split; [by vm_compute|]. split; [by vm_compute|]. eexists. by vm_compute. Qed.

(** Ffdopendir of a global handle makes the directory for the root process: in its chain,
    where the caller does not find it. *)
Definition ex_root : dst :=
  mk_dst (set_p_fd {[ 1%positive := 50%positive; 2%positive := 51%positive ]}
      (set_filedescs {[ 50%positive := ex_tab ex_one;
         51%positive := mk_filedesc (replicate 1029 None) (replicate 1029 0) NDFILE ]}
        (ex_files60 ex_one)))
    {[ 50%positive := mk_fdrest 1 None [] []; 51%positive := mk_fdrest 1 None [] [] ]} ∅ [].

Example global_directory_lost :
  ∃ s', sys_f_opendir (Some 100) 0 O_GLOBAL_HANDLE ex_root = Some (100, s') ∧
    sys_d_readdir 20 100 s' = Some ((EBADF, []), s').
Proof. eexists. split; [by vm_compute|]. by vm_compute. Qed.

(** The same for a handle of the process itself: the directory is read, and closed. *)
Example own_directory_read :
  ∃ s', sys_f_opendir (Some 102) 0 0 (ex_dst ex_one 0) = Some (102, s') ∧
    (r ← sys_d_readdir 20 102; mret r.1) s' = Some (E_OK, s') ∧
    sys_d_rewind 102 s' = Some (E_OK, s') ∧
    (sys_d_closedir None 102 ;; mgets dlive) s' ≫= (λ x, Some x.1) = Some [100; 101].
Proof.
  eexists. split; [by vm_compute|]. split; [by vm_compute|]. split; by vm_compute.
Qed.
End StreamExample.
