(* ===== verification/Vfs.v ===== *)
(** * Working directories and file system cookies (sys/mint/filedesc.h, sys/filesys.c,
      sys/proc_help.c)

    A cookie names a file of a file system; the file system counts the cookies it gave out.
    The multiset [held] has those that the kernel holds for its working directories and for
    the calls in progress: [xfs_lookup], [xfs_root] and [dup_cookie] add one,
    [release_cookie] removes one, and to release a cookie that is not held is a panic.

    The functions of the file systems are the class [Vfs]; their answers may change with
    every call. *)

From stdpp Require Import gmultiset.
From S2P Require Import Prelude CInt Errno Kernel Cred LibStr Files.
#[local] Open Scope Z_scope.

(** ** Constants *)

Definition NUM_DRIVES : Z := 32.
Definition UNIDRV : Z := 20.
Definition PATH_MAX : Z := 255.
Definition MAX_LINKS : Z := 4.
Definition FS_KNOPARSE : Z := 1.
Definition S_IFLNK : Z := 57344.
Definition S_IXOTH : Z := 1.
Definition ELOOP : Z := -80.
Definition ECHMEDIA : Z := -14.
Definition EMOUNT : Z := -200.
Definition DOM_TOS : Z := 0.

Definition S_ISLNK (m : Z) : bool := Z.land m S_IFMT =? S_IFLNK.

(** ** Data *)

#[export] Instance fcookie_eq_dec : EqDecision fcookie.
Proof. solve_decision. Defined.
#[export] Instance fcookie_countable : Countable fcookie.
Proof.
  refine (inj_countable' (λ c, (fc_fs c, fc_dev c, fc_index c))
    (λ '(a, b, c), mk_fcookie a b c) _). by intros [].
Defined.

(** [struct cwd]; [cw_root] and [cw_curdir] have [NUM_DRIVES] elements. *)
Record cwd := mk_cwd {
  cw_links : Z;
  cw_cmask : Z;
  cw_rootdir : fcookie;
  cw_root_dir : option str;
  cw_curdrv : Z;
  cw_root : list fcookie;
  cw_curdir : list fcookie
}.

Definition cwd_eta (r : cwd) : cwd :=
  mk_cwd
    (cw_links r) (cw_cmask r) (cw_rootdir r) (cw_root_dir r) (cw_curdrv r)
    (cw_root r) (cw_curdir r).
Definition set_cw_links : Z → cwd → cwd :=
  ltac:(build_setter cwd_eta cw_links).
Definition set_cw_cmask : Z → cwd → cwd :=
  ltac:(build_setter cwd_eta cw_cmask).
Definition set_cw_rootdir : fcookie → cwd → cwd :=
  ltac:(build_setter cwd_eta cw_rootdir).
Definition set_cw_root_dir : option str → cwd → cwd :=
  ltac:(build_setter cwd_eta cw_root_dir).
Definition set_cw_curdrv : Z → cwd → cwd :=
  ltac:(build_setter cwd_eta cw_curdrv).
Definition set_cw_root : list fcookie → cwd → cwd :=
  ltac:(build_setter cwd_eta cw_root).
Definition set_cw_curdir : list fcookie → cwd → cwd :=
  ltac:(build_setter cwd_eta cw_curdir).

(** [XATTR]: what the kernel reads of it *)
Record fattr := mk_fattr { fa_x : xattr; fa_attr : Z }.

(** The processes, their working directories (shared ones are one object), the cookies that
    are held, and the number of calls that were made to file systems. *)
Record vst := mk_vst {
  vk : kst;
  p_cwd : gmap ptr ptr;
  cwds : gmap ptr cwd;
  held : gmultiset fcookie;
  ticks : nat
}.

Definition vst_eta (r : vst) : vst :=
  mk_vst
    (vk r) (p_cwd r) (cwds r) (held r) (ticks r).
Definition set_vk : kst → vst → vst :=
  ltac:(build_setter vst_eta vk).
Definition set_p_cwd : gmap ptr ptr → vst → vst :=
  ltac:(build_setter vst_eta p_cwd).
Definition set_cwds : gmap ptr cwd → vst → vst :=
  ltac:(build_setter vst_eta cwds).
Definition set_held : gmultiset fcookie → vst → vst :=
  ltac:(build_setter vst_eta held).
Definition set_ticks : nat → vst → vst :=
  ltac:(build_setter vst_eta ticks).

(** The file systems: their flags, and what they answer to the [n]th call.  A number other
    than 0 is an error; the cookie, the attributes or the string beside it is then not
    used.  [disk_changed] and [changedrv] look for a change of media and may give every
    process new directories on the drive. *)
Class Vfs := {
  fsflags : Z → Z;
  fs_lookup : nat → fcookie → str → Z * fcookie;
  fs_root : nat → Z → Z → Z * fcookie;
  fs_getxattr : nat → fcookie → Z * fattr;
  fs_readlink : nat → fcookie → Z * str;
  fs_getname : nat → fcookie → fcookie → Z * str;
  fs_remove : nat → fcookie → str → Z;
  fs_rmdir : nat → fcookie → str → Z;
  fs_mkdir : nat → fcookie → str → Z → Z;
  kern_filesys : Z;
  fs_follow : nat → fcookie → Z → Z * fcookie;
  disk_changed : Z → M vst Z;
  changedrv : Z → M vst unit
}.

(** ** Access *)

(** [p->p_cwd->...] *)
Definition get_cwd (p : ptr) : M vst cwd :=
  a ← mderef (λ s, p_cwd s !! p); mderef (λ s, cwds s !! a).
Definition mod_cwd (p : ptr) (f : cwd → cwd) : M vst unit :=
  a ← mderef (λ s, p_cwd s !! p);
  w ← mderef (λ s, cwds s !! a);
  mmod (λ s, set_cwds (<[a := f w]> (cwds s)) s).
(** An element of [root] or [curdir] *)
Definition elem {A} (l : list A) (i : Z) : M vst A :=
  mderef (λ _, if i <? 0 then None else l !! Z.to_nat i).
Definition on_vk {A} (c : M kst A) : M vst A := mlift vk set_vk c.
(** [p->p_cred->ucr] *)
Definition ucred_of (p : ptr) : M vst ucred :=
  on_vk (a ← cred_of p; c ← getpc a; getuc (ucr c)).

(** ** References *)

(** The cookies of a list that count: those of a file system. *)
Definition refs (l : list fcookie) : gmultiset fcookie :=
  list_to_set_disj (filter (λ c, fc_fs c ≠ 0) l).

Definition hold (c : fcookie) : M vst unit := mmod (λ s, set_held (held s ⊎ refs [c]) s).

Definition release_cookie (c : fcookie) : M vst unit :=
  if fc_fs c =? 0 then mret tt
  else
    b ← mgets (λ s, bool_decide (c ∈ held s));
    massert b ;;
    mmod (λ s, set_held (held s ∖ {[+ c +]}) s).

(** The copy *)
Definition dup_cookie (c : fcookie) : M vst fcookie := hold c ;; mret c.

(** ** Calls of file systems *)

Section vfs.
Context `{Vfs}.

Definition ask {A} (f : nat → A) : M vst A := λ s, Some (f (ticks s), set_ticks (S (ticks s)) s).
(** A call through [fs->...]: a panic if the cookie has no file system *)
Definition on_fs {A} (c : fcookie) (f : nat → A) : M vst A :=
  massert (negb (fc_fs c =? 0)) ;; ask f.

(** [res] is the content of [*res] before, and of what is returned after the call. *)
Definition xfs_lookup (dir : fcookie) (name : str) (res : fcookie) : M vst (Z * fcookie) :=
  '(r, c) ← on_fs dir (λ t, fs_lookup t dir name);
  if r =? 0 then hold c ;; mret (0, c) else mret (r, res).
Definition xfs_root (c : fcookie) : M vst (Z * fcookie) :=
  '(r, m) ← on_fs c (λ t, fs_root t (fc_fs c) (fc_dev c));
  if r =? 0 then hold m ;; mret (0, m) else mret (r, c).
Definition xfs_getxattr (c : fcookie) : M vst (Z * fattr) := on_fs c (λ t, fs_getxattr t c).
Definition xfs_readlink (c : fcookie) : M vst (Z * str) := on_fs c (λ t, fs_readlink t c).
(** [kern_follow_link (sys/kernfs.c)] replaces the cookie. *)
Definition kern_follow_link (c : fcookie) (depth : Z) : M vst (Z * fcookie) :=
  '(r, m) ← ask (λ t, fs_follow t c depth);
  if r =? 0 then release_cookie c ;; hold m ;; mret (0, m) else mret (r, c).
End vfs.

(** ** Ownership

    What the working directories hold *)

Definition cookies (w : cwd) : gmultiset fcookie :=
  match cw_root_dir w with Some _ => refs [cw_rootdir w] | None => ∅ end ⊎
  refs (cw_root w) ⊎ refs (cw_curdir w).

Definition owned_by (m : gmap ptr cwd) : gmultiset fcookie :=
  map_fold (λ _ w a, cookies w ⊎ a) ∅ m.

(** All cookies that are held belong to a working directory, or to [F]. *)
Definition accounts (F : gmultiset fcookie) (s : vst) : Prop :=
  held s = owned_by (cwds s) ⊎ F.

Lemma refs_app l l' : refs (l ++ l') = refs l ⊎ refs l'.
Proof. unfold refs. by rewrite filter_app, list_to_set_disj_app. Qed.

Lemma refs_cons c l : refs (c :: l) = refs [c] ⊎ refs l.
Proof. apply (refs_app [c] l). Qed.

Lemma refs_live c : fc_fs c ≠ 0 → refs [c] = {[+ c +]}.
Proof.
  intros Hc. unfold refs. rewrite filter_cons_True by done.
  rewrite list_to_set_disj_cons. change (list_to_set_disj _) with (∅ : gmultiset fcookie). multiset_solver.
Qed.

Lemma refs_dead c : fc_fs c = 0 → refs [c] = ∅.
Proof. intros Hc. unfold refs. by rewrite filter_cons_False by auto. Qed.

Lemma refs_insert l i c c' :
  l !! i = Some c → refs (<[i := c']> l) ⊎ refs [c] = refs l ⊎ refs [c'].
Proof.
  intros Hl. rewrite insert_take_drop by (by eapply lookup_lt_Some).
  rewrite <- (take_drop_middle l i c Hl) at 3.
  rewrite !refs_app, !(refs_cons _ (drop _ _)). multiset_solver.
Qed.

Lemma owned_delete m a w : m !! a = Some w → owned_by m = cookies w ⊎ owned_by (delete a m).
Proof.
  intros Ha. unfold owned_by. rewrite (map_fold_delete_L (λ _ w x, cookies w ⊎ x) ∅ a w m); [done | | done].
  intros. multiset_solver.
Qed.

Lemma owned_insert m a w : m !! a = None → owned_by (<[a := w]> m) = cookies w ⊎ owned_by m.
Proof.
  intros Ha. rewrite (owned_delete _ a w) by apply lookup_insert_eq.
  by rewrite delete_insert_id.
Qed.

Lemma owned_update m a w w' :
  m !! a = Some w → owned_by (<[a := w']> m) ⊎ cookies w = owned_by m ⊎ cookies w'.
Proof.
  intros Ha. rewrite (owned_delete m a w Ha), (owned_delete _ a w') by apply lookup_insert_eq.
  rewrite delete_insert_eq. multiset_solver.
Qed.

(** ** Total correctness

    From a state with [P] the computation does not panic and ends with [Q]. *)
Definition total {S A} (P : S → Prop) (c : M S A) (Q : A → S → Prop) : Prop :=
  ∀ s, P s → ∃ a s', c s = Some (a, s') ∧ Q a s'.

Section total.
Context {S A B : Type}.
Implicit Types (P : S → Prop) (Q : A → S → Prop).

Lemma total_ret P Q a : (∀ s, P s → Q a s) → total P (mret a) Q.
Proof. intros Hq s Hs. exists a, s. auto. Qed.

Lemma total_bind P (c : M S B) R (k : B → M S A) Q :
  total P c R → (∀ b, total (R b) (k b) Q) → total P (c ≫= k) Q.
Proof.
  intros Hc Hk s Hs. destruct (Hc s Hs) as (b & s1 & E & Hr).
  destruct (Hk b s1 Hr) as (a & s2 & E2 & Hq). exists a, s2. by rewrite (bind_run _ _ _ _ _ E).
Qed.

Lemma total_conseq P P' (c : M S A) Q Q' :
  total P c Q → (∀ s, P' s → P s) → (∀ a s, Q a s → Q' a s) → total P' c Q'.
Proof. intros Hc Hp Hq s Hs. destruct (Hc s) as (a & s' & E & ?); [auto |]. exists a, s'. auto. Qed.

(** A fact that does not depend on the state *)
Lemma total_pure (φ : Prop) P (c : M S A) Q : (φ → total P c Q) → total (λ s, φ ∧ P s) c Q.
Proof. intros Hc s [Hφ Hs]. by apply Hc. Qed.

End total.

Lemma total_massert {S} (P : S → Prop) b : b = true → total P (massert b) (λ _, P).
Proof. intros Hb s Hs. exists tt, s. split; [by apply massert_run | done]. Qed.

(** The invariant during the calls of the process [p]: the cookies of [F] are held besides
    those of the working directories, [p] has a working directory with [W], and
    the credentials [u]. *)
Definition creds_ok (p : ptr) (u : ucred) (k : kst) : Prop :=
  ∃ q a, procs k !! p = Some q ∧ pcreds k !! p_cred q = Some a ∧ ucreds k !! ucr a = Some u.

Record inv (p : ptr) (u : ucred) (W : cwd → Prop) (F : gmultiset fcookie) (s : vst) : Prop := {
  iv_held : accounts F s;
  iv_cwd : ∃ a w, p_cwd s !! p = Some a ∧ cwds s !! a = Some w ∧ W w;
  iv_creds : creds_ok p u (vk s)
}.

(** What a call with the result [r] gives the caller *)
Definition gain (r : Z) (c : fcookie) : gmultiset fcookie := if r =? 0 then refs [c] else ∅.

Section rules.
Context `{Vfs} (p : ptr) (u : ucred) (W : cwd → Prop).
Implicit Types (F : gmultiset fcookie) (c : fcookie).

Lemma inv_eq F F' s : F = F' → inv p u W F s → inv p u W F' s.
Proof. by intros ->. Qed.

Lemma inv_held F F' s : inv p u W F s → inv p u W (F ⊎ F') (set_held (held s ⊎ F') s).
Proof.
  intros [Ha Hc Hk]. split; [| exact Hc | exact Hk]. unfold accounts in *. cbn. rewrite Ha.
  multiset_solver.
Qed.

Lemma total_hold F c : total (inv p u W F) (hold c) (λ _, inv p u W (F ⊎ refs [c])).
Proof. intros s Hs. eexists tt, _. split; [done |]. by apply inv_held. Qed.

Lemma total_dup F c : total (inv p u W F) (dup_cookie c) (λ c' s, c' = c ∧ inv p u W (F ⊎ refs [c]) s).
Proof.
  eapply total_bind; [apply total_hold |]. intros ?. apply total_ret. done.
Qed.

Lemma total_release F F' c :
  F = F' ⊎ refs [c] → total (inv p u W F) (release_cookie c) (λ _, inv p u W F').
Proof.
  intros -> s Hs. unfold release_cookie. destruct (Z.eqb_spec (fc_fs c) 0) as [Hc | Hc].
  - exists tt, s. split; [done |]. eapply inv_eq, Hs. rewrite refs_dead by done. multiset_solver.
  - destruct Hs as [Ha Hw Hk]. unfold accounts in Ha. rewrite refs_live in Ha by done.
    assert (c ∈ held s) as Hin by (rewrite Ha; multiset_solver).
    eexists tt, _. rewrite (bind_run _ _ s _ s eq_refl).
    rewrite (bind_run _ _ s tt s) by (apply massert_run; by apply bool_decide_eq_true_2).
    split; [done |]. split; [| exact Hw | exact Hk]. unfold accounts. cbn. rewrite Ha. multiset_solver.
Qed.

Lemma total_ask {A} F (f : nat → A) :
  total (inv p u W F) (ask f) (λ a s, (∃ t, a = f t) ∧ inv p u W F s).
Proof. intros s [Ha Hw Hk]. eexists _, _. split; [done |]. split; [by eexists | by split]. Qed.

Lemma total_on_fs {A} F c (f : nat → A) :
  fc_fs c ≠ 0 → total (inv p u W F) (on_fs c f) (λ a s, (∃ t, a = f t) ∧ inv p u W F s).
Proof.
  intros Hc. eapply total_bind; [| intros ?; apply total_ask].
  apply total_massert. by apply negb_true_iff, Z.eqb_neq.
Qed.

Lemma total_lookup F dir name res :
  fc_fs dir ≠ 0 →
  total (inv p u W F) (xfs_lookup dir name res) (λ '(r, c) s,
    (∃ t, r = 0 ∧ fs_lookup t dir name = (0, c) ∨ r ≠ 0 ∧ c = res ∧ fst (fs_lookup t dir name) = r) ∧
    inv p u W (F ⊎ gain r c) s).
Proof.
  intros Hd. eapply total_bind; [by apply total_on_fs |]. intros [r c]. apply total_pure. intros [t Ht].
  destruct (Z.eqb_spec r 0) as [-> | Hr].
  - eapply total_bind; [apply total_hold |]. intros ?. apply total_ret. intros s Hs.
    split; [exists t; left; auto | exact Hs].
  - apply total_ret. intros s Hs. unfold gain. rewrite (proj2 (Z.eqb_neq r 0) Hr). split.
    + exists t. right. split; [done |]. split; [done |]. by rewrite <- Ht.
    + eapply inv_eq, Hs. multiset_solver.
Qed.

Lemma total_root F c :
  fc_fs c ≠ 0 →
  total (inv p u W F) (xfs_root c) (λ '(r, m) s,
    (∃ t, r = 0 → fs_root t (fc_fs c) (fc_dev c) = (0, m)) ∧ inv p u W (F ⊎ gain r m) s).
Proof.
  intros Hd. eapply total_bind; [by apply total_on_fs |]. intros [r m]. apply total_pure. intros [t Ht].
  destruct (Z.eqb_spec r 0) as [-> | Hr].
  - eapply total_bind; [apply total_hold |]. intros ?. apply total_ret. intros s Hs.
    split; [by exists t | exact Hs].
  - apply total_ret. intros s Hs. unfold gain. rewrite (proj2 (Z.eqb_neq r 0) Hr). split; [by exists t |].
    eapply inv_eq, Hs. multiset_solver.
Qed.

Lemma total_follow F F' c depth :
  F = F' ⊎ refs [c] →
  total (inv p u W F) (kern_follow_link c depth) (λ '(r, m) s,
    (∃ t, r = 0 ∧ fs_follow t c depth = (0, m) ∨ r ≠ 0 ∧ m = c) ∧ inv p u W (F' ⊎ refs [m]) s).
Proof.
  intros ->. eapply total_bind; [apply total_ask |]. intros [r m]. apply total_pure. intros [t Ht].
  destruct (Z.eqb_spec r 0) as [-> | Hr].
  - eapply total_bind; [by apply total_release |]. intros ?.
    eapply total_bind; [apply total_hold |]. intros ?. apply total_ret. intros s Hs.
    split; [exists t; by left | exact Hs].
  - apply total_ret. intros s Hs. split; [exists t; by right | exact Hs].
Qed.

Lemma total_get_cwd F : total (inv p u W F) (get_cwd p) (λ w s, W w ∧ inv p u W F s).
Proof.
  intros s Hs. destruct (iv_cwd _ _ _ _ _ Hs) as (a & w & Ea & Ew & Hw). exists w, s.
  unfold get_cwd. rewrite (bind_run _ _ s a s) by (by apply mderef_run).
  split; [by apply mderef_run | done].
Qed.

Lemma total_elem {A} F (l : list A) i :
  0 ≤ i < Z.of_nat (length l) →
  total (inv p u W F) (elem l i) (λ x s, (x ∈ l ∧ l !! Z.to_nat i = Some x) ∧ inv p u W F s).
Proof.
  intros Hi s Hs. destruct (lookup_lt_is_Some_2 l (Z.to_nat i)) as [x Hx]; [lia |].
  exists x, s. split; [| split; [split; [by eapply list_elem_of_lookup_2 | done] | done]].
  apply mderef_run. by rewrite (proj2 (Z.ltb_ge i 0)) by lia.
Qed.

Lemma total_ucred F : total (inv p u W F) (ucred_of p) (λ v s, v = u ∧ inv p u W F s).
Proof.
  intros s Hs. destruct (iv_creds _ _ _ _ _ Hs) as (q & a & Eq & Ea & Eu).
  exists u, s. split; [| by split]. unfold ucred_of, on_vk, mlift, cred_of, getp, getpc, getuc, mbind, M_bind, mderef.
  rewrite Eq. cbn. rewrite Ea, Eu. by destruct s.
Qed.

Lemma total_getp F : total (inv p u W F) (on_vk (getp p)) (λ _, inv p u W F).
Proof.
  intros s Hs. destruct (iv_creds _ _ _ _ _ Hs) as (q & a & Eq & _).
  exists q, s. split; [| done]. unfold on_vk, mlift, getp, mderef. rewrite Eq. by destruct s.
Qed.
End rules.
