(* ===== verification/Path.v ===== *)
(** * Path names (sys/filesys.c)

    [relpath2cookie] follows a path name component by component from a directory: across
    mount points, through symbolic links, with the search permission of every directory,
    and not above the root of a process that called Dchroot. *)

From stdpp Require Import gmultiset.
From S2P Require Import Prelude CInt Errno Kernel Cred LibStr Files Vfs.
#[local] Open Scope Z_scope.

(** ** Names *)

Definition DIRSEP (c : Z) : bool := (c =? 92) || (c =? 47).

(** [while (DIRSEP (path[0])) path++] *)
Fixpoint skip_seps (s : str) : str :=
  match s with
  | c :: t => if DIRSEP c then skip_seps t else s
  | [] => []
  end.

(** The characters up to the next separator, and the rest *)
Fixpoint split_name (s : str) : str * str :=
  match s with
  | c :: t => if DIRSEP c then ([], s) else let '(n, r) := split_name t in (c :: n, r)
  | [] => ([], [])
  end.

(** What the loop stores: at most [PATH_MAX] characters, and the zero after them.  The
    arrays for names have [PATH_MAX] bytes; a write past the end is a panic. *)
Definition store_name (name : str) : M vst str :=
  let name := take (Z.to_nat PATH_MAX) name in
  massert (Z.of_nat (length name) <? PATH_MAX) ;; mret name.

Definition DriveFromLetter (d : Z) : Z :=
  if (65 <=? d) && (d <=? 90) then d - 65
  else if (97 <=? d) && (d <=? 122) then d - 97
  else if (49 <=? d) && (d <=? 54) then d - 49 + 26
  else -1.

(** [path[i]] *)
Definition at_ (s : str) (i : nat) : Z := nth i s 0.

(** CON:, AUX: and the like are files of U:\DEV. *)
Definition is_any (c upper lower : Z) : bool := (c =? upper) || (c =? lower).
Definition device_name (path : str) : str :=
  match path with
  | [a; b; c; 58] =>
      [85; 58; 92; 68; 69; 86; 92; a; b; c] ++
      (if is_any a 78 110 && is_any b 85 117 && is_any c 76 108 then [108]
       else if is_any a 77 109 && is_any b 73 105 && is_any c 68 100 then [105]
       else [])
  | _ => path
  end.

(** [path[2] != ':' && path[1] == ':' && !cwd->root_dir], and a letter of a drive *)
Definition drive_of (w : cwd) (path : str) : option Z :=
  if negb (at_ path 2 =? 58) && (at_ path 1 =? 58) && bool_decide (cw_root_dir w = None) then
    let drv := DriveFromLetter (at_ path 0) in
    if drv <? 0 then None else Some drv
  else None.

(** The parameter [lastname]: a buffer, [NULL], or [follow_links] *)
Inductive goal_ := Parent | Self | Followed.
Definition dolast (g : goal_) : Z := match g with Parent => 0 | Self => 1 | Followed => 2 end.

(** [cwd->root_dir && samefile (&dir, &cwd->rootdir)] and the name is ".." *)
Definition leaves_root (w : cwd) (dir : fcookie) (name : str) : bool :=
  bool_decide (cw_root_dir w ≠ None) && samefile dir (cw_rootdir w) &&
  bool_decide (name = [46; 46]).

(** ** The loop over the components *)

(** The result, what is in [lastname] (empty if an error came before it was written), and
    what is in [*res] *)
Definition answer : Type := Z * str * fcookie.

Section walk.
Context `{Vfs} (p : ptr) (g : goal_) (drv : Z).
(** The recursive call for the content of a symbolic link *)
Variable follow : fcookie → str → fcookie → Z → M vst (Z * fcookie).

(** The rest of an iteration, with the cookie of the component in [res]; [next] is the next
    iteration. *)
Definition enter (next : fattr → fcookie → fcookie → Z → M vst answer)
    (dir : fcookie) (rest last : str) (res : fcookie) (depth : Z) : M vst answer :=
  '(r, x) ← xfs_getxattr res;
  if negb (r =? 0) then release_cookie dir ;; release_cookie res ;; mret (r, last, res)
  else if S_ISLNK (x_mode (fa_x x)) && (negb (bool_decide (rest = [])) || (1 <? dolast g)) then
    '(r, res, depth) ←
      (if fc_fs res =? kern_filesys then
         release_cookie dir ;;
         '(r, res) ← kern_follow_link res (depth + 1);
         (if negb (r =? 0) then release_cookie res else mret tt) ;;
         mret (r, res, depth + 1)
       else
         '(r, link) ← xfs_readlink res;
         release_cookie res ;;
         if negb (r =? 0) then release_cookie dir ;; mret (r, res, depth)
         else
           '(r, res) ← follow dir link res (depth + 1);
           release_cookie dir ;;
           mret (r, res, depth));
    if negb (r =? 0) then mret (r, last, res)
    else
      '(r, y) ← xfs_getxattr res;
      next (if r =? 0 then y else x) res res depth
  else
    release_cookie dir ;;
    next x res res depth.

(** [x] is [None] at the label [restart_mount], and the attributes of [dir] in the loop. *)
Fixpoint walk (fuel : nat) (x : option fattr) (dir : fcookie) (path last : str) (res : fcookie)
    (depth : Z) : M vst answer :=
  match fuel with
  | O => mpanic
  | S fuel =>
    match x with
    | None =>
        r ← disk_changed (fc_dev dir);
        if negb (r =? 0) then
          release_cookie dir ;;
          mret (if 0 <? r then ECHMEDIA else r, last, res)
        else if bool_decide (path = []) then mret (0, last, dir)
        else
          massert (negb (fc_fs dir =? 0)) ;;
          if has (fsflags (fc_fs dir)) FS_KNOPARSE then
            if dolast g =? 0 then
              mret (0, take (Z.to_nat (PATH_MAX - 1)) path, dir)
            else
              '(r, res) ← xfs_lookup dir path res;
              if r =? EMOUNT then
                '(r, m) ← xfs_root dir;
                if (r =? 0) && (drv =? UNIDRV) then
                  if samefile dir m then
                    release_cookie dir ;; release_cookie m ;;
                    w ← get_cwd p;
                    c ← elem (cw_root w) UNIDRV;
                    dir ← dup_cookie c;
                    walk fuel None dir path last res depth
                  else release_cookie dir ;; mret (r, last, res)
                else
                  (if r =? 0 then release_cookie m else mret tt) ;;
                  release_cookie dir ;; mret (0, last, res)
              else release_cookie dir ;; mret (r, last, res)
        else
          '(r, x) ← xfs_getxattr dir;
          if negb (r =? 0) then release_cookie dir ;; mret (EINTERNAL, last, res)
          else walk fuel (Some x) dir path last res depth
    | Some x =>
        if bool_decide (path = []) then mret (0, last, res)
        else if negb (S_ISDIR (x_mode (fa_x x))) then
          release_cookie dir ;; mret (ENOTDIR, last, res)
        else
          cred ← ucred_of p;
          if denyaccess cred (fa_x x) S_IXOTH then
            release_cookie dir ;; mret (EACCES, last, res)
          else
            let '(name, rest) := split_name (skip_seps path) in
            last ← store_name name;
            if (dolast g =? 0) && bool_decide (skip_seps rest = []) then mret (0, last, dir)
            else
              w ← get_cwd p;
              let last := if leaves_root w dir last then [46] else last in
              '(r, res) ← xfs_lookup dir last res;
              if r =? EMOUNT then
                '(r, m) ← xfs_root dir;
                if (r =? 0) && (drv =? UNIDRV) then
                  if samefile dir m then
                    release_cookie dir ;; release_cookie m ;;
                    w ← get_cwd p;
                    c ← elem (cw_root w) UNIDRV;
                    dir ← dup_cookie c;
                    walk fuel None dir rest last res depth
                  else
                    release_cookie m ;; release_cookie dir ;; mret (EINTERNAL, last, res)
                else if r =? 0 then
                  enter (λ x dir res depth, walk fuel (Some x) dir rest last res depth)
                    dir rest last m depth
                else release_cookie dir ;; mret (r, last, res)
              else if negb (r =? 0) then
                release_cookie dir ;;
                q ← on_vk (getp p);
                mret (if (r =? ENOENT) && (dolast g =? 0) && (domain q =? DOM_TOS)
                      then ENOTDIR else r, last, res)
              else
                enter (λ x dir res depth, walk fuel (Some x) dir rest last res depth)
                  dir rest last res depth
    end
  end.
End walk.

(** ** relpath2cookie *)

Section relpath.
Context `{Vfs}.

(** The directory in which the search starts *)
Definition start_dir (w : cwd) (relto : fcookie) (drive : option Z) (drv : Z) (path : str)
  : M vst fcookie :=
  c ← match path with
      | c :: _ =>
          if DIRSEP c then
            match cw_root_dir w with
            | Some _ => mret (cw_rootdir w)
            | None => elem (cw_root w) drv
            end
          else match drive with Some d => elem (cw_curdir w) d | None => mret relto end
      | [] => match drive with Some d => elem (cw_curdir w) d | None => mret relto end
      end;
  dup_cookie c.

(** Symbolic links nest at most [MAX_LINKS] deep; [n] bounds the depth of the recursion. *)
Fixpoint relpath (n : nat) (p : ptr) (relto : fcookie) (path : str) (g : goal_) (res : fcookie)
    (depth : Z) : M vst answer :=
  match n with
  | O => mpanic
  | S n =>
    if bool_decide (path = []) then mret (ENOENT, [], res)
    else if MAX_LINKS <? depth then mret (ELOOP, [], res)
    else
      let path := device_name path in
      w ← get_cwd p;
      let drive := drive_of w path in
      let drv := default (cw_curdrv w) drive in
      let path := match drive with Some _ => drop 2 path | None => path end in
      dir ← start_dir w relto drive drv path;
      let path := skip_seps path in
      dir ← (if (fc_fs dir =? 0) && bool_decide (cw_root_dir w = None) then
               changedrv (fc_dev dir) ;;
               w ← get_cwd p;
               c ← elem (cw_root w) drv;
               dup_cookie c
             else mret dir);
      if fc_fs dir =? 0 then mret (ENXIO, [], res)
      else
        walk p g drv
          (λ dir link res depth,
             '(r, _, res) ← relpath n p dir link Followed res depth; mret (r, res))
          (2 * length path + 2) None dir path [] res depth
  end.

(** [path] may be a null pointer. *)
Definition relpath2cookie (p : ptr) (relto : fcookie) (path : option str) (g : goal_)
    (res : fcookie) (depth : Z) : M vst answer :=
  match path with
  | None => mret (ENOTDIR, [], res)
  | Some path => relpath (S (Z.to_nat (MAX_LINKS + 1 - depth))) p relto path g res depth
  end.

(** A change of media is tried again, [MAX_TRYS - 1] times; the current directory of the
    drive [drv] is read anew. *)
Definition MAX_TRYS : nat := 4.
Fixpoint path2cookie_loop (trycnt : nat) (p : ptr) (drv : Z) (path : option str)
    (g : goal_) (res : fcookie) : M vst answer :=
  w ← get_cwd p;
  dir ← elem (cw_curdir w) drv;
  '(r, last, res) ← relpath2cookie p dir path g res 0;
  if r =? ECHMEDIA then
    match trycnt with
    | O => mret (r, last, res)
    | S trycnt => path2cookie_loop trycnt p drv path g res
    end
  else mret (r, last, res).
Definition path2cookie (p : ptr) (path : option str) (g : goal_) (res : fcookie)
  : M vst answer :=
  w ← get_cwd p;
  path2cookie_loop (MAX_TRYS - 1) p (cw_curdrv w) path g res.
End relpath.

(** ** Names that fit *)

Definition plain_name (n : str) : Prop := Forall (λ c, DIRSEP c = false) n.

(** No component of the path has [PATH_MAX] characters. *)
Definition names_fit (s : str) : Prop :=
  ∀ a n b, s = a ++ n ++ b → plain_name n → Z.of_nat (length n) < PATH_MAX.

Lemma skip_seps_spec s : ∃ a, s = a ++ skip_seps s.
Proof.
  induction s as [|c s [a IH]]; [by exists [] |]. cbn. destruct (DIRSEP c); [| by exists []].
  exists (c :: a). cbn. by rewrite <- IH.
Qed.

Lemma skip_seps_head s c t : skip_seps s = c :: t → DIRSEP c = false.
Proof. induction s as [|x s IH]; [done |]. cbn. destruct (DIRSEP x) eqn:E; [done |]. by intros [= <- _]. Qed.

Lemma split_name_spec s n r : split_name s = (n, r) → s = n ++ r ∧ plain_name n.
Proof.
  revert n r. induction s as [|c s IH]; intros n r; cbn; [by intros [= <- <-]; split; [| constructor] |].
  destruct (DIRSEP c) eqn:E; [intros [= <- <-]; by split; [| constructor] |].
  destruct (split_name s) as [n' r'] eqn:Es. intros [= <- <-].
  destruct (IH n' r' eq_refl) as [-> Hn]. split; [done |]. by constructor.
Qed.

(** A component and what remains after it *)
Lemma component_spec path n r :
  path ≠ [] → split_name (skip_seps path) = (n, r) →
  (∃ a, path = a ++ n ++ r) ∧ plain_name n ∧ (length r < length path)%nat.
Proof.
  intros Hp Hs. pose proof (split_name_spec _ _ _ Hs) as [E Hn].
  destruct (skip_seps_spec path) as [a Ha]. split; [exists a; by rewrite <- E |]. split; [done |].
  destruct (skip_seps path) as [|c t] eqn:Et.
  - injection Hs as <- <-. destruct path; [done | cbn; lia].
  - rewrite Ha, length_app. cbn in Hs. rewrite (skip_seps_head path c t Et) in Hs.
    destruct (split_name t) as [n' r'] eqn:En. injection Hs as <- <-.
    apply split_name_spec in En as [-> _]. cbn. rewrite length_app. lia.
Qed.

Lemma names_fit_suffix a s : names_fit (a ++ s) → names_fit s.
Proof. intros Hf b n c -> Hn. apply (Hf (a ++ b) n c); [by rewrite <- app_assoc | done]. Qed.

Lemma names_fit_short s : Z.of_nat (length s) < PATH_MAX → names_fit s.
Proof. intros Hs a n b -> _. rewrite !length_app in Hs. lia. Qed.

Lemma names_fit_device s : names_fit s → names_fit (device_name s).
Proof.
  unfold device_name. intros Hs. do 5 (try destruct s as [|? s]; try done).
  all: repeat (match goal with |- context [match ?z with _ => _ end] => destruct z end; try done).
  all: apply names_fit_short; cbn; unfold PATH_MAX; lia.
Qed.

(** ** What the search relies on

    [G] holds of the cookies that the search may meet, [W] of the directories of the
    process.  The laws say that the answers of the file systems lead from such cookies to
    such cookies (except for a ".." that would leave the root of the process), and that a
    change of media keeps the books. *)
Class Walkable `{Vfs} (p : ptr) (u : ucred) (W : cwd → Prop) (G : fcookie → Prop) := {
  wl_live c : G c → fc_fs c ≠ 0;
  wl_cwd w : W w → length (cw_root w) = Z.to_nat NUM_DRIVES ∧
    length (cw_curdir w) = Z.to_nat NUM_DRIVES ∧ 0 ≤ cw_curdrv w < NUM_DRIVES;
  wl_chroot w d : W w → cw_root_dir w = Some d → fc_fs (cw_rootdir w) = 0 ∨ G (cw_rootdir w);
  wl_start w w' c : W w → cw_root_dir w = None → W w' → c ∈ cw_root w' ++ cw_curdir w' →
    fc_fs c = 0 ∨ G c;
  wl_lookup w t c n c' : W w → G c → leaves_root w c n = false → fs_lookup t c n = (0, c') → G c';
  wl_knoparse t c n c' : G c → has (fsflags (fc_fs c)) FS_KNOPARSE = true →
    fs_lookup t c n = (0, c') → G c';
  wl_noparse_mount t c n : G c → has (fsflags (fc_fs c)) FS_KNOPARSE = true →
    fst (fs_lookup t c n) ≠ EMOUNT;
  wl_mount w t c n t' m : W w → G c → leaves_root w c n = false → fst (fs_lookup t c n) = EMOUNT →
    fs_root t' (fc_fs c) (fc_dev c) = (0, m) → G m;
  wl_unified w t c n w' c' : W w → G c → leaves_root w c n = false → fst (fs_lookup t c n) = EMOUNT →
    W w' → cw_root w' !! Z.to_nat UNIDRV = Some c' → G c';
  wl_follow t c d m : G c → fc_fs c = kern_filesys → fs_follow t c d = (0, m) → G m;
  wl_link t c l : fs_readlink t c = (0, l) → names_fit l;
  wl_disk_changed d F : total (inv p u W F) (disk_changed d) (λ _, inv p u W F);
  wl_changedrv d F : total (inv p u W F) (changedrv d) (λ _, inv p u W F)
}.

(** What an answer of the search says and gives *)
Definition found (p : ptr) (u : ucred) (W : cwd → Prop) (G : fcookie → Prop) (F : gmultiset fcookie)
    (a : answer) (s : vst) : Prop :=
  let '(r, _, res) := a in (r = 0 → G res) ∧ inv p u W (F ⊎ gain r res) s.

Lemma found_error p u W G F r last res s : r ≠ 0 → inv p u W F s → found p u W G F (r, last, res) s.
Proof.
  intros Hr Hs. split; [done |]. unfold gain. rewrite (proj2 (Z.eqb_neq r 0) Hr).
  eapply inv_eq, Hs. multiset_solver.
Qed.

Lemma found_ok p u W G F last res s : G res → inv p u W (F ⊎ refs [res]) s → found p u W G F (0, last, res) s.
Proof. done. Qed.

(** The end of a search with an error: the directory is released. *)
Lemma release_error p u W G F F' dir r last res :
  r ≠ 0 → F' = F ⊎ refs [dir] →
  total (inv p u W F') (release_cookie dir ;; mret (r, last, res)) (found p u W G F).
Proof.
  intros Hr ->. eapply total_bind; [by apply total_release |]. intros ?. apply total_ret.
  intros s Hs. by apply found_error.
Qed.

Section walk_proof.
Context `{Walkable p u W G} (g : goal_) (drv : Z).
Variable follow : fcookie → str → fcookie → Z → M vst (Z * fcookie).
Variable depth0 : Z.
Hypothesis follow_ok : ∀ F dir link res depth, G dir → names_fit link → depth0 < depth →
  total (inv p u W F) (follow dir link res depth)
    (λ '(r, c) s, (r = 0 → G c) ∧ inv p u W (F ⊎ gain r c) s).

Lemma enter_ok F next dir rest last res depth :
  G dir → G res → depth0 ≤ depth →
  (∀ x d depth', G d → depth0 ≤ depth' →
     total (inv p u W (F ⊎ refs [d])) (next x d d depth') (found p u W G F)) →
  total (inv p u W (F ⊎ refs [dir] ⊎ refs [res])) (enter g follow next dir rest last res depth)
    (found p u W G F).
Proof.
  intros Hdir Hres Hd Hnext. unfold enter.
  eapply total_bind; [by apply total_on_fs, wl_live |]. intros [r x]. apply total_pure. intros _.
  destruct (Z.eqb_spec r 0) as [-> | Hr]; cbn [negb].
  2: { eapply total_bind; [apply (total_release _ _ _ _ (F ⊎ refs [res])); multiset_solver |]. intros ?.
       by apply release_error. }
  destruct (_ && _) eqn:El.
  2: { eapply total_bind; [apply (total_release _ _ _ _ (F ⊎ refs [res])); multiset_solver |]. intros ?.
       by apply Hnext. }
  eapply (total_bind _ _ (λ '(r, c, d) s, (r = 0 → G c ∧ depth0 ≤ d) ∧ inv p u W (F ⊎ gain r c) s)).
  2: { intros [[r c] d]. apply total_pure. intros Hc. unfold gain. destruct (Z.eqb_spec r 0) as [-> | Hr]; cbn [negb].
       - destruct (Hc eq_refl) as [HG Hd']. eapply total_bind; [by apply total_on_fs, wl_live |].
         intros [r' y]. apply total_pure. intros _. by apply Hnext.
       - apply total_ret. intros s Hs. apply found_error; [done |]. eapply inv_eq, Hs. multiset_solver. }
  destruct (Z.eqb_spec (fc_fs res) kern_filesys) as [Hk | Hk].
  - eapply total_bind; [apply (total_release _ _ _ _ (F ⊎ refs [res])); multiset_solver |]. intros ?.
    eapply total_bind; [by apply total_follow |]. intros [r m]. apply total_pure.
    intros [t [[-> Hm] | [Hr ->]]].
    + apply (total_bind _ _ (λ _, inv p u W (F ⊎ refs [m]))); [by apply total_ret |]. intros ?. apply total_ret.
      intros s Hs. split; [intros _; split; [by eapply wl_follow | lia] | exact Hs].
    + rewrite (proj2 (Z.eqb_neq r 0) Hr). cbn [negb].
      eapply total_bind; [by apply total_release |]. intros ?. apply total_ret. intros s Hs.
      split; [done |]. unfold gain. rewrite (proj2 (Z.eqb_neq r 0) Hr). eapply inv_eq, Hs. multiset_solver.
  - eapply total_bind; [by apply total_on_fs, wl_live |]. intros [r link]. apply total_pure. intros [t Ht].
    eapply total_bind; [by apply total_release |]. intros ?.
    destruct (Z.eqb_spec r 0) as [-> | Hr]; cbn [negb].
    + eapply total_bind; [apply follow_ok; [done | by eapply wl_link | lia] |]. intros [r c].
      apply total_pure. intros Hc.
      eapply total_bind; [apply (total_release _ _ _ _ (F ⊎ gain r c)); multiset_solver |]. intros ?.
      apply total_ret. intros s Hs. split; [| exact Hs]. intros ->. split; [auto | lia].
    + eapply total_bind; [by apply total_release |]. intros ?. apply total_ret. intros s Hs.
      split; [done |]. unfold gain. rewrite (proj2 (Z.eqb_neq r 0) Hr). eapply inv_eq, Hs. multiset_solver.
Qed.

(** Steps that the walk still takes at most *)
Definition steps (x : option fattr) (path : str) : nat :=
  match x with None => 2 * length path + 2 | Some _ => 2 * length path + 1 end.

Definition walk_goal (fuel : nat) : Prop := ∀ F x dir path last res depth,
  (steps x path ≤ fuel)%nat → G dir → names_fit path → depth0 ≤ depth →
  (path = [] → x ≠ None → res = dir) →
  total (inv p u W (F ⊎ refs [dir])) (walk p g drv follow fuel x dir path last res depth) (found p u W G F).

(** A mount point was crossed upwards: the walk goes on in the root of U:. *)
Lemma remount_ok fuel F dir path last res depth :
  walk_goal fuel → (steps None path ≤ fuel)%nat → names_fit path → depth0 ≤ depth →
  (∀ w c, W w → cw_root w !! Z.to_nat UNIDRV = Some c → G c) →
  total (inv p u W (F ⊎ refs [dir]))
    (release_cookie dir ;;
     w ← get_cwd p;
     c ← elem (cw_root w) UNIDRV;
     dir ← dup_cookie c;
     walk p g drv follow fuel None dir path last res depth) (found p u W G F).
Proof.
  intros IH Hf Hn Hd Hu. eapply total_bind; [by apply total_release |]. intros ?.
  eapply total_bind; [apply total_get_cwd |]. intros w. apply total_pure. intros Hw.
  destruct (wl_cwd w Hw) as (Hl & _ & _).
  eapply total_bind; [apply total_elem; rewrite Hl; unfold UNIDRV, NUM_DRIVES; lia |]. intros c.
  apply total_pure. intros [_ Hc].
  eapply total_bind; [apply total_dup |]. intros d. apply total_pure. intros ->.
  apply IH; [done | by eapply Hu | done | done | done].
Qed.

(** The name that is looked up does not leave the root. *)
Lemma name_stays w dir name :
  leaves_root w dir (if leaves_root w dir name then [46] else name) = false.
Proof.
  destruct (leaves_root w dir name) eqn:E; [| done]. unfold leaves_root.
  by rewrite (bool_decide_eq_false_2 ([46] = [46; 46])), andb_false_r.
Qed.

(** A component is looked up, and entered. *)
Lemma component_ok fuel F w dir name rest res depth :
  walk_goal fuel → W w → G dir → leaves_root w dir name = false →
  (steps None rest ≤ fuel)%nat → names_fit rest → depth0 ≤ depth →
  total (inv p u W (F ⊎ refs [dir]))
    ('(r, res) ← xfs_lookup dir name res;
     if r =? EMOUNT then
       '(r, m) ← xfs_root dir;
       if (r =? 0) && (drv =? UNIDRV) then
         if samefile dir m then
           release_cookie dir ;; release_cookie m ;;
           w ← get_cwd p;
           c ← elem (cw_root w) UNIDRV;
           dir ← dup_cookie c;
           walk p g drv follow fuel None dir rest name res depth
         else
           release_cookie m ;; release_cookie dir ;; mret (EINTERNAL, name, res)
       else if r =? 0 then
         enter g follow (λ x dir res depth, walk p g drv follow fuel (Some x) dir rest name res depth)
           dir rest name m depth
       else release_cookie dir ;; mret (r, name, res)
     else if negb (r =? 0) then
       release_cookie dir ;;
       q ← on_vk (getp p);
       mret (if (r =? ENOENT) && (dolast g =? 0) && (domain q =? DOM_TOS)
             then ENOTDIR else r, name, res)
     else
       enter g follow (λ x dir res depth, walk p g drv follow fuel (Some x) dir rest name res depth)
         dir rest name res depth)
    (found p u W G F).
Proof.
  intros IH Hw Hdir Hl Hf Hn Hd.
  assert (∀ x d depth', G d → depth0 ≤ depth' → total (inv p u W (F ⊎ refs [d]))
    (walk p g drv follow fuel (Some x) d rest name d depth') (found p u W G F)) as Hnext.
  { intros x d depth' HG Hd'. apply IH; [cbn in *; lia | done..]. }
  eapply total_bind; [by apply total_lookup, wl_live |]. intros [r c]. apply total_pure.
  intros [t Ht]. destruct (Z.eqb_spec r EMOUNT) as [-> | Hr].
  - destruct Ht as [[? _] | (_ & -> & Ht)]; [done |]. change (gain EMOUNT res) with (∅ : gmultiset fcookie).
    rewrite gmultiset_disj_union_right_id.
    eapply total_bind; [by apply total_root, wl_live |]. intros [r m]. apply total_pure. intros [t' Hm].
    destruct (Z.eqb_spec r 0) as [-> | Hr]; cbn [andb].
    + specialize (Hm eq_refl). change (gain 0 m) with (refs [m]).
      destruct (Z.eqb_spec drv UNIDRV) as [_ | _].
      * destruct (samefile dir m).
        -- eapply total_bind; [apply (total_release _ _ _ _ (F ⊎ refs [m])); multiset_solver |]. intros ?.
           apply (remount_ok fuel F m); [done.. |]. intros w' c' Hw' Hc'. exact (wl_unified w t dir name w' c' Hw Hdir Hl Ht Hw' Hc').
        -- eapply total_bind; [by apply total_release |]. intros ?. by apply release_error.
      * apply enter_ok; [done | exact (wl_mount w t dir name t' m Hw Hdir Hl Ht Hm) | done | exact Hnext].
    + unfold gain. rewrite (proj2 (Z.eqb_neq r 0) Hr). apply release_error; [done | multiset_solver].
  - destruct Ht as [[-> Ht] | (Hr' & -> & _)].
    + apply enter_ok; [done | exact (wl_lookup w t dir name c Hw Hdir Hl Ht) | done | exact Hnext].
    + unfold gain. rewrite (proj2 (Z.eqb_neq r 0) Hr'). cbn [negb].
      rewrite gmultiset_disj_union_right_id.
      eapply total_bind; [by apply total_release |]. intros ?.
      eapply total_bind; [apply total_getp |]. intros q. apply total_ret. intros s Hs.
      apply found_error; [| exact Hs]. by destruct (_ && _).
Qed.

(** An iteration of the loop *)
Lemma walk_loop_ok fuel F x dir path last res depth :
  walk_goal fuel → (steps (Some x) path ≤ S fuel)%nat → G dir → names_fit path →
  depth0 ≤ depth → (path = [] → res = dir) →
  total (inv p u W (F ⊎ refs [dir])) (walk p g drv follow (S fuel) (Some x) dir path last res depth)
    (found p u W G F).
Proof.
  intros IH Hf Hdir Hn Hd Hres. cbn [walk]. case_bool_decide as Hp.
  { rewrite (Hres Hp). apply total_ret. intros s Hs. by apply found_ok. }
  destruct (S_ISDIR (x_mode (fa_x x))); cbn [negb]; [| by apply release_error].
  eapply total_bind; [apply total_ucred |]. intros cred. apply total_pure. intros ->.
  destruct (denyaccess u (fa_x x) S_IXOTH); [by apply release_error |].
  destruct (split_name (skip_seps path)) as [name rest] eqn:Es.
  destruct (component_spec path name rest Hp Es) as ([a Ha] & Hpl & Hlen).
  assert (Z.of_nat (length name) < PATH_MAX) as Hfit by (by apply (Hn a name rest)).
  assert (names_fit rest) as Hrest.
  { apply (names_fit_suffix (a ++ name)). by rewrite <- app_assoc, <- Ha. }
  eapply (total_bind _ _ (λ n s, n = name ∧ inv p u W (F ⊎ refs [dir]) s)).
  { unfold store_name. rewrite take_ge by lia. eapply total_bind.
    - apply total_massert. by apply Z.ltb_lt.
    - intros ?. by apply total_ret. }
  intros n. apply total_pure. intros ->.
  destruct (_ && _); [apply total_ret; intros s Hs; by apply found_ok |].
  eapply total_bind; [apply total_get_cwd |]. intros w. apply total_pure. intros Hw. cbv zeta.
  apply (component_ok fuel F w); [done.. | apply name_stays | cbn in *; lia | done | done].
Qed.

(** The label [restart_mount] *)
Lemma walk_start_ok fuel F dir path last res depth :
  walk_goal fuel → (steps None path ≤ S fuel)%nat → G dir → names_fit path → depth0 ≤ depth →
  total (inv p u W (F ⊎ refs [dir])) (walk p g drv follow (S fuel) None dir path last res depth)
    (found p u W G F).
Proof.
  intros IH Hf Hdir Hn Hd. cbn [walk].
  eapply total_bind; [apply wl_disk_changed |]. intros r.
  destruct (Z.eqb_spec r 0) as [-> | Hr]; cbn [negb].
  2: { destruct (0 <? r); by apply release_error. }
  case_bool_decide as Hp; [apply total_ret; intros s Hs; by apply found_ok |].
  eapply total_bind; [apply total_massert; by apply negb_true_iff, Z.eqb_neq, wl_live |]. intros ?.
  destruct (has _ _) eqn:Hk.
  - destruct (_ =? 0); [apply total_ret; intros s Hs; by apply found_ok |].
    eapply total_bind; [by apply total_lookup, wl_live |]. intros [r c]. apply total_pure. intros [t Ht].
    destruct (Z.eqb_spec r EMOUNT) as [-> | Hr].
    { destruct Ht as [[? _] | (_ & _ & Ht)]; [done |]. by destruct (wl_noparse_mount t dir path). }
    destruct Ht as [[-> Ht] | (Hr' & -> & _)].
    + eapply total_bind; [apply (total_release _ _ _ _ (F ⊎ refs [c])); unfold gain; cbn; multiset_solver |].
      intros ?. apply total_ret. intros s Hs. apply found_ok; [by eapply wl_knoparse | exact Hs].
    + unfold gain. rewrite (proj2 (Z.eqb_neq r 0) Hr'), gmultiset_disj_union_right_id. by apply release_error.
  - eapply total_bind; [by apply total_on_fs, wl_live |]. intros [r x]. apply total_pure. intros _.
    destruct (Z.eqb_spec r 0) as [-> | Hr]; cbn [negb]; [| by apply release_error].
    apply IH; [cbn in *; lia | done..].
Qed.

Lemma walk_ok fuel : walk_goal fuel.
Proof.
  induction fuel as [|fuel IH]; intros F x dir path last res depth Hf Hdir Hn Hd Hres.
  { destruct x; cbn in Hf; lia. }
  destruct x as [x |]; [apply walk_loop_ok | apply walk_start_ok]; auto.
Qed.
End walk_proof.

(** ** The whole search *)

Section relpath_proof.
Context `{Walkable p u W G}.

Lemma drive_letter d : DriveFromLetter d < NUM_DRIVES.
Proof.
  unfold DriveFromLetter, NUM_DRIVES.
  repeat match goal with |- context [if ?b then _ else _] => destruct b eqn:? end; bool_to_prop; lia.
Qed.

Lemma drive_of_spec w path d :
  drive_of w path = Some d → cw_root_dir w = None ∧ 0 ≤ d < NUM_DRIVES.
Proof.
  unfold drive_of. destruct (_ && _) eqn:E; [| done]. bool_to_prop.
  destruct (Z.ltb_spec (DriveFromLetter (at_ path 0)) 0) as [| Hd]; [done |]. intros [= <-].
  split; [done |]. split; [done | apply drive_letter].
Qed.

Lemma drive_range w path : W w → 0 ≤ default (cw_curdrv w) (drive_of w path) < NUM_DRIVES.
Proof.
  intros Hw. destruct (drive_of w path) as [d |] eqn:E; cbn; [by destruct (drive_of_spec _ _ _ E) | by destruct (wl_cwd w Hw) as (_ & _ & ?)].
Qed.

(** An element of [root] or [curdir]; if it is live, the search may start there. *)
Lemma elem_start_ok F w w' l i :
  W w → cw_root_dir w = None → W w' → (l = cw_root w' ∨ l = cw_curdir w') → 0 ≤ i < NUM_DRIVES →
  total (inv p u W F) (elem l i) (λ c s, (fc_fs c = 0 ∨ G c) ∧ inv p u W F s).
Proof.
  intros Hw Hr Hw' Hl Hi. destruct (wl_cwd w' Hw') as (L1 & L2 & _).
  eapply total_conseq; [apply (total_elem p u W F l i) | done |].
  - unfold NUM_DRIVES in *. destruct Hl as [-> | ->]; lia.
  - intros c s [[Hc _] Hs]. split; [| exact Hs]. apply (wl_start w w'); [done.. |].
    rewrite elem_of_app. destruct Hl; subst l; auto.
Qed.

Lemma start_dir_ok F w relto path rest :
  W w → (fc_fs relto = 0 ∨ G relto) →
  total (inv p u W F)
    (start_dir w relto (drive_of w path) (default (cw_curdrv w) (drive_of w path)) rest)
    (λ c s, (fc_fs c = 0 ∨ G c) ∧ inv p u W (F ⊎ refs [c]) s).
Proof.
  intros Hw Hrel. pose proof (drive_range w path Hw) as Hdrv. unfold start_dir.
  eapply (total_bind _ _ (λ c s, (fc_fs c = 0 ∨ G c) ∧ inv p u W F s)).
  2: { intros c. apply total_pure. intros Hc. eapply total_conseq; [apply total_dup | done |].
       by intros c' s [-> Hs]. }
  assert (total (inv p u W F) (match drive_of w path with Some d => elem (cw_curdir w) d | None => mret relto end)
    (λ c s, (fc_fs c = 0 ∨ G c) ∧ inv p u W F s)) as Hother.
  { destruct (drive_of w path) as [d |] eqn:E; [| by apply total_ret].
    destruct (drive_of_spec _ _ _ E) as [Hn Hd]. apply (elem_start_ok F w w); auto. }
  destruct rest as [|c rest]; [exact Hother |]. destruct (DIRSEP c); [| exact Hother].
  destruct (cw_root_dir w) as [d |] eqn:E.
  - apply total_ret. intros s Hs. split; [by eapply wl_chroot | done].
  - apply (elem_start_ok F w w); auto.
Qed.

Lemma relpath_ok n : ∀ F relto path g res depth,
  (1 ≤ n)%nat → MAX_LINKS + 1 - depth < Z.of_nat n → fc_fs relto = 0 ∨ G relto → names_fit path →
  total (inv p u W F) (relpath n p relto path g res depth) (found p u W G F).
Proof.
  induction n as [|n IH]; intros F relto path g res depth Hn1 Hn Hrel Hfit; [lia |]. cbn [relpath].
  case_bool_decide as Hp; [apply total_ret; intros s Hs; by apply found_error |].
  destruct (Z.ltb_spec MAX_LINKS depth) as [Hd | Hd].
  { apply total_ret. intros s Hs. by apply found_error. }
  apply names_fit_device in Hfit. set (pa := device_name path) in *.
  eapply total_bind; [apply total_get_cwd |]. intros w. apply total_pure. intros Hw. cbv zeta.
  set (rest := match drive_of w pa with Some _ => drop 2 pa | None => pa end).
  assert (names_fit (skip_seps rest)) as Hrest.
  { destruct (skip_seps_spec rest) as [a Ha]. apply (names_fit_suffix a). rewrite <- Ha. unfold rest.
    destruct (drive_of w pa); [| done]. apply (names_fit_suffix (take 2 pa)). by rewrite take_drop. }
  eapply total_bind; [by apply start_dir_ok |]. intros c. apply total_pure. intros Hc.
  eapply (total_bind _ _ (λ c s, (fc_fs c = 0 ∨ G c) ∧ inv p u W (F ⊎ refs [c]) s)).
  - destruct (Z.eqb_spec (fc_fs c) 0) as [Hc0 | Hc0]; cbn [andb]; [| by apply total_ret].
    case_bool_decide as Hroot; [| by apply total_ret].
    eapply total_bind; [apply wl_changedrv |]. intros ?.
    eapply total_bind; [apply total_get_cwd |]. intros w'. apply total_pure. intros Hw'.
    eapply total_bind; [apply (elem_start_ok _ w w'); auto using drive_range |]. intros c'.
    apply total_pure. intros Hc'. rewrite refs_dead, gmultiset_disj_union_right_id by done.
    eapply total_conseq; [apply total_dup | done |]. by intros c2 s [-> Hs].
  - intros d. apply total_pure. intros HGd. destruct (Z.eqb_spec (fc_fs d) 0) as [Hd0 | Hd0].
    + apply total_ret. intros s Hs. apply found_error; [done |]. eapply inv_eq, Hs.
      rewrite refs_dead by done. multiset_solver.
    + destruct HGd as [? | HGd]; [done |]. apply (walk_ok g _ _ depth); [| cbn; lia | done.. | lia | done].
      intros F' dir link res' depth' Hdir Hl Hd'.
      eapply total_bind; [apply (IH F' dir); [lia | lia | by right | done] |].
      intros [[r last] c2]. apply total_ret. intros s Hs. exact Hs.
Qed.

Lemma relpath2cookie_ok F relto path g res depth :
  fc_fs relto = 0 ∨ G relto → (∀ s, path = Some s → names_fit s) →
  total (inv p u W F) (relpath2cookie p relto path g res depth) (found p u W G F).
Proof.
  intros Hrel Hfit. destruct path as [path |]; [| apply total_ret; intros s Hs; by apply found_error].
  apply relpath_ok; [lia | lia | done | auto].
Qed.

(** A search of a process that was not sent to another root, or whose current directory is
    one the search may meet *)
Lemma path2cookie_ok F path g res :
  (∀ w c, W w → c ∈ cw_curdir w → fc_fs c = 0 ∨ G c) → (∀ s, path = Some s → names_fit s) →
  total (inv p u W F) (path2cookie p path g res) (found p u W G F).
Proof.
  intros Hcur Hfit. unfold path2cookie. eapply total_bind; [apply total_get_cwd |].
  intros w. apply total_pure. intros Hw. destruct (wl_cwd w Hw) as (_ & _ & Hdrv).
  generalize (MAX_TRYS - 1)%nat as n. intros n. revert res.
  induction n as [|n IH]; intros res; cbn [path2cookie_loop].
  all: eapply total_bind; [apply total_get_cwd |]; intros w'; apply total_pure; intros Hw'.
  all: destruct (wl_cwd w' Hw') as (_ & L2 & _).
  all: eapply total_bind; [apply total_elem; rewrite L2; unfold NUM_DRIVES in *; lia |].
  all: intros c; apply total_pure; intros [Hc _].
  all: eapply total_bind; [apply relpath2cookie_ok; eauto |]; intros [[r last] res'].
  all: destruct (Z.eqb_spec r ECHMEDIA) as [-> | Hr]; [| by apply total_ret].
  - by apply total_ret.
  - eapply total_conseq; [apply IH | | done]. intros s [_ Hs]. eapply inv_eq, Hs.
    change (gain ECHMEDIA res') with (∅ : gmultiset fcookie). multiset_solver.
Qed.
End relpath_proof.

(** ** The books of a search

    The file systems answer with live cookies, a change of media keeps the books, and a file
    system that parses names itself has no mount points. *)

Record cwd_ok (w : cwd) : Prop := {
  co_root : length (cw_root w) = Z.to_nat NUM_DRIVES;
  co_curdir : length (cw_curdir w) = Z.to_nat NUM_DRIVES;
  co_curdrv : 0 ≤ cw_curdrv w < NUM_DRIVES;
  co_unified c : cw_root w !! Z.to_nat UNIDRV = Some c → fc_fs c ≠ 0
}.

Definition live (c : fcookie) : Prop := fc_fs c ≠ 0.

Class VfsLaws `{Vfs} (p : ptr) (u : ucred) (W : cwd → Prop) := {
  vl_lookup t c n c' : fs_lookup t c n = (0, c') → live c';
  vl_root t f d m : fs_root t f d = (0, m) → live m;
  vl_follow t c d m : fs_follow t c d = (0, m) → live m;
  vl_link t c l : fs_readlink t c = (0, l) → Z.of_nat (length l) < PATH_MAX;
  vl_noparse_mount t c n : has (fsflags (fc_fs c)) FS_KNOPARSE = true →
    fst (fs_lookup t c n) ≠ EMOUNT;
  vl_disk_changed d F : total (inv p u W F) (disk_changed d) (λ _, inv p u W F);
  vl_changedrv d F : total (inv p u W F) (changedrv d) (λ _, inv p u W F)
}.

Lemma vfs_walkable_sub `{VfsLaws p u W} : (∀ w, W w → cwd_ok w) → Walkable p u W live.
Proof.
  intros HW. assert (∀ c, fc_fs c = 0 ∨ live c) as Hl by (intros c; unfold live; lia).
  split.
  - done.
  - by intros w []%HW.
  - auto.
  - auto.
  - intros. by eapply vl_lookup.
  - intros. by eapply vl_lookup.
  - intros. by apply vl_noparse_mount.
  - intros. by eapply vl_root.
  - intros w t c n w' c' _ _ _ _ [_ _ _ Hu]%HW. apply Hu.
  - intros. by eapply vl_follow.
  - intros t c l Hll. by eapply names_fit_short, vl_link.
  - apply vl_disk_changed.
  - apply vl_changedrv.
Qed.

#[export] Instance vfs_walkable `{VfsLaws p u cwd_ok} : Walkable p u cwd_ok live.
Proof. by apply vfs_walkable_sub. Qed.

(** ** The root of a process

    What can be reached from [rt] without a ".." at [rt]. *)
Inductive inside `{Vfs} (rt : fcookie) : fcookie → Prop :=
| inside_root : inside rt rt
| inside_lookup t c n c' : inside rt c → samefile c rt && bool_decide (n = [46; 46]) = false →
    fs_lookup t c n = (0, c') → inside rt c'.

Record jailed (rt : fcookie) (w : cwd) : Prop := {
  ja_ok : cwd_ok w;
  ja_set : cw_root_dir w ≠ None;
  ja_top : cw_rootdir w = rt
}.

(** There is no way out of the tree below [rt]: no mount point to go up from, no link of the
    kernel's file system, no file system that parses names itself. *)
Class Closed `{Vfs} (rt : fcookie) := {
  cl_live : live rt;
  cl_parse c : inside rt c → has (fsflags (fc_fs c)) FS_KNOPARSE = false;
  cl_mount t c n : inside rt c → samefile c rt && bool_decide (n = [46; 46]) = false →
    fst (fs_lookup t c n) ≠ EMOUNT;
  cl_kern c : inside rt c → fc_fs c ≠ kern_filesys
}.

Lemma leaves_root_jailed rt w c n :
  jailed rt w → leaves_root w c n = samefile c rt && bool_decide (n = [46; 46]).
Proof. intros [_ Hs <-]. unfold leaves_root. by rewrite bool_decide_eq_true_2. Qed.

Lemma jail_walkable `{VfsLaws p u W} `{!Closed rt} :
  (∀ w, W w → jailed rt w) → Walkable p u W (λ c, live c ∧ inside rt c).
Proof.
  intros HW. split.
  - by intros c [? _].
  - by intros w [[] _ _]%HW.
  - intros w d [_ _ ->]%HW _. right. split; [apply cl_live | constructor].
  - by intros w w' c [_ Hs _]%HW Hn.
  - intros w t c n c' Hw%HW [_ Hi] Hl Hf. rewrite (leaves_root_jailed rt) in Hl by done.
    split; [by eapply vl_lookup | by eapply inside_lookup].
  - intros t c n c' [_ Hi] Hk. by rewrite cl_parse in Hk.
  - intros t c n [_ Hi] Hk. by rewrite cl_parse in Hk.
  - intros w t c n t' m Hw%HW [_ Hi] Hl Hm. rewrite (leaves_root_jailed rt) in Hl by done.
    by destruct (cl_mount t c n).
  - intros w t c n w' c' Hw%HW [_ Hi] Hl Hm. rewrite (leaves_root_jailed rt) in Hl by done.
    by destruct (cl_mount t c n).
  - intros t c d m [_ Hi] Hk. by destruct (cl_kern c).
  - intros t c l Hll. by eapply names_fit_short, vl_link.
  - apply vl_disk_changed.
  - apply vl_changedrv.
Qed.

(** ** Theorems *)



(** ** The reference definition of a search

    In file systems that do not change while the search goes on, without links and mount
    points: the names are looked up one after the other. *)

Section reference.
Context `{Vfs}.

Fixpoint resolve (u : ucred) (x : fattr) (dir : fcookie) (ns : list str) : Z * fcookie :=
  match ns with
  | [] => (0, dir)
  | n :: ns =>
      if negb (S_ISDIR (x_mode (fa_x x))) then (ENOTDIR, dir)
      else if denyaccess u (fa_x x) S_IXOTH then (EACCES, dir)
      else
        let '(r, c) := fs_lookup O dir n in
        if negb (r =? 0) then (r, dir)
        else
          let '(r, x) := fs_getxattr O c in
          if negb (r =? 0) then (r, dir) else resolve u x c ns
  end.

Definition resolve_path (u : ucred) (dir : fcookie) (ns : list str) : Z * fcookie :=
  match ns with
  | [] => (ENOENT, dir)
  | _ =>
      let '(r, x) := fs_getxattr O dir in
      if negb (r =? 0) then (EINTERNAL, dir) else resolve u x dir ns
  end.
End reference.

(** The names, with a separator between two of them *)
Fixpoint join (sep : Z) (ns : list str) : str :=
  match ns with
  | [] => []
  | [n] => n
  | n :: ns => n ++ sep :: join sep ns
  end.

Definition name_ok (n : str) : Prop := n ≠ [] ∧ plain_name n ∧ Z.of_nat (length n) < PATH_MAX.

(** File systems that answer the same to every call, without mount points and links *)
Class Static `{Vfs} := {
  st_lookup t c n : fs_lookup t c n = fs_lookup O c n;
  st_getxattr t c : fs_getxattr t c = fs_getxattr O c;
  st_live c n c' : fs_lookup O c n = (0, c') → live c';
  st_no_mount c n : fst (fs_lookup O c n) ≠ EMOUNT;
  st_no_link c x : fs_getxattr O c = (0, x) → S_ISLNK (x_mode (fa_x x)) = false;
  st_parse c : has (fsflags (fc_fs c)) FS_KNOPARSE = false;
  st_media d s : disk_changed d s = Some (0, s)
}.

Lemma skip_name n r : name_ok n → skip_seps (n ++ r) = n ++ r.
Proof. intros (Hn & Hp & _). destruct n; [done |]. apply Forall_cons in Hp as [Hc _]. cbn. by rewrite Hc. Qed.

Lemma split_join sep n ns :
  DIRSEP sep = true → name_ok n →
  split_name (skip_seps (join sep (n :: ns))) = (n, match ns with [] => [] | _ => sep :: join sep ns end).
Proof.
  intros Hsep Hn. set (r := match ns with [] => [] | _ => sep :: join sep ns end).
  assert (join sep (n :: ns) = n ++ r) as -> by (destruct ns; cbn; by rewrite ?app_nil_r).
  rewrite skip_name by done. destruct Hn as (_ & Hp & _).
  assert (split_name r = ([], r)) as Hr by (destruct ns; cbn; by rewrite ?Hsep).
  clearbody r. revert Hp. induction n as [|c n IH]; intros Hp; [done |].
  apply Forall_cons in Hp as [Hc Hp]. cbn. by rewrite Hc, IH.
Qed.

Lemma skip_join sep n ns :
  DIRSEP sep = true → name_ok n → skip_seps (sep :: join sep (n :: ns)) = join sep (n :: ns).
Proof.
  intros Hsep Hn. cbn [skip_seps]. rewrite Hsep.
  assert (∃ r, join sep (n :: ns) = n ++ r) as [r ->] by (destruct ns; cbn; eauto using app_nil_r).
  by apply skip_name.
Qed.

Section equivalence.
Context `{Static} (p : ptr) (u : ucred) (W : cwd → Prop) (sep : Z).
Hypothesis free_root : ∀ w, W w → cw_root_dir w = None.
Hypothesis is_sep : DIRSEP sep = true.

(** The search answers as the reference does. *)
Definition agrees (ref : Z * fcookie) (a : answer) (s : vst) : Prop :=
  let '(r, _, res) := a in r = ref.1 ∧ (r = 0 → res = ref.2).

Lemma agrees_error F dir r last res d :
  r ≠ 0 → total (inv p u W (F ⊎ refs [dir])) (release_cookie dir ;; mret (r, last, res)) (agrees (r, d)).
Proof.
  intros Hr. eapply total_bind; [by apply total_release |]. intros ?. by apply total_ret.
Qed.

(** The path that is left for the names [ns] *)
Definition path_of (ns : list str) (path : str) : Prop :=
  path = join sep ns ∨ ns ≠ [] ∧ path = sep :: join sep ns.

Lemma path_of_split n ns path :
  name_ok n → path_of (n :: ns) path →
  path ≠ [] ∧ ∃ rest, split_name (skip_seps path) = (n, rest) ∧ path_of ns rest.
Proof.
  intros Hn Hp.
  assert (split_name (skip_seps path) = (n, match ns with [] => [] | _ => sep :: join sep ns end)) as E.
  { destruct Hp as [-> | [_ ->]]; [by apply split_join |].
    rewrite skip_join by done. rewrite <- (split_join sep n ns is_sep Hn). f_equal.
    assert (∃ r, join sep (n :: ns) = n ++ r) as [r ->] by (destruct ns; cbn; eauto using app_nil_r).
    by rewrite skip_name. }
  split.
  - destruct Hp as [-> | [_ ->]]; [| done]. destruct Hn as (Hn & _). by destruct n, ns.
  - eexists. split; [exact E |]. destruct ns; [by left | right; done].
Qed.

Lemma walk_resolve g drv follow ns : ∀ fuel F x dir path last res depth,
  dolast g ≠ 0 → Forall name_ok ns → path_of ns path → live dir → (length ns < fuel)%nat →
  (ns = [] → res = dir) →
  total (inv p u W (F ⊎ refs [dir])) (walk p g drv follow fuel (Some x) dir path last res depth)
    (agrees (resolve u x dir ns)).
Proof.
  induction ns as [|n ns IH]; intros fuel F x dir path last res depth Hg Hns Hp Hl Hf Hres;
    (destruct fuel as [|fuel]; [cbn in Hf; lia |]); cbn [walk resolve].
  { destruct Hp as [-> | [? _]]; [| done]. cbn. rewrite Hres by done. by apply total_ret. }
  apply Forall_cons in Hns as [Hn Hns]. destruct (path_of_split n ns path Hn Hp) as (Hne & rest & Es & Hrest).
  rewrite bool_decide_eq_false_2 by done.
  destruct (S_ISDIR (x_mode (fa_x x))); cbn [negb]; [| by apply agrees_error].
  eapply total_bind; [apply total_ucred |]. intros cred. apply total_pure. intros ->.
  destruct (denyaccess u (fa_x x) S_IXOTH); [by apply agrees_error |].
  rewrite Es. eapply (total_bind _ _ (λ m s, m = n ∧ inv p u W (F ⊎ refs [dir]) s)).
  { destruct Hn as (_ & _ & Hfit). unfold store_name. rewrite take_ge by lia. eapply total_bind.
    - apply total_massert. by apply Z.ltb_lt.
    - intros ?. by apply total_ret. }
  intros m. apply total_pure. intros ->. rewrite (proj2 (Z.eqb_neq _ _) Hg). cbn [andb].
  eapply total_bind; [apply total_get_cwd |]. intros w. apply total_pure. intros Hw. cbv zeta.
  assert (leaves_root w dir n = false) as -> by (unfold leaves_root; by rewrite free_root).
  eapply total_bind; [by apply total_lookup |]. intros [r c]. apply total_pure. intros [t Ht].
  rewrite !st_lookup in Ht. pose proof (st_no_mount dir n) as Hnm.
  destruct (Z.eqb_spec r EMOUNT) as [-> | _]; [by destruct Ht as [[? _] | (_ & _ & ?)] |].
  destruct Ht as [[-> Ht] | (Hr & -> & Ht)].
  2: { destruct (fs_lookup 0 dir n) as [r' c']. cbn in Ht. subst r'. unfold gain.
       rewrite (proj2 (Z.eqb_neq r 0) Hr), gmultiset_disj_union_right_id. cbn [negb].
       eapply total_bind; [by apply total_release |]. intros ?. eapply total_bind; [apply total_getp |].
       intros q. apply total_ret. intros s _. by rewrite andb_false_r. }
  rewrite Ht. cbn [negb Z.eqb]. unfold enter.
  eapply total_bind; [apply total_on_fs; by eapply st_live |]. intros [r y]. apply total_pure.
  intros [t2 Hy]. rewrite st_getxattr in Hy. rewrite <- Hy. destruct (Z.eqb_spec r 0) as [-> | Hr]; cbn [negb].
  2: { eapply total_bind; [apply (total_release _ _ _ _ (F ⊎ refs [c])); unfold gain; cbn; multiset_solver |].
       intros ?. by apply agrees_error. }
  rewrite (st_no_link c y) by done. cbn [andb].
  eapply total_bind; [apply (total_release _ _ _ _ (F ⊎ refs [c])); unfold gain; cbn; multiset_solver |].
  intros ?. apply IH; [done | done | done | by eapply st_live | cbn in Hf; lia | done].
Qed.

Lemma join_head n ns : ∃ r, join sep (n :: ns) = n ++ r.
Proof. destruct ns; cbn; eauto using app_nil_r. Qed.

Lemma join_length ns : Forall name_ok ns → (length ns ≤ length (join sep ns))%nat.
Proof.
  induction 1 as [|n ns (Hn & _) Hns IH]; [done |]. destruct n as [|c n]; [done |].
  destruct ns as [|m ns]; cbn in *; rewrite ?length_app; cbn; lia.
Qed.

Lemma disk_same F d : total (inv p u W F) (disk_changed d) (λ r s, r = 0 ∧ inv p u W F s).
Proof. intros s Hs. exists 0, s. split; [apply st_media | done]. Qed.

(** The search from a directory *)
Lemma relpath_resolve n F relto ns g res depth :
  dolast g ≠ 0 → Forall name_ok ns → ns ≠ [] → live relto → depth ≤ MAX_LINKS →
  (∀ w, drive_of w (join sep ns) = None) → device_name (join sep ns) = join sep ns →
  total (inv p u W F) (relpath (S n) p relto (join sep ns) g res depth) (agrees (resolve_path u relto ns)).
Proof.
  intros Hg Hns Hne Hl Hd Hdrv Hdev. cbn [relpath]. pose proof (join_length ns Hns) as Hlen.
  destruct ns as [|m ns]; [done |]. destruct (join_head m ns) as [r E].
  set (path := join sep (m :: ns)) in *. pose proof (Forall_inv Hns) as Hm.
  assert (skip_seps path = path) as Hsk by (rewrite E; by apply skip_name).
  assert (∃ c t, path = c :: t ∧ DIRSEP c = false) as (c & t & Ec & Hc).
  { rewrite E. destruct Hm as (Hm & Hp & _). destruct m as [|c m]; [done |].
    apply Forall_cons in Hp as [Hc _]. by exists c, (m ++ r). }
  rewrite bool_decide_eq_false_2 by (by rewrite Ec).
  rewrite (proj2 (Z.ltb_ge _ _)) by lia. rewrite Hdev.
  eapply total_bind; [apply total_get_cwd |]. intros w. apply total_pure. intros Hw. cbv zeta.
  rewrite Hdrv, Hsk. cbn [default].
  assert (start_dir w relto None (cw_curdrv w) path = dup_cookie relto) as ->
    by (unfold start_dir; by rewrite Ec, Hc).
  eapply total_bind; [apply total_dup |]. intros d. apply total_pure. intros ->.
  rewrite (proj2 (Z.eqb_neq (fc_fs relto) 0) Hl). cbn [andb].
  eapply (total_bind _ _ (λ d s, d = relto ∧ inv p u W (F ⊎ refs [relto]) s)); [by apply total_ret |].
  intros d. apply total_pure. intros ->. rewrite (proj2 (Z.eqb_neq (fc_fs relto) 0) Hl).
  assert (∃ fuel, (2 * length path + 2)%nat = S fuel ∧ (length (m :: ns) < fuel)%nat) as (fuel & -> & Hf).
  { exists (S (2 * length path)). cbn in *. lia. }
  cbn [walk].
  eapply total_bind; [apply disk_same |]. intros r0. apply total_pure. intros ->. cbn [negb Z.eqb].
  rewrite bool_decide_eq_false_2 by (by rewrite Ec). rewrite st_parse.
  eapply total_bind; [apply total_massert; by apply negb_true_iff, Z.eqb_neq |]. intros ?.
  eapply total_bind; [by apply total_on_fs |]. intros [r1 x]. apply total_pure. intros [t2 Hx].
  rewrite st_getxattr in Hx. cbn [resolve_path]. rewrite <- Hx.
  destruct (Z.eqb_spec r1 0) as [-> | Hr]; cbn [negb]; [| by apply agrees_error].
  apply walk_resolve; [done | done | by left | done..].
Qed.
End equivalence.

(** C10: a search for a name relative to a directory looks up the components of the name one
    after the other, from the left: in file systems without links, mount points and changes
    of media, the answer, the errors included, is that of [resolve_path].  (The name has no
    drive letter and is not one of a device.) *)
Theorem relpath2cookie_resolves `{Static} p u F sep relto ns g res s :
  DIRSEP sep = true → dolast g ≠ 0 → Forall name_ok ns → ns ≠ [] → live relto →
  (∀ w, drive_of w (join sep ns) = None) → device_name (join sep ns) = join sep ns →
  inv p u (λ w, cw_root_dir w = None) F s →
  ∃ r last res' s', relpath2cookie p relto (Some (join sep ns)) g res 0 s = Some ((r, last, res'), s') ∧
    r = (resolve_path u relto ns).1 ∧ (r = 0 → res' = (resolve_path u relto ns).2).
Proof.
  intros Hsep Hg Hns Hne Hl Hdrv Hdev Hs.
  destruct (relpath_resolve p u (λ w, cw_root_dir w = None) sep (λ _ H, H) Hsep 5 F relto ns g res 0)
    with s as ([[r last] res'] & s' & Hrun & Ha); [done.. |].
  exists r, last, res', s'. done.
Qed.

(** ** An example: a file system with a tree, and a process in it *)

Module Sample.
(** The directories 1, 1/a = 2, 1/a/b = 3; the file 1/a/b/f = 4; in 1/a the symbolic links
    l = 5 to "b\f" and o = 6 to "..\..\a". *)
Definition tree : list (Z * str * Z) :=
  [(1, [97], 2); (2, [98], 3); (3, [102], 4); (2, [108], 5); (2, [111], 6);
   (1, [46; 46], 1); (2, [46; 46], 1); (3, [46; 46], 2)].
Definition lookup_ (c : fcookie) (n : str) : Z * fcookie :=
  if bool_decide (n = []) || bool_decide (n = [46]) then (0, mk_fcookie 1 (fc_dev c) (fc_index c))
  else
    match List.find (λ '(i, m, _), (i =? fc_index c) && bool_decide (m = n)) tree with
    | Some (_, _, j) => (0, mk_fcookie 1 (fc_dev c) j)
    | None => (ENOENT, c)
    end.
Definition mode_of (i : Z) : Z :=
  if i <=? 3 then 16895 else if i =? 4 then 33188 else 57855.
Definition getxattr_ (c : fcookie) : Z * fattr :=
  (0, mk_fattr (mk_xattr (mode_of (fc_index c)) 0 0) (if fc_index c <=? 3 then 16 else 0)).
Definition readlink_ (c : fcookie) : Z * str :=
  if fc_index c =? 5 then (0, [98; 92; 102])
  else if fc_index c =? 6 then (0, [46; 46; 92; 46; 46; 92; 97]) else (EINVAL, []).

#[local] Instance tree_vfs : Vfs := {
  fsflags _ := 0;
  fs_lookup _ := lookup_;
  fs_root _ f d := (0, mk_fcookie 1 d 1);
  fs_getxattr _ := getxattr_;
  fs_readlink _ := readlink_;
  fs_getname _ _ _ := (0, [92; 97]);
  fs_remove _ _ _ := 0;
  fs_rmdir _ _ _ := 0;
  fs_mkdir _ _ _ _ := 0;
  kern_filesys := 7;
  fs_follow _ c _ := (EINVAL, c);
  disk_changed _ := mret 0;
  changedrv _ := mret tt
}.

Definition dir (i : Z) : fcookie := mk_fcookie 1 2 i.
Definition free_cwd_ : cwd :=
  mk_cwd 1 0 (mk_fcookie 0 0 0) None 2 (replicate 32 (dir 1)) (replicate 32 (dir 1)).
Definition jailed_cwd : cwd := set_cw_rootdir (dir 2) (set_cw_root_dir (Some [92; 97]) free_cwd_).
Definition state_of (w : cwd) : vst :=
  mk_vst ex_kst {[ 2%positive := 1%positive ]} {[ 1%positive := w ]} (cookies w) 0.
Definition cred : ucred := mk_ucred 0 0 [0; 0; 0; 0; 0; 0; 0; 0] 0 1.

Lemma state_inv w (W : cwd → Prop) : W w → inv 2 cred W ∅ (state_of w).
Proof.
  intros Hw. split.
  - unfold accounts, state_of. cbn [held cwds]. rewrite <- insert_empty, owned_insert by apply lookup_empty.
    unfold owned_by. rewrite map_fold_empty. multiset_solver.
  - exists 1%positive, w. split; [by vm_compute | split; [apply lookup_insert_eq | done]].
  - eexists _, _. split_and!; vm_compute; reflexivity.
Qed.

Lemma lookup_live c n c' : lookup_ c n = (0, c') → live c'.
Proof.
  unfold lookup_, live. destruct (_ || _); [by intros [= <-] |].
  destruct (List.find _ _) as [[[i m] j] |]; [by intros [= <-] | done].
Qed.

Lemma lookup_no_mount c n : fst (lookup_ c n) ≠ EMOUNT.
Proof. unfold lookup_. destruct (_ || _); [done |]. by destruct (List.find _ _) as [[[i m] j] |]. Qed.

#[local] Instance tree_laws p u W : VfsLaws p u W.
Proof.
  split; cbn.
  - intros _. apply lookup_live.
  - by intros _ f d m [= <-].
  - done.
  - intros _ c l. unfold readlink_. destruct (_ =? 5); [by intros [= <-] |].
    destruct (_ =? 6); [by intros [= <-] | done].
  - intros _ c n _. apply lookup_no_mount.
  - intros d F. by apply total_ret.
  - intros d F. by apply total_ret.
Qed.

Lemma free_ok : cwd_ok free_cwd_.
Proof. split; [done | done | done |]. intros c [-> _]%lookup_replicate. done. Qed.

Lemma jailed_ok : jailed (dir 2) jailed_cwd.
Proof. split; [| done | done]. split; [done | done | done |]. intros c [-> _]%lookup_replicate. done. Qed.

Lemma inside_same rt c : inside rt c → fc_fs rt = 1 → fc_fs c = 1.
Proof.
  induction 1 as [| t c n c' Hi IH Hl Hf]; [done |]. intros Hr. cbn in Hf. unfold lookup_ in Hf.
  destruct (_ || _); [by injection Hf as <- |].
  destruct (List.find _ _) as [[[i m] j] |]; [by injection Hf as <- | done].
Qed.

#[local] Instance tree_closed : Closed (dir 2).
Proof.
  split.
  - done.
  - done.
  - intros t c n _ _. apply lookup_no_mount.
  - intros c Hc. rewrite (inside_same (dir 2) c Hc) by done. done.
Qed.

(** "a\l" leads through the link to the file 4 *)
Definition name_al : str := [97; 92; 108].
(** "o\b\..\..\..\b" stays below 2, although the link points above it *)
Definition name_o : str := [111; 92; 98; 92; 46; 46; 92; 46; 46; 92; 46; 46; 92; 98].

Example link_is_followed :
  (λ '((r, _, c), s), (r, c, size (held s))) <$>
    relpath2cookie 2 (dir 1) (Some name_al) Followed (dir 0) 0 (state_of free_cwd_) =
  Some (0, dir 4, 65%nat).
Proof. vm_compute. reflexivity. Qed.

(** The same tree without links *)
Definition getxattr_plain (c : fcookie) : Z * fattr :=
  (0, mk_fattr (mk_xattr (if fc_index c <=? 3 then 16895 else 33188) 0 0) 0).
Definition plain_vfs : Vfs := {|
  fsflags _ := 0;
  fs_lookup _ := lookup_;
  fs_root _ f d := (0, mk_fcookie 1 d 1);
  fs_getxattr _ := getxattr_plain;
  fs_readlink _ c := (EINVAL, []);
  fs_getname _ _ _ := (0, [92; 97]);
  fs_remove _ _ _ := 0;
  fs_rmdir _ _ _ := 0;
  fs_mkdir _ _ _ _ := 0;
  kern_filesys := 7;
  fs_follow _ c _ := (EINVAL, c);
  disk_changed _ := mret 0;
  changedrv _ := mret tt
|}.
Lemma plain_static : @Static plain_vfs.
Proof.
  split; cbn; try done.
  - intros c n. apply lookup_live.
  - intros c n. apply lookup_no_mount.
  - intros c x. unfold getxattr_plain. intros [= <-]. cbn. by destruct (fc_index c <=? 3).
Qed.

(** A file system that parses names itself and answers [EMOUNT] to ".." *)
Definition knoparse_vfs : Vfs := {|
  fsflags _ := FS_KNOPARSE;
  fs_lookup _ c n := if bool_decide (n = [46; 46]) then (EMOUNT, c) else lookup_ c n;
  fs_root _ f d := (0, mk_fcookie 1 d 1);
  fs_getxattr _ := getxattr_plain;
  fs_readlink _ c := (EINVAL, []);
  fs_getname _ _ _ := (0, []);
  fs_remove _ _ _ := 0;
  fs_rmdir _ _ _ := 0;
  fs_mkdir _ _ _ _ := 0;
  kern_filesys := 7;
  fs_follow _ c _ := (EINVAL, c);
  disk_changed _ := mret 0;
  changedrv _ := mret tt
|}.
End Sample.



(** "a\b\f" *)
Lemma relpath2cookie_resolves_witness :
  ∃ r last res' s',
    relpath2cookie (H := Sample.plain_vfs) 2 (Sample.dir 1) (Some (join 92 [[97]; [98]; [102]])) Self
      (Sample.dir 0) 0 (Sample.state_of Sample.free_cwd_) = Some ((r, last, res'), s') ∧
    r = 0 ∧ (r = 0 → res' = Sample.dir 4).
Proof.
  refine (relpath2cookie_resolves (H0 := Sample.plain_static) 2 Sample.cred ∅ 92 (Sample.dir 1)
    [[97]; [98]; [102]] Self (Sample.dir 0) (Sample.state_of Sample.free_cwd_) _ _ _ _ _ _ _ _); try done.
  - repeat constructor; try done.
  - by apply Sample.state_inv.
Defined.

(** ** What the code does not mean to do *)

(** C13: a component of [PATH_MAX] characters or more is stored with [PATH_MAX] characters and
    a zero behind them, one byte past the end of the buffer: the counter in the loop leaves
    no room for the zero. *)
Theorem long_name_overflows `{Vfs} p g drv follow fuel x dir path last res depth s u name rest :
  split_name (skip_seps path) = (name, rest) → PATH_MAX ≤ Z.of_nat (length name) →
  S_ISDIR (x_mode (fa_x x)) = true → ucred_of p s = Some (u, s) → denyaccess u (fa_x x) S_IXOTH = false →
  walk p g drv follow (S fuel) (Some x) dir path last res depth s = None.
Proof.
  intros Hs Hl Hd Hu Ha. cbn [walk]. rewrite bool_decide_eq_false_2 by (intros ->; injection Hs as <- _; done).
  rewrite Hd. cbn [negb]. rewrite (bind_run _ _ _ _ _ Hu), Ha, Hs.
  assert (store_name name s = None) as E.
  { unfold store_name. rewrite length_take, Nat.min_l by (unfold PATH_MAX in *; lia).
    by unfold mbind, M_bind. }
  unfold mbind at 1, M_bind. by rewrite E.
Qed.

Lemma long_name_overflows_witness :
  walk (H := Sample.tree_vfs) 2 Self 2 (λ d _ _ _, mret (0, d)) 600
    (Some (mk_fattr (mk_xattr 16895 0 0) 16)) (Sample.dir 1) (replicate 255 97) [] (Sample.dir 0) 0
    (Sample.state_of Sample.free_cwd_) = None.
Proof.
  refine (long_name_overflows (H := Sample.tree_vfs) 2 Self 2 _ 599 _ _ _ _ _ _ _ Sample.cred
    (replicate 255 97) [] _ _ _ _ _); [vm_compute; reflexivity | vm_compute; discriminate | vm_compute; reflexivity..].
Defined.

(** A user can get there with a name of 255 characters. *)
Example long_name_panics :
  relpath2cookie (H := Sample.tree_vfs) 2 (Sample.dir 1) (Some (replicate 255 97)) Self (Sample.dir 0) 0
    (Sample.state_of Sample.free_cwd_) = None.
Proof. vm_compute. reflexivity. Qed.

(** A file system that parses names itself may answer [EMOUNT]: the search reports success,
    but [*res] still has what was in it before (here the cookie 77, that nobody holds). *)
Example mount_answer_unset :
  (λ '((r, _, c), _), (r, c)) <$>
    relpath2cookie (H := Sample.knoparse_vfs) 2 (Sample.dir 1) (Some [46; 46]) Self (Sample.dir 77) 0
      (Sample.state_of Sample.free_cwd_) = Some (0, Sample.dir 77).
Proof. vm_compute. reflexivity. Qed.
