(* ===== verification/Dir.v ===== *)
(** * Working directories and the calls on directories (sys/proc_help.c, sys/k_fork.c,
      sys/dosdir.c, sys/dos.c)

    The working directories of a process are copied, or shared, when it forks and released
    when it ends; Dsetdrv, Dsetpath and Dchroot change them; Dcreate and Ddelete work on
    the directories that a path name leads to. *)

From stdpp Require Import gmultiset.
From S2P Require Import Prelude CInt Errno Kernel Cred LibStr Files Vfs Path.
#[local] Open Scope Z_scope.

Definition FA_DIR : Z := 16.
Definition S_IWOTH : Z := 2.
Definition S_ISGID : Z := 1024.
Definition S_ISVTX : Z := 512.
Definition DEFAULT_DIRMODE : Z := 493.

(** A cleared cookie *)
Definition no_cookie : fcookie := mk_fcookie 0 0 0.

(** ** Sharing and copying *)

Definition share_cwd (p : ptr) : M vst ptr :=
  a ← mderef (λ s, p_cwd s !! p);
  mod_cwd p (λ w, set_cw_links (cw_links w + 1) w) ;;
  mret a.

(** [for (i = 0; i < NUM_DRIVES; i++)]: a root and a current directory *)
Fixpoint dup_dirs (rs cs : list fcookie) : M vst (list fcookie * list fcookie) :=
  match rs, cs with
  | r :: rs, c :: cs =>
      r ← dup_cookie r;
      c ← dup_cookie c;
      '(rs, cs) ← dup_dirs rs cs;
      mret (r :: rs, c :: cs)
  | _, _ => mret ([], [])
  end.

(** [mem] and [mem2] are the answers of [kmalloc].  The new structure was cleared before its
    [root_dir] is tested. *)
Definition copy_cwd (p : ptr) (mem mem2 : option ptr) : M vst (option ptr) :=
  org ← get_cwd p;
  massert (0 <? cw_links org) ;;
  match mem with
  | None => mret None
  | Some n =>
      let w := mk_cwd 1 (cw_cmask org) no_cookie None 0
                 (replicate (Z.to_nat NUM_DRIVES) no_cookie)
                 (replicate (Z.to_nat NUM_DRIVES) no_cookie) in
      w ← match cw_root_dir w, mem2 with
          | None, _ => mret (Some w)
          | Some _, None => mret None
          | Some _, Some _ =>
              c ← dup_cookie (cw_rootdir org);
              mret (Some (set_cw_rootdir c (set_cw_root_dir (cw_root_dir org) w)))
          end;
      match w with
      | None => mret None
      | Some w =>
          '(rs, cs) ← dup_dirs (cw_root org) (cw_curdir org);
          let w := set_cw_curdir cs (set_cw_root rs (set_cw_curdrv (cw_curdrv org) w)) in
          mmod (λ s, set_cwds (<[n := w]> (cwds s)) s) ;;
          mret (Some n)
      end
  end.

Fixpoint release_dirs (rs cs : list fcookie) : M vst unit :=
  match rs, cs with
  | r :: rs, c :: cs => release_cookie c ;; release_cookie r ;; release_dirs rs cs
  | _, _ => mret tt
  end.

Definition free_cwd (p : ptr) : M vst unit :=
  a ← mderef (λ s, p_cwd s !! p);
  w ← mderef (λ s, cwds s !! a);
  massert (0 <? cw_links w) ;;
  mmod (λ s, set_p_cwd (delete p (p_cwd s)) s) ;;
  let w := set_cw_links (cw_links w - 1) w in
  mmod (λ s, set_cwds (<[a := w]> (cwds s)) s) ;;
  if 0 <? cw_links w then mret tt
  else
    release_dirs (cw_root w) (cw_curdir w) ;;
    match cw_root_dir w with
    | Some _ => release_cookie (cw_rootdir w)
    | None => mret tt
    end ;;
    mmod (λ s, set_cwds (delete a (cwds s)) s).

(** What fork does with the working directories: [p2->p_cwd = share_cwd (p1)], or
    [copy_cwd (p1)].  The answer tells whether the child got one. *)
Definition fork_cwd (share : bool) (p1 p2 : ptr) (mem mem2 : option ptr) : M vst bool :=
  a ← (if share then a ← share_cwd p1; mret (Some a) else copy_cwd p1 mem mem2);
  match a with
  | Some a => mmod (λ s, set_p_cwd (<[p2 := a]> (p_cwd s)) s) ;; mret true
  | None => mret false
  end.

(** ** Drives, masks and current directories *)

Section calls.
Context `{Vfs}.

Definition sys_p_umask (p : ptr) (mode : Z) : M vst Z :=
  w ← get_cwd p;
  mod_cwd p (set_cw_cmask (Z.land mode (Z.land 65535 (Z.lnot S_IFMT)))) ;;
  mret (cw_cmask w).

(** [map] is the vector of the drives, of the BIOS and of GEMDOS. *)
Definition sys_d_setdrv (p : ptr) (map d : Z) : M vst Z :=
  w ← get_cwd p;
  if (d <? 0) || (NUM_DRIVES <=? d) || negb (Z.testbit map d) || bool_decide (cw_root_dir w ≠ None)
  then mret map
  else mod_cwd p (set_cw_curdrv d) ;; mret map.

Definition sys_d_getdrv (p : ptr) : M vst Z := w ← get_cwd p; mret (cw_curdrv w).

(** The first drive with the device and the file system of [dir] *)
Fixpoint find_drive (rs : list fcookie) (i : Z) (dir : fcookie) : option Z :=
  match rs with
  | [] => None
  | r :: rs =>
      if (fc_dev r =? fc_dev dir) && (fc_fs r =? fc_fs dir) then Some i
      else find_drive rs (i + 1) dir
  end.

(** [cwd->curdir[i] = dir] *)
Definition with_curdir (i : nat) (dir : fcookie) (w : cwd) : cwd :=
  set_cw_curdir (<[i := dir]> (cw_curdir w)) w.

(** [junk] is what is in the variable [dir] before it is written.  The drive letter of the
    path is decoded, and then overwritten with the current drive. *)
Definition sys_d_setpath0 (p : ptr) (path : option str) (junk : fcookie) : M vst Z :=
  '(r, _, dir) ← path2cookie p path Followed junk;
  if negb (r =? 0) then mret r
  else
    '(r, x) ← xfs_getxattr dir;
    if negb (r =? 0) then release_cookie dir ;; mret r
    else if negb (has (fa_attr x) FA_DIR) then release_cookie dir ;; mret ENOTDIR
    else
      u ← ucred_of p;
      if denyaccess u (fa_x x) S_IXOTH then release_cookie dir ;; mret EACCES
      else
        w ← get_cwd p;
        let drv := cw_curdrv w in
        rd ← elem (cw_root w) drv;
        drv ← (if negb (drv =? UNIDRV) && negb (fc_dev dir =? fc_dev rd) then
                 match find_drive (cw_root w) 0 dir with
                 | Some i => mod_cwd p (set_cw_curdrv i) ;; mret i
                 | None => mret drv
                 end
               else mret drv);
        c ← elem (cw_curdir w) drv;
        release_cookie c ;;
        mod_cwd p (with_curdir (Z.to_nat drv) dir) ;;
        mret 0.

(** [mem] is the answer of [kmalloc] for the copy of the name. *)
Definition sys_d_chroot (p : ptr) (path : option str) (junk : fcookie) (mem : option ptr) : M vst Z :=
  u ← ucred_of p;
  q ← on_vk (getp p);
  if negb (euid u =? 0) || (domain q =? DOM_TOS) then mret EPERM
  else
    '(r, _, dir) ← path2cookie p path Followed junk;
    if negb (r =? 0) then mret r
    else
      '(r, x) ← xfs_getxattr dir;
      if negb (r =? 0) then release_cookie dir ;; mret r
      else if negb (has (fa_attr x) FA_DIR) then release_cookie dir ;; mret ENOTDIR
      else
        w ← get_cwd p;
        rt ← elem (cw_root w) (fc_dev dir);
        '(r, buf) ← on_fs dir (λ t, fs_getname t rt dir);
        if negb (r =? 0) then release_cookie dir ;; mret r
        else
          match mem with
          | None => mod_cwd p (set_cw_root_dir None) ;; release_cookie dir ;; mret ENOMEM
          | Some _ =>
              mod_cwd p (set_cw_root_dir (Some buf)) ;;
              mod_cwd p (set_cw_rootdir dir) ;;
              mret 0
          end.

(** ** Making and deleting directories *)

(** [dir_access (sys/filesys.c)] with the attributes that the file system gives *)
Definition dir_access_of (u : ucred) (dir : fcookie) (perm : Z) : M vst (Z * Z) :=
  '(r, x) ← xfs_getxattr dir;
  let '(r, m) := dir_access u r (fa_x x) perm in
  mret (r, default 0 m).

(** While [mkdir] runs in a directory with the set-group-id bit the process has the group of
    the directory; the group is put back afterwards. *)
Definition with_group {A} (p : ptr) (g : Z) (c : M vst A) : M vst A :=
  a ← on_vk (cred_of p);
  pc ← on_vk (getpc a);
  uc ← on_vk (getuc (ucr pc));
  on_vk (modpc a (set_rgid g)) ;;
  on_vk (moduc (ucr pc) (set_egid g)) ;;
  r ← c;
  on_vk (modpc a (set_rgid (rgid pc))) ;;
  on_vk (moduc (ucr pc) (set_egid (egid uc))) ;;
  mret r.

Definition sys_d_create (p : ptr) (path : option str) (junk : fcookie) : M vst Z :=
  '(r, name, dir) ← path2cookie p path Parent junk;
  if negb (r =? 0) then mret r
  else if bool_decide (name = []) then release_cookie dir ;; mret EBADARG
  else
    u ← ucred_of p;
    '(r, mode) ← dir_access_of u dir S_IWOTH;
    if negb (r =? 0) then release_cookie dir ;; mret r
    else
      w ← get_cwd p;
      let perm := Z.land DEFAULT_DIRMODE (Z.lnot (cw_cmask w)) in
      r ← (if has mode S_ISGID then
             '(r, x) ← xfs_getxattr dir;
             if negb (r =? 0) then mret r
             else with_group p (x_gid (fa_x x))
                    (on_fs dir (λ t, fs_mkdir t dir name (Z.lor perm S_ISGID)))
           else on_fs dir (λ t, fs_mkdir t dir name perm));
      release_cookie dir ;;
      mret r.

(** The directory is a root of [w], or the current directory of another process than the
    one that deletes it. *)
Fixpoint dir_busy (other : bool) (cur i : Z) (targ : fcookie) (rs cs : list fcookie) : bool :=
  match rs, cs with
  | r :: rs, c :: cs =>
      samefile targ r || ((i =? cur) && other && samefile targ c) ||
      dir_busy other cur (i + 1) targ rs cs
  | _, _ => false
  end.

(** Processes that are neither zombies nor resident *)
Definition skipped (q : proc) : bool := (wait_q q =? ZOMBIE_Q) || (wait_q q =? TSR_Q).

Fixpoint dir_in_use (cp : ptr) (targ : fcookie) (l : list ptr) : M vst bool :=
  match l with
  | [] => mret false
  | p :: l =>
      q ← on_vk (getp p);
      if skipped q then dir_in_use cp targ l
      else
        w ← get_cwd p;
        if dir_busy (negb (bool_decide (p = cp))) (cw_curdrv w) 0 targ (cw_root w) (cw_curdir w)
        then mret true
        else dir_in_use cp targ l
  end.

(** A current directory that is deleted is replaced by the root of its drive. *)
Fixpoint leave_dirs (targ : fcookie) (rs cs : list fcookie) : M vst (list fcookie) :=
  match rs, cs with
  | r :: rs, c :: cs =>
      c ← (if samefile targ c then release_cookie c ;; dup_cookie r else mret c);
      cs ← leave_dirs targ rs cs;
      mret (c :: cs)
  | _, _ => mret cs
  end.

Fixpoint leave_dir (targ : fcookie) (l : list ptr) : M vst unit :=
  match l with
  | [] => mret tt
  | p :: l =>
      q ← on_vk (getp p);
      (if skipped q then mret tt
       else
         w ← get_cwd p;
         cs ← leave_dirs targ (cw_root w) (cw_curdir w);
         mod_cwd p (set_cw_curdir cs)) ;;
      leave_dir targ l
  end.

(** [junk] and [junk2] are what is in [parentdir] and [targdir] before they are written. *)
Definition sys_d_delete (cp : ptr) (path : option str) (junk junk2 : fcookie) : M vst Z :=
  u ← ucred_of cp;
  '(r, name, parent) ← path2cookie cp path Parent junk;
  if negb (r =? 0) then release_cookie parent ;; mret r
  else
    '(r, mode) ← dir_access_of u parent S_IWOTH;
    if negb (r =? 0) then release_cookie parent ;; mret r
    else
      '(r, _, targ) ← relpath2cookie cp parent (Some name) Self junk2 0;
      if negb (r =? 0) then release_cookie parent ;; mret r
      else
        '(r, x) ← xfs_getxattr targ;
        if negb (r =? 0) then release_cookie targ ;; release_cookie parent ;; mret r
        else if has mode S_ISVTX && negb (euid u =? 0) && negb (euid u =? x_uid (fa_x x)) then
          release_cookie targ ;; release_cookie parent ;; mret EACCES
        else
          r ← (if S_ISLNK (x_mode (fa_x x)) then
                 release_cookie targ ;;
                 r ← on_fs parent (λ t, fs_remove t parent name);
                 mret (Some r)
               else if negb (S_ISDIR (x_mode (fa_x x))) then mret (Some ENOTDIR)
               else if bool_decide (name = [46]) then mret (Some EINVAL)
               else
                 l ← mgets (λ s, proclist (vk s));
                 busy ← dir_in_use cp targ l;
                 if busy : bool then
                   release_cookie targ ;; release_cookie parent ;; mret None
                 else
                   leave_dir targ l ;;
                   release_cookie targ ;;
                   r ← on_fs parent (λ t, fs_rmdir t parent name);
                   mret (Some r));
          match r with
          | None => mret EACCES
          | Some r => release_cookie parent ;; mret r
          end.
End calls.

(** ** Copying and releasing *)

Lemma refs_nil : refs [] = ∅.
Proof. done. Qed.

Lemma hold_eq c (s : vst) X : held s ⊎ refs [c] = X → hold c s = Some (tt, set_held X s).
Proof. intros <-. done. Qed.

Lemma dup_dirs_run rs : ∀ cs s,
  length rs = length cs →
  dup_dirs rs cs s = Some ((rs, cs), set_held (held s ⊎ refs rs ⊎ refs cs) s).
Proof.
  induction rs as [|r rs IH]; intros [|c cs] s; try done; cbn [dup_dirs].
  - intros _. rewrite !refs_nil, !gmultiset_disj_union_right_id. by destruct s.
  - intros [= Hl]. unfold dup_cookie. rewrite bind_assoc, (bind_run (hold r) _ _ _ _ eq_refl).
    rewrite (bind_run _ _ _ _ _ eq_refl), bind_assoc, (bind_run (hold c) _ _ _ _ eq_refl).
    rewrite (bind_run _ _ _ _ _ eq_refl), (bind_run _ _ _ _ _ (IH cs _ Hl)).
    assert (held s ⊎ refs (r :: rs) ⊎ refs (c :: cs) =
      held s ⊎ refs [r] ⊎ refs [c] ⊎ refs rs ⊎ refs cs) as ->
      by (rewrite (refs_cons r), (refs_cons c); multiset_solver).
    done.
Qed.

Lemma release_run c s X : held s = X ⊎ refs [c] → release_cookie c s = Some (tt, set_held X s).
Proof.
  intros Hs. unfold release_cookie. destruct (Z.eqb_spec (fc_fs c) 0) as [Hc | Hc].
  - rewrite refs_dead, gmultiset_disj_union_right_id in Hs by done. rewrite <- Hs. by destruct s.
  - rewrite refs_live in Hs by done. rewrite (bind_run _ _ s _ s eq_refl).
    rewrite (bind_run _ _ s tt s) by (apply massert_run, bool_decide_eq_true_2; rewrite Hs; multiset_solver).
    unfold mmod. do 3 f_equal. rewrite Hs. multiset_solver.
Qed.

Lemma release_dirs_run rs : ∀ cs s X,
  length rs = length cs → held s = X ⊎ refs rs ⊎ refs cs →
  release_dirs rs cs s = Some (tt, set_held X s).
Proof.
  induction rs as [|r rs IH]; intros [|c cs] s X; try done; cbn [release_dirs].
  - intros _. rewrite !refs_nil, !gmultiset_disj_union_right_id. intros <-. by destruct s.
  - intros [= Hl]. rewrite (refs_cons r), (refs_cons c). intros Hs.
    assert (held s = (X ⊎ refs rs ⊎ refs cs ⊎ refs [r]) ⊎ refs [c]) as H1 by (rewrite Hs; multiset_solver).
    rewrite (bind_run _ _ _ _ _ (release_run _ _ _ H1)).
    erewrite bind_run; [| by apply (release_run r _ (X ⊎ refs rs ⊎ refs cs))].
    by rewrite (IH cs (set_held _ _) X Hl).
Qed.

(** The working directories that a child gets from [copy_cwd] *)
Definition copied (w : cwd) : cwd :=
  mk_cwd 1 (cw_cmask w) no_cookie None (cw_curdrv w) (cw_root w) (cw_curdir w).

Record has_cwd (p a : ptr) (w : cwd) (s : vst) : Prop := {
  hc_ptr : p_cwd s !! p = Some a;
  hc_cwd : cwds s !! a = Some w;
  hc_links : 0 < cw_links w;
  hc_len : length (cw_root w) = length (cw_curdir w)
}.

Lemma get_cwd_run p a w s : has_cwd p a w s → get_cwd p s = Some (w, s).
Proof.
  intros [Hp Ha _ _]. unfold get_cwd. rewrite (bind_run _ _ s a s) by (by apply mderef_run).
  by apply mderef_run.
Qed.

Lemma mod_cwd_run p a w s f :
  has_cwd p a w s → mod_cwd p f s = Some (tt, set_cwds (<[a := f w]> (cwds s)) s).
Proof.
  intros [Hp Ha _ _]. unfold mod_cwd. rewrite (bind_run _ _ s a s) by (by apply mderef_run).
  by rewrite (bind_run _ _ s w s) by (by apply mderef_run).
Qed.

Lemma fork_copy_run p1 p2 a w s n m2 :
  has_cwd p1 a w s →
  fork_cwd false p1 p2 (Some n) m2 s =
    Some (true, set_p_cwd (<[p2 := n]> (p_cwd s)) (set_cwds (<[n := copied w]> (cwds s))
      (set_held (held s ⊎ refs (cw_root w) ⊎ refs (cw_curdir w)) s))).
Proof.
  intros Hc. unfold fork_cwd, copy_cwd. rewrite !bind_assoc, (bind_run _ _ _ _ _ (get_cwd_run _ _ _ _ Hc)).
  rewrite bind_assoc, (bind_run _ _ _ _ _ (massert_run _ s (proj2 (Z.ltb_lt _ _) (hc_links _ _ _ _ Hc)))).
  cbn [cw_root_dir]. rewrite bind_assoc, (bind_run _ _ _ _ _ eq_refl), bind_assoc.
  by rewrite (bind_run _ _ _ _ _ (dup_dirs_run _ _ _ (hc_len _ _ _ _ Hc))).
Qed.

(** The last user of the working directories *)
Lemma free_last_run p a w s X :
  has_cwd p a w s → cw_links w = 1 → held s = X ⊎ cookies w →
  free_cwd p s = Some (tt, set_cwds (delete a (cwds s)) (set_p_cwd (delete p (p_cwd s)) (set_held X s))).
Proof.
  intros [Hp Ha Hl Hlen] H1 Hs. unfold free_cwd.
  rewrite (bind_run _ _ s a s) by (by apply mderef_run).
  rewrite (bind_run _ _ s w s) by (by apply mderef_run).
  rewrite (bind_run _ _ _ _ _ (massert_run _ s (proj2 (Z.ltb_lt _ _) Hl))).
  rewrite (bind_run _ _ _ _ _ eq_refl). cbv zeta. rewrite (bind_run _ _ _ _ _ eq_refl).
  cbn [cw_links set_cw_links]. rewrite H1. change (0 <? 1 - 1) with false. cbv iota.
  set (J := match cw_root_dir w with Some _ => refs [cw_rootdir w] | None => ∅ end).
  assert (held s = (X ⊎ J) ⊎ refs (cw_root w) ⊎ refs (cw_curdir w)) as Hh
    by (rewrite Hs; unfold cookies; fold J; multiset_solver).
  erewrite bind_run; [| apply (release_dirs_run (cw_root w) (cw_curdir w) _ (X ⊎ J) Hlen); exact Hh].
  assert (∀ s', held s' = X ⊎ J →
    match cw_root_dir w with Some _ => release_cookie (cw_rootdir w) | None => mret tt end s' =
    Some (tt, set_held X s')) as Hj.
  { intros s' Hs'. unfold J in Hs'. destruct (cw_root_dir w); [by apply release_run |].
    rewrite gmultiset_disj_union_right_id in Hs'. rewrite <- Hs'. by destruct s'. }
  erewrite bind_run; [| by apply Hj]. cbn.
  unfold mmod. cbn. by rewrite delete_insert_eq.
Qed.

(** C12: a child gets a copy of its parent's directories - each of its cookies is held once
    more - or shares them; if it then gives them up again (when it ends, or because fork ran
    out of memory) everything is as it was before the fork. *)
Theorem fork_cwd_roundtrip share p1 p2 a w n m2 s :
  has_cwd p1 a w s → p_cwd s !! p2 = None → cwds s !! n = None →
  ∃ s1, fork_cwd share p1 p2 (Some n) m2 s = Some (true, s1) ∧
    (if share then p_cwd s1 !! p2 = Some a ∧ held s1 = held s
     else p_cwd s1 !! p2 = Some n ∧ cwds s1 !! n = Some (copied w)) ∧
    free_cwd p2 s1 = Some (tt, s).
Proof.
  intros Hc Hp2 Hn. destruct share.
  - unfold fork_cwd, share_cwd. pose proof Hc as [Hp Ha Hl Hlen].
    eexists. split; [| split; [| ]].
    + rewrite bind_assoc, bind_assoc, (bind_run _ _ s a s) by (by apply mderef_run).
      rewrite bind_assoc, (bind_run _ _ _ _ _ (mod_cwd_run _ _ _ _ _ Hc)).
      by rewrite (bind_run _ _ _ _ _ eq_refl).
    + cbn. split; [apply lookup_insert_eq | done].
    + unfold free_cwd. cbn.
      rewrite (bind_run _ _ _ a _) by (apply mderef_run, lookup_insert_eq).
      rewrite (bind_run _ _ _ (set_cw_links (cw_links w + 1) w) _) by (apply mderef_run, lookup_insert_eq).
      rewrite (bind_run _ _ _ _ _ (massert_run _ _ (proj2 (Z.ltb_lt 0 (cw_links w + 1)) ltac:(lia)))).
      unfold mmod. unfold mbind, M_bind. cbn. rewrite (proj2 (Z.ltb_lt _ _)) by lia.
      rewrite delete_insert_id, insert_insert_eq by done.
      rewrite (insert_id _ a) by (rewrite Ha; destruct w; unfold set_cw_links; cbn; do 2 f_equal; lia).
      by destruct s.
  - eexists. rewrite (fork_copy_run p1 p2 a w) by done. split; [done |]. cbn.
    split; [split; apply lookup_insert_eq |].
    rewrite (free_last_run p2 n (copied w) _ (held s)).
    + cbn. rewrite !delete_insert_id by done. by destruct s.
    + pose proof Hc as [_ _ _ Hlen]. split; cbn; [apply lookup_insert_eq | apply lookup_insert_eq | done | done].
    + done.
    + change (held s ⊎ refs (cw_root w) ⊎ refs (cw_curdir w) =
        held s ⊎ (∅ ⊎ refs (cw_root w) ⊎ refs (cw_curdir w))). multiset_solver.
Qed.

(** the child of a process that was sent to another root is not: [copy_cwd] asks the new
    structure, which it has just cleared, whether there is a root to copy. *)
Theorem fork_forgets_root p1 p2 a w n m2 s rt d :
  has_cwd p1 a w s → cw_root_dir w = Some d → cw_rootdir w = rt →
  ∃ s1 w', fork_cwd false p1 p2 (Some n) m2 s = Some (true, s1) ∧
    p_cwd s1 !! p2 = Some n ∧ cwds s1 !! n = Some w' ∧
    cw_root_dir w' = None ∧ cw_rootdir w' = no_cookie ∧
    cw_root w' = cw_root w ∧ cw_curdir w' = cw_curdir w ∧ cw_curdrv w' = cw_curdrv w.
Proof.
  intros Hc _ _. eexists _, (copied w). rewrite (fork_copy_run p1 p2 a w) by done.
  split; [done |]. cbn. by rewrite !lookup_insert_eq.
Qed.

(** ** Changing the current directory *)

Section update.
Context `{Vfs} (p : ptr) (u : ucred).
Implicit Types (F : gmultiset fcookie) (w : cwd).

Lemma total_get_cwd_eq W F :
  total (inv p u W F) (get_cwd p) (λ w s, W w ∧ inv p u (eq w) F s).
Proof.
  intros s [Ha (a & w & Ea & Ew & Hw) Hk]. exists w, s. split.
  - unfold get_cwd. rewrite (bind_run _ _ s a s) by (by apply mderef_run). by apply mderef_run.
  - split; [done |]. split; [done | by exists a, w | done].
Qed.

(** The working directories are changed from [w] to [w'], and with them what is owned. *)
Lemma inv_change w w' F F' s a :
  inv p u (eq w) F s → p_cwd s !! p = Some a →
  cookies w' ⊎ F' = cookies w ⊎ F →
  inv p u (eq w') F' (set_cwds (<[a := w']> (cwds s)) s).
Proof.
  intros [Hh (a' & w0 & Ea & Ew & <-) Hk] Ep Hc. rewrite Ep in Ea. injection Ea as <-. split.
  - unfold accounts in *. pose proof (owned_update (cwds s) a w w' Ew) as Ho.
    change (held s = owned_by (<[a := w']> (cwds s)) ⊎ F'). rewrite Hh. multiset_solver.
  - exists a, w'. split; [done |]. split; [apply lookup_insert_eq | done].
  - done.
Qed.

Lemma inv_ptr w F s : inv p u (eq w) F s → ∃ a, p_cwd s !! p = Some a ∧ cwds s !! a = Some w.
Proof. intros [_ (a & w0 & Ea & Ew & <-) _]. by exists a. Qed.

(** A field that is not a cookie *)
Lemma total_mod_same f w F :
  cookies (f w) = cookies w →
  total (inv p u (eq w) F) (mod_cwd p f) (λ _, inv p u (eq (f w)) F).
Proof.
  intros Hf s Hs. destruct (inv_ptr w F s Hs) as (a & Ea & Ew). eexists tt, _. split.
  - unfold mod_cwd. rewrite (bind_run _ _ s a s) by (by apply mderef_run).
    by rewrite (bind_run _ _ s w s) by (by apply mderef_run).
  - apply (inv_change w (f w) F F s a Hs Ea). by rewrite Hf.
Qed.

(** A current directory is released, and [dir] takes its place. *)
Lemma replace_curdir_ok w F dir i c :
  cw_curdir w !! i = Some c →
  total (inv p u (eq w) (F ⊎ refs [dir]))
    (release_cookie c ;; mod_cwd p (with_curdir i dir))
    (λ _, inv p u (eq (with_curdir i dir w)) F).
Proof.
  intros Hi s Hs. destruct (inv_ptr _ _ _ Hs) as (a & Ea & Ew).
  pose proof (refs_insert _ i c dir Hi) as Hr.
  assert (cookies (with_curdir i dir w) ⊎ F ⊎ refs [c] = cookies w ⊎ (F ⊎ refs [dir])) as Hc.
  { unfold cookies. change (cw_root_dir (with_curdir i dir w)) with (cw_root_dir w).
    set (J := match cw_root_dir w with Some _ => _ | None => _ end).
    change (J ⊎ refs (cw_root w) ⊎ refs (<[i := dir]> (cw_curdir w)) ⊎ F ⊎ refs [c] =
      J ⊎ refs (cw_root w) ⊎ refs (cw_curdir w) ⊎ (F ⊎ refs [dir])). clearbody J. multiset_solver. }
  pose proof (iv_held _ _ _ _ _ Hs) as Hh. unfold accounts in Hh.
  pose proof (owned_update (cwds s) a w (with_curdir i dir w) Ew) as Ho.
  assert (held s = (owned_by (<[a := with_curdir i dir w]> (cwds s)) ⊎ F) ⊎ refs [c]) as Hh'.
  { rewrite Hh. multiset_solver. }
  eexists tt, _. split.
  - rewrite (bind_run _ _ _ _ _ (release_run c s _ Hh')).
    unfold mod_cwd. rewrite (bind_run _ _ _ a _) by (by apply mderef_run).
    by rewrite (bind_run _ _ _ w _) by (by apply mderef_run).
  - split; [done | | apply Hs]. exists a, (with_curdir i dir w). cbn.
    split; [done |]. split; [apply lookup_insert_eq | done].
Qed.

Lemma find_drive_range rs : ∀ i dir j, find_drive rs i dir = Some j → i ≤ j < i + Z.of_nat (length rs).
Proof.
  induction rs as [|r rs IH]; intros i dir j; cbn; [done |]. destruct (_ && _); [intros [= <-]; lia |].
  intros Hf%IH. lia.
Qed.
End update.

Section setpath.
Context `{Walkable p u W G}.
Hypothesis W_curdir : ∀ w dir i, W w → G dir → 0 ≤ i < NUM_DRIVES → W (with_curdir (Z.to_nat i) dir w).
Hypothesis W_curdrv : ∀ w i, W w → 0 ≤ i < NUM_DRIVES → W (set_cw_curdrv i w).
Hypothesis W_cur : ∀ w c, W w → c ∈ cw_curdir w → fc_fs c = 0 ∨ G c.

Lemma inv_weaken w F s : W w → inv p u (eq w) F s → inv p u W F s.
Proof. intros Hw [Ha (a & w0 & Ea & Ew & <-) Hk]. split; [done | by exists a, w | done]. Qed.

(** The drive whose current directory changes *)
Lemma setpath_drive w F dir rd :
  W w →
  total (inv p u (eq w) F)
    (if negb (cw_curdrv w =? UNIDRV) && negb (fc_dev dir =? fc_dev rd) then
       match find_drive (cw_root w) 0 dir with
       | Some i => mod_cwd p (set_cw_curdrv i) ;; mret i
       | None => mret (cw_curdrv w)
       end
     else mret (cw_curdrv w))
    (λ drv s, ∃ w', (W w' ∧ cw_curdir w' = cw_curdir w ∧ 0 ≤ drv < NUM_DRIVES) ∧ inv p u (eq w') F s).
Proof.
  intros Hw. destruct (wl_cwd w Hw) as (L1 & _ & Hd).
  assert (total (inv p u (eq w) F) (mret (cw_curdrv w))
    (λ drv s, ∃ w', (W w' ∧ cw_curdir w' = cw_curdir w ∧ 0 ≤ drv < NUM_DRIVES) ∧ inv p u (eq w') F s)) as Hsame.
  { apply total_ret. intros s Hs. by exists w. }
  destruct (_ && _); [| exact Hsame]. destruct (find_drive _ _ _) as [i |] eqn:E; [| exact Hsame].
  apply find_drive_range in E. rewrite L1 in E.
  eapply total_bind; [by apply (total_mod_same p u (set_cw_curdrv i) w) |]. intros ?. apply total_ret.
  intros s Hs. exists (set_cw_curdrv i w). split; [| exact Hs]. split; [apply W_curdrv; [done |] | split; [done |]];
    unfold NUM_DRIVES in *; lia.
Qed.

Lemma setpath_ok F path junk :
  (∀ x, path = Some x → names_fit x) →
  total (inv p u W F) (sys_d_setpath0 p path junk) (λ _, inv p u W F).
Proof.
  intros Hfit. unfold sys_d_setpath0.
  eapply total_bind; [by apply (path2cookie_ok (G := G)) |]. intros [[r last] dir]. apply total_pure.
  intros HG. unfold gain. destruct (Z.eqb_spec r 0) as [-> | Hr]; cbn [negb].
  2: { apply total_ret. intros s Hs. eapply inv_eq, Hs. multiset_solver. }
  specialize (HG eq_refl).
  eapply total_bind; [by apply total_on_fs, wl_live |]. intros [r x]. apply total_pure. intros _.
  destruct (Z.eqb_spec r 0) as [-> | Hr]; cbn [negb].
  2: { eapply total_bind; [by apply total_release |]. intros ?. by apply total_ret. }
  destruct (negb (has _ _)).
  { eapply total_bind; [by apply total_release |]. intros ?. by apply total_ret. }
  eapply total_bind; [apply total_ucred |]. intros u'. apply total_pure. intros ->.
  destruct (denyaccess _ _ _).
  { eapply total_bind; [by apply total_release |]. intros ?. by apply total_ret. }
  eapply total_bind; [apply total_get_cwd_eq |]. intros w. apply total_pure. intros Hw.
  destruct (wl_cwd w Hw) as (L1 & _ & Hd).
  eapply total_bind; [apply total_elem; rewrite L1; unfold NUM_DRIVES in *; lia |]. intros rd.
  apply total_pure. intros _.
  eapply total_bind; [by apply setpath_drive |]. intros drv s (w' & (Hw' & E & Hdrv) & Hs).
  destruct (wl_cwd w' Hw') as (_ & L2 & _). revert s Hs.
  change (total (inv p u (eq w') (F ⊎ refs [dir])) (c ← elem (cw_curdir w) drv;
    release_cookie c ;; mod_cwd p (with_curdir (Z.to_nat drv) dir) ;; mret 0) (λ _, inv p u W F)).
  rewrite <- E. eapply total_bind; [apply total_elem; rewrite L2; unfold NUM_DRIVES in *; lia |].
  intros c. apply total_pure. intros [_ Hc].
  intros s Hs. rewrite <- (bind_assoc (release_cookie c) (λ _, mod_cwd p (with_curdir (Z.to_nat drv) dir))).
  revert s Hs. apply (total_bind (inv p u (eq w') (F ⊎ refs [dir])) _ (λ _, inv p u (eq (with_curdir (Z.to_nat drv) dir w')) F)).
  - by apply replace_curdir_ok.
  - intros ?. apply total_ret. intros s Hs. eapply inv_weaken, Hs. by apply W_curdir.
Qed.
End setpath.

(** ** The books, and the root *)

(** Dsetpath never loses a cookie and never releases one twice: on success the directory
    that was found takes the place of the one that is released, on an error everything that
    was found is given back. *)
Theorem setpath_accounts `{VfsLaws p u cwd_ok} F path junk s :
  (∀ x, path = Some x → names_fit x) → inv p u cwd_ok F s →
  ∃ r s', sys_d_setpath0 p path junk s = Some (r, s') ∧ inv p u cwd_ok F s'.
Proof.
  intros Hfit. apply setpath_ok; [| | | done].
  - intros w dir i [] HG Hi. split; cbn; [done | by rewrite length_insert | done | done].
  - intros w i [] Hi. split; cbn; [done | done | done | done].
  - intros w c _ _. unfold live. lia.
Qed.

(** A process whose current directories are all below its root *)
Record confined `{Vfs} (rt : fcookie) (w : cwd) : Prop := {
  cf_jail : jailed rt w;
  cf_cur c : c ∈ cw_curdir w → fc_fs c = 0 ∨ live c ∧ inside rt c
}.


(** ** Dchroot *)

Definition unconfined (w : cwd) : Prop := cwd_ok w ∧ cw_root_dir w = None.
(** What Dchroot leaves behind *)
Definition chrooted (r : Z) (w : cwd) : Prop :=
  cwd_ok w ∧ if r =? 0 then cw_root_dir w ≠ None ∧ live (cw_rootdir w) else cw_root_dir w = None.

Lemma set_root_ok p u w F dir buf :
  cw_root_dir w = None →
  total (inv p u (eq w) (F ⊎ refs [dir]))
    (mod_cwd p (set_cw_root_dir (Some buf)) ;; mod_cwd p (set_cw_rootdir dir))
    (λ _, inv p u (eq (set_cw_rootdir dir (set_cw_root_dir (Some buf) w))) F).
Proof.
  intros Hn s Hs. destruct (inv_ptr _ _ _ _ _ Hs) as (a & Ea & Ew).
  set (w' := set_cw_rootdir dir (set_cw_root_dir (Some buf) w)). eexists tt, _. split.
  - unfold mod_cwd. rewrite !bind_assoc, (bind_run _ _ s a s) by (by apply mderef_run).
    rewrite !bind_assoc, (bind_run _ _ s w s) by (by apply mderef_run).
    rewrite (bind_run _ _ _ _ _ eq_refl), (bind_run _ _ _ a _) by (by apply mderef_run).
    rewrite (bind_run _ _ _ (set_cw_root_dir (Some buf) w) _) by (apply mderef_run, lookup_insert_eq).
    unfold mmod. cbn. rewrite insert_insert_eq. fold w'. reflexivity.
  - apply (inv_change p u w w' (F ⊎ refs [dir]) F s a Hs Ea). unfold cookies. rewrite Hn.
    change (refs [dir] ⊎ refs (cw_root w) ⊎ refs (cw_curdir w) ⊎ F =
      ∅ ⊎ refs (cw_root w) ⊎ refs (cw_curdir w) ⊎ (F ⊎ refs [dir])). multiset_solver.
Qed.

(** The directory that was found becomes the root, unless there is no memory for its name. *)
Lemma chroot_end_ok `{Vfs} p u w F dir buf (mem : option ptr) :
  unconfined w → live dir →
  total (inv p u (eq w) (F ⊎ refs [dir]))
    (match mem with
     | None => mod_cwd p (set_cw_root_dir None) ;; release_cookie dir ;; mret ENOMEM
     | Some _ => mod_cwd p (set_cw_root_dir (Some buf)) ;; mod_cwd p (set_cw_rootdir dir) ;; mret 0
     end) (λ r s, inv p u (chrooted r) F s).
Proof.
  intros [Hw Hn] HG.
  assert (∀ r w' s, chrooted r w' → inv p u (eq w') F s → inv p u (chrooted r) F s) as Hend.
  { intros r w' s Hc [Ha (a & w0 & Ea & Ew & <-) Hk]. split; [done | by exists a, w' | done]. }
  destruct mem as [m |].
  - intros s Hs. rewrite <- (bind_assoc (mod_cwd p (set_cw_root_dir (Some buf))) (λ _, mod_cwd p (set_cw_rootdir dir))).
    revert s Hs. eapply total_bind; [by apply set_root_ok |]. intros ?. apply total_ret.
    intros s. apply Hend. destruct Hw. by split.
  - eapply total_bind; [apply (total_mod_same p u (set_cw_root_dir None) w); unfold cookies; by rewrite Hn |].
    intros ?. eapply total_bind; [by apply total_release |]. intros ?. apply total_ret.
    intros s. apply Hend. destruct Hw. by split.
Qed.

Lemma chroot_ok `{Walkable p u W G} F path junk mem :
  (∀ w, W w → unconfined w) → (∀ c, G c → 0 ≤ fc_dev c < NUM_DRIVES) →
  (∀ w c, W w → c ∈ cw_curdir w → fc_fs c = 0 ∨ G c) → (∀ x, path = Some x → names_fit x) →
  total (inv p u W F) (sys_d_chroot p path junk mem) (λ r s, inv p u (chrooted r) F s).
Proof.
  intros HW Hdev Hcur Hfit.
  assert (∀ r s, r ≠ 0 → inv p u W F s → inv p u (chrooted r) F s) as Herr.
  { intros r s Hr [Ha (a & w & Ea & Ew & [Hw Hn]%HW) Hk]. split; [done | | done]. exists a, w.
    split; [done |]. split; [done |]. split; [done |]. by rewrite (proj2 (Z.eqb_neq r 0) Hr). }
  assert (∀ r dir, r ≠ 0 → total (inv p u W (F ⊎ refs [dir]))
    (release_cookie dir ;; mret r) (λ r s, inv p u (chrooted r) F s)) as Hrel.
  { intros r dir Hr. eapply total_bind; [by apply total_release |]. intros ?. apply total_ret. auto. }
  unfold sys_d_chroot. eapply total_bind; [apply total_ucred |]. intros u'. apply total_pure. intros ->.
  eapply total_bind; [apply total_getp |]. intros q. destruct (_ || _); [apply total_ret; by auto |].
  eapply total_bind; [by apply (path2cookie_ok (G := G)) |].
  intros [[r last] dir]. apply total_pure. intros HG. unfold gain.
  destruct (Z.eqb_spec r 0) as [-> | Hr]; cbn [negb].
  2: { apply total_ret. intros s Hs. apply Herr; [done |]. eapply inv_eq, Hs. multiset_solver. }
  specialize (HG eq_refl). pose proof (wl_live _ HG) as Hl.
  eapply total_bind; [by apply total_on_fs |]. intros [r x]. apply total_pure.
  intros _. destruct (Z.eqb_spec r 0) as [-> | Hr]; cbn [negb]; [| by apply Hrel].
  destruct (negb (has _ _)); [by apply Hrel |].
  eapply total_bind; [apply total_get_cwd_eq |]. intros w. apply total_pure. intros Hw.
  destruct (wl_cwd w Hw) as (L1 & _ & _). specialize (Hdev dir HG).
  eapply total_bind; [apply total_elem; rewrite L1; unfold NUM_DRIVES in *; lia |]. intros rt.
  apply total_pure. intros _.
  eapply total_bind; [by apply total_on_fs |]. intros [r buf]. apply total_pure. intros _.
  destruct (Z.eqb_spec r 0) as [-> | Hr]; cbn [negb]; [by apply chroot_end_ok; [apply HW |] |].
  eapply total_conseq; [by apply (Hrel r dir) | by intros s; apply inv_weaken | done].
Qed.

(** Dchroot of a process with the usual root: on success the directory that was found is
    the new root, and its cookie belongs to the process; on any error, no memory for the name
    included, the process keeps its root and nothing is lost.  (The devices of the file
    systems are drives: the device is the index of the root that the name is relative to.) *)
Theorem chroot_spec `{Walkable p u W G} F path junk mem s :
  (∀ w, W w → unconfined w) → (∀ c, G c → 0 ≤ fc_dev c < NUM_DRIVES) →
  (∀ w c, W w → c ∈ cw_curdir w → fc_fs c = 0 ∨ G c) → (∀ x, path = Some x → names_fit x) →
  inv p u W F s →
  ∃ r s', sys_d_chroot p path junk mem s = Some (r, s') ∧ inv p u (chrooted r) F s'.
Proof. intros HW Hdev Hcur Hfit. by apply chroot_ok. Qed.

(** ** Examples *)

Import Sample.

Lemma setpath_accounts_witness :
  ∃ r s', sys_d_setpath0 (H := tree_vfs) 2 (Some [97]) (dir 0) (state_of free_cwd_) = Some (r, s') ∧
    inv 2 cred cwd_ok ∅ s'.
Proof.
  refine (setpath_accounts (H0 := tree_laws 2 cred cwd_ok) ∅ (Some [97]) (dir 0) (state_of free_cwd_) _ _).
  - intros x [= <-]. apply names_fit_short. vm_compute. reflexivity.
  - apply state_inv, free_ok.
Defined.

(** A process in the tree below 2, with its current directories there *)
Definition confined_cwd : cwd := set_cw_curdir (replicate 32 (dir 2)) jailed_cwd.
Lemma confined_ok : confined (H := tree_vfs) (dir 2) confined_cwd.
Proof.
  split.
  - split; [| done | done]. split; [done | done | done |]. intros c [-> _]%lookup_replicate. done.
  - intros c [-> _]%elem_of_replicate. right. split; [done | apply inside_root].
Qed.


#[local] Instance drive_walkable : @Walkable tree_vfs 2 cred (eq free_cwd_) (λ c, live c ∧ fc_dev c = 2).
Proof.
  assert (∀ c n c', fc_dev c = 2 → lookup_ c n = (0, c') → live c' ∧ fc_dev c' = 2) as Hl.
  { intros c n c' Hd Hc. split; [by eapply lookup_live |]. unfold lookup_ in Hc.
    destruct (_ || _); [by injection Hc as <- |].
    by destruct (List.find _ _) as [[[i m] j] |]; [injection Hc as <- |]. }
  split.
  - by intros c [? _].
  - by intros w <-.
  - by intros w d <-.
  - intros w w' c <- _ <- [[-> _]%elem_of_replicate | [-> _]%elem_of_replicate]%elem_of_app; by right.
  - intros w t c n c' _ [_ Hd] _. by apply Hl.
  - intros t c n c' [_ Hd] _. by apply Hl.
  - intros t c n _ _. apply lookup_no_mount.
  - intros w t c n t' m _ _ _ Hm. by destruct (lookup_no_mount c n).
  - intros w t c n w' c' _ _ _ Hm. by destruct (lookup_no_mount c n).
  - intros t c d m _ _ Hf. done.
  - intros t c l Hll. apply names_fit_short. exact (@vl_link tree_vfs 2 cred cwd_ok (tree_laws 2 cred cwd_ok) t c l Hll).
  - intros d F. by apply total_ret.
  - intros d F. by apply total_ret.
Qed.

Lemma chroot_spec_witness :
  ∃ r s', sys_d_chroot (H := tree_vfs) 2 (Some [97]) no_cookie (Some 50%positive) (state_of free_cwd_) =
    Some (r, s') ∧ inv 2 cred (chrooted r) ∅ s'.
Proof.
  refine (chroot_spec (H0 := drive_walkable) ∅ (Some [97]) no_cookie (Some 50%positive)
    (state_of free_cwd_) _ _ _ _ _).
  - intros w <-. split; [apply free_ok | done].
  - intros c [_ ->]. unfold NUM_DRIVES. lia.
  - intros w c <- [-> _]%elem_of_replicate. right. done.
  - intros x [= <-]. apply names_fit_short. vm_compute. reflexivity.
  - by apply state_inv.
Defined.

Lemma sample_has_cwd w : 0 < cw_links w → length (cw_root w) = length (cw_curdir w) →
  has_cwd 2 1 w (state_of w).
Proof. intros Hl Hlen. split; [by vm_compute | by vm_compute | done | done]. Qed.

Lemma fork_cwd_roundtrip_witness :
  ∃ s1, fork_cwd false 2 3 (Some 9%positive) None (state_of free_cwd_) = Some (true, s1) ∧
    (p_cwd s1 !! 3%positive = Some 9%positive ∧ cwds s1 !! 9%positive = Some (copied free_cwd_)) ∧
    free_cwd 3 s1 = Some (tt, state_of free_cwd_).
Proof.
  refine (fork_cwd_roundtrip false 2 3 1 free_cwd_ 9 None (state_of free_cwd_) _ _ _).
  - by apply sample_has_cwd.
  - by vm_compute.
  - by vm_compute.
Defined.

Lemma fork_forgets_root_witness :
  ∃ s1 w', fork_cwd false 2 3 (Some 9%positive) None (state_of jailed_cwd) = Some (true, s1) ∧
    p_cwd s1 !! 3%positive = Some 9%positive ∧ cwds s1 !! 9%positive = Some w' ∧
    cw_root_dir w' = None ∧ cw_rootdir w' = no_cookie ∧
    cw_root w' = cw_root jailed_cwd ∧ cw_curdir w' = cw_curdir jailed_cwd ∧
    cw_curdrv w' = cw_curdrv jailed_cwd.
Proof.
  refine (fork_forgets_root 2 3 1 jailed_cwd 9 None (state_of jailed_cwd) (dir 2) [92; 97] _ _ _).
  - by apply sample_has_cwd.
  - done.
  - done.
Defined.

(** The child finds "\", and that is the root of the drive, not the directory 2 in which
    the parent was confined. *)
Example child_leaves_root :
  (λ '((r, _, c), _), (r, c)) <$>
    (fork_cwd false 2 3 (Some 9%positive) None ;;
     relpath2cookie (H := tree_vfs) 3 (dir 2) (Some [92]) Self (dir 0) 0) (state_of confined_cwd) =
    Some (0, dir 1) ∧
  (λ '((r, _, c), _), (r, c)) <$>
    relpath2cookie (H := tree_vfs) 2 (dir 2) (Some [92]) Self (dir 0) 0 (state_of confined_cwd) =
    Some (0, dir 2).
Proof. vm_compute. split; reflexivity. Qed.

(** Ddelete of a name whose directory is not found: the variable for the directory is
    released although it was never set (here it has the cookie 77), or although what is in
    it (the cookie 2 of "a", where "x" was not found) was released before. *)
Example delete_error_panics :
  sys_d_delete (H := tree_vfs) 2 (Some [120; 92; 121]) (dir 77) (dir 77) (state_of free_cwd_) = None ∧
  sys_d_delete (H := tree_vfs) 2 (Some [97; 92; 120; 92; 121]) no_cookie no_cookie (state_of free_cwd_) = None.
Proof. vm_compute. split; reflexivity. Qed.

(** Ddelete of a file: the answer is [ENOTDIR], and the cookie of the file is kept forever. *)
Example delete_file_leaks :
  (λ '(r, s), (r, bool_decide (held s = held (state_of free_cwd_) ⊎ {[+ dir 4 +]}))) <$>
    sys_d_delete (H := tree_vfs) 2 (Some [97; 92; 98; 92; 102]) no_cookie no_cookie (state_of free_cwd_) =
  Some (ENOTDIR, true).
Proof. vm_compute. reflexivity. Qed.

(** Dsetpath of a path with the letter of another drive: the letter is decoded and
    forgotten, and the current directory of the current drive changes. *)
Example drive_letter_ignored :
  (λ '(r, s), (r, (λ w, (cw_curdir w !! 2%nat, cw_curdir w !! 3%nat)) <$> cwds s !! 1%positive)) <$>
    sys_d_setpath0 (H := tree_vfs) 2 (Some [100; 58; 92; 97]) no_cookie (state_of free_cwd_) =
  Some (0, Some (Some (dir 2), Some (dir 1))).
Proof. vm_compute. reflexivity. Qed.

(** A second Dchroot without memory for the name leaves the process with no root at all. *)
Example chroot_twice_escapes :
  (λ '(r, s), (r, cw_root_dir <$> cwds s !! 1%positive)) <$>
    sys_d_chroot (H := tree_vfs) 2 (Some [92]) no_cookie None
      (set_vk (set_procs (<[2%positive := set_domain 1 (ex_proc 2 CURPROC_Q 0 0 None None)]> ex_procs) ex_kst)
        (state_of confined_cwd)) = Some (ENOMEM, Some None).
Proof. vm_compute. reflexivity. Qed.
