(* ===== verification/Pipe.v ===== *)
(** * Pipes: the ring buffer and the data transfer (sys/pipefs.c)

    A fifo has one or two pipes, ring buffers of [PIPESIZ] bytes.  [pipe_write] and
    [pipe_read] copy in at most two pieces, wake the other side, and sleep when the
    pipe is full or empty; while a process sleeps the others may change everything.
    A pseudo terminal is a fifo whose slave side reads and writes longs. *)

From S2P Require Import Prelude CInt Errno LibStr Timeout Kernel ProcQueue Cred Signal Files FileDesc.

(** ** Constants *)

Definition PIPESIZ : Z := 4096.
Definition PIPE_BUF : Z := 1024.
Definition VIRGIN_PIPE : Z := 32767.
Definition FA_RDONLY : Z := 1.
Definition FA_HIDDEN : Z := 2.
Definition FA_SYSTEM : Z := 4.
Definition FA_CHANGED : Z := 32.
Definition TS_HOLD : Z := 4096.
Definition T_CBREAK : Z := 2.
Definition T_RAW : Z := 16.
Definition SIGPIPE : Z := 13.

(** ** Data *)

(** [struct pipe]; [rsel] and [wsel] are the addresses of processes *)
Record pipe := mk_pipe {
  readers : Z;
  writers : Z;
  p_start : Z;
  p_len : Z;
  p_rsel : option ptr;
  p_wsel : option ptr;
  p_buf : list Z
}.

Definition pipe_eta (r : pipe) : pipe :=
  mk_pipe
    (readers r) (writers r) (p_start r) (p_len r) (p_rsel r) (p_wsel r)
    (p_buf r).
Definition set_readers : Z → pipe → pipe :=
  ltac:(build_setter pipe_eta readers).
Definition set_writers : Z → pipe → pipe :=
  ltac:(build_setter pipe_eta writers).
Definition set_p_start : Z → pipe → pipe :=
  ltac:(build_setter pipe_eta p_start).
Definition set_p_len : Z → pipe → pipe :=
  ltac:(build_setter pipe_eta p_len).
Definition set_p_rsel : option ptr → pipe → pipe :=
  ltac:(build_setter pipe_eta p_rsel).
Definition set_p_wsel : option ptr → pipe → pipe :=
  ltac:(build_setter pipe_eta p_wsel).
Definition set_p_buf : list Z → pipe → pipe :=
  ltac:(build_setter pipe_eta p_buf).

(** [struct timeval] *)
Record timeval := mk_timeval { tv_sec : Z; tv_usec : Z }.

(** [struct fifo] *)
Record fifo := mk_fifo {
  ff_name : str;
  ff_mtime : timeval;
  ff_ctime : timeval;
  ff_dosflags : Z;
  ff_mode : Z;
  ff_uid : Z;
  ff_gid : Z;
  ff_ino : Z;
  ff_flags : Z;
  ff_lockpid : Z;
  ff_cursrate : Z;
  ff_tty : option ptr;
  ff_inp : ptr;
  ff_outp : option ptr;
  ff_next : option ptr;
  ff_open : option ptr
}.

Definition fifo_eta (r : fifo) : fifo :=
  mk_fifo
    (ff_name r) (ff_mtime r) (ff_ctime r) (ff_dosflags r) (ff_mode r)
    (ff_uid r) (ff_gid r) (ff_ino r) (ff_flags r) (ff_lockpid r)
    (ff_cursrate r) (ff_tty r) (ff_inp r) (ff_outp r) (ff_next r) (ff_open
    r).
Definition set_ff_name : str → fifo → fifo :=
  ltac:(build_setter fifo_eta ff_name).
Definition set_ff_mtime : timeval → fifo → fifo :=
  ltac:(build_setter fifo_eta ff_mtime).
Definition set_ff_ctime : timeval → fifo → fifo :=
  ltac:(build_setter fifo_eta ff_ctime).
Definition set_ff_dosflags : Z → fifo → fifo :=
  ltac:(build_setter fifo_eta ff_dosflags).
Definition set_ff_mode : Z → fifo → fifo :=
  ltac:(build_setter fifo_eta ff_mode).
Definition set_ff_uid : Z → fifo → fifo :=
  ltac:(build_setter fifo_eta ff_uid).
Definition set_ff_gid : Z → fifo → fifo :=
  ltac:(build_setter fifo_eta ff_gid).
Definition set_ff_ino : Z → fifo → fifo :=
  ltac:(build_setter fifo_eta ff_ino).
Definition set_ff_flags : Z → fifo → fifo :=
  ltac:(build_setter fifo_eta ff_flags).
Definition set_ff_lockpid : Z → fifo → fifo :=
  ltac:(build_setter fifo_eta ff_lockpid).
Definition set_ff_cursrate : Z → fifo → fifo :=
  ltac:(build_setter fifo_eta ff_cursrate).
Definition set_ff_tty : option ptr → fifo → fifo :=
  ltac:(build_setter fifo_eta ff_tty).
Definition set_ff_inp : ptr → fifo → fifo :=
  ltac:(build_setter fifo_eta ff_inp).
Definition set_ff_outp : option ptr → fifo → fifo :=
  ltac:(build_setter fifo_eta ff_outp).
Definition set_ff_next : option ptr → fifo → fifo :=
  ltac:(build_setter fifo_eta ff_next).
Definition set_ff_open : option ptr → fifo → fifo :=
  ltac:(build_setter fifo_eta ff_open).

(** The kernel, the files, and the variables of the pipe file system *)
Record pst := mk_pst {
  pf : fstate;
  pipes : gmap ptr pipe;
  fifos : gmap ptr fifo;
  piperoot : option ptr;
  pipe_ino : Z;
  xtime : timeval;
  pipestamp : timeval
}.

Definition pst_eta (r : pst) : pst :=
  mk_pst
    (pf r) (pipes r) (fifos r) (piperoot r) (pipe_ino r) (xtime r)
    (pipestamp r).
Definition set_pf : fstate → pst → pst :=
  ltac:(build_setter pst_eta pf).
Definition set_pipes : gmap ptr pipe → pst → pst :=
  ltac:(build_setter pst_eta pipes).
Definition set_fifos : gmap ptr fifo → pst → pst :=
  ltac:(build_setter pst_eta fifos).
Definition set_piperoot : option ptr → pst → pst :=
  ltac:(build_setter pst_eta piperoot).
Definition set_pipe_ino : Z → pst → pst :=
  ltac:(build_setter pst_eta pipe_ino).
Definition set_xtime : timeval → pst → pst :=
  ltac:(build_setter pst_eta xtime).
Definition set_pipestamp : timeval → pst → pst :=
  ltac:(build_setter pst_eta pipestamp).

(** A computation on the kernel, and one on the files. *)
Definition on_k {A} (c : M kst A) : M pst A := mlift pf set_pf (on_kernel c).
Definition on_f {A} (c : M fstate A) : M pst A := mlift pf set_pf c.

Definition getpipe (p : ptr) : M pst pipe := mderef (λ s, pipes s !! p).
Definition modpipe (p : ptr) (g : pipe → pipe) : M pst unit := λ s,
  match pipes s !! p with
  | Some r => Some (tt, set_pipes (<[p := g r]> (pipes s)) s)
  | None => None
  end.
Definition getfifo (t : ptr) : M pst fifo := mderef (λ s, fifos s !! t).
Definition modfifo (t : ptr) (g : fifo → fifo) : M pst unit := λ s,
  match fifos s !! t with
  | Some r => Some (tt, set_fifos (<[t := g r]> (fifos s)) s)
  | None => None
  end.

(** [this->tty->...] *)
Definition fifo_tty (t : ptr) : M pst tty :=
  r ← getfifo t;
  match ff_tty r with Some a => on_f (gett a) | None => mpanic end.

(** The addresses that are wait conditions: a structure, and [&tty->state]. *)
Definition cond_of (p : ptr) : Z := Z.pos p.
Definition state_cond (t : ptr) : Z := Z.pos t + 2.

(** The loop of [pipe_lookupi]. *)
Fixpoint lookupi_loop (fuel : nat) (ino : Z) (o : option ptr) : M pst (option ptr) :=
  match o, fuel with
  | None, _ => mret None
  | Some _, O => mpanic
  | Some t, S fuel =>
      r ← getfifo t;
      if ff_ino r =? ino then mret (Some t) else lookupi_loop fuel ino (ff_next r)
  end.

Definition pipe_lookupi (ino : Z) : M pst (option ptr) :=
  n ← mgets (λ s, size (fifos s));
  o ← mgets piperoot;
  lookupi_loop n ino o.

(** ** The ring buffer *)

Definition zmin (a b : Z) : Z := if a >? b then b else a.

(** The body of the write loop for a pipe that is not full: the pipe and the bytes
    that are left. *)
Definition put_chunk (p : pipe) (data : list Z) : pipe * list Z :=
  let plen := p_len p in
  let off := Z.land (p_start p + plen) (PIPESIZ - 1) in
  let j := zmin (zmin (PIPESIZ - off) (Z.of_nat (length data))) (PIPESIZ - plen) in
  let buf := list_inserts (Z.to_nat off) (take (Z.to_nat j) data) (p_buf p) in
  let data := drop (Z.to_nat j) data in
  let plen := plen + j in
  if (Z.of_nat (length data) >? 0) && (plen <? PIPESIZ) then
    let j := zmin (PIPESIZ - plen) (Z.of_nat (length data)) in
    (set_p_len (plen + j) (set_p_buf (list_inserts 0 (take (Z.to_nat j) data) buf) p),
     drop (Z.to_nat j) data)
  else (set_p_len plen (set_p_buf buf p), data).

(** The body of the read loop for a pipe that is not empty: the pipe and the bytes
    that were read. *)
Definition get_chunk (p : pipe) (nbytes : Z) : pipe * list Z :=
  let plen := p_len p in
  let j := zmin (zmin (PIPESIZ - p_start p) nbytes) plen in
  let out := take (Z.to_nat j) (drop (Z.to_nat (p_start p)) (p_buf p)) in
  let nbytes := nbytes - j in
  let plen := plen - j in
  let start := p_start p + j in
  let '(out, plen, start) :=
    if (nbytes >? 0) && (plen >? 0) then
      let j := zmin plen nbytes in
      (out ++ take (Z.to_nat j) (p_buf p), plen - j, j)
    else (out, plen, start) in
  let start := if (plen =? 0) || (start =? PIPESIZ) then 0 else start in
  (set_p_len plen (set_p_start start p), out).

(** ** Waking the other side *)

Definition wakeselect_opt (o : option ptr) : M pst unit :=
  match o with Some q => on_k (wakeselect q) | None => mret tt end.

Definition pipe_wake_readers (p : ptr) : M pst unit :=
  r ← getpipe p;
  mwhen (p_len r >? 0) (wakeselect_opt (p_rsel r)) ;;
  r ← getpipe p;
  mwhen (p_len r >? 0) (on_k (wake IO_Q (cond_of p))).

Definition pipe_wake_writers (p : ptr) : M pst unit :=
  r ← getpipe p;
  mwhen (p_len r <? PIPESIZ) (wakeselect_opt (p_wsel r)) ;;
  r ← getpipe p;
  mwhen (p_len r <? PIPESIZ) (on_k (wake IO_Q (cond_of p))).

(** ** Transfer *)

(** [sleep] as the process that calls it sees it: the state is the one that the
    other processes left, the result tells whether a signal ended the wait.
    [putchar] is [tty_putchar] in raw mode. *)
Class PipeCalls := {
  psleep : Z → Z → M pst bool;
  putchar : ptr → Z → M pst unit;
  pc_signals :: SignalCalls
}.

Section transfer.
Context `{PipeCalls}.

(** The end of the pipe that a file writes to, and the one it reads from. *)
Definition write_end (fr : fileptr) (r : fifo) : option ptr :=
  if has (f_flags fr) O_HEAD then Some (ff_inp r) else ff_outp r.
Definition read_end (fr : fileptr) (r : fifo) : option ptr :=
  if has (f_flags fr) O_HEAD then ff_outp r else Some (ff_inp r).

(** Nobody reads, or nobody writes. *)
Definition unused (n : Z) : bool := (n =? 0) || (n =? VIRGIN_PIPE).
Definition no_writers (n : Z) : bool := (n <=? 0) || (n =? VIRGIN_PIPE).

Definition broken_pipe (fuel : nat) : M pst Z :=
  on_k (Signal.check_sigs fuel) ;;
  on_k (raise fuel SIGPIPE) ;;
  mret EPIPE.

(** The slave side of a held terminal. *)
Definition held (fr : fileptr) (this : ptr) : M pst bool :=
  if is_terminal fr && negb (has (f_flags fr) O_HEAD) then
    t ← fifo_tty this; mret (has (tt_state t) TS_HOLD)
  else mret false.

(** From the label [check_atomicity] on, for [n] bytes: the value to return, if the
    call ends here. *)
Fixpoint check_atomicity (fuel : nat) (f this p : ptr) (n : Z) : M pst (option Z) :=
  match fuel with
  | O => mpanic
  | S fuel' =>
      fr ← on_f (getf f);
      h ← held fr this;
      if h : bool then
        if has (f_flags fr) O_NDELAY then mret (Some 0)
        else
          r ← getfifo this;
          a ← mderef (λ _, ff_tty r);
          i ← psleep IO_Q (state_cond a);
          if i : bool then mret (Some EINTR) else check_atomicity fuel' f this p n
      else
        r ← getpipe p;
        if PIPESIZ - p_len r <? n then
          if unused (readers r) then e ← broken_pipe fuel; mret (Some e)
          else
            pipe_wake_readers p ;;
            r ← getpipe p;
            if PIPESIZ - p_len r <? n then
              i ← psleep IO_Q (cond_of p);
              if i : bool then mret (Some EINTR) else check_atomicity fuel' f this p n
            else mret None
        else mret None
  end.

(** Are the readers woken after a chunk, with [plen] bytes in the pipe? *)
Definition wakes_readers (fr : fileptr) (this : ptr) (plen : Z) : M pst bool :=
  if is_terminal fr && has (f_flags fr) O_HEAD then
    t ← fifo_tty this; mret (plen >=? tt_vmin t * 4)
  else mret true.

(** The loop of [pipe_write]: the value to return at once, or the bytes written. *)
Fixpoint write_loop (fuel : nat) (f this p : ptr) (data : list Z) (written : Z) :
    M pst (Z + Z) :=
  match data, fuel with
  | [], _ => mret (inr written)
  | _, O => mpanic
  | _, S fuel' =>
      fr ← on_f (getf f);
      r ← getpipe p;
      if p_len r <? PIPESIZ then
        let '(r', rest) := put_chunk r data in
        modpipe p (λ _, r') ;;
        w ← wakes_readers fr this (p_len r');
        mwhen w (pipe_wake_readers p) ;;
        write_loop fuel' f this p rest
          (written + Z.of_nat (length data) - Z.of_nat (length rest))
      else if unused (readers r) then e ← broken_pipe fuel; mret (inl e)
      else if has (f_flags fr) O_NDELAY then mret (inr written)
      else
        let plen := p_len r in
        pipe_wake_readers p ;;
        r ← getpipe p;
        if p_len r =? plen then
          i ← psleep IO_Q (cond_of p);
          if i : bool then mret (inl EINTR) else write_loop fuel' f this p data written
        else write_loop fuel' f this p data written
  end.

Definition pipe_write (fuel : nat) (f : ptr) (data : list Z) : M pst Z :=
  fr ← on_f (getf f);
  o ← pipe_lookupi (fc_index (f_fc fr));
  match o with
  | None => mret EBADF
  | Some this =>
      r ← getfifo this;
      match write_end fr r with
      | None => mret EACCES
      | Some p =>
          let n := Z.of_nat (length data) in
          early ← (if (n >? 0) && (n <=? PIPE_BUF) then check_atomicity fuel f this p n
                   else mret None);
          match early with
          | Some e => mret e
          | None =>
              w ← write_loop fuel f this p data 0;
              match w with
              | inl e => mret e
              | inr written =>
                  now ← mgets xtime;
                  modfifo this (set_ff_mtime now) ;;
                  r ← getpipe p;
                  mwhen (p_len r >? 0) (pipe_wake_readers p) ;;
                  mret written
              end
          end
      end
  end.

(** The loop of [pipe_read]: [out] are the bytes read so far; the value to return
    at once, if any. *)
Fixpoint read_loop (fuel : nat) (f this p : ptr) (nbytes : Z) (out : list Z) :
    M pst (option Z * list Z) :=
  if nbytes <=? 0 then mret (None, out)
  else match fuel with
  | O => mpanic
  | S fuel' =>
      fr ← on_f (getf f);
      t ← getfifo this;
      r ← getpipe p;
      if p_len r >? 0 then
        let '(r', l) := get_chunk r nbytes in
        modpipe p (λ _, r') ;;
        pipe_wake_writers p ;;
        read_loop fuel' f this p (nbytes - Z.of_nat (length l)) (out ++ l)
      else if no_writers (writers r) then mret (None, out)
      else if has (f_flags fr) O_NDELAY ||
              (has (ff_dosflags t) FA_CHANGED && (Z.of_nat (length out) >? 0))
      then mret (None, out)
      else
        let plen := p_len r in
        pipe_wake_writers p ;;
        r ← getpipe p;
        if p_len r =? plen then
          i ← psleep IO_Q (cond_of p);
          if i : bool then mret (Some EINTR, out) else read_loop fuel' f this p nbytes out
        else read_loop fuel' f this p nbytes out
  end.

(** The result and the bytes that were stored at [buf]. *)
Definition pipe_read (fuel : nat) (f : ptr) (nbytes : Z) : M pst (Z * list Z) :=
  fr ← on_f (getf f);
  o ← pipe_lookupi (fc_index (f_fc fr));
  match o with
  | None => mret (EBADF, [])
  | Some this =>
      t ← getfifo this;
      match read_end fr t with
      | None => mret (EACCES, [])
      | Some p =>
          '(e, out) ← read_loop fuel f this p nbytes [];
          match e with
          | Some e => mret (e, out)
          | None =>
              r ← getpipe p;
              mwhen (p_len r <? PIPESIZ) (pipe_wake_writers p) ;;
              mret (Z.of_nat (length out), out)
          end
      end
  end.

(** ** Pseudo terminals *)

(** The slave writes the low byte of each long. *)
Definition pty_write (fuel : nat) (f : ptr) (data : list Z) : M pst Z :=
  if (length data =? 0)%nat then mret 0
  else
    fr ← on_f (getf f);
    if has (f_flags fr) O_HEAD then pipe_write fuel f data
    else
      c ← mderef (λ _, data !! 3%nat);
      w ← pipe_write fuel f [c];
      mret (if w =? 1 then 4 else w).

(** The master reads a byte as a long. *)
Definition pty_read (fuel : nat) (f : ptr) (nbytes : Z) : M pst (Z * list Z) :=
  if nbytes =? 0 then mret (0, [])
  else
    fr ← on_f (getf f);
    if negb (has (f_flags fr) O_HEAD) then pipe_read fuel f nbytes
    else
      '(n, l) ← pipe_read fuel f 1;
      mret (if n =? 1 then (4, [0; 0; 0] ++ l) else (n, l)).

Definition pty_writeb (fuel : nat) (f : ptr) (data : list Z) : M pst Z :=
  if (length data =? 0)%nat then mret 0
  else
    fr ← on_f (getf f);
    if has (f_flags fr) O_HEAD then mret ENODEV else pipe_write fuel f data.

(** [while (cond) if (sleep (IO_Q, pipe)) return EINTR;] *)
Fixpoint wait_pipe (fuel : nat) (p : ptr) (cond : M pst bool) : M pst bool :=
  match fuel with
  | O => mpanic
  | S fuel =>
      b ← cond;
      if b : bool then
        i ← psleep IO_Q (cond_of p);
        if i : bool then mret true else wait_pipe fuel p cond
      else mret false
  end.

(** The slave waits for [vmin] longs. *)
Definition slave_waits (f this : ptr) : M pst bool :=
  fr ← on_f (getf f);
  t ← fifo_tty this;
  r ← getfifo this;
  p ← getpipe (ff_inp r);
  mret ((tt_vmin t >? 1) && (tt_vtime t =? 0) && negb (has (f_flags fr) O_NDELAY)
        && has (tt_sg_flags t) (Z.lor T_RAW T_CBREAK)
        && (p_len p <? tt_vmin t * 4) && (writers p >? 0)
        && negb (writers p =? VIRGIN_PIPE)).

(** The master waits for a byte. *)
Definition master_waits (f q : ptr) : M pst bool :=
  fr ← on_f (getf f);
  p ← getpipe q;
  mret (negb (has (f_flags fr) O_NDELAY) && (p_len p =? 0) && (writers p >? 0)
        && negb (writers p =? VIRGIN_PIPE)).

Definition pty_readb (fuel : nat) (f : ptr) (nbytes : Z) : M pst (Z * list Z) :=
  fr ← on_f (getf f);
  o ← pipe_lookupi (fc_index (f_fc fr));
  match o with
  | None => mret (0, [])
  | Some this =>
      if nbytes =? 0 then mret (0, [])
      else if negb (has (f_flags fr) O_HEAD) then
        r ← getfifo this;
        i ← wait_pipe fuel (ff_inp r) (slave_waits f this);
        mret (if i : bool then EINTR else ENODEV, [])
      else
        r ← getfifo this;
        q ← mderef (λ _, ff_outp r);
        p ← getpipe q;
        if (nbytes >? 1) && (nbytes >? p_len p) then
          i ← wait_pipe fuel q (master_waits f q);
          if i : bool then mret (EINTR, [])
          else p ← getpipe q; pipe_read fuel f (zmin nbytes (p_len p))
        else pipe_read fuel f nbytes
  end.
End transfer.

(** ** The contents of a ring buffer

    [l] bytes from index [s] on, around the end of [buf]. *)
Section ring.
Context {A : Type} (N : nat).
Implicit Types buf d : list A.

Definition ring (buf : list A) (s l : nat) : list A := take l (drop s buf ++ take s buf).

(** The place of the [i]-th element. *)
Definition place (s i : nat) : nat := if decide (s + i < N)%nat then (s + i)%nat else (s + i - N)%nat.

Lemma ring_length buf s l : length buf = N → (s ≤ N)%nat → (l ≤ N)%nat → length (ring buf s l) = l.
Proof. intros. unfold ring. rewrite length_take, length_app, length_drop, length_take. lia. Qed.

Lemma ring_lookup buf s l i :
  length buf = N → (s ≤ N)%nat → (i < l ≤ N)%nat → ring buf s l !! i = buf !! place s i.
Proof.
  intros Hb Hs Hi. unfold ring, place. rewrite lookup_take_lt by lia.
  case_decide.
  - rewrite lookup_app_l by (rewrite length_drop; lia). by rewrite lookup_drop.
  - rewrite lookup_app_r by (rewrite length_drop; lia). rewrite length_drop, lookup_take_lt by lia.
    f_equal. lia.
Qed.

Lemma ring_lookup_ge buf s l i : (l ≤ i)%nat → ring buf s l !! i = None.
Proof. intros. unfold ring. by rewrite lookup_take_ge. Qed.

(** Appending [d] behind the last element, up to the end of the buffer. *)
Lemma ring_put buf s l d :
  length buf = N → (s < N)%nat → (l + length d ≤ N)%nat →
  (l < N → place s l + length d ≤ N)%nat →
  ring (list_inserts (place s l) d buf) s (l + length d) = ring buf s l ++ d.
Proof.
  intros Hb Hs Hl Hfit. destruct d as [|x d].
  { cbn. by rewrite Nat.add_0_r, app_nil_r. }
  set (d' := x :: d) in *. assert (0 < length d')%nat by (unfold d'; cbn; lia).
  specialize (Hfit ltac:(lia)).
  apply list_eq. intros i. destruct (decide (i < l + length d')%nat) as [Hi|Hi].
  2: { rewrite ring_lookup_ge, lookup_ge_None_2; [done| |lia].
       rewrite length_app, ring_length; lia. }
  rewrite ring_lookup by (rewrite ?length_inserts; lia).
  destruct (decide (i < l)%nat) as [Hil|Hil].
  - rewrite lookup_app_l by (rewrite ring_length; lia). rewrite ring_lookup by lia.
    unfold place in *. repeat case_decide; try lia;
      first [rewrite list_lookup_inserts_lt; [done|lia]
            |rewrite list_lookup_inserts_ge; [done|lia]].
  - rewrite lookup_app_r by (rewrite ring_length; lia). rewrite ring_length by lia.
    rewrite list_lookup_inserts; [f_equal|..]; unfold place in *; repeat case_decide; lia.
Qed.

(** Taking [j] elements, up to the end of the buffer. *)
Lemma ring_get buf s l j :
  length buf = N → (s < N)%nat → (j ≤ l ≤ N)%nat → (s + j ≤ N)%nat →
  ring buf s l = take j (drop s buf) ++ ring buf (if decide (s + j = N)%nat then 0 else s + j) (l - j).
Proof.
  intros Hb Hs Hj Hsj. apply list_eq. intros i.
  assert (length (take j (drop s buf)) = j) as Ht by (rewrite length_take, length_drop; lia).
  destruct (decide (i < l)%nat) as [Hi|Hi].
  2: { rewrite ring_lookup_ge, lookup_ge_None_2; [done| |lia].
       rewrite length_app, Ht, ring_length; [lia|done|case_decide; lia|lia]. }
  rewrite ring_lookup by lia. destruct (decide (i < j)%nat).
  - rewrite lookup_app_l by lia. rewrite lookup_take_lt, lookup_drop by lia.
    unfold place. case_decide; [done|lia].
  - rewrite lookup_app_r by lia. rewrite Ht, ring_lookup; [|done|case_decide; lia|lia].
    f_equal. unfold place. repeat case_decide; lia.
Qed.
End ring.

(** ** Chunks *)

Record pipe_wf (r : pipe) : Prop := {
  wf_start : 0 ≤ p_start r < PIPESIZ;
  wf_len : 0 ≤ p_len r ≤ PIPESIZ;
  wf_buf : length (p_buf r) = Z.to_nat PIPESIZ
}.

(** The bytes in the pipe, in the order in which they were written. *)
Definition contents (r : pipe) : list Z :=
  ring (p_buf r) (Z.to_nat (p_start r)) (Z.to_nat (p_len r)).
Definition room (r : pipe) : nat := Z.to_nat (PIPESIZ - p_len r).

(** The pipe without its bytes. *)
Definition pipe_rest (r : pipe) : pipe := set_p_buf [] (set_p_len 0 (set_p_start 0 r)).

Lemma contents_length r : pipe_wf r → length (contents r) = Z.to_nat (p_len r).
Proof.
  intros [Hs Hl Hb]. unfold contents. rewrite (ring_length (Z.to_nat PIPESIZ));
    [done|done|unfold PIPESIZ in *; lia..].
Qed.

Lemma contents_len r : pipe_wf r → p_len r = Z.of_nat (length (contents r)).
Proof. intros Hwf. rewrite contents_length by done. destruct Hwf. lia. Qed.

Lemma offset_place r :
  pipe_wf r → p_len r < PIPESIZ →
  Z.land (p_start r + p_len r) (PIPESIZ - 1)
  = Z.of_nat (place (Z.to_nat PIPESIZ) (Z.to_nat (p_start r)) (Z.to_nat (p_len r))).
Proof.
  intros [Hs Hl Hb] Hlt. change (PIPESIZ - 1) with (Z.ones 12). rewrite Z.land_ones by lia.
  change (2 ^ 12) with PIPESIZ. unfold place, PIPESIZ in *. case_decide.
  - rewrite Z.mod_small by lia. lia.
  - replace (p_start r + p_len r) with (p_start r + p_len r - 4096 + 1 * 4096) by lia.
    rewrite Z_mod_plus_full, Z.mod_small by lia. lia.
Qed.

Lemma zmin_spec a b : zmin a b = Z.min a b.
Proof. unfold zmin. destruct (Z.gtb_spec a b); lia. Qed.

Lemma length_list_inserts {A} (i : nat) (d l : list A) : length (list_inserts i d l) = length l.
Proof. apply length_inserts. Qed.

(** One write of bytes that fit between the end of the contents and the end of the
    buffer. *)
Lemma contents_put r d :
  pipe_wf r → (length d ≤ room r)%nat →
  (p_len r < PIPESIZ → Z.land (p_start r + p_len r) (PIPESIZ - 1) + Z.of_nat (length d) ≤ PIPESIZ) →
  let r' := set_p_len (p_len r + Z.of_nat (length d))
    (set_p_buf (list_inserts (Z.to_nat (Z.land (p_start r + p_len r) (PIPESIZ - 1))) d (p_buf r)) r) in
  pipe_wf r' ∧ contents r' = contents r ++ d.
Proof.
  intros Hwf Hd Hfit r'. pose proof Hwf as [Hs Hl Hb]. unfold room in Hd.
  split; [split; [done|cbn; lia|cbn; by rewrite length_inserts]|].
  destruct (decide (p_len r < PIPESIZ)) as [Hlt|Hge].
  - specialize (Hfit Hlt). rewrite offset_place in Hfit by done.
    unfold contents, r'. cbn. rewrite offset_place, Nat2Z.id by done.
    replace (Z.to_nat (p_len r + Z.of_nat (length d)))
      with (Z.to_nat (p_len r) + length d)%nat by lia.
    apply (ring_put (Z.to_nat PIPESIZ)); [done|unfold PIPESIZ in *; lia..].
  - destruct d as [|x d]; [|unfold PIPESIZ in *; cbn in *; lia]. rewrite app_nil_r.
    unfold contents, r'. cbn. by rewrite Z.add_0_r.
Qed.

(** Cutting at two places, both behind the end if they are not the same. *)
Lemma take_drop_same {A} (l : list A) n m :
  n = m ∨ (length l ≤ n ∧ length l ≤ m)%nat → take n l = take m l ∧ drop n l = drop m l.
Proof. intros [-> |[Hn Hm]]; [done|]. by rewrite !take_ge, !drop_ge by done. Qed.

Lemma put_chunk_spec r data r' rest :
  pipe_wf r → put_chunk r data = (r', rest) →
  pipe_wf r' ∧ contents r' = contents r ++ take (room r) data ∧
  rest = drop (room r) data ∧ pipe_rest r' = pipe_rest r.
Proof.
  intros Hwf. pose proof Hwf as [Hs Hl Hb]. unfold put_chunk. rewrite !zmin_spec.
  set (off := Z.land (p_start r + p_len r) (PIPESIZ - 1)).
  set (j := Z.min (Z.min (PIPESIZ - off) (Z.of_nat (length data))) (PIPESIZ - p_len r)).
  assert (0 ≤ off < PIPESIZ) as Hoff.
  { unfold off. change (PIPESIZ - 1) with (Z.ones 12). rewrite Z.land_ones by lia.
    apply Z.mod_pos_bound. done. }
  assert (0 ≤ j) by lia.
  assert (Hlen : length (take (Z.to_nat j) data) = Z.to_nat j) by (rewrite length_take; lia).
  destruct (contents_put r (take (Z.to_nat j) data) Hwf) as [Hwf1 Hc1];
    [rewrite Hlen; unfold room; lia|rewrite Hlen; fold off; lia|].
  rewrite Hlen in Hwf1, Hc1. rewrite Z2Nat.id in Hwf1, Hc1 by done. fold off in Hwf1, Hc1.
  set (r1 := set_p_len (p_len r + j) _) in Hwf1, Hc1.
  rewrite length_drop. destruct (_ && _) eqn:E; intros [= <- <-].
  - bool_to_prop.
    assert (PIPESIZ - off = j) by lia.
    assert (Z.land (p_start r1 + p_len r1) (PIPESIZ - 1) = 0) as Hzero.
    { assert (p_start r1 + p_len r1 = p_start r + p_len r - off + PIPESIZ) as -> by (cbn; lia).
      unfold off. change (PIPESIZ - 1) with (Z.ones 12). rewrite !Z.land_ones by lia.
      unfold PIPESIZ. generalize (p_start r + p_len r). clear. intros x.
      change (2 ^ 12) with 4096. Z.div_mod_to_equations. lia. }
    set (data1 := drop (Z.to_nat j) data).
    set (j2 := Z.min (PIPESIZ - (p_len r + j)) (Z.of_nat (length data - Z.to_nat j)%nat)).
    assert (length (take (Z.to_nat j2) data1) = Z.to_nat j2) as Hlen2.
    { unfold data1. rewrite length_take, length_drop. lia. }
    destruct (contents_put r1 (take (Z.to_nat j2) data1) Hwf1) as [Hwf2 Hc2];
      [rewrite Hlen2; unfold room; cbn; lia|rewrite Hlen2, Hzero; cbn; lia|].
    rewrite Hlen2, Hzero in Hwf2, Hc2. rewrite Z2Nat.id in Hwf2, Hc2 by lia.
    assert (take (Z.to_nat j + Z.to_nat j2) data = take (room r) data ∧
      drop (Z.to_nat j + Z.to_nat j2) data = drop (room r) data) as Hall
      by (apply take_drop_same; unfold room; lia).
    split; [exact Hwf2|]. split.
    + etransitivity; [exact Hc2|]. rewrite Hc1, <- app_assoc. f_equal.
      unfold data1. rewrite take_take_drop. by destruct Hall as [-> _].
    + unfold data1. rewrite drop_drop. split; [|done]. by destruct Hall as [_ ->].
  - split; [exact Hwf1|]. apply andb_false_iff in E.
    assert (take (Z.to_nat j) data = take (room r) data ∧
      drop (Z.to_nat j) data = drop (room r) data) as [Et Ed].
    2: { split; [etransitivity; [exact Hc1|by rewrite Et]|by split]. }
    apply take_drop_same. unfold room. destruct E; bool_to_prop; lia.
Qed.

(** The contents only depend on the start if there are any. *)
Lemma contents_start r st n :
  0 ≤ n →
  contents (set_p_len n (set_p_start (if (n =? 0) || (st =? PIPESIZ) then 0 else st) r)) =
  ring (p_buf r) (if decide (st = PIPESIZ) then 0 else Z.to_nat st) (Z.to_nat n).
Proof.
  intros Hn. unfold contents. cbn. destruct (Z.eqb_spec n 0) as [->|]; cbn; [done|].
  destruct (Z.eqb_spec st PIPESIZ); by case_decide.
Qed.

Lemma get_chunk_spec r n r' out :
  pipe_wf r → 0 < n → get_chunk r n = (r', out) →
  pipe_wf r' ∧ contents r = out ++ contents r' ∧
  Z.of_nat (length out) = Z.min n (p_len r) ∧ pipe_rest r' = pipe_rest r.
Proof.
  intros Hwf Hn. pose proof Hwf as [Hs Hl Hb]. unfold get_chunk. rewrite !zmin_spec.
  set (j := Z.min (Z.min (PIPESIZ - p_start r) n) (p_len r)).
  pose proof (ring_get (Z.to_nat PIPESIZ) (p_buf r) (Z.to_nat (p_start r))
    (Z.to_nat (p_len r)) (Z.to_nat j) Hb ltac:(lia) ltac:(lia) ltac:(lia)) as Hget.
  fold (contents r) in Hget. set (out1 := take (Z.to_nat j) _) in *.
  assert (length out1 = Z.to_nat j) as Hout1
    by (unfold out1; rewrite length_take, length_drop, Hb; lia).
  destruct (_ && _) eqn:E; intros [= <- <-].
  - bool_to_prop. assert (p_start r + j = PIPESIZ) as Hend by lia.
    set (j2 := Z.min (p_len r - j) (n - j)).
    rewrite decide_True in Hget by lia.
    rewrite (ring_get (Z.to_nat PIPESIZ) _ 0 _ (Z.to_nat j2)), drop_0 in Hget;
      [|done|unfold PIPESIZ; lia|lia..].
    split; [|split; [|split]].
    + split; [cbn|cbn; lia|done]. case_bool; bool_to_prop; unfold PIPESIZ in *; lia.
    + rewrite contents_start by lia. rewrite Hget, <- app_assoc. f_equal. f_equal. f_equal; [|lia].
      repeat case_decide; lia.
    + rewrite length_app, Hout1, length_take. unfold PIPESIZ in *. lia.
    + done.
  - apply andb_false_iff in E. split; [|split; [|split]].
    + split; [cbn|cbn; lia|done].
      destruct ((p_len r - j =? 0) || (p_start r + j =? PIPESIZ)) eqn:E';
        [unfold PIPESIZ; lia|]. bool_to_prop. lia.
    + rewrite contents_start by lia. rewrite Hget at 1. f_equal. f_equal; [|lia].
      repeat case_decide; lia.
    + rewrite Hout1. destruct E; bool_to_prop; lia.
    + done.
Qed.

(** ** A file that is connected to a pipe

    The file [f] is open with [flags] on the fifo [this], a pipe and no terminal,
    and [p] is the pipe of the fifo that the operation is about. *)
Section connected.
Context `{PipeCalls} (f this p : ptr) (flags ino : Z) (inp : ptr) (outp : option ptr) (dos : Z).

Record ready (s : pst) (q : pipe) : Prop := {
  rd_file : ∃ fr, files (pf s) !! f = Some fr ∧ f_flags fr = flags ∧ fc_index (f_fc fr) = ino;
  rd_lookup : pipe_lookupi ino s = Some (Some this, s);
  rd_fifo : ∃ t, fifos s !! this = Some t ∧ ff_inp t = inp ∧ ff_outp t = outp ∧ ff_dosflags t = dos;
  rd_pipe : pipes s !! p = Some q;
  rd_wf : pipe_wf q;
  rd_queues : ∃ Q, queues_ok (fk (pf s)) Q;
  rd_sel : ∀ x, p_rsel q = Some x ∨ p_wsel q = Some x → is_Some (procs (fk (pf s)) !! x)
}.
Context (Hterm : has flags O_TTY = false).

(** Only the kernel changed. *)
Definition only_kernel (s s' : pst) : Prop := ∃ k, s' = set_pf (set_fk k (pf s)) s.

Lemma only_kernel_refl s : only_kernel s s.
Proof. exists (fk (pf s)). by destruct s as [[]]. Qed.

Lemma only_kernel_trans s1 s2 s3 : only_kernel s1 s2 → only_kernel s2 s3 → only_kernel s1 s3.
Proof. intros [k ->] [k' ->]. by exists k'. Qed.

Lemma lookupi_frame n ino' o s s' a :
  (∀ t, (λ r, (ff_ino r, ff_next r)) <$> fifos s' !! t
        = (λ r, (ff_ino r, ff_next r)) <$> fifos s !! t) →
  lookupi_loop n ino' o s = Some (a, s) → lookupi_loop n ino' o s' = Some (a, s').
Proof.
  intros Hf. revert o. induction n as [|n IH]; (intros [t|]; [|by intros [= <-]]); cbn; [done|].
  intros Hl. apply bind_inv in Hl as (r & s1 & Hr & Hl). unfold getfifo, mderef in Hr.
  specialize (Hf t). destruct (fifos s !! t) as [r'|] eqn:Ht; [|done]. injection Hr as <- <-.
  destruct (fifos s' !! t) as [r1|] eqn:Ht1; [|done]. injection Hf as Hino Hnext.
  erewrite bind_run by (unfold getfifo, mderef; by rewrite Ht1). rewrite Hino, Hnext.
  destruct (ff_ino r' =? ino'); [by injection Hl as <-|by apply IH].
Qed.

(** The parts of the state that [ready] depends on. *)
Lemma ready_frame s s' q :
  files (pf s') = files (pf s) → fifos s' = fifos s → piperoot s' = piperoot s →
  pipes s' !! p = Some q → pipe_wf q → (∃ Q, queues_ok (fk (pf s')) Q) →
  (∀ x, p_rsel q = Some x ∨ p_wsel q = Some x → is_Some (procs (fk (pf s')) !! x)) →
  (∃ q0, ready s q0) → ready s' q.
Proof.
  intros Hf Hff Hroot Hp Hwf HQ Hsel (q0 & [H1 H2 H3 _ _ _ _]).
  split; [by rewrite Hf| |by rewrite Hff|done..].
  unfold pipe_lookupi, mbind, M_bind, mgets in *. rewrite Hff, Hroot.
  eapply lookupi_frame; [intros t|exact H2]. by rewrite Hff.
Qed.

(** Kernel operations that keep the queues. *)
Lemma wakeselect_opt_ready s q o :
  ready s q → (∀ x, o = Some x → is_Some (procs (fk (pf s)) !! x)) →
  ∃ s', wakeselect_opt o s = Some ((), s') ∧ only_kernel s s' ∧ ready s' q.
Proof.
  intros Hr Ho. destruct o as [x|]; [|by eexists; split; [done|split; [apply only_kernel_refl|]]].
  destruct (Ho x eq_refl) as [rx Hx]. destruct (rd_queues _ _ Hr) as [Q HQ].
  destruct (wakeselect_ready (fk (pf s)) Q x rx HQ Hx) as (k' & Q' & r' & E & HQ' & _ & _ & _ & _ & Hdom).
  exists (set_pf (set_fk k' (pf s)) s). split.
  { unfold wakeselect_opt, on_k, on_kernel, mlift. by rewrite E. }
  split; [by eexists|].
  apply (ready_frame s); try done; [apply Hr|apply Hr|by exists Q'| |by exists q].
  intros y Hy. apply Hdom. by apply (rd_sel _ _ Hr).
Qed.

Lemma wake_ready s q :
  ready s q → ∃ s', on_k (wake IO_Q (cond_of p)) s = Some ((), s') ∧ only_kernel s s' ∧ ready s' q.
Proof.
  intros Hr. destruct (rd_queues _ _ Hr) as [Q HQ].
  destruct (wake_ok (fk (pf s)) Q IO_Q (cond_of p) HQ) as (k' & E & HQ' & Hc & _); [done|].
  exists (set_pf (set_fk k' (pf s)) s). split.
  { unfold on_k, on_kernel, mlift. by rewrite E. }
  split; [by eexists|].
  apply (ready_frame s); try done; [apply Hr|apply Hr|by eexists| |by exists q].
  intros y Hy. apply (cores_some _ _ y Hc). by apply (rd_sel _ _ Hr).
Qed.

Lemma getpipe_ready s q : ready s q → getpipe p s = Some (q, s).
Proof. intros Hr. apply (mderef_run (λ s, pipes s !! p)), Hr. Qed.

(** The common shape of [pipe_wake_readers] and [pipe_wake_writers]. *)
Lemma wake_side s q (cond : pipe → bool) (sel : pipe → option ptr) :
  ready s q → (∀ x, sel q = Some x → p_rsel q = Some x ∨ p_wsel q = Some x) →
  ∃ s', (r ← getpipe p; mwhen (cond r) (wakeselect_opt (sel r)) ;;
         r ← getpipe p; mwhen (cond r) (on_k (wake IO_Q (cond_of p)))) s = Some ((), s') ∧
    only_kernel s s' ∧ ready s' q.
Proof.
  intros Hr Hsel. erewrite bind_run by (by apply getpipe_ready). destruct (cond q) eqn:Hcond.
  2: { exists s. split; [|split; [apply only_kernel_refl|done]]. cbn [mwhen].
       erewrite bind_run by done. erewrite bind_run by (by apply getpipe_ready).
       by rewrite Hcond. }
  destruct (wakeselect_opt_ready s q (sel q) Hr) as (s1 & E1 & Hk1 & Hr1).
  { intros x Hx. apply (rd_sel _ _ Hr). auto. }
  destruct (wake_ready s1 q Hr1) as (s2 & E2 & Hk2 & Hr2).
  exists s2. split; [|split; [by eapply only_kernel_trans|done]]. cbn [mwhen].
  erewrite bind_run by apply E1. erewrite bind_run by (by apply getpipe_ready).
  by rewrite Hcond.
Qed.

Lemma wake_readers_ready s q :
  ready s q → ∃ s', pipe_wake_readers p s = Some ((), s') ∧ only_kernel s s' ∧ ready s' q.
Proof. intros Hr. apply (wake_side s q (λ r, p_len r >? 0) p_rsel Hr). auto. Qed.

Lemma wake_writers_ready s q :
  ready s q → ∃ s', pipe_wake_writers p s = Some ((), s') ∧ only_kernel s s' ∧ ready s' q.
Proof. intros Hr. apply (wake_side s q (λ r, p_len r <? PIPESIZ) p_wsel Hr). auto. Qed.

Lemma getf_ready s q :
  ready s q → ∃ fr, on_f (getf f) s = Some (fr, s) ∧ f_flags fr = flags ∧ fc_index (f_fc fr) = ino.
Proof.
  intros Hr. destruct (rd_file _ _ Hr) as (fr & Hf & Hfl & Hi). exists fr. split; [|done].
  unfold on_f, mlift, getf, mderef. rewrite Hf. by destruct s.
Qed.

Lemma getfifo_ready s q :
  ready s q → ∃ t, getfifo this s = Some (t, s) ∧ ff_inp t = inp ∧ ff_outp t = outp ∧ ff_dosflags t = dos.
Proof.
  intros Hr. destruct (rd_fifo _ _ Hr) as (t & Ht & Hi). exists t. split; [|done].
  by apply (mderef_run (λ s, fifos s !! this)).
Qed.

(** Replacing the pipe. *)
Lemma modpipe_ready s q q' :
  ready s q → pipe_wf q' → pipe_rest q' = pipe_rest q →
  ∃ s', modpipe p (λ _, q') s = Some ((), s') ∧ ready s' q' ∧
    s' = set_pipes (<[p := q']> (pipes s)) s.
Proof.
  intros Hr Hwf Hrest. eexists. split; [|split; [|done]].
  { unfold modpipe. by rewrite (rd_pipe _ _ Hr). }
  apply (ready_frame s); try done; [apply lookup_insert_eq|apply Hr| |by exists q].
  assert (p_rsel q' = p_rsel q ∧ p_wsel q' = p_wsel q) as [-> ->].
  { destruct q, q'. cbn in *. by simplify_eq. }
  apply (rd_sel _ _ Hr).
Qed.

(** ** Writing *)

(** The other processes: they leave the file, the fifo and the pipe in place, and
    take bytes from the front of the pipe. *)
Definition readers_only : Prop := ∀ que cond s q b s',
  ready s q → psleep que cond s = Some (b, s') →
  ∃ q' taken, ready s' q' ∧ contents q = taken ++ contents q'.

(** The end of the call leaves the pipe [q']. *)
Definition leaves (s' : pst) (q' : pipe) : Prop := pipes s' !! p = Some q' ∧ pipe_wf q'.

Lemma ready_leaves s q : ready s q → leaves s q.
Proof. intros Hr. split; apply Hr. Qed.

Lemma broken_pipe_leaves fuel s q e s' :
  ready s q → broken_pipe fuel s = Some (e, s') → e = EPIPE ∧ leaves s' q.
Proof.
  intros Hr Hb. unfold broken_pipe, on_k, mlift in Hb.
  apply bind_inv in Hb as ([] & s1 & H1 & Hb). apply bind_inv in Hb as ([] & s2 & H2 & Hb).
  injection Hb as <- <-. split; [done|].
  destruct (on_kernel _ (pf s)) as [[[] ?]|]; [|done]. injection H1 as <-.
  destruct (on_kernel _ _) as [[[] ?]|]; [|done]. injection H2 as <-.
  split; apply Hr.
Qed.

Lemma held_plain fr this' s : f_flags fr = flags → held fr this' s = Some (false, s).
Proof. intros Hf. unfold held, is_terminal. by rewrite Hf, Hterm. Qed.

Lemma wakes_readers_plain fr this' n s :
  f_flags fr = flags → wakes_readers fr this' n s = Some (true, s).
Proof. intros Hf. unfold wakes_readers, is_terminal. by rewrite Hf, Hterm. Qed.

(** One round of the loop on a pipe that is not full. *)
Lemma write_chunk fuel c data w s q :
  ready s q → p_len q < PIPESIZ →
  ∃ s' q', ready s' q' ∧ contents q' = contents q ++ take (room q) (c :: data) ∧
    pipe_rest q' = pipe_rest q ∧
    write_loop (S fuel) f this p (c :: data) w s =
    write_loop fuel f this p (drop (room q) (c :: data))
      (w + Z.of_nat (length (c :: data)) - Z.of_nat (length (drop (room q) (c :: data)))) s'.
Proof.
  intros Hr Hlt. destruct (getf_ready s q Hr) as (fr & Ef & Hfl & _).
  destruct (put_chunk q (c :: data)) as [q' rest] eqn:Eput.
  destruct (put_chunk_spec q (c :: data) q' rest (rd_wf _ _ Hr) Eput)
    as (Hwf' & Hc' & -> & Hrest).
  destruct (modpipe_ready s q q' Hr Hwf' Hrest) as (s1 & E1 & Hr1 & _).
  destruct (wake_readers_ready s1 q' Hr1) as (s2 & E2 & _ & Hr2).
  exists s2, q'. split; [done|]. split; [done|]. split; [done|].
  change (write_loop (S fuel) f this p (c :: data) w s) with
    ((fr ← on_f (getf f); r ← getpipe p;
      if p_len r <? PIPESIZ then
        let '(r', rest) := put_chunk r (c :: data) in
        modpipe p (λ _, r') ;;
        w0 ← wakes_readers fr this (p_len r');
        mwhen w0 (pipe_wake_readers p) ;;
        write_loop fuel f this p rest
          (w + Z.of_nat (length (c :: data)) - Z.of_nat (length rest))
      else if unused (readers r) then e ← broken_pipe (S fuel); mret (inl e)
      else if has (f_flags fr) O_NDELAY then mret (inr w)
      else
        let plen := p_len r in
        pipe_wake_readers p ;;
        r ← getpipe p;
        if p_len r =? plen then
          i ← psleep IO_Q (cond_of p);
          if i : bool then mret (inl EINTR) else write_loop fuel f this p (c :: data) w
        else write_loop fuel f this p (c :: data) w : M pst (Z + Z)) s).
  erewrite bind_run by apply Ef. erewrite bind_run by (by apply getpipe_ready).
  replace (p_len q <? PIPESIZ) with true by lia. rewrite Eput.
  erewrite bind_run by apply E1. erewrite bind_run by (by apply wakes_readers_plain).
  by erewrite bind_run by apply E2.
Qed.

(** One round on a full pipe. *)
Lemma write_full fuel c data w s q :
  ready s q → PIPESIZ ≤ p_len q →
  ∃ s1, only_kernel s s1 ∧ ready s1 q ∧
  write_loop (S fuel) f this p (c :: data) w s =
    if unused (readers q) then (e ← broken_pipe (S fuel); mret (inl e) : M pst (Z + Z)) s
    else if has flags O_NDELAY then Some (inr w, s)
    else (i ← psleep IO_Q (cond_of p);
          if i : bool then mret (inl EINTR)
          else write_loop fuel f this p (c :: data) w : M pst (Z + Z)) s1.
Proof.
  intros Hr Hge. destruct (getf_ready s q Hr) as (fr & Ef & Hfl & _).
  destruct (wake_readers_ready s q Hr) as (s1 & E1 & Hk1 & Hr1).
  exists s1. split; [done|]. split; [done|]. cbn [write_loop].
  erewrite bind_run by apply Ef. erewrite bind_run by (by apply getpipe_ready).
  replace (p_len q <? PIPESIZ) with false by lia. rewrite Hfl.
  destruct (unused (readers q)); [done|]. destruct (has flags O_NDELAY); [done|].
  erewrite bind_run by apply E1. erewrite bind_run by (by apply getpipe_ready).
  by rewrite Z.eqb_refl.
Qed.

Lemma write_loop_fifo (Henv : readers_only) fuel : ∀ data w s q res s',
  ready s q → write_loop fuel f this p data w s = Some (res, s') →
  ∃ q' taken k, leaves s' q' ∧ contents q ++ take k data = taken ++ contents q' ∧
    (k ≤ length data)%nat ∧
    ∀ n, res = inr n → n = w + Z.of_nat k ∧ ready s' q' ∧
      (k = length data ∨ has flags O_NDELAY = true).
Proof.
  induction fuel as [|fuel IH]; intros [|c data] w s q res s' Hr Hw.
  1, 3: cbn in Hw; injection Hw as <- <-; exists q, [], 0%nat;
    split; [by apply ready_leaves|split; [by rewrite app_nil_r|]];
    split; [done|]; intros n [= <-]; split; [lia|]; split; [done|by left].
  { done. }
  destruct (decide (p_len q < PIPESIZ)) as [Hlt|Hge].
  - destruct (write_chunk fuel c data w s q Hr Hlt) as (s1 & q1 & Hr1 & Hc1 & _ & E).
    rewrite E in Hw. destruct (IH _ _ s1 q1 _ _ Hr1 Hw) as (q' & taken & k & Hl & Hk & Hle & Hn).
    set (m := (room q `min` length (c :: data))%nat).
    assert (length (drop (room q) (c :: data)) = length (c :: data) - m)%nat as Hd
      by (rewrite length_drop; lia).
    exists q', taken, (m + k)%nat. split; [done|]. split.
    { rewrite Hc1, <- app_assoc in Hk. rewrite <- Hk. f_equal. rewrite <- take_take_drop.
      f_equal; [|f_equal]; unfold m; destruct (Nat.min_spec (room q) (length (c :: data)))
        as [[? ->]|[? ->]]; [done| |done|]; by rewrite ?take_ge, ?drop_ge by lia. }
    split; [rewrite Hd in Hle; lia|]. intros n Hres.
    destruct (Hn n Hres) as (-> & Hr' & Hend). split; [lia|]. split; [done|].
    destruct Hend as [-> |?]; [left; lia|by right].
  - destruct (write_full fuel c data w s q Hr ltac:(lia)) as (s1 & _ & Hr1 & E).
    rewrite E in Hw. destruct (unused (readers q)).
    { apply bind_inv in Hw as (e & s2 & Hb & Hw). injection Hw as <- <-.
      destruct (broken_pipe_leaves _ s q e s2 Hr Hb) as [_ Hl].
      exists q, [], 0%nat. split; [done|]. split; [by rewrite app_nil_r|]. split; [lia|done]. }
    destruct (has flags O_NDELAY) eqn:Hnd.
    { injection Hw as <- <-. exists q, [], 0%nat. split; [by apply ready_leaves|].
      split; [by rewrite app_nil_r|]. split; [lia|]. intros n [= <-]. split; [lia|]. by auto. }
    apply bind_inv in Hw as (i & s2 & Hs & Hw).
    destruct (Henv _ _ _ _ _ _ Hr1 Hs) as (q2 & t & Hr2 & Ht). destruct i.
    + injection Hw as <- <-. exists q2, t, 0%nat. split; [by apply ready_leaves|].
      split; [by rewrite app_nil_r|]. split; [lia|done].
    + destruct (IH _ _ s2 q2 _ _ Hr2 Hw) as (q' & taken & k & Hl & Hk & Hle & Hn).
      exists q', (t ++ taken), k. split; [done|]. split; [|by split].
      by rewrite Ht, <- !app_assoc, Hk.
Qed.
Lemma modfifo_ready s q g :
  ready s q → (∀ t, ff_inp (g t) = ff_inp t ∧ ff_outp (g t) = ff_outp t ∧
    ff_dosflags (g t) = ff_dosflags t ∧ ff_ino (g t) = ff_ino t ∧ ff_next (g t) = ff_next t) →
  ∃ s', modfifo this g s = Some ((), s') ∧ ready s' q ∧ pipes s' = pipes s.
Proof.
  intros Hr Hg. pose proof Hr as [H1 H2 (t & Ht & Hi & Ho & Hd) H4 H5 H6 H7].
  destruct (Hg t) as (Gi & Go & Gd & Gn & Gx).
  eexists. split; [unfold modfifo; by rewrite Ht|]. split; [|done].
  split; [done| |exists (g t); cbn; rewrite lookup_insert_eq; repeat split; congruence|done..].
  unfold pipe_lookupi, mbind, M_bind, mgets in *. cbn.
  rewrite map_size_insert_Some by done. eapply lookupi_frame; [|exact H2].
  intros t'. cbn. destruct (decide (t' = this)) as [->|Hne].
  - rewrite lookup_insert_eq, Ht. cbn. congruence.
  - by rewrite lookup_insert_ne.
Qed.

Lemma check_atomicity_fifo (Henv : readers_only) fuel : ∀ n s q o s',
  ready s q → check_atomicity fuel f this p n s = Some (o, s') →
  ∃ q' taken, leaves s' q' ∧ contents q = taken ++ contents q' ∧
    match o with
    | None => ready s' q' ∧ n ≤ PIPESIZ - p_len q'
    | Some e => e < 0
    end.
Proof.
  induction fuel as [|fuel IH]; intros n s q o s' Hr Hc; [done|].
  destruct (getf_ready s q Hr) as (fr & Ef & Hfl & _). cbn [check_atomicity] in Hc.
  erewrite bind_run in Hc by apply Ef. erewrite bind_run in Hc by (by apply held_plain). cbv beta iota in Hc.
  erewrite bind_run in Hc by (by apply getpipe_ready).
  destruct (Z.ltb_spec (PIPESIZ - p_len q) n) as [Hlt|Hge].
  2: { injection Hc as <- <-. exists q, []. split; [by apply ready_leaves|].
       split; [done|]. by split. }
  destruct (unused (readers q)).
  { apply bind_inv in Hc as (e & s2 & Hb & Hc). injection Hc as <- <-.
    destruct (broken_pipe_leaves _ s q e s2 Hr Hb) as [-> Hl]. by exists q, []. }
  destruct (wake_readers_ready s q Hr) as (s1 & E1 & _ & Hr1).
  erewrite bind_run in Hc by apply E1. erewrite bind_run in Hc by (by apply getpipe_ready).
  replace (PIPESIZ - p_len q <? n) with true in Hc by lia.
  apply bind_inv in Hc as (i & s2 & Hs & Hc).
  destruct (Henv _ _ _ _ _ _ Hr1 Hs) as (q2 & t & Hr2 & Ht). destruct i.
  - injection Hc as <- <-. exists q2, t. split; [by apply ready_leaves|]. by split.
  - destruct (IH _ s2 q2 _ _ Hr2 Hc) as (q' & taken & Hl & Hk & Ho).
    exists q', (t ++ taken). split; [done|]. split; [|done]. by rewrite Ht, <- app_assoc, Hk.
Qed.

(** The state at the end of a transfer that is not interrupted. *)
Lemma finish_write s q w :
  ready s q →
  ∃ s', (now ← mgets xtime; modfifo this (set_ff_mtime now) ;; r ← getpipe p;
         mwhen (p_len r >? 0) (pipe_wake_readers p) ;; mret w : M pst Z) s = Some (w, s') ∧
    ready s' q.
Proof.
  intros Hr. destruct (modfifo_ready s q (set_ff_mtime (xtime s)) Hr) as (s1 & E1 & Hr1 & _);
    [done|].
  destruct (wake_readers_ready s1 q Hr1) as (s2 & E2 & _ & Hr2).
  erewrite bind_run by done. erewrite bind_run by apply E1.
  erewrite bind_run by (by apply getpipe_ready). destruct (p_len q >? 0); cbn [mwhen].
  - exists s2. by erewrite bind_run by apply E2.
  - exists s1. by erewrite bind_run by done.
Qed.

Context (Hend : (if has flags O_HEAD then Some inp else outp) = Some p).

(** [pipe_write] up to the choice of the pipe. *)
Lemma pipe_write_start fuel data s q :
  ready s q →
  pipe_write fuel f data s =
  (early ← (if (Z.of_nat (length data) >? 0) && (Z.of_nat (length data) <=? PIPE_BUF)
            then check_atomicity fuel f this p (Z.of_nat (length data)) else mret None);
   match early with
   | Some e => mret e
   | None =>
       w ← write_loop fuel f this p data 0;
       match w with
       | inl e => mret e
       | inr written =>
           now ← mgets xtime; modfifo this (set_ff_mtime now) ;; r ← getpipe p;
           mwhen (p_len r >? 0) (pipe_wake_readers p) ;; mret written
       end
   end : M pst Z) s.
Proof.
  intros Hr. destruct (getf_ready s q Hr) as (fr & Ef & Hfl & Hino).
  destruct (getfifo_ready s q Hr) as (t & Et & Hi & Ho & _). unfold pipe_write.
  rewrite (bind_run _ _ _ _ _ Ef), Hino, (bind_run _ _ _ _ _ (rd_lookup _ _ Hr)).
  cbv beta iota. rewrite (bind_run _ _ _ _ _ Et). unfold write_end.
  by rewrite Hfl, Hi, Ho, Hend.
Qed.

(** The errors of the loop. *)
Lemma write_loop_error fuel : ∀ data w s e s',
  write_loop fuel f this p data w s = Some (inl e, s') → e < 0.
Proof.
  induction fuel as [|fuel IH]; intros [|c data] w s e s' Hw; [done..|].
  cbn [write_loop] in Hw.
  apply bind_inv in Hw as (fr & s1 & _ & Hw). apply bind_inv in Hw as (r & s2 & _ & Hw).
  destruct (p_len r <? PIPESIZ).
  { destruct (put_chunk r (c :: data)) as [r' rest].
    apply bind_inv in Hw as (? & s3 & _ & Hw). apply bind_inv in Hw as (? & s4 & _ & Hw).
    apply bind_inv in Hw as (? & s5 & _ & Hw). by eapply IH. }
  destruct (unused (readers r)).
  { apply bind_inv in Hw as (e' & s3 & Hb & Hw). injection Hw as <- <-.
    unfold broken_pipe in Hb. apply bind_inv in Hb as (? & ? & _ & Hb).
    apply bind_inv in Hb as (? & ? & _ & Hb). by injection Hb as <- _. }
  destruct (has (f_flags fr) O_NDELAY); [done|].
  apply bind_inv in Hw as (? & s3 & _ & Hw). apply bind_inv in Hw as (r2 & s4 & _ & Hw).
  destruct (p_len r2 =? p_len r); [|by eapply IH].
  apply bind_inv in Hw as (i & s5 & _ & Hw). destruct i; [by injection Hw as <- _|by eapply IH].
Qed.

(** C14: A pipe is a queue of bytes for its writer.  While the readers take bytes
    from the front, as often as the writer sleeps, the bytes that leave the pipe and
    those that stay are together what was in it and a prefix of the data, in order;
    a result that is no error is the length of the prefix, which is all of the data
    unless the file is opened with [O_NDELAY]. *)
Theorem pipe_write_fifo fuel data s q z s' :
  readers_only → ready s q → pipe_write fuel f data s = Some (z, s') →
  ∃ q' taken k, leaves s' q' ∧ contents q ++ take k data = taken ++ contents q' ∧
    (k ≤ length data)%nat ∧
    (0 ≤ z → z = Z.of_nat k ∧ (k = length data ∨ has flags O_NDELAY = true)).
Proof.
  intros Henv Hr Hw. rewrite (pipe_write_start fuel data s q Hr) in Hw.
  apply bind_inv in Hw as (early & s1 & He & Hw).
  assert (∃ q1 t, leaves s1 q1 ∧ contents q = t ++ contents q1 ∧
    match early with None => ready s1 q1 | Some e => e < 0 end)
    as (q1 & t & Hl1 & Ht & Hearly).
  { destruct (_ && _).
    - destruct (check_atomicity_fifo Henv fuel _ s q early s1 Hr He)
        as (q1 & t & Hl1 & Ht & Ho). exists q1, t. destruct early; naive_solver.
    - injection He as <- <-. exists q, []. split; [by apply ready_leaves|by split]. }
  destruct early as [e|].
  { injection Hw as <- <-. exists q1, t, 0%nat. split; [done|].
    split; [by rewrite app_nil_r|]. split; lia. }
  apply bind_inv in Hw as (w & s2 & Hloop & Hw).
  destruct (write_loop_fifo Henv fuel data 0 s1 q1 w s2 Hearly Hloop)
    as (q' & taken & k & Hl & Hk & Hle & Hn).
  assert (contents q ++ take k data = (t ++ taken) ++ contents q') as Hall
    by (by rewrite Ht, <- !app_assoc, Hk).
  destruct w as [e|n].
  - injection Hw as <- <-. exists q', (t ++ taken), k. apply write_loop_error in Hloop.
    split; [done|]. split; [done|]. split; lia.
  - destruct (Hn n eq_refl) as (-> & Hr' & Hdone).
    destruct (finish_write s2 q' (0 + Z.of_nat k) Hr') as (s3 & E & Hr3).
    rewrite E in Hw. injection Hw as <- <-. exists q', (t ++ taken), k.
    split; [by apply ready_leaves|]. split; [done|]. split; [done|]. intros _. by split; [lia|].
Qed.

(** The other processes leave the file and the fifo in place, and do what they like
    with the bytes. *)
Definition stays_open : Prop := ∀ que cond s q b s',
  ready s q → psleep que cond s = Some (b, s') → ∃ q', ready s' q'.

(** Any number of sleeps, between which only the kernel changes. *)
Inductive slept : pst → pst → Prop :=
  | slept_refl s : slept s s
  | slept_step s s1 s2 s3 que cond b :
      only_kernel s s1 → psleep que cond s1 = Some (b, s2) → slept s2 s3 → slept s s3.

Lemma only_kernel_pipes s s' : only_kernel s s' → pipes s' = pipes s.
Proof. by intros [k ->]. Qed.

Lemma check_atomicity_slept (Henv : stays_open) fuel : ∀ n s q o s',
  ready s q → check_atomicity fuel f this p n s = Some (o, s') →
  ∃ s1 q1, slept s s1 ∧ ready s1 q1 ∧
    match o with
    | None => ready s' q1 ∧ n ≤ PIPESIZ - p_len q1
    | Some e => e < 0 ∧ pipes s' = pipes s1
    end.
Proof.
  induction fuel as [|fuel IH]; intros n s q o s' Hr Hc; [done|].
  destruct (getf_ready s q Hr) as (fr & Ef & Hfl & _). cbn [check_atomicity] in Hc.
  erewrite bind_run in Hc by apply Ef. erewrite bind_run in Hc by (by apply held_plain).
  cbv beta iota in Hc. erewrite bind_run in Hc by (by apply getpipe_ready).
  destruct (Z.ltb_spec (PIPESIZ - p_len q) n) as [Hlt|Hge].
  2: { injection Hc as <- <-. exists s, q. split; [apply slept_refl|]. split; [done|].
       split; [done|lia]. }
  destruct (unused (readers q)).
  { apply bind_inv in Hc as (e & s2 & Hb & Hc). injection Hc as <- <-.
    unfold broken_pipe, on_k, mlift in Hb. exists s, q. split; [apply slept_refl|].
    split; [done|]. apply bind_inv in Hb as ([] & s3 & H1 & Hb).
    apply bind_inv in Hb as ([] & s4 & H2 & Hb). injection Hb as <- <-. split; [done|].
    destruct (on_kernel _ (pf s)) as [[[] ?]|]; [|done]. injection H1 as <-.
    destruct (on_kernel _ _) as [[[] ?]|]; [|done]. by injection H2 as <-. }
  destruct (wake_readers_ready s q Hr) as (s1 & E1 & Hk1 & Hr1).
  erewrite bind_run in Hc by apply E1. erewrite bind_run in Hc by (by apply getpipe_ready).
  replace (PIPESIZ - p_len q <? n) with true in Hc by lia.
  apply bind_inv in Hc as (i & s2 & Hs & Hc).
  destruct (Henv _ _ _ _ _ _ Hr1 Hs) as (q2 & Hr2). destruct i.
  - injection Hc as <- <-. exists s2, q2.
    split; [by eapply slept_step; [..|apply slept_refl]|]. by split.
  - destruct (IH _ s2 q2 _ _ Hr2 Hc) as (s3 & q3 & Hsl & Hr3 & Ho). exists s3, q3.
    split; [by eapply slept_step|]. by split.
Qed.

(** The loop when there is room for all the data. *)
Lemma write_loop_room fuel data w s q :
  ready s q → (length data ≤ room q)%nat → data = [] ∨ (0 < fuel)%nat →
  ∃ s' q', write_loop fuel f this p data w s = Some (inr (w + Z.of_nat (length data)), s') ∧
    ready s' q' ∧ contents q' = contents q ++ data ∧ pipe_rest q' = pipe_rest q.
Proof.
  intros Hr Hroom Hfuel. destruct data as [|c data].
  { exists s, q. cbn. rewrite Z.add_0_r, app_nil_r. by destruct fuel. }
  destruct fuel as [|fuel]; [naive_solver lia|].
  destruct (write_chunk fuel c data w s q Hr) as (s1 & q1 & Hr1 & Hc & Hrest & E).
  { unfold room in Hroom. cbn in Hroom. lia. }
  exists s1, q1. rewrite E, drop_ge by done. split.
  { rewrite Z.sub_0_r. by destruct fuel. }
  split; [done|]. split; [|done]. by rewrite Hc, take_ge.
Qed.

(** C16: A write of at most [PIPE_BUF] bytes is atomic.  Whatever the other processes
    do while it sleeps, either its bytes are appended to the pipe in one piece, after
    the last sleep, or the result is an error and the pipe is not touched. *)
Theorem pipe_write_atomic fuel data s q z s' :
  stays_open → ready s q → 0 < Z.of_nat (length data) ≤ PIPE_BUF →
  pipe_write fuel f data s = Some (z, s') →
  ∃ s1 q1, slept s s1 ∧ ready s1 q1 ∧
    ((z = Z.of_nat (length data) ∧ ∃ q', leaves s' q' ∧ contents q' = contents q1 ++ data) ∨
     (z < 0 ∧ pipes s' = pipes s1)).
Proof.
  intros Henv Hr Hlen Hw. rewrite (pipe_write_start fuel data s q Hr) in Hw.
  replace ((Z.of_nat (length data) >? 0) && (Z.of_nat (length data) <=? PIPE_BUF))
    with true in Hw by lia.
  apply bind_inv in Hw as (early & s2 & He & Hw).
  destruct (check_atomicity_slept Henv fuel _ s q early s2 Hr He) as (s1 & q1 & Hsl & Hr1 & Ho).
  exists s1, q1. split; [done|]. split; [done|]. destruct early as [e|].
  { injection Hw as <- <-. by right. }
  destruct Ho as [Hr2 Hroom]. destruct fuel as [|fuel]; [done|].
  destruct (write_loop_room (S fuel) data 0 s2 q1 Hr2) as (s3 & q' & E & Hr3 & Hc & _);
    [unfold room; lia|right; lia|].
  erewrite bind_run in Hw by apply E. cbv beta iota in Hw. left.
  destruct (finish_write s3 q' (0 + Z.of_nat (length data)) Hr3) as (s4 & E4 & Hr4).
  rewrite E4 in Hw. injection Hw as <- <-. split; [lia|]. exists q'.
  split; [by apply ready_leaves|done].
Qed.

(** A reader takes at least one byte whenever the writer sleeps. *)
Definition reader_helps : Prop := ∀ s q,
  ready s q → unused (readers q) = false → 0 < p_len q →
  ∃ s' q' taken, psleep IO_Q (cond_of p) s = Some (false, s') ∧ ready s' q' ∧
    unused (readers q') = false ∧ contents q = taken ++ contents q' ∧ taken ≠ [].

Lemma taken_len q q' (taken : list Z) :
  pipe_wf q → pipe_wf q' → contents q = taken ++ contents q' → taken ≠ [] → p_len q' < p_len q.
Proof.
  intros Hq Hq' Hc Ht. rewrite (contents_len q), (contents_len q'), Hc, length_app by done.
  destruct taken; [done|]. cbn. lia.
Qed.

Lemma rest_readers q q' : pipe_rest q' = pipe_rest q → readers q' = readers q ∧ writers q' = writers q.
Proof. destruct q, q'. cbn. intros. by simplify_eq. Qed.

Lemma check_atomicity_completes (Henv : reader_helps) fuel : ∀ n s q,
  ready s q → unused (readers q) = false → n ≤ PIPESIZ → p_len q < Z.of_nat fuel →
  ∃ s' q' taken, check_atomicity fuel f this p n s = Some (None, s') ∧ ready s' q' ∧
    unused (readers q') = false ∧ contents q = taken ++ contents q'.
Proof.
  induction fuel as [|fuel IH]; intros n s q Hr Hu Hn Hfuel.
  { destruct (rd_wf _ _ Hr). lia. }
  destruct (getf_ready s q Hr) as (fr & Ef & Hfl & _). cbn [check_atomicity].
  rewrite (bind_run _ _ _ _ _ Ef), (bind_run _ _ _ _ _ (held_plain fr this s Hfl)).
  cbv beta iota. rewrite (bind_run _ _ _ _ _ (getpipe_ready s q Hr)).
  destruct (Z.ltb_spec (PIPESIZ - p_len q) n) as [Hlt|Hge].
  2: { exists s, q, []. by split. }
  rewrite Hu. destruct (wake_readers_ready s q Hr) as (s1 & E1 & _ & Hr1).
  rewrite (bind_run _ _ _ _ _ E1), (bind_run _ _ _ _ _ (getpipe_ready s1 q Hr1)).
  replace (PIPESIZ - p_len q <? n) with true by lia.
  destruct (Henv s1 q Hr1 Hu ltac:(lia)) as (s2 & q2 & t & E2 & Hr2 & Hu2 & Ht & Hne).
  rewrite (bind_run _ _ _ _ _ E2). cbv beta iota.
  pose proof (taken_len _ _ _ (rd_wf _ _ Hr) (rd_wf _ _ Hr2) Ht Hne).
  destruct (IH n s2 q2 Hr2 Hu2 Hn ltac:(lia)) as (s' & q' & taken & E & Hr' & Hu' & Hk).
  exists s', q', (t ++ taken). split; [done|]. split; [done|]. split; [done|].
  by rewrite Ht, Hk, <- app_assoc.
Qed.

Lemma write_loop_completes (Henv : reader_helps) (Hnd : has flags O_NDELAY = false) fuel :
  ∀ data w s q, ready s q → unused (readers q) = false →
  (2 * length data + (if (p_len q <? PIPESIZ)%Z then 0 else 1) ≤ fuel)%nat →
  ∃ s' q' taken, write_loop fuel f this p data w s
      = Some (inr (w + Z.of_nat (length data)), s') ∧ ready s' q' ∧
    contents q ++ data = taken ++ contents q'.
Proof.
  induction fuel as [|fuel IH]; intros [|c data] w s q Hr Hu Hfuel.
  1, 3: exists s, q, []; cbn; by rewrite Z.add_0_r, app_nil_r.
  { cbn in Hfuel. lia. }
  destruct (Z.ltb_spec (p_len q) PIPESIZ) as [Hlt|Hge].
  - destruct (write_chunk fuel c data w s q Hr Hlt) as (s1 & q1 & Hr1 & Hc1 & Hrest & E).
    destruct (rest_readers q q1 Hrest) as [Hrd _]. rewrite E.
    assert (0 < room q)%nat by (unfold room; lia).
    destruct (IH (drop (room q) (c :: data)) (w + Z.of_nat (length (c :: data))
      - Z.of_nat (length (drop (room q) (c :: data)))) s1 q1 Hr1)
      as (s' & q' & taken & E' & Hr' & Hk); [by rewrite Hrd| |].
    { rewrite length_drop. cbn [length] in *. case_bool; lia. }
    exists s', q', taken. split; [rewrite E'; by rewrite Z.sub_add|]. split; [done|].
    by rewrite <- Hk, Hc1, <- app_assoc, take_drop.
  - destruct (write_full fuel c data w s q Hr Hge) as (s1 & _ & Hr1 & E). rewrite E, Hu, Hnd.
    destruct (Henv s1 q Hr1 Hu) as (s2 & q2 & t & E2 & Hr2 & Hu2 & Ht & Hne).
    { unfold PIPESIZ in *. lia. }
    rewrite (bind_run _ _ _ _ _ E2). cbv beta iota.
    pose proof (taken_len _ _ _ (rd_wf _ _ Hr) (rd_wf _ _ Hr2) Ht Hne) as Hlt.
    pose proof (wf_len _ (rd_wf _ _ Hr)).
    destruct (IH (c :: data) w s2 q2 Hr2 Hu2) as (s' & q' & taken & E' & Hr' & Hk).
    { replace (p_len q2 <? PIPESIZ) with true by lia. cbn [length] in *. lia. }
    exists s', q', (t ++ taken). split; [done|]. split; [done|].
    by rewrite Ht, <- !app_assoc, Hk.
Qed.

(** C17: A blocking write completes.  If the pipe has readers and every sleep of the
    writer lets them take a byte, [pipe_write] returns with all the data written:
    its loops end, whatever the length of the data. *)
Theorem pipe_write_completes fuel data s q :
  reader_helps → has flags O_NDELAY = false → ready s q → unused (readers q) = false →
  2 * Z.of_nat (length data) + PIPESIZ < Z.of_nat fuel →
  ∃ s' q' taken, pipe_write fuel f data s = Some (Z.of_nat (length data), s') ∧
    ready s' q' ∧ contents q ++ data = taken ++ contents q'.
Proof.
  intros Henv Hnd Hr Hu Hfuel. rewrite (pipe_write_start fuel data s q Hr).
  pose proof (wf_len _ (rd_wf _ _ Hr)) as Hlen.
  assert (∃ s1 q1 t, (if (Z.of_nat (length data) >? 0) && (Z.of_nat (length data) <=? PIPE_BUF)
      then check_atomicity fuel f this p (Z.of_nat (length data)) else mret None) s
      = Some (None, s1) ∧ ready s1 q1 ∧ unused (readers q1) = false ∧
      contents q = t ++ contents q1) as (s1 & q1 & t & E1 & Hr1 & Hu1 & Ht).
  { destruct (_ && _) eqn:Hsmall; [|by exists s, q, []]. bool_to_prop.
    unfold PIPE_BUF, PIPESIZ in *. apply check_atomicity_completes; try done; unfold PIPESIZ; lia. }
  rewrite (bind_run _ _ _ _ _ E1). cbv beta iota.
  destruct (write_loop_completes Henv Hnd fuel data 0 s1 q1 Hr1 Hu1)
    as (s2 & q2 & taken & E2 & Hr2 & Hk); [unfold PIPESIZ in *; case_bool; lia|].
  rewrite (bind_run _ _ _ _ _ E2). cbv beta iota.
  destruct (finish_write s2 q2 (0 + Z.of_nat (length data)) Hr2) as (s3 & E3 & Hr3).
  exists s3, q2, (t ++ taken). split; [by rewrite E3|]. split; [done|].
  by rewrite Ht, <- !app_assoc, Hk.
Qed.
End connected.

(** ** Reading *)

Section reading.
Context `{PipeCalls} (f this p : ptr) (flags ino : Z) (inp : ptr) (outp : option ptr) (dos : Z).
Context (Hterm : has flags O_TTY = false).
Let rdy := ready f this p flags ino inp outp dos.

(** The other processes leave the file, the fifo and the pipe in place, and append
    bytes. *)
Definition writers_only : Prop := ∀ que cond s q b s',
  rdy s q → psleep que cond s = Some (b, s') →
  ∃ q' given, rdy s' q' ∧ contents q' = contents q ++ given.

(** Why a read may end before it has all its bytes: the pipe is empty, and there are
    no writers, or the read must not wait. *)
Definition read_ends (q : pipe) (out : list Z) : Prop :=
  contents q = [] ∧
  (no_writers (writers q) = true ∨ has flags O_NDELAY = true ∨
   (has dos FA_CHANGED = true ∧ out ≠ [])).

(** One round on a pipe with bytes. *)
Lemma read_chunk fuel n out s q :
  rdy s q → 0 < n → 0 < p_len q →
  ∃ s' q' l, rdy s' q' ∧ contents q = l ++ contents q' ∧
    Z.of_nat (length l) = Z.min n (p_len q) ∧ pipe_rest q' = pipe_rest q ∧
    read_loop (S fuel) f this p n out s =
    read_loop fuel f this p (n - Z.of_nat (length l)) (out ++ l) s'.
Proof.
  intros Hr Hn Hlen.
  destruct (getf_ready _ _ _ _ _ _ _ _ s q Hr) as (fr & Ef & Hfl & _).
  destruct (getfifo_ready _ _ _ _ _ _ _ _ s q Hr) as (t & Et & _).
  destruct (get_chunk q n) as [q' l] eqn:Eget.
  destruct (get_chunk_spec q n q' l (rd_wf _ _ _ _ _ _ _ _ _ _ Hr) Hn Eget)
    as (Hwf' & Hc' & Hl & Hrest).
  destruct (modpipe_ready _ _ _ _ _ _ _ _ s q q' Hr Hwf' Hrest) as (s1 & E1 & Hr1 & _).
  destruct (wake_writers_ready _ _ _ _ _ _ _ _ s1 q' Hr1) as (s2 & E2 & _ & Hr2).
  exists s2, q', l. do 4 (split; [done|]). cbn [read_loop].
  replace (n <=? 0) with false by lia.
  rewrite (bind_run _ _ _ _ _ Ef), (bind_run _ _ _ _ _ Et).
  rewrite (bind_run _ _ _ _ _ (getpipe_ready _ _ _ _ _ _ _ _ s q Hr)).
  replace (p_len q >? 0) with true by lia. rewrite Eget.
  by rewrite (bind_run _ _ _ _ _ E1), (bind_run _ _ _ _ _ E2).
Qed.

(** One round on an empty pipe. *)
Lemma read_empty fuel n out s q :
  rdy s q → 0 < n → p_len q ≤ 0 →
  ∃ s1, rdy s1 q ∧
  read_loop (S fuel) f this p n out s =
    if no_writers (writers q) then Some ((None, out), s)
    else if has flags O_NDELAY || (has dos FA_CHANGED && (Z.of_nat (length out) >? 0))
    then Some ((None, out), s)
    else (i ← psleep IO_Q (cond_of p);
          if i : bool then mret (Some EINTR, out)
          else read_loop fuel f this p n out : M pst (option Z * list Z)) s1.
Proof.
  intros Hr Hn Hlen.
  destruct (getf_ready _ _ _ _ _ _ _ _ s q Hr) as (fr & Ef & Hfl & _).
  destruct (getfifo_ready _ _ _ _ _ _ _ _ s q Hr) as (t & Et & _ & _ & Hdos).
  destruct (wake_writers_ready _ _ _ _ _ _ _ _ s q Hr) as (s1 & E1 & _ & Hr1).
  exists s1. split; [done|]. cbn [read_loop]. replace (n <=? 0) with false by lia.
  rewrite (bind_run _ _ _ _ _ Ef), (bind_run _ _ _ _ _ Et).
  rewrite (bind_run _ _ _ _ _ (getpipe_ready _ _ _ _ _ _ _ _ s q Hr)).
  replace (p_len q >? 0) with false by lia. rewrite Hfl, Hdos.
  destruct (no_writers (writers q)); [done|]. destruct (_ || _); [done|].
  rewrite (bind_run _ _ _ _ _ E1).
  rewrite (bind_run _ _ _ _ _ (getpipe_ready _ _ _ _ _ _ _ _ s1 q Hr1)).
  by rewrite Z.eqb_refl.
Qed.

Lemma contents_empty q : pipe_wf q → p_len q ≤ 0 → contents q = [].
Proof.
  intros Hwf Hl. apply length_zero_iff_nil. rewrite contents_length by done. lia.
Qed.

Lemma read_loop_fifo (Henv : writers_only) fuel : ∀ n out s q e out' s',
  rdy s q → 0 ≤ n → read_loop fuel f this p n out s = Some ((e, out'), s') →
  ∃ q' given l, rdy s' q' ∧ out' = out ++ l ∧ contents q ++ given = l ++ contents q' ∧
    Z.of_nat (length l) ≤ n ∧
    match e with
    | None => Z.of_nat (length l) = n ∨ read_ends q' out'
    | Some e => e < 0
    end.
Proof.
  induction fuel as [|fuel IH]; intros n out s q e out' s' Hr Hn Hw.
  all: destruct (decide (n = 0)) as [->|Hn0];
    [cbn in Hw; injection Hw as <- <- <-; exists q, [], []; rewrite !app_nil_r; cbn;
     do 4 (split; [done|]); by left|].
  { cbn in Hw. replace (n <=? 0) with false in Hw by lia. done. }
  destruct (Z.ltb_spec 0 (p_len q)) as [Hlt|Hge].
  - destruct (read_chunk fuel n out s q Hr ltac:(lia) Hlt)
      as (s1 & q1 & l1 & Hr1 & Hc1 & Hl1 & _ & E).
    rewrite E in Hw.
    destruct (IH (n - Z.of_nat (length l1)) _ s1 q1 _ _ _ Hr1 ltac:(lia) Hw)
      as (q' & given & l & Hr' & -> & Hk & Hle & He).
    exists q', given, (l1 ++ l). split; [done|]. split; [by rewrite app_assoc|].
    split; [by rewrite Hc1, <- !app_assoc, Hk|]. rewrite length_app.
    split; [lia|]. destruct e as [e|]; [done|]. destruct He; [left; lia|by right].
  - destruct (read_empty fuel n out s q Hr ltac:(lia) Hge) as (s1 & Hr1 & E). rewrite E in Hw.
    pose proof (contents_empty q (rd_wf _ _ _ _ _ _ _ _ _ _ Hr) Hge) as Hnil.
    destruct (no_writers (writers q)) eqn:Hnw.
    { injection Hw as <- <- <-. exists q, [], []. rewrite !app_nil_r.
      do 3 (split; [done|]). split; [cbn; lia|]. right. split; [done|by left]. }
    destruct (_ || _) eqn:Hnd.
    { injection Hw as <- <- <-. exists q, [], []. rewrite !app_nil_r.
      do 3 (split; [done|]). split; [cbn; lia|]. right. split; [done|]. right.
      apply orb_true_iff in Hnd as [Hnd|Hnd]; [by left|right]. bool_to_prop.
      split; [done|]. intros ->. done. }
    apply bind_inv in Hw as (i & s2 & Hs & Hw).
    destruct (Henv _ _ _ _ _ _ Hr1 Hs) as (q2 & g & Hr2 & Hg). destruct i.
    + injection Hw as <- <- <-. exists q2, g, []. rewrite app_nil_r.
      do 2 (split; [done|]). split; [by rewrite Hg|]. split; [cbn; lia|done].
    + destruct (IH _ _ s2 q2 _ _ _ Hr2 Hn Hw) as (q' & given & l & Hr' & Ho & Hk & Hle & He).
      exists q', (g ++ given), l. split; [done|]. split; [done|]. split; [|by split].
      by rewrite app_assoc, <- Hg, Hk.
Qed.

Context (Hend : (if has flags O_HEAD then outp else Some inp) = Some p).

(** C15: A pipe is a queue of bytes for its reader.  While the writers append bytes, as
    often as the reader sleeps, what is read and what stays in the pipe are together
    what was in it and what was appended, in order.  A result that is no error is the
    number of bytes; it is smaller than the request only if the pipe is empty, and has
    no writers or must not be waited for. *)
Theorem pipe_read_fifo fuel n s q z l s' :
  writers_only → rdy s q → 0 ≤ n → pipe_read fuel f n s = Some ((z, l), s') →
  ∃ q' given, leaves p s' q' ∧ contents q ++ given = l ++ contents q' ∧
    Z.of_nat (length l) ≤ n ∧
    (0 ≤ z → z = Z.of_nat (length l) ∧ (z = n ∨ read_ends q' l)).
Proof.
  intros Henv Hr Hn Hw.
  destruct (getf_ready _ _ _ _ _ _ _ _ s q Hr) as (fr & Ef & Hfl & Hino).
  destruct (getfifo_ready _ _ _ _ _ _ _ _ s q Hr) as (t & Et & Hi & Ho & _).
  unfold pipe_read in Hw. rewrite (bind_run _ _ _ _ _ Ef), Hino in Hw.
  rewrite (bind_run _ _ _ _ _ (rd_lookup _ _ _ _ _ _ _ _ _ _ Hr)) in Hw.
  cbv beta iota in Hw. rewrite (bind_run _ _ _ _ _ Et) in Hw.
  unfold read_end in Hw. rewrite Hfl, Hi, Ho, Hend in Hw.
  apply bind_inv in Hw as ([e out] & s1 & Hloop & Hw).
  destruct (read_loop_fifo Henv fuel n [] s q e out s1 Hr Hn Hloop)
    as (q' & given & l' & Hr' & -> & Hk & Hle & He).
  exists q', given. cbn [app] in *. destruct e as [e|].
  - injection Hw as <- <- <-. split; [by eapply ready_leaves|]. do 2 (split; [done|]). lia.
  - rewrite (bind_run _ _ _ _ _ (getpipe_ready _ _ _ _ _ _ _ _ s1 q' Hr')) in Hw.
    destruct (wake_writers_ready _ _ _ _ _ _ _ _ s1 q' Hr') as (s2 & E2 & _ & Hr2).
    assert (∃ s3, mwhen (p_len q' <? PIPESIZ) (pipe_wake_writers p) s1 = Some ((), s3) ∧
      rdy s3 q') as (s3 & E3 & Hr3) by (destruct (p_len q' <? PIPESIZ); eauto).
    rewrite (bind_run _ _ _ _ _ E3) in Hw. injection Hw as <- <- <-.
    split; [by eapply ready_leaves|]. do 2 (split; [done|]). intros _. split; [done|].
    destruct He; [by left|by right].
Qed.
End reading.

(** ** A write that must not wait *)

(** [O_NDELAY] is not looked at for a write of at most [PIPE_BUF] bytes: if the
    pipe has readers but no room for the data, the writer sleeps. *)
Theorem small_write_waits `{PipeCalls} f this p flags ino inp outp dos fuel data s q :
  has flags O_TTY = false → (if has flags O_HEAD then Some inp else outp) = Some p →
  ready f this p flags ino inp outp dos s q →
  0 < Z.of_nat (length data) ≤ PIPE_BUF → (room q < length data)%nat →
  unused (readers q) = false → has flags O_NDELAY = true →
  (∀ s1, psleep IO_Q (cond_of p) s1 = Some (true, s1)) →
  ∃ s', pipe_write (S fuel) f data s = Some (EINTR, s').
Proof.
  intros Hterm Hend Hr Hlen Hroom Hu _ Hsleep.
  rewrite (pipe_write_start f this p flags ino inp outp dos Hend _ data s q Hr).
  replace ((Z.of_nat (length data) >? 0) && (Z.of_nat (length data) <=? PIPE_BUF))
    with true by lia.
  destruct (getf_ready _ _ _ _ _ _ _ _ s q Hr) as (fr & Ef & Hfl & _).
  destruct (wake_readers_ready _ _ _ _ _ _ _ _ s q Hr) as (s1 & E1 & _ & Hr1).
  exists s1. cbn [check_atomicity]. rewrite (bind_run _ _ _ (Some EINTR) s1); [done|].
  rewrite (bind_run _ _ _ _ _ Ef), (bind_run _ _ _ _ _ (held_plain flags Hterm fr this s Hfl)).
  cbv beta iota. rewrite (bind_run _ _ _ _ _ (getpipe_ready _ _ _ _ _ _ _ _ s q Hr)).
  unfold room in Hroom. destruct (wf_len q (rd_wf _ _ _ _ _ _ _ _ _ _ Hr)).
  replace (PIPESIZ - p_len q <? Z.of_nat (length data)) with true by lia. rewrite Hu.
  rewrite (bind_run _ _ _ _ _ E1).
  rewrite (bind_run _ _ _ _ _ (getpipe_ready _ _ _ _ _ _ _ _ s1 q Hr1)).
  replace (PIPESIZ - p_len q <? Z.of_nat (length data)) with true by lia.
  by rewrite (bind_run _ _ _ _ _ (Hsleep s1)).
Qed.

(** ** A concrete pipe *)
Section example.

(** The file 70 is the master side of the fifo 80; it writes to the pipe 81, whose
    contents wrap around the end of the buffer, and reads from the pipe 82. *)
Definition ex_pipe (st len : Z) (buf : list Z) : pipe := mk_pipe 1 1 st len None None buf.
Definition ex_q : pipe := ex_pipe 4094 3 (7 :: replicate 4093 0 ++ [5; 6]).
Definition ex_full : pipe := ex_pipe 10 4096 (replicate 4096 9).
Definition ex_fifo : fifo :=
  mk_fifo [97] (mk_timeval 0 0) (mk_timeval 0 0) 0 4096 0 0 5 0 0 0 None 81 (Some 82%positive)
    None None.
Definition ex_pst (q81 q82 : pipe) : pst :=
  mk_pst (set_files {[ 70%positive := mk_fileptr 1 (O_HEAD + O_RDWR) 0 0 (mk_fcookie 0 0 5) true None ]}
            ex_fstate)
    {[ 81%positive := q81; 82%positive := q82 ]} {[ 80%positive := ex_fifo ]}
    (Some 80%positive) 6 (mk_timeval 0 0) (mk_timeval 0 0).

#[local] Instance ex_signals : SignalCalls := {|
  sendsig := λ _, mret 0; kernel_pterm := λ _ _, mret ();
  terminate := λ _ _ _, mret (); bombs := λ _, mret ();
  proc_ext_on_signal := λ _ _, mret (); proc_ext_on_stop := λ _ _, mret ();
  save_exception := λ _, mret (); sc_blocking := {| sleep_until := λ _ _, mret () |}
|}.

(** Every sleep is interrupted; or the readers empty the pipe 81. *)
Definition ex_interrupted : PipeCalls :=
  {| psleep := λ _ _, mret true; putchar := λ _ _, mret () |}.
Definition ex_emptied (s : pst) : pst :=
  match pipes s !! 81%positive with
  | Some q => set_pipes (<[81%positive := set_p_len 0 q]> (pipes s)) s
  | None => s
  end.
Definition ex_readers : PipeCalls :=
  {| psleep := λ _ _ s, Some (false, ex_emptied s); putchar := λ _ _, mret () |}.

Lemma ex_wf st len buf :
  0 ≤ st < PIPESIZ → 0 ≤ len ≤ PIPESIZ → length buf = 4096%nat → pipe_wf (ex_pipe st len buf).
Proof. by intros; split. Qed.

Lemma ex_q_wf : pipe_wf ex_q.
Proof. by apply ex_wf. Qed.
Lemma ex_full_wf : pipe_wf ex_full.
Proof. by apply ex_wf. Qed.

Lemma ex_ready p q q81 q82 :
  pipes (ex_pst q81 q82) !! p = Some q → pipe_wf q → p_rsel q = None → p_wsel q = None →
  ready 70 80 p (O_HEAD + O_RDWR) 5 81 (Some 82%positive) 0 (ex_pst q81 q82) q.
Proof.
  intros Hp Hwf Hrs Hws. split; [by eexists|done|by eexists|done|done| |].
  - exists ex_queues. apply ex_queues_ok.
  - intros x. rewrite Hrs, Hws. by intros [|].
Qed.

Lemma pipe_write_fifo_witness :
  ∃ s', @pipe_write ex_interrupted 10 70 [1; 2; 3] (ex_pst ex_q ex_q) = Some (3, s') ∧
    ∃ q' taken, pipes s' !! 81%positive = Some q' ∧
      [5; 6; 7; 1; 2; 3] = taken ++ contents q'.
Proof.
  destruct (@pipe_write ex_interrupted 10 70 [1; 2; 3] (ex_pst ex_q ex_q)) as [[z s']|] eqn:E.
  2: { by vm_compute in E. }
  assert (z = 3) as -> by (apply (f_equal (fmap fst)) in E; vm_compute in E; by injection E).
  exists s'. split; [done|].
  destruct (@pipe_write_fifo ex_interrupted 70 80 81 (O_HEAD + O_RDWR) 5 81 (Some 82%positive) 0
    eq_refl eq_refl 10 [1; 2; 3] (ex_pst ex_q ex_q) ex_q 3 s')
    as (q' & taken & k & [Hq _] & Hc & _ & Hz).
  - intros que cond s q b s1 Hr [= <- <-]. by exists q, [].
  - apply ex_ready; [done|apply ex_q_wf|done..].
  - exact E.
  - exists q', taken. split; [done|]. destruct (Hz ltac:(done)) as [Hk _].
    replace k with 3%nat in Hc by lia. exact Hc.
Defined.

Lemma pipe_write_atomic_witness :
  ∃ s' s1 q1 q', @pipe_write ex_interrupted 10 70 [1; 2; 3] (ex_pst ex_q ex_q) = Some (3, s') ∧
    pipes s' !! 81%positive = Some q' ∧
    ready 70 80 81 (O_HEAD + O_RDWR) 5 81 (Some 82%positive) 0 s1 q1 ∧
    contents q' = contents q1 ++ [1; 2; 3].
Proof.
  destruct (@pipe_write ex_interrupted 10 70 [1; 2; 3] (ex_pst ex_q ex_q)) as [[z s']|] eqn:E.
  2: { by vm_compute in E. }
  assert (z = 3) as -> by (apply (f_equal (fmap fst)) in E; vm_compute in E; by injection E).
  destruct (@pipe_write_atomic ex_interrupted 70 80 81 (O_HEAD + O_RDWR) 5 81 (Some 82%positive)
    0 eq_refl eq_refl 10 [1; 2; 3] (ex_pst ex_q ex_q) ex_q 3 s')
    as (s1 & q1 & _ & Hr1 & [(_ & q' & [Hq _] & Hc)|[? _]]).
  - intros que cond s q b s1 Hr [= <- <-]. by exists q.
  - apply ex_ready; [done|apply ex_q_wf|done..].
  - done.
  - exact E.
  - by exists s', s1, q1, q'.
  - lia.
Defined.

Lemma ex_readers_help :
  @reader_helps ex_readers 70 80 81 (O_HEAD + O_RDWR) 5 81 (Some 82%positive) 0.
Proof.
  intros s q Hr Hu Hl. set (q' := set_p_len 0 q).
  assert (pipe_wf q') as Hwf by (destruct (rd_wf _ _ _ _ _ _ _ _ _ _ Hr); by split).
  destruct (modpipe_ready _ _ _ _ _ _ _ _ s q q' Hr Hwf eq_refl) as (s' & _ & Hr' & Hs').
  exists s', q', (contents q). split.
  { cbn. unfold ex_emptied. rewrite (rd_pipe _ _ _ _ _ _ _ _ _ _ Hr). by rewrite Hs'. }
  split; [done|]. split; [done|]. split; [by rewrite app_nil_r|].
  intros Hc. rewrite (contents_len q), Hc in Hl; [done|apply Hr].
Qed.

Lemma pipe_write_completes_witness :
  ∃ s' q' taken, @pipe_write ex_readers 4200 70 [1; 2; 3] (ex_pst ex_full ex_q)
      = Some (3, s') ∧ contents ex_full ++ [1; 2; 3] = taken ++ contents q'.
Proof.
  destruct (@pipe_write_completes ex_readers 70 80 81 (O_HEAD + O_RDWR) 5 81 (Some 82%positive) 0
    eq_refl eq_refl 4200 [1; 2; 3] (ex_pst ex_full ex_q) ex_full)
    as (s' & q' & taken & E & _ & Hc).
  - apply ex_readers_help.
  - reflexivity.
  - apply ex_ready; [done|apply ex_full_wf|done..].
  - reflexivity.
  - by vm_compute.
  - by exists s', q', taken.
Defined.

Lemma pipe_read_fifo_witness :
  ∃ s' l, @pipe_read ex_interrupted 10 70 2 (ex_pst ex_q ex_q) = Some ((2, l), s') ∧
    ∃ q' given, contents ex_q ++ given = l ++ contents q' ∧ length l = 2%nat.
Proof.
  destruct (@pipe_read ex_interrupted 10 70 2 (ex_pst ex_q ex_q)) as [[[z l] s']|] eqn:E.
  2: { by vm_compute in E. }
  assert (z = 2) as ->.
  { apply (f_equal (fmap (λ x, x.1.1))) in E. vm_compute in E. by injection E. }
  exists s', l. split; [done|].
  destruct (@pipe_read_fifo ex_interrupted 70 80 82 (O_HEAD + O_RDWR) 5 81 (Some 82%positive) 0
    eq_refl 10 2 (ex_pst ex_q ex_q) ex_q 2 l s') as (q' & given & _ & Hc & _ & Hz).
  - intros que cond s q b s1 Hr [= <- <-]. exists q, []. by rewrite app_nil_r.
  - apply ex_ready; [done|apply ex_q_wf|done..].
  - done.
  - exact E.
  - exists q', given. split; [done|]. destruct (Hz ltac:(done)) as [Hl _]. lia.
Defined.

Lemma small_write_waits_witness :
  ∃ s', @pipe_write ex_interrupted 10 71 [1; 2; 3]
    (let s := ex_pst ex_full ex_q in
     set_pf (set_files {[ 71%positive := mk_fileptr 1 (O_HEAD + O_RDWR + O_NDELAY) 0 0
       (mk_fcookie 0 0 5) true None ]} (pf s)) s) = Some (EINTR, s').
Proof.
  apply (@small_write_waits ex_interrupted 71 80 81 (O_HEAD + O_RDWR + O_NDELAY) 5 81
    (Some 82%positive) 0 9 [1; 2; 3] _ ex_full); try reflexivity.
  2: done.
  2: vm_compute; lia.
  destruct (ex_ready 81 ex_full ex_full ex_q eq_refl ex_full_wf eq_refl eq_refl)
    as [_ H2 H3 H4 H5 H6 H7].
  split; [by eexists|done..].
Defined.
End example.
