(* ===== verification/PipeFs.v ===== *)
(** * The pipe file system (sys/pipefs.c)

    The fifos of u:\pipe are a list of structures; each has a pipe that its slaves
    read from and, unless it was created read-only, a second one that they write to.
    The creator of a fifo is the master: the flag O_HEAD of the fifo passes to the
    first file that is opened.  [readers] and [writers] count the open files at the
    ends of a pipe; the fifo is disposed of when the counts of the first pipe are
    zero. *)

From S2P Require Import Prelude CInt Errno LibStr Timeout Kernel ProcQueue Cred Signal Files FileDesc Pipe.

Definition PIPEDRV : Z := 33.
Definition ROOT_INODE : Z := 1.
Definition PIPE_RDEV : Z := 32256.
Definition NAME_MAX : Z := 14.
Definition S_IFIFO : Z := 40960.
Definition S_IFCHR : Z := 8192.
Definition S_IWUGO : Z := 146.
Definition DEFAULT_DIRMODE : Z := 493.
Definition FA_DIR : Z := 16.
Definition TOS_SEARCH : Z := 1.
Definition EMOUNT : Z := -200.
Definition ENMFILES : Z := -49.
Definition ESPIPE : Z := -6.
Definition ELOCKED : Z := -58.
Definition ENSLOCK : Z := -59.
Definition SIGHUP : Z := 1.
Definition T_XKEY : Z := 512.
Definition TS_ESC : Z := 255.
Definition F_GETLK : Z := 5.
Definition F_SETLK : Z := 6.
Definition F_SETLKW : Z := 7.
Definition FIONREAD : Z := 17921.
Definition FIONWRITE : Z := 17922.
Definition FIOEXCEPT : Z := 17925.
Definition TIOCSTART : Z := 21514.
Definition TIOCIBAUD : Z := 21522.
Definition TIOCGFLAGS : Z := 21526.
Definition TIOCOUTQ : Z := 21528.
Definition TIOCHPCL : Z := 21530.
Definition TIOCSSTATEB : Z := 21536.
Definition TIOCGVMIN : Z := 21537.
Definition TIOCSVMIN : Z := 21538.
Definition TCURSOFF : Z := 25344.
Definition TCURSON : Z := 25345.
Definition TCURSBLINK : Z := 25346.
Definition TCURSSTEADY : Z := 25347.
Definition TCURSSRATE : Z := 25348.
Definition TCURSGRATE : Z := 25349.

(** The address of [pipe_filesys], as the file system of a cookie. *)
Definition pipe_filesys : Z := 1048704.

(** ** Directories *)

Definition pipe_root (drv : Z) (fc : fcookie) : Z * fcookie :=
  if drv =? PIPEDRV then (E_OK, mk_fcookie pipe_filesys drv ROOT_INODE)
  else (EINTERNAL, set_fc_fs 0 fc).

(** The loop over the names. *)
Fixpoint lookup_loop (fuel : nat) (name : str) (o : option ptr) : M pst (option Z) :=
  match o, fuel with
  | None, _ => mret None
  | Some _, O => mpanic
  | Some b, S fuel =>
      r ← getfifo b;
      if strnicmp (ff_name r) name NAME_MAX =? 0 then mret (Some (ff_ino r))
      else lookup_loop fuel name (ff_next r)
  end.

(** The result and [*fc]. *)
Definition pipe_lookup (dir : fcookie) (name : str) (fc : fcookie) : M pst (Z * fcookie) :=
  if negb (fc_index dir =? ROOT_INODE) then mret (ENOTDIR, fc)
  else if (length name =? 0)%nat || bool_decide (name = [46]) then
    mret (E_OK, set_fc_index ROOT_INODE dir)
  else if strcmp name [46; 46] =? 0 then mret (EMOUNT, dir)
  else
    n ← mgets (λ s, size (fifos s));
    o ← mgets piperoot;
    i ← lookup_loop n name o;
    mret match i with
         | Some ino => (E_OK, mk_fcookie pipe_filesys (fc_dev dir) ino)
         | None => (ENOENT, fc)
         end.

(** ** Attributes *)

(** [XATTR]; the pair of the fields [mtime], [mdate] is the long that
    SET_XATTR_TD splits, and so for the others *)
Record pxattr := mk_pxattr {
  px_mode : Z;
  px_index : Z;
  px_dev : Z;
  px_rdev : Z;
  px_nlink : Z;
  px_uid : Z;
  px_gid : Z;
  px_size : Z;
  px_blksize : Z;
  px_nblocks : Z;
  px_mtime : Z;
  px_atime : Z;
  px_ctime : Z;
  px_attr : Z
}.

Definition pxattr_eta (r : pxattr) : pxattr :=
  mk_pxattr
    (px_mode r) (px_index r) (px_dev r) (px_rdev r) (px_nlink r) (px_uid
    r) (px_gid r) (px_size r) (px_blksize r) (px_nblocks r) (px_mtime r)
    (px_atime r) (px_ctime r) (px_attr r).
Definition set_px_mode : Z → pxattr → pxattr :=
  ltac:(build_setter pxattr_eta px_mode).
Definition set_px_index : Z → pxattr → pxattr :=
  ltac:(build_setter pxattr_eta px_index).
Definition set_px_dev : Z → pxattr → pxattr :=
  ltac:(build_setter pxattr_eta px_dev).
Definition set_px_rdev : Z → pxattr → pxattr :=
  ltac:(build_setter pxattr_eta px_rdev).
Definition set_px_nlink : Z → pxattr → pxattr :=
  ltac:(build_setter pxattr_eta px_nlink).
Definition set_px_uid : Z → pxattr → pxattr :=
  ltac:(build_setter pxattr_eta px_uid).
Definition set_px_gid : Z → pxattr → pxattr :=
  ltac:(build_setter pxattr_eta px_gid).
Definition set_px_size : Z → pxattr → pxattr :=
  ltac:(build_setter pxattr_eta px_size).
Definition set_px_blksize : Z → pxattr → pxattr :=
  ltac:(build_setter pxattr_eta px_blksize).
Definition set_px_nblocks : Z → pxattr → pxattr :=
  ltac:(build_setter pxattr_eta px_nblocks).
Definition set_px_mtime : Z → pxattr → pxattr :=
  ltac:(build_setter pxattr_eta px_mtime).
Definition set_px_atime : Z → pxattr → pxattr :=
  ltac:(build_setter pxattr_eta px_atime).
Definition set_px_ctime : Z → pxattr → pxattr :=
  ltac:(build_setter pxattr_eta px_ctime).
Definition set_px_attr : Z → pxattr → pxattr :=
  ltac:(build_setter pxattr_eta px_attr).

(** [STAT]; of the times the seconds, the other parts are zero *)
Record pstat := mk_pstat {
  st_dev : Z;
  st_ino : Z;
  st_mode : Z;
  st_nlink : Z;
  st_uid : Z;
  st_gid : Z;
  st_rdev : Z;
  st_atime : Z;
  st_mtime : Z;
  st_ctime : Z;
  st_size : Z;
  st_blocks : Z;
  st_blksize : Z
}.

Definition pstat_eta (r : pstat) : pstat :=
  mk_pstat
    (st_dev r) (st_ino r) (st_mode r) (st_nlink r) (st_uid r) (st_gid r)
    (st_rdev r) (st_atime r) (st_mtime r) (st_ctime r) (st_size r)
    (st_blocks r) (st_blksize r).
Definition set_st_dev : Z → pstat → pstat :=
  ltac:(build_setter pstat_eta st_dev).
Definition set_st_ino : Z → pstat → pstat :=
  ltac:(build_setter pstat_eta st_ino).
Definition set_st_mode : Z → pstat → pstat :=
  ltac:(build_setter pstat_eta st_mode).
Definition set_st_nlink : Z → pstat → pstat :=
  ltac:(build_setter pstat_eta st_nlink).
Definition set_st_uid : Z → pstat → pstat :=
  ltac:(build_setter pstat_eta st_uid).
Definition set_st_gid : Z → pstat → pstat :=
  ltac:(build_setter pstat_eta st_gid).
Definition set_st_rdev : Z → pstat → pstat :=
  ltac:(build_setter pstat_eta st_rdev).
Definition set_st_atime : Z → pstat → pstat :=
  ltac:(build_setter pstat_eta st_atime).
Definition set_st_mtime : Z → pstat → pstat :=
  ltac:(build_setter pstat_eta st_mtime).
Definition set_st_ctime : Z → pstat → pstat :=
  ltac:(build_setter pstat_eta st_ctime).
Definition set_st_size : Z → pstat → pstat :=
  ltac:(build_setter pstat_eta st_size).
Definition set_st_blocks : Z → pstat → pstat :=
  ltac:(build_setter pstat_eta st_blocks).
Definition set_st_blksize : Z → pstat → pstat :=
  ltac:(build_setter pstat_eta st_blksize).

(** The fields that are set before the first return. *)
Definition xattr_start (fc : fcookie) (x : pxattr) : pxattr :=
  set_px_blksize 1024 (set_px_nlink 1 (set_px_rdev (fc_dev fc)
    (set_px_dev (fc_dev fc) (set_px_index (fc_index fc) x)))).

(** The root directory; [started] is [rootproc->started.tv_sec]. *)
Definition xattr_root (stamp now started : Z) (x : pxattr) : pxattr :=
  set_px_nlink 2 (set_px_nblocks 0 (set_px_size 0 (set_px_attr FA_DIR
    (set_px_mode (Z.lor S_IFDIR DEFAULT_DIRMODE)
      (set_px_ctime (u32 started) (set_px_atime (u32 now) (set_px_mtime (u32 stamp)
        (set_px_gid 0 (set_px_uid 0 x))))))))).

Definition xattr_fifo (r : fifo) (now : Z) (x : pxattr) : pxattr :=
  let system := has (ff_dosflags r) FA_SYSTEM in
  let sz := if system then Z.quot PIPESIZ 4 else PIPESIZ in
  let attr := if has (ff_flags r) O_HEAD then Z.land (ff_dosflags r) (Z.lnot FA_RDONLY)
              else ff_dosflags r in
  set_px_nblocks (Z.quot sz 1024)
    (set_px_rdev (if system then Z.lor PIPE_RDEV 1 else Z.lor PIPE_RDEV 0) (set_px_size sz
      (set_px_attr attr (set_px_mode (ff_mode r) (set_px_gid (ff_gid r) (set_px_uid (ff_uid r)
        (set_px_ctime (u32 (tv_sec (ff_ctime r))) (set_px_atime (u32 now)
          (set_px_mtime (u32 (tv_sec (ff_mtime r))) x))))))))).

Definition pipe_getxattr (started : Z) (fc : fcookie) (x : pxattr) : M pst (Z * pxattr) :=
  let x := xattr_start fc x in
  if fc_index fc =? 0 then mret (ENOENT, x)
  else
    now ← mgets (λ s, tv_sec (xtime s));
    if fc_index fc =? ROOT_INODE then
      stamp ← mgets (λ s, tv_sec (pipestamp s));
      mret (E_OK, xattr_root stamp now started x)
    else
      o ← pipe_lookupi (fc_index fc);
      match o with
      | None => mret (ENOENT, x)
      | Some this => r ← getfifo this; mret (E_OK, xattr_fifo r now x)
      end.

Definition stat_start (fc : fcookie) : pstat :=
  mk_pstat (fc_dev fc) (u32 (fc_index fc)) 0 1 0 0 (fc_dev fc) 0 0 0 0 0 1024.

Definition stat_root (stamp now started : Z) (x : pstat) : pstat :=
  set_st_nlink 2 (set_st_ctime (u32 started) (set_st_mtime (u32 stamp) (set_st_atime (u32 now)
    (set_st_mode (Z.lor S_IFDIR DEFAULT_DIRMODE) x)))).

Definition stat_fifo (r : fifo) (now : Z) (x : pstat) : pstat :=
  let system := has (ff_dosflags r) FA_SYSTEM in
  let sz := if system then Z.quot PIPESIZ 4 else PIPESIZ in
  let mode := if has (ff_flags r) O_HEAD then Z.land (ff_mode r) (not32 S_IWUGO)
              else ff_mode r in
  set_st_blocks (Z.shiftl (Z.quot sz 1024) 1)
    (set_st_rdev (if system then Z.lor PIPE_RDEV 1 else Z.lor PIPE_RDEV 0) (set_st_size sz
      (set_st_mode mode (set_st_ctime (u32 (tv_sec (ff_ctime r)))
        (set_st_mtime (u32 (tv_sec (ff_mtime r))) (set_st_atime (u32 now)
          (set_st_gid (ff_gid r) (set_st_uid (ff_uid r) x)))))))).

Definition pipe_stat64 (started : Z) (fc : fcookie) : M pst (Z * pstat) :=
  let x := stat_start fc in
  if fc_index fc =? 0 then mret (ENOENT, x)
  else
    now ← mgets (λ s, tv_sec (xtime s));
    if fc_index fc =? ROOT_INODE then
      stamp ← mgets (λ s, tv_sec (pipestamp s));
      mret (E_OK, stat_root stamp now started x)
    else
      o ← pipe_lookupi (fc_index fc);
      match o with
      | None => mret (ENOENT, x)
      | Some this => r ← getfifo this; mret (E_OK, stat_fifo r now x)
      end.

(** [with_fifo fc e k]: [k] for the fifo of the cookie, [e] if there is none. *)
Definition with_fifo {A} (fc : fcookie) (e : A) (k : ptr → M pst A) : M pst A :=
  o ← pipe_lookupi (fc_index fc);
  match o with None => mret e | Some this => k this end.

Definition pipe_chown (fc : fcookie) (uid gid : Z) : M pst Z :=
  with_fifo fc EACCES (λ this,
    mwhen (negb (uid =? -1)) (modfifo this (set_ff_uid (u16 uid))) ;;
    mwhen (negb (gid =? -1)) (modfifo this (set_ff_gid (u16 gid))) ;;
    mret E_OK).

Definition pipe_chmode (fc : fcookie) (mode : Z) : M pst Z :=
  with_fifo fc EACCES (λ this,
    modfifo this (λ r, set_ff_mode
      (Z.lor (Z.land (ff_mode r) S_IFMT) (Z.land mode (not16 S_IFMT))) r) ;;
    mret E_OK).

(** The result and the string at [pathname]. *)
Definition pipe_getname (dir : fcookie) (size : Z) : M pst (Z * option str) :=
  if size <=? 0 then mret (EBADARG, None)
  else if (fc_index dir =? 0) || (fc_index dir =? ROOT_INODE) then mret (E_OK, Some [])
  else with_fifo dir (ENOENT, None) (λ this,
    r ← getfifo this;
    mret (if Z.of_nat (length (ff_name r)) <? size then (E_OK, Some (ff_name r))
          else (EBADARG, None))).

(** [struct dirstruct]: the fields that are used *)
Record dirstruct := mk_dir { d_fc : fcookie; d_index : Z; d_flags : Z }.

Definition pipe_opendir (d : dirstruct) : Z * dirstruct :=
  if negb (fc_index (d_fc d) =? ROOT_INODE) then (ENOTDIR, d)
  else (E_OK, mk_dir (d_fc d) 0 (d_flags d)).

(** [while (i && this) { i--; this = this->next; }] *)
Fixpoint skip_fifos (i : nat) (o : option ptr) : M pst (option ptr) :=
  match i, o with
  | S i, Some b => r ← getfifo b; skip_fifos i (ff_next r)
  | _, _ => mret o
  end.

(** The result, the directory, [*fc], the inode number in front of the name, and the
    name. *)
Record dir_entry := mk_entry {
  e_ret : Z; e_dir : dirstruct; e_fc : fcookie; e_ino : option Z; e_name : option str
}.

(** The name and the inode of the entry with number [i]. *)
Definition entry_at (i : Z) (d : dirstruct) : M pst (option (str * Z)) :=
  if i =? 0 then mret (Some ([46], ROOT_INODE))
  else if i =? 1 then mret (Some ([46; 46], fc_index (d_fc d)))
  else
    o ← mgets piperoot;
    o ← skip_fifos (Z.to_nat (i - 2)) o;
    match o with
    | None => mret None
    | Some this => r ← getfifo this; mret (Some (ff_name r, ff_ino r))
    end.

Definition pipe_readdir (d : dirstruct) (namelen : Z) (fc : fcookie) : M pst dir_entry :=
  let i := d_index d in
  let d := mk_dir (d_fc d) (u16 (i + 1)) (d_flags d) in
  e ← entry_at i d;
  match e with
  | None => mret (mk_entry ENMFILES d fc None None)
  | Some (name, ino) =>
      let fc := mk_fcookie pipe_filesys (fc_dev (d_fc d)) ino in
      let plain := has (d_flags d) TOS_SEARCH in
      let namelen := if plain then namelen else namelen - 4 in
      if negb plain && (namelen <=? 0) then mret (mk_entry EBADARG d fc None None)
      else
        let pre := if plain then None else Some ino in
        mret (if Z.of_nat (length name) <? u32 namelen
              then mk_entry E_OK d fc pre (Some name)
              else mk_entry EBADARG d fc pre None)
  end.

Definition pipe_pathconf (which : Z) : Z :=
  if which =? -1 then 8
  else if which =? 0 then 2147483647
  else if which =? 1 then 1
  else if which =? 2 then 255
  else if which =? 3 then NAME_MAX
  else if which =? 4 then PIPE_BUF
  else if which =? 5 then 1
  else if which =? 6 then 2
  else if which =? 7 then Z.lor (Z.shiftl 511 8) (Z.lor 1048576 67108864)
  else if which =? 8 then Z.lor 1 (Z.lor 2 (Z.lor 8 (Z.lor 16 (Z.lor 32 2048))))
  else ENOSYS.

(** ** Creation *)

Definition zero_pipe (readers writers : Z) (buf : list Z) : pipe :=
  mk_pipe readers writers 0 0 None None buf.

Definition wrap_ino (i : Z) : Z :=
  let i := s32 (i + 1) in if i =? 0 then ROOT_INODE + 1 else i.

(** The allocations of [pipe_creat], in order: what [kmalloc] returns, with the
    contents of the memory where they are not all set.  The result and [*fc]. *)
Definition pipe_creat (m_inp m_outp : option (ptr * list Z)) (m_b : option ptr)
    (m_tty : option (ptr * tty)) (dir : fcookie) (name : str) (mode attrib : Z)
    (fc : fcookie) : M pst (Z * fcookie) :=
  let selfread := negb (has attrib FA_HIDDEN) in
  let oneway := has attrib FA_RDONLY in
  let system := has attrib FA_SYSTEM in
  match m_inp, (if oneway then Some None else Some <$> m_outp), m_b,
        (if system then Some <$> m_tty else Some None) with
  | Some (inp, buf), Some outp, Some b, Some t =>
      match t with
      | Some (t, r) =>
          on_f (mmod (λ s, set_ttys (<[t := set_tt_use_cnt 0
            (set_tt_rsel None (set_tt_wsel None r))]> (ttys s)) s))
      | None => mret ()
      end ;;
      mmod (λ s, set_pipes (<[inp := zero_pipe (if selfread then 1 else VIRGIN_PIPE) 1 buf]>
        (pipes s)) s) ;;
      match outp with
      | Some (outp, buf) =>
          mmod (λ s, set_pipes (<[outp := zero_pipe 1 (if selfread then 1 else VIRGIN_PIPE) buf]>
            (pipes s)) s)
      | None => mret ()
      end ;;
      now ← mgets xtime;
      c ← on_k current_cred;
      pc ← on_k (getpc c);
      u ← on_k (getuc (ucr pc));
      ino ← mgets pipe_ino;
      mmod (set_pipe_ino (wrap_ino ino)) ;;
      root ← mgets piperoot;
      let fmode := Z.lor (if system then S_IFCHR else S_IFIFO) (Z.land mode (not16 S_IFMT)) in
      let flags := Z.lor (if system then O_TTY else 0) O_HEAD in
      let r := mk_fifo (take (Z.to_nat NAME_MAX) name) now now (s16 attrib) fmode (euid u) (egid u)
        ino flags 0 0 (fst <$> t) inp (fst <$> outp) root None in
      mmod (λ s, set_fifos (<[b := r]> (fifos s)) s) ;;
      mmod (set_piperoot (Some b)) ;;
      mmod (set_pipestamp now) ;;
      mret (E_OK, mk_fcookie pipe_filesys (fc_dev dir) ino)
  | _, _, _, _ => mret (ENOMEM, fc)
  end.

(** Is the device [pty_device]? *)
Definition pipe_getdev (fc : fcookie) : M pst bool :=
  with_fifo fc false (λ this, r ← getfifo this; mret (has (ff_flags r) O_TTY)).

(** ** Opening *)

Definition mod_file (f : ptr) (g : fileptr → fileptr) : M pst unit := on_f (modf f g).

(** One more reader, or writer. *)
Definition more (n : Z) : Z := if n =? VIRGIN_PIPE then 1 else s16 (n + 1).

Definition opens_read (rw : Z) : bool := (rw =? O_RDONLY) || (rw =? O_RDWR).
Definition opens_write (rw : Z) : bool := (rw =? O_WRONLY) || (rw =? O_RDWR).

(** The counts of a slave. *)
Definition count_slave (this : ptr) (rw : Z) : M pst unit :=
  r ← getfifo this;
  mwhen (opens_read rw) (modpipe (ff_inp r) (λ p, set_readers (more (readers p)) p)) ;;
  match ff_outp r with
  | Some o => mwhen (opens_write rw) (modpipe o (λ p, set_writers (more (writers p)) p))
  | None => mret ()
  end.

Definition pipe_open (f : ptr) : M pst Z :=
  fr ← on_f (getf f);
  let rwmode := Z.land (f_flags fr) O_RWMODE in
  with_fifo (f_fc fr) EACCES (λ p,
    r ← getfifo p;
    mod_file f (λ fr, set_f_flags (Z.lor (f_flags fr) (ff_flags r)) fr) ;;
    fr ← on_f (getf f);
    if has (ff_flags r) O_HEAD && negb (has (f_flags fr) O_CREAT) then mret EINTERNAL
    else
      mwhen (has (ff_flags r) O_HEAD)
        (modfifo p (λ r, set_ff_flags (Z.land (ff_flags r) (not16 O_HEAD)) r)) ;;
      mwhen (Z.land (f_flags fr) O_SHMODE =? O_COMPAT)
        (mod_file f (λ fr, set_f_flags (Z.lor (Z.land (f_flags fr) (not16 O_SHMODE)) O_DENYNONE) fr)) ;;
      d ← on_f (denyshare (ff_open r) f);
      if negb (d =? 0) then mret EACCES
      else
        mod_file f (set_f_next (ff_open r)) ;;
        modfifo p (set_ff_open (Some f)) ;;
        fr ← on_f (getf f);
        mwhen (negb (has (f_flags fr) O_HEAD)) (count_slave p rwmode) ;;
        mod_file f (set_f_devinfo (match ff_tty r with Some t => Z.pos t | None => 0 end)) ;;
        now ← mgets xtime;
        modfifo p (set_ff_mtime now) ;;
        mret E_OK).

(** ** Closing *)

(** [x = *old_x; while (x && x != f) ...; assert (x); *old_x = f->next]: [prev] is
    the file whose link is [*old_x], [None] for the link of the fifo. *)
Fixpoint unlink_file (fuel : nat) (this f : ptr) (prev x : option ptr) : M pst unit :=
  match x, fuel with
  | None, _ => mpanic
  | Some _, O => mpanic
  | Some x, S fuel =>
      r ← on_f (getf x);
      if bool_decide (x = f) then
        match prev with
        | None => modfifo this (set_ff_open (f_next r))
        | Some o => mod_file o (set_f_next (f_next r))
        end
      else unlink_file fuel this f (Some x) (f_next r)
  end.

Definition wake_end (rfirst : bool) (p : ptr) : M pst unit :=
  on_k (wake IO_Q (cond_of p)) ;;
  r ← getpipe p;
  wakeselect_opt (if rfirst then p_rsel r else p_wsel r) ;;
  r ← getpipe p;
  wakeselect_opt (if rfirst then p_wsel r else p_rsel r).

(** One reader, or writer, less at an end that may not exist. *)
Definition less_readers (o : option ptr) : M pst unit :=
  match o with
  | Some p => modpipe p (λ r, set_readers (s16 (readers r - 1)) r)
  | None => mret ()
  end.
Definition less_writers (o : option ptr) : M pst unit :=
  match o with
  | Some p => modpipe p (λ r, set_writers (s16 (writers r - 1)) r)
  | None => mret ()
  end.

(** If a master was the last writer of a terminal, the slaves hear of it. *)
Definition hangup_slaves (fr : fileptr) (this : ptr) (o : option ptr) : M pst unit :=
  match o with
  | Some p =>
      r ← getpipe p;
      if (writers r =? 0) && is_terminal fr && has (f_flags fr) O_HEAD then
        t ← fifo_tty this;
        mwhen (negb (tt_pgrp t =? 0)) (on_k (killgroup (tt_pgrp t) SIGHUP 1) ;; mret ())
      else mret ()
  | None => mret ()
  end.

(** The last close of a file. *)
Definition close_last (f this : ptr) (cpid : Z) : M pst unit :=
  r ← getfifo this;
  wake_end true (ff_inp r) ;;
  match ff_outp r with Some o => wake_end false o | None => mret () end ;;
  n ← mgets (λ s, size (files (pf s)));
  unlink_file n this f None (ff_open r) ;;
  fr ← on_f (getf f);
  let rwmode := Z.land (f_flags fr) O_RWMODE in
  mwhen (opens_read rwmode) (less_readers (read_end fr r)) ;;
  mwhen (opens_write rwmode) (
    less_writers (write_end fr r) ;;
    hangup_slaves fr this (write_end fr r)) ;;
  mwhen (has (f_flags fr) O_HEAD && negb (has (ff_dosflags r) FA_HIDDEN))
    (less_readers (Some (ff_inp r))) ;;
  mwhen (has (f_flags fr) O_LOCK && (ff_lockpid r =? cpid)) (
    modfifo this (λ r, set_ff_flags (Z.land (ff_flags r) (not16 O_LOCK)) r) ;;
    on_k (wake IO_Q (cond_of this))).

(** [for (old = piperoot; old->next != this; old = old->next) ...;
    old->next = this->next;] *)
Fixpoint unlink_fifo (fuel : nat) (this : ptr) (next old : option ptr) : M pst unit :=
  match old, fuel with
  | Some o, S fuel =>
      r ← getfifo o;
      if bool_decide (ff_next r = Some this) then modfifo o (set_ff_next next)
      else unlink_fifo fuel this next (ff_next r)
  | _, _ => mpanic
  end.

Definition dispose (this : ptr) : M pst unit :=
  r ← getfifo this;
  root ← mgets piperoot;
  (if bool_decide (root = Some this) then mmod (set_piperoot (ff_next r))
   else n ← mgets (λ s, size (fifos s)); unlink_fifo n this (ff_next r) root) ;;
  mmod (λ s, set_pipes (delete (ff_inp r) (pipes s)) s) ;;
  match ff_outp r with
  | Some o => mmod (λ s, set_pipes (delete o (pipes s)) s)
  | None => mret ()
  end ;;
  match ff_tty r with
  | Some t => on_f (mmod (λ s, set_ttys (delete t (ttys s)) s))
  | None => mret ()
  end ;;
  mmod (λ s, set_fifos (delete this (fifos s)) s) ;;
  now ← mgets xtime;
  mmod (set_pipestamp now).

Definition unvirgin (p : pipe) : pipe :=
  let p := if readers p =? VIRGIN_PIPE then set_readers 0 p else p in
  if writers p =? VIRGIN_PIPE then set_writers 0 p else p.

Definition pipe_close (f : ptr) (cpid : Z) : M pst Z :=
  fr ← on_f (getf f);
  with_fifo (f_fc fr) EBADF (λ this,
    mwhen (f_links fr <=? 0) (close_last f this cpid) ;;
    r ← getfifo this;
    modpipe (ff_inp r) unvirgin ;;
    p ← getpipe (ff_inp r);
    mwhen ((readers p <=? 0) && (writers p <=? 0)) (dispose this) ;;
    mret E_OK).

(** ** Selecting *)

(** The terminal is told of the process of a slave. *)
Definition tell_tty (fr : fileptr) (r : fifo) (g : tty → tty) : M pst unit :=
  if is_terminal fr && negb (has (f_flags fr) O_HEAD) then
    match ff_tty r with Some t => on_f (modt t g) | None => mpanic end
  else mret ().

(** Can the reader of this end read something, if the pipe has [n] bytes? *)
Definition readable (fr : fileptr) (this : ptr) (n : Z) : M pst bool :=
  if n >? 0 then
    if is_terminal fr then
      t ← fifo_tty this;
      mret (if has (f_flags fr) O_HEAD then negb (has (tt_state t) TS_HOLD)
            else n >=? tt_vmin t * 4)
    else mret true
  else mret false.

Definition writable (fr : fileptr) (this : ptr) (n : Z) : M pst bool :=
  if n <? PIPESIZ then
    if is_terminal fr && negb (has (f_flags fr) O_HEAD) then
      t ← fifo_tty this; mret (negb (has (tt_state t) TS_HOLD))
    else mret true
  else mret false.

Definition pipe_select (f proc : ptr) (mode : Z) : M pst Z :=
  fr ← on_f (getf f);
  with_fifo (f_fc fr) EBADF (λ this,
    r ← getfifo this;
    if mode =? O_RDONLY then
      match read_end fr r with
      | None => mret 0
      | Some p =>
          q ← getpipe p;
          b ← readable fr this (p_len q);
          if b || (writers q <=? 0) then mret 1
          else
            match p_rsel q with
            | Some _ => mret 2
            | None =>
                modpipe p (set_p_rsel (Some proc)) ;;
                tell_tty fr r (set_tt_rsel (Some proc)) ;; mret 0
            end
      end
    else if mode =? O_WRONLY then
      match write_end fr r with
      | None => mret 0
      | Some p =>
          q ← getpipe p;
          b ← writable fr this (p_len q);
          if b || (readers q <=? 0) then mret 1
          else
            match p_wsel q with
            | Some _ => mret 2
            | None =>
                modpipe p (set_p_wsel (Some proc)) ;;
                tell_tty fr r (set_tt_wsel (Some proc)) ;; mret 0
            end
      end
    else mret 0).

Definition pipe_unselect (f proc : ptr) (mode : Z) : M pst unit :=
  fr ← on_f (getf f);
  with_fifo (f_fc fr) () (λ this,
    r ← getfifo this;
    if mode =? O_RDONLY then
      match read_end fr r with
      | None => mret ()
      | Some p =>
          q ← getpipe p;
          if bool_decide (p_rsel q = Some proc) then
            modpipe p (set_p_rsel None) ;; tell_tty fr r (set_tt_rsel None)
          else mret ()
      end
    else if mode =? O_WRONLY then
      match write_end fr r with
      | None => mret ()
      | Some p =>
          q ← getpipe p;
          if bool_decide (p_wsel q = Some proc) then
            modpipe p (set_p_wsel None) ;; tell_tty fr r (set_tt_wsel None)
          else mret ()
      end
    else mret ()).

(** ** Control *)

(** The argument of an ioctl: what is at [buf], as the command reads and writes it. *)
Inductive iobuf :=
  | IoNull
  | IoLong (l : Z)
  | IoLongs (l0 l1 : Z)
  | IoShort (v : Z)
  | IoShorts (v0 v1 : Z)
  | IoLock (l : ilock).

Definition held_tty (fr : fileptr) (this : ptr) : M pst bool :=
  t ← fifo_tty this; mret (has (tt_state t) TS_HOLD).

(** The number of bytes that FIONREAD reports for the end [p]. *)
Definition fionread (fr : fileptr) (this p : ptr) : M pst Z :=
  q ← getpipe p;
  if p_len q =? 0 then mret (if no_writers (writers q) then -1 else 0)
  else if is_terminal fr then
    if negb (has (f_flags fr) O_HEAD) then mret (Z.shiftr (p_len q) 2)
    else h ← held_tty fr this; mret (if h : bool then 0 else p_len q)
  else mret (p_len q).

Definition fionwrite (fr : fileptr) (this p : ptr) : M pst Z :=
  q ← getpipe p;
  if readers q <=? 0 then mret (-1)
  else
    let r := PIPESIZ - p_len q in
    if is_terminal fr then
      if has (f_flags fr) O_HEAD then mret (Z.shiftr r 2)
      else h ← held_tty fr this; mret (if h : bool then 0 else r)
    else mret r.

Definition tiocoutq (fr : fileptr) (p : ptr) : M pst Z :=
  q ← getpipe p;
  mret (if readers q <=? 0 then -1
        else if is_terminal fr && has (f_flags fr) O_HEAD then Z.shiftr (p_len q) 2
        else p_len q).

(** The result for an end that may not exist. *)
Definition report (o : option ptr) (e : Z) (c : ptr → M pst Z) (buf : iobuf) :
    M pst (Z * iobuf) :=
  match o with
  | None => mret (e, buf)
  | Some p => n ← c p; mret (E_OK, IoLong n)
  end.

Definition running_pid : M pst Z :=
  c ← on_k (mgets curproc); r ← on_k (getp c); mret (pid r).

Definition clear_pipe (p : pipe) : pipe := set_p_len 0 (set_p_start 0 p).

Definition flush_inp (r : fifo) : M pst unit :=
  modpipe (ff_inp r) clear_pipe ;; on_k (wake IO_Q (cond_of (ff_inp r))).

Definition flush_outp (fr : fileptr) (this : ptr) (r : fifo) : M pst unit :=
  match ff_outp r with
  | None => mret ()
  | Some o =>
      modpipe o clear_pipe ;;
      h ← (if negb (is_terminal fr) || has (f_flags fr) O_HEAD then mret false
           else held_tty fr this);
      if h : bool then mret ()
      else on_k (wake IO_Q (cond_of o)) ;; q ← getpipe o; wakeselect_opt (p_wsel q)
  end.

(** The bits of [which]. *)
Definition tiocflush (fr : fileptr) (this : ptr) (r : fifo) (buf : iobuf) : M pst unit :=
  which ← (match buf with IoNull => mret 3 | IoLong w => mret w | _ => mpanic end);
  let flushtype := if negb (has which 3) then 3 else which in
  mwhen (has flushtype 1) (flush_inp r) ;;
  mwhen (has flushtype 2) (flush_outp fr this r).

Definition tiocstart (fr : fileptr) (r : fifo) : M pst unit :=
  if is_terminal fr && negb (has (f_flags fr) O_HEAD) then
    match ff_outp r with
    | None => mret ()
    | Some o => q ← getpipe o; mwhen (p_len q >? 0) (wakeselect_opt (p_rsel q))
    end
  else mret ().

(** The new terminal state for TIOCSSTATEB. *)
Definition new_state (t : tty) (value mask : Z) : Z :=
  let mask := Z.land mask (Z.lnot (Z.lor TS_HOLD (Z.lor TS_BLIND TS_HPCL))) in
  let mask := if has (tt_sg_flags t) T_XKEY then mask else Z.land mask (Z.lnot TS_ESC) in
  if value =? -1 then tt_state t
  else s16 (Z.lor (Z.land (tt_state t) (Z.lnot mask)) (Z.land value mask)).

(** A command for terminals. *)
Definition for_tty (fr : fileptr) (r : fifo) (buf : iobuf) (k : ptr → tty → M pst (Z * iobuf)) :
    M pst (Z * iobuf) :=
  match is_terminal fr, ff_tty r with
  | true, Some t => tt ← on_f (gett t); k t tt
  | _, _ => mret (ENOSYS, buf)
  end.

Definition tiocsstateb (fr : fileptr) (r : fifo) (buf : iobuf) : M pst (Z * iobuf) :=
  match buf with
  | IoLongs value mask =>
      for_tty fr r buf (λ t tt,
        let st := new_state tt value mask in
        on_f (modt t (set_tt_state st)) ;; mret (E_OK, IoLongs st mask))
  | _ => mpanic
  end.

Definition tiocgvmin (fr : fileptr) (r : fifo) (buf : iobuf) : M pst (Z * iobuf) :=
  for_tty fr r buf (λ t tt, mret (E_OK, IoShorts (tt_vmin tt) (tt_vtime tt))).

Definition tiocsvmin (fr : fileptr) (r : fifo) (buf : iobuf) : M pst (Z * iobuf) :=
  match buf with
  | IoShorts v0 v1 =>
      for_tty fr r buf (λ t tt,
        let v0 := if v0 >? Z.quot PIPESIZ 4 then Z.quot PIPESIZ 4 else v0 in
        on_f (modt t (λ tt, set_tt_vtime v1 (set_tt_vmin v0 tt))) ;; mret (E_OK, IoShorts v0 v1))
  | _ => mpanic
  end.

Section control.
Context `{PipeCalls}.

(** [while (this->flags & O_LOCK) ...]: the error, if any. *)
Fixpoint wait_lock (fuel : nat) (this : ptr) (mode ltype : Z) : M pst (option Z) :=
  match fuel with
  | O => mpanic
  | S fuel =>
      r ← getfifo this;
      c ← running_pid;
      if has (ff_flags r) O_LOCK && negb (ff_lockpid r =? c) then
        if (mode =? F_SETLKW) && negb (ltype =? F_UNLCK) then
          i ← psleep IO_Q (cond_of this);
          if i : bool then mret (Some EINTR) else wait_lock fuel this mode ltype
        else mret (Some ELOCKED)
      else mret None
  end.

Definition setlk (fuel : nat) (f this : ptr) (mode ltype : Z) : M pst Z :=
  e ← wait_lock fuel this mode ltype;
  match e with
  | Some e => mret e
  | None =>
      if ltype =? F_UNLCK then
        fr ← on_f (getf f);
        if negb (has (f_flags fr) O_LOCK) then mret ENSLOCK
        else
          modfifo this (λ r, set_ff_lockpid 0
            (set_ff_flags (Z.land (ff_flags r) (not16 O_LOCK)) r)) ;;
          mod_file f (λ fr, set_f_flags (Z.land (f_flags fr) (not16 O_LOCK)) fr) ;;
          on_k (wake IO_Q (cond_of this)) ;;
          mret E_OK
      else
        c ← running_pid;
        modfifo this (λ r, set_ff_lockpid c (set_ff_flags (Z.lor (ff_flags r) O_LOCK) r)) ;;
        mod_file f (λ fr, set_f_flags (Z.lor (f_flags fr) O_LOCK) fr) ;;
        mret E_OK
  end.

Definition getlk (r : fifo) (l : ilock) : ilock :=
  if has (ff_flags r) O_LOCK then mk_ilock F_WRLCK 0 0 (ff_lockpid r)
  else mk_ilock F_UNLCK (l_start l) (l_len l) (l_pid l).

(** The cursor commands: escape sequences of TOSWIN. *)
Definition cursor (f this : ptr) (mode : Z) (buf : iobuf) : M pst unit :=
  putchar f 27 ;;
  if mode =? TCURSOFF then putchar f 102
  else if mode =? TCURSON then putchar f 101
  else if (mode =? TCURSSRATE) || (mode =? TCURSBLINK) then
    (if mode =? TCURSSRATE then
       match buf with IoShort v => modfifo this (set_ff_cursrate v) | _ => mpanic end
     else mret ()) ;;
    putchar f 116 ;;
    r ← getfifo this; putchar f (ff_cursrate r + 32)
  else putchar f 116 ;; putchar f 32.

(** The result and the new contents of the buffer. *)
Definition pipe_ioctl (fuel : nat) (f : ptr) (mode : Z) (buf : iobuf) : M pst (Z * iobuf) :=
  fr ← on_f (getf f);
  with_fifo (f_fc fr) (EBADF, buf) (λ this,
    r ← getfifo this;
    if mode =? FIONREAD then report (read_end fr r) ENOSYS (fionread fr this) buf
    else if mode =? FIONWRITE then report (write_end fr r) ENOSYS (fionwrite fr this) buf
    else if mode =? FIOEXCEPT then mret (E_OK, IoLong 0)
    else if (mode =? F_SETLK) || (mode =? F_SETLKW) then
      match buf with
      | IoLock l => e ← setlk fuel f this mode (l_type l); mret (e, buf)
      | _ => mpanic
      end
    else if mode =? F_GETLK then
      match buf with IoLock l => mret (E_OK, IoLock (getlk r l)) | _ => mpanic end
    else if mode =? TIOCSSTATEB then tiocsstateb fr r buf
    else if mode =? TIOCHPCL then mret (E_OK, buf)
    else if mode =? TIOCGVMIN then tiocgvmin fr r buf
    else if mode =? TIOCSVMIN then tiocsvmin fr r buf
    else if mode =? TIOCSTART then tiocstart fr r ;; mret (E_OK, buf)
    else if mode =? TIOCFLUSH then tiocflush fr this r buf ;; mret (E_OK, buf)
    else if mode =? TIOCOUTQ then report (write_end fr r) EBADF (tiocoutq fr) buf
    else if (mode =? TIOCIBAUD) || (mode =? TIOCOBAUD) then mret (E_OK, IoLong (-1))
    else if mode =? TIOCGFLAGS then mret (E_OK, IoShort 0)
    else if (TCURSOFF <=? mode) && (mode <=? TCURSSRATE) then
      cursor f this mode buf ;; mret (E_OK, buf)
    else if mode =? TCURSGRATE then mret (ff_cursrate r, IoShort (ff_cursrate r))
    else mret (ENOSYS, buf)).
End control.

Definition pipe_lseek (f : ptr) (pos whence : Z) : Z := ESPIPE.

(** The result and the long at [timeptr]. *)
Definition pipe_datime (f : ptr) (time flag : Z) : M pst (Z * Z) :=
  fr ← on_f (getf f);
  with_fifo (f_fc fr) (EBADF, time) (λ this,
    if flag =? 0 then r ← getfifo this; mret (E_OK, tv_sec (ff_mtime r))
    else if flag =? 1 then
      modfifo this (λ r, set_ff_mtime (mk_timeval time (tv_usec (ff_mtime r))) r) ;;
      mret (E_OK, time)
    else mret (EBADARG, time)).

(** ** The list of fifos *)

Lemma len_left_neg n : (Z.of_nat (S n) - 1 <? 0) = false.
Proof. apply Z.ltb_ge. lia. Qed.
Lemma len_left_pos n : (Z.of_nat (S n) - 1 >=? 0) = true.
Proof. rewrite Z.geb_leb. apply Z.leb_le. lia. Qed.

Lemma strnicmp_eq s1 : ∀ s2 n, chars s1 → chars s2 →
  strnicmp s1 s2 (Z.of_nat n) = 0 ↔ strlwr (take n s1) = strlwr (take n s2).
Proof.
  induction s1 as [|c s1 IH]; intros s2 n H1 H2.
  - destruct n as [|n]; [done|]. destruct s2 as [|c2 s2].
    { cbn -[Z.of_nat Z.sub Z.ltb Z.geb]. by rewrite len_left_neg. }
    apply chars_cons in H2 as [Hc2 H2]. apply tolower_range in Hc2. cbn -[Z.of_nat Z.sub Z.ltb Z.geb].
    rewrite len_left_neg. change (tolower 0) with 0.
    replace (0 =? tolower c2) with false by lia. cbn -[s8].
    split; [|done]. intros E. exfalso. revert E Hc2. change (s8 0) with 0. wrap_lia.
  - destruct n as [|n]; [done|].
    apply chars_cons in H1 as [Hc H1]. apply tolower_range in Hc. cbn -[Z.of_nat Z.sub Z.ltb Z.geb].
    rewrite len_left_neg.
    rewrite len_left_pos. cbn -[Z.of_nat Z.sub Z.ltb Z.geb].
    replace (Z.of_nat (S n) - 1) with (Z.of_nat n) by lia.
    destruct s2 as [|c2 s2]; cbn -[Z.of_nat Z.sub Z.ltb Z.geb].
    + change (tolower 0) with 0. replace (tolower c =? 0) with false by lia.
      split; [|done]. intros E. exfalso. revert E Hc. change (s8 0) with 0. wrap_lia.
    + apply chars_cons in H2 as [Hc2 H2]. apply tolower_range in Hc2.
      destruct (Z.eqb_spec (tolower c) (tolower c2)) as [->|Hne].
      * rewrite IH by done. unfold strlwr. cbn. split; congruence.
      * unfold strlwr. cbn. split; [|congruence]. intros E%s8_inj; [done|lia..].
Qed.

(** The list of fifos that starts at [o]. *)
Fixpoint fifo_list (m : gmap ptr fifo) (o : option ptr) (l : list ptr) : Prop :=
  match l with
  | [] => o = None
  | b :: l => o = Some b ∧ ∃ r, m !! b = Some r ∧ fifo_list m (ff_next r) l
  end.

Lemma fifo_list_some m o l b : fifo_list m o l → b ∈ l → is_Some (m !! b).
Proof.
  revert o. induction l as [|x l IH]; intros o; [by intros _ ?%not_elem_of_nil|].
  intros (-> & r & Hr & Hl) [->|Hb]%elem_of_cons; [by exists r|by eapply IH].
Qed.

Lemma fifo_list_size m o l : fifo_list m o l → NoDup l → (length l ≤ size m)%nat.
Proof.
  intros Hl Hnd. rewrite <- (size_list_to_set (C := gset ptr)) by done.
  rewrite <- size_dom. apply subseteq_size. intros p Hp%elem_of_list_to_set.
  apply elem_of_dom. by eapply fifo_list_some.
Qed.

(** The list depends on the links only. *)
Lemma fifo_list_frame m m' o l :
  (∀ b, b ∈ l → ff_next <$> m' !! b = ff_next <$> m !! b) →
  fifo_list m o l → fifo_list m' o l.
Proof.
  revert o. induction l as [|x l IH]; intros o Hm; [done|].
  intros (-> & r & Hr & Hl). split; [done|].
  pose proof (Hm x ltac:(by left)) as Hx. rewrite Hr in Hx.
  destruct (m' !! x) as [r'|]; [|done]. exists r'. split; [done|]. injection Hx as ->.
  apply IH; [|done]. intros b Hb. apply Hm. by right.
Qed.

(** The pipe file system: [L] are its fifos. *)
Record fs_ok (s : pst) (L : list ptr) : Prop := {
  fs_list : fifo_list (fifos s) (piperoot s) L;
  fs_nodup : NoDup L;
  fs_ino b1 b2 r1 r2 : b1 ∈ L → b2 ∈ L → fifos s !! b1 = Some r1 → fifos s !! b2 = Some r2 →
    ff_ino r1 = ff_ino r2 → b1 = b2;
  fs_names b r : b ∈ L → fifos s !! b = Some r →
    chars (ff_name r) ∧ Z.of_nat (length (ff_name r)) ≤ NAME_MAX
}.

Section lookup.
Context (s : pst) (L : list ptr).

Lemma getfifo_run b r : fifos s !! b = Some r → getfifo b s = Some (r, s).
Proof. intros Hb. by apply (mderef_run (λ s, fifos s !! b)). Qed.

(** The first fifo of a list with a property. *)
Definition first_with (P : fifo → bool) (l : list ptr) : option ptr :=
  snd <$> list_find (λ b, from_option P false (fifos s !! b) = true) l.

Lemma first_with_cons P b r l :
  fifos s !! b = Some r →
  first_with P (b :: l) = if P r then Some b else first_with P l.
Proof.
  intros Hb. unfold first_with. cbn. rewrite Hb. cbn. destruct (P r); [by rewrite decide_True|].
  rewrite decide_False by done. destruct (list_find _ l) as [[]|]; done.
Qed.

Lemma lookupi_loop_ok ino l : ∀ o fuel,
  fifo_list (fifos s) o l → (length l ≤ fuel)%nat →
  lookupi_loop fuel ino o s = Some (first_with (λ r, ff_ino r =? ino) l, s).
Proof.
  induction l as [|b l IH]; intros o fuel.
  { intros -> _. by destruct fuel. }
  intros (-> & r & Hr & Hl) Hf. destruct fuel as [|fuel]; [cbn in Hf; lia|].
  cbn [lookupi_loop]. rewrite (bind_run _ _ _ _ _ (getfifo_run _ _ Hr)).
  rewrite (first_with_cons _ _ _ _ Hr). destruct (ff_ino r =? ino); [done|].
  apply IH; [done|cbn in Hf; lia].
Qed.

Lemma lookup_loop_ok name l : ∀ o fuel,
  fifo_list (fifos s) o l → (length l ≤ fuel)%nat →
  lookup_loop fuel name o s =
    Some (b ← first_with (λ r, strnicmp (ff_name r) name NAME_MAX =? 0) l;
          ff_ino <$> fifos s !! b, s).
Proof.
  induction l as [|b l IH]; intros o fuel.
  { intros -> _. by destruct fuel. }
  intros (-> & r & Hr & Hl) Hf. destruct fuel as [|fuel]; [cbn in Hf; lia|].
  cbn [lookup_loop]. rewrite (bind_run _ _ _ _ _ (getfifo_run _ _ Hr)).
  rewrite (first_with_cons _ _ _ _ Hr).
  destruct (strnicmp (ff_name r) name NAME_MAX =? 0); [cbn; by rewrite Hr|].
  apply IH; [done|cbn in Hf; lia].
Qed.

Lemma first_with_none P l :
  (∀ b r, b ∈ l → fifos s !! b = Some r → P r = false) → first_with P l = None.
Proof.
  intros HP. unfold first_with. destruct (list_find _ l) as [[i b]|] eqn:E; [|done].
  apply list_find_Some in E as (Hl%list_elem_of_lookup_2 & Hb & _).
  destruct (fifos s !! b) as [r|] eqn:Hr; [|done]. cbn in Hb. by rewrite (HP b r) in Hb.
Qed.

(** The only fifo of the list with a property. *)
Lemma first_with_unique P b r l :
  b ∈ l → fifos s !! b = Some r → P r = true →
  (∀ b' r', b' ∈ l → fifos s !! b' = Some r' → P r' = true → b' = b) →
  first_with P l = Some b.
Proof.
  intros Hb Hr HP Hu. unfold first_with.
  destruct (list_find _ l) as [[i b']|] eqn:E.
  - apply list_find_Some in E as (Hl%list_elem_of_lookup_2 & HPb & _).
    destruct (fifos s !! b') as [r'|] eqn:Hr'; [|done]. cbn. f_equal. by eapply Hu.
  - apply list_find_None in E. rewrite Forall_forall in E.
    destruct (E b Hb). by rewrite Hr.
Qed.

Context (Hok : fs_ok s L).

Lemma pipe_lookupi_found b r :
  b ∈ L → fifos s !! b = Some r → pipe_lookupi (ff_ino r) s = Some (Some b, s).
Proof.
  intros Hb Hr. unfold pipe_lookupi. do 2 (erewrite bind_run by done).
  rewrite (lookupi_loop_ok _ L);
    [|apply Hok|apply (fifo_list_size _ (piperoot s)); apply Hok].
  rewrite (first_with_unique _ b r); [done..| |].
  - apply Z.eqb_refl.
  - intros b' r' Hb' Hr' He%Z.eqb_eq. by apply (fs_ino _ _ Hok b' b r' r).
Qed.

Lemma pipe_lookupi_none ino :
  (∀ b r, b ∈ L → fifos s !! b = Some r → ff_ino r ≠ ino) → pipe_lookupi ino s = Some (None, s).
Proof.
  intros Hn. unfold pipe_lookupi. do 2 (erewrite bind_run by done).
  rewrite (lookupi_loop_ok _ L);
    [|apply Hok|apply (fifo_list_size _ (piperoot s)); apply Hok].
  rewrite first_with_none; [done|]. intros b r Hb Hr. apply Z.eqb_neq. by eapply Hn.
Qed.

Lemma with_fifo_found {A} fc (e : A) k b r :
  b ∈ L → fifos s !! b = Some r → ff_ino r = fc_index fc → with_fifo fc e k s = k b s.
Proof.
  intros Hb Hr Hi. unfold with_fifo. rewrite <- Hi.
  by rewrite (bind_run _ _ _ _ _ (pipe_lookupi_found b r Hb Hr)).
Qed.

(** The search by name. *)
Lemma pipe_lookup_run dir name fc :
  fc_index dir = ROOT_INODE → name ≠ [] → chars name → name ≠ [46] → name ≠ [46; 46] →
  pipe_lookup dir name fc s =
    Some (match first_with (λ r, strnicmp (ff_name r) name NAME_MAX =? 0) L
                ≫= λ b, ff_ino <$> fifos s !! b with
          | Some ino => (E_OK, mk_fcookie pipe_filesys (fc_dev dir) ino)
          | None => (ENOENT, fc)
          end, s).
Proof.
  intros Hd Hne Hch H1 H2. unfold pipe_lookup. rewrite Hd. cbn [negb Z.eqb Pos.eqb ROOT_INODE].
  replace (length name =? 0)%nat with false by (by destruct name).
  rewrite bool_decide_false by done. cbn [orb].
  destruct (Z.eqb_spec (strcmp name [46; 46]) 0) as [E|_].
  { apply strcmp_eq in E; [done..|]. by repeat constructor. }
  do 2 (erewrite bind_run by done).
  rewrite (bind_run _ _ _ _ _ (lookup_loop_ok name L _ _ (fs_list _ _ Hok)
    (fifo_list_size _ _ _ (fs_list _ _ Hok) (fs_nodup _ _ Hok)))). done.
Qed.
End lookup.

(** ** Creating a fifo *)

(** Names that mean the same fifo. *)
Definition same_name (a b : str) : Prop :=
  strlwr (take (Z.to_nat NAME_MAX) a) = strlwr (take (Z.to_nat NAME_MAX) b).

Lemma take_chars n s : chars s → chars (take n s).
Proof. apply Forall_take. Qed.

Lemma strnicmp_name a b :
  chars a → chars b → strnicmp (take (Z.to_nat NAME_MAX) a) b NAME_MAX = 0 ↔ same_name a b.
Proof.
  intros Ha Hb. unfold same_name. change NAME_MAX with (Z.of_nat 14).
  rewrite strnicmp_eq; [|by apply take_chars|done]. by rewrite Nat2Z.id, take_take, Nat.min_id.
Qed.

Section creation.
Context (s : pst) (L : list ptr) (Hok : fs_ok s L).
Context (inp b : ptr) (buf : list Z) (outp : option (ptr * list Z)) (t : option (ptr * tty)).
Context (dir : fcookie) (name : str) (mode attrib : Z) (fc : fcookie).
Context (r : proc) (pc : pcred) (u : ucred).
Context (Hcur : procs (fk (pf s)) !! curproc (fk (pf s)) = Some r).
Context (Hpc : pcreds (fk (pf s)) !! p_cred r = Some pc).
Context (Hu : ucreds (fk (pf s)) !! ucr pc = Some u).

Definition new_fifo : fifo :=
  mk_fifo (take (Z.to_nat NAME_MAX) name) (xtime s) (xtime s) (s16 attrib)
    (Z.lor (if has attrib FA_SYSTEM then S_IFCHR else S_IFIFO) (Z.land mode (not16 S_IFMT)))
    (euid u) (egid u) (pipe_ino s)
    (Z.lor (if has attrib FA_SYSTEM then O_TTY else 0) O_HEAD) 0 0 (fst <$> t) inp
    (fst <$> outp) (piperoot s) None.

(** The pipes and the terminal of the new fifo. *)
Definition self : Z := if negb (has attrib FA_HIDDEN) then 1 else VIRGIN_PIPE.
Definition new_pipes : gmap ptr pipe :=
  let m := <[inp := zero_pipe self 1 buf]> (pipes s) in
  match outp with Some (o, buf) => <[o := zero_pipe 1 self buf]> m | None => m end.
Definition new_ttys : gmap ptr tty :=
  match t with
  | Some (a, r) => <[a := set_tt_use_cnt 0 (set_tt_rsel None (set_tt_wsel None r))]> (ttys (pf s))
  | None => ttys (pf s)
  end.

Definition created : pst :=
  mk_pst (set_ttys new_ttys (pf s)) new_pipes (<[b := new_fifo]> (fifos s)) (Some b)
    (wrap_ino (pipe_ino s)) (xtime s) (xtime s).

Lemma current_cred_of : on_k current_cred s = Some (p_cred r, s).
Proof.
  unfold on_k, on_kernel, mlift, current_cred, cred_of, mbind, M_bind, mgets, getp, mderef.
  cbn. rewrite Hcur. by destruct s as [[]].
Qed.

Lemma creat_run m_outp m_tty :
  (if has attrib FA_RDONLY then outp = None else m_outp = outp ∧ is_Some outp) →
  (if has attrib FA_SYSTEM then m_tty = t ∧ is_Some t else t = None) →
  pipe_creat (Some (inp, buf)) m_outp (Some b) m_tty dir name mode attrib fc s =
    Some (E_OK, mk_fcookie pipe_filesys (fc_dev dir) (pipe_ino s), created).
Proof using Hcur Hpc Hu.
  intros Ho Ht. unfold pipe_creat. clear Hok.
  assert ((if has attrib FA_RDONLY then Some None else Some <$> m_outp) = Some outp) as ->.
  { destruct (has attrib FA_RDONLY); [by rewrite Ho|]. destruct Ho as [-> [? ->]]. done. }
  assert ((if has attrib FA_SYSTEM then Some <$> m_tty else Some None) = Some t) as ->.
  { destruct (has attrib FA_SYSTEM); [|by rewrite Ht]. destruct Ht as [-> [? ->]]. done. }
  unfold created, new_pipes, new_ttys, new_fifo, self.
  unfold on_k, on_f, on_kernel, mlift, current_cred, cred_of, getpc, getuc, mbind, M_bind, mgets,
    getp, mderef, mmod, mret, M_ret.
  destruct s as [[k pfd fd fl ty] ps fs rt ino now st]. cbn in *.
  destruct t as [[a ta]|], outp as [[o bufo]|]; cbn; rewrite Hcur; cbn; rewrite Hpc; cbn;
    rewrite Hu; done.
Qed.

Context (Hfresh : b ∉ L) (Hname : chars name).
Context (Hino : ∀ b' r', b' ∈ L → fifos s !! b' = Some r' → ff_ino r' ≠ pipe_ino s).

Lemma created_ok : fs_ok created (b :: L).
Proof using Hok Hfresh Hname Hino.
  assert (∀ b', b' ∈ L → fifos created !! b' = fifos s !! b') as Hold.
  { intros b' Hb'. apply lookup_insert_ne. by intros ->. }
  assert (fifos created !! b = Some new_fifo) as Hnew by apply lookup_insert_eq.
  split.
  - split; [done|]. exists new_fifo. split; [done|].
    eapply fifo_list_frame; [|apply Hok]. intros b' Hb'. by rewrite Hold.
  - constructor; [done|apply Hok].
  - intros b1 b2 r1 r2 [->|H1]%elem_of_cons [->|H2]%elem_of_cons; [done|..].
    + rewrite Hnew, (Hold b2) by done. intros [= <-] Hr2 E. by destruct (Hino b2 r2).
    + rewrite Hnew, (Hold b1) by done. intros Hr1 [= <-] E. by destruct (Hino b1 r1).
    + rewrite !Hold by done. by apply Hok.
  - intros b' r' [->|Hb']%elem_of_cons.
    + rewrite Hnew. intros [= <-]. split; [by apply take_chars|]. cbn [ff_name new_fifo].
      rewrite length_take. unfold NAME_MAX. lia.
    + rewrite Hold by done. by apply Hok.
Qed.

(** creating a fifo and looking it up: the new fifo is found under its inode and
    under every name with the same first NAME_MAX characters up to case; it belongs
    to the effective user of the process, and the file system stays well-formed. *)
Theorem pipe_creat_lookup m_outp m_tty name' fc0 :
  (if has attrib FA_RDONLY then outp = None else m_outp = outp ∧ is_Some outp) →
  (if has attrib FA_SYSTEM then m_tty = t ∧ is_Some t else t = None) →
  fc_index dir = ROOT_INODE →
  same_name name name' → chars name' → name' ≠ [] → name' ≠ [46] → name' ≠ [46; 46] →
  ∃ s' c, pipe_creat (Some (inp, buf)) m_outp (Some b) m_tty dir name mode attrib fc s =
      Some (E_OK, c, s') ∧
    fs_ok s' (b :: L) ∧ fc_index c = pipe_ino s ∧
    pipe_lookup dir name' fc0 s' = Some (E_OK, c, s') ∧
    pipe_lookupi (fc_index c) s' = Some (Some b, s') ∧
    ∃ rb, fifos s' !! b = Some rb ∧ ff_uid rb = euid u ∧ ff_gid rb = egid u ∧
      ff_open rb = None ∧ has (ff_flags rb) O_HEAD = true.
Proof using Hcur Hpc Hu Hok Hfresh Hname Hino.
  intros Ho Ht Hd Hs Hch Hne H1 H2. eexists _, _. split; [by apply creat_run|].
  pose proof created_ok as Hok'. split; [done|]. split; [done|].
  assert (fifos created !! b = Some new_fifo) as Hnew by apply lookup_insert_eq.
  split; [|split].
  - rewrite (pipe_lookup_run _ _ Hok' dir name' fc0) by done.
    rewrite (first_with_cons _ _ _ _ _ Hnew).
    replace (strnicmp (ff_name new_fifo) name' NAME_MAX =? 0) with true.
    2: { symmetry. apply Z.eqb_eq. by apply strnicmp_name. }
    cbn [mbind option_bind]. by rewrite Hnew.
  - apply (pipe_lookupi_found _ _ Hok' b new_fifo); [by left|done].
  - exists new_fifo. split; [done|]. split; [done|]. split; [done|]. split; [done|].
    cbn. by destruct (has attrib FA_SYSTEM).
Qed.
End creation.

(** ** Reading the directory *)

Section listing.
Context (s : pst) (L : list ptr) (Hok : fs_ok s L).

(** The entries of the directory with the cookie [dir]. *)
Definition fifo_entry (b : ptr) : str * Z :=
  match fifos s !! b with Some r => (ff_name r, ff_ino r) | None => ([], 0) end.
Definition entries (dir : fcookie) : list (str * Z) :=
  ([46], ROOT_INODE) :: ([46; 46], fc_index dir) :: (fifo_entry <$> L).

Lemma skip_fifos_ok l : ∀ i o,
  fifo_list (fifos s) o l → skip_fifos i o s = Some (l !! i, s).
Proof.
  induction l as [|b l IH]; intros i o; [intros ->; by destruct i|].
  intros (-> & r & Hr & Hl). destruct i as [|i]; [done|].
  cbn [skip_fifos]. rewrite (bind_run _ _ _ _ _ (getfifo_run _ _ _ Hr)). by apply IH.
Qed.

Lemma entry_at_ok i d : entry_at (Z.of_nat i) d s = Some (entries (d_fc d) !! i, s).
Proof using Hok.
  unfold entry_at. destruct i as [|[|i]]; [done..|].
  replace (Z.of_nat (S (S i)) =? 0) with false by (symmetry; apply Z.eqb_neq; lia).
  replace (Z.of_nat (S (S i)) =? 1) with false by (symmetry; apply Z.eqb_neq; lia).
  replace (Z.to_nat (Z.of_nat (S (S i)) - 2)) with i by lia.
  erewrite bind_run by done. rewrite (bind_run _ _ _ _ _ (skip_fifos_ok L i _ (fs_list _ _ Hok))).
  change (entries (d_fc d) !! S (S i)) with ((fifo_entry <$> L) !! i).
  rewrite list_lookup_fmap. destruct (L !! i) as [b|] eqn:E; [|done].
  apply list_elem_of_lookup_2 in E.
  destruct (fifo_list_some _ _ _ _ (fs_list _ _ Hok) E) as [r Hr].
  rewrite (bind_run _ _ _ _ _ (getfifo_run _ _ _ Hr)). cbn. unfold fifo_entry. by rewrite Hr.
Qed.

Lemma entry_short dir i e :
  entries dir !! i = Some e → Z.of_nat (length (e.1)) ≤ NAME_MAX.
Proof using Hok.
  destruct i as [|[|i]]; [by intros [= <-]..|]. change (entries dir !! S (S i)) with ((fifo_entry <$> L) !! i).
  rewrite list_lookup_fmap. destruct (L !! i) as [b|] eqn:E; [|done]. intros [= <-].
  apply list_elem_of_lookup_2 in E. unfold fifo_entry.
  destruct (fifos s !! b) as [r|] eqn:Hr; [|done]. by apply (fs_names _ _ Hok b r).
Qed.

(** The next entry. *)
Definition next_dir (d : dirstruct) : dirstruct :=
  mk_dir (d_fc d) (u16 (d_index d + 1)) (d_flags d).

Lemma readdir_run d namelen fc i :
  d_index d = Z.of_nat i → NAME_MAX + 4 < namelen < 32768 →
  pipe_readdir d namelen fc s = Some (match entries (d_fc d) !! i with
    | Some (name, ino) =>
        mk_entry E_OK (next_dir d) (mk_fcookie pipe_filesys (fc_dev (d_fc d)) ino)
          (if has (d_flags d) TOS_SEARCH then None else Some ino) (Some name)
    | None => mk_entry ENMFILES (next_dir d) fc None None
    end, s).
Proof using Hok.
  intros Hi Hn. unfold pipe_readdir. rewrite Hi.
  rewrite (bind_run _ _ _ _ _ (entry_at_ok i (next_dir d))). cbn [d_fc next_dir d_flags].
  destruct (entries (d_fc d) !! i) as [[name ino]|] eqn:E;
    [|unfold next_dir; by rewrite Hi]. apply entry_short in E. cbn in E.
  unfold next_dir. rewrite Hi. unfold NAME_MAX in *.
  destruct (has (d_flags d) TOS_SEARCH); cbn [negb andb].
  - replace (_ <? u32 namelen) with true; [done|].
    symmetry. apply Z.ltb_lt. rewrite u32_id; lia.
  - replace (namelen - 4 <=? 0) with false by (symmetry; apply Z.leb_gt; lia).
    replace (_ <? u32 (namelen - 4)) with true; [done|].
    symmetry. apply Z.ltb_lt. rewrite u32_id; lia.
Qed.

(** A reader of a directory: Dreaddir until an error. *)
Fixpoint read_all (fuel : nat) (d : dirstruct) (namelen : Z) : M pst (list (str * Z) * Z) :=
  match fuel with
  | O => mret ([], E_OK)
  | S fuel =>
      e ← pipe_readdir d namelen (d_fc d);
      match e_name e with
      | Some name =>
          '(l, z) ← read_all fuel (e_dir e) namelen;
          mret ((name, fc_index (e_fc e)) :: l, z)
      | None => mret ([], e_ret e)
      end
  end.

Lemma read_all_from n : ∀ d namelen i,
  d_index d = Z.of_nat i → NAME_MAX + 4 < namelen < 32768 →
  n = (length L + 2 - i)%nat → Z.of_nat (length L) + 3 < 65536 → (i ≤ length L + 2)%nat →
  read_all (S n) d namelen s = Some (drop i (entries (d_fc d)), ENMFILES, s).
Proof using Hok.
  induction n as [|n IH]; intros d namelen i Hi Hn Hlen HL Hle.
  all: assert (length (entries (d_fc d)) = length L + 2)%nat as El
    by (unfold entries; cbn; rewrite length_fmap; lia).
  all: cbn [read_all]; rewrite (bind_run _ _ _ _ _ (readdir_run d namelen _ i Hi Hn)).
  { rewrite lookup_ge_None_2 by lia. cbn. by rewrite drop_ge by lia. }
  destruct (entries (d_fc d) !! i) as [[name ino]|] eqn:E.
  2: { apply lookup_ge_None in E. lia. }
  cbn [e_name e_dir e_fc].
  rewrite (bind_run _ _ _ _ _ (IH (next_dir d) namelen (S i) ltac:(cbn; rewrite Hi, u16_id; lia)
    Hn ltac:(lia) HL ltac:(lia))).
  cbn. by rewrite (drop_S _ _ _ E).
Qed.

(** reading the directory from the start gives the entries ".", ".." and every
    fifo once, in the order of the list with the inode numbers, and then the error
    that ends a directory; nothing is changed. *)
Theorem readdir_complete d d' namelen :
  pipe_opendir d = (E_OK, d') → NAME_MAX + 4 < namelen < 32768 →
  Z.of_nat (length L) + 3 < 65536 →
  read_all (3 + length L) d' namelen s = Some (entries (d_fc d), ENMFILES, s) ∧
  NoDup (drop 2 (entries (d_fc d))).
Proof using Hok.
  intros Hd Hn HL. unfold pipe_opendir in Hd.
  destruct (fc_index (d_fc d) =? ROOT_INODE); [|done]. injection Hd as <-.
  split.
  - replace (3 + length L)%nat with (S (length L + 2 - 0)) by lia.
    rewrite (read_all_from _ _ _ 0); [done..|lia|].
    lia.
  - cbn. apply NoDup_fmap_2_strong; [|apply Hok]. intros b1 b2 H1 H2.
    destruct (fifo_list_some _ _ _ _ (fs_list _ _ Hok) H1) as [r1 E1].
    destruct (fifo_list_some _ _ _ _ (fs_list _ _ Hok) H2) as [r2 E2].
    unfold fifo_entry. rewrite E1, E2. intros [= _ Hi]. by apply (fs_ino _ _ Hok b1 b2 r1 r2).
Qed.
End listing.

(** ** The open files of a fifo *)

Definition opens (g : Z → bool) (fr : fileptr) : bool := g (Z.land (f_flags fr) O_RWMODE).
Definition is_master (fr : fileptr) : bool := has (f_flags fr) O_HEAD.
Definition slave_reads (fr : fileptr) : bool := negb (is_master fr) && opens opens_read fr.
Definition slave_writes (fr : fileptr) : bool := negb (is_master fr) && opens opens_write fr.

(** How many files of the list have a property. *)
Definition tally (P : fileptr → bool) (m : gmap ptr fileptr) (l : list ptr) : Z :=
  Z.of_nat (length (filter (λ f, from_option P false (m !! f) = true) l)).

Definition b2z (b : bool) : Z := if b then 1 else 0.

(** A count of [k]: nobody has come yet, or [k] files. *)
Definition counted (n k : Z) : Prop := n = k ∨ n = VIRGIN_PIPE ∧ k = 0.

(** The creator of the fifo: it has not opened it yet, or its file is in the list. *)
Definition masters (m : gmap ptr fileptr) (r : fifo) (l : list ptr) : Z :=
  if has (ff_flags r) O_HEAD then 1 else tally is_master m l.
Definition selfread (r : fifo) : bool := negb (has (ff_dosflags r) FA_HIDDEN).

(** The fifo [b] with the open files [l]: the counts of the pipes are the numbers of
    the files at their ends, where a fifo that is not hidden counts itself. *)
Record fifo_ok (s : pst) (b : ptr) (r : fifo) (l : list ptr) : Prop := {
  ok_fifo : fifos s !! b = Some r;
  ok_open : open_list (files (pf s)) (ff_open r) l;
  ok_nodup : NoDup l;
  ok_flags : Z.land (ff_flags r) O_USER = 0;
  ok_virgin : has (ff_flags r) O_HEAD = true → l = [];
  ok_one : masters (files (pf s)) r l ≤ 1;
  ok_modes f fr : f ∈ l → files (pf s) !! f = Some fr → is_master fr = true →
    opens opens_write fr = true ∧ (is_Some (ff_outp r) → opens opens_read fr = true);
  ok_inp : ∃ q, pipes s !! ff_inp r = Some q ∧ writers q = masters (files (pf s)) r l ∧
    counted (readers q) (tally slave_reads (files (pf s)) l
                         + b2z (selfread r) * masters (files (pf s)) r l);
  ok_outp o : ff_outp r = Some o → o ≠ ff_inp r ∧ ∃ q, pipes s !! o = Some q ∧
    readers q = masters (files (pf s)) r l ∧
    counted (writers q) (tally slave_writes (files (pf s)) l + b2z (selfread r))
}.

Section tally.
Context (P : fileptr → bool) (m : gmap ptr fileptr).

Lemma tally_nil : tally P m [] = 0.
Proof. done. Qed.

Lemma tally_cons f fr l : m !! f = Some fr → tally P m (f :: l) = b2z (P fr) + tally P m l.
Proof.
  intros Hf. unfold tally. rewrite filter_cons, Hf. cbn. destruct (P fr).
  - rewrite decide_True by done. cbn. lia.
  - by rewrite decide_False.
Qed.

Lemma tally_bounds l : 0 ≤ tally P m l ≤ Z.of_nat (length l).
Proof. unfold tally. pose proof (length_filter (λ f, from_option P false (m !! f) = true) l). lia. Qed.

Lemma tally_frame m' l :
  (∀ g, g ∈ l → f_flags <$> m' !! g = f_flags <$> m !! g) →
  (∀ fr fr', f_flags fr = f_flags fr' → P fr = P fr') → tally P m' l = tally P m l.
Proof.
  intros Hm HP. unfold tally. do 2 f_equal. induction l as [|g l IH]; [done|].
  rewrite !filter_cons. assert (from_option P false (m' !! g) = from_option P false (m !! g)) as ->.
  { pose proof (Hm g ltac:(by left)) as Hg. destruct (m' !! g), (m !! g); try done.
    cbn in *. apply HP. by injection Hg. }
  rewrite IH by (intros; apply Hm; by right). done.
Qed.

Lemma tally_app l1 l2 : tally P m (l1 ++ l2) = tally P m l1 + tally P m l2.
Proof. unfold tally. rewrite filter_app, length_app. lia. Qed.

Lemma tally_pos l : 0 < tally P m l ↔ Exists (λ f, from_option P false (m !! f) = true) l.
Proof.
  unfold tally. rewrite Exists_exists. split.
  - destruct (filter _ l) as [|f k] eqn:E; [cbn; lia|]. intros _.
    assert (f ∈ f :: k) as Hf by (by left). rewrite <- E in Hf.
    apply list_elem_of_filter in Hf as [HP Hf]. by exists f.
  - intros (f & Hf & HP). destruct (filter _ l) as [|g k] eqn:E; [|cbn; lia].
    exfalso. eapply not_elem_of_nil. rewrite <- E. by apply list_elem_of_filter.
Qed.
End tally.

(** The tests depend on the flags. *)
Lemma flags_is_master fr fr' : f_flags fr = f_flags fr' → is_master fr = is_master fr'.
Proof. unfold is_master. by intros ->. Qed.
Lemma flags_opens g fr fr' : f_flags fr = f_flags fr' → opens g fr = opens g fr'.
Proof. unfold opens. by intros ->. Qed.
Lemma flags_slave_reads fr fr' : f_flags fr = f_flags fr' → slave_reads fr = slave_reads fr'.
Proof. unfold slave_reads, is_master, opens. by intros ->. Qed.
Lemma flags_slave_writes fr fr' : f_flags fr = f_flags fr' → slave_writes fr = slave_writes fr'.
Proof. unfold slave_writes, is_master, opens. by intros ->. Qed.

Lemma open_list_lookup m o l f : open_list m o l → f ∈ l → is_Some (m !! f).
Proof.
  intros Hl Hf. apply elem_of_dom. pose proof (open_list_dom _ _ _ Hl) as Hd.
  rewrite Forall_forall in Hd. by apply Hd.
Qed.

(** The open list depends on the links only. *)
Lemma open_list_frame m m' o l :
  (∀ g, g ∈ l → f_next <$> m' !! g = f_next <$> m !! g) → open_list m o l → open_list m' o l.
Proof.
  revert o. induction l as [|x l IH]; intros o Hm; [done|].
  intros (-> & r & Hr & Hl). split; [done|].
  pose proof (Hm x ltac:(by left)) as Hx. rewrite Hr in Hx.
  destruct (m' !! x) as [r'|]; [|done]. exists r'. split; [done|]. injection Hx as ->.
  apply IH; [|done]. intros b Hb. apply Hm. by right.
Qed.

(** A new fifo has no open files. *)
Lemma created_fifo_ok s inp b buf outp t name mode attrib u :
  0 ≤ attrib < 32768 → (∀ o, fst <$> outp = Some o → o ≠ inp) →
  fifo_ok (created s inp b buf outp t name mode attrib u) b
    (new_fifo s inp outp t name mode attrib u) [].
Proof.
  intros Ha Ho. set (r := new_fifo s inp outp t name mode attrib u).
  assert (has (ff_flags r) O_HEAD = true) as Hh by (cbn; by destruct (has attrib FA_SYSTEM)).
  assert (selfread r = negb (has attrib FA_HIDDEN)) as Hs.
  { unfold selfread. cbn. by rewrite s16_id by lia. }
  split; [apply lookup_insert_eq|done|constructor| |done|unfold masters; by rewrite Hh| | |].
  - cbn. by destruct (has attrib FA_SYSTEM).
  - by intros f fr ?%not_elem_of_nil.
  - unfold masters. rewrite Hh, Hs, tally_nil.
    exists (zero_pipe (self attrib) 1 buf). split.
    { cbn. unfold new_pipes. destruct outp as [[o bo]|]; [|apply lookup_insert_eq].
      rewrite lookup_insert_ne; [apply lookup_insert_eq|]. by apply Ho. }
    split; [done|]. unfold counted, self. cbn. destruct (has attrib FA_HIDDEN); cbn; auto.
  - intros o Hoo. split; [by apply Ho|]. cbn in Hoo.
    destruct outp as [[o' bo]|]; [|done]. injection Hoo as ->.
    exists (zero_pipe 1 (self attrib) bo). split; [apply lookup_insert_eq|].
    unfold masters. rewrite Hh, Hs, tally_nil. split; [done|].
    unfold counted, self. cbn. destruct (has attrib FA_HIDDEN); cbn; auto.
Qed.

(** ** Opening *)

Lemma getf_run f fr s' : files (pf s') !! f = Some fr → on_f (getf f) s' = Some (fr, s').
Proof. intros Hl. unfold on_f, mlift, getf, mderef. rewrite Hl. by destruct s' as [[]]. Qed.

(** The state with another file, fifo, or pipe. *)
Definition with_file (f : ptr) (fr : fileptr) (s : pst) : pst :=
  set_pf (set_files (<[f := fr]> (files (pf s))) (pf s)) s.
Definition with_fifo_at (b : ptr) (r : fifo) (s : pst) : pst := set_fifos (<[b := r]> (fifos s)) s.
Definition with_pipe (p : ptr) (q : pipe) (s : pst) : pst := set_pipes (<[p := q]> (pipes s)) s.

Lemma mod_file_run f fr g s :
  files (pf s) !! f = Some fr → mod_file f g s = Some ((), with_file f (g fr) s).
Proof. intros Hl. unfold mod_file, on_f, mlift, modf. by rewrite Hl. Qed.
Lemma modfifo_run b r g s :
  fifos s !! b = Some r → modfifo b g s = Some ((), with_fifo_at b (g r) s).
Proof. intros Hl. unfold modfifo. by rewrite Hl. Qed.
Lemma modpipe_run p q g s :
  pipes s !! p = Some q → modpipe p g s = Some ((), with_pipe p (g q) s).
Proof. intros Hl. unfold modpipe. by rewrite Hl. Qed.
Lemma getpipe_run p q s : pipes s !! p = Some q → getpipe p s = Some (q, s).
Proof. intros Hl. by apply (mderef_run (λ s, pipes s !! p)). Qed.

Lemma with_file_with_file f fr1 fr2 s : with_file f fr2 (with_file f fr1 s) = with_file f fr2 s.
Proof. unfold with_file. cbn. by rewrite insert_insert_eq. Qed.
Lemma with_fifo_with_fifo b r1 r2 s :
  with_fifo_at b r2 (with_fifo_at b r1 s) = with_fifo_at b r2 s.
Proof. unfold with_fifo_at. cbn. by rewrite insert_insert_eq. Qed.
Lemma with_file_lookup f fr s : files (pf (with_file f fr s)) !! f = Some fr.
Proof. apply lookup_insert_eq. Qed.

(** Changes that the lists do not see. *)
Lemma fs_ok_frame s s' L :
  piperoot s' = piperoot s →
  (∀ b, b ∈ L → (λ r, (ff_next r, ff_ino r, ff_name r)) <$> fifos s' !! b
              = (λ r, (ff_next r, ff_ino r, ff_name r)) <$> fifos s !! b) →
  fs_ok s L → fs_ok s' L.
Proof.
  intros Hroot Hf Hok.
  assert (∀ b r', b ∈ L → fifos s' !! b = Some r' → ∃ r, fifos s !! b = Some r ∧
    ff_next r' = ff_next r ∧ ff_ino r' = ff_ino r ∧ ff_name r' = ff_name r) as Hl.
  { intros b r' Hb Hr. specialize (Hf b Hb). rewrite Hr in Hf. destruct (fifos s !! b) as [r|]; [|done].
    injection Hf as -> -> ->. by exists r. }
  split; [|apply Hok|..].
  - rewrite Hroot. eapply fifo_list_frame; [|apply Hok]. intros b Hb. specialize (Hf b Hb).
    destruct (fifos s' !! b), (fifos s !! b); try done. cbn in *. congruence.
  - intros b1 b2 r1 r2 H1 H2 (r1' & E1 & _ & -> & _)%Hl (r2' & E2 & _ & -> & _)%Hl; [|done..].
    by apply Hok.
  - intros b r' H1 (r0 & E1 & _ & _ & ->)%Hl; [|done]. by apply (fs_names _ _ Hok b).
Qed.

Lemma fs_ok_with_fifo s L b r r' :
  fifos s !! b = Some r → ff_next r' = ff_next r → ff_ino r' = ff_ino r → ff_name r' = ff_name r →
  fs_ok s L → fs_ok (with_fifo_at b r' s) L.
Proof.
  intros Hb H1 H2 H3. apply fs_ok_frame; [done|]. intros b' _. cbn.
  destruct (decide (b' = b)) as [->|Hne]; [|by rewrite lookup_insert_ne].
  rewrite lookup_insert_eq, Hb. cbn. congruence.
Qed.

Lemma fs_ok_with_file s L f fr : fs_ok s L → fs_ok (with_file f fr s) L.
Proof. by apply fs_ok_frame. Qed.
Lemma fs_ok_set_pipes s L m : fs_ok s L → fs_ok (set_pipes m s) L.
Proof. by apply fs_ok_frame. Qed.

(** ** The flags of an open file *)

Lemma land_fifo_flags fl rf m :
  Z.land rf O_USER = 0 → Z.land m O_USER = m → Z.land (Z.lor fl rf) m = Z.land fl m.
Proof.
  intros Hr Hm. assert (Z.land rf m = 0) as E.
  { by rewrite <- Hm, (Z.land_comm m), Z.land_assoc, Hr. }
  by rewrite Z.land_lor_distr_l, E, Z.lor_0_r.
Qed.

Lemma has_lor a b m : has (Z.lor a b) m = has a m || has b m.
Proof.
  unfold has. rewrite Z.land_lor_distr_l.
  destruct (Z.eqb_spec (Z.land a m) 0) as [->|Ha]; [done|]. cbn.
  destruct (Z.eqb_spec (Z.lor (Z.land a m) (Z.land b m)) 0) as [E|]; [|done].
  apply Z.lor_eq_0_iff in E. tauto.
Qed.

(** The flags after O_COMPAT became O_DENYNONE. *)
Definition shared_flags (fl : Z) : Z :=
  if Z.land fl O_SHMODE =? O_COMPAT then Z.lor (Z.land fl (not16 O_SHMODE)) O_DENYNONE else fl.

Lemma shared_flags_land fl m :
  Z.land (not16 O_SHMODE) m = m → Z.land O_DENYNONE m = 0 →
  Z.land (shared_flags fl) m = Z.land fl m.
Proof.
  intros H1 H2. unfold shared_flags. case_bool; [|done].
  by rewrite Z.land_lor_distr_l, <- Z.land_assoc, H1, H2, Z.lor_0_r.
Qed.

Section flags.
Context (fl rf : Z) (Hr : Z.land rf O_USER = 0).
Let new := shared_flags (Z.lor fl rf).

Lemma new_rwmode : Z.land new O_RWMODE = Z.land fl O_RWMODE.
Proof using Hr. unfold new. rewrite shared_flags_land by done. by apply land_fifo_flags. Qed.

Lemma new_head : has new O_HEAD = has fl O_HEAD || has rf O_HEAD.
Proof. unfold new, has at 1. rewrite shared_flags_land by done. apply has_lor. Qed.

Lemma new_creat : has (Z.lor fl rf) O_CREAT = has fl O_CREAT.
Proof using Hr. unfold has. by rewrite land_fifo_flags. Qed.
End flags.

Lemma head_cleared fl :
  has (Z.land fl (not16 O_HEAD)) O_HEAD = false ∧
  (Z.land fl O_USER = 0 → Z.land (Z.land fl (not16 O_HEAD)) O_USER = 0).
Proof.
  unfold has. rewrite <- !Z.land_assoc. change (Z.land (not16 O_HEAD) O_HEAD) with 0.
  change (Z.land (not16 O_HEAD) O_USER) with O_USER. by rewrite Z.land_0_r.
Qed.

(** ** The counts after an open *)

Lemma alter_at_insert `{Countable K} {A} (g : A → A) (m : gmap K A) i x :
  m !! i = Some x → alter g i m = <[i := g x]> m.
Proof.
  intros Hi. apply map_eq. intros j. destruct (decide (j = i)) as [->|Hne].
  - by rewrite lookup_alter_eq, lookup_insert_eq, Hi.
  - by rewrite lookup_alter_ne, lookup_insert_ne.
Qed.

Lemma modpipe_alter p g s :
  is_Some (pipes s !! p) → modpipe p g s = Some ((), set_pipes (alter g p (pipes s)) s).
Proof. intros [q Hq]. rewrite (modpipe_run _ _ _ _ Hq). by rewrite (alter_at_insert _ _ _ _ Hq). Qed.

Definition more_readers (q : pipe) : pipe := set_readers (more (readers q)) q.
Definition more_writers (q : pipe) : pipe := set_writers (more (writers q)) q.
Definition when {A} (b : bool) (g : A → A) (x : A) : A := if b then g x else x.
Definition alter_at (o : option ptr) (g : pipe → pipe) (m : gmap ptr pipe) : gmap ptr pipe :=
  match o with Some p => alter g p m | None => m end.
Definition count_pipes (r : fifo) (rw : Z) (m : gmap ptr pipe) : gmap ptr pipe :=
  when (opens_write rw) (alter_at (ff_outp r) more_writers)
    (when (opens_read rw) (alter more_readers (ff_inp r)) m).

Lemma count_slave_run s b r rw :
  fifos s !! b = Some r → is_Some (pipes s !! ff_inp r) →
  (∀ o, ff_outp r = Some o → is_Some (pipes s !! o)) →
  count_slave b rw s = Some ((), set_pipes (count_pipes r rw (pipes s)) s).
Proof.
  intros Hb Hi Ho. unfold count_slave, count_pipes, when.
  rewrite (bind_run _ _ _ _ _ (getfifo_run _ _ _ Hb)).
  set (m1 := if opens_read rw then alter more_readers (ff_inp r) (pipes s) else pipes s).
  assert (mwhen (opens_read rw) (modpipe (ff_inp r) more_readers) s = Some ((), set_pipes m1 s)) as E.
  { unfold m1, mwhen. destruct (opens_read rw); [by apply modpipe_alter|by destruct s]. }
  rewrite (bind_run _ _ _ _ _ E). destruct (ff_outp r) as [o|] eqn:Eo.
  - unfold mwhen. destruct (opens_write rw); [|done].
    change (λ p, set_writers (more (writers p)) p) with more_writers.
    rewrite modpipe_alter; [done|]. cbn. unfold m1.
    destruct (opens_read rw); [apply lookup_alter_is_Some|]; by apply Ho.
  - cbn. by destruct (opens_write rw).
Qed.

Lemma more_counted n k : counted n k → 0 ≤ k < 32766 → counted (more n) (k + 1).
Proof.
  intros [->|[-> ->]] Hk; left; unfold more, VIRGIN_PIPE.
  - replace (k =? 32767) with false by (symmetry; apply Z.eqb_neq; lia). by rewrite s16_id by lia.
  - done.
Qed.

(** ** Opening: the file is counted *)

Lemma count_pipes_inp r rw m q :
  m !! ff_inp r = Some q → (∀ o, ff_outp r = Some o → o ≠ ff_inp r) →
  count_pipes r rw m !! ff_inp r = Some (when (opens_read rw) more_readers q).
Proof.
  intros Hq Ho. unfold count_pipes.
  assert (when (opens_read rw) (alter more_readers (ff_inp r)) m !! ff_inp r
    = Some (when (opens_read rw) more_readers q)) as E.
  { destruct (opens_read rw); [|done]. cbn [when]. by rewrite lookup_alter_eq, Hq. }
  destruct (opens_write rw); [|done]. cbn [when]. unfold alter_at.
  destruct (ff_outp r) as [o|]; [|done]. by rewrite lookup_alter_ne by auto.
Qed.

Lemma count_pipes_outp r rw m o q :
  ff_outp r = Some o → o ≠ ff_inp r → m !! o = Some q →
  count_pipes r rw m !! o = Some (when (opens_write rw) more_writers q).
Proof.
  intros Ho Hne Hq. unfold count_pipes.
  assert (when (opens_read rw) (alter more_readers (ff_inp r)) m !! o = Some q) as E.
  { destruct (opens_read rw); [|done]. cbn [when]. by rewrite lookup_alter_ne. }
  destruct (opens_write rw); [|done]. cbn [when]. rewrite Ho. cbn. by rewrite lookup_alter_eq, E.
Qed.

Lemma when_more_readers c q k :
  counted (readers q) k → 0 ≤ k < 32766 →
  counted (readers (when c more_readers q)) (b2z c + k).
Proof.
  intros Hc Hk. destruct c; cbn [when b2z]; [|by rewrite Z.add_0_l].
  rewrite Z.add_comm. by apply more_counted.
Qed.

Lemma when_more_writers c q k :
  counted (writers q) k → 0 ≤ k < 32766 →
  counted (writers (when c more_writers q)) (b2z c + k).
Proof.
  intros Hc Hk. destruct c; cbn [when b2z]; [|by rewrite Z.add_0_l].
  rewrite Z.add_comm. by apply more_counted.
Qed.

Section opening.
Context (s : pst) (L : list ptr) (Hok : fs_ok s L).
Context (b : ptr) (r : fifo) (l : list ptr) (Hb : b ∈ L) (Hf : fifo_ok s b r l).
Context (f : ptr) (fr : fileptr) (Hfr : files (pf s) !! f = Some fr) (Hfl : f ∉ l).
Context (Hcookie : fc_index (f_fc fr) = ff_ino r).
Context (d : ptr) (fd : filedesc) (Hd : p_fd (pf s) !! curproc (fk (pf s)) = Some d).
Context (Hfd : filedescs (pf s) !! d = Some fd).

Let virgin : bool := has (ff_flags r) O_HEAD.
Let fl : Z := Z.lor (f_flags fr) (ff_flags r).
Let rw : Z := Z.land (f_flags fr) O_RWMODE.
Let fr1 : fileptr := set_f_flags fl fr.
Let r1 : fifo := when virgin (λ r, set_ff_flags (Z.land (ff_flags r) (not16 O_HEAD)) r) r.
Let fr2 : fileptr := set_f_flags (shared_flags fl) fr.
Let fr3 : fileptr := set_f_devinfo (match ff_tty r with Some t => Z.pos t | None => 0 end)
  (set_f_next (ff_open r) fr2).
Let r3 : fifo := set_ff_mtime (xtime s) (set_ff_open (Some f) r1).
Let m3 : gmap ptr pipe := if has (shared_flags fl) O_HEAD then pipes s else count_pipes r rw (pipes s).
(** The states before the check of the sharing and at the end. *)
Let tried : pst := with_file f fr2 (with_fifo_at b r1 s).
Let opened : pst := with_file f fr3 (with_fifo_at b r3 (set_pipes m3 s)).

Lemma tried_run :
  (virgin = true → has (f_flags fr) O_CREAT = true) →
  pipe_open f s =
  (d0 ← on_f (denyshare (ff_open r) f);
   if negb (d0 =? 0) then mret EACCES
   else
     mod_file f (set_f_next (ff_open r)) ;;
     modfifo b (set_ff_open (Some f)) ;;
     fr ← on_f (getf f);
     mwhen (negb (has (f_flags fr) O_HEAD)) (count_slave b rw) ;;
     mod_file f (set_f_devinfo (match ff_tty r with Some t => Z.pos t | None => 0 end)) ;;
     now ← mgets xtime;
     modfifo b (set_ff_mtime now) ;;
     mret E_OK) tried.
Proof.
  intros Hc. pose proof (ok_fifo _ _ _ _ Hf) as Hr. unfold pipe_open.
  rewrite (bind_run _ _ _ _ _ (getf_run _ _ _ Hfr)).
  rewrite (with_fifo_found s L Hok _ _ _ b r Hb Hr) by done.
  rewrite (bind_run _ _ _ _ _ (getfifo_run _ _ _ Hr)).
  rewrite (bind_run _ _ _ _ _ (mod_file_run _ _ _ _ Hfr)). change (set_f_flags _ fr) with fr1.
  rewrite (bind_run _ _ _ _ _ (getf_run _ _ _ (with_file_lookup f fr1 s))).
  change (f_flags fr1) with fl. fold virgin. unfold fl at 1.
  rewrite new_creat by apply Hf.
  replace (virgin && negb (has (f_flags fr) O_CREAT)) with false.
  2: { destruct virgin; [by rewrite Hc|done]. }
  assert (mwhen virgin (modfifo b (λ r, set_ff_flags (Z.land (ff_flags r) (not16 O_HEAD)) r))
            (with_file f fr1 s) = Some ((), with_file f fr1 (with_fifo_at b r1 s))) as E1.
  { unfold r1, when, mwhen. destruct virgin.
    - by rewrite (modfifo_run b r).
    - unfold with_fifo_at. rewrite insert_id by done. by destruct s. }
  rewrite (bind_run _ _ _ _ _ E1).
  match goal with |- context [mwhen (?c =? O_COMPAT) ?x ≫= _] =>
    assert (mwhen (c =? O_COMPAT) x (with_file f fr1 (with_fifo_at b r1 s)) = Some ((), tried)) as E2
  end.
  { unfold tried, fr2, shared_flags, mwhen. case_bool; [|done].
    rewrite (mod_file_run _ _ _ _ (with_file_lookup _ _ _)). by rewrite with_file_with_file. }
  by rewrite (bind_run _ _ _ _ _ E2).
Qed.

Lemma tried_file : files (pf tried) !! f = Some fr2.
Proof. apply with_file_lookup. Qed.
Lemma tried_fifo : fifos tried !! b = Some r1.
Proof. apply lookup_insert_eq. Qed.
Lemma tried_files g : g ∈ l → files (pf tried) !! g = files (pf s) !! g.
Proof. intros Hg. apply lookup_insert_ne. by intros ->. Qed.

Lemma tried_list : open_list (files (pf tried)) (ff_open r) l.
Proof.
  eapply open_list_frame; [|apply Hf]. intros g Hg. by rewrite tried_files.
Qed.

Lemma sharing_run :
  ∃ z, on_f (denyshare (ff_open r) f) tried = Some (z, tried) ∧
    (z = 1 ∧ Exists (conflicts (pf s) fd (shared_flags fl)) l ∨
     z = 0 ∧ ¬ Exists (conflicts (pf s) fd (shared_flags fl)) l).
Proof.
  pose proof tried_list as Hl.
  destruct (denyshare_loop_ok (pf tried) d fd Hd Hfd (shared_flags fl) l
    (size (files (pf tried))) (ff_open r) Hl) as (z & E & Hz).
  { apply (open_list_size _ _ _ Hl). apply Hf. }
  exists z. split.
  { unfold on_f, mlift, denyshare.
    rewrite (bind_run _ _ (pf tried) fr2 (pf tried)).
    2: { apply (mderef_run (λ s, files s !! f)), tried_file. }
    erewrite bind_run by done. change (f_flags fr2) with (shared_flags fl). by rewrite E. }
  assert (∀ g, g ∈ l → conflicts (pf tried) fd (shared_flags fl) g ↔
                       conflicts (pf s) fd (shared_flags fl) g) as Hc.
  { intros g Hg. unfold conflicts. by rewrite tried_files. }
  assert (Exists (conflicts (pf tried) fd (shared_flags fl)) l ↔
          Exists (conflicts (pf s) fd (shared_flags fl)) l) as He.
  { rewrite !Exists_exists. split; intros (g & Hg & Hcf); exists g; split; try done; by apply Hc. }
  by rewrite <- He.
Qed.

Lemma opened_run :
  (d0 ← mret 0;
   if negb (d0 =? 0) then mret EACCES
   else
     mod_file f (set_f_next (ff_open r)) ;;
     modfifo b (set_ff_open (Some f)) ;;
     fr ← on_f (getf f);
     mwhen (negb (has (f_flags fr) O_HEAD)) (count_slave b rw) ;;
     mod_file f (set_f_devinfo (match ff_tty r with Some t => Z.pos t | None => 0 end)) ;;
     now ← mgets xtime;
     modfifo b (set_ff_mtime now) ;;
     mret E_OK : M pst Z) tried = Some (E_OK, opened).
Proof.
  erewrite bind_run by done. cbn [negb Z.eqb].
  rewrite (bind_run _ _ _ _ _ (mod_file_run _ _ _ _ tried_file)).
  rewrite (bind_run _ _ _ _ _ (modfifo_run b r1 _ (with_file f _ tried) tried_fifo)).
  erewrite bind_run by (apply getf_run, with_file_lookup). cbn [f_flags set_f_next fr2 set_f_flags].
  set (t := with_fifo_at b _ _).
  assert (mwhen (negb (has (shared_flags fl) O_HEAD)) (count_slave b rw) t
    = Some ((), set_pipes m3 t)) as E.
  { unfold m3, mwhen. destruct (has (shared_flags fl) O_HEAD); cbn [negb].
    { reflexivity. }
    rewrite (count_slave_run t b (set_ff_open (Some f) r1) rw).
    - unfold count_pipes, r1, when. by destruct virgin.
    - apply lookup_insert_eq.
    - destruct (ok_inp _ _ _ _ Hf) as (q & Hq & _). exists q. unfold r1, when. by destruct virgin.
    - intros o Ho. destruct (ok_outp _ _ _ _ Hf o) as (_ & q & Hq & _); [|by exists q].
      revert Ho. unfold r1, when. by destruct virgin. }
  rewrite (bind_run _ _ _ _ _ E).
  erewrite bind_run by (apply mod_file_run, with_file_lookup).
  erewrite bind_run by done.
  erewrite bind_run by (apply modfifo_run, lookup_insert_eq).
  unfold opened, r3, fr3, t, tried, with_file, with_fifo_at. cbn.
  by rewrite !insert_insert_eq.
Qed.

(** The new file is counted. *)
Context (Hhead : has (f_flags fr) O_HEAD = false) (Hmany : Z.of_nat (length l) < 32764).
Context (Hmode : virgin = true → opens_write rw = true ∧ (is_Some (ff_outp r) → opens_read rw = true)).

Let files' : gmap ptr fileptr := <[f := fr3]> (files (pf s)).

Lemma fr3_master : is_master fr3 = virgin.
Proof.
  unfold is_master. cbn [f_flags fr3 set_f_devinfo set_f_next fr2 set_f_flags].
  unfold fl. by rewrite new_head, Hhead.
Qed.

Lemma fr3_opens g : opens g fr3 = g rw.
Proof.
  unfold opens. cbn [f_flags fr3 set_f_devinfo set_f_next fr2 set_f_flags].
  unfold fl. by rewrite new_rwmode by apply Hf.
Qed.

Lemma tally_opened P : tally P files' (f :: l) = b2z (P fr3) + tally P (files (pf s)) l.
Proof.
  rewrite (tally_cons P files' f fr3) by apply lookup_insert_eq. f_equal.
  unfold tally. do 2 f_equal. clear -Hfl. induction l as [|g k IH]; [done|].
  rewrite !filter_cons. assert (files' !! g = files (pf s) !! g) as ->.
  { apply lookup_insert_ne. intros ->. apply Hfl. by left. }
  rewrite IH; [done|]. intros Hk. apply Hfl. by right.
Qed.

Lemma r3_head : has (ff_flags r3) O_HEAD = false.
Proof.
  cbn. unfold r1, when. destruct virgin eqn:E; [|done]. apply head_cleared.
Qed.

Lemma masters_opened : masters files' r3 (f :: l) = masters (files (pf s)) r l.
Proof.
  unfold masters. rewrite r3_head, tally_opened, fr3_master. fold virgin.
  destruct virgin eqn:E; [|done]. rewrite (ok_virgin _ _ _ _ Hf E). done.
Qed.

Lemma masters_bounds : 0 ≤ masters (files (pf s)) r l ≤ 1.
Proof.
  split; [|apply Hf]. unfold masters. pose proof (tally_bounds is_master (files (pf s)) l).
  destruct (has _ _); lia.
Qed.

Lemma r3_same : ff_inp r3 = ff_inp r ∧ ff_outp r3 = ff_outp r ∧ selfread r3 = selfread r.
Proof. unfold selfread. cbn. unfold r1, when. by destruct virgin. Qed.

Lemma opened_inp :
  ∃ q, m3 !! ff_inp r = Some q ∧ writers q = masters (files (pf s)) r l ∧
    counted (readers q) (tally slave_reads files' (f :: l)
                         + b2z (selfread r) * masters (files (pf s)) r l).
Proof.
  destruct (ok_inp _ _ _ _ Hf) as (q & Hq & Hw & Hc). pose proof masters_bounds as Hm.
  pose proof (tally_bounds slave_reads (files (pf s)) l) as Ht.
  rewrite tally_opened. unfold slave_reads at 1. rewrite fr3_master, fr3_opens.
  unfold m3, fl. rewrite new_head, Hhead. cbn [orb]. fold virgin. destruct virgin; cbn [negb andb].
  { by exists q. }
  exists (when (opens_read rw) more_readers q). split.
  { apply count_pipes_inp; [done|]. intros o Ho. by apply (ok_outp _ _ _ _ Hf). }
  split; [by destruct (opens_read rw)|].
  rewrite <- Z.add_assoc. apply when_more_readers; [done|]. destruct (selfread r); cbn [b2z]; lia.
Qed.

Lemma opened_outp o :
  ff_outp r = Some o → ∃ q, m3 !! o = Some q ∧ readers q = masters (files (pf s)) r l ∧
    counted (writers q) (tally slave_writes files' (f :: l) + b2z (selfread r)).
Proof.
  intros Ho. destruct (ok_outp _ _ _ _ Hf o Ho) as (Hne & q & Hq & Hw & Hc).
  pose proof (tally_bounds slave_writes (files (pf s)) l) as Ht.
  rewrite tally_opened. unfold slave_writes at 1. rewrite fr3_master, fr3_opens.
  unfold m3, fl. rewrite new_head, Hhead. cbn [orb]. fold virgin. destruct virgin; cbn [negb andb].
  { by exists q. }
  exists (when (opens_write rw) more_writers q). split; [by apply count_pipes_outp|].
  split; [by destruct (opens_write rw)|].
  rewrite <- Z.add_assoc. apply when_more_writers; [done|]. destruct (selfread r); cbn [b2z]; lia.
Qed.

Lemma opened_fifo_ok : fifo_ok opened b r3 (f :: l).
Proof.
  destruct r3_same as (Ei & Eo & Es). split.
  - apply lookup_insert_eq.
  - split; [done|]. exists fr3. split; [apply lookup_insert_eq|].
    eapply open_list_frame; [|apply Hf]. intros g Hg. cbn.
    rewrite lookup_insert_ne; [done|]. by intros ->.
  - constructor; [done|apply Hf].
  - cbn. unfold r1, when. pose proof (ok_flags _ _ _ _ Hf).
    destruct virgin; [by apply head_cleared|done].
  - rewrite r3_head. done.
  - cbn [opened with_file]. change (files (pf opened)) with files'. rewrite masters_opened. apply Hf.
  - intros g fg [->|Hg]%elem_of_cons; cbn [opened with_file].
    + change (files (pf opened)) with files'. unfold files'. rewrite lookup_insert_eq.
      intros [= <-]. rewrite fr3_master, !fr3_opens, Eo. done.
    + change (files (pf opened)) with files'. unfold files'.
      rewrite lookup_insert_ne by (by intros ->). rewrite Eo. by apply (ok_modes _ _ _ _ Hf).
  - change (files (pf opened)) with files'. rewrite masters_opened, Ei, Es. apply opened_inp.
  - intros o. change (files (pf opened)) with files'. rewrite masters_opened, Ei, Es, Eo. intros Ho.
    split; [by apply (ok_outp _ _ _ _ Hf)|]. by apply opened_outp.
Qed.

(** A state that differs in the file that could not be opened. *)
Lemma not_opened_ok s' :
  files (pf s') !! f ≠ None → (∀ g, g ≠ f → files (pf s') !! g = files (pf s) !! g) →
  pipes s' = pipes s → fifos s' !! b = fifos s !! b → fifo_ok s' b r l.
Proof.
  intros _ Hg Hp Hfs.
  assert (∀ g, g ∈ l → files (pf s') !! g = files (pf s) !! g) as Hl.
  { intros g Hgl. apply Hg. by intros ->. }
  assert (∀ P, (∀ fr fr', f_flags fr = f_flags fr' → P fr = P fr') →
    tally P (files (pf s')) l = tally P (files (pf s)) l) as Ht.
  { intros P HP. apply tally_frame; [|done]. intros g Hgl. by rewrite Hl. }
  assert (masters (files (pf s')) r l = masters (files (pf s)) r l) as Hm.
  { unfold masters. destruct (has _ _); [done|]. apply Ht, flags_is_master. }
  split; try apply Hf.
  - rewrite Hfs. apply Hf.
  - eapply open_list_frame; [|apply Hf]. intros g Hgl. by rewrite Hl.
  - rewrite Hm. apply Hf.
  - intros g fg Hgl. rewrite Hl by done. by apply (ok_modes _ _ _ _ Hf).
  - rewrite Hm, Ht, Hp by apply flags_slave_reads. apply Hf.
  - intros o Ho. rewrite Hm, Ht, Hp by apply flags_slave_writes. by apply (ok_outp _ _ _ _ Hf).
Qed.
End opening.

(** opening a fifo: if no open file forbids it, the file becomes the first of the
    open files and the counts of the pipes go with it - the creator, who must open for
    writing, has been counted since the creation; otherwise the open fails and the
    counts and the list are as before. *)
Theorem pipe_open_counts s L b r l f fr d fd :
  fs_ok s L → b ∈ L → fifo_ok s b r l →
  files (pf s) !! f = Some fr → f ∉ l → fc_index (f_fc fr) = ff_ino r →
  p_fd (pf s) !! curproc (fk (pf s)) = Some d → filedescs (pf s) !! d = Some fd →
  has (f_flags fr) O_HEAD = false → Z.of_nat (length l) < 32764 →
  (has (ff_flags r) O_HEAD = true → has (f_flags fr) O_CREAT = true ∧
    opens opens_write fr = true ∧ (is_Some (ff_outp r) → opens opens_read fr = true)) →
  let clash := Exists (conflicts (pf s) fd (shared_flags (Z.lor (f_flags fr) (ff_flags r)))) l in
  ∃ z s' r', pipe_open f s = Some (z, s') ∧ fs_ok s' L ∧
    (z = E_OK ∧ ¬ clash ∧ fifo_ok s' b r' (f :: l) ∧ has (ff_flags r') O_HEAD = false ∨
     z = EACCES ∧ clash ∧ fifo_ok s' b r' l ∧ r' = r).
Proof.
  intros Hok Hb Hf Hfr Hfl Hc Hd Hfd Hhead Hmany Hmode clash.
  pose proof (ok_fifo _ _ _ _ Hf) as Hr.
  assert (has (ff_flags r) O_HEAD = true → has (f_flags fr) O_CREAT = true) as Hcr
    by (intros Hv; by destruct (Hmode Hv)).
  assert (has (ff_flags r) O_HEAD = true → opens_write (Z.land (f_flags fr) O_RWMODE) = true ∧
    (is_Some (ff_outp r) → opens_read (Z.land (f_flags fr) O_RWMODE) = true)) as Hmd
    by (intros Hv; by destruct (Hmode Hv)).
  destruct (sharing_run s b r l Hf f fr Hfr Hfl d fd Hd Hfd) as (z & Ez & Hz).
  rewrite (tried_run s L Hok b r l Hb Hf f fr Hfr Hc d fd Hd Hfd) by done.
  rewrite (bind_run _ _ _ _ _ Ez). destruct Hz as [[-> Hcl]|[-> Hcl]].
  - cbn [negb Z.eqb Z.opp]. eexists EACCES, _, r. split; [done|].
    assert (has (ff_flags r) O_HEAD = false) as Hv.
    { destruct (has (ff_flags r) O_HEAD) eqn:E; [|done].
      rewrite (ok_virgin _ _ _ _ Hf E) in Hcl. by apply Exists_nil in Hcl. }
    rewrite Hv. cbn [when]. split.
    { by apply fs_ok_with_file, (fs_ok_with_fifo s L b r). }
    right. split; [done|]. split; [done|]. split; [|done].
    apply (not_opened_ok s b r l Hf f fr Hfl); [done|..]; cbn.
    + by rewrite lookup_insert_eq.
    + intros g Hg. by rewrite lookup_insert_ne.
    + done.
    + by rewrite lookup_insert_eq, Hr.
  - pose proof (opened_run s b r l Hf f fr) as E. erewrite bind_run in E by done.
    eexists E_OK, _, _. split; [exact E|]. split.
    { apply fs_ok_with_file, (fs_ok_with_fifo _ L b r);
        [done|by destruct (has (ff_flags r) O_HEAD)..|]. by apply fs_ok_set_pipes. }
    left. split; [done|]. split; [done|]. split.
    + apply (opened_fifo_ok s b r l Hf f fr Hfr Hfl Hhead Hmany).
      done.
    + by apply (r3_head s b r f fr).
Qed.

(** ** Waking *)

(** The kernel queues, and the processes that select on a pipe exist. *)
Record waiters_ok (s : pst) : Prop := {
  wa_queues : ∃ Q, queues_ok (fk (pf s)) Q;
  wa_sel p q x : pipes s !! p = Some q → p_rsel q = Some x ∨ p_wsel q = Some x →
    is_Some (procs (fk (pf s)) !! x)
}.

Definition sels (q : pipe) : option ptr * option ptr := (p_rsel q, p_wsel q).

(** Changes of the pipes that keep the selecting processes. *)
Lemma waiters_ok_frame s s' :
  fk (pf s') = fk (pf s) → (∀ p, sels <$> pipes s' !! p = sels <$> pipes s !! p) →
  waiters_ok s → waiters_ok s'.
Proof.
  intros Hk Hp [HQ Hsel]. split; [by rewrite Hk|]. intros p q' x Hq Hx. rewrite Hk.
  specialize (Hp p). rewrite Hq in Hp. destruct (pipes s !! p) as [q|] eqn:E; [|done].
  injection Hp as Hr Hw. apply (Hsel p q x E). rewrite <- Hr, <- Hw. done.
Qed.

Definition wakes (c : M pst unit) (s : pst) : Prop :=
  ∃ s', c s = Some ((), s') ∧ only_kernel s s' ∧ waiters_ok s'.

Lemma wakes_ret s : waiters_ok s → wakes (mret ()) s.
Proof. exists s. split; [done|]. split; [apply only_kernel_refl|done]. Qed.

Lemma wakes_bind c1 (c2 : unit → M pst unit) s :
  wakes c1 s → (∀ s', only_kernel s s' → waiters_ok s' → wakes (c2 ()) s') → wakes (c1 ≫= c2) s.
Proof.
  intros (s1 & E1 & H1 & Hw1) H2. destruct (H2 s1 H1 Hw1) as (s2 & E2 & Hk2 & Hw2).
  exists s2. split; [by rewrite (bind_run _ _ _ _ _ E1)|].
  split; [by eapply only_kernel_trans|done].
Qed.

Lemma wake_wakes s cond : waiters_ok s → wakes (on_k (wake IO_Q cond)) s.
Proof.
  intros Hw. destruct (wa_queues _ Hw) as [Q HQ].
  destruct (wake_ok (fk (pf s)) Q IO_Q cond HQ) as (k' & E & HQ' & Hc & _); [done|].
  exists (set_pf (set_fk k' (pf s)) s). split; [unfold on_k, on_kernel, mlift; by rewrite E|].
  split; [by eexists|]. split; [by eexists|].
  intros p q x Hq Hx. apply (cores_some _ _ x Hc). by apply (wa_sel _ Hw p q).
Qed.

Lemma wakeselect_wakes s o :
  waiters_ok s → (∀ x, o = Some x → is_Some (procs (fk (pf s)) !! x)) →
  wakes (wakeselect_opt o) s.
Proof.
  intros Hw Ho. destruct o as [x|]; [|by apply wakes_ret].
  destruct (Ho x eq_refl) as [rx Hx]. destruct (wa_queues _ Hw) as [Q HQ].
  destruct (wakeselect_ready (fk (pf s)) Q x rx HQ Hx) as (k' & Q' & r' & E & HQ' & _ & _ & _ & _ & Hd).
  exists (set_pf (set_fk k' (pf s)) s). split.
  { unfold wakeselect_opt, on_k, on_kernel, mlift. by rewrite E. }
  split; [by eexists|]. split; [by eexists|].
  intros p q y Hq Hy. apply Hd. by apply (wa_sel _ Hw p q).
Qed.

Lemma only_kernel_pipe s s' p : only_kernel s s' → pipes s' !! p = pipes s !! p.
Proof. intros [k ->]. done. Qed.

Lemma wake_end_wakes s rf p : waiters_ok s → is_Some (pipes s !! p) → wakes (wake_end rf p) s.
Proof.
  intros Hw [q Hq]. apply wakes_bind; [by apply wake_wakes|]. intros s1 H1 Hw1.
  rewrite <- (only_kernel_pipe _ _ _ H1) in Hq.
  assert (∀ x, p_rsel q = Some x ∨ p_wsel q = Some x → is_Some (procs (fk (pf s1)) !! x)) as Hsel.
  { intros x. by apply (wa_sel _ Hw1 p q). }
  unfold wakes. rewrite (bind_run _ _ _ _ _ (getpipe_run _ _ _ Hq)). apply wakes_bind.
  { apply wakeselect_wakes; [done|]. intros x Hx. apply Hsel. destruct rf; auto. }
  intros s2 H2 Hw2. rewrite <- (only_kernel_pipe _ _ _ H2) in Hq.
  unfold wakes. rewrite (bind_run _ _ _ _ _ (getpipe_run _ _ _ Hq)). apply wakeselect_wakes; [done|].
  intros x Hx. apply (wa_sel _ Hw2 p q x Hq). destruct rf; auto.
Qed.

(** ** Taking a file off the list *)

Definition without_file (f : ptr) (l : list ptr) : list ptr := filter (λ g, g ≠ f) l.

Lemma without_split f l1 l2 : f ∉ l1 → f ∉ l2 → without_file f (l1 ++ f :: l2) = l1 ++ l2.
Proof.
  intros H1 H2. unfold without_file. rewrite filter_app, filter_cons.
  rewrite decide_False by (intros H; by apply H).
  rewrite !filter_all; [done|..]; apply Forall_forall; intros g Hg ->; contradiction.
Qed.

(** The link that points to [f] is [prev]'s, or that of the last file before [f]. *)
Definition set_link (this : ptr) (o : option ptr) (nx : option ptr) : M pst unit :=
  match o with
  | None => modfifo this (set_ff_open nx)
  | Some x => mod_file x (set_f_next nx)
  end.

Lemma unlink_file_run s this f fr l2 : ∀ l1 prev o fuel,
  files (pf s) !! f = Some fr → open_list (files (pf s)) o (l1 ++ f :: l2) → f ∉ l1 →
  (length l1 < fuel)%nat →
  unlink_file fuel this f prev o s =
    set_link this (match last l1 with Some x => Some x | None => prev end) (f_next fr) s.
Proof.
  induction l1 as [|x l1 IH]; intros prev o fuel Hf Hl Hn Hfuel.
  - destruct Hl as (-> & r & Hr & _). destruct fuel as [|fuel]; [cbn in Hfuel; lia|].
    cbn [unlink_file]. rewrite (bind_run _ _ _ _ _ (getf_run _ _ _ Hr)).
    rewrite bool_decide_true by done. rewrite Hr in Hf. by injection Hf as ->.
  - destruct Hl as (-> & r & Hr & Hl). destruct fuel as [|fuel]; [cbn in Hfuel; lia|].
    cbn [unlink_file]. rewrite (bind_run _ _ _ _ _ (getf_run _ _ _ Hr)).
    rewrite bool_decide_false by (intros ->; apply Hn; by left).
    rewrite IH; [|done..| |cbn in Hfuel; lia].
    + rewrite last_cons. by destruct (last l1).
    + intros H. apply Hn. by right.
Qed.

Lemma open_list_app m o l1 x l2 :
  open_list m o (l1 ++ x :: l2) →
  ∃ rx, m !! x = Some rx ∧ open_list m (f_next rx) l2 ∧
    ∀ nx l', x ∉ l1 → open_list (<[x := set_f_next nx rx]> m) nx l' →
      open_list (<[x := set_f_next nx rx]> m) o (l1 ++ x :: l').
Proof.
  revert o. induction l1 as [|y l1 IH]; intros o.
  - intros (-> & rx & Hx & Hl). exists rx. split; [done|]. split; [done|].
    intros nx l' _ Hl'. split; [done|]. exists (set_f_next nx rx). by rewrite lookup_insert_eq.
  - intros (-> & ry & Hy & Hl). destruct (IH _ Hl) as (rx & Hx & Hl2 & Hk).
    exists rx. split; [done|]. split; [done|]. intros nx l' Hn Hl'. split; [done|].
    exists ry. split.
    { rewrite lookup_insert_ne; [done|]. intros ->. apply Hn. by left. }
    apply Hk; [|done]. intros H. apply Hn. by right.
Qed.

(** The state after [f] was taken off. *)
Lemma unlink_ok s this r f fr l :
  fifos s !! this = Some r → files (pf s) !! f = Some fr → f ∈ l → NoDup l →
  open_list (files (pf s)) (ff_open r) l →
  ∃ s' r', (n ← mgets (λ s, size (files (pf s))); unlink_file n this f None (ff_open r)) s
      = Some ((), s') ∧
    fifos s' = <[this := r']> (fifos s) ∧ r' = set_ff_open (ff_open r') r ∧
    open_list (files (pf s')) (ff_open r') (without_file f l) ∧
    (∀ g, f_flags <$> files (pf s') !! g = f_flags <$> files (pf s) !! g) ∧
    pipes s' = pipes s ∧ fk (pf s') = fk (pf s) ∧ piperoot s' = piperoot s ∧
    files (pf s') !! f = Some fr.
Proof.
  intros Hr Hfr Hf Hnd Hl. pose proof (open_list_size _ _ _ Hl Hnd) as Hsz.
  apply list_elem_of_split in Hf as (l1 & l2 & ->). rewrite length_app in Hsz. cbn in Hsz.
  apply NoDup_app in Hnd as (Hnd1 & Hd & [Hf2 Hnd2]%NoDup_cons).
  assert (f ∉ l1) as Hf1 by (intros H; apply (Hd f H); by left).
  erewrite bind_run by done.
  rewrite (unlink_file_run s this f fr l2 l1 None _ _ Hfr Hl Hf1) by lia.
  rewrite (without_split f l1 l2) by done.
  destruct (open_list_app _ _ _ _ _ Hl) as (rf & Hrf & Hl2 & _).
  rewrite Hfr in Hrf. injection Hrf as <-. destruct l1 as [|x l1 _] using rev_ind.
  - exists (with_fifo_at this (set_ff_open (f_next fr) r) s), (set_ff_open (f_next fr) r).
    cbn [last set_link]. rewrite (modfifo_run this r) by done. done.
  - rewrite last_snoc. cbn [set_link]. rewrite <- app_assoc in Hl.
    destruct (open_list_app _ _ _ _ _ Hl) as (rx & Hx & _ & Hk).
    assert (x ≠ f) as Hne by (intros ->; apply Hf1, elem_of_app; right; by left).
    assert (x ∉ l1 ∧ x ∉ l2) as [Hx1 Hx2].
    { apply NoDup_app in Hnd1 as (_ & Hd1 & _). split.
      - intros H. apply (Hd1 x H). by left.
      - intros H. apply (Hd x); [apply elem_of_app; right; by left|by right]. }
    exists (with_file x (set_f_next (f_next fr) rx) s), r.
    rewrite (mod_file_run _ _ _ _ Hx). split; [done|]. split; [cbn; by rewrite insert_id|].
    split; [by destruct r|]. split.
    { rewrite <- app_assoc. apply Hk; [done|]. eapply open_list_frame; [|exact Hl2].
      intros g Hg. rewrite lookup_insert_ne; [done|]. by intros ->. }
    split.
    { intros g. cbn. destruct (decide (g = x)) as [->|]; [|by rewrite lookup_insert_ne].
      by rewrite lookup_insert_eq, Hx. }
    split; [done|]. split; [done|]. split; [done|]. cbn. by rewrite lookup_insert_ne.
Qed.

(** ** Disposing of a fifo *)

Lemma unlink_fifo_run s b nx x l2 : ∀ l1 o fuel,
  fifo_list (fifos s) o (l1 ++ x :: b :: l2) → NoDup (l1 ++ x :: b :: l2) →
  (length l1 < fuel)%nat →
  unlink_fifo fuel b nx o s = modfifo x (set_ff_next nx) s.
Proof.
  induction l1 as [|y l1 IH]; intros o fuel Hl Hnd Hfuel.
  - destruct Hl as (-> & r & Hr & Hl). destruct fuel as [|fuel]; [cbn in Hfuel; lia|].
    cbn [unlink_fifo]. rewrite (bind_run _ _ _ _ _ (getfifo_run _ _ _ Hr)).
    destruct Hl as (-> & _). by rewrite bool_decide_true.
  - destruct Hl as (-> & r & Hr & Hl). destruct fuel as [|fuel]; [cbn in Hfuel; lia|].
    apply NoDup_cons in Hnd as [Hy Hnd]. cbn [unlink_fifo].
    rewrite (bind_run _ _ _ _ _ (getfifo_run _ _ _ Hr)). rewrite bool_decide_false.
    { apply IH; [done..|cbn in Hfuel; lia]. }
    intros E. rewrite E in Hl. destruct l1 as [|z l1]; destruct Hl as ([= Eb] & _).
    + apply NoDup_cons in Hnd as [Hx _]. apply Hx. rewrite Eb. by left.
    + cbn in Hnd. apply NoDup_cons in Hnd as [Hz _]. apply Hz. rewrite <- Eb.
      apply elem_of_app. right. right. by left.
Qed.

Lemma fifo_list_app m o l1 x l2 :
  fifo_list m o (l1 ++ x :: l2) →
  ∃ rx, m !! x = Some rx ∧ fifo_list m (ff_next rx) l2 ∧
    ∀ nx l', x ∉ l1 → fifo_list (<[x := set_ff_next nx rx]> m) nx l' →
      fifo_list (<[x := set_ff_next nx rx]> m) o (l1 ++ x :: l').
Proof.
  revert o. induction l1 as [|y l1 IH]; intros o.
  - intros (-> & rx & Hx & Hl). exists rx. split; [done|]. split; [done|].
    intros nx l' _ Hl'. split; [done|]. exists (set_ff_next nx rx). by rewrite lookup_insert_eq.
  - intros (-> & ry & Hy & Hl). destruct (IH _ Hl) as (rx & Hx & Hl2 & Hk).
    exists rx. split; [done|]. split; [done|]. intros nx l' Hn Hl'. split; [done|].
    exists ry. split.
    { rewrite lookup_insert_ne; [done|]. intros ->. apply Hn. by left. }
    apply Hk; [|done]. intros Hin. apply Hn. by right.
Qed.

(** The first part of [dispose]: the list without [b]. *)
Lemma unlink_fifo_ok s L b r :
  fs_ok s L → b ∈ L → fifos s !! b = Some r →
  ∃ s', (root ← mgets piperoot;
         if bool_decide (root = Some b) then mmod (set_piperoot (ff_next r))
         else n ← mgets (λ s, size (fifos s)); unlink_fifo n b (ff_next r) root) s = Some ((), s') ∧
    fs_ok s' (without_file b L) ∧ pf s' = pf s ∧ pipes s' = pipes s.
Proof.
  intros Hok Hb Hr. pose proof (fs_list _ _ Hok) as Hl. pose proof (fs_nodup _ _ Hok) as Hnd.
  pose proof (fifo_list_size _ _ _ Hl Hnd) as Hsz.
  pose proof Hb as (l1 & l2 & E)%list_elem_of_split. rewrite E in Hl, Hnd, Hsz.
  rewrite length_app in Hsz. cbn in Hsz.
  assert (b ∉ l1 ∧ b ∉ l2) as [Hb1 Hb2].
  { apply NoDup_app in Hnd as (_ & Hd & [? _]%NoDup_cons). split; [|done].
    intros Hin. apply (Hd b Hin). by left. }
  assert (without_file b L = l1 ++ l2) as EL by (rewrite E; by apply without_split).
  assert (∀ s', fifo_list (fifos s') (piperoot s') (l1 ++ l2) →
    (∀ c, (λ r, (ff_ino r, ff_name r)) <$> fifos s' !! c
        = (λ r, (ff_ino r, ff_name r)) <$> fifos s !! c) → fs_ok s' (without_file b L)) as Hfin.
  { intros s' Hl' Hc. rewrite EL.
    assert (∀ c rc, c ∈ l1 ++ l2 → fifos s' !! c = Some rc → ∃ rc0, c ∈ L ∧ fifos s !! c = Some rc0 ∧
      ff_ino rc = ff_ino rc0 ∧ ff_name rc = ff_name rc0) as Hold.
    { intros c rc Hcl Hrc. specialize (Hc c). rewrite Hrc in Hc.
      destruct (fifos s !! c) as [rc0|]; [|done]. injection Hc as -> ->. exists rc0.
      split; [|done]. rewrite E. apply elem_of_app in Hcl as [?|?]; apply elem_of_app; auto.
      right. by right. }
    split; [done|..].
    - apply NoDup_app in Hnd as (H1 & H2 & [_ H3]%NoDup_cons). apply NoDup_app.
      split; [done|]. split; [|done]. intros c H4 H5. apply (H2 c H4). by right.
    - intros c1 c2 r1 r2 H1 H2 (r1' & ? & ? & -> & _)%Hold (r2' & ? & ? & -> & _)%Hold; [|done..].
      by apply (fs_ino _ _ Hok).
    - intros c rc H1 (r' & ? & ? & _ & ->)%Hold; [|done]. by apply (fs_names _ _ Hok c). }
  erewrite bind_run by done. destruct l1 as [|x l1 _] using rev_ind.
  - destruct Hl as (Hroot & r' & Hr' & Hl). rewrite Hr in Hr'. injection Hr' as <-.
    rewrite bool_decide_true by done. eexists. split; [done|]. split; [|done].
    by apply Hfin.
  - rewrite <- app_assoc in Hl, Hnd. cbn [app] in Hl, Hnd.
    assert (piperoot s ≠ Some b) as Hroot.
    { intros Hc. rewrite Hc in Hl. apply Hb1. destruct l1 as [|y l1]; destruct Hl as ([= Ey] & _).
      - rewrite Ey. by left.
      - rewrite Ey. by left. }
    rewrite bool_decide_false by done. erewrite bind_run by done.
    rewrite length_app in Hsz. cbn in Hsz.
    rewrite (unlink_fifo_run s b _ x l2 l1) by (done || lia).
    destruct (fifo_list_app _ _ _ _ _ Hl) as (rx & Hx & (Hnx & rb & Hrb & Hl2) & Hk).
    rewrite (modfifo_run _ _ _ _ Hx). eexists. split; [done|]. split; [|done].
    rewrite Hr in Hrb. injection Hrb as <-. apply NoDup_app in Hnd as (Hn1 & Hn2 & Hn3).
    apply NoDup_cons in Hn3 as [Hn3 Hn4]. apply Hfin.
    + rewrite <- app_assoc. cbn [app]. apply Hk.
      { intros Hin. apply (Hn2 x Hin). by left. }
      eapply fifo_list_frame; [|exact Hl2]. intros c Hc. rewrite lookup_insert_ne; [done|].
      intros ->. apply Hn3. by right.
    + intros c. cbn. destruct (decide (c = x)) as [->|]; [|by rewrite lookup_insert_ne].
      by rewrite lookup_insert_eq, Hx.
Qed.

Lemma fs_ok_delete s s' L b :
  b ∉ L → fifos s' = delete b (fifos s) → piperoot s' = piperoot s → fs_ok s L → fs_ok s' L.
Proof.
  intros Hb Hf Hroot. apply fs_ok_frame; [done|]. intros c Hc. rewrite Hf.
  rewrite lookup_delete_ne; [done|]. by intros ->.
Qed.

Lemma dispose_ok s L b r :
  fs_ok s L → b ∈ L → fifos s !! b = Some r →
  ∃ s', dispose b s = Some ((), s') ∧ fs_ok s' (without_file b L) ∧ fifos s' !! b = None ∧
    pipes s' = match ff_outp r with Some o => delete o (delete (ff_inp r) (pipes s))
               | None => delete (ff_inp r) (pipes s) end ∧
    fk (pf s') = fk (pf s) ∧ files (pf s') = files (pf s).
Proof.
  intros Hok Hb Hr. destruct (unlink_fifo_ok s L b r Hok Hb Hr) as (s1 & E1 & Hok1 & Hpf & Hp).
  assert (b ∉ without_file b L) as Hn by (by intros [? _]%list_elem_of_filter).
  unfold dispose. rewrite (bind_run _ _ _ _ _ (getfifo_run _ _ _ Hr)).
  rewrite <- bind_assoc. rewrite (bind_run _ _ _ _ _ E1).
  destruct (ff_outp r) as [o|], (ff_tty r) as [t|]; eexists; (split; [reflexivity|]);
    (split; [apply (fs_ok_delete s1 _ _ b); [done|done|done|done]|]); cbn;
    rewrite ?Hp, ?Hpf; (split; [apply lookup_delete_eq|done]).
Qed.

(** ** Closing: the counts *)

Definition fewer_readers (q : pipe) : pipe := set_readers (s16 (readers q - 1)) q.
Definition fewer_writers (q : pipe) : pipe := set_writers (s16 (writers q - 1)) q.

(** What the last close of [fr] does to the pipes. *)
Definition close_pipes (fr : fileptr) (r : fifo) (m : gmap ptr pipe) : gmap ptr pipe :=
  when (is_master fr && selfread r) (alter fewer_readers (ff_inp r))
    (when (opens opens_write fr) (alter_at (write_end fr r) fewer_writers)
      (when (opens opens_read fr) (alter_at (read_end fr r) fewer_readers) m)).

Definition pipes_exist (r : fifo) (m : gmap ptr pipe) : Prop :=
  is_Some (m !! ff_inp r) ∧ ∀ o, ff_outp r = Some o → is_Some (m !! o).

Lemma alter_at_some o g m p : is_Some (alter_at o g m !! p) ↔ is_Some (m !! p).
Proof. destruct o; [apply lookup_alter_is_Some|done]. Qed.

Lemma alter_at_sels c o g m p :
  (∀ q, sels (g q) = sels q) → sels <$> when c (alter_at o g) m !! p = sels <$> m !! p.
Proof.
  intros Hg. destruct c; [|done]. destruct o as [o|]; [|done]. cbn.
  destruct (decide (p = o)) as [->|]; [|by rewrite lookup_alter_ne].
  rewrite lookup_alter_eq. destruct (m !! o); [|done]. cbn. by rewrite Hg.
Qed.

Lemma close_pipes_sels fr r m p : sels <$> close_pipes fr r m !! p = sels <$> m !! p.
Proof.
  unfold close_pipes.
  change (alter fewer_readers (ff_inp r)) with (alter_at (Some (ff_inp r)) fewer_readers).
  by rewrite !alter_at_sels.
Qed.

Lemma end_exists r m o :
  pipes_exist r m → o = Some (ff_inp r) ∨ o = ff_outp r → ∀ p, o = Some p → is_Some (m !! p).
Proof. intros [Hi Ho] [-> | ->] p; [by intros [= <-]|apply Ho]. Qed.

Lemma less_readers_run o s :
  (∀ p, o = Some p → is_Some (pipes s !! p)) →
  less_readers o s = Some ((), set_pipes (alter_at o fewer_readers (pipes s)) s).
Proof.
  intros Ho. destruct o as [p|]; [by apply modpipe_alter, Ho|by destruct s].
Qed.

Lemma less_writers_run o s :
  (∀ p, o = Some p → is_Some (pipes s !! p)) →
  less_writers o s = Some ((), set_pipes (alter_at o fewer_writers (pipes s)) s).
Proof.
  intros Ho. destruct o as [p|]; [by apply modpipe_alter, Ho|by destruct s].
Qed.

Lemma hangup_plain fr this o s :
  FileDesc.is_terminal fr = false → (∀ p, o = Some p → is_Some (pipes s !! p)) →
  hangup_slaves fr this o s = Some ((), s).
Proof.
  intros Ht Ho. destruct o as [p|]; [|done]. destruct (Ho p eq_refl) as [q Hq].
  unfold hangup_slaves. rewrite (bind_run _ _ _ _ _ (getpipe_run _ _ _ Hq)).
  by rewrite Ht, andb_false_r.
Qed.

(** The middle of [close_last]. *)
Lemma close_counts_run fr this r s (k : M pst unit) :
  FileDesc.is_terminal fr = false → pipes_exist r (pipes s) →
  (mwhen (opens_read (Z.land (f_flags fr) O_RWMODE)) (less_readers (read_end fr r)) ;;
   mwhen (opens_write (Z.land (f_flags fr) O_RWMODE))
     (less_writers (write_end fr r) ;; hangup_slaves fr this (write_end fr r)) ;;
   mwhen (has (f_flags fr) O_HEAD && negb (has (ff_dosflags r) FA_HIDDEN))
     (less_readers (Some (ff_inp r))) ;; k) s =
  k (set_pipes (close_pipes fr r (pipes s)) s).
Proof.
  intros Ht He.
  assert (read_end fr r = Some (ff_inp r) ∨ read_end fr r = ff_outp r) as Hre
    by (unfold read_end; case_match; auto).
  assert (write_end fr r = Some (ff_inp r) ∨ write_end fr r = ff_outp r) as Hwe
    by (unfold write_end; case_match; auto).
  unfold close_pipes, opens, is_master, selfread.
  set (rd := opens_read _). set (wr := opens_write _). set (sf := _ && _).
  set (m1 := when rd (alter_at (read_end fr r) fewer_readers) (pipes s)).
  assert (mwhen rd (less_readers (read_end fr r)) s = Some ((), set_pipes m1 s)) as E1.
  { unfold m1, mwhen, when. destruct rd; [|by destruct s].
    apply less_readers_run. by apply (end_exists r). }
  assert (∀ p, is_Some (m1 !! p) ↔ is_Some (pipes s !! p)) as H1.
  { intros p. unfold m1, when. destruct rd; [apply alter_at_some|done]. }
  rewrite (bind_run _ _ _ _ _ E1).
  set (m2 := when wr (alter_at (write_end fr r) fewer_writers) m1).
  assert (∀ p, is_Some (m2 !! p) ↔ is_Some (pipes s !! p)) as H2.
  { intros p. unfold m2, when. destruct wr; [rewrite alter_at_some|]; apply H1. }
  assert (mwhen wr (less_writers (write_end fr r) ;; hangup_slaves fr this (write_end fr r))
            (set_pipes m1 s) = Some ((), set_pipes m2 s)) as E2.
  { unfold m2, mwhen, when. destruct wr; [|done].
    rewrite (bind_run _ _ _ _ _ (less_writers_run (write_end fr r) (set_pipes m1 s)
      ltac:(intros p Hp; apply H1; by apply (end_exists r _ _ He Hwe)))).
    apply hangup_plain; [done|]. intros p Hp. cbn. apply alter_at_some, H1.
    by apply (end_exists r _ _ He Hwe). }
  rewrite (bind_run _ _ _ _ _ E2).
  assert (mwhen sf (less_readers (Some (ff_inp r))) (set_pipes m2 s)
    = Some ((), set_pipes (when sf (alter fewer_readers (ff_inp r)) m2) s)) as E3.
  { unfold mwhen, when. destruct sf; [|done].
    rewrite (less_readers_run (Some (ff_inp r)) (set_pipes m2 s)); [done|].
    intros p [= <-]. apply H2, (proj1 He). }
  by rewrite (bind_run _ _ _ _ _ E3).
Qed.

Lemma less_counted c n k :
  counted n (b2z c + k) → 0 ≤ k < 32767 → counted (when c (λ n, s16 (n - 1)) n) k.
Proof.
  intros Hn Hk. destruct c; cbn [when b2z] in *; [|by rewrite Z.add_0_l in Hn].
  destruct Hn as [->|[-> E]]; [|lia]. left. rewrite s16_id; lia.
Qed.

Lemma less_exact c n k : n = b2z c + k → 0 ≤ k < 32767 → when c (λ n, s16 (n - 1)) n = k.
Proof. intros -> Hk. destruct c; cbn [when b2z]; [rewrite s16_id|]; lia. Qed.

(** The counts at the two ends. *)
Section close_counts.
Context (s : pst) (b : ptr) (r : fifo) (l : list ptr) (Hf : fifo_ok s b r l).
Context (f : ptr) (fr : fileptr) (Hfr : files (pf s) !! f = Some fr) (Hfl : f ∈ l).
Context (Hmany : Z.of_nat (length l) < 32764).
Let l' := without_file f l.
Let m := files (pf s).

Lemma tally_without P : tally P m l = b2z (P fr) + tally P m l'.
Proof.
  pose proof Hfl as (l1 & l2 & E)%list_elem_of_split.
  pose proof (ok_nodup _ _ _ _ Hf) as Hnd. rewrite E in Hnd.
  apply NoDup_app in Hnd as (_ & Hd & [H2 _]%NoDup_cons).
  assert (f ∉ l1) as H1 by (intros Hin; apply (Hd f Hin); by left).
  unfold l'. rewrite E, without_split by done. rewrite !tally_app, (tally_cons P m f fr) by done. lia.
Qed.

Lemma not_virgin : has (ff_flags r) O_HEAD = false.
Proof.
  destruct (has (ff_flags r) O_HEAD) eqn:E; [|done].
  rewrite (ok_virgin _ _ _ _ Hf E) in Hfl. by apply not_elem_of_nil in Hfl.
Qed.

Lemma masters_without :
  masters m r l = b2z (is_master fr) + tally is_master m l' ∧ 0 ≤ tally is_master m l' ∧
  masters m r l ≤ 1.
Proof.
  pose proof (ok_one _ _ _ _ Hf) as H1. fold m in H1. revert H1. unfold masters.
  rewrite not_virgin, tally_without. pose proof (tally_bounds is_master m l'). lia.
Qed.

Lemma close_inp :
  ∃ q, close_pipes fr r (pipes s) !! ff_inp r = Some q ∧ writers q = tally is_master m l' ∧
    counted (readers q) (tally slave_reads m l' + b2z (selfread r) * tally is_master m l').
Proof.
  destruct (ok_inp _ _ _ _ Hf) as (q & Hq & Hw & Hc). fold m in Hw, Hc.
  destruct masters_without as (Em & Hm0 & Hm1). rewrite Em in *.
  rewrite tally_without in Hc. pose proof (tally_bounds slave_reads m l') as Ht.
  assert (length l' ≤ length l)%nat as Hl' by apply length_filter.
  pose proof (ok_modes _ _ _ _ Hf f fr Hfl Hfr) as Hmode.
  pose proof (λ o Ho, proj1 (ok_outp _ _ _ _ Hf o Ho)) as Hne.
  unfold close_pipes, read_end, write_end. fold (is_master fr).
  unfold slave_reads in Hc at 1. destruct (is_master fr) eqn:Ehd; cbn [negb andb b2z] in *.
  - destruct (Hmode eq_refl) as [Hwr _]. rewrite Hwr. cbn [when].
    assert (tally is_master m l' = 0) as E0 by lia. rewrite E0 in *.
    assert (when (opens opens_read fr) (alter_at (ff_outp r) fewer_readers) (pipes s) !! ff_inp r
      = Some q) as E1.
    { destruct (opens opens_read fr); [|done]. cbn [when]. unfold alter_at.
      destruct (ff_outp r) as [o|] eqn:Eo; [|done]. rewrite lookup_alter_ne; [done|by apply Hne]. }
    exists (when (selfread r) fewer_readers (fewer_writers q)). split.
    { destruct (selfread r); cbn [when alter_at]; rewrite ?lookup_alter_eq, E1; done. }
    split; [destruct (selfread r); cbn; by rewrite Hw|].
    replace (readers (when (selfread r) fewer_readers (fewer_writers q)))
      with (when (selfread r) (λ n, s16 (n - 1)) (readers q)) by (by destruct (selfread r)).
    apply less_counted; [|destruct (selfread r); cbn [b2z] in *; lia].
    destruct (selfread r); cbn [b2z] in *; [|by rewrite !Z.add_0_r in *].
    rewrite Z.add_comm. cbn in Hc. rewrite Z.add_0_r. exact Hc.
  - cbn [when]. rewrite Z.add_0_l in *.
    exists (when (opens opens_read fr) fewer_readers q). split.
    { destruct (opens opens_write fr); cbn [when]; unfold alter_at;
        [destruct (ff_outp r) as [o|] eqn:Eo; [rewrite lookup_alter_ne by (by apply Hne)|]|];
        destruct (opens opens_read fr); cbn [when]; by rewrite ?lookup_alter_eq, Hq. }
    split; [by destruct (opens opens_read fr)|].
    replace (readers (when (opens opens_read fr) fewer_readers q))
      with (when (opens opens_read fr) (λ n, s16 (n - 1)) (readers q))
      by (by destruct (opens opens_read fr)).
    apply less_counted; [by rewrite Z.add_assoc|]. destruct (selfread r); cbn [b2z]; lia.
Qed.

Lemma close_outp o :
  ff_outp r = Some o →
  ∃ q, close_pipes fr r (pipes s) !! o = Some q ∧ readers q = tally is_master m l' ∧
    counted (writers q) (tally slave_writes m l' + b2z (selfread r)).
Proof.
  intros Ho. destruct (ok_outp _ _ _ _ Hf o Ho) as (Hne & q & Hq & Hw & Hc). fold m in Hw, Hc.
  destruct masters_without as (Em & Hm0 & Hm1). rewrite Em in *.
  rewrite tally_without in Hc. pose proof (tally_bounds slave_writes m l') as Ht.
  assert (length l' ≤ length l)%nat as Hl' by apply length_filter.
  pose proof (ok_modes _ _ _ _ Hf f fr Hfl Hfr) as Hmode.
  unfold close_pipes, read_end, write_end. fold (is_master fr).
  unfold slave_writes in Hc at 1. destruct (is_master fr) eqn:Ehd; cbn [negb andb b2z] in *.
  - destruct (Hmode eq_refl) as [Hwr Hrd]. rewrite Hwr, Hrd, Ho by done. cbn [when alter_at].
    exists (fewer_readers q). split.
    { destruct (selfread r); cbn [when]; repeat (rewrite lookup_alter_ne by done);
        by rewrite lookup_alter_eq, Hq. }
    split; [cbn; rewrite Hw, s16_id; lia|exact Hc].
  - cbn [when]. rewrite Ho.
    exists (when (opens opens_write fr) fewer_writers q). split.
    { destruct (opens opens_write fr); cbn [when alter_at]; rewrite ?lookup_alter_eq;
        destruct (opens opens_read fr); cbn [when alter_at];
        repeat (rewrite lookup_alter_ne by done); by rewrite Hq. }
    split; [by destruct (opens opens_write fr)|].
    replace (writers (when (opens opens_write fr) fewer_writers q))
      with (when (opens opens_write fr) (λ n, s16 (n - 1)) (writers q))
      by (by destruct (opens opens_write fr)).
    apply less_counted; [by rewrite Z.add_assoc|]. destruct (selfread r); cbn [b2z]; lia.
Qed.
End close_counts.

(** ** Closing *)

Definition fifo_core (r : fifo) := (ff_inp r, ff_outp r, ff_next r, ff_ino r, ff_name r, ff_dosflags r).

Lemma wakes_run c s :
  wakes c s → ∃ s1, only_kernel s s1 ∧ waiters_ok s1 ∧ ∀ (k : M pst unit), (c ;; k) s = k s1.
Proof.
  intros (s1 & E & Hk & Hw). exists s1. split; [done|]. split; [done|].
  intros k. by rewrite (bind_run _ _ _ _ _ E).
Qed.

Lemma lock_cleared fl :
  has (Z.land fl (not16 O_LOCK)) O_HEAD = has fl O_HEAD ∧
  Z.land (Z.land fl (not16 O_LOCK)) O_USER = Z.land fl O_USER.
Proof. unfold has. by rewrite <- !Z.land_assoc. Qed.

Section closing.
Context (s : pst) (L : list ptr) (b : ptr) (r : fifo) (l : list ptr).
Context (f : ptr) (fr : fileptr) (cpid : Z).
Context (Hf : fifo_ok s b r l) (Hw : waiters_ok s).
Context (Hfl : f ∈ l) (Hfr : files (pf s) !! f = Some fr).
Context (Hterm : FileDesc.is_terminal fr = false).

Lemma inp_exists : pipes_exist r (pipes s).
Proof.
  split.
  - destruct (ok_inp _ _ _ _ Hf) as (q & Hq & _). by exists q.
  - intros o Ho. destruct (ok_outp _ _ _ _ Hf o Ho) as (_ & q & Hq & _). by exists q.
Qed.

(** The last close: the list, the counts, the lock. *)
Lemma close_last_ok :
  ∃ s' r', close_last f b cpid s = Some ((), s') ∧ waiters_ok s' ∧
    fifos s' = <[b := r']> (fifos s) ∧ fifo_core r' = fifo_core r ∧
    has (ff_flags r') O_HEAD = has (ff_flags r) O_HEAD ∧
    Z.land (ff_flags r') O_USER = Z.land (ff_flags r) O_USER ∧
    open_list (files (pf s')) (ff_open r') (without_file f l) ∧
    (∀ g, f_flags <$> files (pf s') !! g = f_flags <$> files (pf s) !! g) ∧
    pipes s' = close_pipes fr r (pipes s) ∧ piperoot s' = piperoot s.
Proof.
  pose proof (ok_fifo _ _ _ _ Hf) as Hr. destruct inp_exists as [Hi Ho].
  unfold close_last. rewrite (bind_run _ _ _ _ _ (getfifo_run _ _ _ Hr)).
  destruct (wakes_run _ _ (wake_end_wakes s true _ Hw Hi)) as (s1 & [k1 ->] & Hw1 & E1).
  rewrite E1. clear E1.
  assert (wakes (match ff_outp r with Some o => wake_end false o | None => mret () end)
    (set_pf (set_fk k1 (pf s)) s)) as Hwk.
  { destruct (ff_outp r) as [o|]; [|by apply wakes_ret]. apply wake_end_wakes; [done|]. by apply Ho. }
  destruct (wakes_run _ _ Hwk) as (s2 & [k2 ->] & Hw2 & E2). rewrite E2. clear E2 Hwk Hw1.
  set (s2 := set_pf _ _) in *.
  destruct (unlink_ok s2 b r f fr l Hr Hfr Hfl (ok_nodup _ _ _ _ Hf) (ok_open _ _ _ _ Hf))
    as (s3 & r3 & E3 & Hff & Hr3 & Hl3 & Hg3 & Hp3 & Hk3 & Hroot3 & Hf3).
  rewrite <- bind_assoc, (bind_run _ _ _ _ _ E3). clear E3.
  rewrite (bind_run _ _ _ _ _ (getf_run _ _ _ Hf3)).
  rewrite close_counts_run; [|done|by rewrite Hp3].
  set (s4 := set_pipes _ s3).
  assert (waiters_ok s4) as Hw4.
  { apply (waiters_ok_frame s2); [done| |done]. intros p. unfold s4. cbn [pipes set_pipes].
    rewrite close_pipes_sels. by rewrite Hp3. }
  assert (fifos s4 !! b = Some r3) as Hb4 by (unfold s4; cbn; rewrite Hff; apply lookup_insert_eq).
  assert (fifo_core r3 = fifo_core r) as Hcore by (by rewrite Hr3).
  assert (ff_flags r3 = ff_flags r) as Hfl3 by (by rewrite Hr3).
  unfold mwhen. destruct (has (f_flags fr) O_LOCK && (ff_lockpid r =? cpid)).
  - rewrite (bind_run _ _ _ _ _ (modfifo_run b r3 _ s4 Hb4)).
    set (r5 := set_ff_flags _ r3). set (s5 := with_fifo_at b r5 s4).
    assert (waiters_ok s5) as Hw5 by (by apply (waiters_ok_frame s4)).
    destruct (wake_wakes s5 (cond_of b) Hw5) as (s6 & E6 & [k6 ->] & Hw6).
    rewrite E6. clear E6. eexists _, r5. split; [done|]. split; [done|]. split.
    { cbn. unfold s5, s4. cbn. by rewrite Hff, insert_insert_eq. }
    destruct (lock_cleared (ff_flags r3)) as [H1 H2].
    split; [done|]. split; [by rewrite <- Hfl3|]. split; [by rewrite <- Hfl3|].
    split; [done|]. split; [done|]. split; [|done]. cbn. unfold s5, s4. cbn. by rewrite Hp3.
  - exists s4, r3. split; [done|]. split; [done|]. split; [done|]. split; [done|].
    split; [by rewrite Hfl3|]. split; [by rewrite Hfl3|]. split; [done|]. split; [done|].
    split; [|done]. unfold s4. cbn. by rewrite Hp3.
Qed.

(** The fifo with the rest of its open files. *)
Lemma closed_ok s' r' q (Hmany : Z.of_nat (length l) < 32764) :
  let l' := without_file f l in let m := files (pf s) in
  fifos s' !! b = Some r' → fifo_core r' = fifo_core r →
  has (ff_flags r') O_HEAD = has (ff_flags r) O_HEAD →
  Z.land (ff_flags r') O_USER = Z.land (ff_flags r) O_USER →
  open_list (files (pf s')) (ff_open r') l' →
  (∀ g, f_flags <$> files (pf s') !! g = f_flags <$> m !! g) →
  (∀ p, p ≠ ff_inp r → pipes s' !! p = close_pipes fr r (pipes s) !! p) →
  pipes s' !! ff_inp r = Some q → writers q = tally is_master m l' →
  readers q = tally slave_reads m l' + b2z (selfread r) * tally is_master m l' →
  fifo_ok s' b r' l'.
Proof.
  intros l' m Hb' [= Hi Ho _ _ _ Hdos] Hhead Husr Hl Hg Hp Hq Hqw Hqr.
  assert (∀ P, (∀ fr fr', f_flags fr = f_flags fr' → P fr = P fr') →
    tally P (files (pf s')) l' = tally P m l') as Ht.
  { intros P HP. apply tally_frame; [|done]. intros g _. apply Hg. }
  pose proof (not_virgin s b r l Hf f Hfl) as Hv.
  destruct (masters_without s b r l Hf f fr Hfr Hfl) as (Em & _ & Hone). fold m l' in Em, Hone.
  assert (0 ≤ b2z (is_master fr)) by (by destruct (is_master fr)).
  assert (masters (files (pf s')) r' l' = tally is_master m l') as Hm.
  { unfold masters. rewrite Hhead, Hv. apply Ht, flags_is_master. }
  assert (selfread r' = selfread r) as Hs by (unfold selfread; by rewrite Hdos).
  split; rewrite ?Hm, ?Hi, ?Ho, ?Hs.
  - done.
  - done.
  - apply NoDup_filter, Hf.
  - rewrite Husr. apply Hf.
  - by rewrite Hhead, Hv.
  - lia.
  - intros g fg Hgl Hfg. specialize (Hg g). rewrite Hfg in Hg.
    destruct (m !! g) as [fg0|] eqn:E0; [|done]. injection Hg as Hg.
    apply list_elem_of_filter in Hgl as [_ Hgl].
    pose proof (ok_modes _ _ _ _ Hf g fg0 Hgl E0).
    by rewrite (flags_is_master fg fg0), !(flags_opens _ fg fg0).
  - exists q. split; [done|]. split; [done|]. left. by rewrite Ht by apply flags_slave_reads.
  - intros o Hoo. destruct (ok_outp _ _ _ _ Hf o Hoo) as [Hne _]. split; [done|].
    destruct (close_outp s b r l Hf f fr Hfr Hfl Hmany o Hoo) as (q2 & Hq2 & Hr2 & Hw2).
    exists q2. rewrite Hp by done. split; [done|]. split; [done|].
    by rewrite Ht by apply flags_slave_writes.
Qed.
End closing.

(** The file keeps the fifo alive. *)
Definition keeps (s : pst) (g : ptr) : Prop :=
  ∃ fg, files (pf s) !! g = Some fg ∧ (is_master fg = true ∨ slave_reads fg = true).

Lemma keeps_tally s l :
  Exists (keeps s) l ↔ 0 < tally is_master (files (pf s)) l + tally slave_reads (files (pf s)) l.
Proof.
  pose proof (tally_bounds is_master (files (pf s)) l).
  pose proof (tally_bounds slave_reads (files (pf s)) l).
  pose proof (tally_pos is_master (files (pf s)) l) as Hm.
  pose proof (tally_pos slave_reads (files (pf s)) l) as Hs.
  rewrite !Exists_exists in *. split.
  - intros (g & Hg & fg & Hfg & [Hk|Hk]).
    + assert (0 < tally is_master (files (pf s)) l); [|lia]. apply Hm. exists g. by rewrite Hfg.
    + assert (0 < tally slave_reads (files (pf s)) l); [|lia]. apply Hs. exists g. by rewrite Hfg.
  - intros Hpos. destruct (decide (0 < tally is_master (files (pf s)) l)) as [Hp|Hp].
    + apply Hm in Hp as (g & Hg & Hk). exists g. split; [done|].
      destruct (files (pf s) !! g) as [fg|] eqn:E; [|done]. exists fg. auto.
    + assert (0 < tally slave_reads (files (pf s)) l) as Hp' by lia.
      apply Hs in Hp' as (g & Hg & Hk). exists g. split; [done|].
      destruct (files (pf s) !! g) as [fg|] eqn:E; [|done]. exists fg. auto.
Qed.

Lemma unvirgin_counts q k w :
  writers q = w → counted (readers q) k → 0 ≤ k < 32767 → 0 ≤ w ≤ 1 →
  readers (unvirgin q) = k ∧ writers (unvirgin q) = w.
Proof.
  intros Hw Hc Hk Hw1. unfold unvirgin, VIRGIN_PIPE.
  assert (readers (if readers q =? 32767 then set_readers 0 q else q) = k ∧
    writers (if readers q =? 32767 then set_readers 0 q else q) = w) as [H1 H2].
  { destruct (Z.eqb_spec (readers q) 32767) as [E|E]; cbn; (split; [|done]);
      destruct Hc as [Hc|[Hc ->]]; unfold VIRGIN_PIPE in *; lia. }
  destruct (Z.eqb_spec (writers (if readers q =? 32767 then set_readers 0 q else q)) 32767);
    [lia|done].
Qed.

(** C18: the last close of a file of a fifo takes the file off the list and its ends
    off the counts, and keeps the fifo exactly while a master or a reading slave
    remains; otherwise the fifo leaves the file system and its pipes are freed. *)
Theorem pipe_close_counts s L b r l f fr cpid :
  fs_ok s L → b ∈ L → fifo_ok s b r l → waiters_ok s → f ∈ l →
  files (pf s) !! f = Some fr → fc_index (f_fc fr) = ff_ino r → f_links fr ≤ 0 →
  has (f_flags fr) O_TTY = false → Z.of_nat (length l) < 32764 →
  ∃ s', pipe_close f cpid s = Some (E_OK, s') ∧
    (Exists (keeps s) (without_file f l) ∧ fs_ok s' L ∧
       (∃ r', fifo_ok s' b r' (without_file f l) ∧ fifo_core r' = fifo_core r)
     ∨ ¬ Exists (keeps s) (without_file f l) ∧ fs_ok s' (without_file b L) ∧
       fifos s' !! b = None ∧ pipes s' !! ff_inp r = None ∧
       ∀ o, ff_outp r = Some o → pipes s' !! o = None).
Proof.
  intros Hok Hb Hf Hw Hfl Hfr Hc Hlinks Hterm Hmany. pose proof (ok_fifo _ _ _ _ Hf) as Hr.
  destruct (close_last_ok s b r l f fr cpid Hf Hw Hfl Hfr Hterm)
    as (s1 & r1 & E1 & Hw1 & Hff & Hcore & Hhead & Husr & Hl1 & Hg1 & Hp1 & Hroot1).
  pose proof Hcore as [= Hi Ho Hnx Hino Hname Hdos].
  unfold pipe_close. rewrite (bind_run _ _ _ _ _ (getf_run _ _ _ Hfr)).
  rewrite (with_fifo_found s L Hok _ _ _ b r Hb Hr) by done.
  replace (f_links fr <=? 0) with true by lia. cbn [mwhen].
  rewrite (bind_run _ _ _ _ _ E1).
  assert (fifos s1 !! b = Some r1) as Hr1 by (rewrite Hff; apply lookup_insert_eq).
  rewrite (bind_run _ _ _ _ _ (getfifo_run _ _ _ Hr1)). rewrite Hi.
  destruct (close_inp s b r l Hf f fr Hfr Hfl Hmany) as (q & Hq & Hqw & Hqr). rewrite <- Hp1 in Hq.
  rewrite (bind_run _ _ _ _ _ (modpipe_run _ _ _ _ Hq)). set (s2 := with_pipe _ _ _).
  assert (pipes s2 !! ff_inp r = Some (unvirgin q)) as Hq2 by apply lookup_insert_eq.
  rewrite (bind_run _ _ _ _ _ (getpipe_run _ _ _ Hq2)).
  set (m := files (pf s)) in *. set (l' := without_file f l) in *.
  pose proof (tally_bounds slave_reads m l') as Hb1. pose proof (tally_bounds is_master m l') as Hb2.
  destruct (masters_without s b r l Hf f fr Hfr Hfl) as (Em & _ & Hone). fold m l' in Em, Hone.
  assert (length l' ≤ length l)%nat as Hlen by apply length_filter.
  assert (0 ≤ b2z (is_master fr)) by (by destruct (is_master fr)).
  destruct (unvirgin_counts q _ _ Hqw Hqr) as [Hu1 Hu2]; [destruct (selfread r); cbn [b2z]; lia|lia|].
  rewrite Hu1, Hu2. pose proof (keeps_tally s l') as Hk. fold m in Hk.
  assert (fs_ok s1 L) as Hok1.
  { apply (fs_ok_with_fifo s L b r r1) in Hok; [|done..]. revert Hok. by apply fs_ok_frame; rewrite ?Hff. }
  assert (fs_ok s2 L) as Hok2 by (by apply fs_ok_set_pipes).
  destruct (decide (0 < tally is_master m l' + tally slave_reads m l')) as [Hkeep|Hkeep].
  - replace (_ && _) with false by (symmetry; apply andb_false_iff; rewrite !Z.leb_gt;
      destruct (selfread r); cbn [b2z]; lia).
    cbn [mwhen]. exists s2. split; [done|]. left. split; [by apply Hk|].
    split; [done|]. exists r1. split; [|done].
    apply (closed_ok s b r l f fr Hf Hfl Hfr s2 r1 (unvirgin q)); try done.
    intros p Hp. rewrite <- Hp1. by apply lookup_insert_ne.
  - replace (_ && _) with true by (symmetry; apply andb_true_iff; rewrite !Z.leb_le;
      destruct (selfread r); cbn [b2z]; lia).
    destruct (dispose_ok s2 L b r1 Hok2 Hb Hr1) as (s3 & E3 & Hok3 & Hn3 & Hp3 & _).
    cbn [mwhen]. rewrite (bind_run _ _ _ _ _ E3). exists s3. split; [done|]. right.
    split; [by rewrite Hk|]. split; [done|]. split; [done|]. rewrite Hp3, Ho, Hi. split.
    + destruct (ff_outp r) as [o|]; [|apply lookup_delete_eq].
      destruct (decide (ff_inp r = o)) as [->|]; [apply lookup_delete_eq|].
      rewrite lookup_delete_ne by done. apply lookup_delete_eq.
    + intros o Hoo. rewrite Hoo. apply lookup_delete_eq.
Qed.

(** ** Selecting and waking *)

Section selecting.
Context (f this p : ptr) (flags ino : Z) (inp : ptr) (outp : option ptr) (dos : Z).
Context (Hterm : has flags O_TTY = false).
Let rdy := ready f this p flags ino inp outp dos.

Lemma ready_fifo s q : rdy s q →
  ∃ fr r, files (pf s) !! f = Some fr ∧ f_flags fr = flags ∧ fifos s !! this = Some r ∧
    ff_inp r = inp ∧ ff_outp r = outp ∧
    ∀ A (e : A) k, with_fifo (f_fc fr) e k s = k this s.
Proof.
  intros Hr. destruct (rd_file _ _ _ _ _ _ _ _ _ _ Hr) as (fr & Hf & Hfl & Hino).
  destruct (rd_fifo _ _ _ _ _ _ _ _ _ _ Hr) as (r & Hr' & Hi & Ho & _).
  exists fr, r. do 5 (split; [done|]). intros A e k. unfold with_fifo. rewrite Hino.
  by rewrite (bind_run _ _ _ _ _ (rd_lookup _ _ _ _ _ _ _ _ _ _ Hr)).
Qed.

(** The system without other processes: a sleep would never end. *)
Definition sleepless (g : SignalCalls) (put : ptr → Z → M pst unit) : PipeCalls :=
  {| psleep := λ _ _, mpanic; putchar := put; pc_signals := g |}.

Context (Hend : (if has flags O_HEAD then outp else Some inp) = Some p).

(** A read of one byte that need not wait. *)
Lemma read_one g put fuel s q :
  rdy s q → 0 < p_len q ∨ writers q ≤ 0 →
  ∃ l s1, @pipe_read (sleepless g put) (S fuel) f 1 s
      = Some (Z.of_nat (length l), l, s1) ∧ l = take 1 (contents q).
Proof.
  intros Hr Hcase. destruct (ready_fifo s q Hr) as (fr & r & Hf & Hfl & Hff & Hi & Ho & _).
  destruct (rd_file _ _ _ _ _ _ _ _ _ _ Hr) as (fr' & Hf' & _ & Hino). rewrite Hf in Hf'.
  injection Hf' as <-. pose proof (contents_len q (rd_wf _ _ _ _ _ _ _ _ _ _ Hr)) as Hlen.
  unfold pipe_read. rewrite (bind_run _ _ _ _ _ (getf_run _ _ _ Hf)), Hino.
  rewrite (bind_run _ _ _ _ _ (rd_lookup _ _ _ _ _ _ _ _ _ _ Hr)). cbv beta iota.
  rewrite (bind_run _ _ _ _ _ (getfifo_run _ _ _ Hff)). unfold read_end.
  rewrite Hfl, Hi, Ho, Hend.
  assert (∃ l s2 q2, @read_loop (sleepless g put) (S fuel) f this p 1 [] s = Some (None, l, s2) ∧
    rdy s2 q2 ∧ l = take 1 (contents q)) as (l & s2 & q2 & El & Hr2 & Hl).
  { destruct (decide (0 < p_len q)) as [Hpos|Hpos].
    - destruct (@read_chunk (sleepless g put) _ _ _ _ _ _ _ _ fuel 1 [] s q Hr ltac:(lia) Hpos)
        as (s2 & q2 & l & Hr2 & Hc & Hl & _ & E).
      exists l, s2, q2. rewrite E. replace (1 - Z.of_nat (length l)) with 0 by lia.
      split; [by destruct fuel|]. split; [done|]. rewrite Hc, take_app_length'; [done|]. lia.
    - destruct (@read_empty (sleepless g put) _ _ _ _ _ _ _ _ fuel 1 [] s q Hr ltac:(lia) ltac:(lia))
        as (s2 & _ & E). exists [], s, q. rewrite E.
      replace (no_writers (writers q)) with true.
      2: { symmetry. unfold no_writers. apply orb_true_iff. left. apply Z.leb_le. lia. }
      split; [done|]. split; [done|]. by rewrite (contents_empty q) by (apply Hr || lia). }
  rewrite (bind_run _ _ _ _ _ El). cbv beta iota.
  rewrite (bind_run _ _ _ _ _ (getpipe_run _ _ _ (rd_pipe _ _ _ _ _ _ _ _ _ _ Hr2))).
  destruct (wake_writers_ready _ _ _ _ _ _ _ _ s2 q2 Hr2) as (s3 & E3 & _).
  destruct (p_len q2 <? PIPESIZ); cbn [mwhen].
  - exists l, s3. by rewrite (bind_run _ _ _ _ _ E3).
  - by exists l, s2.
Qed.

(** [pipe_unselect] takes the process off again. *)
Lemma unselect_read s q c :
  rdy s q → p_rsel q = None →
  pipe_unselect f c O_RDONLY (with_pipe p (set_p_rsel (Some c) q) s) = Some ((), s).
Proof.
  intros Hr Hs. destruct (ready_fifo s q Hr) as (fr & r & Hf & Hfl & Hff & Hi & Ho & _).
  pose proof (rd_pipe _ _ _ _ _ _ _ _ _ _ Hr) as Hq.
  destruct (rd_file _ _ _ _ _ _ _ _ _ _ Hr) as (fr' & Hf' & _ & Hino).
  rewrite Hf in Hf'. injection Hf' as <-.
  set (s' := with_pipe p _ s). unfold pipe_unselect.
  rewrite (bind_run _ _ _ _ _ (getf_run f fr s' Hf)).
  assert (pipe_lookupi ino s' = Some (Some this, s')) as El.
  { pose proof (rd_lookup _ _ _ _ _ _ _ _ _ _ Hr) as El.
    unfold pipe_lookupi, mbind, M_bind, mgets in *. eapply lookupi_frame; [|exact El]. done. }
  unfold with_fifo. rewrite Hino, (bind_run _ _ _ _ _ El). cbv beta iota.
  rewrite (bind_run _ _ _ _ _ (getfifo_run s' this r Hff)). cbn [Z.eqb O_RDONLY].
  unfold read_end. rewrite Hfl, Hi, Ho, Hend.
  assert (pipes s' !! p = Some (set_p_rsel (Some c) q)) as Hq' by apply lookup_insert_eq.
  rewrite (bind_run _ _ _ _ _ (getpipe_run _ _ _ Hq')). rewrite bool_decide_true by done.
  rewrite (bind_run _ _ _ _ _ (modpipe_run _ _ _ _ Hq')). unfold tell_tty, FileDesc.is_terminal.
  rewrite Hfl, Hterm. cbn [andb]. unfold s', with_pipe. cbn. rewrite insert_insert_eq.
  replace (set_p_rsel None (set_p_rsel (Some c) q)) with q by (destruct q; cbn in *; by subst).
  rewrite insert_id by done. by destruct s.
Qed.

(** selecting a fifo for reading: 1 means that a read of one byte does not sleep;
    0 that the pipe is empty and has or awaits a writer, and the process is now
    the one that the pipe tells of new bytes, which unselect undoes; 2 that another
    process was there first. *)
Theorem pipe_select_read g put fuel s q c :
  rdy s q →
  ∃ z s', pipe_select f c O_RDONLY s = Some (z, s') ∧
    (z = 1 ∧ s' = s ∧
       (∃ l s1, @pipe_read (sleepless g put) (S fuel) f 1 s
          = Some (Z.of_nat (length l), l, s1) ∧ l = take 1 (contents q))
     ∨ z = 0 ∧ contents q = [] ∧ 0 < writers q ∧ p_rsel q = None ∧
       s' = with_pipe p (set_p_rsel (Some c) q) s ∧
       pipe_unselect f c O_RDONLY s' = Some ((), s)
     ∨ z = 2 ∧ s' = s ∧ contents q = [] ∧ ∃ x, p_rsel q = Some x).
Proof.
  intros Hr. destruct (ready_fifo s q Hr) as (fr & r & Hf & Hfl & Hff & Hi & Ho & Hk).
  pose proof (rd_pipe _ _ _ _ _ _ _ _ _ _ Hr) as Hq.
  pose proof (rd_wf _ _ _ _ _ _ _ _ _ _ Hr) as Hwf.
  pose proof (contents_len q Hwf) as Hlen.
  assert (FileDesc.is_terminal fr = false) as Ht by (unfold FileDesc.is_terminal; by rewrite Hfl).
  unfold pipe_select. rewrite (bind_run _ _ _ _ _ (getf_run _ _ _ Hf)), Hk.
  rewrite (bind_run _ _ _ _ _ (getfifo_run _ _ _ Hff)). cbn [Z.eqb O_RDONLY].
  unfold read_end. rewrite Hfl, Hi, Ho, Hend.
  rewrite (bind_run _ _ _ _ _ (getpipe_run _ _ _ Hq)).
  assert (readable fr this (p_len q) s = Some (p_len q >? 0, s)) as Er.
  { unfold readable. rewrite Ht. by destruct (p_len q >? 0). }
  rewrite (bind_run _ _ _ _ _ Er).
  destruct ((p_len q >? 0) || (writers q <=? 0)) eqn:Eb.
  { exists 1, s. split; [done|]. left. split; [done|]. split; [done|].
    apply read_one; [done|]. apply orb_true_iff in Eb as [E|E]; [left|right]; lia. }
  bool_to_prop. assert (contents q = []) as Hce by (by apply contents_empty).
  destruct (p_rsel q) as [x|] eqn:Es.
  { exists 2, s. split; [done|]. right. right. split; [done|]. split; [done|]. by split; [|exists x]. }
  rewrite (bind_run _ _ _ _ _ (modpipe_run _ _ _ _ Hq)). unfold tell_tty. rewrite Ht. cbn [andb].
  exists 0, (with_pipe p (set_p_rsel (Some c) q) s). split; [done|]. right. left.
  split; [done|]. split; [done|]. split; [lia|]. split; [done|]. split; [done|].
  by apply unselect_read.
Qed.
End selecting.

(** ** A write wakes the process that selects *)

(** The process is in the ready queue. *)
Definition runnable (s : pst) (c : ptr) : Prop :=
  ∃ Q, queues_ok (fk (pf s)) Q ∧ c ∈ Q READY_Q.

Lemma runnable_wake s cond c :
  runnable s c → ∃ s', on_k (wake IO_Q cond) s = Some ((), s') ∧ only_kernel s s' ∧ runnable s' c.
Proof.
  intros (Q & HQ & Hc). destruct (wake_ok (fk (pf s)) Q IO_Q cond HQ) as (k' & E & HQ' & _); [done|].
  exists (set_pf (set_fk k' (pf s)) s). split; [unfold on_k, on_kernel, mlift; by rewrite E|].
  split; [by eexists|]. eexists. split; [exact HQ'|]. rewrite moved_ready. apply elem_of_app. by left.
Qed.

Lemma runnable_wakeselect s x c :
  runnable s c → is_Some (procs (fk (pf s)) !! x) →
  ∃ s', wakeselect_opt (Some x) s = Some ((), s') ∧ only_kernel s s' ∧ runnable s' c.
Proof.
  intros (Q & HQ & Hc) [rx Hx].
  destruct (wakeselect_ready (fk (pf s)) Q x rx HQ Hx) as (k' & Q' & r' & E & HQ' & _ & _ & _ & Hq & _).
  exists (set_pf (set_fk k' (pf s)) s).
  split; [unfold wakeselect_opt, on_k, on_kernel, mlift; by rewrite E|].
  split; [by eexists|]. exists Q'. split; [done|]. rewrite Hq. apply elem_of_app. by left.
Qed.

Lemma select_wakes s c rc Q :
  queues_ok (fk (pf s)) Q → procs (fk (pf s)) !! c = Some rc →
  wait_q rc = SELECT_Q ∨ c ∈ Q READY_Q →
  ∃ s', wakeselect_opt (Some c) s = Some ((), s') ∧ only_kernel s s' ∧ runnable s' c.
Proof.
  intros HQ Hc Hw.
  destruct (wakeselect_ready (fk (pf s)) Q c rc HQ Hc) as (k' & Q' & r' & E & HQ' & _ & _ & _ & Hq & _).
  exists (set_pf (set_fk k' (pf s)) s).
  split; [unfold wakeselect_opt, on_k, on_kernel, mlift; by rewrite E|].
  split; [by eexists|]. exists Q'. split; [done|]. rewrite Hq. apply elem_of_app.
  destruct Hw as [-> |Hin]; [right|by left]. by left.
Qed.

Section waking.
Context `{PipeCalls} (f this p : ptr) (flags ino : Z) (inp : ptr) (outp : option ptr) (dos : Z).
Context (Hterm : has flags O_TTY = false).
Context (Hend : (if has flags O_HEAD then Some inp else outp) = Some p).
Let rdy := ready f this p flags ino inp outp dos.

Lemma ready_only_kernel s s' q c :
  rdy s q → only_kernel s s' → runnable s' c →
  (∀ x, is_Some (procs (fk (pf s)) !! x) → is_Some (procs (fk (pf s')) !! x)) → rdy s' q.
Proof.
  intros Hr [k ->] (Q & HQ & _) Hd.
  eapply (ready_frame _ _ _ _ _ _ _ _ s); try done; [apply Hr|apply Hr|by exists Q| |by exists q].
  intros x Hx. apply Hd. by apply (rd_sel _ _ _ _ _ _ _ _ _ _ Hr).
Qed.

(** [pipe_wake_readers] for a pipe with bytes and a selecting process. *)
Lemma wake_readers_selector s q c rc Q :
  rdy s q → 0 < p_len q → p_rsel q = Some c → queues_ok (fk (pf s)) Q →
  procs (fk (pf s)) !! c = Some rc → wait_q rc = SELECT_Q ∨ c ∈ Q READY_Q →
  ∃ s', pipe_wake_readers p s = Some ((), s') ∧ rdy s' q ∧ runnable s' c.
Proof.
  intros Hr Hlen Hsel HQ Hc Hw.
  destruct (select_wakes s c rc Q HQ Hc Hw) as (s1 & E1 & Hk1 & Hrun1).
  destruct (runnable_wake s1 (cond_of p) c Hrun1) as (s2 & E2 & Hk2 & Hrun2).
  destruct (wake_readers_ready _ _ _ _ _ _ _ _ s q Hr) as (s' & E & Hk & Hr').
  assert (pipe_wake_readers p s = Some ((), s2)) as E'.
  { unfold pipe_wake_readers.
    rewrite (bind_run _ _ _ _ _ (getpipe_run _ _ _ (rd_pipe _ _ _ _ _ _ _ _ _ _ Hr))).
    replace (p_len q >? 0) with true by lia. cbn [mwhen]. rewrite Hsel.
    rewrite (bind_run _ _ _ _ _ E1).
    assert (pipes s1 !! p = Some q) as Hp1.
    { rewrite (only_kernel_pipe _ _ _ Hk1). apply (rd_pipe _ _ _ _ _ _ _ _ _ _ Hr). }
    rewrite (bind_run _ _ _ _ _ (getpipe_run _ _ _ Hp1)).
    replace (p_len q >? 0) with true by lia. exact E2. }
  rewrite E in E'. injection E' as ->. by exists s2.
Qed.

Lemma runnable_queue s c :
  runnable s c → ∃ Q rc, queues_ok (fk (pf s)) Q ∧ procs (fk (pf s)) !! c = Some rc ∧ c ∈ Q READY_Q.
Proof.
  intros (Q & HQ & Hc). destruct (queue_elem _ _ READY_Q c HQ) as (rc & Hrc & _); [done..|].
  by exists Q, rc.
Qed.

(** A write that fits does not wait for room. *)
Lemma fits_atomicity fuel n s q :
  rdy s q → n ≤ PIPESIZ - p_len q → check_atomicity (S fuel) f this p n s = Some (None, s).
Proof.
  intros Hr Hn. destruct (ready_fifo _ _ _ _ _ _ _ _ s q Hr) as (fr & r & Hf & Hfl & _).
  cbn [check_atomicity]. rewrite (bind_run _ _ _ _ _ (getf_run _ _ _ Hf)).
  rewrite (bind_run _ _ _ _ _ (held_plain _ Hterm fr this s Hfl)). cbv beta iota.
  rewrite (bind_run _ _ _ _ _ (getpipe_run _ _ _ (rd_pipe _ _ _ _ _ _ _ _ _ _ Hr))).
  by replace (PIPESIZ - p_len q <? n) with false by lia.
Qed.

(** The loop for bytes that fit, with a selecting process. *)
Lemma write_loop_selector fuel x data s q c rc Q :
  let d := x :: data in
  rdy s q → (length d ≤ room q)%nat → p_rsel q = Some c → queues_ok (fk (pf s)) Q →
  procs (fk (pf s)) !! c = Some rc → wait_q rc = SELECT_Q →
  ∃ s' q', write_loop (S fuel) f this p d 0 s = Some (inr (Z.of_nat (length d)), s') ∧
    rdy s' q' ∧ runnable s' c ∧ 0 < p_len q' ∧ p_rsel q' = Some c ∧
    contents q' = contents q ++ d.
Proof.
  intros d Hr Hroom Hsel HQ Hc Hw. pose proof (rd_wf _ _ _ _ _ _ _ _ _ _ Hr) as Hwf.
  destruct (ready_fifo _ _ _ _ _ _ _ _ s q Hr) as (fr & r & Hf & Hfl & _).
  assert (0 < length d)%nat as Hd by (unfold d; cbn; lia).
  destruct (put_chunk q d) as [q1 rest] eqn:Eput.
  destruct (put_chunk_spec q d q1 rest Hwf Eput) as (Hwf1 & Hc1 & Hrest1 & Hsame).
  rewrite drop_ge in Hrest1 by done. rewrite take_ge in Hc1 by done. subst rest.
  destruct (modpipe_ready _ _ _ _ _ _ _ _ s q q1 Hr Hwf1 Hsame) as (s1 & E1 & Hr1 & Es1).
  assert (0 < p_len q1) as Hpos by (rewrite (contents_len q1), Hc1, length_app by done; lia).
  assert (p_rsel q1 = Some c) as Hsel1 by (rewrite <- Hsel; destruct q, q1; cbn in *; by simplify_eq).
  destruct (wake_readers_selector s1 q1 c rc Q Hr1 Hpos Hsel1) as (s2 & E2 & Hr2 & Hrun2);
    [by rewrite Es1..|by left|].
  exists s2, q1. split; [|done].
  unfold d at 1. cbn [write_loop]. fold d. rewrite (bind_run _ _ _ _ _ (getf_run _ _ _ Hf)).
  rewrite (bind_run _ _ _ _ _ (getpipe_run _ _ _ (rd_pipe _ _ _ _ _ _ _ _ _ _ Hr))).
  replace (p_len q <? PIPESIZ) with true.
  2: { symmetry. apply Z.ltb_lt. unfold room in Hroom. lia. }
  rewrite Eput, (bind_run _ _ _ _ _ E1).
  rewrite (bind_run _ _ _ _ _ (wakes_readers_plain _ Hterm fr this _ s1 Hfl)).
  cbn [mwhen]. rewrite (bind_run _ _ _ _ _ E2).
  destruct fuel; cbn [write_loop length]; by rewrite Z.sub_0_r.
Qed.

(** C19: if a process waits in select for a fifo, a write that fits makes it ready and
    leaves the bytes in the pipe. *)
Theorem write_wakes_selector fuel data s q c rc :
  rdy s q → p_rsel q = Some c → procs (fk (pf s)) !! c = Some rc → wait_q rc = SELECT_Q →
  0 < Z.of_nat (length data) ≤ PIPE_BUF → (length data ≤ room q)%nat →
  ∃ s' q', pipe_write (S fuel) f data s = Some (Z.of_nat (length data), s') ∧ runnable s' c ∧
    pipes s' !! p = Some q' ∧ contents q' = contents q ++ data.
Proof.
  intros Hr Hsel Hc Hw Hlen Hroom.
  destruct (rd_queues _ _ _ _ _ _ _ _ _ _ Hr) as [Q HQ].
  rewrite (pipe_write_start _ _ _ _ _ _ _ _ Hend _ data s q Hr).
  replace ((Z.of_nat (length data) >? 0) && (Z.of_nat (length data) <=? PIPE_BUF)) with true by lia.
  erewrite bind_run by (apply (fits_atomicity fuel _ s q Hr); unfold room in Hroom; lia).
  cbv beta iota. destruct data as [|x data]; [cbn in Hlen; lia|].
  destruct (write_loop_selector fuel x data s q c rc Q Hr Hroom Hsel HQ Hc Hw)
    as (s2 & q1 & Ew & Hr2 & Hrun2 & Hpos & Hsel1 & Hc1).
  rewrite (bind_run _ _ _ _ _ Ew). cbv beta iota. erewrite bind_run by done.
  destruct (modfifo_ready f this p flags ino inp outp dos s2 q1 (set_ff_mtime (xtime s2)) Hr2)
    as (s3 & E3 & Hr3 & Hp3); [done|].
  rewrite (bind_run _ _ _ _ _ E3).
  rewrite (bind_run _ _ _ _ _ (getpipe_run _ _ _ (rd_pipe _ _ _ _ _ _ _ _ _ _ Hr3))).
  replace (p_len q1 >? 0) with true by lia. cbn [mwhen].
  assert (runnable s3 c) as Hrun3.
  { unfold modfifo in E3. destruct (fifos s2 !! this); [|done]. by injection E3 as <-. }
  destruct (runnable_queue s3 c Hrun3) as (Q3 & rc3 & HQ3 & Hrc3 & Hin3).
  destruct (wake_readers_selector s3 q1 c rc3 Q3 Hr3 Hpos Hsel1 HQ3 Hrc3) as (s4 & E4 & Hr4 & Hrun4);
    [by right|].
  exists s4, q1. rewrite (bind_run _ _ _ _ _ E4). split; [done|]. split; [done|].
  split; [|done]. apply (rd_pipe _ _ _ _ _ _ _ _ _ _ Hr4).
Qed.
End waking.

(** ** A concrete file system

    The fifo 80 of the example in Pipe.v, opened by its master, the file 70; the file
    71 is about to be opened, by the process 2, and 72 is another one. *)
Section example.
Definition ex_opened (links fl : Z) : fileptr :=
  mk_fileptr links fl 0 0 (mk_fcookie 0 0 5) true None.
Definition ex_fs : pst :=
  set_fifos {[ 80%positive := set_ff_open (Some 70%positive) ex_fifo ]}
    (set_pf (set_files {[ 70%positive := ex_opened 0 (O_HEAD + O_RDWR + O_DENYNONE);
                          71%positive := ex_opened 1 O_RDWR ]} ex_fstate)
       (ex_pst ex_q ex_q)).

Lemma ex_fs_ok : fs_ok ex_fs [80%positive].
Proof.
  split.
  - split; [done|]. by eexists.
  - apply NoDup_singleton.
  - intros b1 b2 r1 r2 H1 H2. apply list_elem_of_singleton in H1, H2. congruence.
  - intros b r Hb. apply list_elem_of_singleton in Hb as ->. intros [= <-].
    split; [by repeat constructor|done].
Qed.

Lemma ex_fifo_ok : fifo_ok ex_fs 80 (set_ff_open (Some 70%positive) ex_fifo) [70%positive].
Proof.
  split; try done.
  - split; [done|]. by eexists.
  - apply NoDup_singleton.
  - intros f fr Hf. apply list_elem_of_singleton in Hf as ->. by intros [= <-].
  - exists ex_q. split; [done|]. split; [done|]. by left.
  - intros o [= <-]. split; [done|]. exists ex_q. split; [done|]. split; [done|]. by left.
Qed.

Lemma ex_waiters_ok : waiters_ok ex_fs.
Proof.
  split; [exists ex_queues; apply ex_queues_ok|]. intros p q x Hp.
  change (pipes ex_fs) with (pipes (ex_pst ex_q ex_q)) in Hp. cbn in Hp.
  apply lookup_insert_Some in Hp as [[_ <-]|[_ Hp]]; [by intros [|]|].
  apply lookup_singleton_Some in Hp as [_ <-]. by intros [|].
Qed.

Lemma pipe_creat_lookup_witness :
  ∃ s' c, pipe_creat (Some (84%positive, [])) (Some (85%positive, [])) (Some 83%positive) None
      (mk_fcookie 0 33 ROOT_INODE) [66; 49] 420 0 (mk_fcookie 0 0 0) ex_fs = Some (E_OK, c, s') ∧
    pipe_lookup (mk_fcookie 0 33 ROOT_INODE) [98; 49] (mk_fcookie 0 0 0) s' = Some (E_OK, c, s').
Proof.
  destruct (pipe_creat_lookup ex_fs [80%positive] ex_fs_ok 84 83 [] (Some (85%positive, [])) None
    (mk_fcookie 0 33 ROOT_INODE) [66; 49] 420 0 (mk_fcookie 0 0 0)
    (ex_proc 2 CURPROC_Q 0 0 None None) (mk_pcred 11 0 0 0 0 5)
    (mk_ucred 0 0 [0; 0; 0; 0; 0; 0; 0; 0] 0 1) eq_refl eq_refl eq_refl)
    with (m_outp := Some (85%positive, @nil Z)) (m_tty := @None (ptr * tty)) (name' := [98; 49])
         (fc0 := mk_fcookie 0 0 0)
    as (s' & c & E & _ & _ & El & _); try done.
  - by intros ?%list_elem_of_singleton.
  - by repeat constructor.
  - intros b r Hb. apply list_elem_of_singleton in Hb as ->. by intros [= <-].
  - by repeat constructor.
  - by exists s', c.
Defined.

Lemma readdir_complete_witness :
  read_all 4 (mk_dir (mk_fcookie 0 33 ROOT_INODE) 0 0) 20 ex_fs =
    Some ([([46], 1); ([46; 46], 1); ([97], 5)], ENMFILES, ex_fs).
Proof.
  destruct (readdir_complete ex_fs [80%positive] ex_fs_ok
    (mk_dir (mk_fcookie 0 33 ROOT_INODE) 7 0) (mk_dir (mk_fcookie 0 33 ROOT_INODE) 0 0) 20)
    as [E _]; [done|done|done|]. exact E.
Defined.

Lemma pipe_open_counts_witness :
  ∃ s' r', pipe_open 71 ex_fs = Some (E_OK, s') ∧ fifo_ok s' 80 r' [71; 70]%positive.
Proof.
  destruct (pipe_open_counts ex_fs [80%positive] 80 _ [70%positive] 71 (ex_opened 1 O_RDWR) 50 ex_table
    ex_fs_ok ltac:(by left) ex_fifo_ok) as (z & s' & r' & E & _ & [(-> & _ & Hf & _)|(-> & Hc & _)]);
    try done.
  - by intros ?%list_elem_of_singleton.
  - by exists s', r'.
Defined.

Lemma pipe_close_counts_witness :
  ∃ s', pipe_close 70 2 ex_fs = Some (E_OK, s') ∧ fs_ok s' [] ∧ fifos s' !! 80%positive = None.
Proof.
  destruct (pipe_close_counts ex_fs [80%positive] 80 _ [70%positive] 70
    (ex_opened 0 (O_HEAD + O_RDWR + O_DENYNONE)) 2 ex_fs_ok ltac:(by left) ex_fifo_ok ex_waiters_ok
    ltac:(by left)) as (s' & E & [(Hk & _)|(_ & Hok & Hn & _)]); try done.
  - by apply Exists_nil in Hk.
  - by exists s'.
Defined.

Lemma pipe_select_read_witness :
  ∃ s', pipe_select 70 3 O_RDONLY (ex_pst ex_q ex_q) = Some (1, s') ∧
    ∃ l s1, @pipe_read (sleepless ex_signals (λ _ _, mret ())) 1 70 1 (ex_pst ex_q ex_q)
      = Some (1, l, s1) ∧ l = [5].
Proof.
  destruct (pipe_select_read 70 80 82 (O_HEAD + O_RDWR) 5 81 (Some 82%positive) 0 eq_refl eq_refl
    ex_signals (λ _ _, mret ()) 0 (ex_pst ex_q ex_q) ex_q 3)
    as (z & s' & E & [(-> & -> & l & s1 & Er & El)|[(-> & Hc & _)|(-> & _ & Hc & _)]]).
  - apply ex_ready; [done|apply ex_q_wf|done..].
  - eexists. split; [exact E|]. exists l, s1.
    assert (l = [5]) as Hl by (rewrite El; by vm_compute).
    split; [|done]. rewrite Hl in Er |- *. exact Er.
  - by vm_compute in Hc.
  - by vm_compute in Hc.
Defined.

(** The process 3 waits in select. *)
Definition ex_sel_kst : kst :=
  match (rm_q READY_Q 3 ;; add_q SELECT_Q 3) ex_kst with Some (_, k) => k | None => ex_kst end.

Lemma ex_sel_queues_ok : ∃ Q, queues_ok ex_sel_kst Q.
Proof.
  destruct (rm_q_ok ex_kst ex_queues READY_Q 3 ex_queues_ok) as (r & k & Hr & E & Hok & Hp & _);
    [done|by left|].
  destruct (add_q_ok k _ SELECT_Q 3 (core r) Hok ltac:(done) Hp eq_refl) as (k' & E' & Hok' & _).
  unfold ex_sel_kst. rewrite (bind_run _ _ _ _ _ E), E'. by eexists.
Qed.

Definition ex_selecting : pst :=
  let s := ex_pst (set_p_rsel (Some 3%positive) ex_q) ex_q in set_pf (set_fk ex_sel_kst (pf s)) s.

Lemma write_wakes_selector_witness :
  ∃ s' q', @pipe_write (sleepless ex_signals (λ _ _, mret ())) 1 70 [9] ex_selecting = Some (1, s') ∧
    runnable s' 3 ∧ pipes s' !! 81%positive = Some q' ∧ contents q' = contents ex_q ++ [9].
Proof.
  destruct (procs ex_sel_kst !! 3%positive) as [rc|] eqn:Erc; [|by vm_compute in Erc].
  apply (@write_wakes_selector (sleepless ex_signals (λ _ _, mret ())) 70 80 81 (O_HEAD + O_RDWR) 5 81
    (Some 82%positive) 0 eq_refl eq_refl 0 [9] ex_selecting (set_p_rsel (Some 3%positive) ex_q) 3 rc).
  - split; [by eexists|done|by eexists|done| |exact ex_sel_queues_ok|].
    + destruct ex_q_wf. by split.
    + intros x [[= <-]|Hx]; [by exists rc|done].
  - done.
  - exact Erc.
  - apply (f_equal (fmap wait_q)) in Erc. vm_compute in Erc. by injection Erc.
  - done.
  - vm_compute. lia.
Defined.

(** Creating the fifo 83, opening it with the given flags, and closing it. *)
Definition create_open_close (fl : Z) : M pst Z :=
  '(_, c) ← pipe_creat (Some (84%positive, [])) (Some (85%positive, [])) (Some 83%positive) None
    (mk_fcookie 0 33 ROOT_INODE) [66; 49] 420 0 (mk_fcookie 0 0 0);
  mmod (λ s, with_file 72 (mk_fileptr 1 fl 0 0 c true None) s) ;;
  pipe_open 72 ;;
  mod_file 72 (set_f_links 0) ;;
  pipe_close 72 2.

(** a fifo whose creator opens it for reading only is never disposed of: after
    the close no file is open, but the writer that was counted for the creator
    remains; a creator that opens it for writing, too, leaves nothing behind. *)
Theorem rdonly_creator_leaks :
  (∃ s' r q, create_open_close (O_CREAT + O_RDONLY) ex_fs = Some (E_OK, s') ∧
    piperoot s' = Some 83%positive ∧ fifos s' !! 83%positive = Some r ∧ ff_open r = None ∧
    pipes s' !! ff_inp r = Some q ∧ readers q = 0 ∧ writers q = 1) ∧
  (∃ s', create_open_close (O_CREAT + O_RDWR) ex_fs = Some (E_OK, s') ∧
    piperoot s' = Some 80%positive ∧ fifos s' !! 83%positive = None).
Proof.
  split.
  - destruct (create_open_close (O_CREAT + O_RDONLY) ex_fs) as [[z s']|] eqn:E; vm_compute in E; [|done].
    injection E as <- <-. do 3 eexists. do 2 (split; [reflexivity|]). by repeat split.
  - destruct (create_open_close (O_CREAT + O_RDWR) ex_fs) as [[z s']|] eqn:E; vm_compute in E; [|done].
    injection E as <- <-. eexists. by repeat split.
Qed.
End example.
